(* ===== verification/_CoqProject ===== *)
-Q . S2P
Prelude.v
MvccEngine.v
MvccEquivalence.v
MvccConservation.v
MvccFees.v
MvccWitness.v
AuditEvents.v
EscrowVault.v
VaultSpec.v
VaultTheorems.v
Governance.v
GovernanceSpec.v
GovernanceTheorems.v
SettlementTypes.v
Settlement.v
SettlementTheorems.v
SettlementWitness.v
Parallel.v
ParallelTheorems.v
Wire.v
WireTheorems.v
Crypto.v
CryptoTheorems.v
PonState.v
PonExecutor.v
PonTracked.v
PonSafety.v
PonParallel.v
PonFunds.v
PonErrors.v
PonTheorems.v
PonAllocation.v
CryptoWitness.v
PonWitness.v
Lanes.v
LanesTheorems.v
TypedAdmission.v
TypedTheorems.v
TypedLeases.v
TypedRuns.v
MempoolWitness.v
ResearchCbor.v
ResearchTypes.v
ResearchCommand.v
ResearchCodec.v
ResearchDecode.v
ResearchState.v
ResearchSteps.v
ResearchInvariant.v
ResearchSnapshot.v
ResearchTheorems.v
ResearchWitness.v
KernelTypes.v
KernelStore.v
KernelAudit.v
Kernel.v
KernelService.v
KernelObjects.v
KernelSteps.v
KernelLedger.v
KernelBudgets.v
KernelJournal.v
KernelMarkers.v
KernelCommit.v
KernelRuns.v
KernelSafety.v
KernelTheorems.v
KernelPreview.v
KernelCodec.v
KernelWitness.v
ByteReader.v
PeerLease.v
PeerLeaseJournal.v
PeerLeaseRuns.v
PeerLeaseTheorems.v
PeerLeaseFrames.v
PeerLeaseDaemon.v
PeerLeaseWitness.v
AgentWire.v
Oracle.v
