(* ===== verification/Prelude.v ===== *)
(** * Trillionnium Chain: a verification development of its kernels

    The program is a workspace of Rust crates under
    src/trillionnium/crates.  Its core logic is a set of deterministic kernels,
    pure functions from a state and a command to a result, around which stores,
    daemons and agents do input and output.  This development models kernels as
    executable functions, translated function by function, and proves what makes
    them correct.

    ** The parts and their files

    - [Prelude] (this file): the fragment of Rust the crates share.  [result]
      has [Ok], [Err] and [Panic] ([expect], division by zero, crossed [clamp]
      bounds, an index out of range); [SE] is the state-and-error monad of
      [&mut self] methods, in which state changed before an early return
      survives; machine integers are [Z] with the width's maximum and explicit
      checked, saturating or wrapping operations; [Ord] is a total order given
      by a class; [BTreeMap] is [gmap] iterated in key order by [btree_iter];
      [String] is a list of code points.  The lemmas, tactics and the [trnm]
      hint database that all components use are here.
    - trnm-mvcc-fee, engine.rs, types.rs, codec.rs: [MvccEngine] is the model
      (genesis and block validation, metering, fees, the sequential oracle
      [execute_block], the worker pool and [execute_block_with_workers]).
      [MvccEquivalence] holds C1, [MvccConservation] C2-C3, [MvccFees] the
      receipts and the fee split, [MvccWitness] a concrete block.
    - trnm-audit-events: [AuditEvents], the record to which the vault and the
      governance guard normalize their logs.
    - trnm-escrow-vault: [EscrowVault] is the model, [VaultSpec] the abstract
      contract (a labelled transition system whose labels are the audit events)
      and its simulation, [VaultTheorems] C8-C10 and, in its Module
      [VaultWitness], a history.
    - trnm-governance-guard: [Governance] is the model, [GovernanceSpec] its
      step relation and simulation, [GovernanceTheorems] C13-C15 and, in
      its Module [GovernanceWitness], histories.
    - trnm-service-settlement, engine.rs, types.rs, codec.rs, error.rs:
      [SettlementTypes] and [Settlement] are the model, [SettlementTheorems]
      C19, C20 and C23, [SettlementWitness] a run from the first receipt to the payout.
    - trnm-mvcc-fee, deterministic_parallel_v1.rs: [Parallel] is the model,
      [ParallelTheorems] C26 and, in its Module [ParallelWitness], concrete blocks.
    - trnm-protocol, pon_wire.rs: [Wire] is the model of the header and envelope
      codecs and of the sparse Merkle state root, [WireTheorems] both codecs and
      C32 and, in its Module [WireWitness], concrete values.
    - trnm-crypto-primitives, lib.rs: [Crypto] is the model of digest texts,
      canonical keys and the signature checks over the class [CryptoCrates] of
      the third-party crates, [CryptoTheorems] C38, [CryptoWitness] a
      hexadecimal codec that satisfies the laws assumed of it.
    - trnm-mvcc-fee, pon_executor.rs: [PonState] models JSON values, views and
      patches, [PonExecutor] every command, the block loop and the worker pool.
      [PonTracked], [PonSafety], [PonFunds] and [PonErrors] are the proof of the
      executor's invariants, [PonParallel] C33, [PonTheorems] C34,
      [PonAllocation] C36, [PonWitness] a ledger with a block.
    - trnm-mempool, lib.rs and typed_admission.rs: [Lanes] and [TypedAdmission]
      are the models, [LanesTheorems] C7 and C18, [TypedTheorems] and
      [TypedLeases] the invariants of the typed gate, [TypedRuns] C39-C40,
      [MempoolWitness] concrete runs.
    - trnm-research-protocol: [ResearchCbor] (canonical.rs), [ResearchTypes]
      (types.rs), [ResearchCommand] (command.rs) and [ResearchState] (state.rs)
      are the model.  [ResearchCodec] and [ResearchDecode] prove that the
      decoders read what the encoders write and return typed values;
      [ResearchSteps] gives the handlers as a step relation, [ResearchInvariant]
      the object graph they preserve, [ResearchSnapshot] the reload;
      [ResearchTheorems] holds C4, C12, C25 and C28, [ResearchWitness] a
      claim from match evidence to amended shares.
    - trnm-task-kernel, types.rs, codec.rs, error.rs, store.rs: [KernelTypes]
      (records, commands, identifiers, digests), [KernelStore] (the four SQLite
      tables as maps, rows with checksums, roots, metadata, block markers),
      [KernelAudit] (schema, metadata, object, journal and marker audits and the
      verified openings), [Kernel] (authorization, the six handlers, budgets) and
      [KernelService] (genesis, execution with its fault paths, empty blocks,
      readback, receipts, preview) are the model.  [KernelObjects] relates the
      object rows to typed objects, [KernelSteps] gives the abstract kernel
      [performs] and proves that a handler makes its step, [KernelLedger] and
      [KernelBudgets] are the invariants of money, market and budgets,
      [KernelJournal] and [KernelMarkers] those of the operation journal and the
      block chain, [KernelCommit] shows that a commit passes every audit,
      [KernelRuns] that every reachable store does, [KernelSafety] that nothing
      panics; [KernelTheorems] holds C5, C11, C17, C22, C24 and C37,
      [KernelPreview] C27, [KernelCodec] a serializer that satisfies the laws
      assumed of Borsh, [KernelWitness] a market from genesis to leases.
    - trnm-task-kernel, agent_transaction_wire_v1.rs: [AgentWire] is the outer
      wire of kernel commands, with C30 and, in its Module [AgentWireWitness],
      a transaction.
    - trnm-peer-lease, protocol.rs, store.rs, unix/connection_service.rs:
      [PeerLease] is the model of scopes, tokens, frames, the hash-chained
      journal, the published head and the four operations, [PeerLeaseDaemon] that
      of the socket service, over the cursor of [ByteReader], which [AgentWire]
      uses too.  [PeerLeaseJournal] reads a journal as a history of events,
      [PeerLeaseRuns] relates operations and reopening to the history,
      [PeerLeaseTheorems] holds C6, C16 and C21, [PeerLeaseFrames] C31,
      [PeerLeaseDaemon] C35, [PeerLeaseWitness] runs with restarts and a torn
      write.
    - trnm-oracle, lib.rs: [Oracle] is the model of snapshots, their digest and
      the admission policy, with C29 and, in its Module [OracleWitness], snapshots.

    Parts build on others: the PoN executor decodes envelopes with [Wire] and
    checks signatures with [Crypto]; typed admission runs on the lanes; the agent
    wire carries the commands of the task kernel; the lease daemon serves many
    connections from one lease authority; the research protocol, the task kernel,
    the lease authority and the oracle hash with the crates of [Crypto].  The
    remaining kernels are called by a store, daemon or test with their whole
    state, and share the audit record (vault and governance) and the conventions
    of this file.

    ** What the theorems show

    - MVCC kernel: parallel execution with any admissible number of workers
      returns what the sequential oracle returns, errors included (C1); a block
      conserves value (C2); a validated genesis excludes every panic (C3);
      receipts are exact ([receipts_account_for_transactions]), and so is fee
      splitting ([split_fee_exact]).  Also proved: objects persist and versions
      grow with every change, and conflict sets are exact.
    - Vault: every call is one step of the contract or a refusal that changes
      nothing (C8); deposits are conserved (C9); the state is the replay of the
      event log (C10); a lock is settled once ([vault_locks_are_one_shot]); the
      guards hold ([vault_guards]).
    - Governance: every call is one step or a refusal (C13); executed changes of
      a parameter form a chain (C14); the timelock is enforced (C15); only an
      executor's restore past its delay lifts a pause ([pause_restore_discipline]); proposals move
      forward only ([proposals_only_move_forward]); the log always normalizes ([normalized_log_total]).
    - Settlement: value is conserved (C19) and paid out exactly (C20); receipts
      form a digest-linked chain ([admitted_receipts_form_a_chain]); a rolled-up engine can settle (C23); the
      phases are one-way ([settlement_phases_one_way]); no transition panics
      ([settlement_never_panics]); cumulative usage is exact for distinct resource keys ([cumulative_usage_exact]).
    - Parallel executor: acceptance and result are those of serial execution for
      blocks whose transactions all speculate without error (C26), for every
      worker count ([parallel_result_worker_independent]); fees and versions are exact ([parallel_fees_exact],
      [parallel_versions_exact]).
    - Wire: the state root is a sparse Merkle tree defined by key bits alone
      (C32); both codecs are exact inverses on bytes ([header_codec_exact],
      [envelope_codec_exact]).
    - PoN executor: every worker count gives the serial outcome (C33); funds
      equal issuance after every block (C34); nonces advance exactly and no
      transaction commits twice ([pon_nonces_exact]); the allocation tree is built and every
      leaf can be claimed (C36).
    - Cryptographic checks: the point check is the bound of the field (C38); the
      fast hexadecimal path agrees with the general one and accepts canonical
      texts only ([hash_text_canonical]).
    - Mempool: the two-lane gate is a pair of bounded queues whatever its caches
      do (C7); normal traffic waits a bounded number of dequeues (C18); a typed
      gate admits exactly the records that were read from their envelope and
      passed every check, in order (C39); a reserved nonce is handed off
      and then committed or released once (C40).
    - Research protocol: the object graph is well formed (C4); snapshots reload
      (C12); the strict decoder accepts exactly the canonical encodings of valid
      signed commands (C25); a command takes effect once (C28); calls are total
      and atomic, and report exactly what changed ([apply_total_and_atomic]).
    - Task kernel: an execution is one step of the abstract kernel with a confirmed
      receipt, a replay or a refusal that writes nothing (C5); a lost
      acknowledgement is recovered by retrying (C24); a third state fences the
      store for good (C11); money is conserved (C37); nonces and budgets are exact
      (C17); tasks, escrows, bids and leases agree (C22); the preview of a block
      predicts its execution, receipts and root (C27).
    - Agent wire: decoding accepts exactly the encodings of well-typed commands
      that name no zero identifier (C30).
    - Peer lease: what the authority acknowledged survives every failure of the
      file system, and an error leaves the authority before or after one event
      (C6); the journal is a history in which every event is granted by the
      earlier ones (C21); of two tokens of one scope the later has the larger
      generation (C16); frames are exact inverses on bytes (C31); however
      requests are cut into reads, the daemon applies at most one request per
      connection and answers it with what the authority answered (C35).
    - Oracle: a snapshot is admitted exactly when its declarative conditions hold
      (C29; a bound of zero basis points admits every drift below one basis
      point); the report of a validation counts one outcome
      ([observed_reports_are_consistent]); a snapshot built by the constructor is
      canonical ([new_snapshot_canonical]).

    Behaviours of the code that depart from its intent or its documentation are
    stated as lemmas: [duplicate_usage_key_loses_total] and
    [fee_overflow_blocks_settlement] for the settlement engine,
    [speculative_error_is_final] and [reported_error_depends_on_workers] for the
    parallel executor, [critical_lane_can_starve] for the lanes,
    [reload_accepts_dangling_challenge] for the research protocol,
    [lease_accepts_foreign_bid] for the task kernel,
    [zero_capability_is_not_read_back] for its agent wire, [deviation_saturates] and
    [zero_deviation_admits_drift] for the oracle.

    ** Parameters, bounds and fuel

    SHA-256, Borsh serialization and Ed25519 verification are third-party code:
    they are parameters (type classes or section variables), and no theorem
    assumes a hash free of collisions.  The witnesses instantiate them by simple
    functions.  The loops of a worker thread advance by a positive step through
    the block's transactions, so their fuel, the number of transactions, is
    enough; the lemmas on the worker pools prove that every transaction is
    reached.  Slot search and the allocation loop have the length of their lists
    as fuel; a decoded collection has the length of the input, since every item
    takes a byte.  [HexLaws] states what the documentation of the hex crate says,
    and [CryptoWitness] satisfies it; serde_json, the admission hooks and the
    start of a thread are classes or parameters without laws.  The research
    protocol adds to an object's version with overflow checks on: [apply_total_and_atomic]
    bounds the commands applied by 2^64 - 1.  The task kernel assumes of Borsh that typed
    values round-trip and that decoding yields typed values ([KernelLaws]); a
    transaction on its store is a value that replaces the store at the commit.
    Its audit counts operations in 64 bits, so the theorems about commits bound
    the journal by 2^64 - 2 operations, and C27 bounds encoded components by 2^64
    bytes and asks that the candidate block is new to the store, which the preview
    does not check.  The recursion of the Merkle root is structural on the height, 256
    at the top.  The governance theorems about identifiers bound the number of
    calls by the 64-bit nonce, beyond which the code saturates.  A thread of a
    pool reads an immutable snapshot and returns its rows, so a pool is the list
    of its workers' results in join order.  The lease
    authority takes what the file system does to an operation as the argument
    [Faults], and the daemon takes the events of sockets and clocks as the
    argument of a turn; their theorems assume that SHA-256 returns 32 bytes
    ([DigestWidth]); C6 excepts a last record that hashes to 32 zero bytes, a head
    that the code refuses on reopening.  Replay has
    the length of the journal as fuel, since every record takes bytes.  C30 is about
    slices of at most 2^64 - 1 bytes.  C23 assumes of Borsh what its documentation
    says ([settle_serializes]): values of fixed size are encoded, and lists and
    strings whose length fits 32 bits; it bounds the chain identifier by 2^32 - 1
    bytes.  C35 names a connection by its stream and takes the streams that
    [accept] returns as distinct.  C29 bounds the sources of
    a snapshot by 2^32 and the deviation by 128 bits, beyond which the code
    saturates.

    ** Not modelled

    Input and output around the kernels: the SQLite stores of trnm-mvcc-fee,
    trnm-service-settlement and trnm-data-availability, the file ledgers of
    trnm-checkpoint-store and trnm-state-import, the archive of trnm-task-kernel,
    the client and the payload log of trnm-peer-lease, trnm-transport, the worker
    agent, the control plane and the benchmarks.  Their content is what SQLite,
    the file system, sockets and processes do; of SQLite the task kernel has the
    tables, keys and constraints, not its I/O failures.

    Pure code that no modelled kernel calls: the canonical transaction of
    trnm-protocol (lib.rs), the retry gate of the mempool binary (main.rs,
    gate.rs), the registries and normalization tables of trnm-types, the grouping
    and the adaptive profile of trnm-executor, whose inputs are environment
    settings and timings, the matrix work of trnm-crypto-primitives (pon_work.rs),
    the records of trnm-checkpoint-types, the static tables of
    trnm-verification-profiles and the manifest of trnm-release-bundle. *)

From stdpp Require Import base gmap list sorting strings numbers pretty.
From Stdlib Require Import ZArith Lia.

Declare Scope rust_scope.
Delimit Scope rust_scope with rust.
#[global] Open Scope Z_scope.

Create HintDb trnm.

(** ** Results *)

(** The outcome of a Rust call: [Ok], [Err], or a panic ([expect], division by
    zero, [clamp] with crossed bounds, ...). *)
Inductive result (E A : Type) : Type :=
| Ok (a : A)
| Err (e : E)
| Panic.

Arguments Ok {_ _} _.
Arguments Err {_ _} _.
Arguments Panic {_ _}.

#[export] Instance result_ret {E} : MRet (result E) := fun A a => Ok a.
#[export] Instance result_bind {E} : MBind (result E) := fun A B f m =>
  match m with Ok a => f a | Err e => Err e | Panic => Panic end.

(** [o.ok_or(e)?] *)
Definition ok_or {E A} (o : option A) (e : E) : result E A :=
  match o with Some a => Ok a | None => Err e end.

(** [o.expect(..)] *)
Definition expect {E A} (o : option A) : result E A :=
  match o with Some a => Ok a | None => Panic end.

(** [if b { return Err(e) }] *)
Definition fail_if {E} (b : bool) (e : E) : result E () :=
  if b then Err e else Ok tt.

(** [r.map_err(f)] *)
Definition map_err {E F A} (f : E -> F) (r : result E A) : result F A :=
  match r with Ok a => Ok a | Err e => Err (f e) | Panic => Panic end.

(** Short-circuiting [a || b?] where the right operand may return early. *)
Definition or_else {E} (a : bool) (b : result E bool) : result E bool :=
  if a then Ok true else b.

(** [iter.try_fold(b, f)] *)
Fixpoint try_fold {E A B} (f : B -> A -> result E B) (b : B) (l : list A) : result E B :=
  match l with
  | [] => Ok b
  | a :: l => b' ← f b a; try_fold f b' l
  end.

(** [iter.map(f).collect::<Result<Vec<_>, _>>()]: stops at the first error. *)
Fixpoint try_map {E A B} (f : A -> result E B) (l : list A) : result E (list B) :=
  match l with
  | [] => Ok []
  | a :: l => b ← f a; bs ← try_map f l; Ok (b :: bs)
  end.

Definition is_panic {E A} (r : result E A) : bool :=
  match r with Panic => true | _ => false end.

Section results.
Context {E : Type}.

Lemma bind_Ok {A B} (m : result E A) (f : A -> result E B) b :
  m ≫= f = Ok b <-> exists a, m = Ok a /\ f a = Ok b.
Proof. destruct m; simpl; naive_solver. Qed.

Lemma Ok_inj {A} (a b : A) : Ok (E := E) a = Ok b -> a = b.
Proof. by intros [= ->]. Qed.

Lemma bind_ext {A B} (m : result E A) (f g : A -> result E B) :
  (forall a, m = Ok a -> f a = g a) -> m ≫= f = m ≫= g.
Proof. destruct m; simpl; auto. Qed.

Lemma bind_not_panic {A B} (m : result E A) (f : A -> result E B) :
  m <> Panic -> (forall a, m = Ok a -> f a <> Panic) -> m ≫= f <> Panic.
Proof. destruct m; simpl; naive_solver. Qed.

Lemma fail_if_Ok b (e : E) u : fail_if b e = Ok u <-> b = false.
Proof. destruct b, u; simpl; naive_solver. Qed.

Lemma ok_or_Ok {A} (o : option A) (e : E) a : ok_or o e = Ok a <-> o = Some a.
Proof. destruct o; simpl; naive_solver. Qed.

Lemma ok_or_not_panic {A} (o : option A) (e : E) : ok_or o e <> Panic.
Proof. by destruct o. Qed.

Lemma fail_if_not_panic b (e : E) : fail_if b e <> Panic.
Proof. by destruct b. Qed.

Lemma or_else_not_panic a (b : result E bool) : b <> Panic -> or_else a b <> Panic.
Proof. by destruct a. Qed.

Lemma expect_Ok {A} (o : option A) (a : A) : expect (E:=E) o = Ok a <-> o = Some a.
Proof. destruct o; simpl; naive_solver. Qed.

Lemma expect_not_panic {A} (o : option A) : is_Some o -> expect (E:=E) o <> Panic.
Proof. intros [? ->]. done. Qed.

Lemma try_fold_app {A B} (f : B -> A -> result E B) b l1 l2 :
  try_fold f b (l1 ++ l2) = b' ← try_fold f b l1; try_fold f b' l2.
Proof. revert b. induction l1 as [|a l1 IH]; intros b; simpl; [done|]. destruct (f b a); simpl; auto. Qed.

(** An invariant of the accumulator survives a successful [try_fold]. *)
Lemma try_fold_inv {A B} (P : B -> Prop) (f : B -> A -> result E B) l b b' :
  P b -> (forall x a x', a ∈ l -> P x -> f x a = Ok x' -> P x') ->
  try_fold f b l = Ok b' -> P b'.
Proof.
  revert b. induction l as [|a l IH]; simpl; intros b Hb Hf H; [naive_solver|].
  apply bind_Ok in H as (x & Hx & H).
  eapply IH; [|intros; eapply Hf; eauto; by right|exact H].
  eapply Hf; eauto. by left.
Qed.

Lemma try_fold_not_panic {A B} (P : B -> Prop) (f : B -> A -> result E B) l b :
  P b -> (forall x a, a ∈ l -> P x -> f x a <> Panic) ->
  (forall x a x', a ∈ l -> P x -> f x a = Ok x' -> P x') ->
  try_fold f b l <> Panic.
Proof.
  revert b. induction l as [|a l IH]; simpl; intros b Hb Hf Hp; [done|].
  apply bind_not_panic; [apply Hf; auto; by left|].
  intros x Hx. apply IH; [eapply Hp; eauto; by left| |]; intros; [eapply Hf|eapply Hp]; eauto; by right.
Qed.

Lemma try_fold_ext {A B} (f g : B -> A -> result E B) l b :
  (forall x a, a ∈ l -> f x a = g x a) -> try_fold f b l = try_fold g b l.
Proof.
  revert b. induction l as [|a l IH]; simpl; intros b H; [done|].
  rewrite H by by left. destruct (g b a); simpl; auto. apply IH. intros. apply H. by right.
Qed.

(** What every accepted element satisfies. *)
Lemma try_fold_Forall {A B} (P : A -> Prop) (f : B -> A -> result E B) l b b' :
  (forall x a x', f x a = Ok x' -> P a) -> try_fold f b l = Ok b' -> Forall P l.
Proof.
  intros Hf. revert b. induction l as [|a l IH]; simpl; intros b H; [constructor|].
  apply bind_Ok in H as (x & Hx & H). constructor; eauto.
Qed.

Lemma try_map_Ok {A B} (f : A -> result E B) l k :
  try_map f l = Ok k <-> Forall2 (fun a b => f a = Ok b) l k.
Proof.
  revert k. induction l as [|a l IH]; intros k; simpl.
  - split; [intros [= <-]; constructor|]. by inversion 1.
  - rewrite bind_Ok. split.
    + intros (b & Hb & H). apply bind_Ok in H as (bs & Hbs & [= <-]).
      constructor; [done|]. by apply IH.
    + intros H. inversion H as [|? b ? bs Hb Hbs]; subst. exists b; split; [done|].
      apply bind_Ok. exists bs. split; [by apply IH|done].
Qed.

Lemma try_map_ext {A B} (f g : A -> result E B) l :
  (forall a, a ∈ l -> f a = g a) -> try_map f l = try_map g l.
Proof.
  induction l as [|a l IH]; simpl; intros H; [done|].
  rewrite H by by left. destruct (g a); simpl; auto. rewrite IH; [done|].
  intros. apply H. by right.
Qed.

Lemma try_map_not_panic {A B} (f : A -> result E B) l :
  (forall a, a ∈ l -> f a <> Panic) -> try_map f l <> Panic.
Proof.
  induction l as [|a l IH]; simpl; intros H; [done|].
  apply bind_not_panic; [apply H; by left|]. intros b _.
  apply bind_not_panic; [apply IH; intros; apply H; by right|done].
Qed.

Lemma try_map_length {A B} (f : A -> result E B) l k :
  try_map f l = Ok k -> length k = length l.
Proof. intros H%try_map_Ok. symmetry. by eapply Forall2_length. Qed.

End results.

#[export] Hint Resolve ok_or_not_panic fail_if_not_panic : trnm.

(** Peel one layer of [?] off a successful computation. *)
Ltac rinv1 H :=
  lazymatch type of H with
  | (_ ≫= _) = Ok _ => let x := fresh "r" in let Hx := fresh "Hr" in
      apply bind_Ok in H as (x & Hx & H)
  | fail_if _ _ = Ok _ => apply fail_if_Ok in H
  | ok_or _ _ = Ok _ => apply ok_or_Ok in H
  | expect _ = Ok _ => apply expect_Ok in H
  | mret _ = Ok _ => injection H as H
  | Ok _ = Ok _ => injection H as H
  | Err _ = Ok _ => discriminate H
  | Panic = Ok _ => discriminate H
  end.

(** Invert every successful step of every hypothesis. *)
Ltac rinv :=
  repeat match goal with
  | H : (_ ≫= _) = Ok _ |- _ => rinv1 H
  | H : fail_if _ _ = Ok ?u |- _ => apply fail_if_Ok in H
  | H : ok_or _ _ = Ok _ |- _ => apply ok_or_Ok in H
  | H : expect _ = Ok _ |- _ => apply expect_Ok in H
  | H : mret _ = Ok _ |- _ => injection H as H
  | H : Ok _ = Ok _ |- _ => injection H as H
  | H : Err _ = Ok _ |- _ => discriminate H
  | H : Panic = Ok _ |- _ => discriminate H
  | H : (match ?p with pair _ _ => _ end) = Ok _ |- _ =>
      is_var p; let a := fresh "p" in let b := fresh "p" in destruct p as [a b]
  | H : (let _ := _ in _) = Ok _ |- _ => cbv zeta in H
  end.

(** Show that a chain of [?] steps cannot panic, step by step. *)
Ltac no_panic :=
  repeat match goal with
  | |- (_ ≫= _) <> Panic => apply bind_not_panic; [|intros ? ?]
  | |- ok_or _ _ <> Panic => apply ok_or_not_panic
  | |- fail_if _ _ <> Panic => apply fail_if_not_panic
  | |- or_else _ _ <> Panic => apply or_else_not_panic
  | |- (match ?p with pair _ _ => _ end) <> Panic => is_var p; destruct p
  | |- Ok _ <> Panic => discriminate
  | |- Err _ <> Panic => discriminate
  | |- mret _ <> Panic => discriminate
  end.

(** ** The [&mut self] monad: the state survives an early return *)

Definition SE (S E A : Type) : Type := S -> result E A * S.

#[export] Instance SE_ret {S E} : MRet (SE S E) := fun A a s => (Ok a, s).
#[export] Instance SE_bind {S E} : MBind (SE S E) := fun A B f m s =>
  match m s with
  | (Ok a, s') => f a s'
  | (Err e, s') => (Err e, s')
  | (Panic, s') => (Panic, s')
  end.

Definition get_self {S E} : SE S E S := fun s => (Ok s, s).
Definition set_self {S E} (s : S) : SE S E () := fun _ => (Ok tt, s).
Definition modify_self {S E} (f : S -> S) : SE S E () := fun s => (Ok tt, f s).
Definition lift {S E A} (r : result E A) : SE S E A := fun s => (r, s).

(** ** Booleans from decidable propositions *)

Notation "a =?? b" := (bool_decide (a = b)) (at level 38, no associativity) : rust_scope.
Notation "a <>? b" := (negb (bool_decide (a = b))) (at level 38, no associativity) : rust_scope.
#[global] Open Scope rust_scope.

(** Turn boolean guards in the context into propositions. *)
Ltac bprop :=
  repeat match goal with
  | H : _ || _ = false |- _ => apply orb_false_iff in H as [? ?]
  | H : _ && _ = true |- _ => apply andb_true_iff in H as [? ?]
  | H : negb _ = false |- _ => apply negb_false_iff in H
  | H : negb _ = true |- _ => apply negb_true_iff in H
  | H : bool_decide _ = true |- _ => apply bool_decide_eq_true in H
  | H : bool_decide _ = false |- _ => apply bool_decide_eq_false in H
  | H : (_ =? _) = true |- _ => apply Z.eqb_eq in H
  | H : (_ =? _) = false |- _ => apply Z.eqb_neq in H
  | H : (_ <? _) = true |- _ => apply Z.ltb_lt in H
  | H : (_ <? _) = false |- _ => apply Z.ltb_ge in H
  | H : (_ <=? _) = true |- _ => apply Z.leb_le in H
  | H : (_ <=? _) = false |- _ => apply Z.leb_gt in H
  end.

(** ** Machine integers *)

Definition u8_max : Z := 255.
Definition u16_max : Z := 65535.
Definition u32_max : Z := 4294967295.
Definition u64_max : Z := 18446744073709551615.
Definition u128_max : Z := 340282366920938463463374607431768211455.
Definition i128_min : Z := -170141183460469231731687303715884105728.
Definition i128_max : Z := 170141183460469231731687303715884105727.

Definition in_u64 (z : Z) : Prop := 0 <= z <= u64_max.
Definition in_u128 (z : Z) : Prop := 0 <= z <= u128_max.
Definition in_i128 (z : Z) : Prop := i128_min <= z <= i128_max.

(** [checked_add] at the width whose maximum is [m]. *)
Definition checked_add (m a b : Z) : option Z := if a + b <=? m then Some (a + b) else None.
Definition checked_mul (m a b : Z) : option Z := if a * b <=? m then Some (a * b) else None.
(** [checked_sub] of unsigned operands. *)
Definition checked_sub (a b : Z) : option Z := if b <=? a then Some (a - b) else None.
Definition saturating_add (m a b : Z) : Z := Z.min m (a + b).
(** [i128::checked_add] *)
Definition i128_checked_add (a b : Z) : option Z :=
  if (i128_min <=? a + b) && (a + b <=? i128_max) then Some (a + b) else None.
(** [uN::try_from(len)] *)
Definition try_from (m z : Z) : option Z := if z <=? m then Some z else None.

(** [a / b] and [a % b] on unsigned integers: a zero divisor panics. *)
Definition u_div {E} (a b : Z) : result E Z := if b =? 0 then Panic else Ok (a / b).
Definition u_rem {E} (a b : Z) : result E Z := if b =? 0 then Panic else Ok (a mod b).
(** [v.clamp(lo, hi)]: panics when [lo > hi]. *)
Definition clamp {E} (v lo hi : Z) : result E Z :=
  if hi <? lo then Panic else Ok (if v <? lo then lo else if hi <? v then hi else v).

Lemma checked_add_Some m a b c : checked_add m a b = Some c <-> c = a + b /\ a + b <= m.
Proof. unfold checked_add. destruct (a + b <=? m) eqn:?; bprop; naive_solver lia. Qed.

Lemma checked_mul_Some m a b c : checked_mul m a b = Some c <-> c = a * b /\ a * b <= m.
Proof. unfold checked_mul. destruct (a * b <=? m) eqn:?; bprop; naive_solver lia. Qed.

Lemma checked_sub_Some a b c : checked_sub a b = Some c <-> c = a - b /\ b <= a.
Proof. unfold checked_sub. destruct (b <=? a) eqn:?; bprop; naive_solver lia. Qed.

Lemma i128_checked_add_Some a b c :
  i128_checked_add a b = Some c <-> c = a + b /\ in_i128 (a + b).
Proof.
  unfold i128_checked_add, in_i128.
  destruct (i128_min <=? a + b) eqn:?, (a + b <=? i128_max) eqn:?; simpl; bprop; naive_solver lia.
Qed.

Lemma try_from_Some m z c : try_from m z = Some c <-> c = z /\ z <= m.
Proof. unfold try_from. destruct (z <=? m) eqn:?; bprop; naive_solver lia. Qed.

Lemma checked_add_fits m a b : a + b <= m -> checked_add m a b = Some (a + b).
Proof. intros. by apply checked_add_Some. Qed.
Lemma checked_mul_fits m a b : a * b <= m -> checked_mul m a b = Some (a * b).
Proof. intros. by apply checked_mul_Some. Qed.
Lemma checked_sub_fits a b : b <= a -> checked_sub a b = Some (a - b).
Proof. intros. by apply checked_sub_Some. Qed.

(** Expose the arithmetic meaning of every successful checked operation. *)
Ltac checked :=
  repeat match goal with
  | H : checked_add _ _ _ = Some _ |- _ => apply checked_add_Some in H as [? ?]
  | H : checked_mul _ _ _ = Some _ |- _ => apply checked_mul_Some in H as [? ?]
  | H : checked_sub _ _ = Some _ |- _ => apply checked_sub_Some in H as [? ?]
  | H : i128_checked_add _ _ = Some _ |- _ => apply i128_checked_add_Some in H as [? ?]
  | H : try_from _ _ = Some _ |- _ => apply try_from_Some in H as [? ?]
  end.

(** ** Totally ordered data: Rust's [Ord] *)

Class RustOrd (A : Type) := {
  cmp : A -> A -> comparison;
  cmp_eq a b : cmp a b = Eq <-> a = b;
  cmp_antisym a b : cmp b a = CompOpp (cmp a b);
  cmp_lt_trans a b c : cmp a b = Lt -> cmp b c = Lt -> cmp a c = Lt;
}.

(** [a < b] and [a <= b] as the derived [PartialOrd] computes them. *)
Definition ord_ltb {A} `{RustOrd A} (a b : A) : bool :=
  match cmp a b with Lt => true | _ => false end.
Definition ord_leb {A} `{RustOrd A} (a b : A) : bool :=
  match cmp a b with Gt => false | _ => true end.
Definition ord_le {A} `{RustOrd A} (a b : A) : Prop := ord_leb a b = true.

#[export] Instance ord_le_dec {A} `{RustOrd A} : RelDecision (@ord_le A _).
Proof. intros a b. unfold ord_le. apply _. Defined.

Section ord.
Context {A : Type} `{RustOrd A}.
Implicit Types a b c : A.

Lemma cmp_refl a : cmp a a = Eq.
Proof. by apply cmp_eq. Qed.

Lemma ord_ltb_irrefl a : ord_ltb a a = false.
Proof. unfold ord_ltb. by rewrite cmp_refl. Qed.

Lemma ord_ltb_trans a b c : ord_ltb a b = true -> ord_ltb b c = true -> ord_ltb a c = true.
Proof.
  unfold ord_ltb. destruct (cmp a b) eqn:E1; try done. destruct (cmp b c) eqn:E2; try done.
  intros _ _. by rewrite (cmp_lt_trans _ _ _ E1 E2).
Qed.

Lemma ord_ltb_leb a b : ord_ltb a b = negb (ord_leb b a).
Proof. unfold ord_ltb, ord_leb. rewrite (cmp_antisym a b). by destruct (cmp a b). Qed.

Lemma ord_ltb_neq a b : ord_ltb a b = true -> a <> b.
Proof. intros ? ->. by rewrite ord_ltb_irrefl in *. Qed.

#[export] Instance ord_le_refl : Reflexive (@ord_le A _).
Proof. intros a. unfold ord_le, ord_leb. by rewrite cmp_refl. Qed.

#[export] Instance ord_le_total : Total (@ord_le A _).
Proof.
  intros a b. unfold ord_le, ord_leb. rewrite (cmp_antisym a b). destruct (cmp a b); auto.
Qed.

#[export] Instance ord_le_trans : Transitive (@ord_le A _).
Proof.
  intros a b c. unfold ord_le, ord_leb.
  destruct (cmp a b) eqn:E1, (cmp b c) eqn:E2; try done; intros _ _.
  - apply cmp_eq in E1 as ->. by rewrite E2.
  - apply cmp_eq in E1 as ->. by rewrite E2.
  - apply cmp_eq in E2 as <-. by rewrite E1.
  - by rewrite (cmp_lt_trans _ _ _ E1 E2).
Qed.

#[export] Instance ord_le_antisym : AntiSymm eq (@ord_le A _).
Proof.
  intros a b. unfold ord_le, ord_leb. rewrite (cmp_antisym a b).
  destruct (cmp a b) eqn:E; simpl; try done. by intros; apply cmp_eq.
Qed.

End ord.

#[export] Program Instance Z_ord : RustOrd Z := {| cmp := Z.compare |}.
Next Obligation. exact Z.compare_eq_iff. Qed.
Next Obligation. intros. by rewrite Z.compare_antisym. Qed.
Next Obligation. intros a b c. rewrite !Z.compare_lt_iff. lia. Qed.

Fixpoint list_cmp {A} `{RustOrd A} (l k : list A) : comparison :=
  match l, k with
  | [], [] => Eq
  | [], _ :: _ => Lt
  | _ :: _, [] => Gt
  | a :: l, b :: k => match cmp a b with Eq => list_cmp l k | c => c end
  end.

(** Slices and [Vec]s compare lexicographically. *)
#[export] Program Instance list_ord {A} `{RustOrd A} : RustOrd (list A) := {| cmp := list_cmp |}.
Next Obligation.
  intros A ? l. induction l as [|a l IH]; intros [|b k]; simpl; try naive_solver.
  destruct (cmp a b) eqn:E; rewrite ?IH.
  - apply cmp_eq in E. naive_solver.
  - split; [done|]. intros [= -> _]. by rewrite cmp_refl in E.
  - split; [done|]. intros [= -> _]. by rewrite cmp_refl in E.
Qed.
Next Obligation.
  intros A ? l. induction l as [|a l IH]; intros [|b k]; simpl; try done.
  rewrite (cmp_antisym a b), IH. by destruct (cmp a b).
Qed.
Next Obligation.
  intros A ? l. induction l as [|a l IH]; intros [|b k] [|c m]; simpl; try done.
  destruct (cmp a b) eqn:E1, (cmp b c) eqn:E2; try done.
  - apply cmp_eq in E1 as ->. rewrite E2. eauto.
  - apply cmp_eq in E1 as ->. by rewrite E2.
  - apply cmp_eq in E2 as <-. by rewrite E1.
  - by rewrite (cmp_lt_trans _ _ _ E1 E2).
Qed.

Definition prod_cmp {A B} `{RustOrd A, RustOrd B} (x y : A * B) : comparison :=
  match cmp x.1 y.1 with Eq => cmp x.2 y.2 | c => c end.

#[export] Program Instance prod_ord {A B} `{RustOrd A, RustOrd B} : RustOrd (A * B) :=
  {| cmp := prod_cmp |}.
Next Obligation.
  intros A B ?? [a b] [a' b']. unfold prod_cmp; simpl.
  destruct (cmp a a') eqn:E; rewrite ?cmp_eq.
  - apply cmp_eq in E. naive_solver.
  - split; [done|]. intros [= -> _]. by rewrite cmp_refl in E.
  - split; [done|]. intros [= -> _]. by rewrite cmp_refl in E.
Qed.
Next Obligation.
  intros A B ?? [a b] [a' b']. unfold prod_cmp; simpl.
  rewrite (cmp_antisym a a'), (cmp_antisym b b'). by destruct (cmp a a').
Qed.
Next Obligation.
  intros A B ?? [a b] [a' b'] [a'' b'']. unfold prod_cmp; simpl.
  destruct (cmp a a') eqn:E1, (cmp a' a'') eqn:E2; try done.
  - apply cmp_eq in E1 as ->. rewrite E2. apply cmp_lt_trans.
  - apply cmp_eq in E1 as ->. by rewrite E2.
  - apply cmp_eq in E2 as <-. by rewrite E1.
  - by rewrite (cmp_lt_trans _ _ _ E1 E2).
Qed.

(** [#[derive(Ord)]] on a struct: compare the tuple of its fields. *)
Program Definition derive_ord {A B} `{RustOrd B} (f : A -> B) (Hf : Inj eq eq f) : RustOrd A :=
  {| cmp a b := cmp (f a) (f b) |}.
Next Obligation. intros A B ? f Hf a b. rewrite cmp_eq. split; [apply Hf|by intros ->]. Qed.
Next Obligation. intros. simpl. apply cmp_antisym. Qed.
Next Obligation. intros. simpl in *. by eapply cmp_lt_trans. Qed.

(** [v.sort()], [v.sort_by_key(key)] (both stable). *)
Definition sort {A} `{RustOrd A} (l : list A) : list A := merge_sort ord_le l.
Definition key_le {A K} `{RustOrd K} (key : A -> K) (a b : A) : Prop := ord_le (key a) (key b).
#[export] Instance key_le_dec {A K} `{RustOrd K} (key : A -> K) : RelDecision (key_le key).
Proof. intros a b. unfold key_le. apply _. Defined.
Definition sort_by_key {A K} `{RustOrd K} (key : A -> K) (l : list A) : list A :=
  merge_sort (key_le key) l.

(** [v.windows(2).any(|w| f(w[0], w[1]))] *)
Fixpoint windows2_any {A} (f : A -> A -> bool) (l : list A) : bool :=
  match l with
  | a :: ((b :: _) as l') => f a b || windows2_any f l'
  | _ => false
  end.

Section sorting_facts.
Context {A K : Type} `{RustOrd K}.

#[export] Instance key_le_total (key : A -> K) : Total (key_le key).
Proof. intros a b. apply (total ord_le). Qed.
#[export] Instance key_le_trans (key : A -> K) : Transitive (key_le key).
Proof. intros a b c. unfold key_le. apply transitivity. Qed.

Lemma sort_by_key_perm (key : A -> K) l : sort_by_key key l ≡ₚ l.
Proof. apply merge_sort_Permutation. Qed.

Lemma sort_perm (l : list K) : sort l ≡ₚ l.
Proof. apply merge_sort_Permutation. Qed.

Lemma sort_sorted (l : list K) : StronglySorted ord_le (sort l).
Proof. apply StronglySorted_merge_sort; apply _. Qed.

(** Rejecting [key(w[0]) >= key(w[1])] accepts exactly strictly increasing keys. *)
Lemma windows2_strict (key : A -> K) l :
  windows2_any (fun a b => ord_leb (key b) (key a)) l = false ->
  StronglySorted (fun a b => ord_ltb (key a) (key b) = true) l.
Proof.
  induction l as [|a l IH]; [constructor|]. destruct l as [|b l].
  - intros _. repeat constructor.
  - intros Hw. change (ord_leb (key b) (key a) || windows2_any (fun a b => ord_leb (key b) (key a)) (b :: l) = false) in Hw.
    apply orb_false_iff in Hw as [Hab Hw].
    specialize (IH Hw). constructor; [done|].
    assert (Hlt : ord_ltb (key a) (key b) = true) by by rewrite ord_ltb_leb, Hab.
    inversion IH; subst. constructor; [done|].
    eapply Forall_impl; [done|]. simpl. intros c. by apply ord_ltb_trans.
Qed.

Lemma strict_keys_NoDup (key : A -> K) l :
  StronglySorted (fun a b => ord_ltb (key a) (key b) = true) l -> NoDup (key <$> l).
Proof.
  induction 1 as [|a l Hs IH Hall]; simpl; constructor; [|done].
  intros Hin. apply list_elem_of_fmap in Hin as (b & Heq & Hb).
  rewrite Forall_forall in Hall. specialize (Hall b Hb). rewrite Heq, ord_ltb_irrefl in Hall. done.
Qed.

End sorting_facts.

(** Sorting a list that is already strictly increasing does nothing. *)
Lemma sort_strict_id {K} `{RustOrd K} (l : list K) :
  StronglySorted (fun a b => ord_ltb a b = true) l -> sort l = l.
Proof.
  intros Hs. apply (StronglySorted_unique ord_le).
  - apply sort_sorted.
  - clear -Hs. induction Hs as [|a l Hs IH Hall]; constructor; [done|].
    eapply Forall_impl; [done|]. simpl. intros b Hab. unfold ord_le.
    rewrite ord_ltb_leb in Hab. apply negb_true_iff in Hab.
    destruct (ord_leb a b) eqn:E; [done|]. destruct (total ord_le a b) as [F|F]; unfold ord_le in F; congruence.
  - apply sort_perm.
Qed.

(** ** Ordered maps *)

(** A [BTreeMap] is a [gmap] whose iteration visits the keys in order. *)
Definition btree_iter {K V} `{RustOrd K, Countable K} (m : gmap K V) : list (K * V) :=
  sort_by_key fst (map_to_list m).
Definition btree_values {K V} `{RustOrd K, Countable K} (m : gmap K V) : list V :=
  snd <$> btree_iter m.

Lemma btree_iter_perm {K V} `{RustOrd K, Countable K} (m : gmap K V) :
  btree_iter m ≡ₚ map_to_list m.
Proof. apply sort_by_key_perm. Qed.

Lemma elem_of_btree_iter {K V} `{RustOrd K, Countable K} (m : gmap K V) k v :
  (k, v) ∈ btree_iter m <-> m !! k = Some v.
Proof. rewrite btree_iter_perm. apply elem_of_map_to_list. Qed.

Lemma btree_iter_NoDup {K V} `{RustOrd K, Countable K} (m : gmap K V) :
  NoDup (fst <$> btree_iter m).
Proof. rewrite btree_iter_perm. apply NoDup_fst_map_to_list. Qed.

(** Inserting the entries of [m] one by one lets them take precedence. *)
Lemma foldl_insert_lookup {K V} `{Countable K} (l : list (K * V)) (st : gmap K V) k :
  NoDup (fst <$> l) ->
  foldl (fun st '(i, v) => <[i := v]> st) st l !! k =
    match (list_to_map l : gmap K V) !! k with Some v => Some v | None => st !! k end.
Proof.
  revert st. induction l as [|[i v] l IH]; intros st Hnd; simpl; [by rewrite lookup_empty|].
  apply NoDup_cons in Hnd as [Hi Hnd]. rewrite IH by done.
  destruct (decide (i = k)) as [->|Hne].
  - rewrite lookup_insert_eq, lookup_insert_eq.
    by rewrite (not_elem_of_list_to_map_1 (M := gmap K)) by done.
  - by rewrite !lookup_insert_ne by done.
Qed.

Lemma list_to_map_btree_iter {K V} `{RustOrd K, Countable K} (m : gmap K V) :
  list_to_map (btree_iter m) = m.
Proof.
  rewrite <- (list_to_map_to_list m) at 2. apply list_to_map_proper; [apply btree_iter_NoDup|].
  apply btree_iter_perm.
Qed.

(** ** Sums *)

Definition zsum (l : list Z) : Z := foldr Z.add 0 l.
Definition lsum {A} (f : A -> Z) (l : list A) : Z := zsum (f <$> l).
Definition map_sum {K V} `{Countable K} (f : V -> Z) (m : gmap K V) : Z :=
  lsum (fun p => f p.2) (map_to_list m).

Lemma lsum_cons {A} (f : A -> Z) a l : lsum f (a :: l) = f a + lsum f l.
Proof. done. Qed.
Lemma lsum_nil {A} (f : A -> Z) : lsum f [] = 0.
Proof. done. Qed.
Lemma lsum_app {A} (f : A -> Z) l k : lsum f (l ++ k) = lsum f l + lsum f k.
Proof. induction l as [|a l IH]; [done|]. rewrite <- app_comm_cons, !lsum_cons, IH. lia. Qed.
#[export] Instance lsum_perm {A} (f : A -> Z) : Proper ((≡ₚ) ==> eq) (lsum f).
Proof. induction 1; rewrite ?lsum_cons; try lia. Qed.
Lemma lsum_nonneg {A} (f : A -> Z) l : (forall a, a ∈ l -> 0 <= f a) -> 0 <= lsum f l.
Proof.
  induction l as [|a l IH]; intros Hf; [by rewrite lsum_nil|]. rewrite lsum_cons.
  assert (0 <= f a) by (apply Hf; by left). assert (0 <= lsum f l) by (apply IH; intros; apply Hf; by right). lia.
Qed.
Lemma lsum_ext {A} (f g : A -> Z) l : (forall a, a ∈ l -> f a = g a) -> lsum f l = lsum g l.
Proof.
  induction l as [|a l IH]; intros Hf; [done|]. rewrite !lsum_cons.
  rewrite Hf by by left. rewrite IH; [done|]. intros; apply Hf; by right.
Qed.
Lemma lsum_fmap {A B} (f : B -> Z) (g : A -> B) l : lsum f (g <$> l) = lsum (fun a => f (g a)) l.
Proof. unfold lsum. by rewrite <- list_fmap_compose. Qed.
Lemma lsum_elem_le {A} (f : A -> Z) l a : (forall a, a ∈ l -> 0 <= f a) -> a ∈ l -> f a <= lsum f l.
Proof.
  intros Hf Ha. apply elem_of_Permutation in Ha as [k Hk].
  rewrite Hk, lsum_cons. assert (0 <= lsum f k); [|lia].
  apply lsum_nonneg. intros b Hb. apply Hf. rewrite Hk. by right.
Qed.

Section map_sums.
Context {K V : Type} `{Countable K} (f : V -> Z).
Implicit Types m : gmap K V.

Lemma map_sum_empty : map_sum f (∅ : gmap K V) = 0.
Proof. unfold map_sum. by rewrite map_to_list_empty. Qed.

Lemma map_sum_insert_new m k v : m !! k = None -> map_sum f (<[k:=v]> m) = f v + map_sum f m.
Proof. intros Hk. unfold map_sum. by rewrite map_to_list_insert. Qed.

Lemma map_sum_delete m k v : m !! k = Some v -> map_sum f (delete k m) = map_sum f m - f v.
Proof. intros Hk. unfold map_sum. rewrite <- (map_to_list_delete m k v) by done. rewrite lsum_cons. simpl. lia. Qed.

Lemma map_sum_insert m k v old :
  m !! k = Some old -> map_sum f (<[k:=v]> m) = map_sum f m - f old + f v.
Proof.
  intros Hk. rewrite <- insert_delete_eq. rewrite map_sum_insert_new by apply lookup_delete_eq.
  rewrite (map_sum_delete _ _ old) by done. lia.
Qed.

Lemma map_sum_nonneg m : (forall k v, m !! k = Some v -> 0 <= f v) -> 0 <= map_sum f m.
Proof. intros Hf. apply lsum_nonneg. intros [k v] Hin%elem_of_map_to_list. by eapply Hf. Qed.

Lemma map_sum_lookup_le m k v :
  (forall k v, m !! k = Some v -> 0 <= f v) -> m !! k = Some v -> f v <= map_sum f m.
Proof.
  intros Hf Hk. apply (lsum_elem_le (fun p : K * V => f p.2) _ (k, v)).
  - intros [k' v'] Hin%elem_of_map_to_list. by eapply Hf.
  - by apply elem_of_map_to_list.
Qed.

End map_sums.

(** A sum over the entries of a map. *)
Definition kmap_sum {K V} `{Countable K} (f : K -> V -> Z) (m : gmap K V) : Z :=
  lsum (fun p => f p.1 p.2) (map_to_list m).

Section kmap_sums.
Context {K V : Type} `{Countable K} (f : K -> V -> Z).
Implicit Types m : gmap K V.

(** What an entry contributes, zero when absent. *)
Definition entry_sum m k : Z := default 0 (f k <$> m !! k).

Lemma kmap_sum_delete m k : kmap_sum f (delete k m) = kmap_sum f m - entry_sum m k.
Proof.
  unfold kmap_sum, entry_sum. destruct (m !! k) as [v|] eqn:E; cbn.
  - rewrite <- (map_to_list_delete m k v) by done. rewrite lsum_cons. cbn. lia.
  - rewrite delete_id by done. lia.
Qed.

Lemma kmap_sum_insert m k v : kmap_sum f (<[k:=v]> m) = kmap_sum f m - entry_sum m k + f k v.
Proof.
  rewrite <- kmap_sum_delete, <- insert_delete_eq. unfold kmap_sum at 1.
  rewrite map_to_list_insert by apply lookup_delete_eq. rewrite lsum_cons. cbn. fold (kmap_sum f (delete k m)). lia.
Qed.
End kmap_sums.

(** ** Strings *)

(** A [String] as the sequence of its Unicode scalar values. *)
Abbreviation rstring := (list Z) (only parsing).

(** An ASCII literal. *)
Definition str (s : string) : rstring := (fun a => Z.of_N (Ascii.N_of_ascii a)) <$> String.list_ascii_of_string s.

(** [char::is_whitespace]: the code points of Unicode's White_Space property. *)
Definition is_whitespace (c : Z) : bool :=
  ((9 <=? c) && (c <=? 13)) || (c =? 32) || (c =? 133) || (c =? 160) || (c =? 5760)
  || ((8192 <=? c) && (c <=? 8202)) || (c =? 8232) || (c =? 8233) || (c =? 8239)
  || (c =? 8287) || (c =? 12288).

Fixpoint trim_start (s : rstring) : rstring :=
  match s with
  | c :: s' => if is_whitespace c then trim_start s' else s
  | [] => []
  end.
Definition trim_end (s : rstring) : rstring := rev (trim_start (rev s)).
(** [str::trim] *)
Definition trim (s : rstring) : rstring := trim_end (trim_start s).

Definition is_empty {A} (l : list A) : bool := match l with [] => true | _ => false end.

(** [str::len]: the length of the UTF-8 encoding. *)
Definition utf8_len (s : rstring) : Z :=
  lsum (fun c => if c <? 128 then 1 else if c <? 2048 then 2 else if c <? 65536 then 3 else 4) s.

(** [u64::to_string], [u128::to_string] *)
Definition dec (z : Z) : rstring := str (pretty (Z.to_N z)).

(** ** Bytes *)

(** [uN::to_le_bytes] / [to_be_bytes] of an [n]-byte unsigned integer. *)
Fixpoint le_bytes (n : nat) (z : Z) : list Z :=
  match n with
  | O => []
  | S n => z mod 256 :: le_bytes n (z / 256)
  end.
Definition be_bytes (n : nat) (z : Z) : list Z := rev (le_bytes n z).

(** [uN::from_le_bytes] *)
Fixpoint of_le_bytes (l : list Z) : Z :=
  match l with
  | [] => 0
  | b :: l => b + 256 * of_le_bytes l
  end.

Definition is_byte (b : Z) : Prop := 0 <= b <= u8_max.

Lemma le_bytes_length n z : length (le_bytes n z) = n.
Proof. revert z. induction n; intros; simpl; auto. Qed.

Lemma of_le_bytes_le_bytes n z : 0 <= z < 256 ^ Z.of_nat n -> of_le_bytes (le_bytes n z) = z.
Proof.
  revert z. induction n as [|n IH]; intros z Hz.
  - simpl in *. lia.
  - cbn [le_bytes of_le_bytes]. rewrite IH.
    + pose proof (Z.div_mod z 256). lia.
    + rewrite Nat2Z.inj_succ, Z.pow_succ_r in Hz by lia.
      split; [apply Z.div_pos; lia|]. apply Z.div_lt_upper_bound; lia.
Qed.

Lemma le_bytes_of_le_bytes l : Forall is_byte l -> le_bytes (length l) (of_le_bytes l) = l.
Proof.
  induction 1 as [|b l Hb Hl IH]; [done|]. cbn [length of_le_bytes le_bytes].
  unfold is_byte, u8_max in Hb. f_equal.
  - rewrite Z.mul_comm, Z.mod_add by lia. apply Z.mod_small. lia.
  - rewrite Z.mul_comm, Z.div_add by lia. rewrite (Z.div_small b) by lia. exact IH.
Qed.

Lemma le_bytes_is_byte n z : Forall is_byte (le_bytes n z).
Proof.
  revert z. induction n; intros z; simpl; constructor; auto.
  unfold is_byte, u8_max. pose proof (Z.mod_pos_bound z 256). lia.
Qed.

Lemma of_le_bytes_bound l : Forall is_byte l -> 0 <= of_le_bytes l < 256 ^ Z.of_nat (length l).
Proof.
  induction 1 as [|b l Hb Hl IH]; [simpl; lia|]. cbn [length of_le_bytes].
  rewrite Nat2Z.inj_succ, Z.pow_succ_r by lia. unfold is_byte, u8_max in Hb. lia.
Qed.

(** A third-party serializer's [BorshSerialize] implementation: [borsh::to_vec],
    whose error is an I/O message. *)
Class BorshSerialize (A : Type) := borsh_to_vec : A -> string + list Z.

Definition zlen {A} (l : list A) : Z := Z.of_nat (length l).

(** A walk through relations, one after another. *)
Fixpoint along {A} (l : list (A -> A -> Prop)) (x y : A) : Prop :=
  match l with
  | [] => x = y
  | R :: l => exists z, R x z /\ along l z y
  end.

Lemma along_app {A} (l k : list (A -> A -> Prop)) x y : along (l ++ k) x y <-> exists z, along l x z /\ along k z y.
Proof.
  revert x. induction l as [|R l IH]; intros x; cbn.
  - split; [intros Hk; by exists x|by intros (? & -> & ?)].
  - setoid_rewrite IH. naive_solver.
Qed.

Lemma along_one {A} (R : A -> A -> Prop) x y : along [R] x y <-> R x y.
Proof. cbn. naive_solver. Qed.

Lemma zlen_app {A} (l k : list A) : zlen (l ++ k) = zlen l + zlen k.
Proof. unfold zlen. rewrite length_app. lia. Qed.

Lemma le_bytes_zlen n z : zlen (le_bytes n z) = Z.of_nat n.
Proof. unfold zlen. by rewrite le_bytes_length. Qed.

(** A byte string, checked by evaluation. *)
Definition all_bytes (l : list Z) : bool := forallb (fun b => (0 <=? b) && (b <=? u8_max)) l.
Lemma all_bytes_ok l : all_bytes l = true -> Forall is_byte l.
Proof.
  unfold all_bytes. rewrite forallb_forall, Forall_forall. intros Hl b Hb. specialize (Hl b). rewrite <- list_elem_of_In in Hl.
  specialize (Hl Hb). bprop. by split.
Qed.

Lemma zlen_nonneg {A} (l : list A) : 0 <= zlen l.
Proof. unfold zlen. lia. Qed.

Lemma zlen_snoc {A} (l : list A) x : zlen (l ++ [x]) = zlen l + 1.
Proof. unfold zlen. rewrite length_app. cbn. lia. Qed.
