(* ===== verification/MvccEngine.v ===== *)
(** * MvccEngine: the MVCC execution and fee kernel of [trnm-mvcc-fee]

    Data types of [types.rs], digests of [codec.rs], and every function of
    [engine.rs]: genesis and block validation, transaction computation with
    metering and fees, the sequential oracle [execute_block] and the
    multi-worker [execute_block_with_workers].  SHA-256 and Borsh are parameters
    ([MvccCrates]); panics of the source ([expect], zero divisors, crossed
    [clamp] bounds) are the [Panic] outcome. *)

From stdpp Require Import base gmap list sorting strings.
From S2P Require Import Prelude.

(** ** Data ([types.rs]) *)

Definition SCHEMA_VERSION_V1 : Z := 1.
Definition RESOURCE_ORDERED_BYTES_V1 : Z := 0.
Definition RESOURCE_STATE_READ_BYTES_V1 : Z := 2.
Definition RESOURCE_STATE_WRITE_BYTES_V1 : Z := 3.
Definition RESOURCE_COMPUTE_UNITS_V1 : Z := 7.
Definition UNIT_BYTE_V1 : Z := 1.
Definition UNIT_COMPUTE_V1 : Z := 3.

(** A 32-byte digest as its bytes. *)
Abbreviation Hash32V1 := (list Z).
Definition zero_hash : Hash32V1 := replicate 32 0.

Record TypedObjectIdV1 := mkId { id_object_kind : Z; id_object_id : list Z }.

#[export] Instance TypedObjectIdV1_eq_dec : EqDecision TypedObjectIdV1.
Proof. solve_decision. Defined.
#[export] Instance TypedObjectIdV1_countable : Countable TypedObjectIdV1.
Proof.
  apply (inj_countable' (fun i => (id_object_kind i, id_object_id i)) (fun p => mkId p.1 p.2)).
  by intros [].
Defined.
#[export] Instance TypedObjectIdV1_ord : RustOrd TypedObjectIdV1 :=
  derive_ord (fun i => (id_object_kind i, id_object_id i))
    ltac:(intros [] []; simpl; congruence).

Record ProtocolContextV1 := mkContext {
  ctx_chain_id : list Z;
  ctx_genesis_hash : Hash32V1;
  ctx_protocol_id : list Z;
  ctx_protocol_version : Z;
  ctx_profile_hash : Hash32V1;
}.
#[export] Instance ProtocolContextV1_eq_dec : EqDecision ProtocolContextV1.
Proof. solve_decision. Defined.

Record ObjectStateV1 := mkObject {
  os_schema_version : Z;
  os_object_id : TypedObjectIdV1;
  os_version : Z;
  os_value : Z;
  os_closed : bool;
}.
#[export] Instance ObjectStateV1_eq_dec : EqDecision ObjectStateV1.
Proof. solve_decision. Defined.

Record ResourcePriceV1 := mkPrice {
  rp_resource_class : Z;
  rp_resource_id : list Z;
  rp_unit : Z;
  rp_price_numerator : Z;
  rp_price_denominator : Z;
  rp_minimum_charge : Z;
  rp_maximum_charge : Z;
}.

Record FeeDestinationSplitV1 := mkSplit {
  fs_destination : TypedObjectIdV1;
  fs_numerator : Z;
  fs_denominator : Z;
}.

Record MvccFeeGenesisV1 := mkGenesis {
  g_schema_version : Z;
  g_context : ProtocolContextV1;
  g_store_id : Hash32V1;
  g_initial_height : Z;
  g_initial_block_id : Hash32V1;
  g_initial_objects : list ObjectStateV1;
  g_resource_prices : list ResourcePriceV1;
  g_destination_splits : list FeeDestinationSplitV1;
  g_remainder_destination : TypedObjectIdV1;
}.

Inductive ObjectProgramV1 :=
| Add (target : TypedObjectIdV1) (amount : Z)
| Transfer (source destination : TypedObjectIdV1) (amount : Z)
| Revert (error_class : Z).

Record MvccTransactionV1 := mkTransaction {
  tx_schema_version : Z;
  tx_transaction_id : Hash32V1;
  tx_transaction_index : Z;
  tx_fee_payer : TypedObjectIdV1;
  tx_declared_reads : list TypedObjectIdV1;
  tx_declared_writes : list TypedObjectIdV1;
  tx_compute_unit_limit : Z;
  tx_max_fee : Z;
  tx_program : ObjectProgramV1;
}.

Record MvccBlockV1 := mkBlock {
  b_schema_version : Z;
  b_context : ProtocolContextV1;
  b_block_id : Hash32V1;
  b_height : Z;
  b_expected_parent_height : Z;
  b_expected_parent_block_id : Hash32V1;
  b_expected_parent_state_root : Hash32V1;
  b_transactions : list MvccTransactionV1;
}.

Inductive ReceiptStatusV1 := Success | Reverted | OutOfResource.
#[export] Instance ReceiptStatusV1_eq_dec : EqDecision ReceiptStatusV1.
Proof. solve_decision. Defined.

Record ReadSetEntryV1 := mkRead {
  rs_object_id : TypedObjectIdV1;
  rs_observed_version : Z;
  rs_observed_value_hash : Hash32V1;
}.

Record WriteSetEntryV1 := mkWrite {
  ws_object_id : TypedObjectIdV1;
  ws_prior_version : Z;
  ws_successor_version : Z;
  ws_successor_value_hash : Hash32V1;
}.

Record ResourceUsageV1 := mkUsage {
  ru_resource_class : Z;
  ru_resource_id : list Z;
  ru_meter_id : list Z;
  ru_meter_version : Z;
  ru_amount : Z;
  ru_unit : Z;
  ru_measurement_commitment : Hash32V1;
}.

Record FeeDeltaV1 := mkFeeDelta {
  fd_source : TypedObjectIdV1;
  fd_destination : TypedObjectIdV1;
  fd_amount : Z;
}.

Record DestinationFeeCreditV1 := mkCredit {
  dc_destination : TypedObjectIdV1;
  dc_amount : Z;
}.

Record TransactionExecutionReceiptV1 := mkReceipt {
  r_schema_version : Z;
  r_transaction_id : Hash32V1;
  r_transaction_index : Z;
  r_status : ReceiptStatusV1;
  r_error_class : option Z;
  r_read_set : list ReadSetEntryV1;
  r_write_set : list WriteSetEntryV1;
  r_read_set_root : Hash32V1;
  r_write_set_root : Hash32V1;
  r_state_delta_root : Hash32V1;
  r_post_transaction_state_root : Hash32V1;
  r_resource_usage : list ResourceUsageV1;
  r_fee_charged : Z;
  r_refund_amount : Z;
  r_fee_deltas : list FeeDeltaV1;
  r_conflict_set : list TypedObjectIdV1;
  r_retry_count : Z;
}.

Record MvccBlockReceiptV1 := mkBlockReceipt {
  br_schema_version : Z;
  br_store_id : Hash32V1;
  br_block_id : Hash32V1;
  br_height : Z;
  br_parent_state_root : Hash32V1;
  br_final_state_root : Hash32V1;
  br_receipts_root : Hash32V1;
  br_resource_totals_root : Hash32V1;
  br_fee_deltas_root : Hash32V1;
  br_mvcc_resolution_root : Hash32V1;
  br_transaction_count : Z;
  br_receipts : list TransactionExecutionReceiptV1;
  br_resource_totals : list ResourceUsageV1;
  br_aggregated_fee_deltas : list FeeDeltaV1;
  br_destination_credits : list DestinationFeeCreditV1;
}.

(** ** Errors ([error.rs]) *)

Inductive MvccFeeErrorCodeV1 :=
| InvalidContext | InvalidBounds | NonCanonical | IdentifierMismatch | InvalidState
| StaleParent | UndeclaredAccess | DuplicateAccess | InsufficientFunds | FeeLimitExceeded
| ArithmeticOverflow | ConservationViolation | NotFound | StoreFailure | SchemaMismatch
| TamperDetected | SidecarPresent | CommitUncertain | ThirdStateFenced.

Record MvccFeeErrorV1 := error { code : MvccFeeErrorCodeV1; message : string }.

Abbreviation MvccFeeResultV1 := (result MvccFeeErrorV1).

(** ** The crates the kernel calls *)

Abbreviation TransactionIdentity :=
  (Z * Z * TypedObjectIdV1 * list TypedObjectIdV1 * list TypedObjectIdV1 * Z * Z * ObjectProgramV1)%type.
Abbreviation BlockIdentity :=
  (Z * ProtocolContextV1 * Z * Z * Hash32V1 * Hash32V1 * list MvccTransactionV1)%type.

(** [sha2::Sha256] and the [borsh] encodings of every value the kernel hashes or
    meters. *)
Class MvccCrates := {
  sha256 : list Z -> Hash32V1;
  borsh_transaction_identity :: BorshSerialize TransactionIdentity;
  borsh_block_identity :: BorshSerialize BlockIdentity;
  borsh_objects :: BorshSerialize (list ObjectStateV1);
  borsh_object :: BorshSerialize ObjectStateV1;
  borsh_transaction :: BorshSerialize MvccTransactionV1;
  borsh_measurement :: BorshSerialize (Hash32V1 * Z * Z * Z * Z);
  borsh_read_set :: BorshSerialize (list ReadSetEntryV1);
  borsh_write_set :: BorshSerialize (list WriteSetEntryV1);
  borsh_intermediate :: BorshSerialize (list ObjectStateV1 * list FeeDeltaV1);
  borsh_receipts :: BorshSerialize (list TransactionExecutionReceiptV1);
  borsh_resources :: BorshSerialize (list ResourceUsageV1);
  borsh_fee_deltas :: BorshSerialize (list FeeDeltaV1 * list DestinationFeeCreditV1);
  borsh_resolution :: BorshSerialize (list (Hash32V1 * list TypedObjectIdV1 * Z));
  borsh_resource_total :: BorshSerialize (Z * Z * Z);
}.

Abbreviation ObjectMapV1 := (gmap TypedObjectIdV1 ObjectStateV1).
Abbreviation PendingFees := (gmap (TypedObjectIdV1 * TypedObjectIdV1) Z).

Definition MAX_TRANSACTIONS_V1 : Z := 256.
Definition MAX_ACCESS_WIDTH_V1 : Z := 64.
Definition MAX_EXECUTION_WORKERS_V1 : nat := 64.

(** ** Execution data ([engine.rs]) *)

Record TransactionComputationV1 := mkComputation {
  c_successors : ObjectMapV1;
  c_status : ReceiptStatusV1;
  c_error_class : option Z;
  c_read_set : list ReadSetEntryV1;
  c_write_set : list WriteSetEntryV1;
  c_read_set_root : Hash32V1;
  c_write_set_root : Hash32V1;
  c_state_delta_root : Hash32V1;
  c_resource_usage : list ResourceUsageV1;
  c_fee_charged : Z;
  c_refund_amount : Z;
  c_fee_deltas : list FeeDeltaV1;
}.

(** A worker's row: the parent reads and the computation's outcome. *)
Record SpeculativeTransactionV1 := mkSpeculative {
  sp_parent_reads : list ReadSetEntryV1;
  sp_computed : MvccFeeResultV1 TransactionComputationV1;
}.

(** What the commit loop threads: current objects, pending fees, receipts. *)
Abbreviation CommitState := (ObjectMapV1 * PendingFees * list TransactionExecutionReceiptV1)%type.
Abbreviation ResourceAggregationKeyV1 := (Z * list Z * list Z * Z * Z)%type.
Abbreviation Slots := (list (option (MvccFeeResultV1 SpeculativeTransactionV1))).

Section engine.
Context `{MvccCrates}.

(** ** Digests ([codec.rs]) *)

Definition canonical_bytes {A} `{BorshSerialize A} (value : A) : MvccFeeResultV1 (list Z) :=
  match borsh_to_vec value with
  | inl cause => Err (error NonCanonical cause)
  | inr bytes => Ok bytes
  end.

Definition is_ascii (s : string) : bool :=
  forallb (fun c => c <? 128) (str s).

Definition digest_bytes (domain : string) (bytes : list Z) : MvccFeeResultV1 Hash32V1 :=
  _ ← fail_if (is_empty (str domain) || negb (is_ascii domain))
        (error InvalidBounds "digest domain must be nonempty ASCII");
  len ← ok_or (try_from u32_max (zlen (str domain)))
        (error ArithmeticOverflow "domain length overflow");
  Ok (sha256 (le_bytes 4 len ++ str domain ++ bytes)).

Definition digest_value {A} `{BorshSerialize A} (domain : string) (value : A) : MvccFeeResultV1 Hash32V1 :=
  bytes ← canonical_bytes value;
  digest_bytes domain bytes.

(** ** Identities and roots *)

Definition validate_worker_count_v1 (worker_count : nat) : MvccFeeResultV1 () :=
  fail_if (Nat.eqb worker_count 0 || Nat.ltb MAX_EXECUTION_WORKERS_V1 worker_count)
    (error InvalidBounds "execution worker count is outside frozen candidate bounds").

Definition derive_transaction_id_v1 (t : MvccTransactionV1) : MvccFeeResultV1 Hash32V1 :=
  digest_value "trnm.portable.v2.mvcc-transaction.candidate.v1"
    (tx_schema_version t, tx_transaction_index t, tx_fee_payer t, tx_declared_reads t,
     tx_declared_writes t, tx_compute_unit_limit t, tx_max_fee t, tx_program t).

Definition derive_block_id_v1 (b : MvccBlockV1) : MvccFeeResultV1 Hash32V1 :=
  digest_value "trnm.portable.v2.mvcc-block.candidate.v1"
    (b_schema_version b, b_context b, b_height b, b_expected_parent_height b,
     b_expected_parent_block_id b, b_expected_parent_state_root b, b_transactions b).

Definition require_strict {T K} `{RustOrd K} (values : list T) (key : T -> K) (label : string)
    : MvccFeeResultV1 () :=
  fail_if (windows2_any (fun a b => ord_leb (key b) (key a)) values)
    (error NonCanonical (label +:+ " must be strictly sorted and unique")).

Definition expected_classes : list (Z * Z) :=
  [ (RESOURCE_ORDERED_BYTES_V1, UNIT_BYTE_V1); (RESOURCE_STATE_READ_BYTES_V1, UNIT_BYTE_V1);
    (RESOURCE_STATE_WRITE_BYTES_V1, UNIT_BYTE_V1); (RESOURCE_COMPUTE_UNITS_V1, UNIT_COMPUTE_V1) ].

(** The price loop of [validate_genesis]. *)
Definition check_price (price : ResourcePriceV1) (expected : Z * Z) : MvccFeeResultV1 () :=
  fail_if ((rp_resource_class price, rp_unit price) <>? expected
           || negb (is_empty (rp_resource_id price))
           || (rp_price_denominator price =? 0)
           || (rp_maximum_charge price <? rp_minimum_charge price))
    (error InvalidBounds "invalid resource price").

Definition protocol_id_bytes : list Z := str "trnm-portable-application-v2".

Definition validate_genesis (g : MvccFeeGenesisV1) : MvccFeeResultV1 () :=
  let c := g_context g in
  _ ← fail_if (g_schema_version g <>? SCHEMA_VERSION_V1
        || is_empty (ctx_chain_id c)
        || ctx_protocol_id c <>? protocol_id_bytes
        || ctx_protocol_version c <>? 1
        || ctx_genesis_hash c =?? zero_hash
        || ctx_profile_hash c =?? zero_hash
        || g_store_id g =?? zero_hash
        || g_initial_block_id g =?? zero_hash
        || is_empty (g_initial_objects g)
        || zlen (g_resource_prices g) <>? 4
        || is_empty (g_destination_splits g))
      (error InvalidBounds "invalid bounded MVCC genesis");
  _ ← require_strict (g_initial_objects g) os_object_id "initial objects";
  _ ← fail_if (existsb (fun v => os_schema_version v <>? SCHEMA_VERSION_V1 || os_closed v)
                 (g_initial_objects g))
      (error InvalidState "invalid initial object");
  _ ← require_strict (g_resource_prices g)
        (fun v => (rp_resource_class v, rp_resource_id v, rp_unit v)) "resource prices";
  _ ← try_map (fun '(price, expected) => check_price price expected)
        (zip (g_resource_prices g) expected_classes);
  _ ← require_strict (g_destination_splits g) fs_destination "fee destinations";
  first ← expect (head (g_destination_splits g));
  let denominator := fs_denominator first in
  _ ← fail_if ((denominator =? 0)
        || existsb (fun v => fs_denominator v <>? denominator || (fs_numerator v =? 0))
             (g_destination_splits g)
        || negb (existsb (fun v => fs_destination v =?? g_remainder_destination g)
                   (g_destination_splits g)))
      (error InvalidBounds "invalid destination split");
  numerator_sum ← try_fold (fun sum v =>
        ok_or (checked_add u128_max sum (fs_numerator v))
          (error ArithmeticOverflow "destination numerator overflow"))
      0 (g_destination_splits g);
  _ ← fail_if (numerator_sum <>? denominator)
      (error ConservationViolation "destination splits do not sum to one");
  let object_ids := list_to_set (C := gset TypedObjectIdV1) (os_object_id <$> g_initial_objects g) in
  fail_if (existsb (fun v => negb (bool_decide (fs_destination v ∈ object_ids)))
             (g_destination_splits g))
      (error NotFound "fee destination object absent").

Definition state_root (objects : ObjectMapV1) : MvccFeeResultV1 Hash32V1 :=
  digest_value "trnm.portable.v2.mvcc-object-state-root.candidate.v1" (btree_values objects).

Definition derive_state_root_v1 (objects : list ObjectStateV1) : MvccFeeResultV1 Hash32V1 :=
  _ ← require_strict objects os_object_id "state objects";
  state_root (list_to_map ((fun v => (os_object_id v, v)) <$> objects)).

Definition value_hash (value : ObjectStateV1) : MvccFeeResultV1 Hash32V1 :=
  digest_value "trnm.portable.v2.mvcc-object-value.candidate.v1" value.

(** ** Block validation *)

Definition expected_access (t : MvccTransactionV1)
    : MvccFeeResultV1 (list TypedObjectIdV1 * list TypedObjectIdV1) :=
  let payer := tx_fee_payer t in
  ids ← match tx_program t with
        | Add target _ =>
            _ ← fail_if (target =?? payer)
                  (error DuplicateAccess "fee payer and target must differ");
            Ok ([payer] ++ [target])
        | Transfer source destination _ =>
            _ ← fail_if (source =?? destination || source =?? payer || destination =?? payer)
                  (error DuplicateAccess "bounded transfer objects must be distinct");
            Ok ([payer] ++ [source; destination])
        | Revert _ => Ok [payer]
        end;
  let ids := sort ids in
  Ok (ids, ids).

(** One iteration of the transaction loop of [validate_block]: the accumulator is
    the next index and the set of identifiers already seen. *)
Definition validate_transaction (destinations : gset TypedObjectIdV1)
    (acc : Z * gset Hash32V1) (t : MvccTransactionV1) : MvccFeeResultV1 (Z * gset Hash32V1) :=
  let '(index, transaction_ids) := acc in
  index_u32 ← ok_or (try_from u32_max index) (error ArithmeticOverflow "index overflow");
  bad ← or_else (tx_schema_version t <>? SCHEMA_VERSION_V1
                 || tx_transaction_index t <>? index_u32
                 || tx_transaction_id t =?? zero_hash)
          (id ← derive_transaction_id_v1 t;
           Ok (tx_transaction_id t <>? id
               || bool_decide (tx_transaction_id t ∈ transaction_ids)
               || (tx_compute_unit_limit t =? 0)
               || (tx_max_fee t =? 0)
               || (MAX_ACCESS_WIDTH_V1 <? zlen (tx_declared_reads t))
               || (MAX_ACCESS_WIDTH_V1 <? zlen (tx_declared_writes t))
               || bool_decide (tx_fee_payer t ∈ destinations)));
  _ ← fail_if bad (error InvalidBounds "invalid transaction identity/bounds");
  _ ← require_strict (tx_declared_reads t) (fun v => v) "declared reads";
  _ ← require_strict (tx_declared_writes t) (fun v => v) "declared writes";
  '(expected_reads, expected_writes) ← expected_access t;
  _ ← fail_if (tx_declared_reads t <>? expected_reads || tx_declared_writes t <>? expected_writes)
        (error UndeclaredAccess "declared access does not match program");
  Ok (index + 1, {[tx_transaction_id t]} ∪ transaction_ids).

Definition destination_set (g : MvccFeeGenesisV1) : gset TypedObjectIdV1 :=
  list_to_set (fs_destination <$> g_destination_splits g).

Definition validate_block (g : MvccFeeGenesisV1) (parent : ObjectMapV1) (b : MvccBlockV1)
    : MvccFeeResultV1 () :=
  bad ← or_else (b_schema_version b <>? SCHEMA_VERSION_V1
                 || b_context b <>? g_context g
                 || b_block_id b =?? zero_hash
                 || is_empty (b_transactions b)
                 || (MAX_TRANSACTIONS_V1 <? zlen (b_transactions b)))
          (root ← state_root parent;
           or_else (b_expected_parent_state_root b <>? root)
             (id ← derive_block_id_v1 b; Ok (b_block_id b <>? id)));
  _ ← fail_if bad (error InvalidContext "invalid block context/id/parent");
  _ ← try_fold (validate_transaction (destination_set g)) (0, ∅) (b_transactions b);
  Ok tt.

(** ** Read sets *)

Definition read_entry (state : ObjectMapV1) (object_id : TypedObjectIdV1)
    : MvccFeeResultV1 ReadSetEntryV1 :=
  value ← ok_or (state !! object_id) (error NotFound "declared object absent");
  _ ← fail_if (os_closed value) (error InvalidState "declared object closed");
  h ← value_hash value;
  Ok (mkRead object_id (os_version value) h).

Definition read_set (state : ObjectMapV1) (t : MvccTransactionV1)
    : MvccFeeResultV1 (list ReadSetEntryV1) :=
  try_map (read_entry state) (tx_declared_reads t).

Definition conflicting_objects_v1 (initial current : list ReadSetEntryV1) : list TypedObjectIdV1 :=
  omap (fun '(lhs, rhs) =>
          if rs_observed_version lhs <>? rs_observed_version rhs
             || rs_observed_value_hash lhs <>? rs_observed_value_hash rhs
          then Some (rs_object_id rhs) else None)
    (zip initial current).

(** ** Fees *)

(** One step of the fold of [calculate_fee]. *)
Definition charge_resource (sum : Z) (row : ResourcePriceV1 * ResourceUsageV1) : MvccFeeResultV1 Z :=
  let '(price, item) := row in
  _ ← fail_if ((rp_resource_class price, rp_resource_id price, rp_unit price)
               <>? (ru_resource_class item, ru_resource_id item, ru_unit item))
        (error InvalidState "usage has no exact committed price");
  numerator ← ok_or (checked_mul u128_max (ru_amount item) (rp_price_numerator price))
        (error ArithmeticOverflow "resource charge multiply overflow");
  quotient ← u_div numerator (rp_price_denominator price);
  rem ← u_rem numerator (rp_price_denominator price);
  rounded ← ok_or (checked_add u128_max quotient (if rem =? 0 then 0 else 1))
        (error ArithmeticOverflow "resource charge rounding overflow");
  charge ← clamp rounded (rp_minimum_charge price) (rp_maximum_charge price);
  ok_or (checked_add u128_max sum charge) (error ArithmeticOverflow "fee total overflow").

Definition calculate_fee (prices : list ResourcePriceV1) (usage : list ResourceUsageV1)
    : MvccFeeResultV1 Z :=
  try_fold charge_resource 0 (zip prices usage).

(** One step of the split loop: the deltas pushed so far and the amount assigned. *)
Definition split_step (source : TypedObjectIdV1) (fee : Z)
    (acc : list FeeDeltaV1 * Z) (s : FeeDestinationSplitV1) : MvccFeeResultV1 (list FeeDeltaV1 * Z) :=
  let '(output, assigned) := acc in
  product ← ok_or (checked_mul u128_max fee (fs_numerator s))
        (error ArithmeticOverflow "fee split multiply overflow");
  amount ← u_div product (fs_denominator s);
  assigned ← ok_or (checked_add u128_max assigned amount)
        (error ArithmeticOverflow "fee split sum overflow");
  Ok (output ++ [mkFeeDelta source (fs_destination s) amount], assigned).

Definition split_fee (g : MvccFeeGenesisV1) (source : TypedObjectIdV1) (fee : Z)
    : MvccFeeResultV1 (list FeeDeltaV1) :=
  '(output, assigned) ← try_fold (split_step source fee) ([], 0) (g_destination_splits g);
  remainder ← ok_or (checked_sub fee assigned)
        (error ConservationViolation "fee split exceeds fee");
  '(i, slot) ← ok_or (list_find (fun d => fd_destination d = g_remainder_destination g) output)
        (error InvalidState "remainder destination absent");
  slot_amount ← ok_or (checked_add u128_max (fd_amount slot) remainder)
        (error ArithmeticOverflow "remainder overflow");
  let output := <[i := mkFeeDelta (fd_source slot) (fd_destination slot) slot_amount]> output in
  total ← try_fold (fun sum d => ok_or (checked_add u128_max sum (fd_amount d))
                      (error ArithmeticOverflow "fee delta sum overflow")) 0 output;
  _ ← fail_if (total <>? fee) (error ConservationViolation "fee deltas do not conserve");
  Ok output.

(** ** Transaction computation *)

Definition required_compute (p : ObjectProgramV1) : Z :=
  match p with Add _ _ => 10 | Transfer _ _ _ => 20 | Revert _ => 5 end.

Definition execution_status (t : MvccTransactionV1) : ReceiptStatusV1 * option Z * Z :=
  match tx_program t with
  | Revert error_class => (Reverted, Some error_class, required_compute (tx_program t))
  | _ => if tx_compute_unit_limit t <? required_compute (tx_program t)
         then (OutOfResource, Some 1, tx_compute_unit_limit t)
         else (Success, None, required_compute (tx_program t))
  end.

Definition app_write_count (p : ObjectProgramV1) (status : ReceiptStatusV1) : Z :=
  match p, status with
  | Add _ _, Success => 1
  | Transfer _ _ _, Success => 2
  | _, _ => 0
  end.

Definition read_bytes_step (state : ObjectMapV1) (sum : Z) (entry : ReadSetEntryV1) : MvccFeeResultV1 Z :=
  object ← expect (state !! rs_object_id entry);
  bytes ← canonical_bytes object;
  len ← ok_or (try_from u128_max (zlen bytes)) (error ArithmeticOverflow "read byte count overflow");
  ok_or (checked_add u128_max sum len) (error ArithmeticOverflow "read bytes overflow").

(** The four metered resources of a transaction: ordered, read and written bytes
    and compute units. *)
Definition meter_transaction (state : ObjectMapV1) (t : MvccTransactionV1)
    (reads : list ReadSetEntryV1) (status : ReceiptStatusV1) (charged_compute : Z)
    : MvccFeeResultV1 (list ResourceUsageV1) :=
  read_bytes ← try_fold (read_bytes_step state) 0 reads;
  payer ← ok_or (state !! tx_fee_payer t) (error NotFound "fee payer absent");
  payer_bytes ← canonical_bytes payer;
  object_size ← ok_or (try_from u128_max (zlen payer_bytes))
        (error ArithmeticOverflow "write byte count overflow");
  write_count ← ok_or (try_from u128_max (app_write_count (tx_program t) status + 1))
        (error ArithmeticOverflow "write count overflow");
  write_bytes ← ok_or (checked_mul u128_max object_size write_count)
        (error ArithmeticOverflow "write bytes overflow");
  tx_bytes ← canonical_bytes t;
  ordered_bytes ← ok_or (try_from u128_max (zlen tx_bytes))
        (error ArithmeticOverflow "ordered bytes overflow");
  try_map (fun '(resource_class, unit, amount) =>
      commitment ← digest_value "trnm.portable.v2.resource-measurement.candidate.v1"
                     (tx_transaction_id t, tx_transaction_index t, resource_class, amount, unit);
      Ok (mkUsage resource_class [] (str "trnm-reference-meter") 1 amount unit commitment))
    [ (RESOURCE_ORDERED_BYTES_V1, UNIT_BYTE_V1, ordered_bytes);
      (RESOURCE_STATE_READ_BYTES_V1, UNIT_BYTE_V1, read_bytes);
      (RESOURCE_STATE_WRITE_BYTES_V1, UNIT_BYTE_V1, write_bytes);
      (RESOURCE_COMPUTE_UNITS_V1, UNIT_COMPUTE_V1, charged_compute) ].

(** [value.checked_add(..)], [version.checked_add(1)] on a loaded object. *)
Definition set_value_version (o : ObjectStateV1) (value version : Z) : ObjectStateV1 :=
  mkObject (os_schema_version o) (os_object_id o) version value (os_closed o).

Definition bump_version (o : ObjectStateV1) (msg : string) : MvccFeeResultV1 Z :=
  ok_or (checked_add u64_max (os_version o) 1) (error ArithmeticOverflow msg).

(** The program's own writes, on success. *)
Definition program_successors (state : ObjectMapV1) (p : ObjectProgramV1)
    : MvccFeeResultV1 ObjectMapV1 :=
  match p with
  | Add target amount =>
      object ← ok_or (state !! target) (error NotFound "add target absent");
      value ← ok_or (checked_add u128_max (os_value object) amount)
            (error ArithmeticOverflow "add overflow");
      version ← bump_version object "object version overflow";
      Ok (<[target := set_value_version object value version]> ∅)
  | Transfer source destination amount =>
      from ← ok_or (state !! source) (error NotFound "transfer source absent");
      to ← ok_or (state !! destination) (error NotFound "transfer destination absent");
      _ ← fail_if (os_value from <? amount) (error InsufficientFunds "transfer source insufficient");
      from_value ← ok_or (checked_sub (os_value from) amount)
            (error ArithmeticOverflow "transfer source underflow");
      to_value ← ok_or (checked_add u128_max (os_value to) amount)
            (error ArithmeticOverflow "transfer destination overflow");
      from_version ← bump_version from "source version overflow";
      to_version ← bump_version to "destination version overflow";
      Ok (<[destination := set_value_version to to_value to_version]>
           (<[source := set_value_version from from_value from_version]> ∅))
  | Revert _ => Panic
  end.

Definition write_entry (state : ObjectMapV1) (row : TypedObjectIdV1 * ObjectStateV1)
    : MvccFeeResultV1 WriteSetEntryV1 :=
  let '(id, successor) := row in
  prior ← expect (state !! id);
  h ← value_hash successor;
  Ok (mkWrite id (os_version prior) (os_version successor) h).

Definition compute_transaction_v1 (g : MvccFeeGenesisV1) (state : ObjectMapV1)
    (t : MvccTransactionV1) (reads : list ReadSetEntryV1) : MvccFeeResultV1 TransactionComputationV1 :=
  let '(status, error_class, charged_compute) := execution_status t in
  resource_usage ← meter_transaction state t reads status charged_compute;
  fee_charged ← calculate_fee (g_resource_prices g) resource_usage;
  _ ← fail_if (tx_max_fee t <? fee_charged)
        (error FeeLimitExceeded "computed fee exceeds transaction ceiling");
  payer ← ok_or (state !! tx_fee_payer t) (error NotFound "fee payer absent");
  _ ← fail_if (os_value payer <? fee_charged)
        (error InsufficientFunds "fee payer balance insufficient");
  successors ← (if bool_decide (status = Success) then program_successors state (tx_program t) else Ok ∅);
  payer_value ← ok_or (checked_sub (os_value payer) fee_charged)
        (error ArithmeticOverflow "payer fee underflow");
  payer_version ← bump_version payer "payer version overflow";
  let successors := <[tx_fee_payer t := set_value_version payer payer_value payer_version]> successors in
  write_set ← try_map (write_entry state) (btree_iter successors);
  fee_deltas ← split_fee g (tx_fee_payer t) fee_charged;
  read_set_root ← digest_value "trnm.portable.v2.read-set-root.candidate.v1" reads;
  write_set_root ← digest_value "trnm.portable.v2.write-set-root.candidate.v1" write_set;
  state_delta_root ← digest_value "trnm.portable.v2.state-delta-root.candidate.v1" write_set;
  refund_amount ← ok_or (checked_sub (tx_max_fee t) fee_charged)
        (error ArithmeticOverflow "refund underflow");
  Ok (mkComputation successors status error_class reads write_set read_set_root write_set_root
        state_delta_root resource_usage fee_charged refund_amount fee_deltas).

(** ** Commit *)

Definition reduce_pending_fees (pending : PendingFees) : list FeeDeltaV1 :=
  (fun '((source, destination), amount) => mkFeeDelta source destination amount) <$> btree_iter pending.

Definition add_pending_fee (pending : PendingFees) (d : FeeDeltaV1) : MvccFeeResultV1 PendingFees :=
  let key := (fd_source d, fd_destination d) in
  slot ← ok_or (checked_add u128_max (default 0 (pending !! key)) (fd_amount d))
        (error ArithmeticOverflow "pending fee delta overflow");
  Ok (<[key := slot]> pending).

Definition install (state successors : ObjectMapV1) : ObjectMapV1 :=
  foldl (fun st '(id, successor) => <[id := successor]> st) state (btree_iter successors).

Definition commit_computed_transaction_v1 (state : ObjectMapV1) (pending : PendingFees)
    (t : MvccTransactionV1) (c : TransactionComputationV1) (conflict_set : list TypedObjectIdV1)
    : MvccFeeResultV1 (ObjectMapV1 * PendingFees * TransactionExecutionReceiptV1) :=
  let state := install state (c_successors c) in
  pending ← try_fold add_pending_fee pending (c_fee_deltas c);
  root ← digest_value "trnm.portable.v2.mvcc-intermediate-state-root.candidate.v1"
           (btree_values state, reduce_pending_fees pending);
  Ok (state, pending,
      mkReceipt SCHEMA_VERSION_V1 (tx_transaction_id t) (tx_transaction_index t) (c_status c)
        (c_error_class c) (c_read_set c) (c_write_set c) (c_read_set_root c) (c_write_set_root c)
        (c_state_delta_root c) root (c_resource_usage c) (c_fee_charged c) (c_refund_amount c)
        (c_fee_deltas c) conflict_set (if is_empty conflict_set then 0 else 1)).

Definition add_credit (credits : gmap TypedObjectIdV1 Z) (d : FeeDeltaV1)
    : MvccFeeResultV1 (gmap TypedObjectIdV1 Z) :=
  slot ← ok_or (checked_add u128_max (default 0 (credits !! fd_destination d)) (fd_amount d))
        (error ArithmeticOverflow "destination credit overflow");
  Ok (<[fd_destination d := slot]> credits).

Definition reduce_destination_credits (deltas : list FeeDeltaV1)
    : MvccFeeResultV1 (list DestinationFeeCreditV1) :=
  credits ← try_fold add_credit ∅ deltas;
  Ok ((fun '(destination, amount) => mkCredit destination amount) <$> btree_iter credits).

Definition apply_credit (state : ObjectMapV1) (credit : DestinationFeeCreditV1)
    : MvccFeeResultV1 ObjectMapV1 :=
  object ← ok_or (state !! dc_destination credit) (error NotFound "fee destination absent");
  value ← ok_or (checked_add u128_max (os_value object) (dc_amount credit))
        (error ArithmeticOverflow "fee destination value overflow");
  version ← bump_version object "fee destination version overflow";
  Ok (<[dc_destination credit := set_value_version object value version]> state).

Definition apply_destination_credits (state : ObjectMapV1) (credits : list DestinationFeeCreditV1)
    : MvccFeeResultV1 ObjectMapV1 :=
  try_fold apply_credit state credits.

Definition add_resource (totals : gmap ResourceAggregationKeyV1 Z) (u : ResourceUsageV1)
    : MvccFeeResultV1 (gmap ResourceAggregationKeyV1 Z) :=
  let key := (ru_resource_class u, ru_resource_id u, ru_meter_id u, ru_meter_version u, ru_unit u) in
  slot ← ok_or (checked_add u128_max (default 0 (totals !! key)) (ru_amount u))
        (error ArithmeticOverflow "resource total overflow");
  Ok (<[key := slot]> totals).

Definition aggregate_resources (receipts : list TransactionExecutionReceiptV1)
    : MvccFeeResultV1 (list ResourceUsageV1) :=
  totals ← try_fold add_resource ∅ (receipts ≫= r_resource_usage);
  try_map (fun '((resource_class, resource_id, meter_id, meter_version, unit), amount) =>
      commitment ← digest_value "trnm.portable.v2.block-resource-total.candidate.v1"
                     (resource_class, amount, unit);
      Ok (mkUsage resource_class resource_id meter_id meter_version amount unit commitment))
    (btree_iter totals).

Definition finish_block_v1 (g : MvccFeeGenesisV1) (b : MvccBlockV1) (parent_root : Hash32V1)
    (current : ObjectMapV1) (pending : PendingFees) (receipts : list TransactionExecutionReceiptV1)
    : MvccFeeResultV1 (ObjectMapV1 * MvccBlockReceiptV1) :=
  let aggregated_fee_deltas := reduce_pending_fees pending in
  destination_credits ← reduce_destination_credits aggregated_fee_deltas;
  current ← apply_destination_credits current destination_credits;
  final_state_root ← state_root current;
  resource_totals ← aggregate_resources receipts;
  receipts_root ← digest_value "trnm.portable.v2.mvcc-receipts-root.candidate.v1" receipts;
  resource_totals_root ← digest_value "trnm.portable.v2.mvcc-resource-totals-root.candidate.v1"
        resource_totals;
  fee_deltas_root ← digest_value "trnm.portable.v2.mvcc-fee-deltas-root.candidate.v1"
        (aggregated_fee_deltas, destination_credits);
  mvcc_resolution_root ← digest_value "trnm.portable.v2.mvcc-resolution-root.candidate.v1"
        ((fun r => (r_transaction_id r, r_conflict_set r, r_retry_count r)) <$> receipts);
  transaction_count ← ok_or (try_from u32_max (zlen receipts))
        (error ArithmeticOverflow "transaction count overflow");
  Ok (current,
      mkBlockReceipt SCHEMA_VERSION_V1 (g_store_id g) (b_block_id b) (b_height b) parent_root
        final_state_root receipts_root resource_totals_root fee_deltas_root mvcc_resolution_root
        transaction_count receipts resource_totals aggregated_fee_deltas destination_credits).

(** ** The sequential oracle *)

Definition execute_step (g : MvccFeeGenesisV1) (acc : CommitState)
    (row : MvccTransactionV1 * list ReadSetEntryV1) : MvccFeeResultV1 CommitState :=
  let '(current, pending, receipts) := acc in
  let '(t, initial_reads) := row in
  current_reads ← read_set current t;
  let conflicts := conflicting_objects_v1 initial_reads current_reads in
  computed ← compute_transaction_v1 g current t current_reads;
  '(current, pending, receipt) ← commit_computed_transaction_v1 current pending t computed conflicts;
  Ok (current, pending, receipts ++ [receipt]).

Definition execute_block (g : MvccFeeGenesisV1) (parent : ObjectMapV1) (b : MvccBlockV1)
    : MvccFeeResultV1 (ObjectMapV1 * MvccBlockReceiptV1) :=
  _ ← validate_block g parent b;
  parent_root ← state_root parent;
  parent_reads ← try_map (read_set parent) (b_transactions b);
  '(current, pending, receipts) ←
    try_fold (execute_step g) (parent, ∅, []) (zip (b_transactions b) parent_reads);
  finish_block_v1 g b parent_root current pending receipts.

(** ** Speculation on worker threads *)

(** One row a worker computes; [None] is a panic of the thread. *)
Definition worker_row (g : MvccFeeGenesisV1) (parent : ObjectMapV1) (t : MvccTransactionV1)
    : option (MvccFeeResultV1 SpeculativeTransactionV1) :=
  match read_set parent t with
  | Panic => None
  | Err e => Some (Err e)
  | Ok parent_reads =>
      match compute_transaction_v1 g parent t parent_reads with
      | Panic => None
      | computed => Some (Ok (mkSpeculative parent_reads computed))
      end
  end.

(** A worker's loop [while position < transactions.len() { ..; position += active }]. *)
Fixpoint worker_loop (g : MvccFeeGenesisV1) (parent : ObjectMapV1)
    (transactions : list MvccTransactionV1) (active fuel position : nat)
    : option (list (nat * MvccFeeResultV1 SpeculativeTransactionV1)) :=
  match fuel with
  | O => Some []
  | S fuel =>
      match transactions !! position with
      | None => Some []
      | Some t =>
          row ← worker_row g parent t;
          rows ← worker_loop g parent transactions active fuel (position + active)%nat;
          Some ((position, row) :: rows)
      end
  end.

Definition store_row (ordered : Slots) (row : nat * MvccFeeResultV1 SpeculativeTransactionV1) : Slots :=
  <[row.1 := Some row.2]> ordered.

(** Join one worker: store its rows, or remember that it panicked. *)
Definition join_worker (acc : Slots * bool)
    (handle : option (list (nat * MvccFeeResultV1 SpeculativeTransactionV1))) : Slots * bool :=
  match handle with
  | Some rows => (foldl store_row acc.1 rows, acc.2)
  | None => (acc.1, true)
  end.

Definition parallel_speculative_transactions_v1 (g : MvccFeeGenesisV1) (parent : ObjectMapV1)
    (transactions : list MvccTransactionV1) (worker_count : nat)
    : MvccFeeResultV1 (list SpeculativeTransactionV1) :=
  _ ← validate_worker_count_v1 worker_count;
  let n := length transactions in
  let active_workers := Nat.min worker_count (Nat.max n 1) in
  let handles := (fun worker_index => worker_loop g parent transactions active_workers n worker_index)
                   <$> seq 0 active_workers in
  let '(ordered, panicked) := foldl join_worker (replicate n None, false) handles in
  _ ← fail_if panicked (error InvalidState "parallel speculation worker panicked");
  try_map (fun row =>
      row ← ok_or row (error InvalidState "parallel speculation omitted a canonical transaction");
      row) ordered.

Definition parallel_step (g : MvccFeeGenesisV1) (acc : CommitState)
    (row : MvccTransactionV1 * SpeculativeTransactionV1) : MvccFeeResultV1 CommitState :=
  let '(current, pending, receipts) := acc in
  let '(t, speculative) := row in
  current_reads ← read_set current t;
  let conflicts := conflicting_objects_v1 (sp_parent_reads speculative) current_reads in
  computed ← (if is_empty conflicts then sp_computed speculative
              else compute_transaction_v1 g current t current_reads);
  '(current, pending, receipt) ← commit_computed_transaction_v1 current pending t computed conflicts;
  Ok (current, pending, receipts ++ [receipt]).

Definition execute_block_with_workers (g : MvccFeeGenesisV1) (parent : ObjectMapV1)
    (b : MvccBlockV1) (worker_count : nat) : MvccFeeResultV1 (ObjectMapV1 * MvccBlockReceiptV1) :=
  _ ← validate_worker_count_v1 worker_count;
  _ ← validate_block g parent b;
  parent_root ← state_root parent;
  speculative ← parallel_speculative_transactions_v1 g parent (b_transactions b) worker_count;
  '(current, pending, receipts) ←
    try_fold (parallel_step g) (parent, ∅, []) (zip (b_transactions b) speculative);
  finish_block_v1 g b parent_root current pending receipts.

End engine.

Arguments execute_step : simpl never.
Arguments parallel_step : simpl never.
