(* ===== verification/MvccEquivalence.v ===== *)
(** * MvccEquivalence: parallel execution refines the sequential oracle

    Workers speculate against the parent state and the commit loop reuses their
    results when no declared read changed.  The file shows that a validated
    genesis rules out every panic of the kernel, that a transaction's computation
    depends on the objects it declares only, that versions grow with every write,
    and from these that [execute_block_with_workers] and [execute_block] agree,
    on results and on errors. *)

From stdpp Require Import base gmap list sorting strings.
From S2P Require Import Prelude MvccEngine.

Section equivalence.
Context `{MvccCrates}.

(** ** What validation establishes *)

(** The objects a transaction touches. *)
Definition access_ids (t : MvccTransactionV1) : list TypedObjectIdV1 :=
  match tx_program t with
  | Add target _ => [tx_fee_payer t; target]
  | Transfer source destination _ => [tx_fee_payer t; source; destination]
  | Revert _ => [tx_fee_payer t]
  end.

(** A transaction whose declared access sets are the program's. *)
Record tx_valid (g : MvccFeeGenesisV1) (t : MvccTransactionV1) : Prop := {
  tv_reads : tx_declared_reads t = sort (access_ids t);
  tv_nodup : NoDup (access_ids t);
  tv_payer : tx_fee_payer t ∉ destination_set g;
}.

(** Divisors are nonzero and price bounds ordered. *)
Record genesis_sound (g : MvccFeeGenesisV1) : Prop := {
  gs_prices : Forall (fun p => rp_price_denominator p <> 0 /\
                        rp_minimum_charge p <= rp_maximum_charge p) (g_resource_prices g);
  gs_splits : Forall (fun s => fs_denominator s <> 0) (g_destination_splits g);
}.

Lemma canonical_bytes_not_panic {A} `{BorshSerialize A} (v : A) : canonical_bytes v <> Panic.
Proof. unfold canonical_bytes. by destruct (borsh_to_vec v). Qed.

Lemma digest_value_not_panic {A} `{BorshSerialize A} d (v : A) : digest_value d v <> Panic.
Proof.
  unfold digest_value, digest_bytes. no_panic. apply canonical_bytes_not_panic.
Qed.
Hint Resolve canonical_bytes_not_panic digest_value_not_panic : trnm.

Lemma expected_access_Ok t r w :
  expected_access t = Ok (r, w) -> r = sort (access_ids t) /\ w = r /\ NoDup (access_ids t).
Proof.
  unfold expected_access, access_ids. intros Hx.
  destruct (tx_program t); rinv; bprop; simplify_eq; (split; [done|]; split; [done|]);
    repeat constructor; rewrite ?not_elem_of_cons; set_solver.
Qed.

Lemma validate_transaction_Ok g acc t acc' :
  validate_transaction (destination_set g) acc t = Ok acc' -> tx_valid g t.
Proof.
  destruct acc as [i ids]. unfold validate_transaction. intros Hx. rinv. subst.
  bprop.
  match goal with Ha : expected_access _ = Ok _ |- _ => apply expected_access_Ok in Ha as (-> & -> & ?) end.
  match goal with Ho : or_else ?c _ = Ok false |- _ => destruct c; simpl in Ho; [done|]; rinv; bprop end.
  by constructor.
Qed.

Lemma validate_block_Ok g parent b :
  validate_block g parent b = Ok tt -> Forall (tx_valid g) (b_transactions b).
Proof.
  unfold validate_block. intros Hx. rinv.
  eapply try_fold_Forall; [|eassumption]. intros. by eapply validate_transaction_Ok.
Qed.

Lemma Forall_zip_l {A B} (P : A -> Prop) (Q : A * B -> Prop) (l : list A) (k : list B) :
  length l = length k -> (forall a b, Q (a, b) -> P a) -> Forall Q (zip l k) -> Forall P l.
Proof.
  intros Hl HQ. revert k Hl. induction l as [|a l IH]; intros [|b k] Hl; try done.
  simpl. inversion 1; subst. constructor; eauto.
Qed.

Lemma validate_genesis_sound g : validate_genesis g = Ok tt -> genesis_sound g.
Proof.
  unfold validate_genesis. intros Hx. rinv. bprop.
  constructor.
  - match goal with Hp : try_map _ (zip _ expected_classes) = Ok _ |- _ => apply try_map_Ok in Hp end.
    match goal with Hp : Forall2 _ (zip _ expected_classes) ?k |- _ =>
      apply (Forall_zip_l _ (fun row => check_price row.1 row.2 = Ok tt) _ expected_classes) end.
    + unfold zlen in *. simpl. lia.
    + simpl. unfold check_price. intros p e Hc. rinv. bprop. split; lia.
    + match goal with Hp : Forall2 _ (zip _ _) _ |- _ => clear -Hp; induction Hp as [|[p e] u ?? Hc] end;
        constructor; [|done]. by destruct u.
  - match goal with He : existsb (fun v => fs_denominator v <>? _ || _) _ = false |- _ => rename He into He' end.
    apply Forall_forall. intros s Hs Hz.
    apply not_true_iff_false in He'. apply He', existsb_exists. exists s.
    split; [by apply list_elem_of_In|]. rewrite Hz. by rewrite bool_decide_eq_false_2.
Qed.

(** ** Panic freedom *)

Lemma read_entry_not_panic state id : read_entry state id <> Panic.
Proof. unfold read_entry, value_hash. no_panic. auto with trnm. Qed.

Lemma read_set_not_panic state t : read_set state t <> Panic.
Proof. apply try_map_not_panic. intros. apply read_entry_not_panic. Qed.

(** A successful read set lists the declared objects, all present and open. *)
Lemma read_set_Ok state t reads :
  read_set state t = Ok reads ->
  Forall2 (fun id e => exists v, state !! id = Some v /\ value_hash v = Ok (rs_observed_value_hash e) /\
                       os_closed v = false /\
                       e = mkRead id (os_version v) (rs_observed_value_hash e))
    (tx_declared_reads t) reads.
Proof.
  unfold read_set. rewrite try_map_Ok. intros Hf. eapply Forall2_impl; [exact Hf|]. intros id e He.
  unfold read_entry in He. rinv. subst. simpl. eauto.
Qed.

Lemma read_set_ids state t reads e :
  read_set state t = Ok reads -> e ∈ reads ->
  rs_object_id e ∈ tx_declared_reads t /\ is_Some (state !! rs_object_id e).
Proof.
  intros Hr%read_set_Ok. induction Hr as [|id e' ids reads (v & Hv & _ & _ & ->) Hr IH]; intros Hin.
  - by apply elem_of_nil in Hin.
  - apply elem_of_cons in Hin as [->|Hin]; simpl; [split; [by left|by eauto]|].
    destruct (IH Hin). split; [by right|done].
Qed.

Lemma meter_transaction_not_panic state t reads status c :
  (forall e, e ∈ reads -> is_Some (state !! rs_object_id e)) ->
  meter_transaction state t reads status c <> Panic.
Proof.
  intros Hr. unfold meter_transaction. no_panic; auto with trnm.
  - apply (try_fold_not_panic (fun _ => True)); [done| |done].
    intros x e He _. unfold read_bytes_step. no_panic; auto with trnm.
    apply expect_not_panic; auto.
  - apply try_map_not_panic. intros [[? ?] ?] _. no_panic. auto with trnm.
Qed.

Lemma calculate_fee_not_panic g usage :
  genesis_sound g -> calculate_fee (g_resource_prices g) usage <> Panic.
Proof.
  intros [Hp _]. apply (try_fold_not_panic (fun _ => True)); [done| |done].
  intros x [price item] Hin _. rewrite Forall_forall in Hp.
  destruct (Hp price) as [Hd Hc]; [by eapply elem_of_zip_l|].
  unfold charge_resource, u_div, u_rem, clamp. no_panic.
  - by destruct (rp_price_denominator price =? 0) eqn:?; bprop.
  - by destruct (rp_price_denominator price =? 0) eqn:?; bprop.
  - by destruct (rp_maximum_charge price <? rp_minimum_charge price) eqn:?; bprop; try lia.
Qed.

Lemma split_fee_not_panic g source fee : genesis_sound g -> split_fee g source fee <> Panic.
Proof.
  intros [_ Hs]. unfold split_fee. no_panic.
  - apply (try_fold_not_panic (fun _ => True)); [done| |done].
    intros [out asg] s Hin _. rewrite Forall_forall in Hs. specialize (Hs s Hin).
    unfold split_step, u_div. no_panic. by destruct (fs_denominator s =? 0) eqn:?; bprop.
  - apply (try_fold_not_panic (fun _ => True)); [done| |done]. intros. no_panic.
Qed.

Lemma program_successors_not_panic state t :
  (execution_status t).1.1 = Success -> program_successors state (tx_program t) <> Panic.
Proof.
  unfold execution_status, program_successors, bump_version.
  destruct (tx_program t); intros Hs; [no_panic| no_panic|done].
Qed.

(** ** Successors: existing objects, one version later *)

Definition successors_of (state successors : ObjectMapV1) : Prop :=
  forall id s, successors !! id = Some s ->
    exists p, state !! id = Some p /\ os_version s = os_version p + 1.

Lemma successors_insert state succ id p value version :
  successors_of state succ -> state !! id = Some p -> version = os_version p + 1 ->
  successors_of state (<[id := set_value_version p value version]> succ).
Proof.
  intros Hs Hp -> i s Hi. destruct (decide (id = i)) as [->|Hne].
  - rewrite lookup_insert_eq in Hi. injection Hi as <-. eauto.
  - rewrite lookup_insert_ne in Hi by done. eauto.
Qed.

Lemma successors_empty state : successors_of state ∅.
Proof. intros i s Hi. by rewrite lookup_empty in Hi. Qed.

Lemma program_successors_Ok state p succ :
  program_successors state p = Ok succ -> successors_of state succ.
Proof.
  unfold program_successors, bump_version. intros Hp.
  destruct p; rinv; checked; subst; repeat apply successors_insert; auto using successors_empty.
Qed.

Lemma program_successors_ids state t succ id :
  program_successors state (tx_program t) = Ok succ -> is_Some (succ !! id) -> id ∈ access_ids t.
Proof.
  unfold program_successors, access_ids. intros Hp [s Hs].
  destruct (tx_program t); rinv; subst; rewrite ?lookup_insert, lookup_empty in Hs;
    repeat case_decide; subst; try done; set_solver.
Qed.

(** ** Locality: a computation reads its declared objects only *)

Section locality.
Context (g : MvccFeeGenesisV1) (s1 s2 : ObjectMapV1) (t : MvccTransactionV1).
Hypothesis agree : forall id, id ∈ access_ids t -> s1 !! id = s2 !! id.

Lemma payer_in_access : tx_fee_payer t ∈ access_ids t.
Proof. unfold access_ids. destruct (tx_program t); by left. Qed.

Lemma meter_transaction_local reads status c :
  (forall e, e ∈ reads -> rs_object_id e ∈ access_ids t) ->
  meter_transaction s1 t reads status c = meter_transaction s2 t reads status c.
Proof.
  intros Hr. unfold meter_transaction.
  rewrite (try_fold_ext _ (read_bytes_step s2)).
  - by rewrite (agree _ payer_in_access).
  - intros x e He. unfold read_bytes_step. by rewrite agree by auto.
Qed.

Lemma program_successors_local :
  program_successors s1 (tx_program t) = program_successors s2 (tx_program t).
Proof.
  unfold program_successors. pose proof agree as Ha. unfold access_ids in Ha.
  destruct (tx_program t); [|rewrite (Ha source) by set_solver|done];
    rewrite Ha by set_solver; done.
Qed.

Lemma write_set_local succ :
  (forall id, is_Some (succ !! id) -> id ∈ access_ids t) ->
  try_map (write_entry s1) (btree_iter succ) = try_map (write_entry s2) (btree_iter succ).
Proof.
  intros Hs. apply try_map_ext. intros [id s] Hin%elem_of_btree_iter. unfold write_entry.
  by rewrite agree by eauto.
Qed.

Lemma compute_transaction_local reads :
  (forall e, e ∈ reads -> rs_object_id e ∈ access_ids t) ->
  compute_transaction_v1 g s1 t reads = compute_transaction_v1 g s2 t reads.
Proof.
  intros Hr. unfold compute_transaction_v1. destruct (execution_status t) as [[status ec] cc].
  rewrite (meter_transaction_local reads status cc Hr), (agree _ payer_in_access), program_successors_local.
  do 5 (apply bind_ext; intros ? ?).
  apply bind_ext; intros succ Hsucc. do 2 (apply bind_ext; intros ? ?).
  rewrite write_set_local; [done|].
  intros id. destruct (decide (tx_fee_payer t = id)) as [<-|Hne]; [intros; apply payer_in_access|].
  rewrite lookup_insert_ne by done. case_bool_decide; [by eapply program_successors_ids|].
  injection Hsucc as <-. by rewrite lookup_empty; intros [].
Qed.

End locality.

Lemma compute_successors g state t reads c :
  compute_transaction_v1 g state t reads = Ok c -> successors_of state (c_successors c).
Proof.
  unfold compute_transaction_v1, bump_version. destruct (execution_status t) as [[status ec] cc].
  intros Hc. rinv. subst. simpl. checked.
  apply successors_insert; [|done|done].
  case_bool_decide; [by eapply program_successors_Ok|]. rinv. subst. apply successors_empty.
Qed.

Lemma compute_not_panic g state t reads :
  genesis_sound g -> (forall e, e ∈ reads -> is_Some (state !! rs_object_id e)) ->
  compute_transaction_v1 g state t reads <> Panic.
Proof.
  intros Hg Hr. unfold compute_transaction_v1, bump_version.
  pose proof (program_successors_not_panic state t) as Hp.
  destruct (execution_status t) as [[status ec] cc]. simpl in Hp.
  no_panic; auto using meter_transaction_not_panic, calculate_fee_not_panic, split_fee_not_panic with trnm.
  - case_bool_decide; [auto|done].
  - apply try_map_not_panic. intros [id s] Hin%elem_of_btree_iter. unfold write_entry, value_hash.
    no_panic; auto with trnm. apply expect_not_panic.
    destruct (decide (tx_fee_payer t = id)) as [<-|Hne]; [rinv; eauto|].
    rewrite lookup_insert_ne in Hin by done.
    case_bool_decide; [|simplify_eq; by rewrite lookup_empty in Hin].
    match goal with Hq : program_successors _ _ = Ok _ |- _ =>
      apply program_successors_Ok in Hq; destruct (Hq _ _ Hin) as (p & -> & _) end.
    done.
Qed.

(** ** Versions grow: an unchanged version is an unchanged object *)

Definition evolves (parent current : ObjectMapV1) : Prop :=
  forall id, match parent !! id, current !! id with
             | Some p, Some c => c = p \/ os_version p < os_version c
             | None, None => True
             | _, _ => False
             end.

Lemma evolves_refl s : evolves s s.
Proof. intros id. destruct (s !! id); auto. Qed.

Lemma install_lookup state succ id :
  install state succ !! id = match succ !! id with Some s => Some s | None => state !! id end.
Proof.
  unfold install. rewrite foldl_insert_lookup by apply btree_iter_NoDup.
  by rewrite list_to_map_btree_iter.
Qed.

Lemma install_evolves parent current succ :
  evolves parent current -> successors_of current succ -> evolves parent (install current succ).
Proof.
  intros He Hs id. specialize (He id). rewrite install_lookup.
  destruct (succ !! id) as [s|] eqn:Hsid; [|done].
  destruct (Hs _ _ Hsid) as (p & Hp & Hv). rewrite Hp in He.
  destruct (parent !! id); [|done]. right. destruct He as [->|]; lia.
Qed.

Lemma commit_state st pend t c conf st' pend' r :
  commit_computed_transaction_v1 st pend t c conf = Ok (st', pend', r) ->
  st' = install st (c_successors c) /\ try_fold add_pending_fee pend (c_fee_deltas c) = Ok pend' /\
  r_fee_charged r = c_fee_charged c /\ r_fee_deltas r = c_fee_deltas c /\ r_status r = c_status c.
Proof. unfold commit_computed_transaction_v1. intros Hc. rinv. by simplify_eq. Qed.

Lemma execute_step_evolves g parent st pend rs row st' pend' rs' :
  evolves parent st -> execute_step g (st, pend, rs) row = Ok (st', pend', rs') -> evolves parent st'.
Proof.
  destruct row as [t ir]. unfold execute_step. intros He Hx. rinv. simplify_eq.
  match goal with Hc : commit_computed_transaction_v1 _ _ _ _ _ = Ok _ |- _ =>
    apply commit_state in Hc as (-> & _) end.
  apply install_evolves; [done|]. by eapply compute_successors.
Qed.

Lemma conflicting_nil i c :
  conflicting_objects_v1 i c = [] ->
  Forall (fun '(l, r) => rs_observed_version l = rs_observed_version r /\
                         rs_observed_value_hash l = rs_observed_value_hash r) (zip i c).
Proof.
  unfold conflicting_objects_v1. induction (zip i c) as [|[l r] z IH]; simpl; [constructor|].
  destruct (rs_observed_version l <>? rs_observed_version r) eqn:E1; simpl; [done|].
  destruct (rs_observed_value_hash l <>? rs_observed_value_hash r) eqn:E2; simpl; [done|].
  bprop. constructor; auto.
Qed.

Lemma no_conflict_agree parent current t pr cr :
  evolves parent current -> read_set parent t = Ok pr -> read_set current t = Ok cr ->
  conflicting_objects_v1 pr cr = [] ->
  pr = cr /\ forall id, id ∈ tx_declared_reads t -> parent !! id = current !! id.
Proof.
  intros He Hp%read_set_Ok Hc%read_set_Ok Hn%conflicting_nil.
  revert cr Hc Hn. induction Hp as [|id e ids pr (v & Hv & _ & _ & Hev) Hp IH]; intros cr Hc Hn.
  - inversion Hc; subst. split; [done|]. by intros id ?%elem_of_nil.
  - inversion Hc as [|? e' ? cr' (v' & Hv' & _ & _ & Hev') Hc']; subst.
    apply Forall_cons in Hn as [[Hver Hhash] Hn']. destruct (IH cr' Hc' Hn') as [-> Hagree].
    rewrite Hev, Hev' in Hver |- *. simpl in *. rewrite Hhash. split; [congruence|].
    intros i [->|Hi]%elem_of_cons; [|auto]. specialize (He id). rewrite Hv, Hv' in He |- *.
    destruct He as [->|]; [done|lia].
Qed.

(** The commit step is the same whether it reuses speculation or recomputes. *)
Lemma parallel_step_equiv g parent st pend rs t pr :
  tx_valid g t -> evolves parent st -> read_set parent t = Ok pr ->
  parallel_step g (st, pend, rs) (t, mkSpeculative pr (compute_transaction_v1 g parent t pr)) =
  execute_step g (st, pend, rs) (t, pr).
Proof.
  intros Hv He Hpr. unfold parallel_step, execute_step; cbn [sp_parent_reads sp_computed].
  apply bind_ext. intros cr Hcr. destruct (conflicting_objects_v1 pr cr) eqn:Hconf; cbn [is_empty]; [|done].
  destruct (no_conflict_agree _ _ _ _ _ He Hpr Hcr Hconf) as [<- Hagree].
  rewrite (compute_transaction_local g parent st t); [done| |].
  - intros id Hid. apply Hagree. rewrite (tv_reads _ _ Hv), sort_perm. done.
  - intros e Hin. destruct (read_set_ids _ _ _ _ Hpr Hin) as [Hd _].
    by rewrite (tv_reads _ _ Hv), sort_perm in Hd.
Qed.

(** ** Workers fill every slot *)

Lemma try_map_slots {E A B} (f : A -> result E B) (e : E) l :
  try_map (fun row => row ← ok_or row e; row) (Some ∘ f <$> l) = try_map f l.
Proof.
  induction l as [|a l IH]; [done|]. rewrite fmap_cons. cbn [try_map]. rewrite IH. done.
Qed.

Section workers.
Context (g : MvccFeeGenesisV1) (parent : ObjectMapV1) (txs : list MvccTransactionV1).

(** The row of a transaction, as an error-propagating computation. *)
Definition speculate (t : MvccTransactionV1) : MvccFeeResultV1 SpeculativeTransactionV1 :=
  reads ← read_set parent t;
  Ok (mkSpeculative reads (compute_transaction_v1 g parent t reads)).

Definition slot_of (i : nat) : option (MvccFeeResultV1 SpeculativeTransactionV1) :=
  speculate <$> txs !! i.

Hypothesis rows_run : forall t, t ∈ txs -> worker_row g parent t = Some (speculate t).

(** [fuel >= len - position] runs the worker's loop to its end. *)
Lemma worker_loop_rows active fuel position :
  (0 < active)%nat -> (length txs - position <= fuel)%nat ->
  exists rows, worker_loop g parent txs active fuel position = Some rows /\
    (forall i r, (i, r) ∈ rows -> slot_of i = Some r) /\
    (forall k, (position + k * active < length txs)%nat -> exists r, ((position + k * active)%nat, r) ∈ rows).
Proof.
  intros Ha. revert position. induction fuel as [|fuel IH]; intros position Hf; simpl.
  - exists []. split; [done|]. split; [by intros ? ? ?%elem_of_nil|]. intros k Hk. lia.
  - destruct (txs !! position) as [t|] eqn:Ht.
    + rewrite rows_run by by eapply list_elem_of_lookup_2. simpl.
      destruct (IH (position + active)%nat) as (rows & -> & Hs & Hc); [lia|]. simpl.
      exists ((position, speculate t) :: rows). split; [done|]. split.
      * intros i r [[= -> ->]|Hin]%elem_of_cons; [|auto]. unfold slot_of. by rewrite Ht.
      * intros [|k] Hk; [exists (speculate t); rewrite Nat.add_0_r; by left|].
        destruct (Hc k) as [r Hr]; [lia|]. exists r.
        replace (position + S k * active)%nat with (position + active + k * active)%nat by lia. by right.
    + apply lookup_ge_None in Ht. exists []. split; [done|]. split; [by intros ? ? ?%elem_of_nil|].
      intros k Hk. lia.
Qed.

(** A slot vector holds only correct rows, and all those of [done_]. *)
Definition slots_ok (slots : Slots) (done_ : nat -> Prop) : Prop :=
  length slots = length txs /\
  forall i, (i < length txs)%nat ->
    (slots !! i = Some None /\ ~ done_ i) \/ slots !! i = Some (slot_of i).

Lemma store_rows_ok rows slots done_ :
  slots_ok slots done_ -> (forall i r, (i, r) ∈ rows -> slot_of i = Some r) ->
  slots_ok (foldl store_row slots rows) (fun i => done_ i \/ exists r, (i, r) ∈ rows).
Proof.
  revert slots done_. induction rows as [|[i r] rows IH]; intros slots done_ [Hl Hs] Hr; simpl.
  - split; [done|]. intros j Hj. destruct (Hs j Hj) as [[? Hn]|?]; [left|by right].
    split; [done|]. intros [?|[r Hin]]; [done|]. by apply elem_of_nil in Hin.
  - destruct (IH (store_row slots (i, r)) (fun j => done_ j \/ j = i)) as [Hl' Hs'].
    + split; [unfold store_row; by rewrite length_insert|]. intros j Hj.
      unfold store_row; cbn [fst snd]. destruct (decide (i = j)) as [->|Hne].
      * right. rewrite list_lookup_insert_eq by lia. by rewrite (Hr j r) by by left.
      * rewrite list_lookup_insert_ne by done. destruct (Hs j Hj) as [[? ?]|?]; [left|by right].
        split; [done|]. intros [?| ->]; done.
    + intros j q Hin. apply Hr. by right.
    + split; [done|]. intros j Hj. destruct (Hs' j Hj) as [[? Hn]|?]; [left|by right].
      split; [done|]. intros [?|[q [[= -> ->]|Hin]%elem_of_cons]]; apply Hn; eauto.
Qed.

(** Joining the workers [0 .. n) marks every position congruent to one of them. *)
Lemma join_workers_ok active n :
  (0 < active)%nat ->
  exists slots,
    foldl join_worker (replicate (length txs) None, false)
      ((fun w => worker_loop g parent txs active (length txs) w) <$> seq 0 n) = (slots, false) /\
    slots_ok slots (fun i => exists w k, (w < n)%nat /\ i = (w + k * active)%nat).
Proof.
  intros Ha. induction n as [|n (slots & Hj & Hs)].
  - exists (replicate (length txs) None). split; [done|]. split; [apply length_replicate|].
    intros i Hi. left. split; [by apply lookup_replicate_2|]. intros (w & k & ? & _). lia.
  - rewrite seq_S, fmap_app, foldl_app, Hj. simpl.
    destruct (worker_loop_rows active (length txs) n Ha) as (rows & -> & Hr & Hc); [lia|]. simpl.
    exists (foldl store_row slots rows). split; [done|].
    destruct (store_rows_ok rows slots _ Hs Hr) as [Hl Hs']. split; [done|].
    intros i Hi. destruct (Hs' i Hi) as [[? Hn]|?]; [left|by right]. split; [done|].
    intros (w & k & Hw & ->). apply Hn. destruct (decide (w = n)) as [->|Hne].
    + right. by apply Hc.
    + left. exists w, k. split; [lia|done].
Qed.

Lemma parallel_speculative_eq worker_count :
  validate_worker_count_v1 worker_count = Ok tt ->
  parallel_speculative_transactions_v1 g parent txs worker_count = try_map speculate txs.
Proof.
  intros Hw. unfold parallel_speculative_transactions_v1. rewrite Hw. simpl.
  set (active := Nat.min worker_count (Nat.max (length txs) 1)).
  assert (Ha : (0 < active)%nat).
  { unfold validate_worker_count_v1 in Hw. rinv. apply orb_false_iff in Hw as [Hz _].
    apply Nat.eqb_neq in Hz. lia. }
  destruct (join_workers_ok active active Ha) as (slots & -> & Hl & Hs). simpl.
  assert (slots = Some ∘ speculate <$> txs) as ->.
  { apply list_eq. intros i. rewrite list_lookup_fmap. destruct (decide (i < length txs)%nat) as [Hi|Hi].
    - destruct (Hs i Hi) as [[_ Hn]| ->].
      + exfalso. apply Hn. exists (i mod active)%nat, (i / active)%nat.
        split; [apply Nat.mod_upper_bound; lia|]. rewrite Nat.mul_comm.
        pose proof (Nat.div_mod_eq i active). lia.
      + unfold slot_of. apply lookup_lt_is_Some in Hi as [t Ht]. by rewrite Ht.
    - rewrite !(proj2 (lookup_ge_None _ _)) by lia. done. }
  apply try_map_slots.
Qed.

End workers.

Lemma worker_row_speculate g parent t :
  genesis_sound g -> worker_row g parent t = Some (speculate g parent t).
Proof.
  intros Hg. unfold worker_row, speculate. pose proof (read_set_not_panic parent t) as Hn.
  destruct (read_set parent t) as [reads|e|] eqn:Hr; simpl; [|done|done].
  pose proof (compute_not_panic g parent t reads Hg) as Hc.
  destruct (compute_transaction_v1 g parent t reads); [done|done|].
  exfalso. apply Hc; [|done]. intros e He. by eapply read_set_ids.
Qed.

(** ** Refinement of the whole block *)

Lemma try_map_speculate g parent txs :
  try_map (speculate g parent) txs =
    reads ← try_map (read_set parent) txs;
    Ok (zip_with (fun t r => mkSpeculative r (compute_transaction_v1 g parent t r)) txs reads).
Proof.
  induction txs as [|t txs IH]; [done|]. cbn [try_map]. rewrite IH. unfold speculate.
  destruct (read_set parent t); [|done..]. by destruct (try_map (read_set parent) txs).
Qed.

Lemma commit_loop_equiv g parent txs reads acc :
  Forall (tx_valid g) txs -> evolves parent acc.1.1 ->
  Forall2 (fun t r => read_set parent t = Ok r) txs reads ->
  try_fold (parallel_step g) acc
    (zip txs (zip_with (fun t r => mkSpeculative r (compute_transaction_v1 g parent t r)) txs reads)) =
  try_fold (execute_step g) acc (zip txs reads).
Proof.
  intros Hv He Hr. revert acc Hv He. induction Hr as [|t r txs reads Hr1 Hr IH]; intros acc Hv He; [done|].
  apply Forall_cons in Hv as [Hv1 Hv]. destruct acc as [[st pend] rs].
  change (zip (t :: txs) (zip_with (fun t r => mkSpeculative r (compute_transaction_v1 g parent t r)) (t :: txs) (r :: reads)))
    with ((t, mkSpeculative r (compute_transaction_v1 g parent t r)) ::
          zip txs (zip_with (fun t r => mkSpeculative r (compute_transaction_v1 g parent t r)) txs reads)).
  change (zip (t :: txs) (r :: reads)) with ((t, r) :: zip txs reads).
  cbn [try_fold]. rewrite (parallel_step_equiv g parent) by done.
  apply bind_ext. intros [[st' pend'] rs'] Hstep. apply IH; [done|]. by eapply execute_step_evolves.
Qed.

End equivalence.

(** C1: on a validated genesis and any admissible number of workers, parallel
    execution returns exactly what the sequential oracle returns: the same final
    objects and block receipt (conflict sets, retry counts and roots included),
    or the same error.  No collision-freedom of the hash is needed. *)
Theorem parallel_execution_refines_sequential `{MvccCrates} (g : MvccFeeGenesisV1)
    (parent : ObjectMapV1) (b : MvccBlockV1) (worker_count : nat) :
  validate_genesis g = Ok tt -> validate_worker_count_v1 worker_count = Ok tt ->
  execute_block_with_workers g parent b worker_count = execute_block g parent b.
Proof.
  intros Hg%validate_genesis_sound Hw. unfold execute_block_with_workers, execute_block.
  rewrite Hw. cbn [mbind result_bind].
  apply bind_ext. intros [] Hb%validate_block_Ok. apply bind_ext. intros root _.
  rewrite parallel_speculative_eq by (done || intros; by apply worker_row_speculate).
  rewrite try_map_speculate.
  destruct (try_map (read_set parent) (b_transactions b)) as [reads|e|] eqn:Hr; [|done|done].
  cbn [mbind result_bind]. apply try_map_Ok in Hr.
  rewrite commit_loop_equiv by auto using evolves_refl. done.
Qed.
