(* ===== verification/MvccConservation.v ===== *)
(** * MvccConservation: value conservation, panic freedom and monotonicity of blocks

    Fees move from payers to the split destinations and nothing else is created
    or destroyed except what successful [Add] programs mint.  The development
    follows the code: per-transaction deltas, the pending-fee accumulator, the
    destination credits of [finish_block_v1]. *)

From stdpp Require Import base gmap list sorting strings.
From S2P Require Import Prelude MvccEngine MvccEquivalence.

(** The total value held by the objects of a state. *)
Definition total_value (s : ObjectMapV1) : Z := map_sum os_value s.

(** What a transaction mints: the amount of an [Add] that is not out of compute. *)
Definition minted (t : MvccTransactionV1) : Z :=
  match tx_program t with
  | Add _ amount => if tx_compute_unit_limit t <? required_compute (tx_program t) then 0 else amount
  | _ => 0
  end.

Definition deltas_total (ds : list FeeDeltaV1) : Z := lsum fd_amount ds.

Section conservation.
Context `{MvccCrates}.

(** ** Installing successors *)

Lemma install_empty s : install s ∅ = s.
Proof. apply map_eq. intros id. by rewrite install_lookup, lookup_empty. Qed.

Lemma install_insert s m k v : install s (<[k := v]> m) = <[k := v]> (install s m).
Proof.
  apply map_eq. intros id. rewrite install_lookup, !lookup_insert.
  case_decide; [done|]. by rewrite install_lookup.
Qed.

Lemma total_insert s k o o' :
  s !! k = Some o -> total_value (<[k := o']> s) = total_value s - os_value o + os_value o'.
Proof. apply map_sum_insert. Qed.

(** ** Fee splitting *)

Lemma try_fold_amount_sum {A} (f : A -> Z) (e : MvccFeeErrorV1) l b r :
  try_fold (fun sum v => ok_or (checked_add u128_max sum (f v)) e) b l = Ok r -> r = b + lsum f l.
Proof.
  revert b. induction l as [|a l IH]; intros b; simpl; intros Hf; rinv; checked; subst.
  - rewrite lsum_nil. lia.
  - rewrite (IH (b + f a)) by done. rewrite lsum_cons. lia.
Qed.

Lemma split_fee_total g source fee ds : split_fee g source fee = Ok ds -> deltas_total ds = fee.
Proof.
  unfold split_fee. intros Hs. rinv. subst. bprop. subst.
  match goal with Hf : try_fold _ 0 _ = Ok _ |- _ => apply try_fold_amount_sum in Hf; unfold deltas_total; lia end.
Qed.

(** ** One transaction *)

Lemma program_successors_total s t succ :
  NoDup (access_ids t) -> program_successors s (tx_program t) = Ok succ ->
  total_value (install s succ) = total_value s + match tx_program t with Add _ a => a | _ => 0 end /\
  succ !! tx_fee_payer t = None.
Proof.
  unfold program_successors, access_ids, bump_version. intros Hnd Hp.
  destruct (tx_program t) as [target amount|source destination amount|]; rinv; checked; subst; simpl;
    rewrite !install_insert, install_empty.
  - apply NoDup_cons in Hnd as [Hn _]. split; [|rewrite lookup_insert_ne, lookup_empty by set_solver; done].
    erewrite total_insert by eassumption. simpl. lia.
  - apply NoDup_cons in Hnd as [Hn Hnd]. apply NoDup_cons in Hnd as [Hn' _]. split.
    + erewrite total_insert; [|by rewrite lookup_insert_ne by set_solver].
      erewrite total_insert by eassumption. simpl. lia.
    + rewrite !lookup_insert_ne, lookup_empty by set_solver. done.
Qed.

Lemma execution_status_minted t :
  minted t = if bool_decide ((execution_status t).1.1 = Success)
             then match tx_program t with Add _ a => a | _ => 0 end else 0.
Proof.
  unfold minted, execution_status. destruct (tx_program t); [| |done];
    by destruct (tx_compute_unit_limit t <? _).
Qed.

(** A computed transaction moves its fee out of the objects and mints [minted t]. *)
Lemma compute_total g s t reads c :
  NoDup (access_ids t) -> compute_transaction_v1 g s t reads = Ok c ->
  total_value (install s (c_successors c)) = total_value s - c_fee_charged c + minted t /\
  deltas_total (c_fee_deltas c) = c_fee_charged c /\
  c_fee_charged c + c_refund_amount c = tx_max_fee t /\ c_fee_charged c <= tx_max_fee t.
Proof.
  intros Hnd. unfold compute_transaction_v1, bump_version. rewrite execution_status_minted.
  destruct (execution_status t) as [[status ec] cc]; cbn [fst]. intros Hc. rinv. subst. simpl. bprop. checked.
  match goal with Hs : split_fee _ _ _ = Ok _ |- _ => apply split_fee_total in Hs end.
  rewrite install_insert.
  match goal with Hp : (if _ then program_successors _ _ else _) = Ok ?succ |- _ =>
    assert (total_value (install s succ) = total_value s +
              (if bool_decide (status = Success) then match tx_program t with Add _ a => a | _ => 0 end else 0) /\
            succ !! tx_fee_payer t = None) as [Ht Hnone] end.
  { case_bool_decide; [by apply program_successors_total|]. rinv. subst.
    rewrite install_empty, lookup_empty. split; [lia|done]. }
  erewrite total_insert; [|rewrite install_lookup, Hnone; eassumption]. simpl. lia.
Qed.

(** ** Pending fees and credits *)

Lemma add_pending_fee_total p d p' :
  add_pending_fee p d = Ok p' -> map_sum id p' = map_sum id p + fd_amount d.
Proof.
  unfold add_pending_fee. intros Ha. rinv. checked. subst.
  destruct (p !! (fd_source d, fd_destination d)) as [x|] eqn:Hx; simpl.
  - erewrite map_sum_insert by exact Hx. unfold id. lia.
  - rewrite map_sum_insert_new by done. unfold id. lia.
Qed.

Lemma pending_fees_total ds p p' :
  try_fold add_pending_fee p ds = Ok p' -> map_sum id p' = map_sum id p + deltas_total ds.
Proof.
  revert p. induction ds as [|d ds IH]; intros p; simpl; intros Hf; rinv; subst.
  - unfold deltas_total. rewrite lsum_nil. lia.
  - erewrite IH by eassumption. erewrite add_pending_fee_total by eassumption.
    unfold deltas_total. rewrite lsum_cons. lia.
Qed.

Lemma reduce_pending_total p : deltas_total (reduce_pending_fees p) = map_sum id p.
Proof.
  unfold deltas_total, reduce_pending_fees, map_sum. rewrite lsum_fmap.
  rewrite btree_iter_perm. apply lsum_ext. by intros [[? ?] ?].
Qed.

Lemma add_credit_total c d c' : add_credit c d = Ok c' -> map_sum id c' = map_sum id c + fd_amount d.
Proof.
  unfold add_credit. intros Ha. rinv. checked. subst.
  destruct (c !! fd_destination d) as [x|] eqn:Hx; simpl.
  - erewrite map_sum_insert by exact Hx. unfold id. lia.
  - rewrite map_sum_insert_new by done. unfold id. lia.
Qed.

Lemma reduce_credits_total ds cs :
  reduce_destination_credits ds = Ok cs -> lsum dc_amount cs = deltas_total ds.
Proof.
  unfold reduce_destination_credits. intros Hr. rinv. subst. rewrite lsum_fmap, btree_iter_perm.
  rewrite (lsum_ext _ (fun p : TypedObjectIdV1 * Z => id p.2)) by by intros [].
  match goal with Hf : try_fold add_credit _ _ = Ok ?m |- _ =>
    change (map_sum id m = deltas_total ds); revert Hf end.
  enough (forall c c', try_fold add_credit c ds = Ok c' -> map_sum id c' = map_sum id c + deltas_total ds) as He.
  { intros Hf. apply He in Hf. by rewrite map_sum_empty in Hf. }
  clear. induction ds as [|d ds IH]; intros c c'; simpl; intros Hf; rinv; subst.
  - unfold deltas_total. rewrite lsum_nil. lia.
  - erewrite IH by eassumption. erewrite add_credit_total by eassumption.
    unfold deltas_total. rewrite lsum_cons. lia.
Qed.

Lemma apply_credits_total s cs s' :
  apply_destination_credits s cs = Ok s' -> total_value s' = total_value s + lsum dc_amount cs.
Proof.
  unfold apply_destination_credits. revert s. induction cs as [|c cs IH]; intros s; simpl; intros Hf; rinv; subst.
  - rewrite lsum_nil. lia.
  - erewrite IH by eassumption. rewrite lsum_cons.
    match goal with Ha : apply_credit _ _ = Ok _ |- _ => unfold apply_credit, bump_version in Ha end.
    rinv. checked. subst. erewrite total_insert by eassumption. simpl. lia.
Qed.

Lemma apply_credits_evolves parent s cs s' :
  evolves parent s -> apply_destination_credits s cs = Ok s' -> evolves parent s'.
Proof.
  intros He. apply try_fold_inv; [done|]. clear s He. intros s c s'' _ He Ha.
  unfold apply_credit, bump_version in Ha. rinv. checked. subst.
  match goal with Hl : s !! dc_destination c = Some ?o |- _ =>
    replace (<[dc_destination c := set_value_version o (os_value o + dc_amount c) (os_version o + 1)]> s)
      with (install s (<[dc_destination c := set_value_version o (os_value o + dc_amount c) (os_version o + 1)]> ∅))
      by by rewrite install_insert, install_empty end.
  apply install_evolves; [done|]. apply successors_insert; auto using successors_empty.
Qed.

(** ** The commit loop *)

(** Objects plus pending fees account for the parent's value and what was minted. *)
Lemma execute_loop_total g txs reads acc st pend rs :
  Forall (tx_valid g) txs -> length txs = length reads ->
  try_fold (execute_step g) acc (zip txs reads) = Ok (st, pend, rs) ->
  total_value st + map_sum id pend = total_value acc.1.1 + map_sum id acc.1.2 + lsum minted txs.
Proof.
  intros Hv. revert reads acc. induction Hv as [|t txs Ht Hv IH]; intros [|r reads] [[s p] rs0]; simpl;
    intros Hl Hf; try done; rinv; simplify_eq; [rewrite lsum_nil; lia|].
  match goal with Hx : execute_step _ _ _ = Ok ?q |- _ => destruct q as [[s1 p1] rs1] end.
  erewrite IH by (eauto; lia). simpl. rewrite lsum_cons.
  match goal with Hx : execute_step _ _ _ = Ok _ |- _ => unfold execute_step in Hx end. rinv. simplify_eq.
  match goal with Hc : commit_computed_transaction_v1 _ _ _ _ _ = Ok _ |- _ =>
    apply commit_state in Hc as (-> & Hp & _) end.
  apply pending_fees_total in Hp. rewrite Hp.
  match goal with Hc : compute_transaction_v1 _ _ _ _ = Ok _ |- _ =>
    apply compute_total in Hc as (-> & -> & _); [lia|apply Ht] end.
Qed.

Lemma execute_loop_evolves g parent rows acc st pend rs :
  evolves parent acc.1.1 -> try_fold (execute_step g) acc rows = Ok (st, pend, rs) -> evolves parent st.
Proof.
  intros He Hf.
  apply (try_fold_inv (fun a : CommitState => evolves parent a.1.1) _ _ _ _ He) in Hf; [done|].
  intros [[s p] r] row [[s' p'] r'] _ Hs Hx. by eapply execute_step_evolves.
Qed.

Lemma finish_block_state g b root st pend rs st' r :
  finish_block_v1 g b root st pend rs = Ok (st', r) ->
  exists cs, reduce_destination_credits (reduce_pending_fees pend) = Ok cs /\
    apply_destination_credits st cs = Ok st' /\ br_receipts r = rs /\ br_destination_credits r = cs /\
    br_aggregated_fee_deltas r = reduce_pending_fees pend.
Proof. unfold finish_block_v1. intros Hf. rinv. simplify_eq. simpl. eauto 10. Qed.

(** What a successful block consists of. *)
Lemma execute_block_Ok g parent b st r :
  execute_block g parent b = Ok (st, r) ->
  exists reads cur pend rs root,
    Forall (tx_valid g) (b_transactions b) /\ length (b_transactions b) = length reads /\
    try_fold (execute_step g) (parent, ∅, []) (zip (b_transactions b) reads) = Ok (cur, pend, rs) /\
    finish_block_v1 g b root cur pend rs = Ok (st, r).
Proof.
  unfold execute_block. intros Hx. rinv.
  match goal with Hb : validate_block _ _ _ = Ok ?u |- _ => destruct u; apply validate_block_Ok in Hb end.
  match goal with Hb : try_map _ _ = Ok _ |- _ => apply try_map_length in Hb end.
  eauto 10.
Qed.

Lemma execute_step_not_panic g acc row :
  genesis_sound g -> execute_step g acc row <> Panic.
Proof.
  intros Hg. destruct acc as [[s p] rs], row as [t ir]. unfold execute_step.
  no_panic; [apply read_set_not_panic|apply compute_not_panic; [done|]|].
  - intros e He. by eapply read_set_ids.
  - unfold commit_computed_transaction_v1. no_panic; [|apply digest_value_not_panic].
    apply (try_fold_not_panic (fun _ => True)); [done| |done]. intros. unfold add_pending_fee. no_panic.
Qed.

Lemma finish_block_not_panic g b root st pend rs : finish_block_v1 g b root st pend rs <> Panic.
Proof.
  unfold finish_block_v1, state_root. no_panic; try apply digest_value_not_panic.
  - unfold reduce_destination_credits. no_panic.
    apply (try_fold_not_panic (fun _ => True)); [done| |done]. intros. unfold add_credit. no_panic.
  - apply (try_fold_not_panic (fun _ => True)); [done| |done]. intros. unfold apply_credit, bump_version. no_panic.
  - unfold aggregate_resources. no_panic.
    + apply (try_fold_not_panic (fun _ => True)); [done| |done]. intros. unfold add_resource. no_panic.
    + apply try_map_not_panic. intros [[[[[? ?] ?] ?] ?] ?] _. no_panic. apply digest_value_not_panic.
Qed.

Lemma validate_block_not_panic g parent b : validate_block g parent b <> Panic.
Proof.
  unfold validate_block, state_root, derive_block_id_v1. no_panic; try apply digest_value_not_panic.
  apply (try_fold_not_panic (fun _ => True)); [done| |done]. intros [i ids] t _ _.
  unfold validate_transaction, derive_transaction_id_v1, require_strict.
  no_panic; try apply digest_value_not_panic.
  unfold expected_access. no_panic. destruct (tx_program t); no_panic.
Qed.

End conservation.

(** C2: value conservation of a block.  A committed block's objects hold the
    parent's total plus exactly what its successful [Add] programs mint: fees only
    move from payers to destinations, and reverted or out-of-compute transactions
    create nothing. *)
Theorem block_conserves_value `{MvccCrates} (g : MvccFeeGenesisV1) (parent final : ObjectMapV1)
    (b : MvccBlockV1) (receipt : MvccBlockReceiptV1) :
  execute_block g parent b = Ok (final, receipt) ->
  total_value final = total_value parent + lsum minted (b_transactions b).
Proof.
  intros (reads & cur & pend & rs & root & Hv & Hl & Hf & Hx)%execute_block_Ok.
  apply execute_loop_total in Hf; [|done|done]. simpl in Hf. rewrite map_sum_empty in Hf.
  apply finish_block_state in Hx as (cs & Hc & Ha & _).
  apply reduce_credits_total in Hc. rewrite reduce_pending_total in Hc.
  apply apply_credits_total in Ha. lia.
Qed.

(** C3: on a validated genesis the kernel never panics, on any parent state and any
    block: every [expect] finds its object, no divisor is zero, no [clamp] has
    crossed bounds. *)
Theorem execute_block_never_panics `{MvccCrates} (g : MvccFeeGenesisV1) (parent : ObjectMapV1)
    (b : MvccBlockV1) :
  validate_genesis g = Ok tt -> execute_block g parent b <> Panic.
Proof.
  intros Hg%validate_genesis_sound. unfold execute_block. no_panic;
    auto using validate_block_not_panic, digest_value_not_panic.
  - apply digest_value_not_panic.
  - apply try_map_not_panic. intros. apply read_set_not_panic.
  - apply (try_fold_not_panic (fun _ => True)); [done| |done]. intros. by apply execute_step_not_panic.
  - apply finish_block_not_panic.
Qed.

(** Objects are never created, destroyed or silently rewritten by a block: an
    object of the final state is the parent's object, or has a strictly greater
    version. *)
Theorem block_versions_grow `{MvccCrates} (g : MvccFeeGenesisV1) (parent final : ObjectMapV1)
    (b : MvccBlockV1) (receipt : MvccBlockReceiptV1) (id : TypedObjectIdV1) :
  execute_block g parent b = Ok (final, receipt) ->
  match parent !! id, final !! id with
  | Some p, Some c => c = p \/ os_version p < os_version c
  | None, None => True
  | _, _ => False
  end.
Proof.
  intros (reads & cur & pend & rs & root & _ & _ & Hf & Hx)%execute_block_Ok.
  apply (execute_loop_evolves _ parent) in Hf; [|apply evolves_refl].
  apply finish_block_state in Hx as (cs & _ & Ha & _).
  exact (apply_credits_evolves parent _ _ _ Hf Ha id).
Qed.
