(* ===== verification/MvccFees.v ===== *)
(** * MvccFees: fee splitting, per-transaction accounting and conflict sets

    The exact outcome of [split_fee] on a validated genesis, what every receipt
    of a block records about its transaction, and what a conflict set contains. *)

From stdpp Require Import base gmap list sorting strings.
From S2P Require Import Prelude MvccEngine MvccEquivalence MvccConservation.

(** The floor share of one destination. *)
Definition share (fee : Z) (s : FeeDestinationSplitV1) : Z := fee * fs_numerator s / fs_denominator s.

(** The deltas the specification asks for: floor shares, the rounding remainder
    going to the remainder destination. *)
Definition split_spec (g : MvccFeeGenesisV1) (source : TypedObjectIdV1) (fee : Z) : list FeeDeltaV1 :=
  (fun s => mkFeeDelta source (fs_destination s)
     (share fee s + if bool_decide (fs_destination s = g_remainder_destination g)
                    then fee - lsum (share fee) (g_destination_splits g) else 0))
  <$> g_destination_splits g.

(** What [validate_genesis] guarantees about the split table. *)
Record splits_sound (g : MvccFeeGenesisV1) (d : Z) : Prop := {
  ss_denominator : forall s, s ∈ g_destination_splits g -> fs_denominator s = d;
  ss_nonzero : d <> 0;
  ss_sum : lsum fs_numerator (g_destination_splits g) = d;
  ss_nodup : NoDup (fs_destination <$> g_destination_splits g);
  ss_remainder : g_remainder_destination g ∈ (fs_destination <$> g_destination_splits g);
}.

(** A receipt of [t]: identity, fee within the ceiling, refund of the rest, deltas
    that sum to the fee and come from the payer, retry flag. *)
Definition receipt_accounts (t : MvccTransactionV1) (r : TransactionExecutionReceiptV1) : Prop :=
  r_transaction_id r = tx_transaction_id t /\ r_transaction_index r = tx_transaction_index t /\
  r_fee_charged r <= tx_max_fee t /\ r_fee_charged r + r_refund_amount r = tx_max_fee t /\
  deltas_total (r_fee_deltas r) = r_fee_charged r /\
  (forall d, d ∈ r_fee_deltas r -> fd_source d = tx_fee_payer t) /\
  r_retry_count r = (if is_empty (r_conflict_set r) then 0 else 1).

Section fees.
Context `{MvccCrates}.

Lemma existsb_false_elem {A} (f : A -> bool) l a : existsb f l = false -> a ∈ l -> f a = false.
Proof.
  intros Hf Ha. destruct (f a) eqn:E; [|done]. apply not_true_iff_false in Hf. exfalso. apply Hf.
  apply existsb_exists. exists a. by rewrite <- list_elem_of_In.
Qed.

Lemma validate_genesis_splits g : validate_genesis g = Ok tt -> exists d, splits_sound g d.
Proof.
  unfold validate_genesis. intros Hx. rinv. bprop.
  match goal with Hs : try_fold _ 0 _ = Ok _ |- _ => apply try_fold_amount_sum in Hs end.
  match goal with Hn : require_strict (g_destination_splits g) _ _ = Ok _ |- _ =>
    unfold require_strict in Hn; rinv; apply windows2_strict, strict_keys_NoDup in Hn end.
  match goal with Hh : head _ = Some ?s |- _ => exists (fs_denominator s) end.
  constructor; [|done|lia|done|].
  - intros s Hs.
    match goal with He : existsb (fun v => fs_denominator v <>? _ || _) _ = false |- _ =>
      apply (existsb_false_elem _ _ s) in He; [|done]; apply orb_false_iff in He as [Hd _] end.
    by apply negb_false_iff, bool_decide_eq_true in Hd.
  - match goal with He : existsb (fun v => fs_destination v =?? _) _ = true |- _ =>
      apply existsb_exists in He as (s & Hs & Hd) end. apply bool_decide_eq_true in Hd.
    apply list_elem_of_fmap. exists s. by rewrite list_elem_of_In.
Qed.

Lemma floor_shares_le d l (f : FeeDestinationSplitV1 -> Z) :
  0 < d -> (forall s, s ∈ l -> 0 <= f s) -> lsum (fun s => f s / d) l <= lsum f l / d.
Proof.
  intros Hd. induction l as [|s l IH]; intros Hf; [rewrite !lsum_nil; done|].
  rewrite !lsum_cons. specialize (IH ltac:(intros; apply Hf; by right)).
  apply Z.div_le_lower_bound; [done|].
  pose proof (Z.mul_div_le (f s) d Hd). pose proof (Z.mul_div_le (lsum f l) d Hd). nia.
Qed.

Lemma lsum_scale {A} (c : Z) (f : A -> Z) l : lsum (fun a => c * f a) l = c * lsum f l.
Proof. induction l as [|a l IH]; [rewrite !lsum_nil; lia|]. rewrite !lsum_cons, IH. lia. Qed.

Section splitting.
Context (g : MvccFeeGenesisV1) (d fee : Z) (source : TypedObjectIdV1).
Hypothesis sound : splits_sound g d.
Hypothesis numerators_u128 : forall s, s ∈ g_destination_splits g -> 0 <= fs_numerator s.
Hypothesis fee_nonneg : 0 <= fee.
Hypothesis fits : fee * d <= u128_max.

Lemma split_denominator_pos : 0 < d.
Proof.
  destruct sound as [_ Hnz Hs _ _]. pose proof (lsum_nonneg fs_numerator (g_destination_splits g) numerators_u128). lia.
Qed.

Lemma numerator_le s : s ∈ g_destination_splits g -> 0 <= fs_numerator s <= d.
Proof.
  intros Hin. destruct sound as [_ _ Hs _ _].
  pose proof (lsum_elem_le fs_numerator _ s numerators_u128 Hin). specialize (numerators_u128 s Hin). lia.
Qed.

Lemma share_nonneg s : s ∈ g_destination_splits g -> 0 <= share fee s.
Proof.
  intros Hin. unfold share. rewrite (ss_denominator _ _ sound) by done.
  pose proof split_denominator_pos. pose proof (numerator_le s Hin). apply Z.div_pos; nia.
Qed.

Lemma shares_le_fee : lsum (share fee) (g_destination_splits g) <= fee.
Proof.
  pose proof split_denominator_pos as Hd.
  rewrite (lsum_ext _ (fun s => fee * fs_numerator s / d)).
  - etrans; [apply floor_shares_le; [done|]|].
    + intros s Hs. pose proof (numerator_le s Hs). nia.
    + rewrite lsum_scale, (ss_sum _ _ sound), Z.div_mul by lia. lia.
  - intros s Hs. unfold share. by rewrite (ss_denominator _ _ sound).
Qed.

(** The split loop pushes the floor shares and assigns their sum. *)
Lemma split_loop l out asg :
  (forall s, s ∈ l -> s ∈ g_destination_splits g) -> 0 <= asg -> asg + lsum (share fee) l <= fee ->
  try_fold (split_step source fee) (out, asg) l =
    Ok (out ++ ((fun s => mkFeeDelta source (fs_destination s) (share fee s)) <$> l), asg + lsum (share fee) l).
Proof.
  pose proof split_denominator_pos as Hd.
  revert out asg. induction l as [|s l IH]; intros out asg Hin Ha Hle.
  - rewrite lsum_nil, app_nil_r. simpl. do 2 f_equal. lia.
  - rewrite lsum_cons in *. cbn [try_fold split_step].
    assert (Hs : s ∈ g_destination_splits g) by (apply Hin; by left).
    pose proof (numerator_le s Hs) as Hnum. pose proof (share_nonneg s Hs) as Hsh.
    assert (Hrest : 0 <= lsum (share fee) l).
    { apply lsum_nonneg. intros. apply share_nonneg. apply Hin. by right. }
    assert (fee <= u128_max) by nia.
    rewrite checked_mul_fits by nia. cbn [ok_or mbind result_bind].
    unfold u_div. rewrite (ss_denominator _ _ sound s Hs), (proj2 (Z.eqb_neq _ _)) by lia.
    cbn [mbind result_bind]. assert (Hdiv : fee * fs_numerator s / d = share fee s).
    { unfold share. by rewrite (ss_denominator _ _ sound). }
    rewrite Hdiv. rewrite checked_add_fits by lia. cbn [ok_or mbind result_bind].
    rewrite IH; [|intros; apply Hin; by right|lia|lia].
    rewrite fmap_cons, <- app_assoc. simpl. do 2 f_equal. lia.
Qed.

End splitting.

(** A term added at the one key [r] adds once. *)
Lemma lsum_remainder (f : FeeDestinationSplitV1 -> Z) (r : TypedObjectIdV1) (c : Z) l :
  NoDup (fs_destination <$> l) -> r ∈ (fs_destination <$> l) ->
  lsum (fun s => f s + if bool_decide (fs_destination s = r) then c else 0) l = lsum f l + c.
Proof.
  induction l as [|s l IH]; intros Hnd Hr; [by apply elem_of_nil in Hr|].
  rewrite fmap_cons in *. apply NoDup_cons in Hnd as [Hs Hnd]. rewrite !lsum_cons.
  destruct (decide (fs_destination s = r)) as [<-|Hne].
  - rewrite bool_decide_eq_true_2 by done.
    rewrite (lsum_ext _ f); [lia|]. intros s' Hs'. rewrite bool_decide_eq_false_2; [lia|].
    intros He. apply Hs. rewrite <- He. by apply list_elem_of_fmap_2.
  - rewrite bool_decide_eq_false_2 by done. apply elem_of_cons in Hr as [?|Hr]; [congruence|].
    rewrite IH by done. lia.
Qed.

(** A checked sum of nonnegative amounts whose total fits succeeds. *)
Lemma try_fold_amount_total {A} (e : MvccFeeErrorV1) b (f : A -> Z) l :
  (forall a, a ∈ l -> 0 <= f a) -> b + lsum f l <= u128_max ->
  try_fold (fun sum v => ok_or (checked_add u128_max sum (f v)) e) b l = Ok (b + lsum f l).
Proof.
  revert b. induction l as [|a l IH]; intros b Hf Hb.
  - rewrite lsum_nil. simpl. f_equal. lia.
  - rewrite lsum_cons in *. cbn [try_fold]. assert (0 <= lsum f l).
    { apply lsum_nonneg. intros. apply Hf. by right. }
    rewrite checked_add_fits by lia. cbn [ok_or mbind result_bind].
    rewrite IH; [f_equal; lia|intros; apply Hf; by right|lia].
Qed.

(** Updating the first delta of the remainder destination updates the only one. *)
Lemma list_find_update (f : FeeDestinationSplitV1 -> FeeDeltaV1) (r : TypedObjectIdV1) (u : FeeDeltaV1 -> FeeDeltaV1) l :
  (forall s, fd_destination (f s) = fs_destination s) -> NoDup (fs_destination <$> l) ->
  r ∈ (fs_destination <$> l) ->
  exists i slot, list_find (fun d => fd_destination d = r) (f <$> l) = Some (i, slot) /\ slot ∈ (f <$> l) /\
    <[i := u slot]> (f <$> l) = (fun s => if bool_decide (fs_destination s = r) then u (f s) else f s) <$> l.
Proof.
  intros Hf. induction l as [|s l IH]; intros Hnd Hr; [by apply elem_of_nil in Hr|].
  rewrite fmap_cons in *. apply NoDup_cons in Hnd as [Hs Hnd]. cbn [list_find].
  destruct (decide (fd_destination (f s) = r)) as [He|Hne].
  - exists 0%nat, (f s). split; [done|]. split; [by left|]. rewrite Hf in He.
    rewrite fmap_cons, bool_decide_eq_true_2 by done. simpl. f_equal.
    apply list_fmap_ext. intros i s' Hs'. rewrite bool_decide_eq_false_2; [done|].
    intros He'. apply Hs. rewrite He, <- He'. apply list_elem_of_fmap_2. by eapply list_elem_of_lookup_2.
  - rewrite Hf in Hne. apply elem_of_cons in Hr as [?|Hr]; [done|].
    destruct (IH Hnd Hr) as (i & slot & Hfind & Hin & Hup).
    change (list_fmap _ _ f l) with (f <$> l). rewrite Hfind.
    exists (S i), slot. split; [done|]. split; [by right|].
    rewrite fmap_cons, bool_decide_eq_false_2 by done. simpl. f_equal. exact Hup.
Qed.

(** ** Receipts *)

Lemma split_fee_source g source fee ds d :
  split_fee g source fee = Ok ds -> d ∈ ds -> fd_source d = source.
Proof.
  unfold split_fee. intros Hs Hd. rinv. subst.
  match goal with Hf : try_fold (split_step _ _) _ _ = Ok (?out, _), Hi : list_find _ _ = Some _ |- _ =>
    rename Hf into Hloop; rename Hi into Hfind;
    assert (Hout : Forall (fun d => fd_source d = source) out) end.
  - apply (try_fold_inv (fun acc : list FeeDeltaV1 * Z => Forall (fun d => fd_source d = source) acc.1)) in Hloop;
      [done|constructor|]. clear.
    intros [out asg] s [out' asg'] _ Hall Hx. unfold split_step in Hx. rinv. simplify_eq. simpl in *.
    apply Forall_app. split; [done|]. repeat constructor.
  - apply list_find_Some in Hfind as (Hl & _ & _).
    match type of Hd with d ∈ <[?i := ?x]> ?out => apply (Forall_insert _ _ i x) in Hout end.
    + rewrite Forall_forall in Hout. auto.
    + simpl. rewrite Forall_lookup in Hout. eauto.
Qed.

Lemma compute_deltas_source g s t reads c d :
  compute_transaction_v1 g s t reads = Ok c -> d ∈ c_fee_deltas c -> fd_source d = tx_fee_payer t.
Proof.
  unfold compute_transaction_v1, bump_version. destruct (execution_status t) as [[? ?] ?].
  intros Hc. rinv. subst. simpl. by eapply split_fee_source.
Qed.

Lemma execute_step_receipt g acc t ir acc' :
  tx_valid g t -> execute_step g acc (t, ir) = Ok acc' ->
  exists r, acc'.2 = acc.2 ++ [r] /\ receipt_accounts t r.
Proof.
  destruct acc as [[s p] rs]. unfold execute_step. intros Hv Hx. rinv. subst. simpl. eexists. split; [done|].
  match goal with Hc : compute_transaction_v1 _ _ _ _ = Ok ?c, Hk : commit_computed_transaction_v1 _ _ _ _ _ = Ok _ |- _ =>
    pose proof (fun d => compute_deltas_source _ _ _ _ _ d Hc) as Hsrc; apply compute_total in Hc as (_ & ? & ? & ?); [|apply Hv];
    unfold commit_computed_transaction_v1 in Hk end.
  rinv. simplify_eq. unfold receipt_accounts. simpl. auto 10.
Qed.

Lemma execute_loop_receipts g txs reads acc acc' :
  Forall (tx_valid g) txs -> length txs = length reads ->
  try_fold (execute_step g) acc (zip txs reads) = Ok acc' ->
  exists rs, acc'.2 = acc.2 ++ rs /\ Forall2 receipt_accounts txs rs.
Proof.
  intros Hv. revert reads acc. induction Hv as [|t txs Ht Hv IH]; intros [|r reads] acc; simpl; intros Hl Hf;
    try done; rinv; subst.
  - exists []. by rewrite app_nil_r.
  - match goal with Hx : execute_step _ _ _ = Ok _ |- _ => apply execute_step_receipt in Hx as (r1 & Hr1 & Ha1); [|done] end.
    apply IH in Hf as (rs & Hrs & Ha); [|lia]. exists (r1 :: rs). split; [|by constructor].
    by rewrite Hrs, Hr1, <- app_assoc.
Qed.

Lemma conflicting_cons l r i c :
  conflicting_objects_v1 (l :: i) (r :: c) =
    if rs_observed_version l <>? rs_observed_version r || rs_observed_value_hash l <>? rs_observed_value_hash r
    then rs_object_id r :: conflicting_objects_v1 i c else conflicting_objects_v1 i c.
Proof. unfold conflicting_objects_v1. simpl. by destruct (_ || _). Qed.

End fees.

(** on a validated genesis whose products fit in 128 bits, splitting a fee
    always succeeds and gives every destination its floor share, with the rounding
    remainder added to the remainder destination. *)
Theorem split_fee_exact `{MvccCrates} (g : MvccFeeGenesisV1) (source : TypedObjectIdV1) (fee : Z) :
  validate_genesis g = Ok tt ->
  (forall s, s ∈ g_destination_splits g -> 0 <= fs_numerator s /\ fee * fs_denominator s <= u128_max) ->
  0 <= fee ->
  split_fee g source fee = Ok (split_spec g source fee).
Proof.
  intros [d Hd]%validate_genesis_splits Hnum Hfee.
  assert (Hfits : fee * d <= u128_max).
  { destruct (proj1 (list_elem_of_fmap _ _ _) (ss_remainder _ _ Hd)) as (s & _ & Hs).
    rewrite <- (ss_denominator _ _ Hd s Hs). by apply Hnum. }
  assert (Hn : forall s, s ∈ g_destination_splits g -> 0 <= fs_numerator s) by (intros; by apply Hnum).
  assert (Hdpos : 0 < d) by by eapply split_denominator_pos.
  pose proof (shares_le_fee g d fee Hd Hn Hfee) as Hle.
  assert (Hmax : fee <= u128_max) by nia.
  assert (Hpos : 0 <= lsum (share fee) (g_destination_splits g)).
  { apply lsum_nonneg. intros. by eapply share_nonneg. }
  unfold split_fee. erewrite split_loop by (eauto; lia). cbn [mbind result_bind app].
  rewrite checked_sub_fits by lia. cbn [ok_or mbind result_bind].
  set (f := fun s => mkFeeDelta source (fs_destination s) (share fee s)).
  set (R := fee - (0 + lsum (share fee) (g_destination_splits g))).
  destruct (list_find_update f (g_remainder_destination g)
              (fun x => mkFeeDelta (fd_source x) (fd_destination x) (fd_amount x + R)) (g_destination_splits g))
    as (i & slot & -> & Hslot & Hup); [done|apply Hd|apply Hd|].
  cbn [ok_or mbind result_bind].
  assert (Hslot_le : 0 <= fd_amount slot <= lsum (share fee) (g_destination_splits g)).
  { apply list_elem_of_fmap in Hslot as (s & -> & Hs). simpl. split; [by eapply share_nonneg|].
    apply lsum_elem_le; [|done]. intros. by eapply share_nonneg. }
  rewrite checked_add_fits by (unfold R; lia). cbn [ok_or mbind result_bind].
  rewrite Hup.
  assert (Hspec : (fun s => if bool_decide (fs_destination s = g_remainder_destination g)
                            then mkFeeDelta (fd_source (f s)) (fd_destination (f s)) (fd_amount (f s) + R) else f s)
                  <$> g_destination_splits g = split_spec g source fee).
  { apply list_fmap_ext. intros j s _. unfold f, R. simpl. case_bool_decide; f_equal; lia. }
  rewrite Hspec. clear Hup Hspec f Hslot.
  assert (Htotal : deltas_total (split_spec g source fee) = fee).
  { unfold deltas_total, split_spec. rewrite lsum_fmap. simpl.
    rewrite (lsum_remainder _ _ _ _ (ss_nodup _ _ Hd) (ss_remainder _ _ Hd)). lia. }
  assert (Hnn : forall x, x ∈ split_spec g source fee -> 0 <= fd_amount x).
  { intros x Hx. apply list_elem_of_fmap in Hx as (s & -> & Hs). simpl.
    assert (0 <= share fee s) by by eapply share_nonneg. case_bool_decide; lia. }
  rewrite (try_fold_amount_total _ _ fd_amount) by (unfold deltas_total in Htotal; lia || done).
  cbn [mbind result_bind]. fold (deltas_total (split_spec g source fee)). rewrite Htotal.
  by rewrite bool_decide_eq_true_2 by lia.
Qed.

(** A committed block has one receipt per transaction, in order, each of which
    accounts for its transaction: the fee stays under the ceiling, fee plus refund
    is the ceiling, and the fee deltas sum to the fee and debit the payer. *)
Theorem receipts_account_for_transactions `{MvccCrates} (g : MvccFeeGenesisV1)
    (parent final : ObjectMapV1) (b : MvccBlockV1) (receipt : MvccBlockReceiptV1) :
  execute_block g parent b = Ok (final, receipt) ->
  Forall2 receipt_accounts (b_transactions b) (br_receipts receipt).
Proof.
  intros (reads & cur & pend & rs & root & Hv & Hl & Hf & Hx)%execute_block_Ok.
  apply execute_loop_receipts in Hf as (rs' & Hrs & Ha); [|done|done]. simpl in Hrs. subst.
  apply finish_block_state in Hx as (cs & _ & _ & -> & _). done.
Qed.

(** On states reached by committing a block's prefix, the conflict set of a
    transaction is exactly the declared objects that differ from the parent's. *)
Theorem conflict_set_exact `{MvccCrates} (parent current : ObjectMapV1) (t : MvccTransactionV1)
    (initial now : list ReadSetEntryV1) :
  evolves parent current -> read_set parent t = Ok initial -> read_set current t = Ok now ->
  conflicting_objects_v1 initial now =
    filter (fun id => parent !! id <> current !! id) (tx_declared_reads t).
Proof.
  intros He Hp%read_set_Ok Hc%read_set_Ok. revert now Hc. induction Hp as [|id e ids pr (v & Hv & Hh & _ & Hev) Hp IH]; intros now Hc.
  - by inversion Hc.
  - inversion Hc as [|? e' ? cr (v' & Hv' & Hh' & _ & Hev') Hc']; subst. rewrite conflicting_cons.
    rewrite (IH cr Hc'), filter_cons. specialize (He id). rewrite Hv, Hv' in He |- *.
    rewrite Hev, Hev'. simpl. destruct He as [->|Hlt].
    + assert (rs_observed_value_hash e = rs_observed_value_hash e') as -> by congruence.
      rewrite !bool_decide_eq_true_2 by done. simpl. by rewrite decide_False by (intros Hn; by apply Hn).
    + rewrite (bool_decide_eq_false_2 (os_version v = os_version v')) by lia. simpl.
      rewrite decide_True; [done|]. intros [= ->]. lia.
Qed.
