(* ===== verification/MvccWitness.v ===== *)
(** * MvccWitness: a concrete block run through the kernel

    A genesis with two fee destinations and a three-transaction block whose
    second and third transactions conflict with earlier ones, under a concrete
    hash and encoding.  The theorems of the MVCC files are applied to it. *)

From stdpp Require Import base gmap list sorting strings.
From S2P Require Import Prelude MvccEngine MvccEquivalence MvccConservation MvccFees.

(** A 32-byte nonzero mixing function and simple fixed-width encodings. *)
Definition demo_hash (l : list Z) : list Z :=
  le_bytes 32 (1 + foldl (fun h b => (h * 1000003 + b + 7) mod 2305843009213693951) 5 l).
Definition enc_z (z : Z) : list Z := le_bytes 16 z.
Definition enc_id (i : TypedObjectIdV1) : list Z := enc_z (id_object_kind i) ++ id_object_id i.
Definition enc_object (o : ObjectStateV1) : list Z :=
  enc_id (os_object_id o) ++ enc_z (os_version o) ++ enc_z (os_value o).
Definition enc_program (p : ObjectProgramV1) : list Z :=
  match p with
  | Add t a => 0 :: enc_id t ++ enc_z a
  | Transfer s d a => 1 :: enc_id s ++ enc_id d ++ enc_z a
  | Revert e => 2 :: enc_z e
  end.
Definition enc_tx (t : MvccTransactionV1) : list Z :=
  enc_z (tx_transaction_index t) ++ enc_id (tx_fee_payer t) ++ enc_program (tx_program t) ++ tx_transaction_id t.
Definition enc_delta (d : FeeDeltaV1) : list Z :=
  enc_id (fd_source d) ++ enc_id (fd_destination d) ++ enc_z (fd_amount d).

#[export] Instance demo_crates : MvccCrates := {|
  sha256 := demo_hash;
  borsh_transaction_identity := fun '(sv, ix, payer, _, _, cu, fee, p) =>
    inr (enc_z ix ++ enc_id payer ++ enc_z cu ++ enc_z fee ++ enc_program p);
  borsh_block_identity := fun '(_, _, h, _, _, root, txs) => inr (enc_z h ++ root ++ (txs ≫= enc_tx));
  borsh_objects := fun l => inr (l ≫= enc_object);
  borsh_object := fun o => inr (enc_object o);
  borsh_transaction := fun t => inr (enc_tx t);
  borsh_measurement := fun '(h, ix, cls, am, u) => inr (h ++ enc_z ix ++ enc_z cls ++ enc_z am ++ enc_z u);
  borsh_read_set := fun l => inr (l ≫= fun e => enc_id (rs_object_id e) ++ enc_z (rs_observed_version e));
  borsh_write_set := fun l => inr (l ≫= fun e => enc_id (ws_object_id e) ++ enc_z (ws_successor_version e));
  borsh_intermediate := fun '(l, ds) => inr ((l ≫= enc_object) ++ (ds ≫= enc_delta));
  borsh_receipts := fun l => inr (l ≫= fun r => r_transaction_id r ++ r_post_transaction_state_root r);
  borsh_resources := fun l => inr (l ≫= fun u => enc_z (ru_resource_class u) ++ enc_z (ru_amount u));
  borsh_fee_deltas := fun '(ds, cs) => inr ((ds ≫= enc_delta) ++ (cs ≫= fun c => enc_id (dc_destination c) ++ enc_z (dc_amount c)));
  borsh_resolution := fun l => inr (l ≫= fun '(h, ids, n) => h ++ (ids ≫= enc_id) ++ enc_z n);
  borsh_resource_total := fun '(c, a, u) => inr (enc_z c ++ enc_z a ++ enc_z u);
|}.

Definition obj (k : Z) : TypedObjectIdV1 := mkId 1 (replicate 32 k).
Definition demo_object (k value : Z) : ObjectStateV1 := mkObject 1 (obj k) 0 value false.
Definition payer1 := obj 1.
Definition payer2 := obj 2.
Definition acct_a := obj 3.
Definition acct_b := obj 4.
Definition dest1 := obj 8.
Definition dest2 := obj 9.

Definition demo_context : ProtocolContextV1 :=
  mkContext [7] (replicate 32 1) protocol_id_bytes 1 (replicate 32 2).

Definition demo_genesis : MvccFeeGenesisV1 :=
  mkGenesis 1 demo_context (replicate 32 3) 0 (replicate 32 4)
    [demo_object 1 10000; demo_object 2 10000; demo_object 3 100; demo_object 4 50;
     demo_object 8 0; demo_object 9 0]
    [mkPrice 0 [] 1 1 3 0 1000; mkPrice 2 [] 1 1 7 0 1000; mkPrice 3 [] 1 1 2 10 1000; mkPrice 7 [] 3 2 1 0 1000]
    [mkSplit dest1 1 3; mkSplit dest2 2 3] dest1.

Definition demo_parent : ObjectMapV1 :=
  list_to_map ((fun o => (os_object_id o, o)) <$> g_initial_objects demo_genesis).

Definition with_id (t : MvccTransactionV1) : MvccTransactionV1 :=
  match derive_transaction_id_v1 t with
  | Ok i => mkTransaction (tx_schema_version t) i (tx_transaction_index t) (tx_fee_payer t)
              (tx_declared_reads t) (tx_declared_writes t) (tx_compute_unit_limit t) (tx_max_fee t) (tx_program t)
  | _ => t
  end.

Definition demo_tx (ix : Z) (payer : TypedObjectIdV1) (ids : list TypedObjectIdV1) (p : ObjectProgramV1) :=
  with_id (mkTransaction 1 [] ix payer (sort ids) (sort ids) 50 5000 p).

Definition demo_txs : list MvccTransactionV1 :=
  [demo_tx 0 payer1 [payer1; acct_a; acct_b] (Transfer acct_a acct_b 30);
   demo_tx 1 payer2 [payer2; acct_b] (Add acct_b 5);
   demo_tx 2 payer1 [payer1] (Revert 9)].

Definition demo_block : MvccBlockV1 :=
  let root := match state_root demo_parent with Ok r => r | _ => [] end in
  let b id := mkBlock 1 demo_context id 1 0 (replicate 32 4) root demo_txs in
  match derive_block_id_v1 (b []) with Ok id => b id | _ => b [] end.

(** The run, evaluated: objects by identifier, and the conflict sets. *)
Definition demo_summary (r : MvccFeeResultV1 (ObjectMapV1 * MvccBlockReceiptV1)) :=
  match r with
  | Ok (st, receipt) =>
      Some ((fun k => (os_version <$> st !! obj k, os_value <$> st !! obj k)) <$> [1; 2; 3; 4; 8; 9],
            (fun r => (r_fee_charged r, r_conflict_set r)) <$> br_receipts receipt)
  | _ => None
  end.

Definition is_ok {E A} (r : result E A) : bool := match r with Ok _ => true | _ => false end.

Lemma demo_runs : is_ok (execute_block demo_genesis demo_parent demo_block) = true.
Proof. vm_compute. reflexivity. Qed.

Example demo_parallel_conflicts :
  (match demo_summary (execute_block_with_workers demo_genesis demo_parent demo_block 2) with
   | Some s => snd <$> s.2 | None => [] end) = [[]; [acct_b]; [payer1]].
Proof. vm_compute. reflexivity. Qed.

(** Two workers execute the conflicting block as the oracle does, successfully. *)
Lemma parallel_execution_refines_sequential_witness :
  is_ok (execute_block demo_genesis demo_parent demo_block) = true /\
  execute_block_with_workers demo_genesis demo_parent demo_block 2 =
    execute_block demo_genesis demo_parent demo_block.
Proof.
  split; [exact demo_runs|].
  apply parallel_execution_refines_sequential; vm_compute; reflexivity.
Defined.

(** The block mints 5: 20150 units become 20155. *)
Lemma block_conserves_value_witness :
  exists final receipt, execute_block demo_genesis demo_parent demo_block = Ok (final, receipt) /\
    total_value final = 20150 + 5.
Proof.
  pose proof demo_runs as Hok.
  destruct (execute_block demo_genesis demo_parent demo_block) as [[final receipt]| |] eqn:E; [|discriminate..].
  exists final, receipt. split; [reflexivity|].
  rewrite (block_conserves_value _ _ _ _ _ E). vm_compute. reflexivity.
Defined.

Lemma execute_block_never_panics_witness :
  validate_genesis demo_genesis = Ok tt /\ execute_block demo_genesis ∅ demo_block <> Panic.
Proof. split; [vm_compute; reflexivity|]. apply execute_block_never_panics. vm_compute. reflexivity. Defined.

Lemma block_versions_grow_witness :
  exists final receipt, execute_block demo_genesis demo_parent demo_block = Ok (final, receipt) /\
    match demo_parent !! acct_b, final !! acct_b with
    | Some p, Some c => c = p \/ os_version p < os_version c
    | None, None => True
    | _, _ => False
    end.
Proof.
  pose proof demo_runs as Hok.
  destruct (execute_block demo_genesis demo_parent demo_block) as [[final receipt]| |] eqn:E; [|discriminate..].
  exists final, receipt. split; [reflexivity|]. exact (block_versions_grow _ _ _ _ _ acct_b E).
Defined.

(** 265 units split one third / two thirds, with the remainder unit on [dest1]. *)
Lemma split_fee_exact_witness :
  split_fee demo_genesis payer1 265 = Ok [mkFeeDelta payer1 dest1 89; mkFeeDelta payer1 dest2 176].
Proof.
  rewrite split_fee_exact; [vm_compute; reflexivity|vm_compute; reflexivity| |lia].
  intros s Hs. rewrite <- (bool_decide_eq_true (0 <= fs_numerator s /\ 265 * fs_denominator s <= u128_max)).
  apply elem_of_cons in Hs as [->|Hs]; [vm_compute; reflexivity|].
  apply elem_of_cons in Hs as [->|Hs]; [vm_compute; reflexivity|]. by apply elem_of_nil in Hs.
Defined.

Lemma receipts_account_for_transactions_witness :
  exists final receipt, execute_block demo_genesis demo_parent demo_block = Ok (final, receipt) /\
    Forall2 receipt_accounts demo_txs (br_receipts receipt).
Proof.
  pose proof demo_runs as Hok.
  destruct (execute_block demo_genesis demo_parent demo_block) as [[final receipt]| |] eqn:E; [|discriminate..].
  exists final, receipt. split; [reflexivity|].
  change demo_txs with (b_transactions demo_block). exact (receipts_account_for_transactions _ _ _ _ _ E).
Defined.

(** The state after the transfer, and the read sets of the second transaction. *)
Definition demo_current : ObjectMapV1 :=
  <[acct_b := mkObject 1 acct_b 1 80 false]> (<[acct_a := mkObject 1 acct_a 1 70 false]> demo_parent).
Definition demo_tx1 : MvccTransactionV1 := demo_tx 1 payer2 [payer2; acct_b] (Add acct_b 5).
Definition reads_of (s : ObjectMapV1) : list ReadSetEntryV1 :=
  match read_set s demo_tx1 with Ok r => r | _ => [] end.

Lemma demo_current_evolves : evolves demo_parent demo_current.
Proof.
  intros id. unfold demo_current. rewrite !lookup_insert.
  repeat case_decide; subst; [vm_compute; by right..|]. destruct (demo_parent !! id); auto.
Qed.

Lemma conflict_set_exact_witness :
  conflicting_objects_v1 (reads_of demo_parent) (reads_of demo_current) = [acct_b].
Proof.
  rewrite (conflict_set_exact demo_parent demo_current demo_tx1); [vm_compute; reflexivity| | |].
  - exact demo_current_evolves.
  - vm_compute. reflexivity.
  - vm_compute. reflexivity.
Defined.
