(* ===== verification/AuditEvents.v ===== *)
(** * AuditEvents: the normalized audit record of [trnm-audit-events]

    The record every application state machine normalizes its own events to,
    with its constructor and builder setters. *)

From stdpp Require Import base list strings.
From S2P Require Import Prelude.

Record AuditEvent := mkAuditEvent {
  ae_source : rstring;
  ae_event_type : rstring;
  ae_actor : option rstring;
  ae_object_id : option rstring;
  ae_related_id : option rstring;
  ae_amount : option Z;
  ae_reason : option rstring;
  ae_note : option rstring;
}.

#[export] Instance AuditEvent_eq_dec : EqDecision AuditEvent.
Proof. solve_decision. Defined.

Definition new_audit_event (source event_type : rstring) : AuditEvent :=
  mkAuditEvent source event_type None None None None None None.

Definition with_actor (e : AuditEvent) (actor : rstring) : AuditEvent :=
  mkAuditEvent (ae_source e) (ae_event_type e) (Some actor) (ae_object_id e) (ae_related_id e)
    (ae_amount e) (ae_reason e) (ae_note e).
Definition with_object_id (e : AuditEvent) (object_id : rstring) : AuditEvent :=
  mkAuditEvent (ae_source e) (ae_event_type e) (ae_actor e) (Some object_id) (ae_related_id e)
    (ae_amount e) (ae_reason e) (ae_note e).
Definition with_related_id (e : AuditEvent) (related_id : rstring) : AuditEvent :=
  mkAuditEvent (ae_source e) (ae_event_type e) (ae_actor e) (ae_object_id e) (Some related_id)
    (ae_amount e) (ae_reason e) (ae_note e).
Definition with_amount (e : AuditEvent) (amount : Z) : AuditEvent :=
  mkAuditEvent (ae_source e) (ae_event_type e) (ae_actor e) (ae_object_id e) (ae_related_id e)
    (Some amount) (ae_reason e) (ae_note e).
Definition with_reason (e : AuditEvent) (reason : rstring) : AuditEvent :=
  mkAuditEvent (ae_source e) (ae_event_type e) (ae_actor e) (ae_object_id e) (ae_related_id e)
    (ae_amount e) (Some reason) (ae_note e).
Definition with_note (e : AuditEvent) (note : rstring) : AuditEvent :=
  mkAuditEvent (ae_source e) (ae_event_type e) (ae_actor e) (ae_object_id e) (ae_related_id e)
    (ae_amount e) (ae_reason e) (Some note).
