(* ===== verification/EscrowVault.v ===== *)
(** * EscrowVault: the settlement vault of [trnm-escrow-vault]

    The vault's state, events and every method as a [&mut self] computation:
    the state survives an early return, so that "a rejected call changes
    nothing" is a theorem and not a modelling choice. *)

From stdpp Require Import base gmap list strings.
From S2P Require Import Prelude AuditEvents.

Module VaultError.
Inductive t :=
| Unauthorized | Paused | AlreadyPaused | NotPaused | InvalidAmount | InvalidBeneficiary
| InvalidRequestId | InsufficientBalance | DuplicateRequest | RequestNotFound
| InvalidStateTransition | BalanceOverflow.
End VaultError.

Module VaultEvent.
Inductive t :=
| Deposited (caller account : rstring) (amount : Z)
| Locked (caller request_id account : rstring) (amount : Z)
| Released (caller request_id account : rstring) (amount : Z)
| Slashed (caller request_id account beneficiary : rstring) (amount : Z)
| Transferred (caller from to : rstring) (amount : Z)
| Paused (caller : rstring)
| Unpaused (caller : rstring).
End VaultEvent.

Module LockStatus.
Inductive t := Locked | Released | Slashed.
End LockStatus.

#[export] Instance LockStatus_eq_dec : EqDecision LockStatus.t.
Proof. solve_decision. Defined.

Record LockRecord := mkLock {
  lk_account : rstring;
  lk_amount : Z;
  lk_status : LockStatus.t;
}.
#[export] Instance LockRecord_eq_dec : EqDecision LockRecord.
Proof. solve_decision. Defined.

Record SettlementVault := mkVault {
  v_owner : rstring;
  v_paused : bool;
  v_balances : gmap (list Z) Z;
  v_locks : gmap (list Z) LockRecord;
  v_audit_log : list VaultEvent.t;
}.

Abbreviation VaultM := (SE SettlementVault VaultError.t).

(** Field updates. *)
Definition set_paused (p : bool) (v : SettlementVault) : SettlementVault :=
  mkVault (v_owner v) p (v_balances v) (v_locks v) (v_audit_log v).
Definition set_balances (b : gmap (list Z) Z) (v : SettlementVault) : SettlementVault :=
  mkVault (v_owner v) (v_paused v) b (v_locks v) (v_audit_log v).
Definition set_locks (l : gmap (list Z) LockRecord) (v : SettlementVault) : SettlementVault :=
  mkVault (v_owner v) (v_paused v) (v_balances v) l (v_audit_log v).
Definition push_event (e : VaultEvent.t) (v : SettlementVault) : SettlementVault :=
  mkVault (v_owner v) (v_paused v) (v_balances v) (v_locks v) (v_audit_log v ++ [e]).

Definition new_vault (owner : rstring) : SettlementVault := mkVault owner false ∅ ∅ [].

Definition balance_of (v : SettlementVault) (account : rstring) : Z := default 0 (v_balances v !! account).
Definition lock_record (v : SettlementVault) (request_id : rstring) : option LockRecord :=
  v_locks v !! request_id.

Definition consume_audit_log : VaultM (list VaultEvent.t) :=
  v ← get_self;
  _ ← set_self (mkVault (v_owner v) (v_paused v) (v_balances v) (v_locks v) []);
  mret (v_audit_log v).

Definition vault_source : rstring := str "settlement-vault".

Definition normalize_audit_event (event : VaultEvent.t) : AuditEvent :=
  match event with
  | VaultEvent.Deposited caller account amount =>
      with_amount (with_object_id (with_actor (new_audit_event vault_source (str "vault.deposited")) caller) account) amount
  | VaultEvent.Locked caller request_id account amount =>
      with_amount (with_related_id (with_object_id (with_actor
        (new_audit_event vault_source (str "vault.locked")) caller) request_id) account) amount
  | VaultEvent.Released caller request_id account amount =>
      with_amount (with_related_id (with_object_id (with_actor
        (new_audit_event vault_source (str "vault.released")) caller) request_id) account) amount
  | VaultEvent.Slashed caller request_id account beneficiary amount =>
      with_note (with_amount (with_related_id (with_object_id (with_actor
        (new_audit_event vault_source (str "vault.slashed")) caller) request_id) account) amount)
        (str "beneficiary=" ++ beneficiary)
  | VaultEvent.Transferred caller from to amount =>
      with_amount (with_related_id (with_object_id (with_actor
        (new_audit_event vault_source (str "vault.transferred")) caller) from) to) amount
  | VaultEvent.Paused caller => with_actor (new_audit_event vault_source (str "vault.paused")) caller
  | VaultEvent.Unpaused caller => with_actor (new_audit_event vault_source (str "vault.unpaused")) caller
  end.

Definition normalized_audit_log (v : SettlementVault) : list AuditEvent :=
  normalize_audit_event <$> v_audit_log v.

(** ** Guards and balance helpers *)

Definition ensure_owner (caller : rstring) : VaultM () :=
  v ← get_self; lift (fail_if (caller <>? v_owner v) VaultError.Unauthorized).

Definition ensure_not_paused : VaultM () :=
  v ← get_self; lift (fail_if (v_paused v) VaultError.Paused).

Definition ensure_request_id (request_id : rstring) : VaultM () :=
  lift (fail_if (is_empty (trim request_id) || request_id <>? trim request_id)
          VaultError.InvalidRequestId).

Definition ensure_creditable_balance (account : rstring) (amount : Z) : VaultM () :=
  v ← get_self;
  _ ← lift (ok_or (checked_add u128_max (balance_of v account) amount) VaultError.BalanceOverflow);
  mret tt.

(** [entry(account).or_insert(0)], then a checked addition: a failing addition
    leaves the inserted zero behind. *)
Definition credit_balance (account : rstring) (amount : Z) : VaultM () :=
  v ← get_self;
  let entry := default 0 (v_balances v !! account) in
  _ ← set_self (set_balances (<[account := entry]> (v_balances v)) v);
  next ← lift (ok_or (checked_add u128_max entry amount) VaultError.BalanceOverflow);
  modify_self (fun v => set_balances (<[account := next]> (v_balances v)) v).

Definition prune_zero_balance (account : rstring) : VaultM () :=
  modify_self (fun v => if balance_of v account =? 0
                        then set_balances (delete account (v_balances v)) v else v).

(** [*balance -= amount] on an entry known to exist: underflow panics. *)
Definition debit_entry (account : rstring) (balance amount : Z) : VaultM () :=
  next ← lift (expect (checked_sub balance amount));
  modify_self (fun v => set_balances (<[account := next]> (v_balances v)) v).

Definition set_lock_status (request_id : rstring) (status : LockStatus.t) : VaultM () :=
  v ← get_self;
  lock ← lift (ok_or (v_locks v !! request_id) VaultError.RequestNotFound);
  set_self (set_locks (<[request_id := mkLock (lk_account lock) (lk_amount lock) status]> (v_locks v)) v).

(** The account and amount of an open lock. *)
Definition open_lock (request_id : rstring) : VaultM (list Z * Z) :=
  v ← get_self;
  lock ← lift (ok_or (v_locks v !! request_id) VaultError.RequestNotFound);
  _ ← lift (fail_if (lk_status lock <>? LockStatus.Locked) VaultError.InvalidStateTransition);
  mret (lk_account lock, lk_amount lock).

(** ** Methods *)

Definition deposit (caller account : rstring) (amount : Z) : VaultM () :=
  _ ← ensure_owner caller;
  _ ← ensure_not_paused;
  _ ← lift (fail_if (amount =? 0) VaultError.InvalidAmount);
  _ ← credit_balance account amount;
  modify_self (push_event (VaultEvent.Deposited caller account amount)).

Definition lock (caller request_id account : rstring) (amount : Z) : VaultM () :=
  _ ← ensure_owner caller;
  _ ← ensure_not_paused;
  _ ← ensure_request_id request_id;
  _ ← lift (fail_if (amount =? 0) VaultError.InvalidAmount);
  v ← get_self;
  _ ← lift (fail_if (bool_decide (is_Some (v_locks v !! request_id))) VaultError.DuplicateRequest);
  _ ← lift (fail_if (balance_of v account <? amount) VaultError.InsufficientBalance);
  balance ← lift (ok_or (v_balances v !! account) VaultError.InsufficientBalance);
  _ ← debit_entry account balance amount;
  _ ← prune_zero_balance account;
  _ ← modify_self (fun v =>
        set_locks (<[request_id := mkLock account amount LockStatus.Locked]> (v_locks v)) v);
  modify_self (push_event (VaultEvent.Locked caller request_id account amount)).

Definition release (caller request_id : rstring) : VaultM () :=
  _ ← ensure_owner caller;
  _ ← ensure_not_paused;
  _ ← ensure_request_id request_id;
  '(account, amount) ← open_lock request_id;
  _ ← ensure_creditable_balance account amount;
  _ ← set_lock_status request_id LockStatus.Released;
  _ ← credit_balance account amount;
  modify_self (push_event (VaultEvent.Released caller request_id account amount)).

Definition slash (caller request_id beneficiary : rstring) : VaultM () :=
  _ ← ensure_owner caller;
  _ ← ensure_not_paused;
  _ ← ensure_request_id request_id;
  '(account, amount) ← open_lock request_id;
  _ ← lift (fail_if (is_empty (trim beneficiary) || beneficiary =?? account) VaultError.InvalidBeneficiary);
  _ ← ensure_creditable_balance beneficiary amount;
  _ ← set_lock_status request_id LockStatus.Slashed;
  _ ← credit_balance beneficiary amount;
  modify_self (push_event (VaultEvent.Slashed caller request_id account beneficiary amount)).

Definition transfer (caller from to : rstring) (amount : Z) : VaultM () :=
  _ ← ensure_owner caller;
  _ ← ensure_not_paused;
  _ ← lift (fail_if (amount =? 0) VaultError.InvalidAmount);
  _ ← lift (fail_if (is_empty (trim to)) VaultError.InvalidBeneficiary);
  v ← get_self;
  _ ← lift (fail_if (balance_of v from <? amount) VaultError.InsufficientBalance);
  if bool_decide (from = to) then
    modify_self (push_event (VaultEvent.Transferred caller from to amount))
  else
    _ ← ensure_creditable_balance to amount;
    _ ← debit_entry from (balance_of v from) amount;
    _ ← prune_zero_balance from;
    _ ← credit_balance to amount;
    modify_self (push_event (VaultEvent.Transferred caller from to amount)).

Definition pause (caller : rstring) : VaultM () :=
  _ ← ensure_owner caller;
  v ← get_self;
  _ ← lift (fail_if (v_paused v) VaultError.AlreadyPaused);
  _ ← modify_self (set_paused true);
  modify_self (push_event (VaultEvent.Paused caller)).

Definition unpause (caller : rstring) : VaultM () :=
  _ ← ensure_owner caller;
  v ← get_self;
  _ ← lift (fail_if (negb (v_paused v)) VaultError.NotPaused);
  _ ← modify_self (set_paused false);
  modify_self (push_event (VaultEvent.Unpaused caller)).
