(* ===== verification/VaultSpec.v ===== *)
(** * VaultSpec: the contract of the settlement vault and its refinement

    [Ledger] and [vstep] say what the vault promises, as a labelled transition
    system whose labels are the audit events; [run_call] runs one public method
    of [EscrowVault].  The simulation lemma [call_simulates] shows that a method
    either takes exactly one labelled step and logs its label, or is refused
    with the state untouched because the contract has no such step. *)

From stdpp Require Import base gmap list strings.
From S2P Require Import Prelude AuditEvents EscrowVault.

(** ** The contract *)

Record Ledger := mkLedger {
  l_paused : bool;
  l_free : gmap (list Z) Z;
  l_held : gmap (list Z) LockRecord;
}.

Definition free_of (l : Ledger) (a : rstring) : Z := default 0 (l_free l !! a).
Definition credit (a : rstring) (n : Z) (m : gmap (list Z) Z) : gmap (list Z) Z :=
  <[a := default 0 (m !! a) + n]> m.
Definition debit (a : rstring) (n : Z) (m : gmap (list Z) Z) : gmap (list Z) Z :=
  if default 0 (m !! a) - n =? 0 then delete a m else <[a := default 0 (m !! a) - n]> m.
Definition settle_lock (r : rstring) (st : LockStatus.t) (m : gmap (list Z) LockRecord) :
    gmap (list Z) LockRecord :=
  alter (fun k => mkLock (lk_account k) (lk_amount k) st) r m.

Definition canonical (r : rstring) : Prop := trim r <> [] /\ r = trim r.

(** What an event does to the ledger. *)
Definition replay (l : Ledger) (ev : VaultEvent.t) : Ledger :=
  match ev with
  | VaultEvent.Deposited _ a n => mkLedger (l_paused l) (credit a n (l_free l)) (l_held l)
  | VaultEvent.Locked _ r a n =>
      mkLedger (l_paused l) (debit a n (l_free l)) (<[r := mkLock a n LockStatus.Locked]> (l_held l))
  | VaultEvent.Released _ r a n =>
      mkLedger (l_paused l) (credit a n (l_free l)) (settle_lock r LockStatus.Released (l_held l))
  | VaultEvent.Slashed _ r _ b n =>
      mkLedger (l_paused l) (credit b n (l_free l)) (settle_lock r LockStatus.Slashed (l_held l))
  | VaultEvent.Transferred _ a b n =>
      mkLedger (l_paused l) (if bool_decide (a = b) then l_free l else credit b n (debit a n (l_free l)))
        (l_held l)
  | VaultEvent.Paused _ => mkLedger true (l_free l) (l_held l)
  | VaultEvent.Unpaused _ => mkLedger false (l_free l) (l_held l)
  end.

(** When an event may happen, for the vault of [owner]. *)
Inductive enabled (owner : rstring) (l : Ledger) : VaultEvent.t -> Prop :=
| en_deposit a n : l_paused l = false -> 0 < n -> free_of l a + n <= u128_max ->
    enabled owner l (VaultEvent.Deposited owner a n)
| en_lock r a n : l_paused l = false -> canonical r -> 0 < n -> l_held l !! r = None ->
    n <= free_of l a -> enabled owner l (VaultEvent.Locked owner r a n)
| en_release r a n : l_paused l = false -> canonical r ->
    l_held l !! r = Some (mkLock a n LockStatus.Locked) -> free_of l a + n <= u128_max ->
    enabled owner l (VaultEvent.Released owner r a n)
| en_slash r a b n : l_paused l = false -> canonical r ->
    l_held l !! r = Some (mkLock a n LockStatus.Locked) -> trim b <> [] -> b <> a ->
    free_of l b + n <= u128_max -> enabled owner l (VaultEvent.Slashed owner r a b n)
| en_transfer a b n : l_paused l = false -> 0 < n -> trim b <> [] -> n <= free_of l a ->
    (a <> b -> free_of l b + n <= u128_max) -> enabled owner l (VaultEvent.Transferred owner a b n)
| en_pause : l_paused l = false -> enabled owner l (VaultEvent.Paused owner)
| en_unpause : l_paused l = true -> enabled owner l (VaultEvent.Unpaused owner).

Definition vstep (owner : rstring) (l : Ledger) (ev : VaultEvent.t) (l' : Ledger) : Prop :=
  enabled owner l ev /\ l' = replay l ev.

(** ** The vault's public mutating methods *)

Inductive Call :=
| CDeposit (caller account : rstring) (amount : Z)
| CLock (caller request_id account : rstring) (amount : Z)
| CRelease (caller request_id : rstring)
| CSlash (caller request_id beneficiary : rstring)
| CTransfer (caller from to : rstring) (amount : Z)
| CPause (caller : rstring)
| CUnpause (caller : rstring).

Definition run_call (c : Call) : VaultM () :=
  match c with
  | CDeposit caller a n => deposit caller a n
  | CLock caller r a n => lock caller r a n
  | CRelease caller r => release caller r
  | CSlash caller r b => slash caller r b
  | CTransfer caller a b n => transfer caller a b n
  | CPause caller => pause caller
  | CUnpause caller => unpause caller
  end.

Definition caller_of (c : Call) : rstring :=
  match c with
  | CDeposit x _ _ | CLock x _ _ _ | CRelease x _ | CSlash x _ _ | CTransfer x _ _ _
  | CPause x | CUnpause x => x
  end.

(** The amount argument is a [u128]. *)
Definition typed_call (c : Call) : Prop :=
  match c with
  | CDeposit _ _ n | CLock _ _ _ n | CTransfer _ _ _ n => in_u128 n
  | _ => True
  end.

(** The events a method may log. *)
Definition emits (c : Call) (ev : VaultEvent.t) : Prop :=
  match c, ev with
  | CDeposit x a n, VaultEvent.Deposited x' a' n' => x = x' /\ a = a' /\ n = n'
  | CLock x r a n, VaultEvent.Locked x' r' a' n' => x = x' /\ r = r' /\ a = a' /\ n = n'
  | CRelease x r, VaultEvent.Released x' r' _ _ => x = x' /\ r = r'
  | CSlash x r b, VaultEvent.Slashed x' r' _ b' _ => x = x' /\ r = r' /\ b = b'
  | CTransfer x a b n, VaultEvent.Transferred x' a' b' n' => x = x' /\ a = a' /\ b = b' /\ n = n'
  | CPause x, VaultEvent.Paused x' => x = x'
  | CUnpause x, VaultEvent.Unpaused x' => x = x'
  | _, _ => False
  end.

Definition abs (v : SettlementVault) : Ledger := mkLedger (v_paused v) (v_balances v) (v_locks v).

(** ** The vault's invariant *)

Record ledger_ok (l : Ledger) : Prop := {
  lo_free : forall a b, l_free l !! a = Some b -> 0 < b <= u128_max;
  lo_held : forall r k, l_held l !! r = Some k -> 0 < lk_amount k <= u128_max /\ canonical r;
}.
Definition vault_ok (v : SettlementVault) : Prop := ledger_ok (abs v).

Lemma credit_balances_ok m a n :
  (forall a b, m !! a = Some b -> 0 < b <= u128_max) -> 0 < n -> default 0 (m !! a) + n <= u128_max ->
  forall a' b, credit a n m !! a' = Some b -> 0 < b <= u128_max.
Proof.
  intros Hm Hn Hle a' b. unfold credit. destruct (decide (a = a')) as [->|Hne].
  - rewrite lookup_insert_eq. intros [= <-]. split; [|done].
    destruct (m !! a') eqn:E; simpl; [apply Hm in E|]; lia.
  - rewrite lookup_insert_ne by done. apply Hm.
Qed.

Lemma debit_balances_ok m a n :
  (forall a b, m !! a = Some b -> 0 < b <= u128_max) -> 0 < n <= default 0 (m !! a) ->
  forall a' b, debit a n m !! a' = Some b -> 0 < b <= u128_max.
Proof.
  intros Hm Hn a' b. unfold debit. destruct (_ =? 0) eqn:E; bprop.
  - rewrite lookup_delete_Some. intros [_ Hb]. by eapply Hm.
  - destruct (decide (a = a')) as [->|Hne]; [|rewrite lookup_insert_ne by done; apply Hm].
    rewrite lookup_insert_eq. intros [= <-].
    destruct (m !! a') eqn:Em; simpl in *; [apply Hm in Em|]; lia.
Qed.

Lemma settle_lock_lookup r st m r' :
  settle_lock r st m !! r' =
    if decide (r = r') then (fun k => mkLock (lk_account k) (lk_amount k) st) <$> m !! r else m !! r'.
Proof.
  unfold settle_lock. destruct (decide (r = r')) as [->|Hne].
  - by rewrite lookup_alter_eq.
  - by rewrite lookup_alter_ne.
Qed.

(** ** Simulation *)

(** What one call does: a labelled step that is logged, or a refusal. *)
Definition simulates (c : Call) (v : SettlementVault) : Prop :=
  match run_call c v with
  | (Ok _, v') => exists ev, emits c ev /\ enabled (v_owner v) (abs v) ev /\
      abs v' = replay (abs v) ev /\ v_owner v' = v_owner v /\ v_audit_log v' = v_audit_log v ++ [ev]
  | (Err _, v') => v' = v /\ forall ev, emits c ev -> ~ enabled (v_owner v) (abs v) ev
  | (Panic, _) => False
  end.

(** Refuse the labelled step: every event the call could log is disabled. *)
Ltac refuse :=
  split; [done|]; intros [] Hem Hen; try done; cbn in Hem; destruct_and? Hem; subst;
  inversion Hen; simplify_eq/=; unfold canonical, free_of, balance_of, abs in *; cbn in *; try done; try congruence; try lia.

(** Run the monad. *)
Ltac vrun :=
  cbv [mbind SE_bind mret SE_ret get_self set_self modify_self lift fail_if ok_or expect
       ensure_owner ensure_not_paused ensure_request_id ensure_creditable_balance credit_balance
       prune_zero_balance debit_entry set_lock_status open_lock] in *;
  cbn [negb orb v_owner v_paused v_balances v_locks v_audit_log set_balances set_locks set_paused
       push_event fst snd] in *.

Lemma is_empty_nil {A} (l : list A) : is_empty l = true <-> l = [].
Proof. by destruct l. Qed.

Lemma pause_simulates caller v : simulates (CPause caller) v.
Proof.
  unfold simulates, run_call, pause. vrun.
  destruct (bool_decide (caller = v_owner v)) eqn:Eo; bprop; vrun; [|refuse].
  destruct (v_paused v) eqn:Ep; vrun; [refuse|]. subst.
  exists (VaultEvent.Paused (v_owner v)). split_and!; try done. by constructor.
Qed.

Lemma unpause_simulates caller v : simulates (CUnpause caller) v.
Proof.
  unfold simulates, run_call, unpause. vrun.
  destruct (bool_decide (caller = v_owner v)) eqn:Eo; bprop; vrun; [|refuse].
  destruct (v_paused v) eqn:Ep; vrun; [|refuse]. subst.
  exists (VaultEvent.Unpaused (v_owner v)). split_and!; try done. by constructor.
Qed.

(** Crediting in one go, when the sum fits. *)
Lemma credit_balance_run v a n :
  balance_of v a + n <= u128_max ->
  credit_balance a n v = (Ok tt, set_balances (credit a n (v_balances v)) v).
Proof.
  intros Hle. unfold balance_of in Hle. vrun. rewrite checked_add_fits by done.
  unfold credit. by rewrite insert_insert_eq.
Qed.

(** A credit that does not fit leaves the vault as it was: the entry exists. *)
Lemma credit_balance_overflow v a n :
  vault_ok v -> in_u128 n -> u128_max < balance_of v a + n ->
  credit_balance a n v = (Err VaultError.BalanceOverflow, v).
Proof.
  intros Hv Hn Hgt. unfold balance_of in Hgt. vrun.
  assert (checked_add u128_max (default 0 (v_balances v !! a)) n = None) as ->.
  { unfold checked_add. destruct (_ <=? _) eqn:E; bprop; [lia|done]. }
  destruct (v_balances v !! a) as [b|] eqn:Eb; simpl in *; [|unfold in_u128 in Hn; lia].
  rewrite insert_id by done. by destruct v.
Qed.

Lemma deposit_simulates caller a n v :
  vault_ok v -> in_u128 n -> simulates (CDeposit caller a n) v.
Proof.
  intros Hv Hn. unfold simulates, run_call, deposit, ensure_owner, ensure_not_paused.
  cbv [mbind SE_bind get_self lift fail_if].
  destruct (bool_decide (caller = v_owner v)) eqn:Eo; bprop; cbn [negb]; [subst|refuse].
  destruct (v_paused v) eqn:Ep; [refuse|].
  destruct (n =? 0) eqn:En; bprop; [refuse|].
  destruct (decide (balance_of v a + n <= u128_max)) as [Hle|Hgt].
  - rewrite credit_balance_run by done. vrun.
    exists (VaultEvent.Deposited (v_owner v) a n). unfold in_u128 in Hn.
    split_and!; try done. constructor; try done. lia.
  - rewrite credit_balance_overflow by (done || lia). refuse.
Qed.

Lemma debit_run v a n b :
  v_balances v !! a = Some b -> n <= b ->
  (debit_entry a b n ≫= fun _ => prune_zero_balance a) v =
    (Ok tt, set_balances (debit a n (v_balances v)) v).
Proof.
  intros Hb Hle. vrun. rewrite checked_sub_fits by done. unfold balance_of, debit. simpl.
  rewrite lookup_insert_eq, Hb. simpl. destruct (b - n =? 0); [|done].
  by rewrite delete_insert_eq.
Qed.

Lemma request_id_check r :
  is_empty (trim r) || negb (bool_decide (r = trim r)) = false <-> canonical r.
Proof.
  unfold canonical. rewrite orb_false_iff, negb_false_iff, bool_decide_eq_true.
  destruct (trim r); simpl; naive_solver.
Qed.

Lemma request_id_check_true r :
  is_empty (trim r) || negb (bool_decide (r = trim r)) = true -> ~ canonical r.
Proof. intros H Hc. apply request_id_check in Hc. congruence. Qed.

(** Decide the guards every locking method starts with. *)
Ltac guards caller v r :=
  cbv [mbind SE_bind get_self lift fail_if ensure_owner ensure_not_paused ensure_request_id];
  destruct (bool_decide (caller = v_owner v)) eqn:?; bprop; cbn [negb]; [subst|refuse];
  destruct (v_paused v) eqn:?; [refuse|];
  destruct (is_empty (trim r) || negb (bool_decide (r = trim r))) eqn:?;
  [match goal with H : _ = true |- _ => apply request_id_check_true in H end; refuse|
   match goal with H : _ || _ = false |- _ => apply request_id_check in H end].

Lemma lock_simulates caller r a n v :
  vault_ok v -> in_u128 n -> simulates (CLock caller r a n) v.
Proof.
  intros Hv Hn. unfold simulates, run_call, lock. guards caller v r.
  destruct (n =? 0) eqn:En; bprop; [refuse|].
  destruct (bool_decide (is_Some (v_locks v !! r))) eqn:El; bprop.
  { destruct El. refuse. }
  apply eq_None_not_Some in El.
  destruct (balance_of v a <? n) eqn:Eb; bprop; [refuse|].
  unfold balance_of, in_u128 in Eb, Hn. destruct (v_balances v !! a) as [b|] eqn:Ea; cbn [default ok_or] in *; [|cbn in Eb; lia].
  pose proof (debit_run v a n b Ea Eb) as Hd. cbv [mbind SE_bind] in Hd.
  destruct (debit_entry a b n v) as [[]]; try done. rewrite Hd. vrun.
  exists (VaultEvent.Locked (v_owner v) r a n). split_and!; try done.
  constructor; try done; [lia|]. unfold free_of. simpl. by rewrite Ea.
Qed.

(** An open lock of a request. *)
Lemma open_lock_run v r :
  open_lock r v =
    match v_locks v !! r with
    | None => (Err VaultError.RequestNotFound, v)
    | Some (mkLock a n LockStatus.Locked) => (Ok (a, n), v)
    | Some _ => (Err VaultError.InvalidStateTransition, v)
    end.
Proof. vrun. destruct (v_locks v !! r) as [[a n []]|]; done. Qed.

(** Settling an open lock: its status changes and the credit goes through. *)
Lemma settle_run v r st a n b :
  v_locks v !! r = Some (mkLock a n LockStatus.Locked) -> balance_of v b + n <= u128_max ->
  (set_lock_status r st ≫= fun _ => credit_balance b n) v =
    (Ok tt, set_locks (settle_lock r st (v_locks v)) (set_balances (credit b n (v_balances v)) v)).
Proof.
  intros Hr Hle. unfold set_lock_status. cbv [mbind SE_bind get_self lift ok_or set_self].
  rewrite Hr. rewrite credit_balance_run by done. cbn.
  unfold set_balances, set_locks, settle_lock. cbn. do 2 f_equal. apply map_eq. intros r'. destruct (decide (r = r')) as [->|Hne].
  - by rewrite lookup_insert_eq, lookup_alter_eq, Hr.
  - by rewrite lookup_insert_ne, lookup_alter_ne.
Qed.

Lemma checked_add_spec m a b :
  (a + b <= m /\ checked_add m a b = Some (a + b)) \/ (m < a + b /\ checked_add m a b = None).
Proof. unfold checked_add. destruct (_ <=? _) eqn:E; bprop; [left|right]; split; (done || lia). Qed.

Lemma release_simulates caller r v : vault_ok v -> simulates (CRelease caller r) v.
Proof.
  intros Hv. unfold simulates, run_call, release. guards caller v r.
  rewrite open_lock_run. destruct (v_locks v !! r) as [[a n []]|] eqn:Er; try refuse.
  unfold ensure_creditable_balance. cbv [mbind SE_bind get_self lift ok_or mret SE_ret].
  destruct (checked_add_spec u128_max (balance_of v a) n) as [[Hle ->]|[Hgt ->]]; [|refuse].
  pose proof (settle_run v r LockStatus.Released a n a Er Hle) as Hs. cbv [mbind SE_bind] in Hs.
  destruct (set_lock_status r LockStatus.Released v) as [[]]; try done. rewrite Hs. vrun.
  exists (VaultEvent.Released (v_owner v) r a n). split_and!; try done. by constructor.
Qed.

Lemma slash_simulates caller r b v : vault_ok v -> simulates (CSlash caller r b) v.
Proof.
  intros Hv. unfold simulates, run_call, slash. guards caller v r.
  rewrite open_lock_run. destruct (v_locks v !! r) as [[a n []]|] eqn:Er; try refuse.
  destruct (is_empty (trim b)) eqn:Eb; cbn [orb]; [apply is_empty_nil in Eb; refuse|].
  assert (trim b <> []) by (intros E; by rewrite E in Eb).
  destruct (bool_decide (b = a)) eqn:Eba; bprop; [refuse|].
  unfold ensure_creditable_balance. cbv [mbind SE_bind get_self lift ok_or mret SE_ret].
  destruct (checked_add_spec u128_max (balance_of v b) n) as [[Hle ->]|[Hgt ->]]; [|refuse].
  pose proof (settle_run v r LockStatus.Slashed a n b Er Hle) as Hs. cbv [mbind SE_bind] in Hs.
  destruct (set_lock_status r LockStatus.Slashed v) as [[]]; try done. rewrite Hs. vrun.
  exists (VaultEvent.Slashed (v_owner v) r a b n). split_and!; try done. by constructor.
Qed.

Lemma debit_lookup_ne a n m b : a <> b -> debit a n m !! b = m !! b.
Proof.
  intros. unfold debit. destruct (_ =? 0); [by rewrite lookup_delete_ne|by rewrite lookup_insert_ne].
Qed.

Lemma transfer_simulates caller a b n v :
  vault_ok v -> in_u128 n -> simulates (CTransfer caller a b n) v.
Proof.
  intros Hv Hn. unfold simulates, run_call, transfer, ensure_owner, ensure_not_paused.
  cbv [mbind SE_bind get_self lift fail_if].
  destruct (bool_decide (caller = v_owner v)) eqn:Eo; bprop; cbn [negb]; [subst|refuse].
  destruct (v_paused v) eqn:Ep; [refuse|].
  destruct (n =? 0) eqn:En; bprop; [refuse|].
  destruct (is_empty (trim b)) eqn:Eb; cbn [orb]; [apply is_empty_nil in Eb; refuse|].
  assert (trim b <> []) by (intros E; by rewrite E in Eb). unfold in_u128 in Hn.
  destruct (balance_of v a <? n) eqn:Ebal; bprop; [refuse|].
  destruct (decide (a = b)) as [<-|Hne].
  - rewrite bool_decide_eq_true_2 by done. vrun.
    exists (VaultEvent.Transferred (v_owner v) a a n). split_and!; try done.
    + constructor; try done. lia.
    + unfold abs, replay. simpl. by rewrite bool_decide_eq_true_2.
  - rewrite bool_decide_eq_false_2 by done.
    unfold ensure_creditable_balance. cbv [mbind SE_bind get_self lift ok_or mret SE_ret].
    destruct (checked_add_spec u128_max (balance_of v b) n) as [[Hle ->]|[Hgt ->]].
    2: { refuse. match goal with H : ?x <> ?y -> _, E : ?x <> ?y |- _ => specialize (H E); lia end. }
    unfold balance_of in Ebal. unfold balance_of at 1. destruct (v_balances v !! a) as [x|] eqn:Ea; cbn in Ebal; [|lia]. cbn [default from_option id].
    pose proof (debit_run v a n x Ea Ebal) as Hd. cbv [mbind SE_bind] in Hd.
    destruct (debit_entry a x n v) as [[]]; try done. rewrite Hd.
    rewrite credit_balance_run by (unfold balance_of in *; simpl; by rewrite debit_lookup_ne).
    vrun. exists (VaultEvent.Transferred (v_owner v) a b n). split_and!; try done.
    + constructor; try done; [lia|]. unfold free_of. simpl. by rewrite Ea.
    + unfold abs, replay. simpl. by rewrite bool_decide_eq_false_2.
Qed.

Lemma call_simulates c v : vault_ok v -> typed_call c -> simulates c v.
Proof.
  intros Hv Hc. destruct c; simpl in Hc;
    auto using deposit_simulates, lock_simulates, release_simulates, slash_simulates,
      transfer_simulates, pause_simulates, unpause_simulates.
Qed.
