(* ===== verification/VaultTheorems.v ===== *)
(** * VaultTheorems: what every history of the settlement vault satisfies

    A history is any sequence of calls to the vault's methods, interleaved with
    [consume_audit_log]; [Sys] keeps what was consumed.  The theorems are about
    every state such a history reaches from [SettlementVault::new]. *)

From stdpp Require Import base gmap list strings.
From S2P Require Import Prelude AuditEvents EscrowVault VaultSpec.

Inductive VOp := Do (c : Call) | Consume.

Record Sys := mkSys { consumed : list VaultEvent.t; vault : SettlementVault }.

Definition sys_step (s : Sys) (op : VOp) : Sys :=
  match op with
  | Do c => mkSys (consumed s) (run_call c (vault s)).2
  | Consume =>
      match consume_audit_log (vault s) with
      | (Ok evs, v) => mkSys (consumed s ++ evs) v
      | (_, v) => mkSys (consumed s) v
      end
  end.

Definition typed_op (op : VOp) : Prop := match op with Do c => typed_call c | Consume => True end.

Definition run_from (s : Sys) (ops : list VOp) : Sys := foldl sys_step s ops.
Definition run_ops (owner : rstring) (ops : list VOp) : Sys := run_from (mkSys [] (new_vault owner)) ops.

Definition all_events (s : Sys) : list VaultEvent.t := consumed s ++ v_audit_log (vault s).
Definition empty_ledger : Ledger := mkLedger false ∅ ∅.

(** A sequence of events each of which the contract allows. *)
Fixpoint allowed (owner : rstring) (l : Ledger) (evs : list VaultEvent.t) : Prop :=
  match evs with
  | [] => True
  | ev :: evs => enabled owner l ev /\ allowed owner (replay l ev) evs
  end.

Definition deposited (ev : VaultEvent.t) : Z :=
  match ev with VaultEvent.Deposited _ _ n => n | _ => 0 end.
Definition held_amount (k : LockRecord) : Z :=
  match lk_status k with LockStatus.Locked => lk_amount k | _ => 0 end.
Definition ledger_total (l : Ledger) : Z := map_sum id (l_free l) + map_sum held_amount (l_held l).

(** ** The invariant is preserved by every allowed event *)

Lemma settle_lock_ok r st m :
  (forall r k, m !! r = Some k -> 0 < lk_amount k <= u128_max /\ canonical r) ->
  forall r' k, settle_lock r st m !! r' = Some k -> 0 < lk_amount k <= u128_max /\ canonical r'.
Proof.
  intros Hm r' k. rewrite settle_lock_lookup. destruct (decide (r = r')) as [->|]; [|apply Hm].
  destruct (m !! r') as [k'|] eqn:E; [|done]. intros [= <-]. by apply Hm in E.
Qed.

Lemma replay_ok owner l ev : ledger_ok l -> enabled owner l ev -> ledger_ok (replay l ev).
Proof.
  intros [Hf Hh] Hen. destruct Hen; constructor; cbn; try done;
    eauto using credit_balances_ok, settle_lock_ok.
  - apply debit_balances_ok; [done|]. unfold free_of in *. lia.
  - intros r' k. destruct (decide (r = r')) as [<-|].
    + rewrite lookup_insert_eq. intros [= <-]. cbn. split; [|done]. unfold free_of in *.
      destruct (l_free l !! a) eqn:E; cbn in *; [apply Hf in E|]; lia.
    + rewrite lookup_insert_ne by done. apply Hh.
  - apply credit_balances_ok; [done| |done]. apply Hh in H1 as [? _]. cbn in *. lia.
  - apply credit_balances_ok; [done| |done]. apply Hh in H1 as [? _]. cbn in *. lia.
  - case_bool_decide; [done|]. unfold free_of in *. apply credit_balances_ok; [|done|].
    + apply debit_balances_ok; [done|lia].
    + rewrite debit_lookup_ne by done. auto.
Qed.

(** Each step of a history logs at most one event, and that event is allowed. *)
Lemma sys_step_events s op :
  vault_ok (vault s) -> typed_op op ->
  v_owner (vault (sys_step s op)) = v_owner (vault s) /\
  exists evs, all_events (sys_step s op) = all_events s ++ evs /\
    allowed (v_owner (vault s)) (abs (vault s)) evs /\
    abs (vault (sys_step s op)) = foldl replay (abs (vault s)) evs.
Proof.
  intros Hv Ht. destruct op as [c|]; cbn.
  - pose proof (call_simulates c (vault s) Hv Ht) as Hs. unfold simulates in Hs.
    unfold all_events. destruct (run_call c (vault s)) as [[[]|e|] v'] eqn:E; cbn; [|destruct Hs as [-> _]|done].
    + destruct Hs as (ev & _ & Hen & Habs & Hown & Hlog). split; [done|]. exists [ev].
      rewrite Hlog, app_assoc. by repeat split.
    + split; [done|]. exists []. by rewrite app_nil_r.
  - split; [done|]. exists []. unfold all_events. cbn. by rewrite !app_nil_r.
Qed.

Lemma allowed_app owner l evs evs' :
  allowed owner l evs -> allowed owner (foldl replay l evs) evs' -> allowed owner l (evs ++ evs').
Proof. revert l. induction evs as [|ev evs IH]; cbn; intros l; [done|]. intros [??] ?. auto. Qed.

Lemma allowed_ok owner l evs : ledger_ok l -> allowed owner l evs -> ledger_ok (foldl replay l evs).
Proof.
  revert l. induction evs as [|ev evs IH]; cbn; intros l Hl; [done|]. intros [??].
  apply IH; [|done]. by eapply replay_ok.
Qed.

Lemma run_from_events s ops :
  vault_ok (vault s) -> Forall typed_op ops ->
  v_owner (vault (run_from s ops)) = v_owner (vault s) /\
  exists evs, all_events (run_from s ops) = all_events s ++ evs /\
    allowed (v_owner (vault s)) (abs (vault s)) evs /\
    abs (vault (run_from s ops)) = foldl replay (abs (vault s)) evs.
Proof.
  intros Hv Ht. revert s Hv. induction Ht as [|op ops Hop Ht IH]; intros s Hv.
  - split; [done|]. exists []. by rewrite app_nil_r.
  - destruct (sys_step_events s op Hv Hop) as (Ho & evs & Hev & Hal & Habs).
    assert (Hv' : vault_ok (vault (sys_step s op)))
      by (unfold vault_ok; rewrite Habs; by eapply allowed_ok).
    destruct (IH _ Hv') as (Ho' & evs' & Hev' & Hal' & Habs').
    change (run_from s (op :: ops)) with (run_from (sys_step s op) ops).
    split; [by rewrite Ho'|]. exists (evs ++ evs').
    rewrite Hev', Hev, Habs', Habs, foldl_app, app_assoc. split; [done|]. split; [|done].
    apply allowed_app; [done|]. by rewrite <- Habs, <- Ho.
Qed.

Lemma new_vault_ok owner : vault_ok (new_vault owner).
Proof. split; cbn; intros ??; by rewrite lookup_empty. Qed.

Lemma run_ops_events owner ops :
  Forall typed_op ops ->
  v_owner (vault (run_ops owner ops)) = owner /\
  allowed owner empty_ledger (all_events (run_ops owner ops)) /\
  abs (vault (run_ops owner ops)) = foldl replay empty_ledger (all_events (run_ops owner ops)).
Proof.
  intros Ht. destruct (run_from_events (mkSys [] (new_vault owner)) ops (new_vault_ok _) Ht)
    as (Ho & evs & Hev & Hal & Habs). unfold run_ops. by rewrite Hev.
Qed.

Lemma run_ops_ok owner ops : Forall typed_op ops -> vault_ok (vault (run_ops owner ops)).
Proof.
  intros Ht. destruct (run_ops_events owner ops Ht) as (_ & Hal & Habs).
  unfold vault_ok. rewrite Habs. eapply allowed_ok; [|done]. apply (new_vault_ok owner).
Qed.

(** ** Conservation *)

Lemma map_sum_credit m a n : map_sum id (credit a n m) = map_sum id m + n.
Proof.
  unfold credit. destruct (m !! a) as [b|] eqn:E; cbn.
  - rewrite (map_sum_insert _ _ _ _ b) by done. unfold id. lia.
  - rewrite map_sum_insert_new by done. unfold id. lia.
Qed.

Lemma map_sum_debit m a n : 0 < n <= default 0 (m !! a) -> map_sum id (debit a n m) = map_sum id m - n.
Proof.
  unfold debit. destruct (m !! a) as [b|] eqn:E; cbn; [|lia]. intros Hn.
  destruct (b - n =? 0) eqn:Eb; bprop.
  - rewrite (map_sum_delete _ _ _ b) by done. unfold id. lia.
  - rewrite (map_sum_insert _ _ _ _ b) by done. unfold id. lia.
Qed.

Lemma map_sum_settle m r st a n :
  m !! r = Some (mkLock a n LockStatus.Locked) -> st <> LockStatus.Locked ->
  map_sum held_amount (settle_lock r st m) = map_sum held_amount m - n.
Proof.
  intros Hr Hst. assert (settle_lock r st m = <[r := mkLock a n st]> m) as ->.
  { apply map_eq. intros r'. rewrite settle_lock_lookup. destruct (decide (r = r')) as [<-|].
    - by rewrite Hr, lookup_insert_eq.
    - by rewrite lookup_insert_ne. }
  rewrite (map_sum_insert _ _ _ _ _ Hr). cbn. destruct st; [done| |]; cbn; lia.
Qed.

Lemma replay_total owner l ev :
  enabled owner l ev -> ledger_total (replay l ev) = ledger_total l + deposited ev.
Proof.
  unfold ledger_total, free_of. destruct 1; cbn -[map_sum];
    rewrite ?map_sum_credit, ?(map_sum_settle _ _ _ a n) by done; try lia.
  - rewrite map_sum_debit, map_sum_insert_new by (done || (unfold free_of in *; lia)). cbn. lia.
  - case_bool_decide; [lia|]. rewrite map_sum_credit, map_sum_debit; [lia|]. unfold free_of in *. lia.
Qed.

Lemma allowed_total owner l evs :
  allowed owner l evs -> ledger_total (foldl replay l evs) = ledger_total l + lsum deposited evs.
Proof.
  revert l. induction evs as [|ev evs IH]; cbn [foldl allowed]; intros l; [rewrite lsum_nil; lia|].
  intros [Hen Hal]. rewrite IH by done. rewrite (replay_total _ _ _ Hen), lsum_cons. lia.
Qed.

(** ** Lock life cycle *)

(** A lock record never disappears, keeps its account and amount, and once
    settled never changes again. *)
Definition lock_evolves (k k' : LockRecord) : Prop :=
  lk_account k' = lk_account k /\ lk_amount k' = lk_amount k /\
  (lk_status k <> LockStatus.Locked -> k' = k).

Lemma replay_lock_evolves owner l ev r k :
  enabled owner l ev -> l_held l !! r = Some k ->
  exists k', l_held (replay l ev) !! r = Some k' /\ lock_evolves k k'.
Proof.
  intros Hen Hk. assert (lock_evolves k k) by by repeat split.
  destruct Hen as [| r0 ? ? ? ? ? Hr0 | r0 ? ? ? ? Hr0 | r0 ? ? ? ? ? Hr0 | | |]; cbn; eauto.
  - destruct (decide (r0 = r)) as [<-|]; [congruence|]. rewrite lookup_insert_ne by done. eauto.
  - rewrite settle_lock_lookup. destruct (decide (r0 = r)) as [<-|]; [|eauto].
    rewrite Hr0 in Hk |- *. simplify_eq/=. eexists. split; [done|]. by repeat split.
  - rewrite settle_lock_lookup. destruct (decide (r0 = r)) as [<-|]; [|eauto].
    rewrite Hr0 in Hk |- *. simplify_eq/=. eexists. split; [done|]. by repeat split.
Qed.

Lemma lock_evolves_trans k1 k2 k3 : lock_evolves k1 k2 -> lock_evolves k2 k3 -> lock_evolves k1 k3.
Proof.
  intros (? & ? & H1) (? & ? & H2). split_and!; [congruence..|]. intros Hs.
  specialize (H1 Hs) as ->. auto.
Qed.

Lemma allowed_lock_evolves owner l evs r k :
  allowed owner l evs -> l_held l !! r = Some k ->
  exists k', l_held (foldl replay l evs) !! r = Some k' /\ lock_evolves k k'.
Proof.
  revert l k. induction evs as [|ev evs IH]; cbn; intros l k; [|intros [Hen Hal] Hk].
  - intros _ Hk. exists k. by repeat split.
  - destruct (replay_lock_evolves _ _ _ _ _ Hen Hk) as (k1 & Hk1 & He1).
    destruct (IH _ _ Hal Hk1) as (k2 & Hk2 & He2). eauto using lock_evolves_trans.
Qed.

(** ** Theorems *)

(** C8: the vault refines its contract.  On every state a history reaches, a
    method call either succeeds by taking exactly one step of the contract and
    appending exactly that step's event to the audit log, or is refused with
    the whole state unchanged, and then the contract has no step for it; no
    call panics. *)
Theorem vault_refines_contract owner ops c v :
  Forall typed_op ops -> typed_call c -> v = vault (run_ops owner ops) ->
  match run_call c v with
  | (Ok _, v') => exists ev, emits c ev /\ vstep owner (abs v) ev (abs v') /\
      v_owner v' = owner /\ v_audit_log v' = v_audit_log v ++ [ev]
  | (Err _, v') => v' = v /\ forall ev l', emits c ev -> ~ vstep owner (abs v) ev l'
  | (Panic, _) => False
  end.
Proof.
  intros Ht Hc ->. destruct (run_ops_events owner ops Ht) as (Ho & _).
  pose proof (call_simulates c _ (run_ops_ok owner ops Ht) Hc) as Hs.
  unfold simulates in Hs. rewrite Ho in Hs. unfold vstep.
  destruct (run_call c _) as [[[]|e|] v']; [naive_solver| |done].
  destruct Hs as [-> Hs]. split; [done|]. intros ev l' Hem [Hen _]. by eapply Hs.
Qed.

(** C9: the vault conserves deposits.  After any history, the free balances
    plus the amounts of the open locks add up to exactly the amounts deposited;
    in particular no method mints or burns, locking and settling only move
    value, and no lock is paid out twice. *)
Theorem vault_conserves_deposits owner ops :
  Forall typed_op ops ->
  ledger_total (abs (vault (run_ops owner ops))) = lsum deposited (all_events (run_ops owner ops)).
Proof.
  intros Ht. destruct (run_ops_events owner ops Ht) as (_ & Hal & Habs).
  by rewrite Habs, (allowed_total _ _ _ Hal).
Qed.

(** C10: the audit trail is complete.  Replaying the consumed and pending audit
    events, each of which the contract allowed at its point, rebuilds the
    vault's pause flag, balances and locks exactly, however the log was
    consumed in between. *)
Theorem vault_state_is_replay owner ops :
  Forall typed_op ops ->
  allowed owner empty_ledger (all_events (run_ops owner ops)) /\
  abs (vault (run_ops owner ops)) = foldl replay empty_ledger (all_events (run_ops owner ops)).
Proof. intros Ht. apply (run_ops_events owner ops Ht). Qed.

(** locks are one-shot.  Whatever happens after a request id was used, its
    record is still there with the same account and amount, and a record that
    was released or slashed never changes again. *)
Theorem vault_locks_are_one_shot owner ops ops' r k :
  Forall typed_op ops -> Forall typed_op ops' ->
  lock_record (vault (run_ops owner ops)) r = Some k ->
  exists k', lock_record (vault (run_ops owner (ops ++ ops'))) r = Some k' /\ lock_evolves k k'.
Proof.
  intros Ht Ht' Hk. unfold run_ops, run_from. rewrite foldl_app.
  destruct (run_from_events (run_ops owner ops) ops' (run_ops_ok _ _ Ht) Ht')
    as (_ & evs & _ & Hal & Habs).
  destruct (allowed_lock_evolves _ _ _ r k Hal Hk) as (k' & Hk' & He).
  exists k'. split; [|done]. by rewrite <- Habs in Hk'.
Qed.

(** Authority and pause.  On any vault whatever, a caller other than the
    owner gets [Unauthorized], and on a paused vault the owner's every
    operation except pause and unpause gets [Paused], both with the state
    unchanged. *)
Theorem vault_guards c v :
  (caller_of c <> v_owner v -> run_call c v = (Err VaultError.Unauthorized, v)) /\
  (caller_of c = v_owner v -> v_paused v = true ->
   match c with CPause _ | CUnpause _ => True | _ => run_call c v = (Err VaultError.Paused, v) end).
Proof.
  split.
  - intros Hne. destruct c; cbn in *; cbv [deposit lock release slash transfer pause unpause mbind SE_bind
      ensure_owner get_self lift fail_if]; by rewrite bool_decide_eq_false_2.
  - intros Heq Hp. destruct c; cbn in *; subst; try done;
      cbv [deposit lock release slash transfer mbind SE_bind
      ensure_owner ensure_not_paused get_self lift fail_if]; rewrite bool_decide_eq_true_2 by done; cbn [negb];
      by rewrite Hp.
Qed.

(** ** The vault theorems on a concrete history

    Deposit, lock, consume the log, slash, a refused second settlement, and a
    transfer; the theorems above are applied to it. *)

Module VaultWitness.

Definition w_owner : rstring := str "o".
Definition w_alice : rstring := str "a".
Definition w_bob : rstring := str "b".
Definition w_req : rstring := str "r1".

Definition w_open : list VOp :=
  [Do (CDeposit w_owner w_alice 10); Do (CLock w_owner w_req w_alice 4); Consume].
Definition w_close : list VOp :=
  [Do (CSlash w_owner w_req w_bob); Do (CRelease w_owner w_req); Do (CTransfer w_owner w_bob w_alice 1)].
Definition w_ops : list VOp := w_open ++ w_close.

Lemma w_open_typed : Forall typed_op w_open.
Proof. repeat constructor; vm_compute; congruence. Qed.
Lemma w_close_typed : Forall typed_op w_close.
Proof. repeat constructor; vm_compute; congruence. Qed.
Lemma w_ops_typed : Forall typed_op w_ops.
Proof. apply Forall_app. split; [exact w_open_typed|exact w_close_typed]. Qed.

(** The history settles as expected: the release after the slash was refused. *)
Example w_balances :
  (fun v => (balance_of v w_alice, balance_of v w_bob, lk_status <$> lock_record v w_req))
    (vault (run_ops w_owner w_ops)) = (7, 3, Some LockStatus.Slashed).
Proof. vm_compute. reflexivity. Qed.

Lemma vault_refines_contract_witness :
  let c := CRelease w_owner w_req in
  let v := vault (run_ops w_owner w_open) in
  match run_call c v with
  | (Ok _, v') => exists ev, emits c ev /\ vstep w_owner (abs v) ev (abs v') /\
      v_owner v' = w_owner /\ v_audit_log v' = v_audit_log v ++ [ev]
  | (Err _, v') => v' = v /\ forall ev l', emits c ev -> ~ vstep w_owner (abs v) ev l'
  | (Panic, _) => False
  end.
Proof.
  intros c v. exact (vault_refines_contract w_owner w_open c v w_open_typed I eq_refl).
Defined.

Lemma vault_conserves_deposits_witness :
  ledger_total (abs (vault (run_ops w_owner w_ops))) = lsum deposited (all_events (run_ops w_owner w_ops)).
Proof. exact (vault_conserves_deposits w_owner w_ops w_ops_typed). Defined.

Lemma vault_state_is_replay_witness :
  allowed w_owner empty_ledger (all_events (run_ops w_owner w_ops)) /\
  abs (vault (run_ops w_owner w_ops)) = foldl replay empty_ledger (all_events (run_ops w_owner w_ops)).
Proof. exact (vault_state_is_replay w_owner w_ops w_ops_typed). Defined.

Lemma vault_locks_are_one_shot_witness :
  exists k', lock_record (vault (run_ops w_owner (w_open ++ w_close))) w_req = Some k' /\
    lock_evolves (mkLock w_alice 4 LockStatus.Locked) k'.
Proof.
  apply (vault_locks_are_one_shot w_owner w_open w_close); [exact w_open_typed|exact w_close_typed|].
  vm_compute. reflexivity.
Defined.

Lemma vault_guards_witness :
  run_call (CPause w_bob) (new_vault w_owner) = (Err VaultError.Unauthorized, new_vault w_owner).
Proof. apply (vault_guards (CPause w_bob) (new_vault w_owner)). vm_compute. congruence. Defined.

End VaultWitness.
