(* ===== verification/Governance.v ===== *)
(** * Governance: the timelocked governance guard of [trnm-governance-guard]

    Roles, parameter-change proposals under a timelock and optimistic
    versioning, the emergency pause with its separately executed restore, and
    the audit log.  Methods are [&mut self] computations over
    [GovernanceGuard]. *)

From stdpp Require Import base gmap list strings.
From S2P Require Import Prelude AuditEvents.

Module ProposalStatus.
Inductive t := Pending | Queued | Executed | Cancelled.
End ProposalStatus.
Module ProposalKind.
Inductive t := ParamChange | EmergencyUnpause.
End ProposalKind.

#[export] Instance ProposalStatus_eq_dec : EqDecision ProposalStatus.t.
Proof. solve_decision. Defined.
#[export] Instance ProposalKind_eq_dec : EqDecision ProposalKind.t.
Proof. solve_decision. Defined.

Record Proposal := mkProposal {
  p_id : Z;
  p_kind : ProposalKind.t;
  p_proposer : rstring;
  p_executor : option rstring;
  p_eta : Z;
  p_param_key : rstring;
  p_old_value : rstring;
  p_new_value : rstring;
  p_base_version : option Z;
  p_reason_hash : rstring;
  p_status : ProposalStatus.t;
  p_executed_at : option Z;
}.

Record GovernanceBridgeState := mkBridge {
  b_gov_params : gmap (list Z) (list Z);
  b_param_versions : gmap (list Z) Z;
  b_emergency_paused : bool;
}.

Module GovernanceEvent.
Inductive t :=
| ProposalProposed (proposal_id : Z) (proposer : rstring) (kind : ProposalKind.t)
    (param_key : option rstring) (eta : Z)
| ProposalQueued (proposal_id : Z) (actor : rstring)
| ProposalExecuted (proposal_id : Z) (actor : rstring) (kind : ProposalKind.t)
    (param_key old_value new_value : option rstring) (version_before version_after : option Z)
| ProposalCancelled (proposal_id : Z) (actor : rstring)
| PauseSet (actor : rstring) (previous_state next_state : bool) (reason_hash : rstring)
| PauseRestoreScheduled (proposal_id : Z) (proposer : rstring) (eta : Z) (reason_hash : rstring)
| PauseRestoreExecuted (proposal_id : Z) (actor : rstring) (reason_hash : rstring)
| AuditLogCleared.
End GovernanceEvent.

Module GovError.
Inductive t :=
| Unauthorized | InvalidEta | InvalidParamKey | ProposalNotFound | NotQueued | NotReady
| AlreadyFinalized | WrongProposalKind | SelfExecutionForbidden | PauseNotActive
| GuardianExecutorConflict | WrongProposer | CurrentValueMismatch | ParamVersionMismatch
| PauseRestoreAlreadyScheduled.
End GovError.

Record GovernanceGuard := mkGuard {
  g_admin : rstring;
  g_min_timelock_delay_secs : Z;
  g_nonce : Z;
  g_proposals : gmap Z Proposal;
  g_allowed_param_keys : gset (list Z);
  g_proposers : gset (list Z);
  g_executors : gset (list Z);
  g_guardians : gset (list Z);
  g_bridge : GovernanceBridgeState;
  g_audit_log : list GovernanceEvent.t;
}.

Abbreviation GovM := (SE GovernanceGuard GovError.t).

(** Field updates. *)
Definition set_nonce n g := mkGuard (g_admin g) (g_min_timelock_delay_secs g) n (g_proposals g)
  (g_allowed_param_keys g) (g_proposers g) (g_executors g) (g_guardians g) (g_bridge g) (g_audit_log g).
Definition set_proposals p g := mkGuard (g_admin g) (g_min_timelock_delay_secs g) (g_nonce g) p
  (g_allowed_param_keys g) (g_proposers g) (g_executors g) (g_guardians g) (g_bridge g) (g_audit_log g).
Definition set_keys k g := mkGuard (g_admin g) (g_min_timelock_delay_secs g) (g_nonce g) (g_proposals g)
  k (g_proposers g) (g_executors g) (g_guardians g) (g_bridge g) (g_audit_log g).
Definition set_proposers r g := mkGuard (g_admin g) (g_min_timelock_delay_secs g) (g_nonce g) (g_proposals g)
  (g_allowed_param_keys g) r (g_executors g) (g_guardians g) (g_bridge g) (g_audit_log g).
Definition set_executors r g := mkGuard (g_admin g) (g_min_timelock_delay_secs g) (g_nonce g) (g_proposals g)
  (g_allowed_param_keys g) (g_proposers g) r (g_guardians g) (g_bridge g) (g_audit_log g).
Definition set_guardians r g := mkGuard (g_admin g) (g_min_timelock_delay_secs g) (g_nonce g) (g_proposals g)
  (g_allowed_param_keys g) (g_proposers g) (g_executors g) r (g_bridge g) (g_audit_log g).
Definition set_bridge b g := mkGuard (g_admin g) (g_min_timelock_delay_secs g) (g_nonce g) (g_proposals g)
  (g_allowed_param_keys g) (g_proposers g) (g_executors g) (g_guardians g) b (g_audit_log g).
Definition set_log l g := mkGuard (g_admin g) (g_min_timelock_delay_secs g) (g_nonce g) (g_proposals g)
  (g_allowed_param_keys g) (g_proposers g) (g_executors g) (g_guardians g) (g_bridge g) l.

Definition log_event (e : GovernanceEvent.t) : GovM () :=
  modify_self (fun g => set_log (g_audit_log g ++ [e]) g).

Definition set_status (st : ProposalStatus.t) (p : Proposal) : Proposal :=
  mkProposal (p_id p) (p_kind p) (p_proposer p) (p_executor p) (p_eta p) (p_param_key p)
    (p_old_value p) (p_new_value p) (p_base_version p) (p_reason_hash p) st (p_executed_at p).
(** [status = Executed; executor = Some(caller); executed_at = Some(now)] *)
Definition mark_executed (caller : rstring) (now : Z) (p : Proposal) : Proposal :=
  mkProposal (p_id p) (p_kind p) (p_proposer p) (Some caller) (p_eta p) (p_param_key p)
    (p_old_value p) (p_new_value p) (p_base_version p) (p_reason_hash p) ProposalStatus.Executed (Some now).

Definition new_guard (admin guardian : rstring) (min_timelock_delay_secs : Z) : GovernanceGuard :=
  mkGuard admin min_timelock_delay_secs 1 ∅ ∅ ∅ ∅ {[ guardian ]} (mkBridge ∅ ∅ false) [].

(** ** Guards and helpers *)

Definition require_admin (caller : rstring) : GovM () :=
  g ← get_self; lift (fail_if (caller <>? g_admin g) GovError.Unauthorized).
Definition require_proposer (caller : rstring) : GovM () :=
  g ← get_self; lift (fail_if (negb (bool_decide (caller ∈ g_proposers g))) GovError.Unauthorized).
Definition require_executor (caller : rstring) : GovM () :=
  g ← get_self; lift (fail_if (negb (bool_decide (caller ∈ g_executors g))) GovError.Unauthorized).
Definition require_guardian (caller : rstring) : GovM () :=
  g ← get_self; lift (fail_if (negb (bool_decide (caller ∈ g_guardians g))) GovError.Unauthorized).

(** [proposal_mut(id)?] *)
Definition proposal_mut (id : Z) : GovM Proposal :=
  g ← get_self; lift (ok_or (g_proposals g !! id) GovError.ProposalNotFound).
(** Write through the reference [proposal_mut] returned. *)
Definition update_proposal (id : Z) (p : Proposal) : GovM () :=
  modify_self (fun g => set_proposals (<[id := p]> (g_proposals g)) g).

Definition next_id : GovM Z :=
  g ← get_self;
  _ ← set_self (set_nonce (saturating_add u64_max (g_nonce g) 1) g);
  mret (g_nonce g).

Definition set_membership (s : gset (list Z)) (value : rstring) (enabled : bool) : gset (list Z) :=
  if enabled then {[ value ]} ∪ s else s ∖ {[ value ]}.

(** [matches!(status, Executed | Cancelled)] *)
Definition finalized (st : ProposalStatus.t) : bool :=
  match st with ProposalStatus.Executed | ProposalStatus.Cancelled => true | _ => false end.

(** ** Methods *)

Definition set_role (caller who : rstring) (can_propose can_execute : bool) : GovM () :=
  _ ← require_admin caller;
  _ ← modify_self (fun g => set_proposers (set_membership (g_proposers g) who can_propose) g);
  modify_self (fun g => set_executors (set_membership (g_executors g) who can_execute) g).

Definition set_guardian (caller who : rstring) (enabled : bool) : GovM () :=
  _ ← require_admin caller;
  modify_self (fun g => set_guardians (set_membership (g_guardians g) who enabled) g).

Definition set_allowed_param_key (caller key : rstring) (enabled : bool) : GovM () :=
  _ ← require_admin caller;
  modify_self (fun g => set_keys (set_membership (g_allowed_param_keys g) key enabled) g).

Definition propose (caller param_key old_value new_value : rstring) (eta : Z)
    (reason_hash : rstring) (now : Z) : GovM Z :=
  _ ← require_proposer caller;
  g ← get_self;
  _ ← lift (fail_if (eta <? saturating_add u64_max now (g_min_timelock_delay_secs g)) GovError.InvalidEta);
  _ ← lift (fail_if (negb (bool_decide (param_key ∈ g_allowed_param_keys g))) GovError.InvalidParamKey);
  id ← next_id;
  g ← get_self;
  let base_version := default 0 (b_param_versions (g_bridge g) !! param_key) in
  let proposal := mkProposal id ProposalKind.ParamChange caller None eta param_key old_value new_value
        (Some base_version) reason_hash ProposalStatus.Pending None in
  _ ← update_proposal id proposal;
  _ ← log_event (GovernanceEvent.ProposalProposed id caller ProposalKind.ParamChange (Some param_key) eta);
  mret id.

Definition queue (caller : rstring) (proposal_id : Z) : GovM () :=
  _ ← require_proposer caller;
  proposal ← proposal_mut proposal_id;
  _ ← lift (fail_if (finalized (p_status proposal)) GovError.AlreadyFinalized);
  _ ← lift (fail_if (p_proposer proposal <>? caller) GovError.WrongProposer);
  _ ← lift (fail_if (p_kind proposal <>? ProposalKind.ParamChange) GovError.WrongProposalKind);
  if p_status proposal =?? ProposalStatus.Queued then mret tt else
  _ ← lift (fail_if (p_status proposal <>? ProposalStatus.Pending) GovError.NotQueued);
  _ ← update_proposal proposal_id (set_status ProposalStatus.Queued proposal);
  log_event (GovernanceEvent.ProposalQueued proposal_id caller).

(** The checks both executing methods make on the proposal. *)
Definition ready_proposal (kind : ProposalKind.t) (proposal_id now : Z) : GovM Proposal :=
  proposal ← proposal_mut proposal_id;
  _ ← lift (fail_if (p_kind proposal <>? kind) GovError.WrongProposalKind);
  _ ← lift (fail_if (finalized (p_status proposal)) GovError.AlreadyFinalized);
  _ ← lift (fail_if (p_status proposal <>? ProposalStatus.Queued) GovError.NotQueued);
  _ ← lift (fail_if (now <? p_eta proposal) GovError.NotReady);
  mret proposal.

Definition execute (caller : rstring) (proposal_id now : Z) : GovM () :=
  _ ← require_executor caller;
  proposal ← ready_proposal ProposalKind.ParamChange proposal_id now;
  let param_key := p_param_key proposal in
  let new_value := p_new_value proposal in
  let old_value := p_old_value proposal in
  let base_version := p_base_version proposal in
  g ← get_self;
  _ ← lift (fail_if (negb (bool_decide (param_key ∈ g_allowed_param_keys g))) GovError.InvalidParamKey);
  let version := default 0 (b_param_versions (g_bridge g) !! param_key) in
  _ ← lift (fail_if (base_version <>? Some version) GovError.ParamVersionMismatch);
  let current := default [] (b_gov_params (g_bridge g) !! param_key) in
  _ ← lift (fail_if (current <>? old_value) GovError.CurrentValueMismatch);
  let next_version := saturating_add u64_max version 1 in
  _ ← modify_self (fun g => set_bridge (mkBridge (<[param_key := new_value]> (b_gov_params (g_bridge g)))
        (<[param_key := next_version]> (b_param_versions (g_bridge g)))
        (b_emergency_paused (g_bridge g))) g);
  proposal ← proposal_mut proposal_id;
  _ ← update_proposal proposal_id (mark_executed caller now proposal);
  log_event (GovernanceEvent.ProposalExecuted proposal_id caller ProposalKind.ParamChange (Some param_key)
    (Some old_value) (Some new_value) (Some version) (Some next_version)).

Definition cancel (caller : rstring) (proposal_id : Z) : GovM () :=
  proposal ← proposal_mut proposal_id;
  _ ← lift (fail_if (finalized (p_status proposal)) GovError.AlreadyFinalized);
  let status := p_status proposal in
  let proposer := p_proposer proposal in
  let kind := p_kind proposal in
  g ← get_self;
  let authorized :=
    if bool_decide (caller ∈ g_guardians g) then true
    else if proposer =?? caller then
      match kind with
      | ProposalKind.ParamChange => bool_decide (caller ∈ g_proposers g)
      | ProposalKind.EmergencyUnpause => bool_decide (caller ∈ g_guardians g)
      end
    else false in
  _ ← lift (fail_if (negb authorized) GovError.Unauthorized);
  proposal ← proposal_mut proposal_id;
  _ ← lift (fail_if (p_status proposal <>? status) GovError.AlreadyFinalized);
  _ ← update_proposal proposal_id (set_status ProposalStatus.Cancelled proposal);
  log_event (GovernanceEvent.ProposalCancelled proposal_id caller).

Definition set_emergency_paused (b : bool) : GovM () :=
  modify_self (fun g => set_bridge (mkBridge (b_gov_params (g_bridge g)) (b_param_versions (g_bridge g)) b) g).

Definition emergency_pause (caller reason_hash : rstring) : GovM () :=
  _ ← require_guardian caller;
  g ← get_self;
  let previous_state := b_emergency_paused (g_bridge g) in
  if previous_state then mret tt else
  _ ← set_emergency_paused true;
  log_event (GovernanceEvent.PauseSet caller previous_state true reason_hash).

(** An unpause proposal that is still pending or queued. *)
Definition active_unpause (p : Proposal) : bool :=
  p_kind p =?? ProposalKind.EmergencyUnpause
  && match p_status p with ProposalStatus.Pending | ProposalStatus.Queued => true | _ => false end.

Definition schedule_unpause (caller : rstring) (eta : Z) (reason_hash : rstring) (now : Z) : GovM Z :=
  _ ← require_guardian caller;
  g ← get_self;
  _ ← lift (fail_if (negb (b_emergency_paused (g_bridge g))) GovError.PauseNotActive);
  _ ← lift (fail_if (eta <? saturating_add u64_max now (g_min_timelock_delay_secs g)) GovError.InvalidEta);
  _ ← lift (fail_if (existsb active_unpause (snd <$> map_to_list (g_proposals g)))
              GovError.PauseRestoreAlreadyScheduled);
  id ← next_id;
  let proposal := mkProposal id ProposalKind.EmergencyUnpause caller None eta (str "emergency_pause")
        (str "true") (str "false") None reason_hash ProposalStatus.Queued None in
  _ ← update_proposal id proposal;
  _ ← log_event (GovernanceEvent.PauseRestoreScheduled id caller eta reason_hash);
  mret id.

Definition execute_unpause (caller : rstring) (proposal_id now : Z) : GovM () :=
  _ ← require_executor caller;
  g ← get_self;
  _ ← lift (fail_if (bool_decide (caller ∈ g_guardians g)) GovError.GuardianExecutorConflict);
  proposal ← ready_proposal ProposalKind.EmergencyUnpause proposal_id now;
  let proposal_proposer := p_proposer proposal in
  g ← get_self;
  _ ← lift (fail_if (negb (bool_decide (proposal_proposer ∈ g_guardians g))) GovError.Unauthorized);
  _ ← lift (fail_if (proposal_proposer =?? caller) GovError.SelfExecutionForbidden);
  _ ← lift (fail_if (negb (b_emergency_paused (g_bridge g))) GovError.PauseNotActive);
  _ ← set_emergency_paused false;
  proposal ← proposal_mut proposal_id;
  _ ← update_proposal proposal_id (mark_executed caller now proposal);
  let reason_hash := p_reason_hash proposal in
  _ ← log_event (GovernanceEvent.PauseRestoreExecuted proposal_id caller reason_hash);
  log_event (GovernanceEvent.ProposalExecuted proposal_id caller ProposalKind.EmergencyUnpause
    (Some (str "emergency_pause")) (Some (str "true")) (Some (str "false")) None None).

Definition proposal (g : GovernanceGuard) (id : Z) : option Proposal := g_proposals g !! id.

Definition consume_audit_log : GovM (list GovernanceEvent.t) :=
  g ← get_self;
  _ ← set_self (set_log [] g);
  mret (g_audit_log g ++ [GovernanceEvent.AuditLogCleared]).

(** ** The normalized audit log *)

Definition gov_source : rstring := str "governance-guard".

Definition kind_debug (k : ProposalKind.t) : rstring :=
  match k with
  | ProposalKind.ParamChange => str "ParamChange"
  | ProposalKind.EmergencyUnpause => str "EmergencyUnpause"
  end.
Definition bool_display (b : bool) : rstring := if b then str "true" else str "false".

Definition apply_normalized_proposal_context (g : GovernanceGuard) (proposal_id : Z) (n : AuditEvent) :
    AuditEvent :=
  match g_proposals g !! proposal_id with
  | None => n
  | Some proposal =>
      let n := with_reason n (str "kind=" ++ kind_debug (p_kind proposal)) in
      if negb (is_empty (p_param_key proposal)) then with_related_id n (p_param_key proposal) else n
  end.

(** The only fallible step is the subtraction of the two versions. *)
Definition normalize_audit_event {E} (g : GovernanceGuard) (event : GovernanceEvent.t) :
    result E AuditEvent :=
  match event with
  | GovernanceEvent.ProposalProposed id proposer kind param_key eta =>
      let n := new_audit_event gov_source (str "governance.proposal_proposed") in
      let n := with_reason (with_object_id (with_actor n proposer) (dec id)) (str "kind=" ++ kind_debug kind) in
      let n := match param_key with Some key => with_related_id n key | None => n end in
      Ok (with_note n (str "eta=" ++ dec eta))
  | GovernanceEvent.ProposalQueued id actor =>
      let n := new_audit_event gov_source (str "governance.proposal_queued") in
      Ok (apply_normalized_proposal_context g id (with_object_id (with_actor n actor) (dec id)))
  | GovernanceEvent.ProposalExecuted id actor kind param_key old_value new_value version_before version_after =>
      let n := new_audit_event gov_source (str "governance.proposal_executed") in
      let n := with_reason (with_object_id (with_actor n actor) (dec id)) (str "kind=" ++ kind_debug kind) in
      let n := match param_key with Some key => with_related_id n key | None => n end in
      n ← match version_before, version_after with
          | Some before, Some after =>
              amount ← expect (checked_sub after before);
              Ok (with_note (with_amount n amount) (str "version=" ++ dec before ++ str "->" ++ dec after))
          | _, _ => Ok n
          end;
      Ok match old_value, new_value with
         | Some old, Some new =>
             with_note n match ae_note n with
                         | Some existing => str "value=" ++ old ++ str "->" ++ new ++ str ", " ++ existing
                         | None => str "value=" ++ old ++ str "->" ++ new
                         end
         | _, _ => n
         end
  | GovernanceEvent.ProposalCancelled id actor =>
      let n := new_audit_event gov_source (str "governance.proposal_cancelled") in
      Ok (apply_normalized_proposal_context g id (with_object_id (with_actor n actor) (dec id)))
  | GovernanceEvent.PauseSet actor previous_state next_state reason_hash =>
      let n := with_actor (new_audit_event gov_source (str "governance.pause_set")) actor in
      let n := with_related_id (with_object_id n (str "emergency_pause")) (str "pause_state") in
      Ok (with_note (with_reason n (str "pause_activation"))
        (str "state=" ++ bool_display previous_state ++ str "->" ++ bool_display next_state
         ++ str ", reason_hash=" ++ reason_hash))
  | GovernanceEvent.PauseRestoreScheduled id proposer eta reason_hash =>
      let n := with_actor (new_audit_event gov_source (str "governance.pause_restore_scheduled")) proposer in
      let n := with_related_id (with_object_id n (str "emergency_pause")) (dec id) in
      Ok (with_note (with_reason n (str "pause_restore_schedule"))
        (str "eta=" ++ dec eta ++ str ", reason_hash=" ++ reason_hash))
  | GovernanceEvent.PauseRestoreExecuted id actor reason_hash =>
      let n := with_actor (new_audit_event gov_source (str "governance.pause_restore_executed")) actor in
      let n := with_related_id (with_object_id n (str "emergency_pause")) (dec id) in
      Ok (with_note (with_reason n (str "pause_restore_execution")) (str "reason_hash=" ++ reason_hash))
  | GovernanceEvent.AuditLogCleared => Ok (new_audit_event gov_source (str "governance.audit_log_cleared"))
  end.

Definition normalized_audit_log {E} (g : GovernanceGuard) : result E (list AuditEvent) :=
  try_map (normalize_audit_event g) (g_audit_log g).
