(* ===== verification/GovernanceSpec.v ===== *)
(** * GovernanceSpec: the governance guard as a step relation

    [gstep] lists the transitions the guard may make, one rule per outcome;
    [call_steps] shows that a method call makes exactly such a transition or is
    refused with the state untouched.  The invariants and the theorems of
    [GovernanceTheorems] are proved by rule induction on [gstep]. *)

From stdpp Require Import base gmap list strings.
From S2P Require Import Prelude AuditEvents Governance.

Inductive GCall :=
| SetRole (caller who : rstring) (can_propose can_execute : bool)
| SetGuardian (caller who : rstring) (enabled : bool)
| SetAllowedParamKey (caller key : rstring) (enabled : bool)
| Propose (caller param_key old_value new_value : rstring) (eta : Z) (reason_hash : rstring) (now : Z)
| Queue (caller : rstring) (proposal_id : Z)
| Execute (caller : rstring) (proposal_id now : Z)
| Cancel (caller : rstring) (proposal_id : Z)
| EmergencyPause (caller reason_hash : rstring)
| ScheduleUnpause (caller : rstring) (eta : Z) (reason_hash : rstring) (now : Z)
| ExecuteUnpause (caller : rstring) (proposal_id now : Z)
| ConsumeAuditLog.

Definition unit_call (m : GovM ()) : GovM (option Z) := _ ← m; mret None.
Definition id_call (m : GovM Z) : GovM (option Z) := id ← m; mret (Some id).

(** One public method, with the proposal id it returns, if any. *)
Definition run_gcall (c : GCall) : GovM (option Z) :=
  match c with
  | SetRole caller who p e => unit_call (set_role caller who p e)
  | SetGuardian caller who b => unit_call (set_guardian caller who b)
  | SetAllowedParamKey caller key b => unit_call (set_allowed_param_key caller key b)
  | Propose caller k o n eta rh now => id_call (propose caller k o n eta rh now)
  | Queue caller id => unit_call (queue caller id)
  | Execute caller id now => unit_call (execute caller id now)
  | Cancel caller id => unit_call (cancel caller id)
  | EmergencyPause caller rh => unit_call (emergency_pause caller rh)
  | ScheduleUnpause caller eta rh now => id_call (schedule_unpause caller eta rh now)
  | ExecuteUnpause caller id now => unit_call (execute_unpause caller id now)
  | ConsumeAuditLog => _ ← consume_audit_log; mret None
  end.

Definition version_of (g : GovernanceGuard) (k : rstring) : Z := default 0 (b_param_versions (g_bridge g) !! k).
Definition value_of (g : GovernanceGuard) (k : rstring) : rstring := default [] (b_gov_params (g_bridge g) !! k).
Definition paused (g : GovernanceGuard) : bool := b_emergency_paused (g_bridge g).
Definition logged (evs : list GovernanceEvent.t) (g : GovernanceGuard) : GovernanceGuard :=
  set_log (g_audit_log g ++ evs) g.
Definition with_proposal (id : Z) (p : Proposal) (g : GovernanceGuard) : GovernanceGuard :=
  set_proposals (<[id := p]> (g_proposals g)) g.
Definition bump_nonce (g : GovernanceGuard) : GovernanceGuard :=
  set_nonce (saturating_add u64_max (g_nonce g) 1) g.
Definition with_pause (b : bool) (g : GovernanceGuard) : GovernanceGuard :=
  set_bridge (mkBridge (b_gov_params (g_bridge g)) (b_param_versions (g_bridge g)) b) g.
Definition with_param (k v : rstring) (ver : Z) (g : GovernanceGuard) : GovernanceGuard :=
  set_bridge (mkBridge (<[k := v]> (b_gov_params (g_bridge g))) (<[k := ver]> (b_param_versions (g_bridge g)))
    (b_emergency_paused (g_bridge g))) g.

Definition fresh_change (g : GovernanceGuard) caller k old new eta rh : Proposal :=
  mkProposal (g_nonce g) ProposalKind.ParamChange caller None eta k old new (Some (version_of g k)) rh
    ProposalStatus.Pending None.
Definition fresh_unpause (g : GovernanceGuard) caller eta rh : Proposal :=
  mkProposal (g_nonce g) ProposalKind.EmergencyUnpause caller None eta (str "emergency_pause")
    (str "true") (str "false") None rh ProposalStatus.Queued None.

(** Who may cancel: any guardian, or the proposer of a parameter change while
    still a proposer. *)
Definition may_cancel (g : GovernanceGuard) (caller : rstring) (p : Proposal) : Prop :=
  caller ∈ g_guardians g \/
  (p_proposer p = caller /\ p_kind p = ProposalKind.ParamChange /\ caller ∈ g_proposers g).

Definition no_active_unpause (g : GovernanceGuard) : Prop :=
  forall id p, g_proposals g !! id = Some p -> active_unpause p = false.

Inductive gstep (g : GovernanceGuard) : GCall -> option Z -> GovernanceGuard -> Prop :=
| gs_role who p e : gstep g (SetRole (g_admin g) who p e) None
    (set_executors (set_membership (g_executors g) who e)
      (set_proposers (set_membership (g_proposers g) who p) g))
| gs_guardian who b : gstep g (SetGuardian (g_admin g) who b) None
    (set_guardians (set_membership (g_guardians g) who b) g)
| gs_key k b : gstep g (SetAllowedParamKey (g_admin g) k b) None
    (set_keys (set_membership (g_allowed_param_keys g) k b) g)
| gs_propose caller k old new eta rh now :
    caller ∈ g_proposers g ->
    saturating_add u64_max now (g_min_timelock_delay_secs g) <= eta ->
    k ∈ g_allowed_param_keys g ->
    gstep g (Propose caller k old new eta rh now) (Some (g_nonce g))
      (logged [GovernanceEvent.ProposalProposed (g_nonce g) caller ProposalKind.ParamChange (Some k) eta]
        (with_proposal (g_nonce g) (fresh_change g caller k old new eta rh) (bump_nonce g)))
| gs_queue caller id p :
    caller ∈ g_proposers g -> g_proposals g !! id = Some p -> p_proposer p = caller ->
    p_kind p = ProposalKind.ParamChange -> p_status p = ProposalStatus.Pending ->
    gstep g (Queue caller id) None
      (logged [GovernanceEvent.ProposalQueued id caller]
        (with_proposal id (set_status ProposalStatus.Queued p) g))
| gs_queue_again caller id p :
    caller ∈ g_proposers g -> g_proposals g !! id = Some p -> p_proposer p = caller ->
    p_kind p = ProposalKind.ParamChange -> p_status p = ProposalStatus.Queued ->
    gstep g (Queue caller id) None g
| gs_execute caller id now p :
    caller ∈ g_executors g -> g_proposals g !! id = Some p ->
    p_kind p = ProposalKind.ParamChange -> p_status p = ProposalStatus.Queued -> p_eta p <= now ->
    p_param_key p ∈ g_allowed_param_keys g ->
    p_base_version p = Some (version_of g (p_param_key p)) ->
    value_of g (p_param_key p) = p_old_value p ->
    gstep g (Execute caller id now) None
      (logged [GovernanceEvent.ProposalExecuted id caller ProposalKind.ParamChange (Some (p_param_key p))
          (Some (p_old_value p)) (Some (p_new_value p)) (Some (version_of g (p_param_key p)))
          (Some (saturating_add u64_max (version_of g (p_param_key p)) 1))]
        (with_proposal id (mark_executed caller now p)
          (with_param (p_param_key p) (p_new_value p)
            (saturating_add u64_max (version_of g (p_param_key p)) 1) g)))
| gs_cancel caller id p :
    g_proposals g !! id = Some p -> finalized (p_status p) = false -> may_cancel g caller p ->
    gstep g (Cancel caller id) None
      (logged [GovernanceEvent.ProposalCancelled id caller]
        (with_proposal id (set_status ProposalStatus.Cancelled p) g))
| gs_pause caller rh :
    caller ∈ g_guardians g -> paused g = false ->
    gstep g (EmergencyPause caller rh) None
      (logged [GovernanceEvent.PauseSet caller false true rh] (with_pause true g))
| gs_pause_again caller rh :
    caller ∈ g_guardians g -> paused g = true -> gstep g (EmergencyPause caller rh) None g
| gs_schedule caller eta rh now :
    caller ∈ g_guardians g -> paused g = true ->
    saturating_add u64_max now (g_min_timelock_delay_secs g) <= eta -> no_active_unpause g ->
    gstep g (ScheduleUnpause caller eta rh now) (Some (g_nonce g))
      (logged [GovernanceEvent.PauseRestoreScheduled (g_nonce g) caller eta rh]
        (with_proposal (g_nonce g) (fresh_unpause g caller eta rh) (bump_nonce g)))
| gs_restore caller id now p :
    caller ∈ g_executors g -> caller ∉ g_guardians g -> g_proposals g !! id = Some p ->
    p_kind p = ProposalKind.EmergencyUnpause -> p_status p = ProposalStatus.Queued -> p_eta p <= now ->
    p_proposer p ∈ g_guardians g -> paused g = true ->
    gstep g (ExecuteUnpause caller id now) None
      (logged [GovernanceEvent.PauseRestoreExecuted id caller (p_reason_hash p);
               GovernanceEvent.ProposalExecuted id caller ProposalKind.EmergencyUnpause
                 (Some (str "emergency_pause")) (Some (str "true")) (Some (str "false")) None None]
        (with_proposal id (mark_executed caller now p) (with_pause false g)))
| gs_consume : gstep g ConsumeAuditLog None (set_log [] g).

(** ** The methods take exactly these steps *)

Definition steps (c : GCall) (g : GovernanceGuard) : Prop :=
  match run_gcall c g with
  | (Ok r, g') => gstep g c r g'
  | (Err _, g') => g' = g /\ forall r g'', ~ gstep g c r g''
  | (Panic, _) => False
  end.

(** Run the monad up to the next undecided guard. *)
Ltac grun :=
  cbv [unit_call id_call mbind SE_bind mret SE_ret get_self set_self modify_self lift fail_if ok_or
       require_admin require_proposer require_executor require_guardian proposal_mut update_proposal
       next_id log_event set_emergency_paused ready_proposal] in *;
  cbn [negb andb orb] in *.

Ltac no_step :=
  split; [done|]; intros r g'' Hst; inversion Hst; simplify_eq/=; unfold paused, may_cancel, value_of, version_of in *;
  try done; try congruence; try lia; try naive_solver.

Ltac gate H := destruct H eqn:?; bprop; grun; [|try no_step].
Ltac gate_not H := destruct H eqn:?; bprop; grun; [try no_step|].

Lemma set_role_steps caller who p e g : steps (SetRole caller who p e) g.
Proof.
  unfold steps, run_gcall, set_role. grun. gate (bool_decide (caller = g_admin g)). subst. exact (gs_role g who p e).
Qed.
Lemma set_guardian_steps caller who b g : steps (SetGuardian caller who b) g.
Proof.
  unfold steps, run_gcall, set_guardian. grun. gate (bool_decide (caller = g_admin g)). subst. exact (gs_guardian g who b).
Qed.
Lemma set_key_steps caller k b g : steps (SetAllowedParamKey caller k b) g.
Proof.
  unfold steps, run_gcall, set_allowed_param_key. grun. gate (bool_decide (caller = g_admin g)).
  subst. exact (gs_key g k b).
Qed.

Lemma propose_steps caller k old new eta rh now g : steps (Propose caller k old new eta rh now) g.
Proof.
  unfold steps, run_gcall, propose. grun. gate (bool_decide (caller ∈ g_proposers g)).
  gate_not (eta <? saturating_add u64_max now (g_min_timelock_delay_secs g)).
  gate (bool_decide (k ∈ g_allowed_param_keys g)). by apply gs_propose.
Qed.

Lemma queue_steps caller id g : steps (Queue caller id) g.
Proof.
  unfold steps, run_gcall, queue. grun. gate (bool_decide (caller ∈ g_proposers g)).
  destruct (g_proposals g !! id) as [p|] eqn:Ep; [|no_step].
  destruct (finalized (p_status p)) eqn:Ef.
  { split; [done|]. intros r g'' Hst. inversion Hst; simplify_eq/=;
    match goal with H : p_status _ = _ |- _ => by rewrite H in Ef end. }
  gate (bool_decide (p_proposer p = caller)). gate (bool_decide (p_kind p = ProposalKind.ParamChange)).
  destruct (decide (p_status p = ProposalStatus.Queued)) as [Hq|Hq].
  { rewrite bool_decide_eq_true_2 by done. by eapply gs_queue_again. }
  rewrite bool_decide_eq_false_2 by done. gate (bool_decide (p_status p = ProposalStatus.Pending)).
  by eapply gs_queue.
Qed.

Lemma execute_steps caller id now g : steps (Execute caller id now) g.
Proof.
  unfold steps, run_gcall, execute. grun. gate (bool_decide (caller ∈ g_executors g)).
  destruct (g_proposals g !! id) as [p|] eqn:Ep; [|no_step]. grun.
  gate (bool_decide (p_kind p = ProposalKind.ParamChange)).
  destruct (finalized (p_status p)) eqn:Ef.
  { split; [done|]. intros r g'' Hst. inversion Hst; simplify_eq/=.
    match goal with H : p_status _ = _ |- _ => by rewrite H in Ef end. }
  gate (bool_decide (p_status p = ProposalStatus.Queued)).
  gate_not (now <? p_eta p).
  gate (bool_decide (p_param_key p ∈ g_allowed_param_keys g)).
  gate (bool_decide (p_base_version p = Some (default 0 (b_param_versions (g_bridge g) !! p_param_key p)))).
  gate (bool_decide (default [] (b_gov_params (g_bridge g) !! p_param_key p) = p_old_value p)).
  unfold set_bridge. cbn [g_proposals]. rewrite Ep. by eapply gs_execute.
Qed.

Lemma may_cancel_spec g caller p :
  (if bool_decide (caller ∈ g_guardians g) then true
   else if bool_decide (p_proposer p = caller) then
     match p_kind p with
     | ProposalKind.ParamChange => bool_decide (caller ∈ g_proposers g)
     | ProposalKind.EmergencyUnpause => bool_decide (caller ∈ g_guardians g)
     end
   else false) = true <-> may_cancel g caller p.
Proof.
  unfold may_cancel. destruct (decide (caller ∈ g_guardians g)) as [Hg|Hg].
  { rewrite bool_decide_eq_true_2 by done. naive_solver. }
  rewrite (bool_decide_eq_false_2 _ Hg).
  destruct (decide (p_proposer p = caller)) as [Hp|Hp].
  - rewrite bool_decide_eq_true_2 by done. destruct (p_kind p); rewrite ?bool_decide_eq_true; naive_solver.
  - rewrite bool_decide_eq_false_2 by done. naive_solver.
Qed.

Lemma cancel_steps caller id g : steps (Cancel caller id) g.
Proof.
  unfold steps, run_gcall, cancel. grun.
  destruct (g_proposals g !! id) as [p|] eqn:Ep; [|no_step].
  destruct (finalized (p_status p)) eqn:Ef; [no_step|].
  pose proof (may_cancel_spec g caller p) as Hmc.
  destruct (if bool_decide (caller ∈ g_guardians g) then true else _) eqn:Ea; grun.
  - rewrite bool_decide_eq_true_2 by done. grun. apply gs_cancel; [done..|by apply Hmc].
  - split; [done|]. intros r g'' Hst. inversion Hst; simplify_eq/=. naive_solver.
Qed.

Lemma emergency_pause_steps caller rh g : steps (EmergencyPause caller rh) g.
Proof.
  unfold steps, run_gcall, emergency_pause. grun. gate (bool_decide (caller ∈ g_guardians g)).
  destruct (b_emergency_paused (g_bridge g)) eqn:Ep; [by apply gs_pause_again|by apply gs_pause].
Qed.

Lemma existsb_active_spec g :
  existsb active_unpause (snd <$> map_to_list (g_proposals g)) = false <-> no_active_unpause g.
Proof.
  unfold no_active_unpause. rewrite <- not_true_iff_false, existsb_exists. split.
  - intros H id p Hp. apply not_true_iff_false. intros Ha. apply H. exists p. split; [|done].
    apply list_elem_of_In, list_elem_of_fmap. exists (id, p). by rewrite elem_of_map_to_list.
  - intros H (p & Hin & Ha). apply list_elem_of_In, list_elem_of_fmap in Hin as ([id p'] & -> & Hp).
    apply elem_of_map_to_list, H in Hp. simpl in Ha. congruence.
Qed.

Lemma schedule_steps caller eta rh now g : steps (ScheduleUnpause caller eta rh now) g.
Proof.
  unfold steps, run_gcall, schedule_unpause. grun. gate (bool_decide (caller ∈ g_guardians g)).
  gate (b_emergency_paused (g_bridge g)).
  gate_not (eta <? saturating_add u64_max now (g_min_timelock_delay_secs g)).
  destruct (existsb active_unpause (snd <$> map_to_list (g_proposals g))) eqn:Ex; grun.
  - split; [done|]. intros r g'' Hst. inversion Hst; simplify_eq/=.
    match goal with H : no_active_unpause _ |- _ => apply existsb_active_spec in H end. congruence.
  - apply existsb_active_spec in Ex. by apply gs_schedule.
Qed.

Lemma execute_unpause_steps caller id now g : steps (ExecuteUnpause caller id now) g.
Proof.
  unfold steps, run_gcall, execute_unpause. grun. gate (bool_decide (caller ∈ g_executors g)).
  gate_not (bool_decide (caller ∈ g_guardians g)).
  destruct (g_proposals g !! id) as [p|] eqn:Ep; [|no_step]. grun.
  gate (bool_decide (p_kind p = ProposalKind.EmergencyUnpause)).
  destruct (finalized (p_status p)) eqn:Ef.
  { split; [done|]. intros r g'' Hst. inversion Hst; simplify_eq/=.
    match goal with H : p_status _ = _ |- _ => by rewrite H in Ef end. }
  gate (bool_decide (p_status p = ProposalStatus.Queued)).
  gate_not (now <? p_eta p).
  gate (bool_decide (p_proposer p ∈ g_guardians g)).
  gate_not (bool_decide (p_proposer p = caller)).
  gate (b_emergency_paused (g_bridge g)).
  unfold set_bridge. cbn [g_proposals]. rewrite Ep.
  pose proof (gs_restore g caller id now p) as Hs. unfold logged in Hs. cbn -[str] in Hs |- *.
  unfold set_log in *. cbn -[str] in Hs |- *. rewrite <- app_assoc. cbn -[str]. by apply Hs.
Qed.

Lemma call_steps c g : steps c g.
Proof.
  destruct c; auto using set_role_steps, set_guardian_steps, set_key_steps, propose_steps, queue_steps,
    execute_steps, cancel_steps, emergency_pause_steps, schedule_steps, execute_unpause_steps.
  constructor.
Qed.
