(* ===== verification/GovernanceTheorems.v ===== *)
(** * GovernanceTheorems: what every history of the governance guard satisfies

    A history is any list of method calls from [GovernanceGuard::new]; the
    invariant [gov_ok n] holds after [n] calls, and the theorems are read off
    it.  Identifier freshness needs the 64-bit nonce not to saturate, hence the
    bound on the number of calls where ids matter. *)

From stdpp Require Import base gmap list strings.
From S2P Require Import Prelude AuditEvents Governance GovernanceSpec.

Definition g_step (g : GovernanceGuard) (c : GCall) : GovernanceGuard := (run_gcall c g).2.
Definition run_gcalls (g : GovernanceGuard) (cs : list GCall) : GovernanceGuard := foldl g_step g cs.

Lemma g_step_cases g c : g_step g c = g \/ exists r, gstep g c r (g_step g c).
Proof.
  unfold g_step. pose proof (call_steps c g) as H. unfold steps in H.
  destruct (run_gcall c g) as [[r|e|] g']; simpl; naive_solver.
Qed.

(** ** Parameter histories *)

(** Consecutive changes: each starts from the value the previous one left. *)
Fixpoint chained (v : rstring) (l : list Proposal) (w : rstring) : Prop :=
  match l with
  | [] => v = w
  | p :: l => p_old_value p = v /\ chained (p_new_value p) l w
  end.

Definition executed_change (k : rstring) (p : Proposal) : Prop :=
  p_kind p = ProposalKind.ParamChange /\ p_status p = ProposalStatus.Executed /\ p_param_key p = k.

Record param_history (g : GovernanceGuard) (k : rstring) (l : list Proposal) : Prop := {
  ph_exact : forall p, p ∈ l <-> (exists id, g_proposals g !! id = Some p) /\ executed_change k p;
  ph_version : version_of g k = zlen l;
  ph_base : forall i p, l !! i = Some p -> p_base_version p = Some (Z.of_nat i);
  ph_chain : chained [] l (value_of g k);
}.

Lemma chained_snoc v l w p : chained v l w -> p_old_value p = w -> chained v (l ++ [p]) (p_new_value p).
Proof. revert v. induction l as [|q l IH]; simpl; intros v; [naive_solver|]. intros [??] ?. auto. Qed.

(** Writing a proposal that is not an executed change, over one that is not,
    keeps the executed changes. *)
Lemma executed_changes_insert (m : gmap Z Proposal) id p' k q :
  (forall p, m !! id = Some p -> p_status p <> ProposalStatus.Executed) ->
  ~ executed_change k p' ->
  ((exists i, <[id := p']> m !! i = Some q) /\ executed_change k q <->
   (exists i, m !! i = Some q) /\ executed_change k q).
Proof.
  intros Hold Hnew. split; intros [[i Hi] Hq]; (split; [|done]).
  - destruct (decide (id = i)) as [<-|Hne]; [rewrite lookup_insert_eq in Hi; naive_solver|].
    rewrite lookup_insert_ne in Hi by done. eauto.
  - exists i. destruct (decide (id = i)) as [<-|Hne]; [|by rewrite lookup_insert_ne].
    exfalso. apply (Hold _ Hi). apply Hq.
Qed.

Lemma param_history_frame g g' k l :
  param_history g k l ->
  (forall q, (exists i, g_proposals g' !! i = Some q) /\ executed_change k q <->
             (exists i, g_proposals g !! i = Some q) /\ executed_change k q) ->
  version_of g' k = version_of g k -> value_of g' k = value_of g k -> param_history g' k l.
Proof.
  intros [He Hv Hb Hc] Hq Hver Hval. constructor; [|congruence|done|by rewrite Hval].
  intros p. rewrite Hq. apply He.
Qed.

(** ** The invariant *)

Definition executed_fields (p : Proposal) : Prop :=
  match p_status p with
  | ProposalStatus.Executed =>
      exists x t, p_executor p = Some x /\ p_executed_at p = Some t /\ p_eta p <= t
  | _ => p_executor p = None /\ p_executed_at p = None
  end.

Definition event_ok (e : GovernanceEvent.t) : Prop :=
  match e with
  | GovernanceEvent.ProposalExecuted _ _ _ _ _ _ (Some before) (Some after) => before <= after
  | _ => True
  end.

Record gov_ok (n : Z) (g : GovernanceGuard) : Prop := {
  go_nonce : 1 <= g_nonce g <= n + 1;
  go_ids : forall id p, g_proposals g !! id = Some p -> p_id p = id /\ id < g_nonce g;
  go_executed : forall id p, g_proposals g !! id = Some p -> executed_fields p;
  go_single : forall i j p q, g_proposals g !! i = Some p -> g_proposals g !! j = Some q ->
    active_unpause p = true -> active_unpause q = true -> i = j;
  go_paused : forall i p, g_proposals g !! i = Some p -> active_unpause p = true -> paused g = true;
  go_versions : forall k, 0 <= version_of g k <= n;
  go_history : forall k, exists l, param_history g k l;
  go_log : Forall event_ok (g_audit_log g);
}.

Lemma new_guard_ok admin guardian delay : gov_ok 0 (new_guard admin guardian delay).
Proof.
  constructor; cbn; try (by intros ? ? H; rewrite lookup_empty in H);
    try (by intros ? ? ? ? H; rewrite lookup_empty in H); try done; try lia.
  - intros k. exists []. constructor; try done; cbn.
    intros p. split; [by intros ?%elem_of_nil|]. intros [[i Hi] _]. by rewrite lookup_empty in Hi.
Qed.

(** The invariant after a step that writes one proposal. *)
Lemma gov_ok_write n g g' id p' :
  gov_ok n g -> g_proposals g' = <[id := p']> (g_proposals g) ->
  g_nonce g <= g_nonce g' <= n + 2 -> p_id p' = id -> id < g_nonce g' -> executed_fields p' ->
  (active_unpause p' = true -> paused g' = true /\
     forall j q, g_proposals g !! j = Some q -> active_unpause q = true -> j = id) ->
  (forall j q, j <> id -> g_proposals g !! j = Some q -> active_unpause q = true -> paused g' = true) ->
  (forall k, 0 <= version_of g' k <= n + 1) -> (forall k, exists l, param_history g' k l) ->
  Forall event_ok (g_audit_log g') -> gov_ok (n + 1) g'.
Proof.
  intros [] Hp Hn Hid Hlt Hex Hact Hpa Hver Hh Hlog.
  assert (Hl : forall j q, g_proposals g' !! j = Some q -> (j = id /\ q = p') \/ (j <> id /\ g_proposals g !! j = Some q)).
  { intros j q. rewrite Hp, lookup_insert_Some. naive_solver. }
  constructor; try done; [lia|..].
  - intros j q [[-> ->]|[_ Hq]]%Hl; [done|]. apply go_ids0 in Hq. lia.
  - intros j q [[-> ->]|[_ Hq]]%Hl; [done|]. by eapply go_executed0.
  - intros i j q q' [[-> ->]|[Hi Hq]]%Hl [[-> ->]|[Hj Hq']]%Hl; try done; intros Ha Ha'.
    + apply Hact in Ha as [_ Ha]. by eapply eq_sym, Ha.
    + apply Hact in Ha' as [_ Ha']. by eapply Ha'.
    + by eapply go_single0.
  - intros j q [[-> ->]|[Hj Hq]]%Hl Ha; [by apply Hact|]. by eapply Hpa.
Qed.

(** The invariant after a step that writes no proposal. *)
Lemma gov_ok_frame n g g' :
  gov_ok n g -> g_proposals g' = g_proposals g -> g_nonce g' = g_nonce g ->
  b_gov_params (g_bridge g') = b_gov_params (g_bridge g) ->
  b_param_versions (g_bridge g') = b_param_versions (g_bridge g) ->
  (paused g = true -> paused g' = true) ->
  Forall event_ok (g_audit_log g') -> gov_ok (n + 1) g'.
Proof.
  intros [] Hp Hn Hgp Hgv Hpa Hlog.
  assert (Hv : forall k, version_of g' k = version_of g k) by (intros; unfold version_of; by rewrite Hgv).
  assert (Hw : forall k, value_of g' k = value_of g k) by (intros; unfold value_of; by rewrite Hgp).
  constructor; rewrite ?Hp, ?Hn; eauto; [lia|..].
  - intros k. rewrite Hv. specialize (go_versions0 k). lia.
  - intros k. destruct (go_history0 k) as [l Hl]. exists l.
    eapply param_history_frame; eauto. intros. by rewrite Hp.
Qed.

(** The histories after a step that writes a proposal but executes no change. *)
Lemma histories_write n g g' id p' :
  gov_ok n g -> g_proposals g' = <[id := p']> (g_proposals g) ->
  (forall p, g_proposals g !! id = Some p -> p_status p <> ProposalStatus.Executed) ->
  (forall k, ~ executed_change k p') ->
  b_gov_params (g_bridge g') = b_gov_params (g_bridge g) ->
  b_param_versions (g_bridge g') = b_param_versions (g_bridge g) ->
  (forall k, 0 <= version_of g' k <= n + 1) /\ (forall k, exists l, param_history g' k l).
Proof.
  intros [] Hp Hold Hnew Hgp Hgv.
  assert (Hv : forall k, version_of g' k = version_of g k) by (intros; unfold version_of; by rewrite Hgv).
  assert (Hw : forall k, value_of g' k = value_of g k) by (intros; unfold value_of; by rewrite Hgp).
  split; intros k.
  - rewrite Hv. specialize (go_versions0 k). lia.
  - destruct (go_history0 k) as [l Hl]. exists l. eapply param_history_frame; eauto.
    intros q. rewrite Hp. by apply executed_changes_insert.
Qed.

Lemma version_of_with_param k v ver g k' :
  version_of (with_param k v ver g) k' = if decide (k = k') then ver else version_of g k'.
Proof.
  unfold version_of, with_param. cbn. destruct (decide (k = k')) as [<-|].
  - by rewrite lookup_insert_eq.
  - by rewrite lookup_insert_ne.
Qed.
Lemma value_of_with_param k v ver g k' :
  value_of (with_param k v ver g) k' = if decide (k = k') then v else value_of g k'.
Proof.
  unfold value_of, with_param. cbn. destruct (decide (k = k')) as [<-|].
  - by rewrite lookup_insert_eq.
  - by rewrite lookup_insert_ne.
Qed.

Lemma saturating_fits m a b : a + b <= m -> saturating_add m a b = a + b.
Proof. unfold saturating_add. lia. Qed.

(** Executing a change extends the history of its key by one entry. *)
Lemma history_execute n g g' id p caller now :
  gov_ok n g -> g_proposals g !! id = Some p ->
  p_kind p = ProposalKind.ParamChange -> p_status p = ProposalStatus.Queued ->
  p_base_version p = Some (version_of g (p_param_key p)) ->
  value_of g (p_param_key p) = p_old_value p ->
  g_proposals g' = <[id := mark_executed caller now p]> (g_proposals g) ->
  g_bridge g' = g_bridge (with_param (p_param_key p) (p_new_value p) (version_of g (p_param_key p) + 1) g) ->
  (forall k, 0 <= version_of g' k <= n + 1) /\ (forall k, exists l, param_history g' k l).
Proof.
  intros [] Hp Hk Hs Hb Hval Hps Hbr. set (p' := mark_executed caller now p).
  assert (Hv : forall k, version_of g' k = if decide (p_param_key p = k) then version_of g (p_param_key p) + 1
                                   else version_of g k).
  { intros k. rewrite <- version_of_with_param with (v := p_new_value p). unfold version_of. by rewrite Hbr. }
  assert (Hw : forall k, value_of g' k = if decide (p_param_key p = k) then p_new_value p else value_of g k).
  { intros k. rewrite <- value_of_with_param with (ver := version_of g (p_param_key p) + 1).
    unfold value_of. by rewrite Hbr. }
  split; intros k.
  { rewrite Hv. pose proof (go_versions0 k). pose proof (go_versions0 (p_param_key p)).
    destruct (decide _); lia. }
  destruct (go_history0 k) as [l Hl]. destruct (decide (p_param_key p = k)) as [<-|Hne].
  - exists (l ++ [p']). destruct Hl as [He Hver Hbase Hch]. constructor.
    + intros q. rewrite Hps, elem_of_app, list_elem_of_singleton, He.
      split.
      * intros [[[i Hi] Hq]| ->]; [|split; [exists id; by rewrite lookup_insert_eq|done]].
        split; [|done]. exists i. rewrite lookup_insert_ne; [done|]. intros <-. destruct Hq as (_ & Hq & _). congruence.
      * intros [[i Hi] Hq]. apply lookup_insert_Some in Hi as [[<- <-]|[_ Hi]]; [by right|left; eauto].
    + rewrite Hv, decide_True by done. unfold zlen in *. rewrite length_app, Hver. cbn. lia.
    + intros i q Hi. apply lookup_app_Some in Hi as [Hi|[Hle Hi]]; [by apply Hbase|].
      apply list_lookup_singleton_Some in Hi as [Hi <-]. cbn. rewrite Hb, Hver. unfold zlen. f_equal. lia.
    + rewrite Hw, decide_True by done. apply (chained_snoc _ l (p_old_value p) p'); [|done]. by rewrite <- Hval.
  - exists l. eapply param_history_frame; [done| |by rewrite Hv, decide_False|by rewrite Hw, decide_False].
    intros q. rewrite Hps. apply executed_changes_insert; [congruence|]. intros (_ & _ & Hq). by apply Hne.
Qed.

Lemma not_finalized_not_executed p : finalized (p_status p) = false -> p_status p <> ProposalStatus.Executed.
Proof. by destruct (p_status p). Qed.

Lemma executed_fields_open p : executed_fields p -> p_status p <> ProposalStatus.Executed ->
  p_executor p = None /\ p_executed_at p = None.
Proof. unfold executed_fields. by destruct (p_status p). Qed.

Lemma fresh_id_none n g : gov_ok n g -> g_proposals g !! g_nonce g = None.
Proof.
  intros []. destruct (_ !! g_nonce g) as [p|] eqn:E; [|done]. apply go_ids0 in E. lia.
Qed.

Lemma log_app g evs g' : Forall event_ok (g_audit_log g) -> Forall event_ok evs ->
  g_audit_log g' = g_audit_log g ++ evs -> Forall event_ok (g_audit_log g').
Proof. intros ? ? ->. by apply Forall_app. Qed.

Lemma active_status p : active_unpause p = true <->
  p_kind p = ProposalKind.EmergencyUnpause /\ finalized (p_status p) = false.
Proof.
  unfold active_unpause. rewrite andb_true_iff, bool_decide_eq_true. destruct (p_status p); cbn; naive_solver.
Qed.

(** Writing [p'] over an open proposal of the same kind activates nothing. *)
Lemma gov_ok_update n g g' id p p' :
  gov_ok n g -> g_proposals g !! id = Some p -> finalized (p_status p) = false ->
  g_proposals g' = <[id := p']> (g_proposals g) -> g_nonce g' = g_nonce g ->
  p_id p' = p_id p -> p_kind p' = p_kind p -> executed_fields p' ->
  (paused g' = paused g \/ active_unpause p = true /\ active_unpause p' = false) ->
  (forall k, 0 <= version_of g' k <= n + 1) -> (forall k, exists l, param_history g' k l) ->
  Forall event_ok (g_audit_log g') -> gov_ok (n + 1) g'.
Proof.
  intros Hok Hp Hf Hps Hn Hid Hkind Hex Hpa Hv Hh Hlog. pose proof (go_ids _ _ Hok _ _ Hp) as [Hpid Hlt].
  assert (Hact : active_unpause p' = true -> active_unpause p = true)
    by (rewrite !active_status; by rewrite Hkind; intros [-> _]).
  eapply gov_ok_write; try done; rewrite ?Hn; try (destruct (go_nonce _ _ Hok); lia); try congruence.
  - intros Ha. pose proof (Hact Ha) as Hap. split.
    + destruct Hpa as [->|[_ ?]]; [by eapply (go_paused _ _ Hok)|congruence].
    + intros j q Hq Hqa. by eapply (go_single _ _ Hok).
  - intros j q Hj Hq Hqa. destruct Hpa as [->|[Hap _]]; [by eapply (go_paused _ _ Hok)|].
    exfalso. apply Hj. by eapply (go_single _ _ Hok).
Qed.

Lemma gov_ok_step n g c r g' : gov_ok n g -> n + 2 <= u64_max -> gstep g c r g' -> gov_ok (n + 1) g'.
Proof.
  intros Hok Hn Hst. pose proof Hok as []. pose proof (fresh_id_none _ _ Hok) as Hfresh.
  destruct Hst as [ | | | | ? ? p ? Hp ? ? Hs | | ? ? ? p ? Hp Hk Hs ? ? Hb Hval | ? ? p Hp Hf ? | | | ? ? ? ? ? ? ? Hno
                  | ? ? ? p ? ? Hp Hk Hs | ];
    try (apply (gov_ok_frame n g); cbn; try done; by apply Forall_app_2; repeat constructor).
  - (* propose *)
    unfold bump_nonce. rewrite saturating_fits by lia. match goal with |- gov_ok _ ?g' => set (g2 := g') end.
    destruct (histories_write n g g2 (g_nonce g) (fresh_change g caller k old new eta rh)) as [Hv Hh];
      try done; [congruence|by intros ? (_ & ? & _)|].
    eapply gov_ok_write; try done; cbn; try lia; [intros ???; apply go_paused0|].
    apply Forall_app_2; [done|by repeat constructor].
  - (* queue *)
    match goal with |- gov_ok _ ?g' => set (g2 := g') end.
    destruct (histories_write n g g2 id
      (set_status ProposalStatus.Queued p)) as [Hv Hh]; try done; [congruence|by intros ? (_ & ? & _)|].
    eapply gov_ok_update; try done; [by rewrite Hs| |by left|apply Forall_app_2; [done|by repeat constructor]].
    apply (executed_fields_open p); [by eapply go_executed0|congruence].
  - (* execute *)
    assert (saturating_add u64_max (version_of g (p_param_key p)) 1 = version_of g (p_param_key p) + 1) as ->
      by (apply saturating_fits; specialize (go_versions0 (p_param_key p)); lia).
    match goal with |- gov_ok _ ?g' => set (g2 := g') end.
    destruct (history_execute n g g2 id p caller now)
      as [Hv Hh]; try done.
    eapply gov_ok_update; try done; [by rewrite Hs| |by left|].
    + cbn. eauto.
    + apply Forall_app_2; [done|]. repeat constructor. cbn. lia.
  - (* cancel *)
    match goal with |- gov_ok _ ?g' => set (g2 := g') end.
    destruct (histories_write n g g2 id
      (set_status ProposalStatus.Cancelled p)) as [Hv Hh]; try done;
      [intros ??; apply not_finalized_not_executed; congruence|by intros ? (_ & ? & _)|].
    eapply gov_ok_update; try done; [|by left|apply Forall_app_2; [done|by repeat constructor]].
    apply (executed_fields_open p); [by eapply go_executed0|by apply not_finalized_not_executed].
  - (* schedule *)
    unfold bump_nonce. rewrite saturating_fits by lia. match goal with |- gov_ok _ ?g' => set (g2 := g') end.
    destruct (histories_write n g g2 (g_nonce g) (fresh_unpause g caller eta rh)) as [Hv Hh];
      try done; [congruence|by intros ? (? & ? & _)|].
    eapply gov_ok_write; try done; cbn; try lia.
    + intros _. split; [done|]. intros j q Hq Hqa. apply Hno in Hq. congruence.
    + apply Forall_app_2; [done|by repeat constructor].
  - (* restore *)
    match goal with |- gov_ok _ ?g' => set (g2 := g') end.
    destruct (histories_write n g g2 id
      (mark_executed caller now p)) as [Hv Hh]; try done; [congruence|intros ? (? & ? & _); cbn in *; congruence|].
    eapply gov_ok_update; try done; [by rewrite Hs| | |apply Forall_app_2; [done|by repeat constructor]].
    + cbn. eauto.
    + right. rewrite active_status, Hk, Hs. split; [done|].
      apply not_true_iff_false. rewrite active_status. by intros [_ ?].
Qed.

Lemma gov_ok_weaken n g : gov_ok n g -> gov_ok (n + 1) g.
Proof. intros Hok. apply (gov_ok_frame n g); try done. apply Hok. Qed.

Lemma run_gcalls_ok n g cs :
  gov_ok n g -> n + zlen cs + 1 <= u64_max -> gov_ok (n + zlen cs) (run_gcalls g cs).
Proof.
  unfold zlen. revert n g. induction cs as [|c cs IH]; intros n g Hok Hn; cbn in *.
  - by rewrite Z.add_0_r.
  - rewrite Nat2Z.inj_succ in *. replace (n + Z.succ (Z.of_nat (length cs))) with (n + 1 + Z.of_nat (length cs)) by lia.
    apply IH; [|lia]. destruct (g_step_cases g c) as [->|[r Hst]]; [by apply gov_ok_weaken|].
    eapply gov_ok_step; [done|lia|done].
Qed.

Lemma reachable_ok admin guardian delay cs :
  zlen cs + 1 <= u64_max -> gov_ok (zlen cs) (run_gcalls (new_guard admin guardian delay) cs).
Proof. intros Hn. apply (run_gcalls_ok 0 _ cs (new_guard_ok _ _ _)). lia. Qed.

(** ** The life of one proposal *)

(** What never changes in a proposal. *)
Definition same_terms (p q : Proposal) : Prop :=
  p_id q = p_id p /\ p_kind q = p_kind p /\ p_proposer q = p_proposer p /\ p_eta q = p_eta p /\
  p_param_key q = p_param_key p /\ p_old_value q = p_old_value p /\ p_new_value q = p_new_value p /\
  p_base_version q = p_base_version p /\ p_reason_hash q = p_reason_hash p.

Definition status_rank (st : ProposalStatus.t) : Z :=
  match st with ProposalStatus.Pending => 0 | ProposalStatus.Queued => 1 | _ => 2 end.

Definition evolves (p q : Proposal) : Prop :=
  same_terms p q /\ status_rank (p_status p) <= status_rank (p_status q) /\
  (finalized (p_status p) = true -> q = p).

Lemma guard_evolves_refl p : evolves p p.
Proof. by repeat split; try lia. Qed.

Lemma same_terms_trans p q r : same_terms p q -> same_terms q r -> same_terms p r.
Proof. unfold same_terms. intros. destruct_and!. split_and!; congruence. Qed.

Lemma evolves_trans p q r : evolves p q -> evolves q r -> evolves p r.
Proof.
  intros (? & ? & Hf) (? & ? & Hf'). split_and!; [by eapply same_terms_trans|lia|].
  intros Hp. specialize (Hf Hp) as ->. auto.
Qed.

Lemma evolves_update p q :
  same_terms p q -> finalized (p_status p) = false -> status_rank (p_status p) <= status_rank (p_status q) ->
  evolves p q.
Proof. intros ? Hf ?. split_and!; [done|done|]. congruence. Qed.

Lemma gstep_evolves n g c r g' id p :
  gov_ok n g -> gstep g c r g' -> g_proposals g !! id = Some p ->
  exists q, g_proposals g' !! id = Some q /\ evolves p q.
Proof.
  intros Hok Hst Hp. pose proof (fresh_id_none _ _ Hok) as Hfresh. pose proof (guard_evolves_refl p).
  destruct Hst as [ | | | | ? i p0 ? Hp0 ? ? Hs | | ? i ? p0 ? Hp0 ? Hs | ? i p0 Hp0 Hs | | | | ? i ? p0 ? ? Hp0 ? Hs | ];
    cbn; eauto; try (rewrite lookup_insert_ne by congruence; by eauto);
    (destruct (decide (i = id)) as [->|]; [rewrite lookup_insert_eq|rewrite lookup_insert_ne by done; by eauto]);
    simplify_eq; (eexists; split; [done|]; apply evolves_update; [done| |]; cbn; rewrite ?Hs; try done; try lia);
    match goal with |- status_rank (p_status ?x) <= _ => destruct (p_status x); cbn; lia end.
Qed.

Lemma run_gcalls_evolves n g cs id p :
  gov_ok n g -> n + zlen cs + 1 <= u64_max -> g_proposals g !! id = Some p ->
  exists q, g_proposals (run_gcalls g cs) !! id = Some q /\ evolves p q.
Proof.
  unfold zlen. revert n g p. induction cs as [|c cs IH]; intros n g p Hok Hn Hp; cbn [length] in *.
  - exists p. split; [done|apply guard_evolves_refl].
  - rewrite Nat2Z.inj_succ in Hn. change (run_gcalls g (c :: cs)) with (run_gcalls (g_step g c) cs).
    destruct (g_step_cases g c) as [->|[r Hst]].
    + apply (IH (n + 1)); [by apply gov_ok_weaken|lia|done].
    + destruct (gstep_evolves _ _ _ _ _ _ _ Hok Hst Hp) as (q & Hq & Hev).
      destruct (IH (n + 1) (g_step g c) q) as (q' & Hq' & Hev'); [eapply gov_ok_step; eauto; lia|lia|done|].
      eauto using evolves_trans.
Qed.

Lemma run_gcalls_delay g cs :
  g_min_timelock_delay_secs (run_gcalls g cs) = g_min_timelock_delay_secs g.
Proof.
  revert g. induction cs as [|c cs IH]; intros g; [done|].
  change (run_gcalls g (c :: cs)) with (run_gcalls (g_step g c) cs). rewrite IH.
  destruct (g_step_cases g c) as [->|[r Hst]]; [done|]. by destruct Hst.
Qed.

Lemma normalize_ok {E} g e : event_ok e -> exists n, normalize_audit_event (E := E) g e = Ok n.
Proof.
  destruct e as [ | |? ? ? k o w b a| | | | | ]; cbn -[str dec]; intros He; eauto.
  destruct b as [b|], a as [a|]; cbn -[str dec]; eauto. rewrite checked_sub_fits by done. cbn -[str dec]. eauto.
Qed.

(** ** Theorems *)

(** C13: the guard refines its transition system.  On every state whatever, a
    method call that returns [Ok] makes exactly one transition of [gstep] with
    the id it returns, a call that returns [Err] leaves the whole state
    unchanged and has no transition, and no call panics. *)
Theorem governance_refines_steps c g :
  match run_gcall c g with
  | (Ok r, g') => gstep g c r g'
  | (Err _, g') => g' = g /\ forall r g'', ~ gstep g c r g''
  | (Panic, _) => False
  end.
Proof. apply call_steps. Qed.

(** C14: parameter changes are serialized.  After any history, the executed
    changes of a parameter form one chain: the i-th one was based on version i,
    started from the value its predecessor left (the empty string first), the
    current value is what the last one wrote and the current version is their
    number.  No update is lost and none is applied twice. *)
Theorem parameter_changes_are_serialized admin guardian delay cs k :
  zlen cs + 1 <= u64_max ->
  exists l, param_history (run_gcalls (new_guard admin guardian delay) cs) k l.
Proof. intros Hn. apply (reachable_ok admin guardian delay cs Hn). Qed.

(** C15: the timelock holds.  A proposal created at time [now] that is found
    executed after any further history was executed at a recorded time no
    earlier than [now] plus the minimum delay (saturating), by a recorded
    executor. *)
Theorem timelock_enforced admin guardian delay cs cs' c now id g' q :
  zlen cs + zlen cs' + 2 <= u64_max ->
  (exists caller k old new eta rh, c = Propose caller k old new eta rh now) \/
  (exists caller eta rh, c = ScheduleUnpause caller eta rh now) ->
  run_gcall c (run_gcalls (new_guard admin guardian delay) cs) = (Ok (Some id), g') ->
  proposal (run_gcalls g' cs') id = Some q -> p_status q = ProposalStatus.Executed ->
  exists x t, p_executor q = Some x /\ p_executed_at q = Some t /\
    saturating_add u64_max now delay <= t.
Proof.
  intros Hn Hc Hrun Hq Hs. pose proof (Zle_0_nat (length cs)). pose proof (Zle_0_nat (length cs')).
  unfold zlen in *. pose proof (reachable_ok admin guardian delay cs) as Hok. unfold zlen in Hok.
  specialize (Hok ltac:(lia)). set (g := run_gcalls _ cs) in *.
  pose proof (call_steps c g) as Hst. unfold steps in Hst. rewrite Hrun in Hst.
  assert (Hok' : gov_ok (Z.of_nat (length cs) + 1) g') by (eapply gov_ok_step; eauto; lia).
  assert (exists p, g_proposals g' !! id = Some p /\
    saturating_add u64_max now delay <= p_eta p) as (p & Hp & Heta).
  { assert (Hdelay : g_min_timelock_delay_secs g = delay) by apply run_gcalls_delay. rewrite <- Hdelay.
    destruct Hc as [(? & ? & ? & ? & ? & ? & ->)|(? & ? & ? & ->)]; inversion Hst; simplify_eq; cbn;
    rewrite lookup_insert_eq; by eexists. }
  destruct (run_gcalls_evolves _ _ cs' _ _ Hok' ltac:(unfold zlen; lia) Hp) as (q' & Hq' & (Hsame & _)).
  unfold proposal in Hq. simplify_eq. destruct Hsame as (_ & _ & _ & Heq & _).
  assert (Hokq : gov_ok (Z.of_nat (length cs) + 1 + zlen cs') (run_gcalls g' cs'))
    by (apply run_gcalls_ok; [done|unfold zlen; lia]).
  apply (go_executed _ _ Hokq) in Hq. unfold executed_fields in Hq. rewrite Hs in Hq.
  destruct Hq as (x & t & ? & ? & ?). exists x, t. split_and!; try done. lia.
Qed.

(** Pause discipline.  After any history at most one restore proposal is
    open, and only while the pause is active; and whenever a call lifts the
    pause, it is [execute_unpause] on a queued restore past its eta, scheduled
    by a guardian, executed by an executor who is not a guardian. *)
Theorem pause_restore_discipline admin guardian delay cs c g :
  zlen cs + 1 <= u64_max -> g = run_gcalls (new_guard admin guardian delay) cs ->
  (forall i j p q, proposal g i = Some p -> proposal g j = Some q ->
     active_unpause p = true -> active_unpause q = true -> i = j /\ paused g = true) /\
  (paused g = true -> paused ((run_gcall c g).2) = false ->
   exists caller id now p, c = ExecuteUnpause caller id now /\ proposal g id = Some p /\
     caller ∈ g_executors g /\ (caller ∉ g_guardians g) /\ p_proposer p ∈ g_guardians g /\
     active_unpause p = true /\ p_eta p <= now).
Proof.
  intros Hn ->. pose proof (reachable_ok admin guardian delay cs Hn) as Hok. split.
  - intros i j p q Hi Hj Hp Hq. split; [by eapply (go_single _ _ Hok)|by eapply (go_paused _ _ Hok)].
  - intros Hp Hp'. fold (g_step (run_gcalls (new_guard admin guardian delay) cs) c) in Hp'.
    destruct (g_step_cases (run_gcalls (new_guard admin guardian delay) cs) c) as [E|[r Hst]]; [congruence|].
    set (g' := g_step _ c) in *. clearbody g'.
    unfold paused in *. revert Hp'. inversion Hst; cbn; try congruence; intros _.
    do 4 eexists. repeat (split; [done|]). split; [|done].
    apply active_status. match goal with H : p_status _ = _ |- _ => by rewrite H end.
Qed.

(** proposals only move forward.  Whatever happens after a proposal
    exists, it still exists with the same terms, its status never goes back, and
    an executed or cancelled proposal never changes again. *)
Theorem proposals_only_move_forward admin guardian delay cs cs' id p :
  zlen cs + zlen cs' + 1 <= u64_max ->
  proposal (run_gcalls (new_guard admin guardian delay) cs) id = Some p ->
  exists q, proposal (run_gcalls (new_guard admin guardian delay) (cs ++ cs')) id = Some q /\ evolves p q.
Proof.
  intros Hn Hp. pose proof (Zle_0_nat (length cs')). unfold run_gcalls at 1. rewrite foldl_app.
  eapply run_gcalls_evolves; [apply reachable_ok| |done]; unfold zlen in *; lia.
Qed.

(** The audit log can always be normalized: after any history the version
    subtraction of [normalize_audit_event] never underflows, so
    [normalized_audit_log] returns one record per event. *)
Theorem normalized_log_total E admin guardian delay cs g :
  zlen cs + 1 <= u64_max -> g = run_gcalls (new_guard admin guardian delay) cs ->
  exists ns, normalized_audit_log (E := E) g = Ok ns /\ length ns = length (g_audit_log g).
Proof.
  intros Hn ->. pose proof (go_log _ _ (reachable_ok admin guardian delay cs Hn)) as Hlog.
  unfold normalized_audit_log. set (g := run_gcalls _ cs) in *. revert Hlog. generalize (g_audit_log g).
  induction 1 as [|e l He Hl (ns & Hns & Hlen)]; [by exists []|].
  destruct (normalize_ok (E := E) g e He) as [n Hnorm]. exists (n :: ns). cbn -[str].
  rewrite Hnorm. cbn -[str]. rewrite Hns. cbn. by rewrite Hlen.
Qed.

(** ** The governance theorems on concrete histories

    One parameter change carried through its timelock, one pause with its
    restore, and the theorems above applied to them. *)

Module GovernanceWitness.

Definition gw_admin : rstring := str "a".
Definition gw_guardian : rstring := str "g".
Definition gw_prop : rstring := str "p".
Definition gw_exec : rstring := str "e".
Definition gw_key : rstring := str "k".
Definition gw_setup : list GCall :=
  [SetRole gw_admin gw_prop true false; SetRole gw_admin gw_exec false true;
   SetAllowedParamKey gw_admin gw_key true].
Definition gw_propose : GCall := Propose gw_prop gw_key [] (str "v") 20 (str "h") 5.
Definition gw_finish : list GCall := [Queue gw_prop 1; Execute gw_exec 1 19; Execute gw_exec 1 20].
Definition gw_new : GovernanceGuard := new_guard gw_admin gw_guardian 10.
Definition gw_after : GovernanceGuard := (run_gcall gw_propose (run_gcalls gw_new gw_setup)).2.

(** The change takes effect at its eta and not before. *)
Example gw_executes :
  (fun g => (value_of g gw_key, version_of g gw_key, p_executed_at <$> proposal g 1))
    (run_gcalls gw_after gw_finish) = (str "v", 1, Some (Some 20)).
Proof. vm_compute. reflexivity. Qed.

Lemma parameter_changes_are_serialized_witness :
  exists l, param_history (run_gcalls gw_new (gw_setup ++ gw_propose :: gw_finish)) gw_key l.
Proof. apply (parameter_changes_are_serialized gw_admin gw_guardian 10). vm_compute. congruence. Defined.

Definition gw_executed : Proposal :=
  mkProposal 1 ProposalKind.ParamChange gw_prop (Some gw_exec) 20 gw_key [] (str "v") (Some 0) (str "h")
    ProposalStatus.Executed (Some 20).

Lemma timelock_enforced_witness :
  exists x t, p_executor gw_executed = Some x /\ p_executed_at gw_executed = Some t /\
    saturating_add u64_max 5 10 <= t.
Proof.
  apply (timelock_enforced gw_admin gw_guardian 10 gw_setup gw_finish gw_propose 5 1 gw_after gw_executed).
  - vm_compute. congruence.
  - left. exists gw_prop, gw_key, [], (str "v"), 20, (str "h"). reflexivity.
  - vm_compute. reflexivity.
  - vm_compute. reflexivity.
  - reflexivity.
Defined.

Definition gw_pausing : list GCall :=
  gw_setup ++ [EmergencyPause gw_guardian (str "h"); ScheduleUnpause gw_guardian 30 (str "r") 20].

Lemma pause_restore_discipline_witness :
  exists caller id now p, ExecuteUnpause gw_exec 1 30 = ExecuteUnpause caller id now /\
     proposal (run_gcalls gw_new gw_pausing) id = Some p /\
     caller ∈ g_executors (run_gcalls gw_new gw_pausing) /\
     (caller ∉ g_guardians (run_gcalls gw_new gw_pausing)) /\
     p_proposer p ∈ g_guardians (run_gcalls gw_new gw_pausing) /\
     active_unpause p = true /\ p_eta p <= now.
Proof.
  apply (pause_restore_discipline gw_admin gw_guardian 10 gw_pausing (ExecuteUnpause gw_exec 1 30)
    (run_gcalls gw_new gw_pausing)).
  - vm_compute. congruence.
  - reflexivity.
  - vm_compute. reflexivity.
  - vm_compute. reflexivity.
Defined.

Definition gw_pending : Proposal :=
  mkProposal 1 ProposalKind.ParamChange gw_prop None 20 gw_key [] (str "v") (Some 0) (str "h")
    ProposalStatus.Pending None.

Lemma proposals_only_move_forward_witness :
  exists q, proposal (run_gcalls gw_new ((gw_setup ++ [gw_propose]) ++ gw_finish)) 1 = Some q /\
    evolves gw_pending q.
Proof.
  apply (proposals_only_move_forward gw_admin gw_guardian 10).
  - vm_compute. congruence.
  - vm_compute. reflexivity.
Defined.

Lemma normalized_log_total_witness :
  let g := run_gcalls gw_new (gw_setup ++ gw_propose :: gw_finish) in
  exists ns, normalized_audit_log (E := GovError.t) g = Ok ns /\ length ns = length (g_audit_log g).
Proof.
  intros g. apply (normalized_log_total GovError.t gw_admin gw_guardian 10 (gw_setup ++ gw_propose :: gw_finish)).
  - vm_compute. congruence.
  - reflexivity.
Defined.

End GovernanceWitness.
