(* ===== verification/SettlementTypes.v ===== *)
(** * SettlementTypes: the data of [trnm-service-settlement]

    The records of [types.rs] (field for field), the protocol context of
    [trnm-task-kernel] they embed, the error codes of [error.rs], and the class
    of the third-party functions the engine calls. *)

From stdpp Require Import base gmap list sorting strings.
From S2P Require Import Prelude.

Definition SCHEMA_VERSION_V1 : Z := 1.
Definition KEY_ROLE_BILATERAL_RECEIPT_V1 : Z := 4.
Definition SIGNATURE_SCHEME_ED25519_V1 : Z := 0.
Definition RESULT_STATUS_FINAL_VALID_V1 : Z := 3.
Definition SETTLEMENT_MATURITY_NOT_STARTED_V1 : Z := 0.
Definition SETTLEMENT_MATURITY_FINAL_V1 : Z := 2.

(** A 32-byte identifier or digest as its bytes. *)
Abbreviation Hash32V1 := (list Z).
(** [Hash32V1::default()] *)
Definition default_hash : Hash32V1 := replicate 32 0.

Record ProtocolContextV1 := mkContext {
  ctx_genesis_hash : Hash32V1;
  ctx_chain_id : rstring;
  ctx_protocol_version : Z;
  ctx_stack_profile_hash : Hash32V1;
}.
#[export] Instance ProtocolContextV1_eq_dec : EqDecision ProtocolContextV1.
Proof. solve_decision. Defined.

Record RegisteredBilateralKeyV1 := mkKey {
  bk_agent_id : Hash32V1;
  bk_key_id : Hash32V1;
  bk_public_key : Hash32V1;
  bk_policy_revision : Z;
  bk_key_generation : Z;
}.

Record ConsumptionPriceV1 := mkPrice {
  pr_resource_class : Z;
  pr_resource_id : list Z;
  pr_meter_id : list Z;
  pr_meter_version : Z;
  pr_unit : Z;
  pr_unit_price : Z;
}.
#[export] Instance ConsumptionPriceV1_eq_dec : EqDecision ConsumptionPriceV1.
Proof. solve_decision. Defined.
#[export] Instance ConsumptionPriceV1_ord : RustOrd ConsumptionPriceV1 :=
  derive_ord (fun x => (pr_resource_class x, pr_resource_id x, pr_meter_id x, pr_meter_version x, pr_unit x, pr_unit_price x))
    ltac:(intros [] []; simpl; congruence).

Record SettlementPolicyV1 := mkPolicy {
  pol_schema_version : Z;
  pol_policy_revision : Z;
  pol_minimum_rollup_challenge_blocks : Z;
  pol_maximum_rollups : Z;
  pol_protocol_fee_numerator : Z;
  pol_protocol_fee_denominator : Z;
  pol_fee_schedule_hash : Hash32V1;
}.

Record ConsumptionSettlementFreshGenesisTrustBundleV1 := mkTrust {
  tr_schema_version : Z;
  tr_context : ProtocolContextV1;
  tr_initial_order_height : Z;
  tr_initial_order_block_id : Hash32V1;
  tr_provider : RegisteredBilateralKeyV1;
  tr_consumer : RegisteredBilateralKeyV1;
  tr_task_id : Hash32V1;
  tr_lease_id : Hash32V1;
  tr_attempt : Z;
  tr_result_id : Hash32V1;
  tr_result_revision : Z;
  tr_result_status : Z;
  tr_escrow_id : Hash32V1;
  tr_escrow_version : Z;
  tr_asset_id : Hash32V1;
  tr_escrow_funding : Z;
  tr_provider_account_id : Hash32V1;
  tr_consumer_account_id : Hash32V1;
  tr_protocol_account_id : Hash32V1;
  tr_provider_opening_balance : Z;
  tr_consumer_opening_balance : Z;
  tr_protocol_opening_balance : Z;
  tr_prices : list ConsumptionPriceV1;
  tr_accepted_evidence_certificates : list Hash32V1;
  tr_related_party_policy_hash : Hash32V1;
  tr_settlement_policy : SettlementPolicyV1;
}.

Record ConsumptionCommittedExecutionContextV1 := mkExecution {
  ex_schema_version : Z;
  ex_context : ProtocolContextV1;
  ex_expected_order_height : Z;
  ex_expected_order_block_id : Hash32V1;
  ex_order_height : Z;
  ex_order_block_id : Hash32V1;
}.

Record ResourceUsageV1 := mkUsage {
  ru_resource_class : Z;
  ru_resource_id : list Z;
  ru_meter_id : list Z;
  ru_meter_version : Z;
  ru_amount : Z;
  ru_unit : Z;
  ru_measurement_commitment : Hash32V1;
}.
#[export] Instance ResourceUsageV1_eq_dec : EqDecision ResourceUsageV1.
Proof. solve_decision. Defined.
#[export] Instance ResourceUsageV1_ord : RustOrd ResourceUsageV1 :=
  derive_ord (fun x => (ru_resource_class x, ru_resource_id x, ru_meter_id x, ru_meter_version x, ru_amount x, ru_unit x, ru_measurement_commitment x))
    ltac:(intros [] []; simpl; congruence).

Record CumulativeResourceUsageV1 := mkCumulative {
  cu_resource_class : Z;
  cu_resource_id : list Z;
  cu_meter_id : list Z;
  cu_meter_version : Z;
  cu_total_amount : Z;
  cu_unit : Z;
  cu_accumulator_commitment : Hash32V1;
}.
#[export] Instance CumulativeResourceUsageV1_eq_dec : EqDecision CumulativeResourceUsageV1.
Proof. solve_decision. Defined.
#[export] Instance CumulativeResourceUsageV1_ord : RustOrd CumulativeResourceUsageV1 :=
  derive_ord (fun x => (cu_resource_class x, cu_resource_id x, cu_meter_id x, cu_meter_version x, cu_total_amount x, cu_unit x, cu_accumulator_commitment x))
    ltac:(intros [] []; simpl; congruence).

Record ConsumptionReceiptBodyV1 := mkReceiptBody {
  rb_schema_version : Z;
  rb_context : ProtocolContextV1;
  rb_provider_id : Hash32V1;
  rb_consumer_id : Hash32V1;
  rb_task_id : Hash32V1;
  rb_lease_id : Hash32V1;
  rb_attempt : Z;
  rb_result_id : Hash32V1;
  rb_meter_id : list Z;
  rb_meter_version : Z;
  rb_sequence : Z;
  rb_period_start_height : Z;
  rb_period_end_height : Z;
  rb_usage : list ResourceUsageV1;
  rb_prior_receipt_id : option Hash32V1;
  rb_cumulative_usage : list CumulativeResourceUsageV1;
  rb_cumulative_usage_root : Hash32V1;
  rb_cumulative_charge : Z;
  rb_evidence_certificate_id : Hash32V1;
  rb_related_party_policy_hash : Hash32V1;
}.
#[export] Instance ConsumptionReceiptBodyV1_eq_dec : EqDecision ConsumptionReceiptBodyV1.
Proof. solve_decision. Defined.

Record BilateralSignatureEntryV1 := mkEntry {
  se_agent_id : Hash32V1;
  se_key_id : Hash32V1;
  se_key_role : Z;
  se_policy_revision : Z;
  se_key_generation : Z;
  se_authority_height : Z;
  se_signature_scheme : Z;
  se_signature : list Z;
}.
#[export] Instance BilateralSignatureEntryV1_eq_dec : EqDecision BilateralSignatureEntryV1.
Proof. solve_decision. Defined.

Record BilateralSignatureStatementV1 := mkStatement {
  ss_schema_version : Z;
  ss_body_id : Hash32V1;
  ss_agent_id : Hash32V1;
  ss_key_id : Hash32V1;
  ss_key_role : Z;
  ss_policy_revision : Z;
  ss_key_generation : Z;
  ss_authority_height : Z;
}.

Record ConsumptionReceiptV1 := mkReceipt {
  cr_body : ConsumptionReceiptBodyV1;
  cr_provider_signature : BilateralSignatureEntryV1;
  cr_consumer_signature : BilateralSignatureEntryV1;
}.
#[export] Instance ConsumptionReceiptV1_eq_dec : EqDecision ConsumptionReceiptV1.
Proof. solve_decision. Defined.

Record ConsumptionReceiptStateV1 := mkReceiptState {
  rs_receipt : ConsumptionReceiptV1;
  rs_receipt_id : Hash32V1;
  rs_version : Z;
  rs_status : Z;
  rs_assigned_rollup_id : option Hash32V1;
  rs_accepted_height : Z;
}.

Record ConsumptionRollupBodyV1 := mkRollupBody {
  ob_schema_version : Z;
  ob_context : ProtocolContextV1;
  ob_provider_id : Hash32V1;
  ob_consumer_id : Hash32V1;
  ob_task_id : Hash32V1;
  ob_lease_id : Hash32V1;
  ob_attempt : Z;
  ob_result_id : Hash32V1;
  ob_meter_id : list Z;
  ob_meter_version : Z;
  ob_first_sequence : Z;
  ob_last_sequence : Z;
  ob_receipt_ids : list Hash32V1;
  ob_receipt_count : Z;
  ob_receipts_root : Hash32V1;
  ob_usage_totals : list ResourceUsageV1;
  ob_total_charge : Z;
  ob_evidence_certificate_id : Hash32V1;
  ob_escrow_id : Hash32V1;
  ob_settlement_policy_hash : Hash32V1;
  ob_related_party_policy_hash : Hash32V1;
}.

Record ConsumptionRollupV1 := mkRollup {
  ro_body : ConsumptionRollupBodyV1;
  ro_provider_signature : BilateralSignatureEntryV1;
  ro_consumer_signature : BilateralSignatureEntryV1;
}.

Record ConsumptionRollupStateV1 := mkRollupState {
  rst_rollup : ConsumptionRollupV1;
  rst_rollup_id : Hash32V1;
  rst_version : Z;
  rst_accepted_height : Z;
  rst_challenge_close_height : Z;
  rst_status : Z;
  rst_consumed_by_settlement_id : option Hash32V1;
}.

Record SettlementOperationBodyV1 := mkOperation {
  op_schema_version : Z;
  op_context : ProtocolContextV1;
  op_task_id : Hash32V1;
  op_lease_id : Hash32V1;
  op_attempt : Z;
  op_result_id : Hash32V1;
  op_expected_result_revision : Z;
  op_expected_escrow_version : Z;
  op_expected_rollup_version : Z;
  op_settlement_policy_hash : Hash32V1;
}.

Record SettlementInputV1 := mkInput {
  inp_asset_id : Hash32V1;
  inp_escrow_id : Hash32V1;
  inp_escrow_version : Z;
  inp_amount : Z;
}.

Record ValueDeltaV1 := mkDelta {
  vd_asset_id : Hash32V1;
  vd_account_id : Hash32V1;
  vd_reason : Z;
  vd_amount : Z;
}.
#[export] Instance ValueDeltaV1_eq_dec : EqDecision ValueDeltaV1.
Proof. solve_decision. Defined.
#[export] Instance ValueDeltaV1_ord : RustOrd ValueDeltaV1 :=
  derive_ord (fun x => (vd_asset_id x, vd_account_id x, vd_reason x, vd_amount x))
    ltac:(intros [] []; simpl; congruence).

Record SettlementIntentV1 := mkIntent {
  it_schema_version : Z;
  it_context : ProtocolContextV1;
  it_task_id : Hash32V1;
  it_lease_id : Hash32V1;
  it_attempt : Z;
  it_result_id : Hash32V1;
  it_result_revision : Z;
  it_result_status : Z;
  it_settlement_maturity : Z;
  it_escrow_id : Hash32V1;
  it_consumption_rollup_ids : list Hash32V1;
  it_fee_schedule_hash : Hash32V1;
  it_settlement_policy_hash : Hash32V1;
  it_inputs : list SettlementInputV1;
  it_input_value_root : Hash32V1;
  it_planned_deltas : list ValueDeltaV1;
  it_planned_deltas_root : Hash32V1;
  it_conservation_root : Hash32V1;
}.

Record PostAccountVersionEntryV1 := mkPost {
  pa_account_id : Hash32V1;
  pa_prior_version : Z;
  pa_post_version : Z;
  pa_post_value_hash : Hash32V1;
}.

Record SettlementReceiptV1 := mkSettlementReceipt {
  sr_schema_version : Z;
  sr_context : ProtocolContextV1;
  sr_settlement_id : Hash32V1;
  sr_task_id : Hash32V1;
  sr_lease_id : Hash32V1;
  sr_result_id : Hash32V1;
  sr_escrow_id : Hash32V1;
  sr_applied_deltas : list ValueDeltaV1;
  sr_post_account_versions : list PostAccountVersionEntryV1;
  sr_post_account_versions_root : Hash32V1;
  sr_post_escrow_version : Z;
}.

Record SettlementStateV1 := mkSettlement {
  st_settlement_id : Hash32V1;
  st_state_version : Z;
  st_intent : SettlementIntentV1;
  st_status : Z;
  st_receipt : SettlementReceiptV1;
  st_applied_height : Z;
}.

Record AccountBalanceStateV1 := mkAccount {
  ac_account_id : Hash32V1;
  ac_version : Z;
  ac_balance : Z;
}.

Record EscrowBalanceStateV1 := mkEscrow {
  es_escrow_id : Hash32V1;
  es_version : Z;
  es_balance : Z;
  es_closed : bool;
  es_last_settlement_id : option Hash32V1;
}.

Record ResultSettlementStateV1 := mkResult {
  res_result_id : Hash32V1;
  res_revision : Z;
  res_result_status : Z;
  res_settlement_maturity : Z;
  res_settlement_id : option Hash32V1;
}.

Record ConsumptionSettlementKernelStateV1 := mkState {
  k_receipts : list ConsumptionReceiptStateV1;
  k_rollup : option ConsumptionRollupStateV1;
  k_settlement : option SettlementStateV1;
  k_escrow : EscrowBalanceStateV1;
  k_result : ResultSettlementStateV1;
  k_accounts : list AccountBalanceStateV1;
}.

Inductive ConsumptionSettlementCommandV1 :=
| AdmitReceipt (receipt : ConsumptionReceiptV1)
| AdmitRollup (rollup : ConsumptionRollupV1) (receipts : list ConsumptionReceiptV1)
| Settle (operation : SettlementOperationBodyV1).

Definition operation_kind (c : ConsumptionSettlementCommandV1) : Z :=
  match c with AdmitReceipt _ => 24 | AdmitRollup _ _ => 25 | Settle _ => 26 end.

(** ** Errors ([error.rs]) *)

Inductive ConsumptionSettlementErrorCodeV1 :=
| InvalidContext | InvalidBounds | NonCanonical | IdentifierMismatch | InvalidSignature
| Unauthorized | StaleVersion | InvalidTransition | SequenceGap | RootMismatch
| ArithmeticOverflow | ConservationViolation | InsufficientFunds | NotMature | AlreadyConsumed
| Conflict | NotFound | StoreFailure | SchemaMismatch | TamperDetected | SidecarPresent
| CommitUncertain | ThirdStateFenced.

Record ConsumptionSettlementErrorV1 := error {
  code : ConsumptionSettlementErrorCodeV1;
  message : string;
}.

Abbreviation ConsumptionSettlementResultV1 := (result ConsumptionSettlementErrorV1).

(** ** The crates the engine calls *)

(** [(class, resource id, meter id, meter version, unit)] *)
Abbreviation ResourceKey := (Z * list Z * list Z * Z * Z)%type.
Abbreviation UsageAccumulator := (ResourceKey * Z * option Hash32V1 * Z * Hash32V1 * Z)%type.
Abbreviation Conservation := (Hash32V1 * Hash32V1 * Hash32V1 * Z * Z * Z * Z * Z)%type.

(** [sha2::Sha256], the [borsh] encodings of every value the engine hashes, and
    [ed25519_dalek]: whether [VerifyingKey::from_bytes] and
    [Signature::from_slice] accept their bytes, and [verify_strict] of a key, a
    message and a signature. *)
Class SettlementCrates := {
  sha256 : list Z -> Hash32V1;
  verifying_key_ok : list Z -> bool;
  signature_ok : list Z -> bool;
  verify_strict : list Z -> list Z -> list Z -> bool;
  borsh_receipt_body :: BorshSerialize ConsumptionReceiptBodyV1;
  borsh_rollup_body :: BorshSerialize ConsumptionRollupBodyV1;
  borsh_policy :: BorshSerialize SettlementPolicyV1;
  borsh_command :: BorshSerialize ConsumptionSettlementCommandV1;
  borsh_state :: BorshSerialize ConsumptionSettlementKernelStateV1;
  borsh_cumulative :: BorshSerialize (list CumulativeResourceUsageV1);
  borsh_accumulator :: BorshSerialize UsageAccumulator;
  borsh_statement :: BorshSerialize BilateralSignatureStatementV1;
  borsh_receipt_entries :: BorshSerialize (list (Z * Hash32V1));
  borsh_inputs :: BorshSerialize (list SettlementInputV1);
  borsh_deltas :: BorshSerialize (list ValueDeltaV1);
  borsh_conservation :: BorshSerialize Conservation;
  borsh_intent :: BorshSerialize SettlementIntentV1;
  borsh_account_value :: BorshSerialize (Hash32V1 * Z * Z);
  borsh_post_versions :: BorshSerialize (list PostAccountVersionEntryV1);
}.
