(* ===== verification/Settlement.v ===== *)
(** * Settlement: the bounded service-settlement engine of [trnm-service-settlement]

    Every function of [engine.rs] and the digests of [codec.rs].
    [apply_transition] works on a clone of the state and drops the clone on an
    error, so the mutating helpers [admit_receipt], [admit_rollup] and [settle]
    return the new state in the result. *)

From stdpp Require Import base gmap list sorting strings.
From S2P Require Import Prelude SettlementTypes.

Definition MAX_RECEIPTS_V1 : Z := 1024.
Definition MAX_USAGE_ENTRIES_V1 : Z := 32.
Definition MAX_ID_BYTES_V1 : Z := 128.

Abbreviation Trust := ConsumptionSettlementFreshGenesisTrustBundleV1.
Abbreviation KState := ConsumptionSettlementKernelStateV1.
Abbreviation SResult := ConsumptionSettlementResultV1.

Section engine.
Context `{SettlementCrates}.

(** ** Digests ([codec.rs]) *)

Definition canonical_bytes {A} `{BorshSerialize A} (value : A) : SResult (list Z) :=
  match borsh_to_vec value with
  | inl cause => Err (error NonCanonical cause)
  | inr bytes => Ok bytes
  end.

Definition digest_encoded (domain : string) (encoded : list Z) : SResult Hash32V1 :=
  _ ← fail_if (is_empty (str domain) || negb (forallb (fun c => c <? 128) (str domain)))
        (error InvalidBounds "digest domain must be nonempty ASCII");
  domain_len ← ok_or (try_from u32_max (zlen (str domain)))
        (error ArithmeticOverflow "digest domain exceeds u32");
  Ok (sha256 (le_bytes 4 domain_len ++ str domain ++ encoded)).

Definition digest_value {A} `{BorshSerialize A} (domain : string) (value : A) : SResult Hash32V1 :=
  bytes ← canonical_bytes value;
  digest_encoded domain bytes.

Definition consumption_receipt_id_v1 (body : ConsumptionReceiptBodyV1) : SResult Hash32V1 :=
  digest_value "trnm.portable.v2.consumption-receipt.v1" body.
Definition consumption_rollup_id_v1 (body : ConsumptionRollupBodyV1) : SResult Hash32V1 :=
  digest_value "trnm.portable.v2.consumption-rollup.v1" body.
Definition settlement_policy_hash_v1 (policy : SettlementPolicyV1) : SResult Hash32V1 :=
  digest_value "trnm.portable.v2.settlement-policy.v1" policy.
Definition operation_id (command : ConsumptionSettlementCommandV1) : SResult Hash32V1 :=
  digest_value "trnm.portable.v2.consumption-settlement-operation.candidate.v1" command.
Definition state_root (state : KState) : SResult Hash32V1 :=
  digest_value "trnm.portable.v2.consumption-settlement-state-root.candidate.v1" state.

(** ** Genesis *)

Definition initial_state (trust : Trust) : KState :=
  let accounts :=
    [mkAccount (tr_provider_account_id trust) 0 (tr_provider_opening_balance trust);
     mkAccount (tr_consumer_account_id trust) 0 (tr_consumer_opening_balance trust);
     mkAccount (tr_protocol_account_id trust) 0 (tr_protocol_opening_balance trust)] in
  mkState [] None None
    (mkEscrow (tr_escrow_id trust) (tr_escrow_version trust) (tr_escrow_funding trust) false None)
    (mkResult (tr_result_id trust) (tr_result_revision trust) (tr_result_status trust)
       SETTLEMENT_MATURITY_NOT_STARTED_V1 None)
    (sort_by_key ac_account_id accounts).

Definition require_strictly_sorted {T} `{RustOrd T} (values : list T) (label : string) : SResult () :=
  fail_if (windows2_any (fun a b => ord_leb b a) values)
    (error NonCanonical (label +:+ " must be strictly sorted and unique")).

Definition check_price (price : ConsumptionPriceV1) : SResult () :=
  fail_if (is_empty (pr_resource_id price) || (MAX_ID_BYTES_V1 <? zlen (pr_resource_id price))
           || is_empty (pr_meter_id price) || (MAX_ID_BYTES_V1 <? zlen (pr_meter_id price))
           || (pr_unit_price price =? 0))
    (error InvalidBounds "price entry is out of bounds").

Definition validate_trust_bundle (trust : Trust) : SResult () :=
  let policy := tr_settlement_policy trust in
  _ ← fail_if (negb (tr_schema_version trust =? SCHEMA_VERSION_V1)
               || negb (ctx_protocol_version (tr_context trust) =? 1)
               || is_empty (ctx_chain_id (tr_context trust)))
        (error InvalidContext "fresh-genesis trust context is invalid");
  _ ← fail_if (bk_agent_id (tr_provider trust) =?? bk_agent_id (tr_consumer trust)
               || bk_key_id (tr_provider trust) =?? bk_key_id (tr_consumer trust)
               || bk_public_key (tr_provider trust) =?? bk_public_key (tr_consumer trust))
        (error InvalidContext "provider and consumer authorities must be distinct");
  _ ← fail_if (negb (verifying_key_ok (bk_public_key (tr_provider trust))))
        (error InvalidContext "provider public key is invalid");
  _ ← fail_if (negb (verifying_key_ok (bk_public_key (tr_consumer trust))))
        (error InvalidContext "consumer public key is invalid");
  let accounts := [tr_provider_account_id trust; tr_consumer_account_id trust; tr_protocol_account_id trust] in
  _ ← fail_if (negb (Nat.eqb (size (list_to_set accounts : gset (list Z))) (length accounts)))
        (error InvalidContext "settlement accounts must be distinct");
  _ ← fail_if ((tr_escrow_funding trust =? 0)
               || negb (tr_result_status trust =? RESULT_STATUS_FINAL_VALID_V1)
               || negb (pol_schema_version policy =? SCHEMA_VERSION_V1)
               || negb (pol_maximum_rollups policy =? 1)
               || (pol_minimum_rollup_challenge_blocks policy =? 0)
               || (pol_protocol_fee_denominator policy =? 0)
               || (pol_protocol_fee_denominator policy <? pol_protocol_fee_numerator policy))
        (error InvalidBounds "bounded settlement policy or funding is invalid");
  _ ← fail_if (is_empty (tr_prices trust) || (MAX_USAGE_ENTRIES_V1 <? zlen (tr_prices trust)))
        (error InvalidBounds "price table size is invalid");
  _ ← require_strictly_sorted (tr_prices trust) "price table";
  _ ← try_fold (fun _ price => check_price price) tt (tr_prices trust);
  _ ← fail_if (is_empty (tr_accepted_evidence_certificates trust))
        (error InvalidBounds "at least one evidence certificate is required");
  require_strictly_sorted (tr_accepted_evidence_certificates trust) "evidence certificates".

Definition validate_execution_static (trust : Trust) (execution : ConsumptionCommittedExecutionContextV1) :
    SResult () :=
  _ ← fail_if (negb (ex_schema_version execution =? SCHEMA_VERSION_V1)
               || ex_context execution <>? tr_context trust)
        (error InvalidContext "execution context does not match fresh genesis");
  fail_if ((ex_order_height execution <? ex_expected_order_height execution)
           || ((ex_order_height execution =? ex_expected_order_height execution)
               && ex_order_block_id execution <>? ex_expected_order_block_id execution))
    (error StaleVersion "order-confirmation input regresses or conflicts at one height").

(** ** Receipt checks *)

Definition validate_common_body (trust : Trust) (body : ConsumptionReceiptBodyV1) : SResult () :=
  fail_if (negb (rb_schema_version body =? SCHEMA_VERSION_V1)
           || rb_context body <>? tr_context trust
           || rb_provider_id body <>? bk_agent_id (tr_provider trust)
           || rb_consumer_id body <>? bk_agent_id (tr_consumer trust)
           || rb_task_id body <>? tr_task_id trust
           || rb_lease_id body <>? tr_lease_id trust
           || negb (rb_attempt body =? tr_attempt trust)
           || rb_result_id body <>? tr_result_id trust
           || is_empty (rb_meter_id body)
           || (MAX_ID_BYTES_V1 <? zlen (rb_meter_id body))
           || rb_related_party_policy_hash body <>? tr_related_party_policy_hash trust)
    (error InvalidContext "receipt does not bind the bounded trust context").

Definition check_usage_entry (entry : ResourceUsageV1) : SResult () :=
  fail_if (is_empty (ru_resource_id entry) || (MAX_ID_BYTES_V1 <? zlen (ru_resource_id entry))
           || is_empty (ru_meter_id entry) || (MAX_ID_BYTES_V1 <? zlen (ru_meter_id entry))
           || (ru_amount entry =? 0))
    (error InvalidBounds "resource usage entry is invalid").

Definition validate_usage (usage : list ResourceUsageV1) : SResult () :=
  _ ← fail_if (is_empty usage || (MAX_USAGE_ENTRIES_V1 <? zlen usage))
        (error InvalidBounds "usage entry count is invalid");
  _ ← require_strictly_sorted usage "resource usage";
  try_fold (fun _ entry => check_usage_entry entry) tt usage.

Definition cumulative_key (entry : CumulativeResourceUsageV1) : ResourceKey :=
  (cu_resource_class entry, cu_resource_id entry, cu_meter_id entry, cu_meter_version entry, cu_unit entry).
Definition usage_key (entry : ResourceUsageV1) : ResourceKey :=
  (ru_resource_class entry, ru_resource_id entry, ru_meter_id entry, ru_meter_version entry, ru_unit entry).

(** One entry of the loop over [usage]: the prior totals not yet continued and
    the output so far. *)
Definition cumulative_step (acc : gmap ResourceKey (Z * Hash32V1) * list CumulativeResourceUsageV1)
    (entry : ResourceUsageV1) : SResult (gmap ResourceKey (Z * Hash32V1) * list CumulativeResourceUsageV1) :=
  let '(prior_map, output) := acc in
  let key := usage_key entry in
  let '(prior_total, prior_accumulator) := default (0, default_hash) (prior_map !! key) in
  total_amount ← ok_or (checked_add u128_max prior_total (ru_amount entry))
        (error ArithmeticOverflow "cumulative usage overflow");
  accumulator_commitment ← digest_value "trnm.portable.v2.consumption-usage-accumulator.v1"
        (key, prior_total, if 0 <? prior_total then Some prior_accumulator else None,
         ru_amount entry, ru_measurement_commitment entry, total_amount);
  Ok (delete key prior_map,
      output ++ [mkCumulative (ru_resource_class entry) (ru_resource_id entry) (ru_meter_id entry)
        (ru_meter_version entry) total_amount (ru_unit entry) accumulator_commitment]).

Definition prior_totals (prior : option ConsumptionReceiptStateV1) : gmap ResourceKey (Z * Hash32V1) :=
  match prior with
  | Some prior =>
      foldl (fun m entry => <[cumulative_key entry := (cu_total_amount entry, cu_accumulator_commitment entry)]> m)
        ∅ (rb_cumulative_usage (cr_body (rs_receipt prior)))
  | None => ∅
  end.

Definition derive_cumulative_usage (prior : option ConsumptionReceiptStateV1) (usage : list ResourceUsageV1) :
    SResult (list CumulativeResourceUsageV1) :=
  '(prior_map, output) ← try_fold cumulative_step (prior_totals prior, []) usage;
  _ ← fail_if (negb (bool_decide (prior_map = ∅)))
        (error InvalidTransition "bounded receipt must continue every cumulative resource key");
  Ok (sort output).

Definition price_matches (entry : ResourceUsageV1) (price : ConsumptionPriceV1) : bool :=
  (pr_resource_class price =? ru_resource_class entry)
  && pr_resource_id price =?? ru_resource_id entry
  && pr_meter_id price =?? ru_meter_id entry
  && (pr_meter_version price =? ru_meter_version entry)
  && (pr_unit price =? ru_unit entry).

Definition price_entry (trust : Trust) (total : Z) (entry : ResourceUsageV1) : SResult Z :=
  price ← ok_or (List.find (price_matches entry) (tr_prices trust))
        (error Unauthorized "usage has no committed price");
  charge ← ok_or (checked_mul u128_max (ru_amount entry) (pr_unit_price price))
        (error ArithmeticOverflow "usage charge overflow");
  ok_or (checked_add u128_max total charge) (error ArithmeticOverflow "period charge overflow").

Definition price_usage (trust : Trust) (usage : list ResourceUsageV1) : SResult Z :=
  try_fold (price_entry trust) 0 usage.

Definition verify_signature_entry (registered : RegisteredBilateralKeyV1) (entry : BilateralSignatureEntryV1)
    (body_id : Hash32V1) (authority_height : Z) (domain : string) : SResult () :=
  _ ← fail_if (se_agent_id entry <>? bk_agent_id registered
               || se_key_id entry <>? bk_key_id registered
               || negb (se_key_role entry =? KEY_ROLE_BILATERAL_RECEIPT_V1)
               || negb (se_policy_revision entry =? bk_policy_revision registered)
               || negb (se_key_generation entry =? bk_key_generation registered)
               || negb (se_authority_height entry =? authority_height)
               || negb (se_signature_scheme entry =? SIGNATURE_SCHEME_ED25519_V1))
        (error Unauthorized "bilateral authority statement does not match the current key");
  let statement := mkStatement SCHEMA_VERSION_V1 body_id (se_agent_id entry) (se_key_id entry)
        (se_key_role entry) (se_policy_revision entry) (se_key_generation entry) (se_authority_height entry) in
  digest ← digest_value domain statement;
  _ ← fail_if (negb (verifying_key_ok (bk_public_key registered)))
        (error InvalidSignature "registered Ed25519 key is invalid");
  _ ← fail_if (negb (signature_ok (se_signature entry)))
        (error InvalidSignature "Ed25519 signature length is invalid");
  fail_if (negb (verify_strict (bk_public_key registered) digest (se_signature entry)))
    (error InvalidSignature "bilateral signature verification failed").

Definition verify_bilateral_signatures (trust : Trust) (body_id : Hash32V1) (authority_height : Z)
    (provider_domain consumer_domain : string) (provider_entry consumer_entry : BilateralSignatureEntryV1) :
    SResult () :=
  _ ← verify_signature_entry (tr_provider trust) provider_entry body_id authority_height provider_domain;
  verify_signature_entry (tr_consumer trust) consumer_entry body_id authority_height consumer_domain.

(** ** Receipt admission *)

(** The link of a receipt to its predecessor. *)
Definition check_prior (prior : option ConsumptionReceiptStateV1) (body : ConsumptionReceiptBodyV1) : SResult () :=
  match prior with
  | None =>
      fail_if (bool_decide (is_Some (rb_prior_receipt_id body)) || negb (rb_sequence body =? 1))
        (error SequenceGap "sequence one must have no prior receipt")
  | Some prior =>
      bad ← or_else (rb_prior_receipt_id body <>? Some (rs_receipt_id prior))
        (next ← ok_or (checked_add u64_max (rb_period_end_height (cr_body (rs_receipt prior))) 1)
           (error ArithmeticOverflow "period height overflow");
         Ok (negb (rb_period_start_height body =? next)));
      fail_if bad (error SequenceGap "receipt prior identity or period is not contiguous")
  end.

Definition admit_receipt (trust : Trust) (state : KState) (order_height : Z) (receipt : ConsumptionReceiptV1) :
    SResult KState :=
  _ ← fail_if (bool_decide (is_Some (k_rollup state)) || bool_decide (is_Some (k_settlement state)))
        (error InvalidTransition "receipt admission is closed after rollup creation");
  let body := cr_body receipt in
  _ ← validate_common_body trust body;
  _ ← fail_if (negb (rb_period_end_height body =? order_height) || (rb_period_start_height body =? 0)
               || (rb_period_end_height body <? rb_period_start_height body))
        (error InvalidBounds "receipt period is not bound to execution height");
  _ ← fail_if (negb (bool_decide (rb_evidence_certificate_id body ∈ tr_accepted_evidence_certificates trust)))
        (error Unauthorized "evidence certificate is outside the local trust bundle");
  _ ← validate_usage (rb_usage body);
  receipt_id ← consumption_receipt_id_v1 body;
  _ ← verify_bilateral_signatures trust receipt_id (rb_period_end_height body)
        "trnm.portable.v2.consumption-receipt-provider-signature.v1"
        "trnm.portable.v2.consumption-receipt-consumer-signature.v1"
        (cr_provider_signature receipt) (cr_consumer_signature receipt);
  count ← ok_or (try_from u64_max (zlen (k_receipts state)))
        (error ArithmeticOverflow "receipt count exceeds u64");
  expected_sequence ← ok_or (checked_add u64_max count 1)
        (error ArithmeticOverflow "receipt sequence overflow");
  _ ← fail_if (negb (rb_sequence body =? expected_sequence) || (MAX_RECEIPTS_V1 <=? zlen (k_receipts state)))
        (error SequenceGap "receipt sequence is not the exact successor");
  let prior := last (k_receipts state) in
  _ ← check_prior prior body;
  expected_cumulative ← derive_cumulative_usage prior (rb_usage body);
  bad ← or_else (rb_cumulative_usage body <>? expected_cumulative)
        (root ← digest_value "trnm.portable.v2.consumption-cumulative-usage-root.v1" expected_cumulative;
         Ok (rb_cumulative_usage_root body <>? root));
  _ ← fail_if bad (error RootMismatch "cumulative usage preimage or root is invalid");
  period_charge ← price_usage trust (rb_usage body);
  let prior_charge := default 0 ((fun entry => rb_cumulative_charge (cr_body (rs_receipt entry))) <$> prior) in
  expected_charge ← ok_or (checked_add u128_max prior_charge period_charge)
        (error ArithmeticOverflow "cumulative charge overflow");
  _ ← fail_if (negb (rb_cumulative_charge body =? expected_charge)
               || (tr_escrow_funding trust <? expected_charge))
        (error InsufficientFunds "receipt cumulative charge is invalid or exceeds escrow");
  Ok (mkState (k_receipts state ++ [mkReceiptState receipt receipt_id 0 0 None order_height])
        (k_rollup state) (k_settlement state) (k_escrow state) (k_result state) (k_accounts state)).

(** ** Rollup admission *)

Definition total_of_cumulative (entry : CumulativeResourceUsageV1) : ResourceUsageV1 :=
  mkUsage (cu_resource_class entry) (cu_resource_id entry) (cu_meter_id entry) (cu_meter_version entry)
    (cu_total_amount entry) (cu_unit entry) (cu_accumulator_commitment entry).

Definition numbered_receipt (p : nat * Hash32V1) : SResult (Z * Hash32V1) :=
  index ← ok_or (try_from u64_max (Z.of_nat p.1)) (error ArithmeticOverflow "rollup index exceeds u64");
  sequence ← ok_or (checked_add u64_max index 1) (error ArithmeticOverflow "rollup sequence overflow");
  Ok (sequence, p.2).

Definition assign_receipt (rollup_id : Hash32V1) (r : ConsumptionReceiptStateV1) :
    SResult ConsumptionReceiptStateV1 :=
  version ← ok_or (checked_add u64_max (rs_version r) 1)
        (error ArithmeticOverflow "receipt state version overflow");
  Ok (mkReceiptState (rs_receipt r) (rs_receipt_id r) version 1 (Some rollup_id) (rs_accepted_height r)).

Definition rollup_context_bad (trust : Trust) (state : KState) (body : ConsumptionRollupBodyV1) : SResult bool :=
  or_else (negb (ob_schema_version body =? SCHEMA_VERSION_V1)
           || ob_context body <>? tr_context trust
           || ob_provider_id body <>? bk_agent_id (tr_provider trust)
           || ob_consumer_id body <>? bk_agent_id (tr_consumer trust)
           || ob_task_id body <>? tr_task_id trust
           || ob_lease_id body <>? tr_lease_id trust
           || negb (ob_attempt body =? tr_attempt trust)
           || ob_result_id body <>? tr_result_id trust
           || ob_escrow_id body <>? tr_escrow_id trust
           || ob_related_party_policy_hash body <>? tr_related_party_policy_hash trust)
    (policy_hash ← settlement_policy_hash_v1 (tr_settlement_policy trust);
     or_else (ob_settlement_policy_hash body <>? policy_hash)
       (last_receipt ← ok_or (last (k_receipts state)) (error NotFound "rollup receipt chain is absent");
        Ok (ob_evidence_certificate_id body
            <>? rb_evidence_certificate_id (cr_body (rs_receipt last_receipt))))).

Definition admit_rollup (trust : Trust) (state : KState) (order_height : Z) (rollup : ConsumptionRollupV1)
    (supplied_receipts : list ConsumptionReceiptV1) : SResult KState :=
  _ ← fail_if (bool_decide (is_Some (k_rollup state)) || bool_decide (is_Some (k_settlement state))
               || is_empty (k_receipts state))
        (error InvalidTransition "bounded candidate permits exactly one nonempty rollup");
  let body := ro_body rollup in
  bad ← rollup_context_bad trust state body;
  _ ← fail_if bad (error InvalidContext "rollup does not bind the bounded trust context");
  count ← ok_or (try_from u32_max (zlen (k_receipts state)))
        (error ArithmeticOverflow "receipt count exceeds u32");
  last_sequence ← ok_or (try_from u64_max (zlen (k_receipts state)))
        (error ArithmeticOverflow "receipt count exceeds u64");
  let stored_receipts := rs_receipt <$> k_receipts state in
  let receipt_ids := rs_receipt_id <$> k_receipts state in
  _ ← fail_if (supplied_receipts <>? stored_receipts
               || negb (ob_first_sequence body =? 1)
               || negb (ob_last_sequence body =? last_sequence)
               || negb (ob_receipt_count body =? count)
               || ob_receipt_ids body <>? receipt_ids
               || existsb (fun entry => negb (rs_status entry =? 0)
                                        || bool_decide (is_Some (rs_assigned_rollup_id entry)))
                    (k_receipts state))
        (error Conflict "rollup interval is incomplete, reordered, or already assigned");
  receipt_entries ← try_map numbered_receipt (imap (fun i id => (i, id)) receipt_ids);
  root ← digest_value "trnm.portable.v2.rollup-receipts-root.candidate.v1" receipt_entries;
  _ ← fail_if (ob_receipts_root body <>? root) (error RootMismatch "rollup receipts root is invalid");
  last_receipt ← ok_or (last (k_receipts state)) (error NotFound "rollup receipt chain is absent");
  let last_body := cr_body (rs_receipt last_receipt) in
  let expected_totals := total_of_cumulative <$> rb_cumulative_usage last_body in
  _ ← fail_if (ob_usage_totals body <>? expected_totals
               || negb (ob_total_charge body =? rb_cumulative_charge last_body))
        (error ConservationViolation "rollup totals do not equal the exact receipt chain");
  rollup_id ← consumption_rollup_id_v1 body;
  _ ← verify_bilateral_signatures trust rollup_id order_height
        "trnm.portable.v2.consumption-rollup-provider-signature.v1"
        "trnm.portable.v2.consumption-rollup-consumer-signature.v1"
        (ro_provider_signature rollup) (ro_consumer_signature rollup);
  close_height ← ok_or (checked_add u64_max order_height
          (pol_minimum_rollup_challenge_blocks (tr_settlement_policy trust)))
        (error ArithmeticOverflow "rollup challenge close height overflow");
  receipts ← try_map (assign_receipt rollup_id) (k_receipts state);
  Ok (mkState receipts (Some (mkRollupState rollup rollup_id 0 order_height close_height 0 None))
        (k_settlement state) (k_escrow state) (k_result state) (k_accounts state)).

(** ** Settlement *)

(** The deltas a settlement pays out, before the conservation check. *)
Definition planned_deltas (trust : Trust) (provider_payment consumer_refund protocol_fee : Z) : list ValueDeltaV1 :=
  sort ((if 0 <? provider_payment then [mkDelta (tr_asset_id trust) (tr_provider_account_id trust) 0 provider_payment] else [])
        ++ (if 0 <? consumer_refund then [mkDelta (tr_asset_id trust) (tr_consumer_account_id trust) 1 consumer_refund] else [])
        ++ (if 0 <? protocol_fee then [mkDelta (tr_asset_id trust) (tr_protocol_account_id trust) 2 protocol_fee] else [])).

(** One delta: the first account with its id is credited and its version bumped. *)
Definition apply_delta (acc : list AccountBalanceStateV1 * list PostAccountVersionEntryV1) (delta : ValueDeltaV1) :
    SResult (list AccountBalanceStateV1 * list PostAccountVersionEntryV1) :=
  let '(accounts, post_versions) := acc in
  '(i, account) ← ok_or (list_find (fun account => ac_account_id account = vd_account_id delta) accounts)
        (error NotFound "settlement destination account is absent");
  let prior_version := ac_version account in
  balance ← ok_or (checked_add u128_max (ac_balance account) (vd_amount delta))
        (error ArithmeticOverflow "destination balance overflow");
  version ← ok_or (checked_add u64_max (ac_version account) 1)
        (error ArithmeticOverflow "account version overflow");
  post_value_hash ← digest_value "trnm.portable.v2.account-value.candidate.v1"
        (ac_account_id account, version, balance);
  Ok (<[i := mkAccount (ac_account_id account) version balance]> accounts,
      post_versions ++ [mkPost (ac_account_id account) prior_version version post_value_hash]).

Definition settle_trigger_bad (trust : Trust) (state : KState) (rollup : ConsumptionRollupStateV1)
    (operation : SettlementOperationBodyV1) : SResult bool :=
  or_else (negb (op_schema_version operation =? SCHEMA_VERSION_V1)
           || op_context operation <>? tr_context trust
           || op_task_id operation <>? tr_task_id trust
           || op_lease_id operation <>? tr_lease_id trust
           || negb (op_attempt operation =? tr_attempt trust)
           || op_result_id operation <>? tr_result_id trust
           || negb (op_expected_result_revision operation =? res_revision (k_result state))
           || negb (op_expected_escrow_version operation =? es_version (k_escrow state))
           || negb (op_expected_rollup_version operation =? rst_version rollup))
    (policy_hash ← settlement_policy_hash_v1 (tr_settlement_policy trust);
     Ok (op_settlement_policy_hash operation <>? policy_hash)).

Definition sum_delta (total : Z) (delta : ValueDeltaV1) : SResult Z :=
  ok_or (checked_add u128_max total (vd_amount delta))
    (error ArithmeticOverflow "settlement output total overflow").

Definition settle (trust : Trust) (state : KState) (order_height : Z) (operation : SettlementOperationBodyV1) :
    SResult (KState * Hash32V1) :=
  let policy := tr_settlement_policy trust in
  _ ← fail_if (bool_decide (is_Some (k_settlement state)) || es_closed (k_escrow state))
        (error AlreadyConsumed "settlement is one-shot");
  rollup ← ok_or (k_rollup state) (error NotFound "rollup is absent");
  bad ← settle_trigger_bad trust state rollup operation;
  _ ← fail_if bad (error StaleVersion "settlement trigger does not match authenticated state");
  _ ← fail_if (negb (res_result_status (k_result state) =? RESULT_STATUS_FINAL_VALID_V1)
               || negb (res_settlement_maturity (k_result state) =? SETTLEMENT_MATURITY_NOT_STARTED_V1)
               || negb (rst_status rollup =? 0)
               || bool_decide (is_Some (rst_consumed_by_settlement_id rollup)))
        (error InvalidTransition "result or rollup state cannot settle");
  _ ← fail_if (order_height <=? rst_challenge_close_height rollup)
        (error NotMature "rollup challenge window has not closed");
  let total_charge := ob_total_charge (ro_body (rst_rollup rollup)) in
  let balance := es_balance (k_escrow state) in
  _ ← fail_if (balance <? total_charge) (error InsufficientFunds "rollup charge exceeds durable escrow");
  fee_product ← ok_or (checked_mul u128_max total_charge (pol_protocol_fee_numerator policy))
        (error ArithmeticOverflow "protocol fee product overflow");
  protocol_fee ← u_div fee_product (pol_protocol_fee_denominator policy);
  provider_payment ← ok_or (checked_sub total_charge protocol_fee)
        (error ArithmeticOverflow "provider payment underflow");
  consumer_refund ← ok_or (checked_sub balance total_charge)
        (error ArithmeticOverflow "consumer refund underflow");
  let deltas := planned_deltas trust provider_payment consumer_refund protocol_fee in
  output_total ← try_fold sum_delta 0 deltas;
  _ ← fail_if (negb (output_total =? balance))
        (error ConservationViolation "settlement outputs do not conserve escrow input");
  let inputs := [mkInput (tr_asset_id trust) (es_escrow_id (k_escrow state)) (es_version (k_escrow state)) balance] in
  input_value_root ← digest_value "trnm.portable.v2.settlement-input-root.v1" inputs;
  planned_deltas_root ← digest_value "trnm.portable.v2.planned-deltas-root.v1" deltas;
  conservation_root ← digest_value "trnm.portable.v2.conservation-root.v1"
        (tr_asset_id trust, input_value_root, planned_deltas_root, balance, output_total,
         provider_payment, consumer_refund, protocol_fee);
  policy_hash ← settlement_policy_hash_v1 policy;
  let intent := mkIntent SCHEMA_VERSION_V1 (tr_context trust) (tr_task_id trust) (tr_lease_id trust)
        (tr_attempt trust) (tr_result_id trust) (res_revision (k_result state))
        (res_result_status (k_result state)) 1 (tr_escrow_id trust) [rst_rollup_id rollup]
        (pol_fee_schedule_hash policy) policy_hash inputs input_value_root deltas planned_deltas_root
        conservation_root in
  settlement_id ← digest_value "trnm.portable.v2.settlement.v1" intent;
  '(accounts, post_versions) ← try_fold apply_delta (k_accounts state, []) deltas;
  let post_versions := sort_by_key pa_account_id post_versions in
  post_account_versions_root ← digest_value "trnm.portable.v2.post-account-versions-root.v1" post_versions;
  escrow_version ← ok_or (checked_add u64_max (es_version (k_escrow state)) 1)
        (error ArithmeticOverflow "escrow version overflow");
  revision ← ok_or (checked_add u64_max (res_revision (k_result state)) 1)
        (error ArithmeticOverflow "result revision overflow");
  rollup ← ok_or (k_rollup state) (error NotFound "rollup disappeared during settlement");
  rollup_version ← ok_or (checked_add u64_max (rst_version rollup) 1)
        (error ArithmeticOverflow "rollup version overflow");
  let receipt := mkSettlementReceipt SCHEMA_VERSION_V1 (tr_context trust) settlement_id (tr_task_id trust)
        (tr_lease_id trust) (tr_result_id trust) (tr_escrow_id trust) deltas post_versions
        post_account_versions_root escrow_version in
  Ok (mkState (k_receipts state)
        (Some (mkRollupState (rst_rollup rollup) (rst_rollup_id rollup) rollup_version
           (rst_accepted_height rollup) (rst_challenge_close_height rollup) 1 (Some settlement_id)))
        (Some (mkSettlement settlement_id 0 intent 1 receipt order_height))
        (mkEscrow (es_escrow_id (k_escrow state)) escrow_version 0 true (Some settlement_id))
        (mkResult (res_result_id (k_result state)) revision (res_result_status (k_result state))
           SETTLEMENT_MATURITY_FINAL_V1 (Some settlement_id))
        accounts, settlement_id).

Definition apply_transition (trust : Trust) (state : KState) (order_height : Z)
    (command : ConsumptionSettlementCommandV1) : SResult (KState * option Hash32V1) :=
  match command with
  | AdmitReceipt receipt =>
      next ← admit_receipt trust state order_height receipt; Ok (next, None)
  | AdmitRollup rollup receipts =>
      next ← admit_rollup trust state order_height rollup receipts; Ok (next, None)
  | Settle operation =>
      '(next, settlement_id) ← settle trust state order_height operation;
      Ok (next, Some settlement_id)
  end.

End engine.
