(* ===== verification/SettlementTheorems.v ===== *)
(** * SettlementTheorems: what every run of the settlement engine satisfies

    [reach trust] is the set of states [apply_transition] reaches from
    [initial_state trust].  The engine is a three-phase machine (collecting
    receipts, rolled up, settled); [phase] says what each phase fixes, and
    [receipt_chain] what the admitted receipts commit to. *)

From stdpp Require Import base gmap list sorting strings.
From S2P Require Import Prelude SettlementTypes Settlement.

(** ** Typing of the inputs: the fields are unsigned machine integers *)

Definition typed_trust (trust : Trust) : Prop :=
  in_u128 (tr_escrow_funding trust) /\ in_u128 (tr_provider_opening_balance trust) /\
  in_u128 (tr_consumer_opening_balance trust) /\ in_u128 (tr_protocol_opening_balance trust) /\
  0 <= pol_protocol_fee_numerator (tr_settlement_policy trust) /\
  0 <= pol_protocol_fee_denominator (tr_settlement_policy trust) /\
  Forall (fun p => 0 <= pr_unit_price p) (tr_prices trust).

Definition typed_command (c : ConsumptionSettlementCommandV1) : Prop :=
  match c with
  | AdmitReceipt r => Forall (fun u => 0 <= ru_amount u) (rb_usage (cr_body r))
  | _ => True
  end.

(** ** Specification *)

(** The price of one usage entry: amount times the first matching unit price. *)
Definition entry_charge (trust : Trust) (u : ResourceUsageV1) : Z :=
  ru_amount u * default 0 (pr_unit_price <$> List.find (price_matches u) (tr_prices trust)).
Definition period_charge (trust : Trust) (r : ConsumptionReceiptStateV1) : Z :=
  lsum (entry_charge trust) (rb_usage (cr_body (rs_receipt r))).

Definition protocol_fee (trust : Trust) (charge : Z) : Z :=
  charge * pol_protocol_fee_numerator (tr_settlement_policy trust)
  / pol_protocol_fee_denominator (tr_settlement_policy trust).

(** The balance recorded for an account id. *)
Definition balance_in (accounts : list AccountBalanceStateV1) (id : Hash32V1) : Z :=
  lsum (fun a => if decide (ac_account_id a = id) then ac_balance a else 0) accounts.
Definition total_value (s : KState) : Z := es_balance (k_escrow s) + lsum ac_balance (k_accounts s).

Definition last_charge (l : list ConsumptionReceiptStateV1) : Z :=
  default 0 ((fun r => rb_cumulative_charge (cr_body (rs_receipt r))) <$> last l).

Section theorems.
Context `{SettlementCrates} (trust : Trust).

(** A chain of receipts: each is the exact successor of the one before it. *)
Inductive receipt_chain : list ConsumptionReceiptStateV1 -> Prop :=
| chain_nil : receipt_chain []
| chain_snoc l r :
    receipt_chain l ->
    rb_sequence (cr_body (rs_receipt r)) = zlen l + 1 ->
    consumption_receipt_id_v1 (cr_body (rs_receipt r)) = Ok (rs_receipt_id r) ->
    rb_prior_receipt_id (cr_body (rs_receipt r)) = rs_receipt_id <$> last l ->
    (forall p, last l = Some p ->
       rb_period_start_height (cr_body (rs_receipt r)) = rb_period_end_height (cr_body (rs_receipt p)) + 1) ->
    rb_period_start_height (cr_body (rs_receipt r)) <> 0 ->
    rb_period_start_height (cr_body (rs_receipt r)) <= rb_period_end_height (cr_body (rs_receipt r)) ->
    rb_period_end_height (cr_body (rs_receipt r)) = rs_accepted_height r ->
    rb_cumulative_charge (cr_body (rs_receipt r)) = last_charge l + period_charge trust r ->
    0 <= period_charge trust r ->
    rb_cumulative_charge (cr_body (rs_receipt r)) <= tr_escrow_funding trust ->
    receipt_chain (l ++ [r]).

Inductive reach : KState -> Prop :=
| reach_init : reach (initial_state trust)
| reach_step s h c s' sid :
    reach s -> typed_command c -> apply_transition trust s h c = Ok (s', sid) -> reach s'.

(** Everything but the receipts, rollup and settlement is as at genesis. *)
Definition untouched (s : KState) : Prop :=
  k_escrow s = k_escrow (initial_state trust) /\ k_result s = k_result (initial_state trust) /\
  k_accounts s = k_accounts (initial_state trust).

Definition unassigned (r : ConsumptionReceiptStateV1) : Prop :=
  rs_version r = 0 /\ rs_status r = 0 /\ rs_assigned_rollup_id r = None.
Definition assigned (id : Hash32V1) (r : ConsumptionReceiptStateV1) : Prop :=
  rs_version r = 1 /\ rs_status r = 1 /\ rs_assigned_rollup_id r = Some id.

(** What a rollup that closed the chain [l] fixes. *)
Definition rolls_up (l : list ConsumptionReceiptStateV1) (ro : ConsumptionRollupStateV1) : Prop :=
  l <> [] /\ Forall (assigned (rst_rollup_id ro)) l /\
  consumption_rollup_id_v1 (ro_body (rst_rollup ro)) = Ok (rst_rollup_id ro) /\
  ob_receipt_ids (ro_body (rst_rollup ro)) = rs_receipt_id <$> l /\
  ob_total_charge (ro_body (rst_rollup ro)) = last_charge l /\
  rst_challenge_close_height ro =
    rst_accepted_height ro + pol_minimum_rollup_challenge_blocks (tr_settlement_policy trust).

Inductive phase : KState -> Prop :=
| Collecting s : untouched s -> k_rollup s = None -> k_settlement s = None ->
    Forall unassigned (k_receipts s) -> phase s
| RolledUp s ro : untouched s -> k_rollup s = Some ro -> k_settlement s = None ->
    rolls_up (k_receipts s) ro -> rst_version ro = 0 -> rst_status ro = 0 ->
    rst_consumed_by_settlement_id ro = None -> phase s
| Settled s ro st : k_rollup s = Some ro -> k_settlement s = Some st ->
    rolls_up (k_receipts s) ro -> rst_consumed_by_settlement_id ro = Some (st_settlement_id st) ->
    es_balance (k_escrow s) = 0 -> es_closed (k_escrow s) = true ->
    ac_account_id <$> k_accounts s = ac_account_id <$> k_accounts (initial_state trust) ->
    lsum ac_balance (k_accounts s) =
      lsum ac_balance (k_accounts (initial_state trust)) + tr_escrow_funding trust ->
    phase s.

(** ** Pricing *)

Context (Htyped : typed_trust trust).

Lemma find_price_nonneg u p : List.find (price_matches u) (tr_prices trust) = Some p -> 0 <= pr_unit_price p.
Proof.
  intros Hf. apply find_some in Hf as [Hin _]. destruct Htyped as (_ & _ & _ & _ & _ & _ & Hp).
  rewrite Forall_forall in Hp. apply Hp. by apply list_elem_of_In.
Qed.

Lemma entry_charge_nonneg u : 0 <= ru_amount u -> 0 <= entry_charge trust u.
Proof.
  intros Hu. unfold entry_charge. destruct (List.find _ _) eqn:E; cbn; [|lia].
  apply find_price_nonneg in E. nia.
Qed.

Lemma price_usage_sum us t c :
  try_fold (price_entry trust) t us = Ok c -> c = t + lsum (entry_charge trust) us.
Proof.
  revert t. induction us as [|u us IH]; intros t Hf; cbn [try_fold] in Hf; rinv; subst.
  - rewrite lsum_nil. lia.
  - match goal with H : price_entry _ _ _ = _ |- _ => unfold price_entry in H end. rinv. checked. subst.
    rewrite (IH _ Hf), lsum_cons. unfold entry_charge at 2.
    match goal with H : List.find _ _ = _ |- _ => rewrite H end. cbn. lia.
Qed.

(** ** Receipt admission *)

Lemma not_is_Some_None {A} (o : option A) : ~ is_Some o -> o = None.
Proof. apply eq_None_not_Some. Qed.

Lemma check_prior_inv l body :
  check_prior (last l) body = Ok tt ->
  rb_prior_receipt_id body = rs_receipt_id <$> last l /\
  (forall p, last l = Some p -> rb_period_start_height body = rb_period_end_height (cr_body (rs_receipt p)) + 1).
Proof.
  unfold check_prior. destruct (last l) as [p|]; intros Hc; rinv; bprop.
  - unfold or_else in *. subst. destruct (bool_decide (rb_prior_receipt_id body = Some (rs_receipt_id p))) eqn:E;
      cbn [negb] in *; rinv; bprop; [|done].
    checked. subst. split; [done|]. intros q [= <-].
    lia.
  - split; [by apply eq_None_not_Some|done].
Qed.

Lemma admit_receipt_inv s h r s' :
  admit_receipt trust s h r = Ok s' -> Forall (fun u => 0 <= ru_amount u) (rb_usage (cr_body r)) ->
  k_rollup s = None /\ k_settlement s = None /\
  exists id, s' = mkState (k_receipts s ++ [mkReceiptState r id 0 0 None h]) (k_rollup s) (k_settlement s)
                    (k_escrow s) (k_result s) (k_accounts s) /\
    (receipt_chain (k_receipts s) -> receipt_chain (k_receipts s ++ [mkReceiptState r id 0 0 None h])).
Proof.
  intros Ha Hu. unfold admit_receipt, price_usage in Ha. rinv. bprop.
  assert (r1 = tt) as -> by by destruct r1.
  match goal with H : check_prior _ _ = Ok ?x |- _ => destruct x; apply check_prior_inv in H as [Hprior Hperiod] end.
  match goal with H : try_fold (price_entry _) _ _ = Ok _ |- _ => apply price_usage_sum in H end.
  checked. split; [by apply eq_None_not_Some|]. split; [by apply eq_None_not_Some|].
  match goal with H : consumption_receipt_id_v1 _ = Ok ?x |- _ => exists x end.
  split; [done|]. intros Hc. unfold last_charge in *. apply chain_snoc; cbn; unfold period_charge, last_charge; cbn; try done; try lia.
  - apply lsum_nonneg. intros u Hin. rewrite Forall_forall in Hu. apply entry_charge_nonneg. by apply Hu.
Qed.

(** ** Rollup admission *)

Lemma try_map_assign id l l' :
  try_map (assign_receipt id) l = Ok l' ->
  l' = (fun r => mkReceiptState (rs_receipt r) (rs_receipt_id r) (rs_version r + 1) 1 (Some id)
                   (rs_accepted_height r)) <$> l.
Proof.
  intros Hm%try_map_Ok. induction Hm as [|r r' l l' Hr Hl IH]; [done|]. cbn. rewrite <- IH. f_equal.
  unfold assign_receipt in Hr. rinv. checked. by subst.
Qed.

(** Reassigning the receipts of a chain keeps it a chain. *)
Lemma receipt_chain_map (f : ConsumptionReceiptStateV1 -> ConsumptionReceiptStateV1) l :
  (forall r, rs_receipt (f r) = rs_receipt r /\ rs_receipt_id (f r) = rs_receipt_id r /\
             rs_accepted_height (f r) = rs_accepted_height r) ->
  receipt_chain l -> receipt_chain (f <$> l).
Proof.
  intros Hf. induction 1 as [|l r Hl IH]; [constructor|]. destruct (Hf r) as (Hr1 & Hr2 & Hr3).
  assert (Hlast : last (f <$> l) = f <$> last l) by apply fmap_last.
  rewrite fmap_app. apply chain_snoc; rewrite ?Hr1, ?Hr2, ?Hr3; try done.
  - unfold zlen in *. by rewrite length_fmap.
  - rewrite Hlast. destruct (last l) as [p|]; [|done]. cbn in *. by destruct (Hf p) as (_ & -> & _).
  - rewrite Hlast. intros p Hp. destruct (last l) as [q|] eqn:E; [|done]. cbn in Hp. simplify_eq.
    destruct (Hf q) as (-> & _). auto.
  - unfold last_charge, period_charge in *. rewrite Hlast, Hr1. destruct (last l) as [q|]; [|done].
    cbn in *. by destruct (Hf q) as (-> & _).
  - unfold period_charge. by rewrite Hr1.
Qed.

Definition assign_all (id : Hash32V1) (l : list ConsumptionReceiptStateV1) : list ConsumptionReceiptStateV1 :=
  (fun r => mkReceiptState (rs_receipt r) (rs_receipt_id r) (rs_version r + 1) 1 (Some id)
              (rs_accepted_height r)) <$> l.

Lemma admit_rollup_inv s h ro rs s' :
  admit_rollup trust s h ro rs = Ok s' ->
  k_rollup s = None /\ k_settlement s = None /\ k_receipts s <> [] /\
  exists id,
    consumption_rollup_id_v1 (ro_body ro) = Ok id /\
    ob_receipt_ids (ro_body ro) = rs_receipt_id <$> k_receipts s /\
    ob_total_charge (ro_body ro) = last_charge (k_receipts s) /\
    s' = mkState (assign_all id (k_receipts s))
           (Some (mkRollupState ro id 0 h (h + pol_minimum_rollup_challenge_blocks (tr_settlement_policy trust)) 0 None))
           (k_settlement s) (k_escrow s) (k_result s) (k_accounts s).
Proof.
  intros Ha. unfold admit_rollup in Ha. rinv. bprop. checked.
  match goal with H : try_map (assign_receipt _) _ = Ok _ |- _ => apply try_map_assign in H end.
  match goal with H : last _ = Some _ |- _ => rename H into Hlast end.
  split; [by apply eq_None_not_Some|]. split; [by apply eq_None_not_Some|].
  split; [intros E; by rewrite E in Hlast|].
  match goal with H : consumption_rollup_id_v1 _ = Ok ?x |- _ => exists x end.
  unfold last_charge. rewrite Hlast. cbn. split_and!; try done. by subst.
Qed.

(** ** Payouts *)

Lemma lsum_list_insert {A} (f : A -> Z) l i x y :
  l !! i = Some x -> lsum f (<[i := y]> l) = lsum f l - f x + f y.
Proof.
  revert i. induction l as [|a l IH]; intros [|i] Hi; cbn in Hi; simplify_eq; cbn [insert list_insert];
    rewrite !lsum_cons; [lia|]. rewrite IH by done. lia.
Qed.

(** What a delta moves to account [id]. *)
Definition delta_to (id : Hash32V1) (d : ValueDeltaV1) : Z :=
  if decide (vd_account_id d = id) then vd_amount d else 0.

Lemma apply_delta_inv accounts pv d accounts' pv' :
  apply_delta (accounts, pv) d = Ok (accounts', pv') ->
  ac_account_id <$> accounts' = ac_account_id <$> accounts /\
  lsum ac_balance accounts' = lsum ac_balance accounts + vd_amount d /\
  forall id, balance_in accounts' id = balance_in accounts id + delta_to id d.
Proof.
  intros Ha. unfold apply_delta in Ha. rinv. checked.
  match goal with H : list_find _ _ = Some (?i, ?a) |- _ => apply list_find_Some in H as (Hi & Hid & _) end.
  simplify_eq. split; [|split].
  - rewrite list_fmap_insert. cbn. apply list_insert_id. by rewrite list_lookup_fmap, Hi.
  - rewrite (lsum_list_insert _ _ _ _ _ Hi). cbn. lia.
  - intros id. unfold balance_in, delta_to. rewrite (lsum_list_insert _ _ _ _ _ Hi). cbn.
    rewrite Hid. destruct (decide (vd_account_id d = id)); lia.
Qed.

Lemma apply_deltas_inv ds accounts pv accounts' pv' :
  try_fold apply_delta (accounts, pv) ds = Ok (accounts', pv') ->
  ac_account_id <$> accounts' = ac_account_id <$> accounts /\
  lsum ac_balance accounts' = lsum ac_balance accounts + lsum vd_amount ds /\
  forall id, balance_in accounts' id = balance_in accounts id + lsum (delta_to id) ds.
Proof.
  revert accounts pv. induction ds as [|d ds IH]; intros accounts pv Hf; cbn [try_fold] in Hf.
  - injection Hf as -> ->. rewrite lsum_nil. split_and!; [done|lia|]. intros. rewrite lsum_nil. lia.
  - apply bind_Ok in Hf as ([a1 pv1] & H1 & H2). apply apply_delta_inv in H1 as (E1 & S1 & B1).
    apply IH in H2 as (E2 & S2 & B2). rewrite lsum_cons. split_and!; [congruence|lia|].
    intros id. rewrite B2, B1, lsum_cons. lia.
Qed.

Lemma sum_deltas_inv ds t c : try_fold sum_delta t ds = Ok c -> c = t + lsum vd_amount ds.
Proof.
  revert t. induction ds as [|d ds IH]; intros t Hf; cbn [try_fold] in Hf; rinv; subst.
  - rewrite lsum_nil. lia.
  - match goal with H : sum_delta _ _ = _ |- _ => unfold sum_delta in H end. rinv. checked. subst.
    rewrite (IH _ Hf), lsum_cons. lia.
Qed.

Lemma planned_deltas_total p c f :
  0 <= p -> 0 <= c -> 0 <= f -> lsum vd_amount (planned_deltas trust p c f) = p + c + f.
Proof.
  intros. unfold planned_deltas. rewrite sort_perm, !lsum_app.
  destruct (0 <? p) eqn:?, (0 <? c) eqn:?, (0 <? f) eqn:?; bprop; cbn; lia.
Qed.

(** The three account ids of a validated bundle are distinct. *)
Lemma validated_accounts_distinct :
  validate_trust_bundle trust = Ok tt ->
  tr_provider_account_id trust <> tr_consumer_account_id trust /\
  tr_provider_account_id trust <> tr_protocol_account_id trust /\
  tr_consumer_account_id trust <> tr_protocol_account_id trust.
Proof.
  intros Hv. unfold validate_trust_bundle in Hv. rinv. bprop.
  match goal with H : Nat.eqb (size ?X) _ = true |- _ => apply Nat.eqb_eq in H; rename H into Hs end.
  assert (Hd : forall a b : Hash32V1, size (list_to_set [a; b] : gset (list Z)) <> 3%nat)
    by (intros a b E; pose proof (size_union_alt ({[a]} : gset (list Z)) ({[b]})); cbn in E;
        rewrite union_empty_r_L in E; rewrite E in *;
        pose proof (subseteq_size (({[b]} : gset (list Z)) ∖ {[a]}) {[b]} ltac:(set_solver));
        rewrite !size_singleton in *; lia).
  cbn in *. split_and!; intros E; rewrite E in Hs.
  - eapply (Hd (tr_consumer_account_id trust) (tr_protocol_account_id trust)). cbn. rewrite <- Hs. f_equal. set_solver.
  - eapply (Hd (tr_protocol_account_id trust) (tr_consumer_account_id trust)). cbn. rewrite <- Hs. f_equal. set_solver.
  - eapply (Hd (tr_provider_account_id trust) (tr_protocol_account_id trust)). cbn. rewrite <- Hs. f_equal. set_solver.
Qed.

Lemma validated_fee :
  validate_trust_bundle trust = Ok tt ->
  0 < pol_protocol_fee_denominator (tr_settlement_policy trust) /\
  pol_protocol_fee_numerator (tr_settlement_policy trust) <= pol_protocol_fee_denominator (tr_settlement_policy trust).
Proof.
  intros Hv. destruct Htyped as (_ & _ & _ & _ & ? & ? & _). unfold validate_trust_bundle in Hv. rinv. bprop. lia.
Qed.

Lemma protocol_fee_range charge :
  validate_trust_bundle trust = Ok tt -> 0 <= charge -> 0 <= protocol_fee trust charge <= charge.
Proof.
  intros Hv Hc. destruct (validated_fee Hv) as [Hd Hn]. destruct Htyped as (_ & _ & _ & _ & ? & ? & _).
  unfold protocol_fee. split; [apply Z.div_pos; nia|]. apply Z.div_le_upper_bound; [done|]. nia.
Qed.

(** ** Settlement *)

Lemma delta_to_planned id p c f :
  0 <= p -> 0 <= c -> 0 <= f ->
  lsum (delta_to id) (planned_deltas trust p c f) =
    (if decide (tr_provider_account_id trust = id) then p else 0) +
    (if decide (tr_consumer_account_id trust = id) then c else 0) +
    (if decide (tr_protocol_account_id trust = id) then f else 0).
Proof.
  intros. unfold planned_deltas. rewrite sort_perm, !lsum_app.
  destruct (0 <? p) eqn:?, (0 <? c) eqn:?, (0 <? f) eqn:?; bprop; cbn; unfold delta_to; cbn;
    repeat destruct (decide _); lia.
Qed.

(** What a successful settlement does, for a nonnegative rolled-up charge. *)
Lemma settle_inv s h op s' sid :
  settle trust s h op = Ok (s', sid) ->
  (forall ro, k_rollup s = Some ro -> 0 <= ob_total_charge (ro_body (rst_rollup ro))) ->
  exists ro st,
    k_rollup s = Some ro /\ k_settlement s = None /\ rst_challenge_close_height ro < h /\
    k_receipts s' = k_receipts s /\
    k_rollup s' = Some (mkRollupState (rst_rollup ro) (rst_rollup_id ro) (rst_version ro + 1)
      (rst_accepted_height ro) (rst_challenge_close_height ro) 1 (Some sid)) /\
    k_settlement s' = Some st /\ st_settlement_id st = sid /\
    es_balance (k_escrow s') = 0 /\ es_closed (k_escrow s') = true /\
    ac_account_id <$> k_accounts s' = ac_account_id <$> k_accounts s /\
    lsum ac_balance (k_accounts s') = lsum ac_balance (k_accounts s) + es_balance (k_escrow s) /\
    forall id, balance_in (k_accounts s') id = balance_in (k_accounts s) id +
      (let charge := ob_total_charge (ro_body (rst_rollup ro)) in
       (if decide (tr_provider_account_id trust = id) then charge - protocol_fee trust charge else 0) +
       (if decide (tr_consumer_account_id trust = id) then es_balance (k_escrow s) - charge else 0) +
       (if decide (tr_protocol_account_id trust = id) then protocol_fee trust charge else 0)).
Proof.
  intros Hs Hpos. destruct Htyped as (_ & _ & _ & _ & Hnum & Hden & _). unfold settle in Hs.
  rinv. bprop. checked.
  match goal with H : k_rollup s = Some ?x |- _ => specialize (Hpos x H) end.
  simplify_eq.
  match goal with H : u_div _ _ = Ok _ |- _ => rename H into Hdiv end.
  unfold u_div in Hdiv. destruct (_ =? 0) eqn:Ez in Hdiv; [done|]. bprop. injection Hdiv as <-.
  match goal with H : try_fold apply_delta _ _ = Ok _ |- _ => apply apply_deltas_inv in H as (Hids & Htot & Hbal) end.
  match goal with H : try_fold sum_delta _ _ = Ok _ |- _ => apply sum_deltas_inv in H end.
  match goal with H : k_rollup s = Some ?x |- _ =>
    exists x; pose proof (Z.div_pos (ob_total_charge (ro_body (rst_rollup x)) *
      pol_protocol_fee_numerator (tr_settlement_policy trust)) (pol_protocol_fee_denominator (tr_settlement_policy trust))
      ltac:(nia) ltac:(lia)) as Hfee end.
  eexists. cbn [k_receipts k_rollup k_settlement k_escrow k_accounts es_balance es_closed].
  split_and!; try done; try (by apply eq_None_not_Some).
  - rewrite Htot, planned_deltas_total by lia. unfold protocol_fee in *. lia.
  - intros id. rewrite Hbal, delta_to_planned by lia. done.
Qed.

(** ** The phase invariant *)

Lemma assign_all_assigned id l : Forall unassigned l -> Forall (assigned id) (assign_all id l).
Proof.
  intros Hl. apply Forall_fmap. eapply Forall_impl; [done|]. intros r (Hv & _ & _).
  unfold compose, assigned. cbn. by rewrite Hv.
Qed.

Lemma last_charge_assign id l : last_charge (assign_all id l) = last_charge l.
Proof. unfold last_charge, assign_all. rewrite fmap_last. by destruct (last l). Qed.

Lemma chain_charge_range l : receipt_chain l -> 0 <= tr_escrow_funding trust -> 0 <= last_charge l <= tr_escrow_funding trust.
Proof.
  intros Hc Hf. induction Hc as [|l r Hl IH]; [done|]. unfold last_charge. rewrite last_snoc. cbn. lia.
Qed.

(** The cumulative charge of a chain is the sum of its period charges. *)
Lemma chain_charge_sum l : receipt_chain l -> last_charge l = lsum (period_charge trust) l.
Proof.
  induction 1 as [|l r Hl IH]; [done|]. unfold last_charge at 1. rewrite last_snoc, lsum_app, lsum_cons, lsum_nil. cbn. lia.
Qed.

Lemma reach_ok s : reach s -> phase s /\ receipt_chain (k_receipts s).
Proof.
  destruct Htyped as (Hfund & _). unfold in_u128 in Hfund.
  induction 1 as [|s h c s' sid Hr [Hp Hc] Ht Hst]; [split; [by apply Collecting|constructor]|].
  destruct c as [r|ro rs|op]; cbn in Hst.
  - apply bind_Ok in Hst as (s1 & Ha & [= <- <-]).
    apply admit_receipt_inv in Ha as (Hro & Hse & id & -> & Hch); [|done].
    cbn. split; [|by apply Hch]. destruct Hp; try congruence. apply Collecting; cbn; try done.
    apply Forall_app_2; [done|]. by repeat constructor.
  - apply bind_Ok in Hst as (s1 & Ha & [= <- <-]).
    apply admit_rollup_inv in Ha as (Hro & Hse & Hne & id & Hid & Hids & Hch & ->).
    cbn. split; [|by apply receipt_chain_map]. destruct Hp; try congruence.
    eapply RolledUp; cbn; try done. unfold rolls_up; cbn. rewrite last_charge_assign.
    split_and!; try done.
    + intros E. apply Hne. by destruct (k_receipts s).
    + by apply assign_all_assigned.
    + rewrite Hids. unfold assign_all. rewrite <- list_fmap_compose. by apply list_fmap_ext.
  - apply bind_Ok in Hst as ([s1 i] & Ha & [= <- <-]).
    apply settle_inv in Ha as (ro & st & Hro & Hse & _ & Hrs & Hro' & Hse' & Hsid & Hbal & Hcl & Hids & Htot & _).
    2: { intros ro Hro. destruct Hp as [|? ? ? ? ? Hru| ? ? ? ? ? Hru]; simplify_eq;
         destruct Hru as (_ & _ & _ & _ & -> & _);
         apply (chain_charge_range _ Hc); lia. }
    rewrite Hrs. split; [|done].
    destruct Hp as [|? ro' (He & _ & Hacc) ? ? Hru|]; simplify_eq.
    eapply Settled; try done; rewrite ?Hrs; cbn; try congruence.
    + destruct Hru as (? & ? & ? & ? & ? & ?). by split_and!.
    + rewrite Hids. by rewrite Hacc.
    + rewrite Htot, He, Hacc. done.
Qed.

(** ** Progress *)

(** What the documentation of Borsh says of the values a settlement hashes: a value
    of fixed size is encoded; a list or a string is encoded if its length, which is
    written in 32 bits, is at most [u32::MAX]. *)
Record settle_serializes : Prop := {
  ser_policy : forall x : SettlementPolicyV1, exists b, borsh_to_vec x = inr b;
  ser_inputs : forall x : list SettlementInputV1, zlen x <= u32_max -> exists b, borsh_to_vec x = inr b;
  ser_deltas : forall x : list ValueDeltaV1, zlen x <= u32_max -> exists b, borsh_to_vec x = inr b;
  ser_conservation : forall x : Conservation, exists b, borsh_to_vec x = inr b;
  ser_intent : forall x : SettlementIntentV1,
    utf8_len (ctx_chain_id (it_context x)) <= u32_max -> zlen (it_consumption_rollup_ids x) <= u32_max ->
    zlen (it_inputs x) <= u32_max -> zlen (it_planned_deltas x) <= u32_max -> exists b, borsh_to_vec x = inr b;
  ser_account : forall x : Hash32V1 * Z * Z, exists b, borsh_to_vec x = inr b;
  ser_post : forall x : list PostAccountVersionEntryV1, zlen x <= u32_max -> exists b, borsh_to_vec x = inr b;
}.

Definition good_domain (d : string) : bool :=
  negb (is_empty (str d)) && forallb (fun c => c <? 128) (str d) && (zlen (str d) <=? u32_max).

Lemma digest_value_ok {A} `{BorshSerialize A} d (x : A) :
  (exists b, borsh_to_vec x = inr b) -> good_domain d = true -> exists h, digest_value d x = Ok h.
Proof.
  intros [b Hb] Hd. unfold good_domain in Hd. bprop.
  match goal with H : is_empty _ = false |- _ => rename H into Hne end.
  match goal with H : forallb _ _ = true |- _ => rename H into Has end.
  unfold digest_value, canonical_bytes, digest_encoded. rewrite Hb. cbn -[str u32_max].
  rewrite Hne, Has. cbn -[str u32_max]. unfold try_from. rewrite (proj2 (Z.leb_le _ _)) by done.
  cbn -[str]. eauto.
Qed.

Lemma list_find_id accounts id :
  id ∈ ac_account_id <$> accounts ->
  exists i a, list_find (fun a => ac_account_id a = id) accounts = Some (i, a) /\ accounts !! i = Some a.
Proof.
  intros (a & -> & Ha)%list_elem_of_fmap.
  destruct (list_find_elem_of (fun x => ac_account_id x = ac_account_id a) accounts a Ha eq_refl) as [[i b] Hf].
  exists i, b. split; [done|]. by apply list_find_Some in Hf as (? & _).
Qed.

Lemma apply_deltas_succeed ds accounts pv :
  settle_serializes ->
  (forall d, d ∈ ds -> 0 <= vd_amount d /\ vd_account_id d ∈ ac_account_id <$> accounts) ->
  (forall a, a ∈ accounts -> ac_balance a + lsum vd_amount ds <= u128_max /\ ac_version a + zlen ds <= u64_max) ->
  exists r, try_fold apply_delta (accounts, pv) ds = Ok r.
Proof.
  intros Hser. revert accounts pv. induction ds as [|d ds IH]; intros accounts pv Hd Ha; cbn [try_fold]; [eauto|].
  destruct (Hd d) as [Hpos Hin]; [by left|]. destruct (list_find_id _ _ Hin) as (i & a & Hf & Hi).
  assert (Hsum : 0 <= lsum vd_amount ds) by (apply lsum_nonneg; intros; apply Hd; by right).
  destruct (Ha a) as [Hb Hv]; [by eapply list_elem_of_lookup_2|].
  rewrite lsum_cons in Hb. unfold zlen in Hv. cbn [length] in Hv. rewrite Nat2Z.inj_succ in Hv.
  assert (exists pv', apply_delta (accounts, pv) d =
    Ok (<[i := mkAccount (ac_account_id a) (ac_version a + 1) (ac_balance a + vd_amount d)]> accounts, pv'))
    as [pv' ->].
  { unfold apply_delta. rewrite Hf. cbn [ok_or mbind result_bind].
    rewrite checked_add_fits by lia. cbn [ok_or mbind result_bind]. rewrite checked_add_fits by lia.
    cbn [ok_or mbind result_bind].
    destruct (digest_value_ok "trnm.portable.v2.account-value.candidate.v1"
      (ac_account_id a, ac_version a + 1, ac_balance a + vd_amount d)) as [h ->]; [by apply ser_account|done|].
    cbn [mbind result_bind]. eauto. }
  cbn [mbind result_bind]. apply IH.
  - intros d' Hd'. destruct (Hd d') as [? Hin']; [by right|]. split; [done|]. rewrite list_fmap_insert. cbn.
    rewrite list_insert_id; [done|]. by rewrite list_lookup_fmap, Hi.
  - intros a' Ha'. apply list_elem_of_lookup in Ha' as [j Hj]. apply list_lookup_insert_Some in Hj as [(<- & <- & _)|[_ Hj]].
    + cbn. unfold zlen. lia.
    + destruct (Ha a') as [Hb' Hv']; [by eapply list_elem_of_lookup_2|]. rewrite lsum_cons in Hb'.
      unfold zlen in *. cbn [length] in Hv'. lia.
Qed.

Lemma sum_deltas_succeed ds t :
  (forall d, d ∈ ds -> 0 <= vd_amount d) -> t + lsum vd_amount ds <= u128_max ->
  try_fold sum_delta t ds = Ok (t + lsum vd_amount ds).
Proof.
  revert t. induction ds as [|d ds IH]; intros t Hd Ht; cbn [try_fold].
  - rewrite lsum_nil. by rewrite Z.add_0_r.
  - rewrite lsum_cons in Ht |- *. assert (0 <= lsum vd_amount ds) by (apply lsum_nonneg; intros; apply Hd; by right).
    assert (sum_delta t d = Ok (t + vd_amount d)) as -> by (unfold sum_delta; by rewrite checked_add_fits by lia).
    cbn [mbind result_bind]. rewrite IH; [f_equal; lia|intros; apply Hd; by right|lia].
Qed.

Lemma planned_deltas_elem d p c f :
  d ∈ planned_deltas trust p c f -> 0 < vd_amount d /\
    vd_account_id d ∈ [tr_provider_account_id trust; tr_consumer_account_id trust; tr_protocol_account_id trust].
Proof.
  unfold planned_deltas. rewrite sort_perm, !elem_of_app.
  destruct (0 <? p) eqn:?, (0 <? c) eqn:?, (0 <? f) eqn:?; bprop;
    rewrite ?list_elem_of_singleton, ?elem_of_nil; intros Hd; destruct_or? Hd; subst; cbn; set_solver by lia.
Qed.

Lemma planned_deltas_length p c f : zlen (planned_deltas trust p c f) <= 3.
Proof.
  unfold planned_deltas, zlen. rewrite sort_perm, !length_app.
  destruct (0 <? p), (0 <? c), (0 <? f); cbn; lia.
Qed.

Lemma initial_accounts_perm :
  k_accounts (initial_state trust) ≡ₚ
    [mkAccount (tr_provider_account_id trust) 0 (tr_provider_opening_balance trust);
     mkAccount (tr_consumer_account_id trust) 0 (tr_consumer_opening_balance trust);
     mkAccount (tr_protocol_account_id trust) 0 (tr_protocol_opening_balance trust)].
Proof. apply sort_by_key_perm. Qed.

(** ** No panic *)

Lemma settlement_digest_not_panic {A} `{BorshSerialize A} d (x : A) : digest_value d x <> Panic.
Proof. unfold digest_value, canonical_bytes, digest_encoded. destruct (borsh_to_vec x); cbn; [done|]. no_panic. Qed.

Lemma verify_signature_entry_not_panic k e b h d : verify_signature_entry k e b h d <> Panic.
Proof. unfold verify_signature_entry. no_panic. apply settlement_digest_not_panic. Qed.

Lemma verify_bilateral_not_panic b h d1 d2 e1 e2 : verify_bilateral_signatures trust b h d1 d2 e1 e2 <> Panic.
Proof. unfold verify_bilateral_signatures. no_panic; apply verify_signature_entry_not_panic. Qed.

Lemma try_fold_total_not_panic {E A B} (f : B -> A -> result E B) l b :
  (forall x a, f x a <> Panic) -> try_fold f b l <> Panic.
Proof. intros Hf. by apply (try_fold_not_panic (fun _ => True)). Qed.

Lemma admit_receipt_not_panic s h r : admit_receipt trust s h r <> Panic.
Proof.
  unfold admit_receipt. no_panic;
    unfold consumption_receipt_id_v1, validate_common_body, validate_usage, require_strictly_sorted,
      derive_cumulative_usage, price_usage; no_panic;
    try apply settlement_digest_not_panic; try apply verify_bilateral_not_panic; try done.
  - apply try_fold_total_not_panic. intros. unfold check_usage_entry. no_panic.
  - unfold check_prior. destruct (last _); no_panic.
  - apply try_fold_total_not_panic. intros [] ?. unfold cumulative_step.
    destruct (default _ _). no_panic. apply settlement_digest_not_panic.
  - apply try_fold_total_not_panic. intros. unfold price_entry. no_panic.
Qed.

Lemma admit_rollup_not_panic s h ro rs : admit_rollup trust s h ro rs <> Panic.
Proof.
  unfold admit_rollup. no_panic; unfold rollup_context_bad, settlement_policy_hash_v1, consumption_rollup_id_v1;
    no_panic; try apply settlement_digest_not_panic; try apply verify_bilateral_not_panic; try done;
    apply try_map_not_panic; intros ? _; [unfold numbered_receipt|unfold assign_receipt]; no_panic.
Qed.

Lemma settle_not_panic s h op :
  pol_protocol_fee_denominator (tr_settlement_policy trust) <> 0 -> settle trust s h op <> Panic.
Proof.
  intros Hd. unfold settle. no_panic; unfold settle_trigger_bad, settlement_policy_hash_v1; no_panic;
    try apply settlement_digest_not_panic; try done.
  - unfold u_div. rewrite (proj2 (Z.eqb_neq _ _)) by done. done.
  - apply try_fold_total_not_panic. intros. unfold sum_delta. no_panic.
  - apply try_fold_total_not_panic. intros [] ?. unfold apply_delta. no_panic. apply settlement_digest_not_panic.
Qed.

Lemma validated_status : validate_trust_bundle trust = Ok tt -> tr_result_status trust = RESULT_STATUS_FINAL_VALID_V1.
Proof. unfold validate_trust_bundle. intros Hv. rinv. by bprop. Qed.

(** The payouts of a settlement go through, and add up to the funding. *)
Lemma settlement_accounts_succeed s charge :
  settle_serializes -> k_accounts s = k_accounts (initial_state trust) ->
  Forall (fun a => ac_balance a + tr_escrow_funding trust <= u128_max) (k_accounts (initial_state trust)) ->
  0 <= charge <= tr_escrow_funding trust -> 0 <= protocol_fee trust charge <= charge ->
  let ds := planned_deltas trust (charge - protocol_fee trust charge) (tr_escrow_funding trust - charge)
              (protocol_fee trust charge) in
  exists r, try_fold apply_delta (k_accounts s, []) ds = Ok r /\
    try_fold sum_delta 0 ds = Ok (tr_escrow_funding trust).
Proof.
  intros Hser Ha Hacc Hrange Hfee ds. pose proof Htyped as (Hfund & _). unfold in_u128 in Hfund.
  assert (Hds : lsum vd_amount ds = tr_escrow_funding trust) by (unfold ds; rewrite planned_deltas_total; lia).
  pose proof (planned_deltas_length (charge - protocol_fee trust charge) (tr_escrow_funding trust - charge)
    (protocol_fee trust charge)) as Hlen. fold ds in Hlen.
  destruct (apply_deltas_succeed ds (k_accounts s) [] Hser) as [r Hr].
  - intros d Hd. apply planned_deltas_elem in Hd as [? Hin]. split; [lia|]. by rewrite Ha, initial_accounts_perm.
  - rewrite Ha. intros a Hin. rewrite Hds. rewrite Forall_forall in Hacc. split; [by apply Hacc|].
    rewrite initial_accounts_perm in Hin. assert (ac_version a = 0) as -> by set_solver. unfold u64_max. lia.
  - exists r. split; [done|]. rewrite sum_deltas_succeed; [by rewrite Hds| |lia].
    intros d Hd. apply planned_deltas_elem in Hd. lia.
Qed.

(** A payout records one post version per delta. *)
Lemma apply_deltas_length ds accounts pv accounts' pv' :
  try_fold apply_delta (accounts, pv) ds = Ok (accounts', pv') -> zlen pv' = zlen pv + zlen ds.
Proof.
  revert accounts pv. induction ds as [|d ds IH]; intros accounts pv Hf; cbn [try_fold] in Hf.
  - injection Hf as <- <-. unfold zlen. cbn. lia.
  - apply bind_Ok in Hf as ([accounts1 pv1] & Hd & Hf). apply IH in Hf. unfold apply_delta in Hd. rinv. subst.
    rewrite Hf. rewrite !zlen_app. unfold zlen. cbn [length]. lia.
Qed.

(** Evaluate the next step of a settlement. *)
Ltac srun := cbn -[str digest_value settle_trigger_bad planned_deltas try_fold apply_delta u128_max u64_max
                    sort_by_key protocol_fee checked_add checked_sub checked_mul u_div Z.leb Z.ltb Z.eqb].
Ltac sdigest :=
  match goal with |- context [digest_value ?d ?x] =>
    let h := fresh "h" in destruct (digest_value_ok d x) as [h ->];
    [first [apply ser_inputs|apply ser_deltas|apply ser_conservation|apply ser_policy|apply ser_intent|apply ser_post];
     first [assumption|done]|reflexivity|srun]
  end.

Lemma settle_completes s ro h op accounts pv :
  validate_trust_bundle trust = Ok tt -> settle_serializes ->
  k_escrow s = k_escrow (initial_state trust) -> k_result s = k_result (initial_state trust) ->
  k_rollup s = Some ro -> k_settlement s = None -> rst_version ro = 0 -> rst_status ro = 0 ->
  rst_consumed_by_settlement_id ro = None -> rst_challenge_close_height ro < h ->
  settle_trigger_bad trust s ro op = Ok false ->
  let charge := ob_total_charge (ro_body (rst_rollup ro)) in
  0 <= charge <= tr_escrow_funding trust -> 0 <= protocol_fee trust charge <= charge ->
  charge * pol_protocol_fee_numerator (tr_settlement_policy trust) <= u128_max ->
  tr_escrow_version trust < u64_max -> tr_result_revision trust < u64_max ->
  utf8_len (ctx_chain_id (tr_context trust)) <= u32_max ->
  let ds := planned_deltas trust (charge - protocol_fee trust charge) (tr_escrow_funding trust - charge)
              (protocol_fee trust charge) in
  try_fold apply_delta (k_accounts s, []) ds = Ok (accounts, pv) ->
  try_fold sum_delta 0 ds = Ok (tr_escrow_funding trust) ->
  exists s' sid, settle trust s h op = Ok (s', sid).
Proof.
  intros Hv Hser He Hres Hro Hse Hver Hst Hcons Hh Htrig charge Hrange Hfee Hprod Hev Hrv Hchain ds Happ Hsum.
  assert (Hlen : zlen ds <= u32_max).
  { transitivity 3; [exact (planned_deltas_length _ _ _)|done]. }
  assert (Hpost : zlen (sort_by_key pa_account_id pv) <= u32_max)
    by (unfold zlen; rewrite sort_by_key_perm; apply apply_deltas_length in Happ; unfold zlen in *; cbn in Happ; lia).
  destruct (validated_fee Hv) as [Hd _]. pose proof (validated_status Hv) as Hstatus.
  unfold settle. rewrite Hse, He, Hro, Hres. srun. rewrite Htrig. srun.
  rewrite Hstatus, Hst, Hcons, !Z.eqb_refl. srun.
  rewrite (proj2 (Z.leb_gt _ _)) by done. srun. fold charge. rewrite (proj2 (Z.ltb_ge _ _)) by lia. srun.
  rewrite checked_mul_fits by done. srun. unfold u_div. rewrite (proj2 (Z.eqb_neq _ 0)) by lia. srun.
  change (_ / _) with (protocol_fee trust charge). rewrite !checked_sub_fits by lia. srun.
  fold ds. rewrite Hsum. srun. rewrite Z.eqb_refl. srun. unfold settlement_policy_hash_v1.
  repeat sdigest. rewrite Happ. srun. repeat sdigest.
  rewrite (checked_add_fits u64_max (tr_escrow_version trust)), (checked_add_fits u64_max (tr_result_revision trust)),
    Hver, (checked_add_fits u64_max 0) by (unfold u64_max in *; lia). srun. eauto.
Qed.

(** ** Theorems *)

(** C19: value is conserved.  In every reachable state the escrow balance plus
    the account balances equal the escrow funding plus the opening balances of
    the genesis bundle. *)
Theorem settlement_conserves_value s :
  reach s ->
  total_value s = tr_escrow_funding trust + tr_provider_opening_balance trust
                  + tr_consumer_opening_balance trust + tr_protocol_opening_balance trust.
Proof.
  intros Hr. destruct (reach_ok s Hr) as [Hp _]. unfold total_value.
  assert (lsum ac_balance (k_accounts (initial_state trust)) =
    tr_provider_opening_balance trust + tr_consumer_opening_balance trust + tr_protocol_opening_balance trust) as Hi
    by (rewrite initial_accounts_perm, !lsum_cons, lsum_nil; cbn; lia).
  destruct Hp as [? (He & _ & Ha)|? ? (He & _ & Ha)|? ? ? ? ? ? ? Hb ? ? Ht]; rewrite ?He, ?Ha, ?Hb, ?Ht, Hi; cbn; lia.
Qed.

(** C20: the payout is exact.  When a settlement succeeds on a reachable state
    of a validated bundle, the provider receives the sum of the period charges
    of the whole receipt chain less the floored protocol fee, the consumer
    receives the unspent funding, the protocol account receives the fee, and
    the challenge window of the rollup has closed. *)
Theorem settlement_pays_exactly s h op s' sid :
  validate_trust_bundle trust = Ok tt -> reach s -> settle trust s h op = Ok (s', sid) ->
  exists ro, k_rollup s = Some ro /\
    rst_accepted_height ro + pol_minimum_rollup_challenge_blocks (tr_settlement_policy trust) < h /\
    (let charge := lsum (period_charge trust) (k_receipts s) in
     balance_in (k_accounts s') (tr_provider_account_id trust) =
       tr_provider_opening_balance trust + (charge - protocol_fee trust charge) /\
     balance_in (k_accounts s') (tr_consumer_account_id trust) =
       tr_consumer_opening_balance trust + (tr_escrow_funding trust - charge) /\
     balance_in (k_accounts s') (tr_protocol_account_id trust) =
       tr_protocol_opening_balance trust + protocol_fee trust charge).
Proof.
  intros Hv Hr Hs. destruct (reach_ok s Hr) as [Hp Hc]. destruct Htyped as (Hfund & _). unfold in_u128 in Hfund.
  assert (Hroll : forall ro, k_rollup s = Some ro -> rolls_up (k_receipts s) ro) by (intros; destruct Hp; by simplify_eq).
  apply settle_inv in Hs as (ro & st & Hro & Hse & Hh & _ & _ & _ & _ & _ & _ & _ & _ & Hbal).
  2: { intros ro Hro. destruct (Hroll ro Hro) as (_ & _ & _ & _ & -> & _). apply (chain_charge_range _ Hc). lia. }
  destruct (Hroll ro Hro) as (_ & _ & _ & _ & Hch & Hclose). rewrite (chain_charge_sum _ Hc) in Hch.
  destruct (validated_accounts_distinct Hv) as (H1 & H2 & H3).
  assert (untouched s) as (He & _ & Ha) by (destruct Hp; by simplify_eq).
  exists ro. split; [done|]. split; [lia|].
  assert (Hi : forall id, balance_in (k_accounts s) id =
    (if decide (tr_provider_account_id trust = id) then tr_provider_opening_balance trust else 0) +
    (if decide (tr_consumer_account_id trust = id) then tr_consumer_opening_balance trust else 0) +
    (if decide (tr_protocol_account_id trust = id) then tr_protocol_opening_balance trust else 0)).
  { intros id. unfold balance_in. rewrite Ha, initial_accounts_perm, !lsum_cons, lsum_nil. cbn [ac_account_id ac_balance]. lia. }
  cbv zeta. rewrite !Hbal, !Hi, Hch, He. cbn [k_escrow initial_state es_balance].
  repeat (destruct (decide _); try congruence). lia.
Qed.

(** The admitted receipts form one contiguous chain in every reachable
    state: exact sequence numbers, each naming its predecessor's digest and
    starting where its period ended, charges accumulating the priced usage, and
    never above the escrow funding. *)
Theorem admitted_receipts_form_a_chain s :
  reach s ->
  receipt_chain (k_receipts s) /\
  last_charge (k_receipts s) = lsum (period_charge trust) (k_receipts s) /\
  last_charge (k_receipts s) <= tr_escrow_funding trust.
Proof.
  intros Hr. destruct (reach_ok s Hr) as [_ Hc]. destruct Htyped as (Hfund & _). unfold in_u128 in Hfund.
  split_and!; [done|by apply chain_charge_sum|]. apply (chain_charge_range _ Hc). lia.
Qed.

(** the engine is a one-way three-phase machine.  Every reachable state is
    collecting receipts, rolled up, or settled, with what that phase fixes; once
    rolled up no receipt or second rollup is accepted; once settled every
    command is refused, a settlement with [AlreadyConsumed]. *)
Theorem settlement_phases_one_way s h :
  reach s ->
  phase s /\
  (is_Some (k_rollup s) ->
   (forall r, exists m, apply_transition trust s h (AdmitReceipt r) = Err (error InvalidTransition m)) /\
   (forall ro rs, exists m, apply_transition trust s h (AdmitRollup ro rs) = Err (error InvalidTransition m))) /\
  (is_Some (k_settlement s) ->
   is_Some (k_rollup s) /\
   forall op, exists m, apply_transition trust s h (Settle op) = Err (error AlreadyConsumed m)).
Proof.
  intros Hr. destruct (reach_ok s Hr) as [Hp _]. split; [done|]. split.
  - intros Hro. split; intros; cbn; unfold admit_receipt, admit_rollup;
      rewrite (bool_decide_eq_true_2 _ Hro); cbn; eauto.
  - intros Hse. split.
    + destruct Hp as [? ? ? Hn|? ? ? ? Hn|? ? ? Hro]; [rewrite Hn in Hse; by destruct Hse..|by rewrite Hro].
    + intros op. cbn. unfold settle. rewrite (bool_decide_eq_true_2 _ Hse). cbn. eauto.
Qed.

(** C23: no stuck escrow.  A reachable rolled-up state of a validated bundle can
    always be settled once its challenge window closed: any trigger that matches
    the state succeeds, provided the fee product fits 128 bits, no destination
    can overflow, the two version counters are not exhausted and the chain
    identifier has at most 2^32 - 1 bytes.  Of Borsh it assumes that values of fixed
    size are encoded, and lists and strings whose length fits 32 bits
    ([settle_serializes]). *)
Theorem settlement_succeeds s ro h op :
  validate_trust_bundle trust = Ok tt -> settle_serializes -> reach s ->
  k_rollup s = Some ro -> k_settlement s = None -> rst_challenge_close_height ro < h ->
  settle_trigger_bad trust s ro op = Ok false ->
  ob_total_charge (ro_body (rst_rollup ro)) * pol_protocol_fee_numerator (tr_settlement_policy trust) <= u128_max ->
  Forall (fun a => ac_balance a + tr_escrow_funding trust <= u128_max) (k_accounts (initial_state trust)) ->
  tr_escrow_version trust < u64_max -> tr_result_revision trust < u64_max ->
  utf8_len (ctx_chain_id (tr_context trust)) <= u32_max ->
  exists s' sid, apply_transition trust s h (Settle op) = Ok (s', Some sid).
Proof.
  intros Hv Hser Hr Hro Hse Hh Htrig Hprod Hacc Hev Hrv Hchain. destruct (reach_ok s Hr) as [Hp Hc].
  pose proof Htyped as (Hfund & _). unfold in_u128 in Hfund.
  destruct Hp as [|? ro' (He & Hres & Ha) ? ? Hru Hver Hst Hcons|]; simplify_eq.
  destruct Hru as (_ & _ & _ & _ & Hch & _). pose proof (chain_charge_range _ Hc ltac:(lia)) as Hrange.
  rewrite <- Hch in Hrange.
  pose proof (protocol_fee_range _ Hv (proj1 Hrange)) as Hfee.
  destruct (settlement_accounts_succeed s _ Hser Ha Hacc Hrange Hfee) as ([accounts pv] & Happ & Hsum).
  destruct (settle_completes s ro h op accounts pv) as (s' & sid & Hok); try done.
  exists s', sid. cbn. by rewrite Hok.
Qed.

(** no transition panics.  For a validated bundle, no command on any state
    divides by zero or unwraps nothing. *)
Theorem settlement_never_panics s h c :
  validate_trust_bundle trust = Ok tt -> apply_transition trust s h c <> Panic.
Proof.
  intros Hv. destruct (validated_fee Hv) as [Hd _]. destruct c; cbn; no_panic;
    auto using admit_receipt_not_panic, admit_rollup_not_panic.
  apply settle_not_panic. lia.
Qed.

(** A rolled-up charge whose fee product exceeds 128 bits can never be settled. *)
Lemma fee_overflow_blocks_settlement s ro h op r :
  k_rollup s = Some ro ->
  u128_max < ob_total_charge (ro_body (rst_rollup ro)) * pol_protocol_fee_numerator (tr_settlement_policy trust) ->
  settle trust s h op <> Ok r.
Proof. intros Hro Hbig Hs. unfold settle in Hs. rinv. checked. simplify_eq. lia. Qed.

End theorems.

(** ** Cumulative usage *)

Section cumulative.
Context `{SettlementCrates}.

(** What a prior receipt records for a resource key. *)
Definition recorded (m : gmap ResourceKey (Z * Hash32V1)) (k : ResourceKey) : Z :=
  (default (0, default_hash) (m !! k)).1.

(** A continued entry: same resource key, the prior total plus the new amount. *)
Definition continues (m : gmap ResourceKey (Z * Hash32V1)) (u : ResourceUsageV1)
    (c : CumulativeResourceUsageV1) : Prop :=
  cumulative_key c = usage_key u /\ cu_total_amount c = recorded m (usage_key u) + ru_amount u.

Lemma cumulative_steps m0 us m out m' out' :
  NoDup (usage_key <$> us) -> (forall u, u ∈ us -> m !! usage_key u = m0 !! usage_key u) ->
  try_fold cumulative_step (m, out) us = Ok (m', out') ->
  (exists cs, out' = out ++ cs /\ Forall2 (continues m0) us cs) /\
  forall k, k ∉ usage_key <$> us -> m' !! k = m !! k.
Proof.
  revert m out. induction us as [|u us IH]; intros m out Hnd Hm Hf; cbn [try_fold] in Hf.
  - injection Hf as <- <-. split; [|done]. exists []. by rewrite app_nil_r.
  - cbn in Hnd. apply NoDup_cons in Hnd as [Hu Hnd]. apply bind_Ok in Hf as ([m1 out1] & H1 & Hf).
    unfold cumulative_step in H1. destruct (default _ _) as [pt pacc] eqn:Edef. rinv. checked. simplify_eq.
    apply IH in Hf as [(cs & -> & Hcs) Hk]; [|done|].
    + split.
      * eexists (_ :: cs). rewrite <- app_assoc. split; [done|]. constructor; [|done]. split; [done|]. cbn.
        unfold recorded. rewrite <- Hm by by left. by rewrite Edef.
      * intros k Hk'. rewrite Hk by set_solver. rewrite lookup_delete_ne; [done|]. set_solver.
    + intros u' Hu'. rewrite lookup_delete_ne; [apply Hm; by right|]. intros E. apply Hu. rewrite E.
      by apply list_elem_of_fmap_2.
Qed.

(** Cumulative usage is exact.  When the usage entries have distinct
    resource keys, the derived cumulative usage has exactly one entry per usage
    entry, whose total is the prior receipt's total for that key plus the new
    amount, and every resource of the prior receipt is continued. *)
Theorem cumulative_usage_exact prior us out :
  NoDup (usage_key <$> us) -> derive_cumulative_usage prior us = Ok out ->
  (exists cs, out ≡ₚ cs /\ Forall2 (continues (prior_totals prior)) us cs) /\
  forall k, is_Some (prior_totals prior !! k) -> k ∈ usage_key <$> us.
Proof.
  intros Hnd Hd. unfold derive_cumulative_usage in Hd. apply bind_Ok in Hd as ([m' o] & Hf & Hd). rinv. bprop. subst.
  apply (cumulative_steps (prior_totals prior)) in Hf as [(cs & -> & Hcs) Hk]; [|done|done].
  split; [exists cs; split; [apply sort_perm|done]|].
  intros k [x Hx]. destruct (decide (k ∈ usage_key <$> us)) as [|Hn]; [done|].
  specialize (Hk k Hn). by rewrite lookup_empty, Hx in Hk.
Qed.

End cumulative.
