(* ===== verification/SettlementWitness.v ===== *)
(** * SettlementWitness: the settlement theorems on a concrete run

    Two receipts, a rollup and a settlement, with the cryptographic and
    serialization parameters instantiated by simple concrete functions; the
    theorems of [SettlementTheorems] are applied to it. *)

From stdpp Require Import base gmap list sorting strings.
From S2P Require Import Prelude SettlementTypes Settlement SettlementTheorems.

(** An encoding is empty and fails when a length exceeds 32 bits. *)
Definition empty_if (fits : bool) : string + list Z := if fits then inr [] else inl "length exceeds u32"%string.
Definition fits_u32 {A} (l : list A) : bool := zlen l <=? u32_max.

(** The digest is the all-zero one, and every signature verifies. *)
#[local] Instance demo_crates : SettlementCrates := {|
  sha256 := fun _ => replicate 32 0;
  verifying_key_ok := fun _ => true;
  signature_ok := fun _ => true;
  verify_strict := fun _ _ _ => true;
  borsh_receipt_body := fun _ => inr [];
  borsh_rollup_body := fun _ => inr [];
  borsh_policy := fun _ => inr [];
  borsh_command := fun _ => inr [];
  borsh_state := fun _ => inr [];
  borsh_cumulative := fun l => empty_if (fits_u32 l);
  borsh_accumulator := fun _ => inr [];
  borsh_statement := fun _ => inr [];
  borsh_receipt_entries := fun l => empty_if (fits_u32 l);
  borsh_inputs := fun l => empty_if (fits_u32 l);
  borsh_deltas := fun l => empty_if (fits_u32 l);
  borsh_conservation := fun _ => inr [];
  borsh_intent := fun x => empty_if ((utf8_len (ctx_chain_id (it_context x)) <=? u32_max)
    && fits_u32 (it_consumption_rollup_ids x) && fits_u32 (it_inputs x) && fits_u32 (it_planned_deltas x));
  borsh_account_value := fun _ => inr [];
  borsh_post_versions := fun l => empty_if (fits_u32 l);
|}.

Lemma demo_serializes : settle_serializes.
Proof.
  constructor; intros x; try (by exists []); unfold borsh_to_vec; cbn; unfold fits_u32; intros;
    rewrite !(proj2 (Z.leb_le _ _)) by done; by exists [].
Qed.

Definition h0 : Hash32V1 := replicate 32 0.
Definition s_context : ProtocolContextV1 := mkContext h0 (str "c") 1 h0.
Definition s_provider : RegisteredBilateralKeyV1 := mkKey [1] [1] [1] 0 0.
Definition s_consumer : RegisteredBilateralKeyV1 := mkKey [2] [2] [2] 0 0.
Definition s_policy : SettlementPolicyV1 := mkPolicy 1 1 5 1 1 10 h0.

Definition demo_trust : Trust :=
  mkTrust 1 s_context 0 h0 s_provider s_consumer [7] [8] 1 [9] 0 3 [10] 0 [11] 1000 [3] [4] [5] 1 2 0
    [mkPrice 1 [1] [1] 1 1 10] [[12]] h0 s_policy.

Definition demo_usage (n : Z) : ResourceUsageV1 := mkUsage 1 [1] [1] 1 n 1 h0.
Definition demo_entry (k : RegisteredBilateralKeyV1) (h : Z) : BilateralSignatureEntryV1 :=
  mkEntry (bk_agent_id k) (bk_key_id k) 4 0 0 h 0 [].
Definition demo_receipt (seq from to n total charge : Z) (prior : option Hash32V1) : ConsumptionReceiptV1 :=
  mkReceipt
    (mkReceiptBody 1 s_context [1] [2] [7] [8] 1 [9] [1] 1 seq from to [demo_usage n] prior
       [mkCumulative 1 [1] [1] 1 total 1 h0] h0 charge [12] h0)
    (demo_entry s_provider to) (demo_entry s_consumer to).
Definition r1 : ConsumptionReceiptV1 := demo_receipt 1 1 4 3 3 30 None.
Definition r2 : ConsumptionReceiptV1 := demo_receipt 2 5 6 2 5 50 (Some h0).
Definition demo_rollup : ConsumptionRollupV1 :=
  mkRollup
    (mkRollupBody 1 s_context [1] [2] [7] [8] 1 [9] [1] 1 1 2 [h0; h0] 2 h0 [demo_usage 5] 50 [12] [10] h0 h0)
    (demo_entry s_provider 7) (demo_entry s_consumer 7).
Definition demo_operation : SettlementOperationBodyV1 := mkOperation 1 s_context [7] [8] 1 [9] 0 0 0 h0.

(** Run a command, keeping the state when it is refused. *)
Definition run1 (s : KState) (p : Z * ConsumptionSettlementCommandV1) : KState :=
  match apply_transition demo_trust s p.1 p.2 with Ok (s', _) => s' | _ => s end.
Definition st1 : KState := run1 (initial_state demo_trust) (4, AdmitReceipt r1).
Definition st2 : KState := run1 st1 (6, AdmitReceipt r2).
Definition st3 : KState := run1 st2 (7, AdmitRollup demo_rollup [r1; r2]).
Definition st4 : KState := run1 st3 (13, Settle demo_operation).

(** The provider earns 50 less the 10% fee, the consumer gets the rest back. *)
Example demo_payout :
  (fun s => (balance_in (k_accounts s) [3], balance_in (k_accounts s) [4], balance_in (k_accounts s) [5])) st4
  = (46, 952, 5).
Proof. vm_compute. reflexivity. Qed.

Lemma demo_typed : typed_trust demo_trust.
Proof. unfold typed_trust, in_u128. repeat split; try (vm_compute; congruence). repeat constructor. vm_compute. congruence. Qed.
Lemma demo_valid : validate_trust_bundle demo_trust = Ok tt.
Proof. vm_compute. reflexivity. Qed.

Lemma demo_no_overflow :
  Forall (fun a => ac_balance a + tr_escrow_funding demo_trust <= u128_max) (k_accounts (initial_state demo_trust)).
Proof.
  rewrite (initial_accounts_perm demo_trust).
  repeat (apply Forall_cons_2; [vm_compute; congruence|]). apply Forall_nil_2.
Qed.

Lemma reach_run s p :
  reach demo_trust s -> typed_command p.2 -> reach demo_trust (run1 s p).
Proof.
  intros Hr Ht. unfold run1. destruct (apply_transition demo_trust s p.1 p.2) as [[s' sid]|e|] eqn:E; try done.
  by eapply reach_step.
Qed.

Lemma reach1 : reach demo_trust st1.
Proof. apply reach_run; [constructor|]. repeat constructor. vm_compute. congruence. Qed.
Lemma reach2 : reach demo_trust st2.
Proof. apply reach_run; [apply reach1|]. repeat constructor. vm_compute. congruence. Qed.
Lemma reach3 : reach demo_trust st3.
Proof. apply reach_run; [apply reach2|done]. Qed.
Lemma reach4 : reach demo_trust st4.
Proof. apply reach_run; [apply reach3|done]. Qed.

Lemma settlement_conserves_value_witness :
  total_value st4 = tr_escrow_funding demo_trust + tr_provider_opening_balance demo_trust
                  + tr_consumer_opening_balance demo_trust + tr_protocol_opening_balance demo_trust.
Proof. exact (settlement_conserves_value demo_trust demo_typed st4 reach4). Defined.

Lemma settlement_pays_exactly_witness :
  exists ro, k_rollup st3 = Some ro /\
    rst_accepted_height ro + pol_minimum_rollup_challenge_blocks (tr_settlement_policy demo_trust) < 13 /\
    (let charge := lsum (period_charge demo_trust) (k_receipts st3) in
     balance_in (k_accounts st4) (tr_provider_account_id demo_trust) =
       tr_provider_opening_balance demo_trust + (charge - protocol_fee demo_trust charge) /\
     balance_in (k_accounts st4) (tr_consumer_account_id demo_trust) =
       tr_consumer_opening_balance demo_trust + (tr_escrow_funding demo_trust - charge) /\
     balance_in (k_accounts st4) (tr_protocol_account_id demo_trust) =
       tr_protocol_opening_balance demo_trust + protocol_fee demo_trust charge).
Proof.
  apply (settlement_pays_exactly demo_trust demo_typed st3 13 demo_operation st4 h0 demo_valid reach3).
  vm_compute. reflexivity.
Defined.

Lemma admitted_receipts_form_a_chain_witness :
  receipt_chain demo_trust (k_receipts st3) /\
  last_charge (k_receipts st3) = lsum (period_charge demo_trust) (k_receipts st3) /\
  last_charge (k_receipts st3) <= tr_escrow_funding demo_trust.
Proof. exact (admitted_receipts_form_a_chain demo_trust demo_typed st3 reach3). Defined.

Lemma settlement_phases_one_way_witness :
  exists m, apply_transition demo_trust st4 20 (Settle demo_operation) = Err (error AlreadyConsumed m).
Proof.
  apply (settlement_phases_one_way demo_trust demo_typed st4 20 reach4). vm_compute. by eexists.
Defined.

Lemma settlement_succeeds_witness :
  exists s' sid, apply_transition demo_trust st3 13 (Settle demo_operation) = Ok (s', Some sid).
Proof.
  apply (settlement_succeeds demo_trust demo_typed st3 (mkRollupState demo_rollup h0 0 7 12 0 None)).
  - exact demo_valid.
  - exact demo_serializes.
  - exact reach3.
  - vm_compute. reflexivity.
  - vm_compute. reflexivity.
  - vm_compute. reflexivity.
  - vm_compute. reflexivity.
  - vm_compute. congruence.
  - apply demo_no_overflow.
  - vm_compute. reflexivity.
  - vm_compute. reflexivity.
  - vm_compute. congruence.
Defined.

Lemma settlement_never_panics_witness : apply_transition demo_trust st3 13 (Settle demo_operation) <> Panic.
Proof. exact (settlement_never_panics demo_trust demo_typed st3 13 (Settle demo_operation) demo_valid). Defined.

Lemma cumulative_usage_exact_witness :
  (exists cs, [mkCumulative 1 [1] [1] 1 5 1 h0] ≡ₚ cs /\
    Forall2 (continues (prior_totals (last (k_receipts st1)))) [demo_usage 2] cs) /\
  forall k, is_Some (prior_totals (last (k_receipts st1)) !! k) -> k ∈ usage_key <$> [demo_usage 2].
Proof.
  apply cumulative_usage_exact.
  - repeat constructor. set_solver.
  - vm_compute. reflexivity.
Defined.

(** ** A usage list with a repeated resource key

    Entries of one resource that differ in their amount are strictly sorted, so
    [validate_usage] accepts them; the next receipt then continues only the
    last of the two recorded totals. *)

Definition dup_body : ConsumptionReceiptBodyV1 :=
  mkReceiptBody 1 s_context [1] [2] [7] [8] 1 [9] [1] 1 1 1 4 [demo_usage 3; demo_usage 4] None
    [mkCumulative 1 [1] [1] 1 3 1 h0; mkCumulative 1 [1] [1] 1 4 1 h0] h0 70 [12] h0.
Definition dup_receipt : ConsumptionReceiptV1 :=
  mkReceipt dup_body (demo_entry s_provider 4) (demo_entry s_consumer 4).
Definition dup_state : KState := run1 (initial_state demo_trust) (4, AdmitReceipt dup_receipt).

(** A receipt for 3 + 4 units is admitted, and after 2 more units the derived
    cumulative total is 6, not 9. *)
Example duplicate_usage_key_loses_total :
  (k_receipts dup_state <> []) /\
  derive_cumulative_usage (last (k_receipts dup_state)) [demo_usage 2]
    = Ok [mkCumulative 1 [1] [1] 1 6 1 h0].
Proof. vm_compute. split; [congruence|reflexivity]. Qed.
