(* ===== verification/Parallel.v ===== *)
(** * Parallel: the bounded parallel executor of [trnm-mvcc-fee]

    [deterministic_parallel_v1.rs]: block validation, speculation by worker
    threads over a shared immutable parent, and the index-ordered commit loop
    with re-execution on read-version conflicts.  A worker is a pure loop whose
    rows are joined in worker order.  SHA-256 is a parameter. *)

From stdpp Require Import base gmap list sorting strings.
From S2P Require Import Prelude.

Definition MAX_PARALLEL_WORKERS_V1 : nat := 64.

Abbreviation Id32 := (list Z).

Definition STATE_ROOT_DOMAIN_V1 : list Z := str "trnm.g2d.parallel.state-root.v1" ++ [0].
Definition RECEIPT_ROOT_DOMAIN_V1 : list Z := str "trnm.g2d.parallel.receipt-root.v1" ++ [0].
Definition WRITE_SET_ROOT_DOMAIN_V1 : list Z := str "trnm.g2d.parallel.write-set-root.v1" ++ [0].
Definition FEE_ROOT_DOMAIN_V1 : list Z := str "trnm.g2d.parallel.fee-root.v1" ++ [0].

Inductive ParallelExecutionErrorV1 :=
| EmptyBlock | InvalidWorkerCount | NonCanonicalTransactionIndex | ZeroIdentifier
| DuplicateTransactionId | NonCanonicalAccessSet | UndeclaredRead | UndeclaredWrite
| DuplicateInstructionWrite | MissingObject | ArithmeticOverflow | ObjectVersionOverflow
| FeeLimitExceeded | WorkerPanicked | MissingWorkerResult.

Abbreviation PResult := (result ParallelExecutionErrorV1).

Record ParallelVersionedValueV1 := mkVersioned { vv_version : Z; vv_value : Z }.
#[export] Instance ParallelVersionedValueV1_eq_dec : EqDecision ParallelVersionedValueV1.
Proof. solve_decision. Defined.

(** [ParallelStateV1]: its [objects] map. *)
Abbreviation ParallelStateV1 := (gmap (list Z) ParallelVersionedValueV1).

Inductive ParallelInstructionV1 :=
| SetValue (target : Id32) (value : Z)
| AddFromRead (target source : Id32) (delta : Z).

Record ParallelResourceVectorV1 := mkVector {
  rv_compute_units : Z;
  rv_state_read_units : Z;
  rv_state_write_units : Z;
  rv_artifact_units : Z;
}.

Record ParallelFeeScheduleV1 := mkSchedule {
  fs_base_fee : Z;
  fs_compute_unit_price : Z;
  fs_state_read_unit_price : Z;
  fs_state_write_unit_price : Z;
  fs_artifact_unit_price : Z;
}.

Record ParallelTransactionV1 := mkTx {
  pt_index : Z;
  pt_transaction_id : Id32;
  pt_payer : Id32;
  pt_declared_reads : list Id32;
  pt_declared_writes : list Id32;
  pt_instructions : list ParallelInstructionV1;
  pt_base_compute_units : Z;
  pt_artifact_units : Z;
  pt_resource_limit : ParallelResourceVectorV1;
  pt_max_fee : Z;
  pt_force_revert : bool;
}.

Inductive ParallelReceiptStatusV1 := PSuccess | PReverted | POutOfResource.
#[export] Instance ParallelReceiptStatusV1_eq_dec : EqDecision ParallelReceiptStatusV1.
Proof. solve_decision. Defined.
Definition status_tag (s : ParallelReceiptStatusV1) : Z :=
  match s with PSuccess => 0 | PReverted => 1 | POutOfResource => 2 end.

Record ParallelExecutionReceiptV1 := mkPReceipt {
  er_index : Z;
  er_transaction_id : Id32;
  er_payer : Id32;
  er_status : ParallelReceiptStatusV1;
  er_retry_count : Z;
  er_usage : ParallelResourceVectorV1;
  er_fee_charged : Z;
  er_write_set_root : list Z;
  er_economic_authority : bool;
  er_settlement_authority : bool;
}.

Record ParallelFeeDeltaV1 := mkFeeDelta {
  fd_payer : Id32;
  fd_payer_debit : Z;
  fd_fee_sink_credit : Z;
}.

Record ParallelBlockResultV1 := mkBlockResult {
  br_state : ParallelStateV1;
  br_receipts : list ParallelExecutionReceiptV1;
  br_fee_deltas : list ParallelFeeDeltaV1;
  br_state_root : list Z;
  br_receipt_root : list Z;
  br_fee_root : list Z;
  br_worker_count : nat;
  br_economic_authority : bool;
  br_settlement_authority : bool;
  br_global_jmt_authority : bool;
}.

Record SpeculatedTransactionV1 := mkSpeculated {
  sx_transaction : ParallelTransactionV1;
  sx_read_versions : gmap (list Z) Z;
  sx_writes : gmap (list Z) Z;
  sx_status : ParallelReceiptStatusV1;
  sx_usage : ParallelResourceVectorV1;
  sx_fee_charged : Z;
}.

(** ** Construction and validation *)

Definition require_nonzero (value : Id32) : PResult () :=
  fail_if (value =?? replicate 32 0) ZeroIdentifier.

Definition from_objects (objects : list (Id32 * Z * Z)) : PResult ParallelStateV1 :=
  try_fold (fun state '(object_id, version, value) =>
    _ ← require_nonzero object_id;
    _ ← fail_if (bool_decide (is_Some (state !! object_id))) NonCanonicalAccessSet;
    Ok (<[object_id := mkVersioned version value]> state)) ∅ objects.

Definition access_step (previous : option Id32) (value : Id32) : PResult (option Id32) :=
  _ ← require_nonzero value;
  _ ← fail_if (match previous with Some item => ord_leb value item | None => false end) NonCanonicalAccessSet;
  Ok (Some value).

Definition validate_access_set (values : list Id32) : PResult () :=
  _ ← try_fold access_step None values; Ok tt.

Definition instruction_target (i : ParallelInstructionV1) : Id32 :=
  match i with SetValue target _ => target | AddFromRead target _ _ => target end.
Definition instruction_source (i : ParallelInstructionV1) : option Id32 :=
  match i with SetValue _ _ => None | AddFromRead _ source _ => Some source end.

(** One instruction: the sets of actual reads and writes so far. *)
Definition access_of_instruction (acc : gset (list Z) * gset (list Z)) (i : ParallelInstructionV1) :
    PResult (gset (list Z) * gset (list Z)) :=
  let '(actual_reads, actual_writes) := acc in
  let target := instruction_target i in
  _ ← require_nonzero target;
  _ ← fail_if (bool_decide (target ∈ actual_writes)) DuplicateInstructionWrite;
  let actual_writes := {[ target ]} ∪ actual_writes in
  match instruction_source i with
  | Some source => _ ← require_nonzero source; Ok ({[ source ]} ∪ actual_reads, actual_writes)
  | None => Ok (actual_reads, actual_writes)
  end.

Definition validate_transaction (t : ParallelTransactionV1) : PResult () :=
  _ ← validate_access_set (pt_declared_reads t);
  _ ← validate_access_set (pt_declared_writes t);
  '(actual_reads, actual_writes) ← try_fold access_of_instruction (∅, ∅) (pt_instructions t);
  _ ← fail_if (negb (bool_decide (actual_reads = list_to_set (pt_declared_reads t)))) UndeclaredRead;
  fail_if (negb (bool_decide (actual_writes = list_to_set (pt_declared_writes t)))) UndeclaredWrite.

Definition validate_entry (ids : gset (list Z)) (p : nat * ParallelTransactionV1) : PResult (gset (list Z)) :=
  let '(expected_index, t) := p in
  index ← ok_or (try_from u32_max (Z.of_nat expected_index)) NonCanonicalTransactionIndex;
  _ ← fail_if (negb (pt_index t =? index)) NonCanonicalTransactionIndex;
  _ ← require_nonzero (pt_transaction_id t);
  _ ← require_nonzero (pt_payer t);
  _ ← fail_if (bool_decide (pt_transaction_id t ∈ ids)) DuplicateTransactionId;
  _ ← validate_transaction t;
  Ok ({[ pt_transaction_id t ]} ∪ ids).

Definition validate_block (transactions : list ParallelTransactionV1) (worker_count : nat) : PResult () :=
  _ ← fail_if (is_empty transactions) EmptyBlock;
  _ ← fail_if (Nat.eqb worker_count 0 || Nat.ltb MAX_PARALLEL_WORKERS_V1 worker_count) InvalidWorkerCount;
  _ ← try_fold validate_entry ∅ (imap (fun i t => (i, t)) transactions);
  Ok tt.

(** ** Executing one transaction *)

Definition exceeds (u l : ParallelResourceVectorV1) : bool :=
  (rv_compute_units l <? rv_compute_units u) || (rv_state_read_units l <? rv_state_read_units u)
  || (rv_state_write_units l <? rv_state_write_units u) || (rv_artifact_units l <? rv_artifact_units u).

Definition checked_fee_component (current units price : Z) : PResult Z :=
  component ← ok_or (checked_mul u128_max units price) ArithmeticOverflow;
  ok_or (checked_add u128_max current component) ArithmeticOverflow.

Definition fee_for (s : ParallelFeeScheduleV1) (usage : ParallelResourceVectorV1) : PResult Z :=
  total ← checked_fee_component (fs_base_fee s) (rv_compute_units usage) (fs_compute_unit_price s);
  total ← checked_fee_component total (rv_state_read_units usage) (fs_state_read_unit_price s);
  total ← checked_fee_component total (rv_state_write_units usage) (fs_state_write_unit_price s);
  checked_fee_component total (rv_artifact_units usage) (fs_artifact_unit_price s).

Definition record_read (state : ParallelStateV1) (m : gmap (list Z) Z) (object_id : Id32) : PResult (gmap (list Z) Z) :=
  value ← ok_or (state !! object_id) MissingObject;
  Ok (<[object_id := vv_version value]> m).

Definition require_present (state : ParallelStateV1) (_ : ()) (object_id : Id32) : PResult () :=
  fail_if (bool_decide (state !! object_id = None)) MissingObject.

Definition run_instruction (state : ParallelStateV1) (writes : gmap (list Z) Z) (i : ParallelInstructionV1) :
    PResult (gmap (list Z) Z) :=
  match i with
  | SetValue target value => Ok (<[target := value]> writes)
  | AddFromRead target source delta =>
      source_value ← ok_or (state !! source) MissingObject;
      value ← ok_or (i128_checked_add (vv_value source_value) delta) ArithmeticOverflow;
      Ok (<[target := value]> writes)
  end.

Definition transaction_usage (t : ParallelTransactionV1) : PResult ParallelResourceVectorV1 :=
  instruction_units ← ok_or (try_from u64_max (zlen (pt_instructions t))) ArithmeticOverflow;
  compute_units ← ok_or (checked_add u64_max (pt_base_compute_units t) instruction_units) ArithmeticOverflow;
  state_read_units ← ok_or (try_from u64_max (zlen (pt_declared_reads t))) ArithmeticOverflow;
  state_write_units ← ok_or (try_from u64_max (zlen (pt_declared_writes t))) ArithmeticOverflow;
  Ok (mkVector compute_units state_read_units state_write_units (pt_artifact_units t)).

Definition execute_transaction (state : ParallelStateV1) (t : ParallelTransactionV1)
    (fee_schedule : ParallelFeeScheduleV1) : PResult SpeculatedTransactionV1 :=
  usage ← transaction_usage t;
  fee_charged ← fee_for fee_schedule usage;
  _ ← fail_if (pt_max_fee t <? fee_charged) FeeLimitExceeded;
  read_versions ← try_fold (record_read state) ∅ (pt_declared_reads t);
  _ ← try_fold (require_present state) tt (pt_declared_writes t);
  let status := if exceeds usage (pt_resource_limit t) then POutOfResource
                else if pt_force_revert t then PReverted else PSuccess in
  writes ← (if status =?? PSuccess then try_fold (run_instruction state) ∅ (pt_instructions t) else Ok ∅);
  Ok (mkSpeculated t read_versions writes status usage fee_charged).

(** ** Speculation *)

(** A worker's loop from [position] in steps of [worker_count]; [fuel] bounds the
    number of iterations. *)
Fixpoint worker_rows (fuel : nat) (parent : ParallelStateV1) (transactions : list ParallelTransactionV1)
    (worker_count : nat) (fee_schedule : ParallelFeeScheduleV1) (position : nat) :
    list (nat * PResult SpeculatedTransactionV1) :=
  match fuel with
  | O => []
  | S fuel =>
      match transactions !! position with
      | Some t => (position, execute_transaction parent t fee_schedule)
                  :: worker_rows fuel parent transactions worker_count fee_schedule (position + worker_count)
      | None => []
      end
  end.

(** [slots[position] = Some(row?)]; an index out of range panics. *)
Definition fill_slot (slots : list (option SpeculatedTransactionV1)) (p : nat * PResult SpeculatedTransactionV1) :
    PResult (list (option SpeculatedTransactionV1)) :=
  row ← p.2;
  if Nat.ltb p.1 (length slots) then Ok (<[p.1 := Some row]> slots) else Panic.

Definition join_worker (parent : ParallelStateV1) (transactions : list ParallelTransactionV1)
    (worker_count : nat) (fee_schedule : ParallelFeeScheduleV1)
    (slots : list (option SpeculatedTransactionV1)) (worker : nat) : PResult (list (option SpeculatedTransactionV1)) :=
  try_fold fill_slot slots
    (worker_rows (length transactions) parent transactions worker_count fee_schedule worker).

Definition speculate_parallel (parent : ParallelStateV1) (transactions : list ParallelTransactionV1)
    (worker_count : nat) (fee_schedule : ParallelFeeScheduleV1) : PResult (list SpeculatedTransactionV1) :=
  slots ← try_fold (join_worker parent transactions worker_count fee_schedule)
            (replicate (length transactions) None) (seq 0 worker_count);
  try_map (fun row => ok_or row MissingWorkerResult) slots.

(** ** Committing *)

Definition check_write (state : ParallelStateV1) (_ : ()) (object_id : Id32) : PResult () :=
  value ← ok_or (state !! object_id) MissingObject;
  _ ← ok_or (checked_add u64_max (vv_version value) 1) ObjectVersionOverflow;
  Ok tt.

Definition write_object (state : ParallelStateV1) (w : Id32 * Z) : PResult ParallelStateV1 :=
  value ← ok_or (state !! w.1) MissingObject;
  version ← expect (checked_add u64_max (vv_version value) 1);
  Ok (<[w.1 := mkVersioned version w.2]> state).

Definition apply_writes (state : ParallelStateV1) (writes : gmap (list Z) Z) : PResult ParallelStateV1 :=
  _ ← try_fold (check_write state) tt (fst <$> btree_iter writes);
  try_fold write_object state (btree_iter writes).

Section roots.
Context (sha256 : list Z -> list Z).

Definition hash_frame (value : list Z) : list Z := be_bytes 8 (zlen value) ++ value.

Definition state_root (state : ParallelStateV1) : list Z :=
  sha256 (hash_frame STATE_ROOT_DOMAIN_V1 ++ hash_frame (be_bytes 8 (Z.of_nat (size state)))
    ++ mjoin ((fun p => hash_frame p.1 ++ hash_frame (be_bytes 8 (vv_version p.2))
                       ++ hash_frame (be_bytes 16 (vv_value p.2))) <$> btree_iter state)).

Definition write_set_root (writes : gmap (list Z) Z) : list Z :=
  sha256 (hash_frame WRITE_SET_ROOT_DOMAIN_V1 ++ hash_frame (be_bytes 8 (Z.of_nat (size writes)))
    ++ mjoin ((fun p => hash_frame p.1 ++ hash_frame (be_bytes 16 p.2)) <$> btree_iter writes)).

Definition receipt_root (receipts : list ParallelExecutionReceiptV1) : list Z :=
  sha256 (hash_frame RECEIPT_ROOT_DOMAIN_V1 ++ hash_frame (be_bytes 8 (zlen receipts))
    ++ mjoin ((fun r => hash_frame (be_bytes 4 (er_index r)) ++ hash_frame (er_transaction_id r)
                       ++ hash_frame (er_payer r) ++ hash_frame [status_tag (er_status r)]
                       ++ hash_frame (be_bytes 4 (er_retry_count r))
                       ++ hash_frame (be_bytes 8 (rv_compute_units (er_usage r)))
                       ++ hash_frame (be_bytes 8 (rv_state_read_units (er_usage r)))
                       ++ hash_frame (be_bytes 8 (rv_state_write_units (er_usage r)))
                       ++ hash_frame (be_bytes 8 (rv_artifact_units (er_usage r)))
                       ++ hash_frame (be_bytes 16 (er_fee_charged r))
                       ++ hash_frame (er_write_set_root r)) <$> receipts)).

Definition fee_root (deltas : list ParallelFeeDeltaV1) : list Z :=
  sha256 (hash_frame FEE_ROOT_DOMAIN_V1 ++ hash_frame (be_bytes 8 (zlen deltas))
    ++ mjoin ((fun d => hash_frame (fd_payer d) ++ hash_frame (be_bytes 16 (fd_payer_debit d))
                       ++ hash_frame (be_bytes 16 (fd_fee_sink_credit d))) <$> deltas)).

(** The commit loop's state: objects, receipts, accumulated fees. *)
Definition CommitState : Type := ParallelStateV1 * list ParallelExecutionReceiptV1 * gmap (list Z) Z.

Definition conflicted (state : ParallelStateV1) (s : SpeculatedTransactionV1) : bool :=
  existsb (fun p => (vv_version <$> state !! p.1) <>? Some p.2) (btree_iter (sx_read_versions s)).

(** Commit a selected execution: writes, receipt, fee. *)
Definition commit_selected (acc : CommitState) (selected : SpeculatedTransactionV1) (retry_count : Z) :
    PResult CommitState :=
  let '(state, receipts, fees) := acc in
  state ← (if sx_status selected =?? PSuccess then apply_writes state (sx_writes selected) else Ok state);
  let t := sx_transaction selected in
  let receipts := receipts ++ [mkPReceipt (pt_index t) (pt_transaction_id t) (pt_payer t) (sx_status selected)
        retry_count (sx_usage selected) (sx_fee_charged selected) (write_set_root (sx_writes selected)) false false] in
  accumulated ← ok_or (checked_add u128_max (default 0 (fees !! pt_payer t)) (sx_fee_charged selected))
        ArithmeticOverflow;
  Ok (state, receipts, <[pt_payer t := accumulated]> fees).

Definition commit_step (fee_schedule : ParallelFeeScheduleV1) (acc : CommitState)
    (original : SpeculatedTransactionV1) : PResult CommitState :=
  if conflicted acc.1.1 original
  then selected ← execute_transaction acc.1.1 (sx_transaction original) fee_schedule;
       commit_selected acc selected 1
  else commit_selected acc original 0.

Definition finish_block (worker_count : nat) (acc : CommitState) : ParallelBlockResultV1 :=
  let '(state, receipts, fees) := acc in
  let fee_deltas := (fun p => mkFeeDelta p.1 p.2 p.2) <$> btree_iter fees in
  mkBlockResult state receipts fee_deltas (state_root state) (receipt_root receipts) (fee_root fee_deltas)
    worker_count false false false.

Definition execute_parallel_block_v1 (parent : ParallelStateV1) (transactions : list ParallelTransactionV1)
    (worker_count : nat) (fee_schedule : ParallelFeeScheduleV1) : PResult ParallelBlockResultV1 :=
  _ ← validate_block transactions worker_count;
  speculative ← speculate_parallel parent transactions worker_count fee_schedule;
  acc ← try_fold (commit_step fee_schedule) (parent, [], ∅) speculative;
  Ok (finish_block worker_count acc).

End roots.
