(* ===== verification/ParallelTheorems.v ===== *)
(** * ParallelTheorems: the parallel executor implements serial execution

    [serial_step] executes the transactions one by one on the current state.
    The worker pool is shown to compute exactly the speculation of every
    transaction ([speculate_parallel_spec]), and a speculation whose reads did
    not change to be what serial execution computes ([execute_unconflicted]). *)

From stdpp Require Import base gmap list sorting strings.
From S2P Require Import Prelude Parallel.

(** ** Serial specification *)

(** Whether a declared read has another version than in the parent. *)
Definition reads_changed (parent state : ParallelStateV1) (t : ParallelTransactionV1) : bool :=
  existsb (fun id => (vv_version <$> state !! id) <>? (vv_version <$> parent !! id)) (pt_declared_reads t).

Section serial.
Context (sha256 : list Z -> list Z).

Definition serial_step (fs : ParallelFeeScheduleV1) (parent : ParallelStateV1) (acc : CommitState)
    (t : ParallelTransactionV1) : PResult CommitState :=
  selected ← execute_transaction acc.1.1 t fs;
  commit_selected sha256 acc selected (if reads_changed parent acc.1.1 t then 1 else 0).

Definition serial_block (parent : ParallelStateV1) (txs : list ParallelTransactionV1) (fs : ParallelFeeScheduleV1) :
    PResult CommitState :=
  try_fold (serial_step fs parent) (parent, [], ∅) txs.
End serial.

(** ** The worker pool *)

Section pool.
Context (parent : ParallelStateV1) (txs : list ParallelTransactionV1) (fs : ParallelFeeScheduleV1).

Abbreviation exec := (fun t => execute_transaction parent t fs).
Abbreviation Row := (nat * PResult SpeculatedTransactionV1)%type.

(** A row is a position of the block with its speculation. *)
Definition row_of (row : Row) : Prop := exists t, txs !! row.1 = Some t /\ row.2 = exec t.

Lemma worker_rows_sound fuel w pos : Forall row_of (worker_rows fuel parent txs w fs pos).
Proof.
  revert pos. induction fuel as [|fuel IH]; intros pos; cbn; [constructor|].
  destruct (txs !! pos) as [t|] eqn:E; constructor; [by exists t|apply IH].
Qed.

Lemma worker_rows_complete fuel w pos k t :
  (k < fuel)%nat -> txs !! (pos + k * w)%nat = Some t -> (forall j, (j <= k)%nat -> is_Some (txs !! (pos + j * w)%nat)) ->
  ((pos + k * w)%nat, exec t) ∈ worker_rows fuel parent txs w fs pos.
Proof.
  revert pos k. induction fuel as [|fuel IH]; intros pos k Hk Ht Hall; [lia|]. cbn.
  destruct (Hall 0%nat) as [t0 H0]; [lia|]. rewrite Nat.add_0_r in H0. rewrite H0.
  destruct k as [|k].
  - rewrite Nat.add_0_r in Ht |- *. simplify_eq. by left.
  - right. replace (pos + S k * w)%nat with (pos + w + k * w)%nat in * by lia.
    apply IH; [lia|done|]. intros j Hj. specialize (Hall (S j)). replace (pos + w + j * w)%nat with (pos + S j * w)%nat by lia.
    apply Hall. lia.
Qed.

(** Filling the slots with rows. *)
Lemma fill_slots_inv rows slots slots' :
  Forall row_of rows -> try_fold fill_slot slots rows = Ok slots' ->
  length slots' = length slots /\
  (forall row, row ∈ rows -> exists s, row.2 = Ok s) /\
  forall p, (exists row t s, row ∈ rows /\ row.1 = p /\ txs !! p = Some t /\ exec t = Ok s /\ slots' !! p = Some (Some s)) \/
            ((forall row, row ∈ rows -> row.1 <> p) /\ slots' !! p = slots !! p).
Proof.
  revert slots. induction rows as [|row rows IH]; intros slots Hrows Hf; cbn [try_fold] in Hf.
  - injection Hf as <-. split_and!; [done|by intros ? ?%elem_of_nil|]. intros p. right. split; [by intros ? ?%elem_of_nil|done].
  - apply Forall_cons in Hrows as [(t & Ht & Hr) Hrows]. apply bind_Ok in Hf as (slots1 & H1 & Hf).
    unfold fill_slot in H1. apply bind_Ok in H1 as (s & Hs & H1).
    destruct (Nat.ltb row.1 (length slots)) eqn:Hlt; [|done]. apply Nat.ltb_lt in Hlt. injection H1 as <-.
    apply IH in Hf as (Hlen & Hok & Hp); [|done]. rewrite length_insert in Hlen. split_and!; [done|..].
    + intros r [->|Hin]%elem_of_cons; [by exists s|by apply Hok].
    + intros p. destruct (Hp p) as [(r & t' & s' & Hin & ? & ? & ? & ?)|[Hno Hp']].
      * left. exists r, t', s'. split_and!; try done. by right.
      * destruct (decide (row.1 = p)) as [<-|Hne].
        -- left. exists row, t, s. split_and!; try done; [by left|congruence|]. rewrite Hp'.
           by rewrite list_lookup_insert_eq.
        -- right. split; [|by rewrite Hp', list_lookup_insert_ne].
           intros r [->|Hin]%elem_of_cons; [done|by apply Hno].
Qed.

Lemma fill_slots_ok rows slots :
  Forall row_of rows -> length slots = length txs -> (forall row, row ∈ rows -> exists s, row.2 = Ok s) ->
  exists slots', try_fold fill_slot slots rows = Ok slots'.
Proof.
  revert slots. induction rows as [|row rows IH]; intros slots Hrows Hlen Hok; cbn [try_fold]; [eauto|].
  apply Forall_cons in Hrows as [(t & Ht & Hr) Hrows]. destruct (Hok row) as [s Hs]; [by left|].
  assert (fill_slot slots row = Ok (<[row.1 := Some s]> slots)) as ->.
  { unfold fill_slot. rewrite Hs. cbn [mbind result_bind].
    by rewrite (proj2 (Nat.ltb_lt _ _)) by (rewrite Hlen; by eapply lookup_lt_Some). }
  cbn [mbind result_bind]. apply IH; [done|by rewrite length_insert|]. intros r Hin. apply Hok. by right.
Qed.

(** All rows of all workers, in the order they are joined. *)
Definition all_rows (w : nat) : list Row := mjoin ((worker_rows (length txs) parent txs w fs) <$> seq 0 w).

Lemma join_workers_flat w slots workers :
  try_fold (join_worker parent txs w fs) slots workers =
    try_fold fill_slot slots (mjoin ((worker_rows (length txs) parent txs w fs) <$> workers)).
Proof.
  revert slots. induction workers as [|x xs IH]; intros slots; cbn; [done|]. rewrite try_fold_app.
  apply bind_ext. intros. apply IH.
Qed.

Lemma all_rows_sound w : Forall row_of (all_rows w).
Proof.
  apply Forall_forall. intros r Hr. apply list_elem_of_join in Hr as (l & Hr & Hl).
  apply list_elem_of_fmap in Hl as (x & -> & _). pose proof (worker_rows_sound (length txs) w x) as H.
  rewrite Forall_forall in H. by apply H.
Qed.

Lemma all_rows_complete w p t : (0 < w)%nat -> txs !! p = Some t -> (p, exec t) ∈ all_rows w.
Proof.
  intros Hw Ht. pose proof (lookup_lt_Some _ _ _ Ht) as Hp. pose proof (Nat.div_mod_eq p w) as Hdm.
  pose proof (Nat.mod_upper_bound p w). apply list_elem_of_join. exists (worker_rows (length txs) parent txs w fs (p mod w)).
  split; [|apply list_elem_of_fmap_2, elem_of_seq; lia].
  replace p with (p mod w + (p / w) * w)%nat at 1 by lia. apply worker_rows_complete.
  - assert (p / w <= p)%nat by (apply Nat.Div0.div_le_upper_bound; nia). lia.
  - by replace (p mod w + (p / w) * w)%nat with p by lia.
  - intros j Hj. apply lookup_lt_is_Some. nia.
Qed.

(** The pool speculates every transaction, whatever the number of workers. *)
Lemma speculate_parallel_spec w specs :
  (0 < w)%nat -> speculate_parallel parent txs w fs = Ok specs <-> try_map exec txs = Ok specs.
Proof.
  intros Hw. unfold speculate_parallel. rewrite join_workers_flat. fold (all_rows w).
  assert (Hslots : forall slots specs0, try_fold fill_slot (replicate (length txs) None) (all_rows w) = Ok slots ->
    Forall2 (fun t s => exec t = Ok s) txs specs0 -> slots = Some <$> specs0).
  { intros slots specs0 Hf Hs. apply fill_slots_inv in Hf as (Hlen & _ & Hp); [|apply all_rows_sound].
    rewrite length_replicate in Hlen. apply list_eq. intros p. rewrite list_lookup_fmap.
    destruct (txs !! p) as [t|] eqn:Et.
    - destruct (Forall2_lookup_l _ _ _ _ _ Hs Et) as (s & Hsp & Hs'). rewrite Hsp. cbn.
      destruct (Hp p) as [(r & t' & s' & _ & _ & Ht' & Hs'' & ->)|[Hno _]]; [congruence|].
      exfalso. by apply (Hno (p, exec t) (all_rows_complete w p t Hw Et)).
    - apply lookup_ge_None in Et. rewrite lookup_ge_None_2 by lia.
      rewrite lookup_ge_None_2; [done|]. rewrite <- (Forall2_length _ _ _ Hs). lia. }
  rewrite try_map_Ok. split.
  - intros H. apply bind_Ok in H as (slots & Hf & Hm).
    assert (exists specs0, try_map exec txs = Ok specs0) as [specs0 Hs0%try_map_Ok].
    { apply fill_slots_inv in Hf as (_ & Hok & _); [|apply all_rows_sound].
      assert (Forall (fun t => exists s, exec t = Ok s) txs) as Hall.
      { apply Forall_lookup. intros p t Ht. apply (Hok (p, exec t)). by apply all_rows_complete. }
      clear -Hall. induction Hall as [|t ts [s Hs] _ [ss Hss]]; [by exists []|].
      exists (s :: ss). cbn. by rewrite Hs, Hss. }
    rewrite (Hslots _ _ Hf Hs0) in Hm. apply try_map_Ok, Forall2_fmap_l in Hm.
    assert (specs = specs0) as ->; [|done]. clear -Hm. induction Hm as [|? ? ? ? E]; [done|]. cbn in E. congruence.
  - intros Hs. destruct (fill_slots_ok (all_rows w) (replicate (length txs) None)) as [slots Hf].
    + apply all_rows_sound.
    + apply length_replicate.
    + intros r Hr. pose proof (all_rows_sound w) as Hsound. rewrite Forall_forall in Hsound.
      destruct (Hsound r Hr) as (t & Ht & ->). destruct (Forall2_lookup_l _ _ _ _ _ Hs Ht) as (s & _ & ?). eauto.
    + rewrite Hf. cbn [mbind result_bind]. rewrite (Hslots _ _ Hf Hs). apply try_map_Ok, Forall2_fmap_l.
      clear. induction specs; constructor; auto.
Qed.

End pool.

(** ** States that evolve from a parent *)

(** Same objects; versions only grow, and an unchanged version means an
    unchanged object. *)
Definition evolved (parent state : ParallelStateV1) : Prop :=
  forall id, match parent !! id, state !! id with
             | Some a, Some b => vv_version a <= vv_version b /\ (vv_version a = vv_version b -> b = a)
             | None, None => True
             | _, _ => False
             end.

Lemma evolved_refl s : evolved s s.
Proof. intros id. destruct (s !! id); [|done]. split; [lia|done]. Qed.

Lemma evolved_write parent state w state' :
  evolved parent state -> write_object state w = Ok state' -> evolved parent state'.
Proof.
  intros He Hw id. unfold write_object in Hw. rinv. checked. subst. specialize (He id).
  destruct (decide (w.1 = id)) as [<-|Hne]; [|by rewrite lookup_insert_ne].
  rewrite lookup_insert_eq. match goal with H : state !! _ = Some _ |- _ => rewrite H in He end.
  destruct (parent !! w.1); [|done]. cbn. split; [lia|]. intros. lia.
Qed.

Lemma evolved_apply parent state writes state' :
  evolved parent state -> apply_writes state writes = Ok state' -> evolved parent state'.
Proof.
  intros He Ha. unfold apply_writes in Ha. apply bind_Ok in Ha as (_ & _ & Ha).
  eapply (try_fold_inv (evolved parent)); [exact He| |exact Ha]. intros. by eapply evolved_write.
Qed.

Lemma evolved_commit sha256 parent acc s k acc' :
  evolved parent acc.1.1 -> commit_selected sha256 acc s k = Ok acc' -> evolved parent acc'.1.1.
Proof.
  intros He Hc. destruct acc as [[state receipts] fees]. unfold commit_selected in Hc. rinv. subst. cbn in *.
  case_bool_decide; [by eapply evolved_apply|]. by simplify_eq.
Qed.

(** ** What a transaction reads *)

Lemma record_reads_lookup state ids m m' id :
  try_fold (record_read state) m ids = Ok m' ->
  m' !! id = if decide (id ∈ ids) then vv_version <$> state !! id else m !! id.
Proof.
  revert m. induction ids as [|x ids IH]; intros m Hf; cbn [try_fold] in Hf.
  - injection Hf as <-. done.
  - apply bind_Ok in Hf as (m1 & H1 & Hf). unfold record_read in H1. rinv. subst.
    rewrite (IH _ Hf). destruct (decide (id ∈ x :: ids)) as [Hin|Hout], (decide (id ∈ ids)) as [Hin'|Hout']; try done.
    + assert (x = id) as -> by set_solver. rewrite lookup_insert_eq.
      match goal with H : state !! _ = Some _ |- _ => by rewrite H end.
    + set_solver.
    + rewrite lookup_insert_ne; [done|]. set_solver.
Qed.

Lemma instruction_accesses ins r w r' w' :
  try_fold access_of_instruction (r, w) ins = Ok (r', w') ->
  (forall x, x ∈ r' <-> x ∈ r \/ exists i, i ∈ ins /\ instruction_source i = Some x) /\
  (forall x, x ∈ w' <-> x ∈ w \/ exists i, i ∈ ins /\ instruction_target i = x).
Proof.
  revert r w. induction ins as [|i ins IH]; intros r w Hf; cbn [try_fold] in Hf.
  - injection Hf as <- <-. split; intros x; set_solver.
  - apply bind_Ok in Hf as ([r1 w1] & H1 & Hf). destruct (IH _ _ Hf) as [Hr Hw].
    unfold access_of_instruction in H1. rinv.
    destruct (instruction_source i) eqn:Es; rinv; simplify_eq; split; intros x; rewrite ?Hr, ?Hw;
      set_solver.
Qed.

Lemma validated_sources t i x :
  validate_transaction t = Ok tt -> i ∈ pt_instructions t -> instruction_source i = Some x ->
  x ∈ pt_declared_reads t.
Proof.
  intros Hv Hi Hs. unfold validate_transaction in Hv. rinv. bprop. subst.
  match goal with H : try_fold access_of_instruction _ _ = Ok _ |- _ => apply instruction_accesses in H as [Hreads _] end.
  apply (elem_of_list_to_set (C := gset (list Z))), Hreads. right. eauto.
Qed.

Lemma validated_targets t x :
  validate_transaction t = Ok tt ->
  x ∈ pt_declared_writes t <-> exists i, i ∈ pt_instructions t /\ instruction_target i = x.
Proof.
  intros Hv. unfold validate_transaction in Hv. rinv. bprop. subst.
  match goal with H : try_fold access_of_instruction _ _ = Ok _ |- _ => apply instruction_accesses in H as [_ Hwrites] end.
  rewrite <- (elem_of_list_to_set (C := gset (list Z))), Hwrites. set_solver.
Qed.

Lemma execute_inv state t fs s :
  execute_transaction state t fs = Ok s ->
  sx_transaction s = t /\ try_fold (record_read state) ∅ (pt_declared_reads t) = Ok (sx_read_versions s).
Proof. intros H. unfold execute_transaction in H. rinv. by subst. Qed.

(** A speculation conflicts exactly when a declared read changed version. *)
Lemma conflicted_spec parent state t fs s :
  execute_transaction parent t fs = Ok s -> conflicted state s = reads_changed parent state t.
Proof.
  intros [_ Hr]%execute_inv. unfold conflicted, reads_changed. apply eq_true_iff_eq.
  rewrite !existsb_exists. split.
  - intros ([id v] & Hin & Hne). apply list_elem_of_In, elem_of_btree_iter in Hin.
    rewrite (record_reads_lookup _ _ _ _ id Hr) in Hin.
    destruct (decide (id ∈ pt_declared_reads t)) as [Hd|]; [|done]. exists id. rewrite <- list_elem_of_In. split; [done|].
    cbn in *. by rewrite Hin.
  - intros (id & Hin & Hne). apply list_elem_of_In in Hin.
    pose proof (record_reads_lookup _ _ _ _ id Hr) as Hl. destruct (decide (id ∈ pt_declared_reads t)); [|done].
    destruct (parent !! id) as [a|] eqn:Ea.
    + exists (id, vv_version a). rewrite <- list_elem_of_In, elem_of_btree_iter. cbn in *. split; [done|]. done.
    + exfalso. clear -Hr Hin Ea. revert Hr. generalize (∅ : gmap (list Z) Z).
      induction (pt_declared_reads t) as [|x ids IH]; intros m Hf; [by apply elem_of_nil in Hin|].
      cbn [try_fold] in Hf. apply bind_Ok in Hf as (m1 & H1 & Hf).
      apply elem_of_cons in Hin as [->|Hin]; [|by eapply IH]. unfold record_read in H1. by rewrite Ea in H1.
Qed.

(** Without a conflict, executing on the current state gives the speculation. *)
Lemma execute_unconflicted parent state t fs s :
  evolved parent state -> validate_transaction t = Ok tt ->
  execute_transaction parent t fs = Ok s -> reads_changed parent state t = false ->
  execute_transaction state t fs = Ok s.
Proof.
  intros He Hv Hs Hc.
  assert (Hsame : forall id, id ∈ pt_declared_reads t -> state !! id = parent !! id).
  { intros id Hid. specialize (He id).
    assert (Hver : (vv_version <$> state !! id) = (vv_version <$> parent !! id)).
    { destruct (decide ((vv_version <$> state !! id) = (vv_version <$> parent !! id))) as [|Hne]; [done|].
      exfalso. revert Hc. unfold reads_changed. rewrite <- not_true_iff_false, existsb_exists. intros Hno.
      apply Hno. exists id. rewrite <- list_elem_of_In. split; [done|]. by rewrite bool_decide_eq_false_2. }
    destruct (parent !! id), (state !! id); cbn in *; try done. simplify_eq. f_equal. by apply He. }
  assert (Hdom : forall id, (state !! id = None) <-> (parent !! id = None))
    by (intros id; specialize (He id); destruct (parent !! id), (state !! id); done).
  rewrite <- Hs. unfold execute_transaction. apply bind_ext. intros usage _. apply bind_ext. intros fee _.
  apply bind_ext. intros _ _.
  rewrite (try_fold_ext (record_read state) (record_read parent)).
  2: { intros m id Hid. unfold record_read. by rewrite Hsame. }
  apply bind_ext. intros rv _.
  rewrite (try_fold_ext (require_present state) (require_present parent)).
  2: { intros m id Hid. unfold require_present. f_equal. apply bool_decide_ext, Hdom. }
  apply bind_ext. intros _ _.
  rewrite (try_fold_ext (run_instruction state) (run_instruction parent)); [done|].
  intros m i Hi. destruct i as [|target source delta]; [done|]. cbn.
  rewrite Hsame; [done|]. by eapply (validated_sources _ (AddFromRead target source delta)).
Qed.

(** ** Validation *)

Lemma validate_block_txs txs w : validate_block txs w = Ok tt -> Forall (fun t => validate_transaction t = Ok tt) txs.
Proof.
  intros Hv. unfold validate_block in Hv. rinv.
  match goal with H : try_fold validate_entry _ _ = Ok _ |- _ => rename H into Hf end.
  apply (try_fold_Forall (fun p => validate_transaction p.2 = Ok tt)) in Hf.
  - apply Forall_lookup. intros i t Ht. rewrite Forall_lookup in Hf. apply (Hf i (i, t)).
    by rewrite list_lookup_imap, Ht.
  - intros x [i t] x' He. unfold validate_entry in He. rinv. cbn.
    match goal with H : validate_transaction t = Ok ?u |- _ => by destruct u end.
Qed.

Lemma validate_block_workers txs w w' :
  validate_block txs w = Ok tt -> (0 < w' <= MAX_PARALLEL_WORKERS_V1)%nat ->
  (0 < w)%nat /\ validate_block txs w' = Ok tt.
Proof.
  intros Hv Hw. unfold validate_block in *. apply bind_Ok in Hv as ([] & -> & Hv). cbn [mbind result_bind].
  apply bind_Ok in Hv as ([] & Hb%fail_if_Ok & Hv). apply orb_false_iff in Hb as [Hb _].
  apply Nat.eqb_neq in Hb. split; [lia|].
  rewrite (proj2 (orb_false_iff _ _)); [done|]. split; [apply Nat.eqb_neq; lia|apply Nat.ltb_ge; lia].
Qed.

(** ** Commit *)

Lemma commit_is_serial sha256 fs parent acc t s :
  evolved parent acc.1.1 -> validate_transaction t = Ok tt -> execute_transaction parent t fs = Ok s ->
  commit_step sha256 fs acc s = serial_step sha256 fs parent acc t.
Proof.
  intros He Hv Hs. unfold commit_step, serial_step. rewrite (conflicted_spec _ _ _ _ _ Hs).
  destruct (execute_inv _ _ _ _ Hs) as [-> _]. destruct (reads_changed parent acc.1.1 t) eqn:Ec; [done|].
  by rewrite (execute_unconflicted _ _ _ _ _ He Hv Hs Ec).
Qed.

Lemma commits_are_serial sha256 fs parent acc txs specs :
  evolved parent acc.1.1 -> Forall (fun t => validate_transaction t = Ok tt) txs ->
  Forall2 (fun t s => execute_transaction parent t fs = Ok s) txs specs ->
  try_fold (commit_step sha256 fs) acc specs = try_fold (serial_step sha256 fs parent) acc txs.
Proof.
  intros He Hv Hs. revert acc He Hv. induction Hs as [|t s txs specs Ht Hs IH]; intros acc He Hv; [done|].
  apply Forall_cons in Hv as [Hvt Hv]. cbn [try_fold]. rewrite (commit_is_serial _ _ _ _ _ _ He Hvt Ht).
  apply bind_ext. intros acc' Hacc. apply IH; [|done]. unfold serial_step in Hacc.
  apply bind_Ok in Hacc as (sel & _ & Hacc). by eapply evolved_commit.
Qed.

Lemma try_map_exists {E A B} (f : A -> result E B) l :
  (exists k, try_map f l = Ok k) <-> Forall (fun a => exists b, f a = Ok b) l.
Proof.
  split.
  - intros [k Hk%try_map_Ok]. apply Forall_lookup. intros i a Ha.
    destruct (Forall2_lookup_l _ _ _ _ _ Hk Ha) as (b & _ & ?). eauto.
  - induction 1 as [|a l [b Hb] _ [k Hk]]; [by exists []|]. exists (b :: k). cbn. by rewrite Hb, Hk.
Qed.

(** What a successful block is, in terms of serial execution. *)
Lemma parallel_ok_iff sha256 parent txs w fs r :
  validate_block txs w = Ok tt ->
  execute_parallel_block_v1 sha256 parent txs w fs = Ok r <->
  Forall (fun t => exists s, execute_transaction parent t fs = Ok s) txs /\
  exists acc, serial_block sha256 parent txs fs = Ok acc /\ r = finish_block sha256 w acc.
Proof.
  intros Hv. assert (Hw : (0 < w)%nat) by (apply (validate_block_workers _ _ 1 Hv); unfold MAX_PARALLEL_WORKERS_V1; lia).
  unfold execute_parallel_block_v1. rewrite Hv. cbn [mbind result_bind]. rewrite <- try_map_exists. split.
  - intros H. apply bind_Ok in H as (specs & Hs & H). apply speculate_parallel_spec in Hs; [|done].
    split; [eauto|]. apply bind_Ok in H as (acc & Hc & [= <-]). exists acc. split; [|done].
    unfold serial_block. rewrite <- (commits_are_serial _ _ _ _ _ specs); [done|apply evolved_refl| |by apply try_map_Ok].
    by eapply validate_block_txs.
  - intros [[specs Hs] (acc & Hc & ->)]. rewrite (proj2 (speculate_parallel_spec parent txs fs w specs Hw) Hs).
    cbn [mbind result_bind]. rewrite (commits_are_serial sha256 fs parent (parent, [], ∅) txs specs).
    + fold (serial_block sha256 parent txs fs). by rewrite Hc.
    + apply evolved_refl.
    + by eapply validate_block_txs.
    + by apply try_map_Ok.
Qed.

(** ** Fees *)

Definition fee_of (p : Id32) (r : ParallelExecutionReceiptV1) : Z :=
  if decide (er_payer r = p) then er_fee_charged r else 0.

(** The fee map holds, for each payer of a receipt, the sum of its fees. *)
Definition fees_ok (acc : CommitState) : Prop :=
  forall p, acc.2 !! p = if decide (p ∈ er_payer <$> acc.1.2) then Some (lsum (fee_of p) acc.1.2) else None.

Lemma fees_commit sha256 acc s k acc' :
  fees_ok acc -> commit_selected sha256 acc s k = Ok acc' -> fees_ok acc'.
Proof.
  intros Hf Hc p. destruct acc as [[state receipts] fees]. unfold commit_selected in Hc. rinv. checked. subst. cbn [fst snd].
  pose proof (Hf p) as Hfp. cbn [fst snd] in Hfp. rewrite fmap_app, lsum_app, lsum_cons, lsum_nil.
  cbn [fmap list_fmap er_payer]. unfold fee_of at 2. cbn [er_payer er_fee_charged].
  destruct (decide (pt_payer (sx_transaction s) = p)) as [<-|Hne].
  - rewrite lookup_insert_eq, Hfp. destruct (decide (_ ∈ _ ++ [_])) as [_|Hn]; [|set_solver].
    f_equal. destruct (decide (_ ∈ _)) as [|Hn]; cbn; [lia|].
    assert (lsum (fee_of (pt_payer (sx_transaction s))) receipts = 0) as ->; [|lia].
    rewrite (lsum_ext _ (fun _ => 0)).
    + clear. induction receipts; [done|]. rewrite lsum_cons. lia.
    + intros rc Hrc. unfold fee_of. destruct (decide _) as [E|]; [|done]. exfalso. apply Hn. rewrite <- E.
      by apply list_elem_of_fmap_2.
  - rewrite lookup_insert_ne, Hfp by done.
    destruct (decide (_ ∈ _ ++ [_])), (decide (p ∈ er_payer <$> receipts)); try done; try set_solver. f_equal. lia.
Qed.

Lemma serial_inv sha256 (P : CommitState -> Prop) parent txs fs acc :
  P (parent, [], ∅) -> (forall a s k a', P a -> commit_selected sha256 a s k = Ok a' -> P a') ->
  serial_block sha256 parent txs fs = Ok acc -> P acc.
Proof.
  intros H0 Hstep Hs. eapply (try_fold_inv P); [exact H0| |exact Hs]. intros a t a' _ Ha Hst.
  unfold serial_step in Hst. apply bind_Ok in Hst as (sel & _ & Hst). by eapply Hstep.
Qed.

(** ** Versions *)

Lemma write_objects_lookup ws state state' id :
  NoDup (fst <$> ws) -> try_fold write_object state ws = Ok state' ->
  vv_version <$> state' !! id =
    (fun b => vv_version b + if decide (id ∈ fst <$> ws) then 1 else 0) <$> state !! id.
Proof.
  revert state. induction ws as [|w ws IH]; intros state Hnd Hf; cbn [try_fold] in Hf.
  - injection Hf as <-. destruct (state !! id); cbn [fmap option_fmap option_map]; [|done]. destruct (decide _) as [Hin|]; [by apply elem_of_nil in Hin|]. f_equal. lia.
  - cbn in Hnd. apply NoDup_cons in Hnd as [Hw Hnd]. apply bind_Ok in Hf as (s1 & H1 & Hf).
    rewrite (IH _ Hnd Hf). unfold write_object in H1. rinv. checked. subst.
    destruct (decide (w.1 = id)) as [<-|Hne].
    + rewrite lookup_insert_eq. match goal with H : state !! _ = Some _ |- _ => rewrite H end.
      destruct (decide (w.1 ∈ fst <$> ws)); [done|]. destruct (decide (w.1 ∈ fst <$> w :: ws)); [|set_solver].
      cbn. f_equal. lia.
    + rewrite lookup_insert_ne by done. apply option_fmap_ext. intros b. f_equal.
      destruct (decide (id ∈ fst <$> ws)), (decide (id ∈ fst <$> w :: ws)); set_solver.
Qed.

Lemma apply_writes_version state writes state' id :
  apply_writes state writes = Ok state' ->
  vv_version <$> state' !! id =
    (fun b => vv_version b + if decide (is_Some (writes !! id)) then 1 else 0) <$> state !! id.
Proof.
  intros Ha. unfold apply_writes in Ha. apply bind_Ok in Ha as (_ & _ & Ha).
  rewrite (write_objects_lookup _ _ _ _ (btree_iter_NoDup writes) Ha).
  assert (Hiff : id ∈ fst <$> btree_iter writes <-> is_Some (writes !! id)).
  { rewrite list_elem_of_fmap. split.
    - intros ([i v] & -> & Hin%elem_of_btree_iter). by exists v.
    - intros [v Hv]. exists (id, v). by rewrite elem_of_btree_iter. }
  apply option_fmap_ext. intros b. destruct (decide (id ∈ _)), (decide (is_Some _)); naive_solver.
Qed.

Lemma run_instructions_dom state ins m m' id :
  try_fold (run_instruction state) m ins = Ok m' ->
  is_Some (m' !! id) <-> is_Some (m !! id) \/ exists i, i ∈ ins /\ instruction_target i = id.
Proof.
  revert m. induction ins as [|i ins IH]; intros m Hf; cbn [try_fold] in Hf.
  - injection Hf as <-. set_solver.
  - apply bind_Ok in Hf as (m1 & H1 & Hf). rewrite (IH _ Hf).
    assert (is_Some (m1 !! id) <-> is_Some (m !! id) \/ instruction_target i = id) as ->; [|set_solver].
    destruct i; cbn in *; rinv; subst; rewrite lookup_insert_is_Some'; naive_solver.
Qed.

Lemma execute_writes state t fs s id :
  validate_transaction t = Ok tt -> execute_transaction state t fs = Ok s -> sx_status s = PSuccess ->
  is_Some (sx_writes s !! id) <-> id ∈ pt_declared_writes t.
Proof.
  intros Hv Hs Hst. rewrite (validated_targets _ _ Hv). unfold execute_transaction in Hs. rinv. subst. cbn in *.
  rewrite Hst, bool_decide_eq_true_2 in * by done.
  match goal with H : try_fold (run_instruction _) _ _ = Ok _ |- _ => rewrite (run_instructions_dom _ _ _ _ id H) end.
  rewrite lookup_empty. split; [|by right]. by intros [[? ?]|].
Qed.

(** Whether a committed transaction wrote [id]. *)
Definition wrote (id : Id32) (p : ParallelTransactionV1 * ParallelExecutionReceiptV1) : Z :=
  if decide (er_status p.2 = PSuccess /\ id ∈ pt_declared_writes p.1) then 1 else 0.

Record progress (parent : ParallelStateV1) (done : list ParallelTransactionV1) (acc : CommitState) : Prop := {
  pg_receipts : Forall2 (fun t r => er_index r = pt_index t /\ er_transaction_id r = pt_transaction_id t /\
                                    er_payer r = pt_payer t) done acc.1.2;
  pg_versions : forall id, vv_version <$> acc.1.1 !! id =
    (fun a => vv_version a + lsum (wrote id) (zip done acc.1.2)) <$> parent !! id;
}.

Lemma progress_step sha256 parent ts acc t fs acc' :
  validate_transaction t = Ok tt -> progress parent ts acc ->
  serial_step sha256 fs parent acc t = Ok acc' -> progress parent (ts ++ [t]) acc'.
Proof.
  intros Hv [Hr Hver] Hst. destruct acc as [[state receipts] fees]. unfold serial_step in Hst. cbn [fst snd] in *.
  apply bind_Ok in Hst as (s & Hs & Hc). destruct (execute_inv _ _ _ _ Hs) as [Ht _].
  unfold commit_selected in Hc. apply bind_Ok in Hc as (state' & Hw & Hc). rinv. subst acc'. rewrite Ht.
  constructor; cbn [fst snd].
  - apply Forall2_app; [done|]. by repeat constructor.
  - intros id. rewrite zip_with_app by (by eapply Forall2_length). rewrite lsum_app. cbn [zip_with].
    rewrite lsum_cons, lsum_nil.
    assert (vv_version <$> state' !! id = (fun b => vv_version b + wrote id (t, mkPReceipt (pt_index t) (pt_transaction_id t)
      (pt_payer t) (sx_status s) (if reads_changed parent state t then 1 else 0) (sx_usage s) (sx_fee_charged s)
      (write_set_root sha256 (sx_writes s)) false false)) <$> state !! id) as ->.
    { unfold wrote. cbn [fst snd er_status]. destruct (decide (sx_status s = PSuccess)) as [Hok|Hno].
      - rewrite bool_decide_eq_true_2 in Hw by done. rewrite (apply_writes_version _ _ _ _ Hw).
        apply option_fmap_ext. intros b. pose proof (execute_writes _ _ _ _ id Hv Hs Hok).
        destruct (decide (is_Some _)), (decide (_ /\ _)); naive_solver.
      - rewrite bool_decide_eq_false_2 in Hw by done. injection Hw as <-. apply option_fmap_ext. intros b.
        destruct (decide (_ /\ _)); [naive_solver|lia]. }
    specialize (Hver id). destruct (parent !! id), (state !! id); cbn in *; try done. simplify_eq. f_equal. lia.
Qed.

Lemma serial_progress sha256 parent txs fs acc :
  Forall (fun t => validate_transaction t = Ok tt) txs -> serial_block sha256 parent txs fs = Ok acc ->
  progress parent txs acc.
Proof.
  intros Hv Hs. change txs with ([] ++ txs). unfold serial_block in Hs.
  assert (H0 : progress parent [] (parent, [], ∅)).
  { constructor; [constructor|]. intros id. cbn. destruct (parent !! id); cbn; [|done]. f_equal. lia. }
  revert Hs H0. generalize ((parent, [], ∅) : CommitState), ([] : list ParallelTransactionV1).
  induction Hv as [|t txs Ht Hv IH]; intros a ds Hs H0; cbn [try_fold] in Hs.
  - injection Hs as <-. by rewrite app_nil_r.
  - apply bind_Ok in Hs as (a1 & H1 & Hs). rewrite cons_middle, app_assoc.
    eapply IH; [exact Hs|]. by eapply progress_step.
Qed.

(** ** Theorems *)

(** C26: parallel execution is serial execution.  For a validated block, the
    executor returns a result exactly when every transaction speculates without
    error on the parent and the serial execution of the block succeeds, and the
    result is then the serial one: same objects, receipts, fees and roots, a
    receipt's retry count being 1 exactly when a declared read had changed. *)
Theorem parallel_block_is_serial sha256 parent txs w fs r :
  validate_block txs w = Ok tt ->
  execute_parallel_block_v1 sha256 parent txs w fs = Ok r <->
  Forall (fun t => exists s, execute_transaction parent t fs = Ok s) txs /\
  exists acc, serial_block sha256 parent txs fs = Ok acc /\ r = finish_block sha256 w acc.
Proof. apply parallel_ok_iff. Qed.

(** the committed result does not depend on the worker pool.  A block that
    succeeds with one worker count succeeds with every admissible one, with the
    same state, receipts, fees and roots. *)
Theorem parallel_result_worker_independent sha256 parent txs w w' fs r :
  execute_parallel_block_v1 sha256 parent txs w fs = Ok r -> (0 < w' <= MAX_PARALLEL_WORKERS_V1)%nat ->
  execute_parallel_block_v1 sha256 parent txs w' fs =
    Ok (mkBlockResult (br_state r) (br_receipts r) (br_fee_deltas r) (br_state_root r) (br_receipt_root r)
          (br_fee_root r) w' false false false).
Proof.
  intros Hr Hw'. assert (Hv : validate_block txs w = Ok tt)
    by (unfold execute_parallel_block_v1 in Hr; by apply bind_Ok in Hr as ([] & ? & _)).
  destruct (validate_block_workers _ _ _ Hv Hw') as [_ Hv'].
  apply (parallel_ok_iff _ _ _ _ _ _ Hv) in Hr as [Hs (acc & Hacc & ->)].
  apply (parallel_ok_iff _ _ _ _ _ _ Hv'). split; [done|]. exists acc. split; [done|].
  by destruct acc as [[? ?] ?].
Qed.

(** Fees are exact.  Every fee delta of a committed block debits its payer
    and credits the sink with the sum of the fees on that payer's receipts, and
    every receipt's payer has exactly one delta. *)
Theorem parallel_fees_exact sha256 parent txs w fs r :
  execute_parallel_block_v1 sha256 parent txs w fs = Ok r ->
  NoDup (fd_payer <$> br_fee_deltas r) /\
  (forall d, d ∈ br_fee_deltas r -> fd_payer_debit d = lsum (fee_of (fd_payer d)) (br_receipts r) /\
                                    fd_fee_sink_credit d = fd_payer_debit d) /\
  (forall p, p ∈ er_payer <$> br_receipts r <-> p ∈ fd_payer <$> br_fee_deltas r).
Proof.
  intros Hr. assert (Hv : validate_block txs w = Ok tt)
    by (unfold execute_parallel_block_v1 in Hr; by apply bind_Ok in Hr as ([] & ? & _)).
  apply (parallel_ok_iff _ _ _ _ _ _ Hv) in Hr as [_ (acc & Hacc & ->)].
  assert (Hf : fees_ok acc).
  { eapply serial_inv; [|apply fees_commit|exact Hacc]. intros p. cbn. by rewrite lookup_empty. }
  destruct acc as [[state receipts] fees]. unfold fees_ok in Hf. cbn [fst snd] in Hf. cbn.
  rewrite <- list_fmap_compose. split_and!.
  - apply (btree_iter_NoDup fees).
  - intros d Hd. apply list_elem_of_fmap in Hd as ([p a] & -> & Hin%elem_of_btree_iter). cbn. split; [|done].
    rewrite Hf in Hin. destruct (decide _); [|done]. by injection Hin.
  - intros p. rewrite (list_elem_of_fmap (fd_payer ∘ _)). split.
    + intros Hp. exists (p, lsum (fee_of p) receipts). split; [done|]. rewrite elem_of_btree_iter, Hf.
      by destruct (decide (p ∈ er_payer <$> receipts)).
    + intros ([p' a] & -> & Hin%elem_of_btree_iter). cbn. rewrite Hf in Hin. by destruct (decide _).
Qed.

(** Receipts and versions are exact.  The receipts of a committed block
    correspond one to one, in order, to its transactions; no object is created
    or removed, and the version of each object grew by exactly the number of
    successful transactions that declared it written. *)
Theorem parallel_versions_exact sha256 parent txs w fs r id :
  execute_parallel_block_v1 sha256 parent txs w fs = Ok r ->
  Forall2 (fun t rc => er_index rc = pt_index t /\ er_transaction_id rc = pt_transaction_id t /\
                       er_payer rc = pt_payer t) txs (br_receipts r) /\
  vv_version <$> br_state r !! id =
    (fun a => vv_version a + lsum (wrote id) (zip txs (br_receipts r))) <$> parent !! id.
Proof.
  intros Hr. assert (Hv : validate_block txs w = Ok tt)
    by (unfold execute_parallel_block_v1 in Hr; by apply bind_Ok in Hr as ([] & ? & _)).
  apply (parallel_ok_iff _ _ _ _ _ _ Hv) in Hr as [_ (acc & Hacc & ->)].
  destruct (serial_progress _ _ _ _ _ (validate_block_txs _ _ Hv) Hacc) as [Hrc Hver].
  destruct acc as [[state receipts] fees]. split; [done|]. apply Hver.
Qed.

(** ** The parallel executor on concrete blocks

    A two-transaction block with a read conflict, to which the theorems above are applied, and two blocks on which the executor's
    errors depart from serial execution. *)

Module ParallelWitness.

Definition oid (n : Z) : list Z := n :: replicate 31 0.
Definition limit : ParallelResourceVectorV1 := mkVector 100 100 100 100.
Definition schedule : ParallelFeeScheduleV1 := mkSchedule 1 1 1 1 1.
Definition demo_sha (l : list Z) : list Z := take 32 l.

Definition demo_parent : ParallelStateV1 :=
  {[ oid 1 := mkVersioned 0 5; oid 2 := mkVersioned 0 7 ]}.
Definition tx_set : ParallelTransactionV1 :=
  mkTx 0 (oid 10) (oid 20) [] [oid 1] [SetValue (oid 1) 9] 0 0 limit 50 false.
Definition tx_add : ParallelTransactionV1 :=
  mkTx 1 (oid 11) (oid 20) [oid 1] [oid 2] [AddFromRead (oid 2) (oid 1) 3] 0 0 limit 50 false.
Definition demo_txs : list ParallelTransactionV1 := [tx_set; tx_add].

Definition demo_run (w : nat) : PResult ParallelBlockResultV1 :=
  execute_parallel_block_v1 demo_sha demo_parent demo_txs w schedule.

(** The second transaction is re-executed and sees the first one's write. *)
Example demo_retry :
  match demo_run 2 with
  | Ok r => (vv_value <$> br_state r !! oid 2, er_retry_count <$> br_receipts r) = (Some 12, [0; 1])
  | _ => False
  end.
Proof. vm_compute. reflexivity. Qed.

Definition demo_result : ParallelBlockResultV1 :=
  match serial_block demo_sha demo_parent demo_txs schedule with
  | Ok acc => finish_block demo_sha 2 acc
  | _ => mkBlockResult ∅ [] [] [] [] [] 0 false false false
  end.

Lemma demo_run_ok : demo_run 2 = Ok demo_result.
Proof. vm_compute. reflexivity. Qed.

Lemma parallel_block_is_serial_witness :
  execute_parallel_block_v1 demo_sha demo_parent demo_txs 2 schedule = Ok demo_result <->
  Forall (fun t => exists s, execute_transaction demo_parent t schedule = Ok s) demo_txs /\
  exists acc, serial_block demo_sha demo_parent demo_txs schedule = Ok acc /\ demo_result = finish_block demo_sha 2 acc.
Proof. apply (parallel_block_is_serial demo_sha demo_parent demo_txs 2 schedule demo_result). vm_compute. reflexivity. Defined.

Lemma parallel_result_worker_independent_witness :
  execute_parallel_block_v1 demo_sha demo_parent demo_txs 5 schedule =
    Ok (mkBlockResult (br_state demo_result) (br_receipts demo_result) (br_fee_deltas demo_result)
          (br_state_root demo_result) (br_receipt_root demo_result) (br_fee_root demo_result) 5 false false false).
Proof.
  apply (parallel_result_worker_independent demo_sha demo_parent demo_txs 2 5 schedule demo_result).
  - exact demo_run_ok.
  - unfold MAX_PARALLEL_WORKERS_V1. lia.
Defined.

Lemma parallel_fees_exact_witness :
  demo_run 2 = Ok demo_result /\ NoDup (fd_payer <$> br_fee_deltas demo_result) /\
  (forall d, d ∈ br_fee_deltas demo_result ->
     fd_payer_debit d = lsum (fee_of (fd_payer d)) (br_receipts demo_result) /\
     fd_fee_sink_credit d = fd_payer_debit d) /\
  (forall p, p ∈ er_payer <$> br_receipts demo_result <-> p ∈ fd_payer <$> br_fee_deltas demo_result).
Proof.
  split; [exact demo_run_ok|].
  exact (parallel_fees_exact demo_sha demo_parent demo_txs 2 schedule demo_result demo_run_ok).
Defined.

Lemma parallel_versions_exact_witness :
  vv_version <$> br_state demo_result !! oid 1 =
    (fun a => vv_version a + lsum (wrote (oid 1)) (zip demo_txs (br_receipts demo_result))) <$> demo_parent !! oid 1.
Proof. apply (parallel_versions_exact demo_sha demo_parent demo_txs 2 schedule demo_result (oid 1) demo_run_ok). Defined.

(** ** Errors *)

(** A speculative error is final: the first transaction resets object 1 to 0,
    after which adding to it would succeed, but on the parent's value the
    addition overflows and the whole block is refused. *)
Definition big_parent : ParallelStateV1 :=
  {[ oid 1 := mkVersioned 0 i128_max; oid 2 := mkVersioned 0 0 ]}.
Definition tx_reset : ParallelTransactionV1 :=
  mkTx 0 (oid 10) (oid 20) [] [oid 1] [SetValue (oid 1) 0] 0 0 limit 50 false.

Example speculative_error_is_final :
  execute_parallel_block_v1 demo_sha big_parent [tx_reset; tx_add] 1 schedule = Err ArithmeticOverflow /\
  match serial_block demo_sha big_parent [tx_reset; tx_add] schedule with Ok _ => True | _ => False end.
Proof. vm_compute. split; [reflexivity|exact I]. Qed.

(** Two failing transactions: which error is reported depends on the number of
    workers. *)
Definition tx_cheap : ParallelTransactionV1 :=
  mkTx 1 (oid 12) (oid 20) [] [oid 1] [SetValue (oid 1) 0] 0 0 limit 0 false.
Definition tx_overflow : ParallelTransactionV1 :=
  mkTx 2 (oid 11) (oid 20) [oid 1] [oid 2] [AddFromRead (oid 2) (oid 1) 3] 0 0 limit 50 false.

Example reported_error_depends_on_workers :
  execute_parallel_block_v1 demo_sha big_parent [tx_reset; tx_cheap; tx_overflow] 1 schedule = Err FeeLimitExceeded /\
  execute_parallel_block_v1 demo_sha big_parent [tx_reset; tx_cheap; tx_overflow] 2 schedule = Err ArithmeticOverflow.
Proof. vm_compute. split; reflexivity. Qed.

End ParallelWitness.
