(* ===== verification/Wire.v ===== *)
(** * Wire: the development wire contract of [trnm-protocol]

    [pon_wire.rs]: the block header and transaction envelope codecs over a byte
    reader, the payload length rules, and the sparse Merkle state root.
    SHA-256 is a parameter. *)

From stdpp Require Import base gmap list sorting strings.
From S2P Require Import Prelude.

Abbreviation Hash := (list Z).
Definition HEADER_BYTES : Z := 318.
Definition MAX_TX_BYTES : Z := 2048.

Inductive WireError := Length | Version | Noncanonical | Limit | KeyCollision.
Abbreviation WResult := (result WireError).

Record Header := mkHeader {
  h_network : Hash;
  h_parameters : Hash;
  h_parent : Hash;
  h_height : Z;
  h_timestamp : Z;
  h_target : Hash;
  h_miner : Hash;
  h_transactions : Hash;
  h_state : Hash;
  h_receipts : Hash;
  h_work_task : Hash;
  h_nonce : Z;
}.

Record Envelope := mkEnvelope {
  e_network : Hash;
  e_sender : Hash;
  e_nonce : Z;
  e_expiry : Z;
  e_fee_limit : Z;
  e_tag : Z;
  e_payload : list Z;
  e_signature : list Z;
}.

(** ** The reader *)

Record Reader := mkReader { rd_bytes : list Z; rd_pos : Z }.
Abbreviation ReadM := (SE Reader WireError).

(** [bytes.get(a..b)] *)
Definition get_range (l : list Z) (a b : Z) : option (list Z) :=
  if (a <=? b) && (b <=? zlen l) then Some (take (Z.to_nat (b - a)) (drop (Z.to_nat a) l)) else None.

(** [take::<N>()] *)
Definition take_n (n : Z) : ReadM (list Z) :=
  r ← get_self;
  end_ ← lift (ok_or (checked_add u64_max (rd_pos r) n) Length);
  result ← lift (ok_or (get_range (rd_bytes r) (rd_pos r) end_) Length);
  _ ← set_self (mkReader (rd_bytes r) end_);
  mret result.

Definition number : ReadM Z := bytes ← take_n 8; mret (of_le_bytes bytes).

(** ** Header codec *)

Definition header_magic : list Z := str "PNH1".

Definition encode_header (h : Header) : list Z :=
  header_magic ++ le_bytes 2 1 ++ h_network h ++ h_parameters h ++ h_parent h
  ++ le_bytes 8 (h_height h) ++ le_bytes 8 (h_timestamp h)
  ++ h_target h ++ h_miner h ++ h_transactions h ++ h_state h ++ h_receipts h ++ h_work_task h
  ++ le_bytes 8 (h_nonce h).

Definition read_header : ReadM Header :=
  magic ← take_n 4;
  _ ← (if magic <>? header_magic then lift (Err Version)
       else version ← take_n 2; lift (fail_if (version <>? le_bytes 2 1) Version));
  network ← take_n 32;
  parameters ← take_n 32;
  parent ← take_n 32;
  height ← number;
  timestamp ← number;
  target ← take_n 32;
  miner ← take_n 32;
  transactions ← take_n 32;
  state ← take_n 32;
  receipts ← take_n 32;
  work_task ← take_n 32;
  nonce ← number;
  mret (mkHeader network parameters parent height timestamp target miner transactions state receipts work_task nonce).

Definition decode_header (bytes : list Z) : WResult Header :=
  _ ← fail_if (negb (zlen bytes =? HEADER_BYTES)) Length;
  fst (read_header (mkReader bytes 0)).

(** ** Payload rules *)

(** [&p[a..b]]: panics out of range. *)
Definition slice (p : list Z) (a b : Z) : WResult (list Z) := expect (get_range p a b).

Definition check_sorted_entry (p : list Z) (_ : ()) (i : nat) : WResult () :=
  previous ← slice p (145 + (Z.of_nat i - 1) * 40) (177 + (Z.of_nat i - 1) * 40);
  current ← slice p (145 + Z.of_nat i * 40) (177 + Z.of_nat i * 40);
  fail_if (ord_leb current previous) Noncanonical.

Definition payload_size (tag : Z) (p : list Z) : WResult Z :=
  match tag with
  | 1 => Ok 40
  | 2 => Ok 80
  | 3 => Ok 32
  | 4 | 5 => Ok 64
  | 6 => Ok 176
  | 7 => Ok 104
  | 8 =>
      _ ← fail_if (zlen p <? 145) Length;
      count ← expect (p !! 144%nat);
      _ ← fail_if (negb ((1 <=? count) && (count <=? 16))) Limit;
      _ ← fail_if (negb (zlen p =? 145 + count * 40)) Length;
      _ ← try_fold (check_sorted_entry p) tt (seq 1 (Z.to_nat count - 1));
      Ok (145 + count * 40)
  | 10 => Ok 112
  | 11 => Ok 136
  | 12 => Ok 32
  | 9 =>
      _ ← fail_if (zlen p <? 73) Length;
      n ← expect (p !! 72%nat);
      _ ← fail_if (8 <? n) Limit;
      Ok (73 + n * 32)
  | _ => Err Version
  end.

Definition payload_len (tag : Z) (p : list Z) : WResult () :=
  size ← payload_size tag p;
  fail_if (negb (zlen p =? size)) Length.

(** ** Envelope codec *)

Definition envelope_magic : list Z := str "PNX1".

Definition unsigned (e : Envelope) : WResult (list Z) :=
  _ ← payload_len (e_tag e) (e_payload e);
  _ ← fail_if ((e_nonce e =? 0) || (10000000 <? e_fee_limit e)) Noncanonical;
  Ok (envelope_magic ++ e_network e ++ e_sender e ++ le_bytes 8 (e_nonce e) ++ le_bytes 8 (e_expiry e)
      ++ le_bytes 8 (e_fee_limit e) ++ [e_tag e] ++ le_bytes 2 (zlen (e_payload e)) ++ e_payload e).

Definition encode_envelope (e : Envelope) : WResult (list Z) :=
  o ← unsigned e;
  Ok (o ++ e_signature e).

Definition read_envelope (bytes : list Z) : ReadM Envelope :=
  magic ← take_n 4;
  _ ← lift (fail_if (magic <>? envelope_magic) Version);
  network ← take_n 32;
  sender ← take_n 32;
  nonce ← number;
  expiry ← number;
  fee_limit ← number;
  tag_bytes ← take_n 1;
  tag ← lift (expect (head tag_bytes));
  len_bytes ← take_n 2;
  let len := of_le_bytes len_bytes in
  _ ← lift (fail_if (negb (zlen bytes =? 159 + len)) Length);
  r ← get_self;
  payload ← lift (slice bytes (rd_pos r) (rd_pos r + len));
  _ ← set_self (mkReader (rd_bytes r) (rd_pos r + len));
  signature ← take_n 64;
  let out := mkEnvelope network sender nonce expiry fee_limit tag payload signature in
  _ ← lift (unsigned out);
  mret out.

Definition decode_envelope (bytes : list Z) : WResult Envelope :=
  _ ← fail_if (MAX_TX_BYTES <? zlen bytes) Limit;
  _ ← fail_if (zlen bytes <? 159) Length;
  fst (read_envelope bytes (mkReader bytes 0)).

(** ** Hashing *)

Section hashing.
Context (sha256 : list Z -> Hash).

(** [hash(tag, parts)]; lengths are truncated to their width by [as]. *)
Definition wire_hash (tag : string) (parts : list (list Z)) : Hash :=
  sha256 (str "TRNM-PON1" ++ [0] ++ le_bytes 2 (zlen (str tag)) ++ str tag
          ++ mjoin ((fun p => le_bytes 4 (zlen p) ++ p) <$> parts)).

Definition challenge (h : Header) : Hash := wire_hash "challenge" [encode_header h].
Definition block_id (h : Header) (trace : Hash) : Hash := wire_hash "block" [encode_header h; trace].
Definition signing_digest (e : Envelope) : WResult Hash :=
  o ← unsigned e; Ok (wire_hash "tx-sign" [o]).
Definition envelope_id (e : Envelope) : WResult Hash :=
  o ← encode_envelope e; Ok (wire_hash "tx-id" [o]).

(** ** Sparse Merkle state root *)

(** [empty[256 - n]]: the root of an empty subtree of height [n]. *)
Fixpoint empty_root (n : nat) : Hash :=
  match n with
  | O => wire_hash "state-empty" []
  | S n => let e := empty_root n in wire_hash "state-node" [e; e]
  end.

(** [x.0[depth / 8] & (128 >> (depth % 8)) == 0] *)
Definition bit_clear (depth : nat) (key : Hash) : bool :=
  Z.land (default 0 (key !! Nat.div depth 8)) (Z.shiftr 128 (Z.of_nat (Nat.modulo depth 8))) =? 0.

(** [xs.partition_point(pred)]: the length of the longest prefix satisfying
    [pred], on a slice partitioned by it. *)
Fixpoint partition_point {A} (pred : A -> bool) (xs : list A) : nat :=
  match xs with
  | [] => O
  | x :: xs => if pred x then S (partition_point pred xs) else O
  end.

(** [root(xs, depth, empty)] at [depth = 256 - n]. *)
Fixpoint root (n : nat) (xs : list (Hash * Hash)) : Hash :=
  match xs with
  | [] => empty_root n
  | x :: _ =>
      match n with
      | O => x.2
      | S n' =>
          let split := partition_point (fun x => bit_clear (256 - n) x.1) xs in
          wire_hash "state-node" [root n' (take split xs); root n' (drop split xs)]
      end
  end.

Definition leaf_of (p : list Z * list Z) : WResult (Hash * Hash) :=
  let '(k, v) := p in
  _ ← fail_if ((160 <? zlen k) || (4096 <? zlen v)) Limit;
  Ok (wire_hash "state-key" [k], wire_hash "state-leaf" [k; v]).

Definition state_root (values : gmap (list Z) (list Z)) : WResult Hash :=
  _ ← fail_if (65536 <? Z.of_nat (size values)) Limit;
  leaves ← try_map leaf_of (btree_iter values);
  let leaves := sort_by_key fst leaves in
  _ ← fail_if (windows2_any (fun a b => a.1 =?? b.1) leaves) KeyCollision;
  Ok (root 256 leaves).

End hashing.
