(* ===== verification/WireTheorems.v ===== *)
(** * WireTheorems: round trips of the wire codecs and the Merkle root

    [reads] describes one step of the reader by what remains to be read; the
    codec theorems go through it in both directions.  The state root is shown
    equal to a sparse Merkle tree defined by key bits. *)

From stdpp Require Import base gmap list sorting strings.
From S2P Require Import Prelude Wire.

(** ** The reader *)

Definition remaining (r : Reader) : list Z := drop (Z.to_nat (rd_pos r)) (rd_bytes r).
(** A reader within a buffer of addressable size. *)
Definition reader_ok (r : Reader) : Prop := 0 <= rd_pos r <= zlen (rd_bytes r) /\ zlen (rd_bytes r) <= u64_max.

Definition advanced (r : Reader) (n : Z) : Reader := mkReader (rd_bytes r) (rd_pos r + n).

Lemma remaining_length r : reader_ok r -> zlen (remaining r) = zlen (rd_bytes r) - rd_pos r.
Proof. intros [Hp _]. unfold remaining, zlen in *. rewrite length_drop. lia. Qed.

Lemma take_n_run n r :
  reader_ok r -> 0 <= n ->
  take_n n r = if n <=? zlen (remaining r)
               then (Ok (take (Z.to_nat n) (remaining r)), advanced r n) else (Err Length, r).
Proof.
  intros Hr Hn. pose proof (remaining_length r Hr) as Hl. destruct Hr as [Hp Hb].
  unfold take_n. cbv [mbind SE_bind get_self lift set_self mret SE_ret]. unfold checked_add, get_range.
  destruct (n <=? zlen (remaining r)) eqn:E; bprop.
  - rewrite (proj2 (Z.leb_le _ _)) by lia. cbn [ok_or].
    rewrite !(proj2 (Z.leb_le _ _)) by lia. cbn [andb ok_or]. replace (rd_pos r + n - rd_pos r) with n by lia. done.
  - destruct (rd_pos r + n <=? u64_max); [|done]. cbn [ok_or].
    rewrite (proj2 (Z.leb_le (rd_pos r) _)) by lia. rewrite (proj2 (Z.leb_gt _ (zlen (rd_bytes r)))) by lia. done.
Qed.

(** Reading [n] bytes: they are the front of what remains. *)
Lemma take_n_inv n r c r' :
  reader_ok r -> 0 <= n -> take_n n r = (Ok c, r') ->
  remaining r = c ++ remaining r' /\ zlen c = n /\ reader_ok r' /\ r' = advanced r n.
Proof.
  intros Hr Hn H. rewrite take_n_run in H by done. destruct (_ <=? _) eqn:E; bprop; [|done]. injection H as <- <-.
  pose proof (remaining_length r Hr) as Hl. destruct Hr as [Hp Hb]. split_and!.
  - unfold remaining, advanced. cbn. rewrite Z2Nat.inj_add, <- drop_drop by lia. by rewrite take_drop.
  - unfold zlen in *. rewrite length_take. lia.
  - split; cbn; lia.
  - done.
Qed.

Lemma take_n_app n r c rest :
  reader_ok r -> remaining r = c ++ rest -> zlen c = n ->
  take_n n r = (Ok c, advanced r n) /\ reader_ok (advanced r n) /\ remaining (advanced r n) = rest.
Proof.
  intros Hr Hrem Hc. assert (Hn : 0 <= n) by (unfold zlen in Hc; lia).
  pose proof (remaining_length r Hr) as Hl. rewrite take_n_run by done.
  rewrite Hrem in *. unfold zlen in *. rewrite length_app in *. rewrite (proj2 (Z.leb_le _ _)) by lia.
  split; [by rewrite take_app_length' by lia|]. destruct Hr as [Hp Hb]. unfold zlen in *. split; [split; cbn; unfold zlen; lia|].
  unfold remaining, advanced. cbn. rewrite Z2Nat.inj_add, <- drop_drop by lia. unfold remaining in Hrem.
  rewrite Hrem. by rewrite drop_app_length' by lia.
Qed.

(** ** Typed values *)

Definition is_hash (h : Hash) : Prop := zlen h = 32 /\ Forall is_byte h.

Definition header_typed (h : Header) : Prop :=
  Forall is_hash [h_network h; h_parameters h; h_parent h; h_target h; h_miner h; h_transactions h; h_state h;
                  h_receipts h; h_work_task h] /\
  Forall in_u64 [h_height h; h_timestamp h; h_nonce h].

Definition envelope_typed (e : Envelope) : Prop :=
  is_hash (e_network e) /\ is_hash (e_sender e) /\ in_u64 (e_nonce e) /\ in_u64 (e_expiry e) /\
  in_u64 (e_fee_limit e) /\ is_byte (e_tag e) /\ Forall is_byte (e_payload e) /\
  zlen (e_signature e) = 64 /\ Forall is_byte (e_signature e).

Lemma u64_roundtrip z : in_u64 z -> of_le_bytes (le_bytes 8 z) = z.
Proof. intros Hz. apply of_le_bytes_le_bytes. unfold in_u64, u64_max in Hz. cbn. lia. Qed.

Lemma u64_of_bytes c : zlen c = 8 -> Forall is_byte c -> in_u64 (of_le_bytes c) /\ le_bytes 8 (of_le_bytes c) = c.
Proof.
  intros Hc Hb. assert (length c = 8%nat) as Hl by (unfold zlen in Hc; lia). split.
  - pose proof (of_le_bytes_bound c Hb) as H. rewrite Hl in H. unfold in_u64, u64_max. cbn in H. lia.
  - rewrite <- Hl at 1. by apply le_bytes_of_le_bytes.
Qed.

(** ** Headers *)

Lemma number_app r z rest :
  reader_ok r -> remaining r = le_bytes 8 z ++ rest -> in_u64 z ->
  number r = (Ok z, advanced r 8) /\ reader_ok (advanced r 8) /\ remaining (advanced r 8) = rest.
Proof.
  intros Hr Hrem Hz. destruct (take_n_app 8 r _ _ Hr Hrem (le_bytes_zlen 8 z)) as (H & ? & ?).
  split; [|done]. unfold number. cbv [mbind SE_bind mret SE_ret]. rewrite H. by rewrite u64_roundtrip.
Qed.

(** Read the next chunk of a known buffer. *)
Ltac chunk :=
  match goal with
  | Hr : reader_ok ?r, Hrem : remaining ?r = ?c ++ ?rest |- context [take_n ?n ?r] =>
      let E := fresh in let H1 := fresh "Hr" in let H2 := fresh "Hrem" in
      destruct (take_n_app n r c rest Hr Hrem) as (E & H1 & H2); [assumption || apply le_bytes_zlen || reflexivity|];
      rewrite E; clear E Hr Hrem
  | Hr : reader_ok ?r, Hrem : remaining ?r = le_bytes 8 ?z ++ ?rest |- context [number ?r] =>
      let E := fresh in let H1 := fresh "Hr" in let H2 := fresh "Hrem" in
      destruct (number_app r z rest Hr Hrem) as (E & H1 & H2); [assumption|];
      rewrite E; clear E Hr Hrem
  end.

Lemma decode_encode_header h : header_typed h -> decode_header (encode_header h) = Ok h.
Proof.
  intros [Hh Hu]. repeat (apply Forall_cons in Hh as [[? _] Hh]). repeat (apply Forall_cons in Hu as [? Hu]).
  assert (Hlen : zlen (encode_header h) = 318).
  { unfold encode_header, zlen in *. rewrite !length_app, !le_bytes_length.
    change (length header_magic) with 4%nat. lia. }
  unfold decode_header. rewrite Hlen. cbn [Z.eqb HEADER_BYTES]. cbn [negb fail_if mbind result_bind].
  assert (Hr : reader_ok (mkReader (encode_header h) 0)) by (unfold reader_ok; cbn [rd_pos rd_bytes]; rewrite Hlen; unfold u64_max; lia).
  assert (Hrem : remaining (mkReader (encode_header h) 0) = encode_header h) by done.
  unfold encode_header at 2 in Hrem. generalize dependent (mkReader (encode_header h) 0). intros r Hr Hrem.
  unfold read_header. cbv [mbind SE_bind].
  chunk. rewrite bool_decide_eq_true_2 by done. cbn [negb].
  chunk. rewrite bool_decide_eq_true_2 by done. cbn [negb lift fail_if].
  do 11 chunk. rewrite <- (app_nil_r (le_bytes 8 (h_nonce h))) in *. chunk. by destruct h.
Qed.

Lemma SE_bind_Ok {S E A B} (m : SE S E A) (f : A -> SE S E B) s b s' :
  (m ≫= f) s = (Ok b, s') <-> exists a s1, m s = (Ok a, s1) /\ f a s1 = (Ok b, s').
Proof.
  cbv [mbind SE_bind]. destruct (m s) as [[a|e|] s1]; split; try (intros; naive_solver).
Qed.

Lemma lift_Ok {S E A} (x : result E A) (s : S) a s' : lift x s = (Ok a, s') <-> x = Ok a /\ s' = s.
Proof. unfold lift. naive_solver. Qed.
Lemma SE_ret_Ok {S E A} (x : A) (s : S) (a : A) s' : (mret x : SE S E A) s = (Ok a, s') <-> a = x /\ s' = s.
Proof. cbv [mret SE_ret]. naive_solver. Qed.

Lemma number_inv r z r' :
  reader_ok r -> Forall is_byte (remaining r) -> number r = (Ok z, r') ->
  remaining r = le_bytes 8 z ++ remaining r' /\ in_u64 z /\ reader_ok r' /\ r' = advanced r 8.
Proof.
  intros Hr Hb H. unfold number in H. apply SE_bind_Ok in H as (c & r1 & H & [= <- <-]).
  apply take_n_inv in H as (Hrem & Hc & Hr1 & ?); [|done|lia]. rewrite Hrem in Hb. apply Forall_app in Hb as [Hb _].
  destruct (u64_of_bytes c Hc Hb) as [Hz Hle]. by rewrite Hle.
Qed.

(** Turn a successful read [H] into what it says about the remaining bytes. *)
Ltac unread H :=
  lazymatch type of H with
  | take_n ?n ?r = _ =>
      apply take_n_inv in H as (? & ? & ? & ?); [|assumption|lia];
      match goal with
      | Hb : Forall is_byte (remaining r), E : remaining r = _ ++ _ |- _ =>
          rewrite E in Hb; apply Forall_app in Hb as [? Hb]
      end
  | number ?r = _ =>
      apply number_inv in H as (? & ? & ? & ?); [|assumption|assumption];
      match goal with
      | Hb : Forall is_byte (remaining r), E : remaining r = _ ++ _ |- _ =>
          rewrite E in Hb; apply Forall_app in Hb as [_ Hb]
      end
  end.
(** Peel the next read off a successful decoding [H]. *)
Ltac next_read H :=
  let H1 := fresh "Hrd" in apply SE_bind_Ok in H as (? & ? & H1 & H); unread H1.

Lemma encode_decode_header b h :
  Forall is_byte b -> decode_header b = Ok h -> header_typed h /\ encode_header h = b.
Proof.
  intros Hb Hd. unfold decode_header in Hd. apply bind_Ok in Hd as ([] & Hlen%fail_if_Ok & Hd).
  apply negb_false_iff, Z.eqb_eq in Hlen. unfold HEADER_BYTES in Hlen.
  destruct (read_header (mkReader b 0)) as [res rend] eqn:E. cbn in Hd. subst res.
  assert (Hr : reader_ok (mkReader b 0)) by (unfold reader_ok; cbn [rd_pos rd_bytes]; unfold u64_max; lia).
  assert (Hrem : remaining (mkReader b 0) = b) by done. rewrite <- Hrem in Hb.
  unfold read_header in E. apply SE_bind_Ok in E as (magic & r0 & E0 & E). unread E0.
  apply SE_bind_Ok in E as ([] & r1 & E1 & E).
  destruct (bool_decide (magic = header_magic)) eqn:Em; cbn [negb] in E1; [|done]. bprop. subst magic.
  apply SE_bind_Ok in E1 as (ver & r2 & E1 & E2). unread E1.
  apply lift_Ok in E2 as [E2 ->]. apply fail_if_Ok in E2. bprop. subst ver.
  do 12 next_read E. apply SE_ret_Ok in E as [-> ->].
  split; [split; repeat (apply Forall_cons_2; [first [assumption|split; assumption]|]); apply Forall_nil_2|].
  match goal with Hb : Forall is_byte (remaining ?r), H : reader_ok ?r |- _ =>
    assert (remaining r = []) as Hend by
      (pose proof (remaining_length r H) as Hl; subst; cbn in Hl; unfold zlen in *; apply length_zero_iff_nil; lia) end.
  transitivity (remaining (mkReader b 0)); [clear Hrem|exact Hrem]. unfold encode_header. cbn [h_network h_parameters h_parent h_height h_timestamp
    h_target h_miner h_transactions h_state h_receipts h_work_task h_nonce].
  repeat match goal with H : remaining ?r = _ |- context [remaining ?r] => rewrite H; clear H end.
  by rewrite app_nil_r.
Qed.

(** ** Payload rules *)

Lemma get_range_Some l a b : 0 <= a <= b -> b <= zlen l -> exists c, get_range l a b = Some c /\ zlen c = b - a.
Proof.
  intros Ha Hb. unfold get_range. rewrite !(proj2 (Z.leb_le _ _)) by lia. cbn. eexists. split; [done|].
  unfold zlen in *. rewrite length_take, length_drop. lia.
Qed.

Lemma payload_size_8 p s :
  payload_size 8 p = Ok s -> zlen p = s /\ s <= 785.
Proof. intros H. unfold payload_size in H. rinv. bprop. subst. lia. Qed.

Lemma payload_len_bound tag p u : payload_len tag p = Ok u -> zlen p <= 785.
Proof.
  intros H. unfold payload_len in H. apply bind_Ok in H as (s & Hs & Hl%fail_if_Ok). bprop.
  destruct (decide (tag = 8)) as [->|H8]; [apply payload_size_8 in Hs; lia|].
  destruct (decide (tag = 9)) as [->|H9]; [cbn in Hs; rinv; bprop; subst; lia|].
  unfold payload_size in Hs. repeat (case_match; try done; rinv; subst; try lia).
Qed.

Lemma check_sorted_entry_not_panic p count u i :
  zlen p = 145 + count * 40 -> (1 <= i)%nat -> Z.of_nat i < count -> check_sorted_entry p u i <> Panic.
Proof.
  intros Hp Hi Hc. unfold check_sorted_entry, slice.
  destruct (get_range_Some p (145 + (Z.of_nat i - 1) * 40) (177 + (Z.of_nat i - 1) * 40)) as (a & -> & _); [lia..|].
  destruct (get_range_Some p (145 + Z.of_nat i * 40) (177 + Z.of_nat i * 40)) as (c & -> & _); [lia..|].
  cbn [expect mbind result_bind]. apply fail_if_not_panic.
Qed.

Lemma lookup_zlen {A} (p : list A) (i : nat) : Z.of_nat i < zlen p -> is_Some (p !! i).
Proof. unfold zlen. intros. apply lookup_lt_is_Some. lia. Qed.

Lemma payload_len_not_panic tag p : payload_len tag p <> Panic.
Proof.
  unfold payload_len. no_panic. unfold payload_size. repeat (case_match; try done); no_panic; bprop.
  - apply expect_not_panic, lookup_zlen. match goal with H : fail_if _ _ = Ok _ |- _ => apply fail_if_Ok in H end. bprop. lia.
  - apply expect_not_panic, lookup_zlen. match goal with H : fail_if _ _ = Ok _ |- _ => apply fail_if_Ok in H end. bprop. lia.
  - repeat match goal with H : fail_if _ _ = Ok _ |- _ => apply fail_if_Ok in H end. bprop.
    apply (try_fold_not_panic (fun _ => True)); [done| |done]. intros u i Hi _. apply elem_of_seq in Hi.
    eapply check_sorted_entry_not_panic; [done|lia..].
Qed.

Lemma unsigned_not_panic e : unsigned e <> Panic.
Proof. unfold unsigned. no_panic. apply payload_len_not_panic. Qed.

(** ** Envelopes *)

Lemma slice_app r c rest n :
  reader_ok r -> remaining r = c ++ rest -> zlen c = n ->
  slice (rd_bytes r) (rd_pos r) (rd_pos r + n) = Ok c /\ reader_ok (advanced r n) /\ remaining (advanced r n) = rest.
Proof.
  intros Hr Hrem Hc. destruct (take_n_app n r c rest Hr Hrem Hc) as (Ht & Hr' & Hrem'). split; [|done].
  assert (0 <= n) by (unfold zlen in Hc; lia). destruct Hr as [Hp _]. destruct Hr' as [Hp' _]. cbn in Hp'.
  unfold slice, get_range. rewrite !(proj2 (Z.leb_le _ _)) by lia. cbn [andb expect].
  replace (rd_pos r + n - rd_pos r) with n by lia. fold (remaining r). rewrite Hrem. f_equal.
  apply take_app_length'. unfold zlen in Hc. lia.
Qed.

Lemma slice_inv r c n :
  reader_ok r -> 0 <= n -> slice (rd_bytes r) (rd_pos r) (rd_pos r + n) = Ok c ->
  remaining r = c ++ remaining (advanced r n) /\ zlen c = n /\ reader_ok (advanced r n).
Proof.
  intros Hr Hn Hs. unfold slice, get_range in Hs. destruct (_ && _) eqn:E; [|done]. bprop. cbn in Hs. injection Hs as <-.
  replace (rd_pos r + n - rd_pos r) with n by lia. fold (remaining r). pose proof (remaining_length r Hr) as Hl.
  destruct Hr as [Hp Hb]. split_and!.
  - unfold remaining, advanced. cbn. rewrite Z2Nat.inj_add, <- drop_drop by lia. by rewrite take_drop.
  - unfold zlen in *. rewrite length_take. lia.
  - split; cbn; lia.
Qed.

Lemma u16_roundtrip z : 0 <= z <= u16_max -> of_le_bytes (le_bytes 2 z) = z.
Proof. intros Hz. apply of_le_bytes_le_bytes. unfold u16_max in Hz. cbn. lia. Qed.

Lemma decode_encode_envelope e b : envelope_typed e -> encode_envelope e = Ok b -> decode_envelope b = Ok e.
Proof.
  intros ([? _] & [? _] & ? & ? & ? & _ & _ & ? & _) He. unfold encode_envelope in He.
  apply bind_Ok in He as (o & Hu & He). apply Ok_inj in He as <-. pose proof Hu as Hun. unfold unsigned in Hu.
  apply bind_Ok in Hu as ([] & Hpl & Hu). apply bind_Ok in Hu as ([] & _ & Ho). apply Ok_inj in Ho.
  pose proof (payload_len_bound _ _ _ Hpl) as Hmax. pose proof (Zle_0_nat (length (e_payload e))) as Hpos. fold (zlen (e_payload e)) in Hpos.
  rewrite <- Ho, <- !app_assoc. set (b := envelope_magic ++ _).
  assert (Hlen : zlen b = 159 + zlen (e_payload e)).
  { unfold b, zlen in *. rewrite !length_app, !le_bytes_length. change (length envelope_magic) with 4%nat. cbn [length]. lia. }
  unfold decode_envelope. rewrite Hlen. rewrite !(proj2 (Z.ltb_ge _ _)) by (unfold MAX_TX_BYTES; lia).
  cbn [fail_if mbind result_bind].
  assert (Hr : reader_ok (mkReader b 0)) by (unfold reader_ok; cbn [rd_pos rd_bytes]; rewrite Hlen; unfold u64_max; lia).
  assert (Hrem : remaining (mkReader b 0) = b) by done. unfold b in Hrem at 2.
  assert (Hbytes : rd_bytes (mkReader b 0) = b) by done.
  generalize dependent (mkReader b 0). intros r Hr Hrem Hbytes. unfold read_envelope. cbv [mbind SE_bind].
  chunk. rewrite bool_decide_eq_true_2 by done. cbn [negb lift fail_if].
  do 5 chunk. chunk. cbn [head lift expect]. chunk. rewrite u16_roundtrip by (unfold u16_max; lia).
  rewrite Hlen, Z.eqb_refl. cbn [negb fail_if lift get_self].
  match goal with Hr : reader_ok ?r, Hrem : remaining ?r = e_payload e ++ ?rest |- _ =>
    destruct (slice_app r _ _ _ Hr Hrem eq_refl) as (Hs & Hr2 & Hrem2) end.
  cbn [advanced rd_bytes] in Hs. rewrite Hbytes in Hs. rewrite Hs. cbn [lift set_self].
  match type of Hr2 with reader_ok ?r2 => match goal with |- context [take_n 64 ?x] => change x with r2 end end.
  rewrite <- (app_nil_r (e_signature e)) in Hrem2. destruct (take_n_app 64 _ _ _ Hr2 Hrem2) as (-> & _); [done|].
  destruct e. cbn in Hun |- *. by rewrite Hun.
Qed.

(** The payload, the signature and the final check. *)
Lemma read_tail_inv (mk : list Z -> list Z -> Envelope) b r len e rend :
  reader_ok r -> rd_bytes r = b -> Forall is_byte (remaining r) -> 0 <= len ->
  ((r0 ← get_self;
    payload ← lift (slice b (rd_pos r0) (rd_pos r0 + len));
    _ ← set_self (mkReader (rd_bytes r0) (rd_pos r0 + len));
    signature ← take_n 64;
    _ ← lift (unsigned (mk payload signature));
    mret (mk payload signature)) : ReadM Envelope) r = (Ok e, rend) ->
  exists p s o, remaining r = p ++ s ++ remaining rend /\ zlen p = len /\ zlen s = 64 /\
    Forall is_byte p /\ Forall is_byte s /\ e = mk p s /\ unsigned e = Ok o /\
    reader_ok rend /\ rend = advanced (advanced r len) 64.
Proof.
  intros Hr Hbytes Hb Hlen E. apply SE_bind_Ok in E as (r0 & r1 & E0 & E). injection E0 as <- <-.
  apply SE_bind_Ok in E as (p & r2 & E0 & E). apply lift_Ok in E0 as [Hs ->]. rewrite <- Hbytes in Hs.
  apply slice_inv in Hs as (Hrem & Hp & Hr'); [|done..]. rewrite Hrem in Hb. apply Forall_app in Hb as [Hbp Hb].
  apply SE_bind_Ok in E as ([] & r3 & E0 & E). injection E0 as <-.
  change (mkReader (rd_bytes r) (rd_pos r + len)) with (advanced r len) in E.
  apply SE_bind_Ok in E as (sg & r4 & E0 & E). apply take_n_inv in E0 as (Hrem2 & Hsg & Hr4 & ->); [|done|lia].
  rewrite Hrem2 in Hb. apply Forall_app in Hb as [Hbs _].
  apply SE_bind_Ok in E as (o & r5 & E0 & E). apply lift_Ok in E0 as [Hu ->]. apply SE_ret_Ok in E as [-> ->].
  exists p, sg, o. split_and!; try done. by rewrite Hrem, Hrem2.
Qed.

Lemma u16_of_bytes c : zlen c = 2 -> Forall is_byte c -> 0 <= of_le_bytes c /\ le_bytes 2 (of_le_bytes c) = c.
Proof.
  intros Hc Hb. assert (length c = 2%nat) as Hl by (unfold zlen in Hc; lia). split.
  - apply (of_le_bytes_bound c Hb).
  - rewrite <- Hl at 1. by apply le_bytes_of_le_bytes.
Qed.

Lemma encode_decode_envelope e b :
  Forall is_byte b -> decode_envelope b = Ok e -> envelope_typed e /\ encode_envelope e = Ok b.
Proof.
  intros Hb Hd. unfold decode_envelope in Hd. apply bind_Ok in Hd as ([] & Hmax%fail_if_Ok & Hd).
  apply bind_Ok in Hd as ([] & _ & Hd). bprop. unfold MAX_TX_BYTES in Hmax.
  destruct (read_envelope b (mkReader b 0)) as [res rend] eqn:E. cbn in Hd. subst res.
  pose proof (Zle_0_nat (length b)) as Hpos. fold (zlen b) in Hpos.
  assert (Hr : reader_ok (mkReader b 0)) by (unfold reader_ok; cbn [rd_pos rd_bytes]; unfold u64_max; lia).
  assert (Hrem : remaining (mkReader b 0) = b) by done. rewrite <- Hrem in Hb.
  unfold read_envelope in E. apply SE_bind_Ok in E as (magic & r0 & E0 & E). unread E0.
  apply SE_bind_Ok in E as ([] & ? & E1 & E). apply lift_Ok in E1 as [Em%fail_if_Ok ->]. bprop. subst magic.
  do 6 next_read E. apply SE_bind_Ok in E as (tag & ? & E1 & E). apply lift_Ok in E1 as [Htag ->].
  apply expect_Ok in Htag. next_read E.
  match goal with H : head ?c = Some tag, Hc : zlen ?c = 1 |- _ =>
    assert (c = [tag]) as -> by (destruct c as [|? [|]]; unfold zlen in Hc; cbn in *; [done|congruence|lia]) end.
  match goal with Hc : zlen ?c = 2, Hbc : Forall is_byte ?c |- _ => destruct (u16_of_bytes c Hc Hbc) as [Hlen0 Hle] end.
  apply SE_bind_Ok in E as ([] & ? & E1 & E). apply lift_Ok in E1 as [Hlen%fail_if_Ok ->]. bprop.
  match type of E with _ ?r = _ =>
    assert (Hbr : rd_bytes r = b) by (subst; done);
    assert (Hpr : rd_pos r = 95) by (subst; done)
  end.
  apply (read_tail_inv (mkEnvelope _ _ _ _ _ _)) in E
    as (p & sg & o & Ht & Hp & Hsg & Hbp & Hbs & -> & Hu & Hrend & Hadv); [|assumption..].
  assert (Hend : remaining rend = []).
  { pose proof (remaining_length rend Hrend) as Hl. rewrite Hadv in Hl at 2 3. cbn [advanced rd_pos rd_bytes] in Hl.
    rewrite Hbr, Hpr in Hl. unfold zlen in *. apply length_zero_iff_nil. lia. }
  rewrite Hend, app_nil_r in Ht. split.
  { unfold envelope_typed, is_hash. cbn. split_and!; try assumption.
    match goal with H : Forall is_byte [tag] |- _ => inversion H; assumption end. }
  unfold encode_envelope. rewrite Hu. cbn [mbind result_bind]. f_equal.
  unfold unsigned in Hu. apply bind_Ok in Hu as (_ & _ & Hu). apply bind_Ok in Hu as (_ & _ & Ho). apply Ok_inj in Ho.
  transitivity (remaining (mkReader b 0)); [clear Hrem|exact Hrem].
  repeat match goal with H : remaining ?r = _ |- context [remaining ?r] => rewrite H; clear H end.
  rewrite <- Ho. cbn [e_network e_sender e_nonce e_expiry e_fee_limit e_tag e_payload]. rewrite Hp, Hle.
  by rewrite <- !app_assoc.
Qed.

(** ** Decoding never panics *)

Lemma SE_bind_no_panic {S E A B} (m : SE S E A) (f : A -> SE S E B) s :
  (m s).1 <> Panic -> (forall a s', m s = (Ok a, s') -> (f a s').1 <> Panic) -> ((m ≫= f) s).1 <> Panic.
Proof. cbv [mbind SE_bind]. destruct (m s) as [[a|e|] s1]; cbn; naive_solver. Qed.

Lemma take_n_no_panic n r : (take_n n r).1 <> Panic.
Proof.
  unfold take_n. cbv [mbind SE_bind get_self lift set_self mret SE_ret].
  destruct (checked_add _ _ _); cbn; [|done]. by destruct (get_range _ _ _).
Qed.
Lemma number_no_panic r : (number r).1 <> Panic.
Proof. unfold number. apply SE_bind_no_panic; [apply take_n_no_panic|done]. Qed.

(** Step over the next read. *)
Ltac skip_read Hr :=
  let a := fresh "c" in let s := fresh "r" in let H := fresh in let H1 := fresh in
  apply SE_bind_no_panic; [first [apply take_n_no_panic|apply number_no_panic]|];
  intros a s H; unread H.

Lemma read_envelope_no_panic b :
  Forall is_byte b -> zlen b <= MAX_TX_BYTES -> (read_envelope b (mkReader b 0)).1 <> Panic.
Proof.
  intros Hb Hmax. unfold MAX_TX_BYTES in Hmax. pose proof (Zle_0_nat (length b)) as Hpos. fold (zlen b) in Hpos.
  assert (Hr : reader_ok (mkReader b 0)) by (unfold reader_ok; cbn [rd_pos rd_bytes]; unfold u64_max; lia).
  assert (Hrem : remaining (mkReader b 0) = b) by done. rewrite <- Hrem in Hb. clear Hrem.
  unfold read_envelope. skip_read Hr.
  apply SE_bind_no_panic; [apply fail_if_not_panic|]. intros [] ? [_ ->]%lift_Ok.
  do 6 skip_read Hr.
  apply SE_bind_no_panic.
  { cbn. match goal with H : zlen ?c = 1 |- expect (head ?c) <> Panic => destruct c; [done|discriminate] end. }
  intros tag ? [_ ->]%lift_Ok. skip_read Hr.
  apply SE_bind_no_panic; [apply fail_if_not_panic|]. intros [] ? [Hlen%fail_if_Ok ->]%lift_Ok. bprop.
  apply SE_bind_no_panic; [done|]. intros r' ? [= <- <-].
  match goal with Hc : zlen ?c = 2, Hbc : Forall is_byte ?c |- _ => destruct (u16_of_bytes c Hc Hbc) as [Hlen0 _] end.
  apply SE_bind_no_panic.
  { match goal with |- (lift (slice b (rd_pos ?r) _) _).1 <> Panic => assert (Hpr : rd_pos r = 95) by (subst; done) end.
    rewrite Hpr. cbn. unfold slice.
    match goal with |- expect (get_range b ?x ?y) <> Panic => destruct (get_range_Some b x y) as (? & -> & _); [lia..|done] end. }
  intros p ? [_ ->]%lift_Ok. apply SE_bind_no_panic; [done|]. intros [] ? _.
  apply SE_bind_no_panic; [apply take_n_no_panic|]. intros sg ? _.
  apply SE_bind_no_panic; [apply unsigned_not_panic|done].
Qed.

Lemma decode_envelope_no_panic b : Forall is_byte b -> decode_envelope b <> Panic.
Proof.
  intros Hb. unfold decode_envelope. apply bind_not_panic; [apply fail_if_not_panic|]. intros [] Hm%fail_if_Ok. bprop.
  apply bind_not_panic; [apply fail_if_not_panic|]. intros _ _. by apply read_envelope_no_panic.
Qed.

(** A decoded envelope carries one of the twelve tags. *)
Lemma decoded_tag b e : Forall is_byte b -> decode_envelope b = Ok e -> 1 <= e_tag e <= 12.
Proof.
  intros Hb He. destruct (encode_decode_envelope _ _ Hb He) as [_ Hu]. unfold encode_envelope, unsigned, payload_len in Hu.
  rinv. unfold payload_size in *. repeat case_match; try done; lia.
Qed.

(** ** Key bits *)

Definition key_bit (d : nat) (key : Hash) : bool :=
  Z.testbit (default 0 (key !! Nat.div d 8)) (7 - Z.of_nat (Nat.modulo d 8)).

Lemma land_pow2_eqb x k : 0 <= k -> (Z.land x (2 ^ k) =? 0) = negb (Z.testbit x k).
Proof.
  intros Hk. apply eq_true_iff_eq. rewrite Z.eqb_eq, negb_true_iff. split.
  - intros H. assert (Z.testbit (Z.land x (2 ^ k)) k = false) as H' by (rewrite H; apply Z.testbit_0_l).
    rewrite Z.land_spec, Z.pow2_bits_true, andb_true_r in H' by done. done.
  - intros H. apply Z.bits_inj'. intros i Hi. rewrite Z.land_spec, Z.testbit_0_l, Z.pow2_bits_eqb by done.
    destruct (Z.eqb_spec k i) as [<-|]; [by rewrite H|by rewrite andb_false_r].
Qed.

Lemma bit_clear_spec d key : bit_clear d key = negb (key_bit d key).
Proof.
  unfold bit_clear, key_bit. pose proof (Nat.mod_upper_bound d 8).
  rewrite <- land_pow2_eqb by lia. do 2 f_equal.
  change 128 with (2 ^ 7). rewrite Z.shiftr_div_pow2, <- Z.pow_sub_r by lia. done.
Qed.

Definition agree (d : nat) (a b : Hash) : Prop := forall i, (i < d)%nat -> key_bit i a = key_bit i b.

Lemma byte_bits x y : is_byte x -> is_byte y -> (forall j, 0 <= j < 8 -> Z.testbit x j = Z.testbit y j) -> x = y.
Proof.
  unfold is_byte, u8_max. intros Hx Hy Hj. apply Z.bits_inj'. intros i Hi.
  destruct (decide (i < 8)); [by apply Hj|]. rewrite !Z.bits_above_log2; try done; try lia.
  - destruct (decide (y = 0)) as [->|]; [cbn; lia|]. apply Z.log2_lt_pow2; [lia|].
    apply Z.lt_le_trans with (2 ^ 8); [cbn; lia|]. apply Z.pow_le_mono_r; lia.
  - destruct (decide (x = 0)) as [->|]; [cbn; lia|]. apply Z.log2_lt_pow2; [lia|].
    apply Z.lt_le_trans with (2 ^ 8); [cbn; lia|]. apply Z.pow_le_mono_r; lia.
Qed.

(** A larger bit under equal higher bits makes a larger number. *)
Lemma higher_bits_lt x y k :
  0 <= k < 8 -> is_byte x -> is_byte y -> (forall j, k < j < 8 -> Z.testbit x j = Z.testbit y j) ->
  Z.testbit x k = true -> Z.testbit y k = false -> y < x.
Proof.
  intros Hk Hx Hy Hj Hxk Hyk.
  assert (Hsh : Z.shiftr x (k + 1) = Z.shiftr y (k + 1)).
  { apply Z.bits_inj'. intros i Hi. rewrite !Z.shiftr_spec by done.
    destruct (decide (i + (k + 1) < 8)); [apply Hj; lia|]. unfold is_byte, u8_max in *.
    assert (Hz : forall z, 0 <= z <= 255 -> Z.testbit z (i + (k + 1)) = false); [|by rewrite !Hz].
    intros z Hz. destruct (decide (z = 0)) as [->|]; [apply Z.testbit_0_l|]. apply Z.bits_above_log2; [lia|].
    apply Z.log2_lt_pow2; [lia|]. apply Z.lt_le_trans with (2 ^ 8); [cbn; lia|]. apply Z.pow_le_mono_r; lia. }
  rewrite !Z.shiftr_div_pow2 in Hsh by lia. rewrite !Z.pow_add_r in Hsh by lia.
  rewrite Z.testbit_true in Hxk by lia. rewrite Z.testbit_false in Hyk by lia.
  rewrite <- !Z.div_div in Hsh by lia. change (2 ^ 1) with 2 in Hsh.
  assert (y / 2 ^ k < x / 2 ^ k) as Hlt
    by (pose proof (Z.div_mod (x / 2 ^ k) 2); pose proof (Z.div_mod (y / 2 ^ k) 2); lia).
  destruct (Z.lt_ge_cases y x) as [|Hge]; [done|]. pose proof (Z.div_le_mono x y (2 ^ k) ltac:(lia) Hge). lia.
Qed.

Lemma is_hash_lookup h i : is_hash h -> (i < 32)%nat -> exists x, h !! i = Some x /\ is_byte x.
Proof.
  intros [Hl Hb] Hi. destruct (lookup_lt_is_Some_2 h i) as [x Hx]; [unfold zlen in Hl; lia|].
  exists x. split; [done|]. rewrite Forall_lookup in Hb. by eapply Hb.
Qed.

(** Agreeing on the bits of a byte means agreeing on the byte. *)
Lemma agree_byte d a b q :
  is_hash a -> is_hash b -> agree d a b -> (8 * q + 8 <= d)%nat -> (q < 32)%nat -> a !! q = b !! q.
Proof.
  intros Ha Hb Hag Hd Hq. destruct (is_hash_lookup a q Ha Hq) as (x & Hx & Hxb).
  destruct (is_hash_lookup b q Hb Hq) as (y & Hy & Hyb). rewrite Hx, Hy. f_equal. apply byte_bits; [done..|].
  intros j Hj. specialize (Hag (8 * q + (7 - Z.to_nat j))%nat ltac:(lia)). unfold key_bit in Hag.
  replace ((8 * q + (7 - Z.to_nat j)) / 8)%nat with q in Hag by (apply Nat.div_unique with (7 - Z.to_nat j)%nat; lia).
  replace ((8 * q + (7 - Z.to_nat j)) mod 8)%nat with (7 - Z.to_nat j)%nat in Hag
    by (apply Nat.mod_unique with q; lia).
  rewrite Hx, Hy in Hag. cbn [default from_option id] in Hag. replace (7 - Z.of_nat (7 - Z.to_nat j)) with j in Hag by lia. done.
Qed.

Lemma agree_all a b : is_hash a -> is_hash b -> agree 256 a b -> a = b.
Proof.
  intros Ha Hb Hag. apply list_eq. intros q. destruct (decide (q < 32)%nat) as [Hq|Hq].
  - by apply (agree_byte 256); [..|lia|].
  - destruct Ha as [Hla _], Hb as [Hlb _]. unfold zlen in *. rewrite !lookup_ge_None_2 by lia. done.
Qed.

Lemma list_cmp_prefix_gt (a b : list Z) q x y :
  (forall i, (i < q)%nat -> a !! i = b !! i) -> a !! q = Some x -> b !! q = Some y -> y < x ->
  list_cmp a b = Gt.
Proof.
  revert q b. induction a as [|c a IH]; intros q b Hpre Ha Hb Hlt; [done|].
  destruct b as [|e b]; [done|]. destruct q as [|q]; cbn in Ha, Hb.
  - injection Ha as ->. injection Hb as ->. cbn. by rewrite (proj2 (Z.compare_gt_iff _ _)).
  - pose proof (Hpre 0%nat ltac:(lia)) as H0. injection H0 as ->. cbn. rewrite Z.compare_refl.
    apply (IH q); try done. intros i Hi. apply (Hpre (S i)). lia.
Qed.

(** Between keys that agree on the first [d] bits, bit [d] orders them. *)
Lemma bit_orders_keys d a b :
  is_hash a -> is_hash b -> (d < 256)%nat -> agree d a b -> key_bit d a = true -> key_bit d b = false ->
  ord_leb a b = false.
Proof.
  intros Ha Hb Hd Hag Hda Hdb. pose proof (Nat.mod_upper_bound d 8 ltac:(lia)) as Hm. pose proof (Nat.div_mod_eq d 8) as Hdm.
  assert (Hq : (d / 8 < 32)%nat) by (apply Nat.Div0.div_lt_upper_bound; lia).
  destruct (is_hash_lookup a _ Ha Hq) as (x & Hx & Hxb). destruct (is_hash_lookup b _ Hb Hq) as (y & Hy & Hyb).
  assert (list_cmp a b = Gt) as Hgt; [|unfold ord_leb; cbn; by rewrite Hgt].
  apply (list_cmp_prefix_gt _ _ (d / 8) x y); try done.
  - intros i Hi. apply (agree_byte d); try done; lia.
  - unfold key_bit in Hda, Hdb. rewrite Hx in Hda. rewrite Hy in Hdb. cbn [default from_option id] in Hda, Hdb.
    apply (higher_bits_lt x y (7 - Z.of_nat (d mod 8))); try done; [lia|].
    intros j Hj. specialize (Hag (8 * (d / 8) + (7 - Z.to_nat j))%nat ltac:(lia)). unfold key_bit in Hag.
    replace ((8 * (d / 8) + (7 - Z.to_nat j)) / 8)%nat with (d / 8)%nat in Hag
      by (apply Nat.div_unique with (7 - Z.to_nat j)%nat; lia).
    replace ((8 * (d / 8) + (7 - Z.to_nat j)) mod 8)%nat with (7 - Z.to_nat j)%nat in Hag
      by (apply Nat.mod_unique with (d / 8)%nat; lia).
    rewrite Hx, Hy in Hag. cbn [default from_option id] in Hag.
    by replace (7 - Z.of_nat (7 - Z.to_nat j)) with j in Hag by lia.
Qed.

Lemma filter_none {A} (P : A -> Prop) `{forall x, Decision (P x)} (l : list A) : (forall x, x ∈ l -> ~ P x) -> filter P l = [].
Proof.
  induction l as [|x l IH]; intros Hl; [done|]. rewrite filter_cons_False by (apply Hl; by left).
  apply IH. intros. apply Hl. by right.
Qed.
Lemma filter_all {A} (P : A -> Prop) `{forall x, Decision (P x)} (l : list A) : (forall x, x ∈ l -> P x) -> filter P l = l.
Proof.
  induction l as [|x l IH]; intros Hl; [done|]. rewrite filter_cons_True by (apply Hl; by left).
  f_equal. apply IH. intros. apply Hl. by right.
Qed.

(** ** The sparse Merkle tree *)

Section merkle.
Context (sha256 : list Z -> Hash).

(** The tree over a collection of (key, leaf) pairs, split by key bits. *)
Fixpoint smt (n : nat) (leaves : list (Hash * Hash)) : Hash :=
  match leaves with
  | [] => empty_root sha256 n
  | x :: _ =>
      match n with
      | O => x.2
      | S n' =>
          wire_hash sha256 "state-node"
            [smt n' (filter (fun x => key_bit (256 - n) x.1 = false) leaves);
             smt n' (filter (fun x => key_bit (256 - n) x.1 = true) leaves)]
      end
  end.

(** All keys are digests that agree on the bits above the subtree of height [n]. *)
Definition same_path (n : nat) (xs : list (Hash * Hash)) : Prop :=
  forall x y, x ∈ xs -> y ∈ xs -> is_hash x.1 /\ agree (256 - n) x.1 y.1.

Lemma same_path_filter n xs c :
  (n < 256)%nat -> same_path (S n) xs -> same_path n (filter (fun x => key_bit (256 - S n) x.1 = c) xs).
Proof.
  intros Hn Hp x y Hx Hy. apply list_elem_of_filter in Hx as [Hxc Hx], Hy as [Hyc Hy].
  destruct (Hp x y Hx Hy) as [Hh Hag]. split; [done|]. intros i Hi.
  destruct (decide (i = (256 - S n)%nat)) as [->|]; [by rewrite Hxc, Hyc|]. apply Hag. lia.
Qed.

(** On keys sorted within a subtree, [partition_point] splits by the bit. *)
Lemma partition_by_bit n xs :
  (n < 256)%nat -> same_path (S n) xs -> StronglySorted (key_le fst) xs ->
  let split := partition_point (fun x : Hash * Hash => bit_clear (256 - S n) x.1) xs in
  take split xs = filter (fun x => key_bit (256 - S n) x.1 = false) xs /\
  drop split xs = filter (fun x => key_bit (256 - S n) x.1 = true) xs.
Proof.
  intros Hn Hp Hs. induction Hs as [|x xs Hs IH Hall]; [done|].
  assert (Hp' : same_path (S n) xs) by (intros a b Ha Hb; apply Hp; by right). specialize (IH Hp').
  cbn [partition_point]. rewrite bit_clear_spec. destruct (key_bit (256 - S n) x.1) eqn:E; cbn [negb].
  - cbn [take drop]. rewrite filter_cons_False, filter_cons_True by congruence.
    assert (Hset : forall y, y ∈ xs -> key_bit (256 - S n) y.1 = true).
    { intros y Hy. destruct (key_bit (256 - S n) y.1) eqn:Ey; [done|]. exfalso.
      destruct (Hp x y) as [Hhx Hag]; [by left|by right|]. destruct (Hp y x) as [Hhy _]; [by right|by left|].
      rewrite Forall_forall in Hall. specialize (Hall y Hy). unfold key_le, ord_le in Hall.
      by rewrite (bit_orders_keys (256 - S n) x.1 y.1) in Hall by (done || lia). }
    split.
    + symmetry. apply filter_none. intros y Hy. rewrite Hset by done. done.
    + f_equal. symmetry. by apply filter_all.
  - cbn [take drop]. rewrite filter_cons_True, filter_cons_False by congruence. destruct IH as [IH1 IH2].
    split; [by f_equal|done].
Qed.

Lemma StronglySorted_filter {A} (R : A -> A -> Prop) (P : A -> Prop) `{forall x, Decision (P x)} (l : list A) :
  StronglySorted R l -> StronglySorted R (filter P l).
Proof.
  induction 1 as [|x l Hs IH Hall]; [constructor|]. destruct (decide (P x)).
  - rewrite filter_cons_True by done. constructor; [done|]. rewrite Forall_forall in Hall |- *.
    intros y Hy. apply list_elem_of_filter in Hy as [_ Hy]. by apply Hall.
  - by rewrite filter_cons_False.
Qed.

(** The slice recursion computes the tree. *)
Lemma root_is_smt n xs :
  (n <= 256)%nat -> same_path n xs -> StronglySorted (key_le fst) xs -> root sha256 n xs = smt n xs.
Proof.
  revert xs. induction n as [|n IH]; intros xs Hn Hp Hs; destruct xs as [|x xs]; try done.
  cbn [root smt]. destruct (partition_by_bit n (x :: xs)) as [Ht Hd]; [lia|done..|].
  set (l := x :: xs) in *. rewrite Ht, Hd.
  rewrite !IH; try done; try lia; try (apply same_path_filter; [lia|done]); by apply StronglySorted_filter.
Qed.

(** The tree does not depend on the order of its leaves. *)
Lemma smt_perm n xs ys :
  (n <= 256)%nat -> same_path n xs -> NoDup (fst <$> xs) -> xs ≡ₚ ys -> smt n xs = smt n ys.
Proof.
  revert xs ys. induction n as [|n IH]; intros xs ys Hn Hp Hnd Hperm.
  - assert (xs = ys) as ->; [|done]. destruct xs as [|x [|x' xs]].
    + by apply Permutation_nil_l in Hperm.
    + by apply Permutation_singleton_l in Hperm.
    + exfalso. cbn in Hnd. apply NoDup_cons in Hnd as [Hx _]. apply Hx.
      destruct (Hp x x') as [Hhx Hag]; [by left|by right; left|]. destruct (Hp x' x) as [Hhx' _]; [by right; left|by left|].
      rewrite (agree_all x.1 x'.1) by done. by left.
  - destruct xs as [|x xs], ys as [|y ys]; try done.
    + by apply Permutation_nil_cons in Hperm.
    + symmetry in Hperm. by apply Permutation_nil_cons in Hperm.
    + cbn [smt]. set (l := x :: xs) in *. set (k := y :: ys) in *.
      assert (Hnd' : forall (P : Hash * Hash -> Prop) `{forall z, Decision (P z)}, NoDup (fst <$> filter P l)).
      { intros P ?. eapply sublist_NoDup; [exact Hnd|]. apply fmap_sublist, sublist_filter. }
      f_equal. f_equal; [|f_equal]; apply IH; try lia; try (by apply Hnd');
        try (apply same_path_filter; [lia|done]); by rewrite Hperm.
Qed.

Lemma sorted_windows_NoDup (xs : list (Hash * Hash)) :
  StronglySorted (key_le fst) xs ->
  windows2_any (fun a b => bool_decide (a.1 = b.1)) xs = false <-> NoDup (fst <$> xs).
Proof.
  induction 1 as [|x xs Hs IH Hall]; [split; [constructor|done]|]. destruct xs as [|y xs].
  - split; [|done]. intros _. apply NoDup_singleton.
  - change (windows2_any ?f (x :: y :: xs)) with (f x y || windows2_any f (y :: xs)).
    rewrite orb_false_iff, IH, bool_decide_eq_false. change (fst <$> x :: y :: xs) with (x.1 :: (fst <$> y :: xs)).
    rewrite NoDup_cons. split; intros [Hne Hnd]; (split; [|done]).
    + intros Hin. apply list_elem_of_fmap in Hin as (z & Hz & Hin). apply Hne.
      inversion Hs as [|? ? _ Hall']; subst. rewrite Forall_forall in Hall, Hall'.
      apply elem_of_cons in Hin as [->|Hin]; [done|].
      apply (anti_symm ord_le); [apply (Hall y); by left|]. rewrite Hz. by apply (Hall' z).
    + intros E. apply Hne. rewrite E. by left.
Qed.

(** ** The state root *)

Context (Hsha : forall m, is_hash (sha256 m)).

Definition leaf_pair (p : list Z * list Z) : Hash * Hash :=
  (wire_hash sha256 "state-key" [p.1], wire_hash sha256 "state-leaf" [p.1; p.2]).
Definition within_limits (values : gmap (list Z) (list Z)) : Prop :=
  Z.of_nat (size values) <= 65536 /\ map_Forall (fun k v => zlen k <= 160 /\ zlen v <= 4096) values.

Lemma leaves_ok ps :
  Forall (fun p : list Z * list Z => zlen p.1 <= 160 /\ zlen p.2 <= 4096) ps ->
  try_map (leaf_of sha256) ps = Ok (leaf_pair <$> ps).
Proof.
  intros Hps. apply try_map_Ok. induction Hps as [|[k v] ps [Hk Hv] _ IH]; constructor; [|done].
  unfold leaf_of. cbn in Hk, Hv. rewrite !(proj2 (Z.ltb_ge _ _)) by lia. done.
Qed.

Lemma leaves_limit ps :
  ~ Forall (fun p : list Z * list Z => zlen p.1 <= 160 /\ zlen p.2 <= 4096) ps ->
  try_map (leaf_of sha256) ps = Err Limit.
Proof.
  induction ps as [|[k v] ps IH]; intros Hn; [by destruct Hn|]. cbn [try_map].
  assert (Hleaf : leaf_of sha256 (k, v) =
    if (160 <? zlen k) || (4096 <? zlen v) then Err Limit else Ok (leaf_pair (k, v)))
    by (unfold leaf_of; by destruct (_ || _)).
  rewrite Hleaf. destruct ((160 <? zlen k) || (4096 <? zlen v)) eqn:E; [done|]. bprop.
  cbn [mbind result_bind]. rewrite IH; [done|]. intros Hps. apply Hn. constructor; [cbn; lia|done].
Qed.

Lemma same_path_256 ps : same_path 256 (leaf_pair <$> ps).
Proof.
  intros x y Hx _. apply list_elem_of_fmap in Hx as (p & -> & _). split; [apply Hsha|]. intros i Hi. lia.
Qed.

Lemma limits_iter values :
  map_Forall (fun k v => zlen k <= 160 /\ zlen v <= 4096) values <->
  Forall (fun p : list Z * list Z => zlen p.1 <= 160 /\ zlen p.2 <= 4096) (btree_iter values).
Proof.
  rewrite map_Forall_to_list, btree_iter_perm. split; intros Hf; (eapply Forall_impl; [done|]); by intros [].
Qed.

(** ** Theorems *)

(** C32: the state root is the sparse Merkle root.  Within the size limits the
    function returns the Merkle tree over the hashed keys, defined by key bits
    and independent of any ordering, and reports [KeyCollision] exactly when two
    entries hash to the same key; beyond the limits it returns [Limit]. *)
Theorem state_root_is_sparse_merkle values :
  let leaves := leaf_pair <$> map_to_list values in
  (within_limits values -> NoDup (fst <$> leaves) -> state_root sha256 values = Ok (smt 256 leaves)) /\
  (within_limits values -> ~ NoDup (fst <$> leaves) -> state_root sha256 values = Err KeyCollision) /\
  (~ within_limits values -> state_root sha256 values = Err Limit).
Proof.
  intros leaves. unfold state_root, within_limits. rewrite limits_iter.
  set (sorted := sort_by_key fst (leaf_pair <$> btree_iter values)).
  assert (Hperm : sorted ≡ₚ leaves)
    by (unfold sorted, leaves; by rewrite sort_by_key_perm, btree_iter_perm).
  assert (Hss : StronglySorted (key_le fst) sorted) by (apply StronglySorted_merge_sort; apply _).
  assert (Hpath : same_path 256 sorted) by (intros x y Hx Hy; rewrite Hperm in Hx, Hy; by apply (same_path_256 (map_to_list values))).
  split_and!.
  - intros [Hsz Hl] Hnd. rewrite (proj2 (Z.ltb_ge _ _)) by done. cbn [fail_if mbind result_bind].
    rewrite leaves_ok by done. cbn [mbind result_bind]. fold sorted.
    rewrite (proj2 (sorted_windows_NoDup sorted Hss)) by by rewrite Hperm. cbn [fail_if mbind result_bind].
    rewrite root_is_smt by done. f_equal. apply smt_perm; try done. by rewrite Hperm.
  - intros [Hsz Hl] Hnd. rewrite (proj2 (Z.ltb_ge _ _)) by done. cbn [fail_if mbind result_bind].
    rewrite leaves_ok by done. cbn [mbind result_bind]. fold sorted.
    destruct (windows2_any _ sorted) eqn:E; [done|]. exfalso. apply Hnd. rewrite <- Hperm. by apply sorted_windows_NoDup.
  - intros Hn. destruct (65536 <? Z.of_nat (size values)) eqn:E; [done|]. bprop. cbn [fail_if mbind result_bind].
    rewrite leaves_limit; [done|]. intros Hl. by apply Hn.
Qed.

End merkle.

(** The header codec is exact.  On byte strings, decoding returns a header
    exactly when the bytes are its encoding: encoding then decoding is the
    identity, and no two byte strings decode to the same header. *)
Theorem header_codec_exact b h :
  Forall is_byte b -> decode_header b = Ok h <-> header_typed h /\ encode_header h = b.
Proof.
  intros Hb. split; [by apply encode_decode_header|]. intros [Ht <-]. by apply decode_encode_header.
Qed.

(** The envelope codec is exact.  On byte strings, decoding returns an
    envelope exactly when it is well typed and the bytes are its encoding (so
    its payload rules, nonce and fee bounds hold), every encodable envelope fits
    the size limit, and decoding never panics. *)
Theorem envelope_codec_exact b e :
  Forall is_byte b ->
  (decode_envelope b = Ok e <-> envelope_typed e /\ encode_envelope e = Ok b) /\ decode_envelope b <> Panic.
Proof.
  intros Hb. split; [split|].
  - by apply encode_decode_envelope.
  - intros [Ht He]. by apply decode_encode_envelope.
  - by apply decode_envelope_no_panic.
Qed.

(** ** The wire contract on concrete values

    A header, an envelope and a two-entry state to which the theorems above are applied. *)

Module WireWitness.

Definition fill (n : Z) : Hash := replicate 32 n.

Definition demo_header : Header :=
  mkHeader (fill 1) (fill 2) (fill 3) 1 1800000010 (fill 15) (fill 4) (fill 5) (fill 6) (fill 7) (fill 8) 0.

(** A contribution release (tag 8) with two strictly sorted entries. *)
Definition demo_envelope : Envelope :=
  mkEnvelope (fill 1) (fill 2) 1 10 10000 8
    (replicate 144 0 ++ [2] ++ replicate 40 0 ++ 1 :: replicate 39 0) (replicate 64 3).

Definition demo_envelope_bytes : list Z :=
  match encode_envelope demo_envelope with Ok b => b | _ => [] end.

Definition is_byteb (z : Z) : bool := (0 <=? z) && (z <=? u8_max).

Lemma bytes_check l : forallb is_byteb l = true -> Forall is_byte l.
Proof.
  intros H. apply Forall_forall. intros x Hx. rewrite forallb_forall in H.
  specialize (H x (proj1 (list_elem_of_In l x) Hx)). unfold is_byteb in H. unfold is_byte. bprop. lia.
Qed.

Lemma header_codec_exact_witness :
  Forall is_byte (encode_header demo_header) /\
  (decode_header (encode_header demo_header) = Ok demo_header <->
   header_typed demo_header /\ encode_header demo_header = encode_header demo_header).
Proof.
  assert (Hb : Forall is_byte (encode_header demo_header)) by (apply bytes_check; vm_compute; reflexivity).
  split; [exact Hb|]. exact (header_codec_exact (encode_header demo_header) demo_header Hb).
Defined.

Lemma envelope_codec_exact_witness :
  zlen demo_envelope_bytes = 384 /\
  (decode_envelope demo_envelope_bytes = Ok demo_envelope <->
   envelope_typed demo_envelope /\ encode_envelope demo_envelope = Ok demo_envelope_bytes) /\
  decode_envelope demo_envelope_bytes <> Panic.
Proof.
  split; [vm_compute; reflexivity|].
  apply (envelope_codec_exact demo_envelope_bytes demo_envelope). apply bytes_check. vm_compute. reflexivity.
Defined.

(** Both codecs accept what they should on these values. *)
Example demo_codecs :
  decode_header (encode_header demo_header) = Ok demo_header /\
  decode_envelope demo_envelope_bytes = Ok demo_envelope /\
  decode_envelope (take 383 demo_envelope_bytes) = Err Length.
Proof. vm_compute. done. Qed.

(** A stand-in for the hash: the last 32 bytes of the message, padded. *)
Definition demo_hash (m : list Z) : Hash := take 32 (((fun z => z `mod` 256) <$> reverse m) ++ replicate 32 0).

Lemma demo_hash_ok m : is_hash (demo_hash m).
Proof.
  split.
  - unfold demo_hash, zlen. rewrite length_take, length_app, length_replicate. lia.
  - unfold demo_hash. apply Forall_take, Forall_app. split.
    + apply Forall_forall. intros x Hx. apply list_elem_of_fmap in Hx as (z & -> & _).
      unfold is_byte, u8_max. pose proof (Z.mod_pos_bound z 256). lia.
    + apply Forall_replicate. unfold is_byte, u8_max. lia.
Qed.

Definition demo_values : gmap (list Z) (list Z) := {[ [97] := [49]; [98] := [50] ]}.

Lemma state_root_is_sparse_merkle_witness :
  within_limits demo_values /\ NoDup (fst <$> (leaf_pair demo_hash <$> map_to_list demo_values)) /\
  state_root demo_hash demo_values = Ok (smt demo_hash 256 (leaf_pair demo_hash <$> map_to_list demo_values)).
Proof.
  assert (Hl : within_limits demo_values).
  { split; [vm_compute; discriminate|]. apply map_Forall_insert_2; [|apply map_Forall_singleton];
      split; vm_compute; discriminate. }
  assert (Hnd : NoDup (fst <$> (leaf_pair demo_hash <$> map_to_list demo_values))).
  { apply (bool_decide_unpack (NoDup (fst <$> (leaf_pair demo_hash <$> map_to_list demo_values)))).
    vm_compute. exact I. }
  split; [exact Hl|]. split; [exact Hnd|].
  apply (proj1 (state_root_is_sparse_merkle demo_hash demo_hash_ok demo_values)); [exact Hl|exact Hnd].
Defined.

End WireWitness.
