(* ===== verification/Crypto.v ===== *)
(** * Crypto: hashes and strict signatures of [trnm-crypto-primitives]

    [lib.rs]: domain-separated hashing, canonical hexadecimal decoding, the
    canonical-point check and strict Ed25519 verification.  The crates [sha2],
    [hex] and [ed25519-dalek] are the class [CryptoCrates]; [HexLaws] states the
    documented behaviour of [hex] that the text-canonicity theorem relies on.
    Strings are their UTF-8 bytes. *)

From stdpp Require Import base gmap list sorting strings.
From S2P Require Import Prelude.

Abbreviation bstring := (list Z).
Abbreviation Hash32 := (list Z).
(** [anyhow] errors, by message. *)
Abbreviation AResult := (result bstring).

Class CryptoCrates := {
  sha256 : list Z -> Hash32;
  hex_encode : list Z -> bstring;
  hex_decode : bstring -> option (list Z);
  (** [hex::decode_to_slice] into a buffer of the given length. *)
  hex_decode_to_slice : bstring -> Z -> option (list Z);
  VerifyingKey : Type;
  vk_from_bytes : Hash32 -> option VerifyingKey;
  vk_to_bytes : VerifyingKey -> Hash32;
  verify_strict : VerifyingKey -> list Z -> list Z -> bool;
  SigningKey : Type;
  sk_from_bytes : Hash32 -> SigningKey;
  sk_verifying_key : SigningKey -> VerifyingKey;
  sk_sign : SigningKey -> list Z -> list Z;
}.

Definition is_ascii_uppercase (b : Z) : bool := (65 <=? b) && (b <=? 90).

(** What the documentation of [hex] says: two digits a byte, both cases decode,
    encoding is lowercase, and the slice decoder differs in its length check. *)
Class HexLaws `{CryptoCrates} := {
  hex_decode_length s b : hex_decode s = Some b -> zlen s = 2 * zlen b;
  hex_decode_slice s n : hex_decode_to_slice s n = if zlen s =? 2 * n then hex_decode s else None;
  hex_encode_decode s b : hex_decode s = Some b -> hex_encode b = s <-> existsb is_ascii_uppercase s = false;
}.

Section crypto.
Context `{CryptoCrates}.

Definition put_len_prefixed (value : list Z) : list Z := be_bytes 8 (zlen value) ++ value.

Definition hash_domain (domain : bstring) (parts : list (list Z)) : Hash32 :=
  sha256 (str "trnm.domain.hash.v1" ++ put_len_prefixed domain ++ mjoin (put_len_prefixed <$> parts)).

Definition put_bytes (out value : list Z) : list Z := out ++ be_bytes 8 (zlen value) ++ value.
Definition put_str (out : list Z) (value : bstring) : list Z := put_bytes out value.
Definition put_u64 (out : list Z) (value : Z) : list Z := out ++ be_bytes 8 value.

Definition decode_hash32 (label value : bstring) : AResult Hash32 :=
  if zlen value =? 64 then
    out ← ok_or (hex_decode_to_slice value 32) (label ++ str " must be lowercase hex");
    _ ← fail_if (existsb is_ascii_uppercase value) (label ++ str " must use canonical lowercase hex");
    Ok out
  else
    bytes ← ok_or (hex_decode value) (label ++ str " must be lowercase hex");
    _ ← fail_if (negb (zlen bytes =? 32)) (label ++ str " must encode exactly 32 bytes");
    _ ← fail_if (hex_encode bytes <>? value) (label ++ str " must use canonical lowercase hex");
    Ok bytes.

(** [a.iter().rev().cmp(b.iter().rev()).is_ge()] *)
Definition rev_is_ge (a b : list Z) : bool := negb (ord_ltb (reverse a) (reverse b)).

Definition canonical_ed25519_point (bytes : list Z) : bool :=
  let sign := Z.shiftr (default 0 (bytes !! 31%nat)) 7 in
  let y := alter (fun b => Z.land b 127) 31%nat bytes in
  let p := <[31%nat := 127]> (<[0%nat := 237]> (replicate 32 255)) in
  if rev_is_ge y p then false
  else
    let one := <[0%nat := 1]> (replicate 32 0) in
    let minus_one := alter (fun b => b - 1) 0%nat p in
    negb ((sign =? 1) && ((y =?? one) || (y =?? minus_one))).

Definition decode_signature (label value : bstring) : AResult (list Z) :=
  bytes ← ok_or (hex_decode value) (label ++ str " must be lowercase hex");
  _ ← fail_if (negb (zlen bytes =? 64)) (label ++ str " must encode exactly 64 bytes");
  _ ← fail_if (hex_encode bytes <>? value) (label ++ str " must use canonical lowercase hex");
  _ ← fail_if (negb (canonical_ed25519_point (take 32 bytes))) (str "signature R is not canonical");
  Ok bytes.

Definition verifying_key_from_hex (value : bstring) : AResult VerifyingKey :=
  bytes ← decode_hash32 (str "public_key_hex") value;
  _ ← fail_if (negb (canonical_ed25519_point bytes)) (str "public key is not canonical");
  ok_or (vk_from_bytes bytes) (str "public_key_hex is not a valid Ed25519 key").

Definition signing_key_from_hex (value : bstring) : AResult SigningKey :=
  bytes ← decode_hash32 (str "private_key_hex") value;
  Ok (sk_from_bytes bytes).

Definition public_key_hex (k : SigningKey) : bstring := hex_encode (vk_to_bytes (sk_verifying_key k)).
Definition sign_hex (k : SigningKey) (message : list Z) : bstring := hex_encode (sk_sign k message).

Definition verify_hex (public_key : bstring) (message : list Z) (signature_hex : bstring) : AResult () :=
  key ← verifying_key_from_hex public_key;
  signature ← decode_signature (str "signature_hex") signature_hex;
  fail_if (negb (verify_strict key message signature)) (str "Ed25519 signature verification failed").

Definition verify_hex_strict (public_key : bstring) (message : list Z) (signature_hex : bstring) : AResult () :=
  key ← verifying_key_from_hex public_key;
  signature ← decode_signature (str "signature_hex") signature_hex;
  fail_if (negb (verify_strict key message signature)) (str "strict Ed25519 signature verification failed").

End crypto.
