(* ===== verification/CryptoTheorems.v ===== *)
(** * CryptoTheorems: canonical text and canonical points

    The fixed-width hash decoder agrees with the general one it replaces, and
    the canonical-point check is the arithmetic condition of RFC 8032 on the
    little-endian coordinate. *)

From stdpp Require Import base gmap list sorting strings.
From S2P Require Import Prelude Crypto.

(** The decoder without the fixed-width path. *)
Definition reference_decode_hash32 `{CryptoCrates} (label value : bstring) : AResult Hash32 :=
  bytes ← ok_or (hex_decode value) (label ++ str " must be lowercase hex");
  _ ← fail_if (negb (zlen bytes =? 32)) (label ++ str " must encode exactly 32 bytes");
  _ ← fail_if (hex_encode bytes <>? value) (label ++ str " must use canonical lowercase hex");
  Ok bytes.

(** The curve's field prime. *)
Definition ed25519_p : Z := 2 ^ 255 - 19.

(** ** Little-endian byte strings as numbers *)

Lemma of_le_bytes_snoc l b : of_le_bytes (l ++ [b]) = of_le_bytes l + 256 ^ Z.of_nat (length l) * b.
Proof.
  induction l as [|a l IH]; [cbn; lia|]. cbn [app of_le_bytes length]. rewrite IH, Nat2Z.inj_succ, Z.pow_succ_r by lia. lia.
Qed.

Lemma of_le_bytes_inj a b :
  length a = length b -> Forall is_byte a -> Forall is_byte b -> of_le_bytes a = of_le_bytes b -> a = b.
Proof.
  intros Hl Ha Hb E. rewrite <- (le_bytes_of_le_bytes a), <- (le_bytes_of_le_bytes b) by done. by rewrite Hl, E.
Qed.

(** Comparing the reversed bytes compares the numbers. *)
Lemma reversed_order a b :
  length a = length b -> Forall is_byte a -> Forall is_byte b ->
  cmp (reverse a) (reverse b) = (of_le_bytes a ?= of_le_bytes b)%Z.
Proof.
  revert b. induction a as [|x a IH] using rev_ind; intros b Hl Ha Hb.
  - by destruct b.
  - destruct b as [|y b _] using rev_ind; [rewrite length_app in Hl; cbn in Hl; lia|].
    rewrite !length_app in Hl. cbn in Hl. apply Forall_app in Ha as [Ha _], Hb as [Hb _].
    rewrite !reverse_snoc, !of_le_bytes_snoc.
    change (match cmp x y with Eq => cmp (reverse a) (reverse b) | c => c end =
            (of_le_bytes a + 256 ^ Z.of_nat (length a) * x ?= of_le_bytes b + 256 ^ Z.of_nat (length b) * y)).
    assert (length a = length b) as Hlen by lia. rewrite IH, Hlen by done.
    pose proof (of_le_bytes_bound a Ha) as Ba. pose proof (of_le_bytes_bound b Hb) as Bb. rewrite Hlen in Ba.
    set (m := 256 ^ Z.of_nat (length b)) in *. change (cmp x y) with (x ?= y). symmetry.
    destruct (Z.compare_spec x y) as [->|Hlt|Hgt].
    + destruct (Z.compare_spec (of_le_bytes a) (of_le_bytes b)); [apply Z.compare_eq_iff|apply Z.compare_lt_iff|apply Z.compare_gt_iff]; lia.
    + apply Z.compare_lt_iff. nia.
    + apply Z.compare_gt_iff. nia.
Qed.

Lemma rev_is_ge_spec a b :
  length a = length b -> Forall is_byte a -> Forall is_byte b ->
  rev_is_ge a b = (of_le_bytes b <=? of_le_bytes a).
Proof.
  intros Hl Ha Hb. unfold rev_is_ge, ord_ltb. rewrite reversed_order by done.
  destruct (Z.compare_spec (of_le_bytes a) (of_le_bytes b)); cbn; symmetry; [apply Z.leb_le|apply Z.leb_gt|apply Z.leb_le]; lia.
Qed.

Lemma bytes_eq_number a b :
  length a = length b -> Forall is_byte a -> Forall is_byte b -> bool_decide (a = b) = (of_le_bytes a =? of_le_bytes b).
Proof.
  intros Hl Ha Hb. destruct (of_le_bytes a =? of_le_bytes b) eqn:E; bprop.
  - apply bool_decide_eq_true. by apply of_le_bytes_inj.
  - apply bool_decide_eq_false. by intros ->.
Qed.

(** The bytes of a point split into the coordinate and the sign bit. *)
Lemma point_parts bytes :
  zlen bytes = 32 -> Forall is_byte bytes ->
  let y := alter (fun b => Z.land b 127) 31%nat bytes in
  length y = 32%nat /\ Forall is_byte y /\
  of_le_bytes y = of_le_bytes bytes mod 2 ^ 255 /\
  Z.shiftr (default 0 (bytes !! 31%nat)) 7 = of_le_bytes bytes / 2 ^ 255.
Proof.
  intros Hlen Hb. destruct bytes as [|t l _] using rev_ind; [done|].
  assert (Hl : length l = 31%nat) by (unfold zlen in Hlen; rewrite length_app in Hlen; cbn in Hlen; lia).
  apply Forall_app in Hb as [Hb Ht]. apply Forall_cons in Ht as [Ht _].
  assert (Halt : alter (fun b => Z.land b 127) 31%nat (l ++ [t]) = l ++ [Z.land t 127])
    by (rewrite alter_app_r_alt by lia; by replace (31 - length l)%nat with O by lia).
  assert (Hat : (l ++ [t]) !! 31%nat = Some t) by (rewrite lookup_app_r by lia; by replace (31 - length l)%nat with O by lia).
  rewrite Halt, Hat. cbn zeta. change 127 with (Z.ones 7). rewrite Z.land_ones by lia.
  unfold is_byte, u8_max in Ht. pose proof (Z.mod_pos_bound t (2 ^ 7)).
  pose proof (of_le_bytes_bound l Hb) as Bl. rewrite Hl in Bl. change (256 ^ Z.of_nat 31) with (2 ^ 248) in Bl.
  rewrite !of_le_bytes_snoc, Hl. change (256 ^ Z.of_nat 31) with (2 ^ 248).
  assert (Hdiv : t = 128 * (t / 128) + t mod 128) by (apply Z.div_mod; lia).
  change (2 ^ 7) with 128 in *. change (2 ^ 255) with (128 * 2 ^ 248).
  assert (Hm := Z.mod_pos_bound t 128 ltac:(lia)). split_and!.
  - rewrite length_app, Hl. done.
  - apply Forall_app. split; [done|]. constructor; [|done]. unfold is_byte, u8_max. lia.
  - apply (Z.mod_unique_pos _ _ (t / 128)); nia.
  - rewrite Z.shiftr_div_pow2 by lia. change (2 ^ 7) with 128.
    apply (Z.div_unique_pos _ _ _ (of_le_bytes l + 2 ^ 248 * (t mod 128))); [nia|].
    cbn [default from_option id]. nia.
Qed.

(** ** Theorems *)

(** hash text is canonical.  For any input and label, the fixed-width path
    of [decode_hash32] gives the result or the error message of the general
    decoder, and it accepts exactly the lowercase encodings of 32 bytes. *)
Theorem hash_text_canonical `{HexLaws} label value h :
  decode_hash32 label value = reference_decode_hash32 label value /\
  (decode_hash32 label value = Ok h <->
   hex_decode value = Some h /\ zlen h = 32 /\ hex_encode h = value).
Proof.
  assert (E : decode_hash32 label value = reference_decode_hash32 label value).
  { unfold decode_hash32, reference_decode_hash32. destruct (zlen value =? 64) eqn:E64; [|done]. bprop.
    rewrite hex_decode_slice, (proj2 (Z.eqb_eq _ _)) by lia. apply bind_ext. intros b Hb. apply ok_or_Ok in Hb.
    rewrite (proj2 (Z.eqb_eq (zlen b) 32)) by (apply hex_decode_length in Hb; lia). cbn [negb fail_if mbind result_bind].
    destruct (existsb is_ascii_uppercase value) eqn:Eu.
    - rewrite bool_decide_eq_false_2; [done|]. intros Hv. apply (hex_encode_decode _ _ Hb) in Hv. congruence.
    - rewrite bool_decide_eq_true_2; [done|]. by apply (hex_encode_decode _ _ Hb). }
  split; [done|]. rewrite E. unfold reference_decode_hash32. split.
  - intros Hr. rinv. bprop. subst. done.
  - intros (Hd & Hl & He). rewrite Hd. cbn. rewrite (proj2 (Z.eqb_eq _ _)) by done. by rewrite He, bool_decide_eq_true_2.
Qed.

(** C38: the point check is RFC 8032's.  On 32 bytes, read little-endian with the
    top bit as the sign of x, the check accepts exactly the coordinates below
    the field prime, except a set sign on the two points with x = 0. *)
Theorem canonical_point_exact bytes :
  zlen bytes = 32 -> Forall is_byte bytes ->
  let y := of_le_bytes bytes mod 2 ^ 255 in
  let sign := of_le_bytes bytes / 2 ^ 255 in
  canonical_ed25519_point bytes = true <->
  y < ed25519_p /\ ~ (sign = 1 /\ (y = 1 \/ y = ed25519_p - 1)).
Proof.
  intros Hl Hb y sign. destruct (point_parts bytes Hl Hb) as (Hly & Hby & Ey & Es).
  unfold canonical_ed25519_point. rewrite Es. set (yb := alter _ _ bytes) in *. fold y in Ey. fold sign.
  assert (Hbyte : forall l : list Z, forallb (fun b => (0 <=? b) && (b <=? 255)) l = true -> Forall is_byte l).
  { intros l Hf. apply Forall_forall. intros x Hx. rewrite forallb_forall in Hf.
    specialize (Hf x (proj1 (list_elem_of_In l x) Hx)). unfold is_byte, u8_max. bprop. lia. }
  rewrite rev_is_ge_spec, !bytes_eq_number by (done || (apply Hbyte; reflexivity)). rewrite Ey.
  change (of_le_bytes (<[31%nat:=127]> (<[0%nat:=237]> (replicate 32 255)))) with ed25519_p.
  change (of_le_bytes (<[0%nat:=1]> (replicate 32 0))) with 1.
  change (of_le_bytes (alter (fun b => b - 1) 0%nat (<[31%nat:=127]> (<[0%nat:=237]> (replicate 32 255))))) with (ed25519_p - 1).
  destruct (ed25519_p <=? y) eqn:Ep; bprop; [split; [done|lia]|].
  destruct (sign =? 1) eqn:E1, (y =? 1) eqn:E2, (y =? ed25519_p - 1) eqn:E3; bprop; cbn; split; try done; lia.
Qed.
