(* ===== verification/PonState.v ===== *)
(** * PonState: JSON values and the tracked view of the PoN executor

    [serde_json::Value] with the operations [pon_executor.rs] uses, the ledger
    state, and the recording [View] with its [Patch]: every key read and prefix
    scan of a transaction is logged together with what was observed.  An object
    is the list of its entries in key order (a [BTreeMap]); strings are their
    UTF-8 bytes. *)

From stdpp Require Import base gmap list sorting strings.
From S2P Require Import Prelude Crypto.

(** ** JSON values *)

(** A float is kept by its bits: [0.0] and [-0.0], which [f64] identifies, are distinct. *)
Inductive Number := PosInt (z : Z) | NegInt (z : Z) | Float (bits : Z).
#[export] Instance Number_eq_dec : EqDecision Number.
Proof. solve_decision. Defined.

#[warnings="-register-all"]
Inductive Value :=
| Null
| Bool (b : bool)
| Num (n : Number)
| Str (s : bstring)
| Array (xs : list Value)
| Object (m : list (bstring * Value)).

#[export] Instance Value_eq_dec : EqDecision Value.
Proof.
  refine (fix go v w := let _ : EqDecision Value := @go in
    match v, w with
    | Null, Null => left _
    | Bool b, Bool b' => cast_if (decide (b = b'))
    | Num n, Num n' => cast_if (decide (n = n'))
    | Str s, Str s' => cast_if (decide (s = s'))
    | Array xs, Array ys => cast_if (decide (xs = ys))
    | Object m, Object m' => cast_if (decide (m = m'))
    | _, _ => right _
    end); abstract congruence.
Defined.

Definition as_u64 (v : Value) : option Z := match v with Num (PosInt z) => Some z | _ => None end.
Definition i64_max : Z := 9223372036854775807.
(** [v == n] for an integer literal compares [as_i64]. *)
Definition eq_i64 (v : Value) (n : Z) : bool :=
  match v with
  | Num (PosInt z) => (z <=? i64_max) && (z =? n)
  | Num (NegInt z) => z =? n
  | _ => false
  end.
Definition as_str (v : Value) : option bstring := match v with Str s => Some s | _ => None end.
Definition as_object (v : Value) : option (list (bstring * Value)) := match v with Object m => Some m | _ => None end.

Fixpoint obj_get (k : bstring) (m : list (bstring * Value)) : option Value :=
  match m with
  | [] => None
  | (k', v) :: m => if decide (k = k') then Some v else obj_get k m
  end.
(** Insertion in key order. *)
Fixpoint obj_insert (k : bstring) (v : Value) (m : list (bstring * Value)) : list (bstring * Value) :=
  match m with
  | [] => [(k, v)]
  | (k', v') :: m' =>
      if decide (k = k') then (k, v) :: m'
      else if ord_ltb k k' then (k, v) :: m else (k', v') :: obj_insert k v m'
  end.

(** [v.get(k)] *)
Definition get_field (v : Value) (k : bstring) : option Value :=
  match v with Object m => obj_get k m | _ => None end.
(** [v[k]] as a value: [Null] when absent. *)
Definition index (v : Value) (k : bstring) : Value := default Null (get_field v k).
(** [v[k] = x]: [Null] becomes an object, any other non-object panics. *)
Definition set_index {E} (v : Value) (k : bstring) (x : Value) : result E Value :=
  match v with
  | Object m => Ok (Object (obj_insert k x m))
  | Null => Ok (Object [(k, x)])
  | _ => Panic
  end.

(** [json!(n)] and [json!({..})] *)
Definition json_u64 (n : Z) : Value := Num (PosInt n).
Definition json_object (fields : list (string * Value)) : Value :=
  Object (foldl (fun m '(k, v) => obj_insert (str k) v m) [] fields).

(** ** Helpers of the executor *)

(** [Result<T>] with [&'static str] errors. *)
Abbreviation PonResult := (result string).
Abbreviation Hash := (list Z).
Abbreviation State := (gmap (list Z) Value).

Definition ZERO : Hash := replicate 32 0.
Definition require (ok : bool) (error : string) : PonResult () := if ok then Ok tt else Err error.
Definition num (v : Value) : PonResult Z := ok_or (as_u64 v) "RANGE"%string.
Definition field (v : Value) (k : string) : PonResult Z :=
  x ← ok_or (get_field v (str k)) "STATE"%string; num x.
Definition text (v : Value) (k : string) : PonResult bstring :=
  ok_or (x ← get_field v (str k); as_str x) "STATE"%string.
Definition add (a b : Z) : PonResult Z := ok_or (checked_add u64_max a b) "RANGE"%string.
(** [v.get(k).map(num).transpose()?.unwrap_or(d)] *)
Definition field_or (v : Value) (k : string) (d : Z) : PonResult Z :=
  match get_field v (str k) with Some x => num x | None => Ok d end.
(** [s.starts_with(p)] *)
Definition starts_with (s p : bstring) : bool := bool_decide (p `prefix_of` s).
(** Short-circuiting [a && b] whose operands may return early. *)
Definition and_then (a b : PonResult bool) : PonResult bool :=
  a ≫= fun x : bool => if x then b else Ok false.

Record Config := mkConfig {
  network : Hash;
  parameters : Hash;
  family : Hash;
  plan : Hash;
  evaluators : gset (list Z);
  fees : list Z;
  params : Value;
}.
Definition limit (cfg : Config) (name : string) : PonResult Z := field (params cfg) name.

(** ** The tracked view *)

Record View := mkView {
  base : State;
  writes : State;
  reads : gmap (list Z) (option Value);
  scans : gmap (list Z) State;
}.
Definition View_new (b : State) : View := mkView b ∅ ∅ ∅.

Record Payload := mkPayload { p_bytes : list Z; p_pos : Z }.

Record Patch := mkPatch {
  pa_writes : State;
  pa_reads : gmap (list Z) (option Value);
  pa_scans : gmap (list Z) State;
  pa_fee : Z;
  pa_receipt : list Z;
}.

(** The locals of one transaction: its view and its payload cursor.  An error
    drops both. *)
Record TxState := mkTxState { t_view : View; t_payload : Payload }.
Definition Tx (A : Type) : Type := TxState -> PonResult (A * TxState).
#[export] Instance Tx_ret : MRet Tx := fun A a s => Ok (a, s).
#[export] Instance Tx_bind : MBind Tx := fun A B f m s => r ← m s; f (fst r) (snd r).
Definition liftr {A} (r : PonResult A) : Tx A := fun s => a ← r; Ok (a, s).
Definition on_view {A} (f : View -> A * View) : Tx A := fun s =>
  let '(a, v) := f (t_view s) in Ok (a, mkTxState v (t_payload s)).

(** [entry(key).or_insert_with(|| base.get(key).cloned())] on the read log. *)
Definition log_read (v : View) (key : bstring) : gmap (list Z) (option Value) :=
  match reads v !! key with Some _ => reads v | None => <[key := base v !! key]> (reads v) end.

Definition current (v : View) (key : bstring) : option Value :=
  match writes v !! key with Some x => Some x | None => base v !! key end.

Definition get (key : bstring) : Tx (option Value) := on_view (fun v =>
  (current v key, mkView (base v) (writes v) (log_read v key) (scans v))).

Definition put (key : bstring) (value : Value) : Tx () := on_view (fun v =>
  (tt, mkView (base v) (<[key := value]> (writes v)) (log_read v key) (scans v))).

Definition with_prefix (prefix : bstring) (m : State) : State :=
  filter (fun p => starts_with p.1 prefix = true) m.

Definition log_scan (v : View) (prefix : bstring) : gmap (list Z) State :=
  match scans v !! prefix with
  | Some _ => scans v
  | None => <[prefix := with_prefix prefix (base v)]> (scans v)
  end.

Definition scan (prefix : bstring) : Tx State := on_view (fun v =>
  let s := log_scan v prefix in
  (with_prefix prefix (writes v) ∪ default ∅ (s !! prefix), mkView (base v) (writes v) (reads v) s)).

Definition account_key (who : bstring) : bstring := str "account:" ++ who.
Definition empty_account : Value := json_object [("balance", json_u64 0); ("nonce", json_u64 0)]%string.

Definition account (who : bstring) : Tx Value :=
  a ← get (account_key who); mret (default empty_account a).

Definition credit (who : bstring) (amount : Z) : Tx () :=
  a ← account who;
  b ← liftr (field a "balance");
  b ← liftr (add b amount);
  a ← liftr (set_index a (str "balance") (json_u64 b));
  put (account_key who) a.

Definition debit (who : bstring) (amount : Z) : Tx () :=
  a ← account who;
  b ← liftr (field a "balance");
  _ ← liftr (require ((0 <? amount) && (amount <=? b)) "FUNDS");
  a ← liftr (set_index a (str "balance") (json_u64 (b - amount)));
  put (account_key who) a.

Definition object `{CryptoCrates} (prefix : string) (id : Hash) : Tx (bstring * Value) :=
  let k := str prefix ++ hex_encode id in
  v ← get k;
  v ← liftr (ok_or v "STATE"%string);
  mret (k, v).

(** One entry of the capacity scan: pending obligations and those due at [d]. *)
Definition count_pending (d : Z) (acc : Z * Z) (v : Value) : PonResult (Z * Z) :=
  let '(pending, due) := acc in
  remaining ← field v "remaining";
  if 0 <? remaining
  then deadline ← field v "deadline"; Ok (pending + 1, if deadline =? d then due + 1 else due)
  else Ok (pending, due).

Definition deadline_with_lifetime (cfg : Config) (d height lifetime : Z) : Tx () :=
  _ ← liftr (ok ← and_then (Ok (height <? d)) (last ← add height lifetime; Ok (d <=? last)); require ok "EXPIRED");
  tasks ← scan (str "task:");
  quotas ← scan (str "quota:");
  releases ← scan (str "release:");
  let all := releases ∪ (quotas ∪ tasks) in
  '(pending, due) ← liftr (try_fold (count_pending d) (0, 0) (btree_values all));
  liftr (ok ← and_then (max ← limit cfg "max_pending_tasks"; Ok (pending <? max))
                       (max ← limit cfg "mandatory_expiry_per_block"; Ok (due <? max));
         require ok "LIMIT").

Definition deadline (cfg : Config) (d height : Z) : Tx () :=
  lifetime ← liftr (limit cfg "max_task_lifetime_blocks");
  deadline_with_lifetime cfg d height lifetime.

(** [Patch::current]: what was observed is still there. *)
Definition patch_current (p : Patch) (state : State) : bool :=
  forallb (fun '(k, v) => state !! k =?? v) (btree_iter (pa_reads p))
  && forallb (fun '(prefix, old) => with_prefix prefix state =?? old) (btree_iter (pa_scans p)).
Definition patch_apply (p : Patch) (state : State) : State := pa_writes p ∪ state.

(** ** The payload cursor *)

Definition take_n (n : Z) : Tx (list Z) := fun s =>
  let p := t_payload s in
  end_ ← ok_or (checked_add u64_max (p_pos p) n) "LENGTH"%string;
  out ← ok_or (if end_ <=? zlen (p_bytes p) then Some (take (Z.to_nat n) (drop (Z.to_nat (p_pos p)) (p_bytes p))) else None)
          "LENGTH"%string;
  Ok (out, mkTxState (t_view s) (mkPayload (p_bytes p) end_)).
(** [n()], [h()] and [byte()] of the payload. *)
Definition read_u64 : Tx Z := b ← take_n 8; mret (of_le_bytes b).
Definition read_hash : Tx Hash := take_n 32.
Definition read_byte : Tx Z := b ← take_n 1; liftr (expect (head b)).
