(* ===== verification/PonExecutor.v ===== *)
(** * PonExecutor: the twelve ledger commands and block execution

    [pon_executor.rs] of [trnm-mvcc-fee] over [PonState]: envelope preparation,
    one definition per command, the mandatory expiries of a block, speculation by
    a bounded worker pool and the canonical commit loop.  [serde_json::to_vec]
    is a parameter, as is whether the operating system starts a worker thread;
    the elapsed-time metrics are left out. *)

From stdpp Require Import base gmap list sorting strings.
From S2P Require Import Prelude Crypto Wire PonState.

Class SerdeJson := to_vec : Value -> option (list Z).

Section executor.
Context `{CryptoCrates} `{SerdeJson}.

Abbreviation hash := (wire_hash sha256).
Abbreviation u64le := (le_bytes 8).

Definition is_lower_hex (b : Z) : bool := ((48 <=? b) && (b <=? 57)) || ((97 <=? b) && (b <=? 102)).

Definition hash32 (s : bstring) : PonResult Hash :=
  _ ← require ((zlen s =? 64) && forallb is_lower_hex s) "NONCANONICAL";
  ok_or (hex_decode_to_slice s 32) "NONCANONICAL"%string.

Definition is_ascii (s : bstring) : bool := forallb (fun b => b <? 128) s.

Fixpoint visit (v : Value) : PonResult () :=
  match v with
  | Null | Bool _ => Ok tt
  | Num n => require (match n with Float _ => false | _ => true end) "RANGE"
  | Str s => require (is_ascii s) "NONCANONICAL"
  | Array xs =>
      (fix go xs := match xs with [] => Ok tt | x :: xs => _ ← visit x; go xs end) xs
  | Object m =>
      (fix go m := match m with
                   | [] => Ok tt
                   | (k, v) :: m => _ ← require (is_ascii k) "NONCANONICAL"; _ ← visit v; go m
                   end) m
  end.

Definition canonical (v : Value) : PonResult (list Z) :=
  _ ← visit v; ok_or (to_vec v) "NONCANONICAL"%string.

Definition pon_root (state : State) : PonResult Hash :=
  bytes ← try_fold (fun bytes '(k, v) => c ← canonical v; Ok (<[k := c]> bytes)) ∅ (btree_iter state);
  map_err (fun _ => "LIMIT"%string) (Wire.state_root sha256 bytes).

(** ** Allocation trees *)

Definition allocation_leaf (cid payee : Hash) (score : Z) : Hash :=
  hash "allocation-leaf" [cid; payee; u64le score].

Definition pair_hash (a b : Hash) : Hash :=
  if ord_ltb a b then hash "allocation-node" [a; b] else hash "allocation-node" [b; a].

(** [leaves.chunks_exact(2).map(|x| pair(x[0], x[1]))] *)
Fixpoint pair_up (leaves : list Hash) : list Hash :=
  match leaves with
  | a :: b :: rest => pair_hash a b :: pair_up rest
  | _ => []
  end.

(** An odd number of leaves is padded with its last one. *)
Definition pad_even (leaves : list Hash) : list Hash :=
  if Nat.even (length leaves) then leaves else leaves ++ option_list (last leaves).

Fixpoint reduce_leaves (fuel : nat) (leaves : list Hash) : list Hash :=
  match fuel with
  | O => leaves
  | S fuel => if Nat.ltb 1 (length leaves) then reduce_leaves fuel (pair_up (pad_even leaves)) else leaves
  end.

(** The loop at least halves a list of two or more, so its length is enough fuel. *)
Definition allocation_root (leaves : list Hash) : PonResult Hash :=
  _ ← require (negb (is_empty leaves)) "ROOT";
  expect (head (reduce_leaves (length leaves) leaves)).

(** [64 - n.leading_zeros()] *)
Definition bit_length (n : Z) : Z := if n =? 0 then 0 else Z.log2 n + 1.

Definition active_candidate (v : Value) (cur : bstring) (height : Z) (cfg : Config) : PonResult bool :=
  status ← text v "status";
  submitted ← field_or v "submitted_height" height;
  and_then (parent ← text v "parent"; Ok (parent =?? cur))
  (and_then (r ← field_or v "submission_round" 0;
             blocks ← limit cfg "candidate_round_blocks";
             now ← u_div height blocks; Ok (r =? now))
  (and_then (Ok ((status =?? str "submitted") || (status =?? str "evaluated")))
  (and_then (if status <>? str "evaluated" then Ok true else score ← field v "score"; Ok (0 <? score))
            (lifetime ← limit cfg "candidate_lifetime_blocks";
             last ← add submitted lifetime; Ok (height <=? last))))).

(** ** Preparing an envelope *)

Record Prepared := mkPrepared { pr_envelope : Envelope; pr_sender : bstring; pr_encoded_len : Z }.

(** The outcome, and whether the signature counter was incremented. *)
Definition prepare (raw : list Z) (height : Z) (cfg : Config) : PonResult Prepared * Z :=
  match (tx ← map_err (fun _ => "ENCODING"%string) (decode_envelope raw);
         _ ← require (e_network tx =?? network cfg) "NETWORK";
         _ ← require (height <=? e_expiry tx) "EXPIRED";
         Ok tx) with
  | Ok tx =>
      let sender := hex_encode (e_sender tx) in
      (digest ← map_err (fun _ => "ENCODING"%string) (signing_digest sha256 tx);
       _ ← map_err (fun _ => "SIGNATURE"%string) (verify_hex_strict sender digest (hex_encode (e_signature tx)));
       Ok (mkPrepared tx sender (zlen raw)), 1)
  | Err e => (Err e, 0)
  | Panic => (Panic, 0)
  end.

(** ** The commands *)

(** [require(..)?] inside a transaction. *)
Abbreviation requires b e := (liftr (require b e)).
Abbreviation lim cfg name := (liftr (limit cfg name)).

Definition cmd_transfer (sender : bstring) : Tx () :=
  recipient ← read_hash;
  amount ← read_u64;
  _ ← debit sender amount;
  credit (hex_encode recipient) amount.

Definition cmd_reserve_task (cfg : Config) (tx : Envelope) (sender : bstring) (height : Z) : Tx () :=
  task ← read_hash;
  p ← read_hash;
  let provider := hex_encode p in
  budget ← read_u64;
  dl ← read_u64;
  provider_hash ← liftr (hash32 provider);
  _ ← requires (task =?? hash "task-instance-v3" [network cfg; parameters cfg; e_sender tx; u64le (e_nonce tx);
                                                  provider_hash; u64le budget; u64le dl]) "RESOURCE_ID";
  let k := str "task:" ++ hex_encode task in
  existing ← get k;
  _ ← requires (bool_decide (existing = None)) "DUPLICATE";
  _ ← deadline cfg dl height;
  _ ← debit sender budget;
  put k (json_object [("owner", Str sender); ("provider", Str provider); ("remaining", json_u64 budget);
                      ("deadline", json_u64 dl); ("status", Str (str "reserved")); ("output", Null)]%string).

Definition cmd_cancel_task (sender : bstring) : Tx () :=
  id ← read_hash;
  '(k, o) ← object "task:" id;
  owner ← liftr (text o "owner");
  _ ← requires (owner =?? sender) "AUTHORITY";
  status ← liftr (text o "status");
  _ ← requires (status =?? str "reserved") "STATE";
  remaining ← liftr (field o "remaining");
  _ ← credit sender remaining;
  o ← liftr (set_index o (str "remaining") (json_u64 0));
  o ← liftr (set_index o (str "status") (Str (str "cancelled")));
  put k o.

Definition cmd_record_receipt (sender : bstring) (height : Z) : Tx () :=
  id ← read_hash;
  '(k, o) ← object "task:" id;
  output ← read_hash;
  provider ← liftr (text o "provider");
  _ ← requires (provider =?? sender) "AUTHORITY";
  ok ← liftr (and_then (status ← text o "status"; Ok (status =?? str "reserved"))
                       (dl ← field o "deadline"; Ok (height <? dl)));
  _ ← requires ok "STATE";
  _ ← requires (output <>? ZERO) "EVIDENCE";
  o ← liftr (set_index o (str "output") (Str (hex_encode output)));
  o ← liftr (set_index o (str "status") (Str (str "receipt")));
  put k o.

Definition cmd_accept_task (sender : bstring) (height : Z) : Tx () :=
  id ← read_hash;
  '(k, o) ← object "task:" id;
  out ← read_hash;
  let output := hex_encode out in
  owner ← liftr (text o "owner");
  _ ← requires (owner =?? sender) "AUTHORITY";
  ok ← liftr (and_then (status ← text o "status"; Ok (status =?? str "receipt"))
             (and_then (dl ← field o "deadline"; Ok (height <? dl))
                       (recorded ← text o "output"; Ok (recorded =?? output))));
  _ ← requires ok "STATE";
  provider ← liftr (text o "provider");
  remaining ← liftr (field o "remaining");
  _ ← credit provider remaining;
  o ← liftr (set_index o (str "remaining") (json_u64 0));
  o ← liftr (set_index o (str "status") (Str (str "settled")));
  put k o.

(** One candidate of the window: counted when active. *)
Definition count_active (cur : bstring) (height : Z) (cfg : Config) (count : Z) (v : Value) : PonResult Z :=
  active ← active_candidate v cur height cfg;
  Ok (if active : bool then count + 1 else count).

Definition cmd_contribute (cfg : Config) (tx : Envelope) (sender : bstring) (height : Z) : Tx () :=
  cid ← read_hash;
  fam ← read_hash;
  parent ← read_hash;
  artifact ← read_hash;
  artifact_size ← read_u64;
  components ← read_hash;
  round ← read_u64;
  blocks ← lim cfg "candidate_round_blocks";
  now ← liftr (u_div height blocks);
  _ ← requires (round =? now) "SUBMISSION_ROUND";
  _ ← requires (cid =?? hash "contribution-v3" [e_sender tx; fam; parent; artifact; components; u64le round]) "ROOT";
  model ← get (str "model:current");
  cur ← liftr (ok_or (v ← model; as_str v) "STATE"%string);
  _ ← requires ((fam =?? family cfg) && (hex_encode parent =?? cur)) "STATE";
  ok ← liftr (and_then (Ok (0 <? artifact_size)) (max ← limit cfg "max_artifact_bytes"; Ok (artifact_size <=? max)));
  _ ← requires ok "LIMIT";
  _ ← requires (artifact <>? ZERO) "EVIDENCE";
  history ← scan (str "contribution:");
  max ← lim cfg "max_candidate_history_per_round";
  _ ← requires (Z.of_nat (size history) <? max) "CANDIDATE_WINDOW_FULL";
  count ← liftr (try_fold (count_active cur height cfg) 0 (btree_values history));
  max ← lim cfg "max_model_candidates";
  _ ← requires (count <? max) "LIMIT";
  let k := str "contribution:" ++ hex_encode cid in
  let duplicate := str "artifact:" ++ hex_encode parent ++ str ":" ++ dec round ++ str ":" ++ hex_encode artifact in
  first ← get k;
  _ ← (if bool_decide (first = None)
       then second ← get duplicate; requires (bool_decide (second = None)) "DUPLICATE"
       else liftr (Err "DUPLICATE"%string));
  _ ← put k (json_object [("owner", Str sender); ("artifact", Str (hex_encode artifact));
        ("components_root", Str (hex_encode components)); ("family", Str (hex_encode fam));
        ("parent", Str (hex_encode parent)); ("votes", Object []); ("score", json_u64 0);
        ("status", Str (str "submitted")); ("submitted_height", json_u64 height);
        ("submission_round", json_u64 round)]%string);
  put duplicate (Str (hex_encode cid)).

(** The minimum of the votes' scores. *)
Definition min_score (votes : list (bstring * Value)) : PonResult Z :=
  scores ← try_map (fun p => field p.2 "score") votes;
  match scores with [] => Err "STATE"%string | s :: l => Ok (foldl Z.min s l) end.

Definition cmd_evaluate (cfg : Config) (sender : bstring) : Tx () :=
  id ← read_hash;
  '(k, o) ← object "contribution:" id;
  vplan ← read_hash;
  evidence ← read_hash;
  score ← read_u64;
  ok ← liftr (and_then (Ok (bool_decide (sender ∈ evaluators cfg))) (owner ← text o "owner"; Ok (owner <>? sender)));
  _ ← requires ok "AUTHORITY";
  model ← get (str "model:current");
  cur ← liftr (ok_or model "STATE"%string);
  ok ← liftr (and_then (status ← text o "status"; Ok (status =?? str "submitted"))
                       (Ok (index o (str "parent") =?? cur)));
  _ ← requires ok "STATE";
  _ ← requires (bool_decide (get_field (index o (str "votes")) sender = None)) "DUPLICATE";
  ok ← liftr (and_then (Ok ((vplan =?? plan cfg) && (evidence <>? ZERO)))
                       (max ← limit cfg "max_evidence_score"; Ok (score <=? max)));
  _ ← requires ok "EVIDENCE";
  votes ← liftr (set_index (index o (str "votes")) sender
                   (json_object [("score", json_u64 score); ("evidence", Str (hex_encode evidence))]%string));
  o ← liftr (set_index o (str "votes") votes);
  vs ← liftr (ok_or (as_object (index o (str "votes"))) "STATE"%string);
  threshold ← lim cfg "evaluation_threshold";
  o ← liftr (if threshold <=? zlen vs then
               minimum ← min_score vs;
               o ← set_index o (str "score") (json_u64 minimum);
               set_index o (str "status") (Str (str "evaluated"))
             else Ok o);
  put k o.

(** The locals of the allocation loop: leaves, adopted candidates, total score. *)
Definition Allocation : Type := list Hash * list (bstring * Value) * Z.

Definition adopt_step (cur : Value) (acc : Allocation) : Tx Allocation :=
  let '(leaves, adopted, total) := acc in
  cid ← read_hash;
  score ← read_u64;
  '(k, o) ← object "contribution:" cid;
  ok ← liftr (and_then (status ← text o "status"; Ok (status =?? str "evaluated"))
             (and_then (Ok (index o (str "parent") =?? cur))
             (and_then (s ← field o "score"; Ok (s =? score)) (Ok (0 <? score)))));
  _ ← requires ok "EVIDENCE";
  owner ← liftr (text o "owner");
  payee ← liftr (hash32 owner);
  total ← liftr (add total score);
  o ← liftr (set_index o (str "status") (Str (str "adopted")));
  mret (leaves ++ [allocation_leaf cid payee score], adopted ++ [(k, o)], total).

Fixpoint repeat_tx {A} (n : nat) (f : A -> Tx A) (a : A) : Tx A :=
  match n with O => mret a | S n => a ← f a; repeat_tx n f a end.

Fixpoint put_all (rows : list (bstring * Value)) : Tx () :=
  match rows with [] => mret tt | (k, v) :: rows => _ ← put k v; put_all rows end.

Definition cmd_publish_release (cfg : Config) (sender : bstring) (height : Z) : Tx () :=
  release ← read_hash;
  parent ← read_hash;
  bundle_id ← read_hash;
  budget ← read_u64;
  supplied_root ← read_hash;
  supplied_total ← read_u64;
  count ← read_byte;
  model ← get (str "model:current");
  cur ← liftr (ok_or model "STATE"%string);
  _ ← requires (cur =?? Str (hex_encode parent)) "STATE";
  '(bk, bundle) ← object "contribution:" bundle_id;
  ok ← liftr (and_then (status ← text bundle "status"; Ok (status =?? str "evaluated"))
                       (s ← field bundle "score"; min ← limit cfg "minimum_adoption_score"; Ok (min <=? s)));
  _ ← requires ok "EVIDENCE";
  ok ← liftr (and_then (Ok (index bundle (str "parent") =?? cur))
                       (r ← text bundle "components_root"; Ok (r =?? hex_encode supplied_root)));
  _ ← requires ok "ROOT";
  '(leaves, adopted, total) ← repeat_tx (Z.to_nat count) (adopt_step cur) ([], [], 0);
  root ← liftr (allocation_root leaves);
  _ ← requires ((root =?? supplied_root) && (total =? supplied_total)) "ROOT";
  _ ← requires (release =?? hash "release" [parent; bundle_id; u64le budget; supplied_root; u64le total]) "ROOT";
  let rk := str "release:" ++ hex_encode release in
  existing ← get rk;
  _ ← requires (bool_decide (existing = None)) "DUPLICATE";
  maturity ← lim cfg "reward_maturity_blocks";
  window ← lim cfg "release_claim_window_blocks";
  horizon ← liftr (add maturity window);
  expiry ← liftr (add height horizon);
  _ ← deadline_with_lifetime cfg expiry height horizon;
  _ ← debit sender budget;
  maturity ← lim cfg "reward_maturity_blocks";
  mature ← liftr (add height maturity);
  _ ← put rk (json_object [("owner", Str sender); ("remaining", json_u64 budget); ("budget", json_u64 budget);
        ("total", json_u64 total); ("root", Str (hex_encode supplied_root)); ("maturity", json_u64 mature);
        ("bundle", Str (hex_encode bundle_id)); ("artifact", index bundle (str "artifact"));
        ("family", index bundle (str "family")); ("components_root", index bundle (str "components_root"));
        ("parent", Str (hex_encode parent)); ("leaf_count", json_u64 count); ("claims", Object []);
        ("deadline", json_u64 expiry); ("status", Str (str "open"))]%string);
  _ ← put_all adopted;
  bundle ← liftr (set_index bundle (str "status") (Str (str "adopted")));
  _ ← put bk bundle;
  put (str "model:current") (Str (hex_encode release)).

(** One step up the allocation proof. *)
Definition climb (leaf : Hash) : Tx Hash := sibling ← read_hash; mret (pair_hash leaf sibling).

Definition cmd_claim_reward (tx : Envelope) (sender : bstring) (height : Z) : Tx () :=
  id ← read_hash;
  '(rk, rel) ← object "release:" id;
  cid ← read_hash;
  score ← read_u64;
  count ← read_byte;
  let c := hex_encode cid in
  ok ← liftr (and_then (maturity ← field rel "maturity"; Ok (maturity <=? height))
             (and_then (dl ← field rel "deadline"; Ok (height <? dl))
                       (status ← text rel "status"; Ok (status =?? str "open"))));
  _ ← requires ok "STATE";
  _ ← requires (bool_decide (get_field (index rel (str "claims")) c = None)) "DUPLICATE";
  leaves ← liftr (field rel "leaf_count");
  _ ← requires (0 <? leaves) "ROOT";
  _ ← requires (count =? bit_length (leaves - 1)) "ROOT";
  leaf ← repeat_tx (Z.to_nat count) climb (allocation_leaf cid (e_sender tx) score);
  root_text ← liftr (text rel "root");
  root ← liftr (hash32 root_text);
  _ ← requires (leaf =?? root) "ROOT";
  total ← liftr (field rel "total");
  _ ← requires (0 <? total) "ROOT";
  budget ← liftr (field rel "budget");
  amount ← liftr (ok_or (try_from u64_max (budget * score / total)) "RANGE"%string);
  remaining ← liftr (field rel "remaining");
  _ ← requires (amount <=? remaining) "FUNDS";
  _ ← credit sender amount;
  remaining ← liftr (field rel "remaining");
  rel ← liftr (set_index rel (str "remaining") (json_u64 (remaining - amount)));
  claims ← liftr (set_index (index rel (str "claims")) c (json_u64 amount));
  rel ← liftr (set_index rel (str "claims") claims);
  put rk rel.

Definition cmd_reserve_quota (cfg : Config) (tx : Envelope) (sender : bstring) (height : Z) : Tx () :=
  quota ← read_hash;
  c ← read_hash;
  let consumer := hex_encode c in
  p ← read_hash;
  let provider := hex_encode p in
  units ← read_u64;
  dl ← read_u64;
  consumer_hash ← liftr (hash32 consumer);
  provider_hash ← liftr (hash32 provider);
  _ ← requires (quota =?? hash "quota-instance-v3" [network cfg; parameters cfg; e_sender tx; u64le (e_nonce tx);
                 consumer_hash; provider_hash; u64le units; u64le dl]) "RESOURCE_ID";
  let k := str "quota:" ++ hex_encode quota in
  existing ← get k;
  _ ← requires (bool_decide (existing = None)) "DUPLICATE";
  _ ← deadline cfg dl height;
  ok ← liftr (and_then (Ok (0 <? units)) (max ← limit cfg "max_quota_units"; Ok (units <=? max)));
  _ ← requires ok "LIMIT";
  price ← lim cfg "quota_unit_price";
  cost ← liftr (ok_or (checked_mul u64_max units price) "RANGE"%string);
  _ ← debit sender cost;
  put k (json_object [("owner", Str sender); ("consumer", Str consumer); ("provider", Str provider);
          ("remaining", json_u64 cost); ("units", json_u64 units); ("deadline", json_u64 dl);
          ("status", Str (str "reserved"))]%string).

Definition cmd_consume_quota (cfg : Config) (tx : Envelope) (sender : bstring) (fee height : Z) : Tx () :=
  quota ← read_hash;
  '(k, o) ← object "quota:" quota;
  units ← read_u64;
  result ← read_hash;
  signature ← take_n 64;
  provider ← liftr (text o "provider");
  _ ← requires (provider =?? sender) "AUTHORITY";
  ok ← liftr (and_then (status ← text o "status"; Ok (status =?? str "reserved"))
                       (dl ← field o "deadline"; Ok (height <? dl)));
  _ ← requires ok "STATE";
  ok ← liftr (and_then (Ok (0 <? units))
             (and_then (left ← field o "units"; Ok (units <=? left)) (Ok (result <>? ZERO))));
  _ ← requires ok "LIMIT";
  let digest := hash "use" [network cfg; parameters cfg; quota; e_sender tx; u64le (e_nonce tx); u64le units; result] in
  consumer ← liftr (text o "consumer");
  _ ← liftr (map_err (fun _ => "SIGNATURE"%string) (verify_hex_strict consumer digest (hex_encode signature)));
  price ← lim cfg "quota_unit_price";
  cost ← liftr (ok_or (checked_mul u64_max units price) "RANGE"%string);
  ok ← liftr (and_then (Ok (fee <=? cost)) (remaining ← field o "remaining"; Ok (cost <=? remaining)));
  _ ← requires ok "FUNDS";
  remaining ← liftr (field o "remaining");
  o ← liftr (set_index o (str "remaining") (json_u64 (remaining - cost)));
  left ← liftr (field o "units");
  o ← liftr (set_index o (str "units") (json_u64 (left - units)));
  _ ← credit sender (cost - fee);
  left ← liftr (field o "units");
  o ← liftr (if left =? 0 then set_index o (str "status") (Str (str "spent")) else Ok o);
  put k o.

Definition cmd_register_work : Tx () :=
  task ← read_hash;
  let k := str "work:" ++ hex_encode task in
  _ ← (if task =?? ZERO then liftr (Err "DUPLICATE"%string)
       else existing ← get k; requires (bool_decide (existing = None)) "DUPLICATE");
  put k (Bool true).

Definition command (cfg : Config) (tx : Envelope) (sender : bstring) (fee height : Z) : Tx () :=
  match e_tag tx with
  | 1 => cmd_transfer sender
  | 2 => cmd_reserve_task cfg tx sender height
  | 3 => cmd_cancel_task sender
  | 4 => cmd_record_receipt sender height
  | 5 => cmd_accept_task sender height
  | 6 => cmd_contribute cfg tx sender height
  | 7 => cmd_evaluate cfg sender
  | 8 => cmd_publish_release cfg sender height
  | 9 => cmd_claim_reward tx sender height
  | 10 => cmd_reserve_quota cfg tx sender height
  | 11 => cmd_consume_quota cfg tx sender fee height
  | 12 => cmd_register_work
  | _ => liftr (Err "VERSION"%string)
  end.

Definition transaction_fee (prepared : Prepared) (cfg : Config) : PonResult Z :=
  base_fee ← expect (fees cfg !! Z.to_nat (e_tag (pr_envelope prepared)));
  unit_fee ← limit cfg "byte_fee_units";
  bytes_fee ← ok_or (checked_mul u64_max (pr_encoded_len prepared) unit_fee) "RANGE"%string;
  add base_fee bytes_fee.

(** The body of [apply_prepared] on the transaction's locals: fee and receipt. *)
Definition run_transaction (prepared : Prepared) (height : Z) (cfg : Config) : Tx (Z * list Z) :=
  let tx := pr_envelope prepared in
  let sender := pr_sender prepared in
  acct ← account sender;
  nonce ← liftr (field acct "nonce");
  next ← liftr (add nonce 1);
  _ ← requires (e_nonce tx =? next) "NONCE";
  fee ← liftr (transaction_fee prepared cfg);
  _ ← requires (fee <=? e_fee_limit tx) "FEE";
  _ ← (if e_tag tx =? 11 then put (account_key sender) acct else debit sender fee);
  _ ← command cfg tx sender fee height;
  _ ← (fun s : TxState => _ ← require (p_pos (t_payload s) =? zlen (p_bytes (t_payload s))) "LENGTH"; Ok (tt, s));
  a ← account sender;
  a ← liftr (set_index a (str "nonce") (json_u64 (e_nonce tx)));
  _ ← put (account_key sender) a;
  id ← liftr (map_err (fun _ => "ENCODING"%string) (envelope_id sha256 tx));
  receipt ← liftr (canonical (json_object [("tx", Str (hex_encode id)); ("fee", json_u64 fee);
                                           ("status", Str (str "applied"))]%string));
  mret (fee, receipt).

Definition apply_prepared (b : State) (prepared : Prepared) (height : Z) (cfg : Config) : PonResult Patch :=
  '(fee, receipt, s) ← run_transaction prepared height cfg
                         (mkTxState (View_new b) (mkPayload (e_payload (pr_envelope prepared)) 0));
  Ok (mkPatch (writes (t_view s)) (reads (t_view s)) (scans (t_view s)) fee receipt).

(** ** Mandatory transitions of a block *)

(** Obligations that hold funds. *)
Definition is_obligation (k : bstring) : bool :=
  starts_with k (str "task:") || starts_with k (str "quota:") || starts_with k (str "release:").

Definition add_funds (total : Z) (row : bstring * Value) : PonResult Z :=
  let '(k, v) := row in
  amount ← (if starts_with k (str "account:") then field v "balance"
            else if is_obligation k then field v "remaining"
            else if starts_with k (str "reward:") then field v "amount"
            else Ok 0);
  add total amount.

Definition funds (state : State) : PonResult Z := try_fold add_funds 0 (btree_iter state).

Definition credit_state (state : State) (who : bstring) (amount : Z) : PonResult State :=
  let key := account_key who in
  let a := default empty_account (state !! key) in
  b ← field a "balance";
  b ← add b amount;
  a ← set_index a (str "balance") (json_u64 b);
  Ok (<[key := a]> state).

(** [k.split(':')] *)
Fixpoint split_colon (k : bstring) : list bstring :=
  match k with
  | [] => [[]]
  | c :: k =>
      if c =? 58 then [] :: split_colon k
      else match split_colon k with part :: parts => (c :: part) :: parts | [] => [[c]] end
  end.

(** Retirement of one candidate. *)
Definition retire_candidate (cur : bstring) (height : Z) (cfg : Config) (state : State) (k : bstring) (v : Value) :
    PonResult State :=
  stale ← (parent ← text v "parent";
           if parent <>? cur then Ok true
           else r ← field_or v "submission_round" 0;
                blocks ← limit cfg "candidate_round_blocks";
                now ← u_div height blocks;
                Ok (negb (r =? now)));
  if stale : bool then Ok (delete k state)
  else
    submitted ← field_or v "submitted_height" height;
    expired ← and_then (lifetime ← limit cfg "candidate_lifetime_blocks";
                        last ← add submitted lifetime; Ok (last <? height))
                       (status ← text v "status";
                        Ok ((status =?? str "submitted") || (status =?? str "evaluated")));
    if expired : bool then
      v ← set_index v (str "status") (Str (str "expired"));
      v ← set_index v (str "votes") (Object []);
      v ← set_index v (str "score") (json_u64 0);
      Ok (<[k := v]> state)
    else Ok state.

Definition retire_step (cur : bstring) (height : Z) (cfg : Config) (state : State) (k : bstring) : PonResult State :=
  if starts_with k (str "contribution:") then
    v ← ok_or (state !! k) "STATE"%string;
    retire_candidate cur height cfg state k v
  else if starts_with k (str "task:") || starts_with k (str "quota:") then
    value ← ok_or (state !! k) "STATE"%string;
    done ← and_then (remaining ← field value "remaining"; Ok (remaining =? 0))
                    (dl ← field value "deadline"; Ok (dl <? height));
    if done : bool then Ok (delete k state) else Ok state
  else if starts_with k (str "artifact:") then
    let parts := split_colon k in
    blocks ← limit cfg "candidate_round_blocks";
    now ← u_div height blocks;
    if negb (zlen parts =? 4) || (default [] (parts !! 1%nat) <>? cur) || (default [] (parts !! 2%nat) <>? dec now)
    then Ok (delete k state) else Ok state
  else Ok state.

(** A claimed-out release other than the current model. *)
Definition retired_release (cur : bstring) (row : bstring * Value) : bool :=
  let '(k, v) := row in
  starts_with k (str "release:") && (drop 8 k <>? cur) && eq_i64 (index v (str "remaining")) 0.

Definition collect_due (height : Z) (due : list (Z * bstring)) (row : bstring * Value) : PonResult (list (Z * bstring)) :=
  let '(k, v) := row in
  if is_obligation k then
    is_due ← and_then (remaining ← field v "remaining"; Ok (0 <? remaining))
                      (dl ← field v "deadline"; Ok (dl <=? height));
    if is_due : bool then dl ← field v "deadline"; Ok (due ++ [(dl, k)]) else Ok due
  else Ok due.

Definition expire_step (acc : State * list (list Z)) (row : Z * bstring) : PonResult (State * list (list Z)) :=
  let '(state, receipts) := acc in
  let k := row.2 in
  v ← ok_or (state !! k) "STATE"%string;
  owner ← text v "owner";
  remaining ← field v "remaining";
  state ← credit_state state owner remaining;
  v ← set_index v (str "remaining") (json_u64 0);
  v ← set_index v (str "status") (Str (str "expired"));
  receipt ← canonical (json_object [("expiry", Str k)]%string);
  Ok (<[k := v]> state, receipts ++ [receipt]).

Definition mature_step (height : Z) (state : State) (row : bstring * Z) : PonResult State :=
  let '(k, maturity) := row in
  if maturity <=? height then
    reward ← ok_or (state !! k) "STATE"%string;
    let state := delete k state in
    owner ← text reward "owner";
    amount ← field reward "amount";
    credit_state state owner amount
  else Ok state.

Definition mandatory (state : State) (height : Z) (cfg : Config) : PonResult (State * list (list Z)) :=
  cur ← ok_or (v ← state !! str "model:current"; as_str v) "STATE"%string;
  state ← try_fold (retire_step cur height cfg) state (fst <$> btree_iter state);
  let retired := fst <$> filter (fun row => retired_release cur row = true) (btree_iter state) in
  let state := foldl (fun st k => delete k st) state retired in
  due ← try_fold (collect_due height) [] (btree_iter state);
  max ← limit cfg "mandatory_expiry_per_block";
  '(state, receipts) ← try_fold expire_step (state, []) (take (Z.to_nat max) (sort due));
  mature ← try_map (fun row => m ← field row.2 "maturity"; Ok (row.1, m))
             (filter (fun row => starts_with row.1 (str "reward:") = true) (btree_iter state));
  state ← try_fold (mature_step height) state mature;
  Ok (state, receipts).

(** ** Executing a block *)

Record Metrics := mkMetrics {
  m_workers : Z;
  m_speculative : Z;
  m_reexecuted : Z;
  m_committed_without_replay : Z;
  m_peak_inflight : Z;
  m_serial_conflict_batches : Z;
  m_workers_spawned : Z;
  m_signature_verifications : Z;
}.

Record Output := mkOutput { o_state : State; o_receipts : list (list Z); o_root : Hash; o_metrics : Metrics }.

Record Predicted := mkPredicted {
  pd_prepared : PonResult Prepared;
  pd_patch : option (PonResult Patch);
  pd_signatures : Z;
}.

(** [raw.get(36..68)] *)
Definition sender_bytes (raw : list Z) : option (list Z) := get_range raw 36 68.

Definition is_serial (transactions : list (list Z)) (workers : Z) : bool :=
  (workers =? 1) ||
  match transactions with
  | first :: _ :: _ =>
      (68 <=? zlen first) && forallb (fun raw => sender_bytes raw =?? sender_bytes first) transactions
  | _ => false
  end.

Definition range_command (tag : Z) : bool := (tag =? 2) || (tag =? 6) || (tag =? 8) || (tag =? 10).

(** The [predict] closure; a panic of either call is a panic of the caller. *)
Definition predict (state : State) (serial_state : bool) (height : Z) (cfg : Config) (raw : list Z) :
    PonResult Predicted :=
  let '(prepared, signatures) := prepare raw height cfg in
  let range := match prepared with Ok p => range_command (e_tag (pr_envelope p)) | _ => false end in
  match prepared with
  | Panic => Panic
  | _ =>
      if serial_state || range then Ok (mkPredicted prepared None signatures)
      else match (p ← prepared; apply_prepared state p height cfg) with
           | Panic => Panic
           | r => Ok (mkPredicted prepared (Some r) signatures)
           end
  end.

(** [(worker..n).step_by(count)] *)
Definition worker_indices (n count worker : nat) : list nat :=
  filter (fun i => (i mod count)%nat = worker) (seq 0 n).

(** A worker's rows, or its panic. *)
Definition worker_rows (work : list Z -> PonResult Predicted) (transactions : list (list Z)) (count worker : nat) :
    PonResult (list (nat * Predicted)) :=
  try_map (fun i => raw ← expect (transactions !! i); p ← work raw; Ok (i, p))
    (worker_indices (length transactions) count worker).

(** The pool: start [count] workers, join them all, order their rows.  [started]
    says which threads the system starts. *)
Definition run_pool (started : nat -> bool) (work : list Z -> PonResult Predicted)
    (transactions : list (list Z)) (count : nat) : PonResult (list Predicted) :=
  _ ← require (forallb started (seq 0 count)) "WORKER_START";
  let joined := worker_rows work transactions count <$> seq 0 count in
  _ ← require (forallb (fun r => negb (is_panic r)) joined) "WORKER_PANIC";
  let rows := mjoin ((fun r => match r with Ok rows => rows | _ => [] end) <$> joined) in
  let rows := sort_by_key (fun row => Z.of_nat row.1) rows in
  _ ← require (Nat.eqb (length rows) (length transactions)) "WORKER_RESULT";
  Ok (snd <$> rows).

(** The locals of the commit loop: state, receipts, fees, and the counters
    speculative, reexecuted and committed without replay. *)
Definition Commit : Type := State * list (list Z) * Z * (Z * Z * Z).

(** The patch a predicted transaction commits, with the updated counters. *)
Definition select_patch (serial_state : bool) (height : Z) (cfg : Config) (state : State)
    (counters : Z * Z * Z) (result : Predicted) : PonResult (Patch * (Z * Z * Z)) :=
  let '(speculative, reexecuted, committed) := counters in
  prepared ← pd_prepared result;
  match (if serial_state then None else pd_patch result) with
  | None => patch ← apply_prepared state prepared height cfg; Ok (patch, (speculative, reexecuted, committed + 1))
  | Some predicted =>
      let replay := patch ← apply_prepared state prepared height cfg;
                    Ok (patch, (speculative + 1, reexecuted + 1, committed)) in
      match predicted with
      | Ok patch => if patch_current patch state then Ok (patch, (speculative + 1, reexecuted, committed + 1)) else replay
      | _ => replay
      end
  end.

Definition commit_step (serial_state : bool) (height : Z) (cfg : Config) (acc : Commit) (result : Predicted) :
    PonResult Commit :=
  let '(state, receipts, paid, counters) := acc in
  '(patch, counters) ← select_patch serial_state height cfg state counters result;
  paid ← add paid (pa_fee patch);
  Ok (patch_apply patch state, receipts ++ [pa_receipt patch], paid, counters).

(** [units.checked_shr(halvings).unwrap_or(0)] *)
Definition halved (units halvings : Z) : Z := if halvings <? 64 then Z.shiftr units halvings else 0.

Definition block_subsidy (height : Z) (cfg : Config) : PonResult Z :=
  interval ← limit cfg "subsidy_halving_interval";
  halvings ← u_div height interval;
  units ← limit cfg "block_subsidy_units";
  Ok (halved units (Z.min halvings 64)).

Definition reward_key (parent_id : Hash) (height : Z) (miner : Hash) : bstring :=
  str "reward:" ++ hex_encode (hash "reward" [parent_id; u64le height; miner]).

(** The end of the block: reward, issuance and the conservation check. *)
Definition finish_state (state : State) (paid height : Z) (miner parent_id : Hash) (cfg : Config) : PonResult State :=
  subsidy ← block_subsidy height cfg;
  amount ← add paid subsidy;
  maturity ← limit cfg "reward_maturity_blocks";
  mature ← add height maturity;
  let state := <[reward_key parent_id height miner :=
                 json_object [("owner", Str (hex_encode miner)); ("amount", json_u64 amount);
                              ("maturity", json_u64 mature)]%string]> state in
  meta ← ok_or (state !! str "meta:issued") "STATE"%string;
  before ← num meta;
  issued ← add before subsidy;
  let state := <[str "meta:issued" := json_u64 issued]> state in
  total ← funds state;
  _ ← require (total =? issued) "CONSERVATION";
  Ok state.

Definition execute (started : nat -> bool) (parent : State) (transactions : list (list Z)) (height : Z)
    (miner parent_id : Hash) (workers : Z) (cfg : Config) : PonResult Output :=
  _ ← require (bool_decide (workers ∈ [1; 2; 4; 8])) "WORKERS";
  max ← limit cfg "max_transactions";
  _ ← require (zlen transactions <=? max) "LIMIT";
  '(state, receipts) ← mandatory parent height cfg;
  let serial_state := is_serial transactions workers in
  let work := predict state serial_state height cfg in
  let count := Nat.min (Z.to_nat workers) (length transactions) in
  predicted ← (if Nat.leb count 1 then try_map work transactions else run_pool started work transactions count);
  let spawned := if Nat.leb count 1 then 0 else Z.of_nat count in
  let signatures := zsum (pd_signatures <$> predicted) in
  let peak := if serial_state then (if is_empty transactions then 0 else 1) else Z.of_nat count in
  let batches := if serial_state && (1 <? workers) && negb (is_empty transactions) then 1 else 0 in
  '(state, receipts, paid, (speculative, reexecuted, committed)) ←
     try_fold (commit_step serial_state height cfg) (state, receipts, 0, (0, 0, 0)) predicted;
  state ← finish_state state paid height miner parent_id cfg;
  root ← pon_root state;
  Ok (mkOutput state receipts root
        (mkMetrics workers speculative reexecuted committed peak batches spawned signatures)).

End executor.
