(* ===== verification/PonTracked.v ===== *)
(** * PonTracked: a patch depends only on what it logged

    [Tracked c] says that a transaction computation, run again on any state that
    agrees with the keys and prefixes it logged, gives the same result and the
    same log.  It is closed under the monad, so every command has it, and a patch
    that is still current can be committed in place of a replay. *)

From stdpp Require Import base gmap list sorting strings.
From S2P Require Import Prelude Crypto Wire PonState PonExecutor.

(** ** Logs *)

(** A state in which everything the view observed still holds. *)
Definition agrees (v : View) (b : State) : Prop :=
  (forall k o, reads v !! k = Some o -> b !! k = o) /\
  (forall p m, scans v !! p = Some m -> with_prefix p b = m).
Definition rebase (b : State) (s : TxState) : TxState :=
  mkTxState (mkView b (writes (t_view s)) (reads (t_view s)) (scans (t_view s))) (t_payload s).
Definition log_extends (v v' : View) : Prop := reads v ⊆ reads v' /\ scans v ⊆ scans v'.

Definition Tracked {A} (c : Tx A) : Prop := forall s a s' b,
  agrees (t_view s) (base (t_view s)) -> c s = Ok (a, s') ->
  base (t_view s') = base (t_view s) /\ agrees (t_view s') (base (t_view s')) /\
  log_extends (t_view s) (t_view s') /\
  (agrees (t_view s') b -> c (rebase b s) = Ok (a, rebase b s')).

Lemma log_extends_refl v : log_extends v v.
Proof. done. Qed.

Lemma agrees_mono v v' b : log_extends v v' -> agrees v' b -> agrees v b.
Proof.
  intros [Hr Hs] [Ar As]. split.
  - intros k o Hk. apply Ar. by eapply lookup_weaken.
  - intros p m Hp. apply As. by eapply lookup_weaken.
Qed.

(** ** Closure *)

Lemma Tx_bind_Ok {A B} (c : Tx A) (f : A -> Tx B) s b s'' :
  (c ≫= f) s = Ok (b, s'') <-> exists a s', c s = Ok (a, s') /\ f a s' = Ok (b, s'').
Proof.
  unfold mbind, Tx_bind. rewrite bind_Ok. split.
  - intros ([a s'] & Hc & Hf). eauto.
  - intros (a & s' & Hc & Hf). by exists (a, s').
Qed.

Lemma liftr_Ok {A} (r : PonResult A) s a s' : liftr r s = Ok (a, s') <-> r = Ok a /\ s' = s.
Proof. unfold liftr. rewrite bind_Ok. split; [intros (x & -> & [= -> ->]); done|intros [-> ->]; by exists a]. Qed.

Lemma tracked_bind {A B} (c : Tx A) (f : A -> Tx B) :
  Tracked c -> (forall a, Tracked (f a)) -> Tracked (c ≫= f).
Proof.
  intros Hc Hf s b s'' bs Hs H. apply Tx_bind_Ok in H as (a & s' & H1 & H2).
  destruct (Hc _ _ _ bs Hs H1) as (Eb & Hs' & [Lr Ls] & Hre).
  destruct (Hf a _ _ _ bs Hs' H2) as (Eb' & Hs'' & [Lr' Ls'] & Hre').
  split; [congruence|]. split; [done|]. split; [split; etrans; eassumption|].
  intros Hag. apply Tx_bind_Ok. exists a, (rebase bs s'). split; [|by apply Hre'].
  apply Hre. by eapply agrees_mono.
Qed.

Lemma tracked_liftr {A} (r : PonResult A) : Tracked (liftr r).
Proof.
  intros s a s' b Hs H. apply liftr_Ok in H as [-> ->]. split; [done|]. split; [done|].
  split; [apply log_extends_refl|]. intros _. by apply liftr_Ok.
Qed.

Lemma tracked_ret {A} (a : A) : Tracked (mret a).
Proof. apply (tracked_liftr (Ok a)). Qed.

Lemma tracked_take n : Tracked (take_n n).
Proof.
  intros s a s' b Hs H. unfold take_n in *. rinv. subst. split; [done|]. split; [done|].
  split; [apply log_extends_refl|]. intros _. cbn. rewrite Hr. cbn. by rewrite Hr0.
Qed.

(** Reading logs what is in the base, whether the key is new to the log or not. *)
Lemma log_read_facts v k b :
  agrees v (base v) ->
  reads v ⊆ log_read v k /\ log_read v k !! k = Some (base v !! k) /\
  (forall k' o, log_read v k !! k' = Some o -> base v !! k' = o) /\
  (b !! k = base v !! k -> log_read (mkView b (writes v) (reads v) (scans v)) k = log_read v k).
Proof.
  intros [Ar _]. unfold log_read. cbn. destruct (reads v !! k) as [o|] eqn:E.
  - split; [done|]. rewrite E, (Ar _ _ E). split; [done|]. split; [apply Ar|done].
  - split; [by apply insert_subseteq|]. rewrite lookup_insert_eq. split; [done|]. split.
    + intros k' o. rewrite lookup_insert_Some. intros [[<- <-]|[_ Hk]]; [done|by apply Ar].
    + by intros ->.
Qed.

Lemma tracked_get k : Tracked (get k).
Proof.
  intros s a s' b Hs H. injection H as <- <-. destruct (log_read_facts (t_view s) k b Hs) as (L1 & L2 & L3 & L4).
  split; [done|]. split; [split; [exact L3|apply Hs]|]. split; [by split|].
  intros [Ar _]. pose proof (Ar _ _ L2) as Hk. unfold get, on_view, rebase. cbn. rewrite L4 by done.
  unfold current. cbn. by rewrite Hk.
Qed.

Lemma tracked_put k v : Tracked (put k v).
Proof.
  intros s a s' b Hs H. injection H as <- <-. destruct (log_read_facts (t_view s) k b Hs) as (L1 & L2 & L3 & L4).
  split; [done|]. split; [split; [exact L3|apply Hs]|]. split; [by split|].
  intros [Ar _]. pose proof (Ar _ _ L2) as Hk. unfold put, on_view, rebase. cbn. by rewrite L4.
Qed.

Lemma tracked_scan p : Tracked (scan p).
Proof.
  intros s a s' b Hs H. injection H as <- <-. pose proof Hs as [_ As].
  assert (Hl : scans (t_view s) ⊆ log_scan (t_view s) p /\
               log_scan (t_view s) p !! p = Some (with_prefix p (base (t_view s))) /\
               (forall q m, log_scan (t_view s) p !! q = Some m -> with_prefix q (base (t_view s)) = m)).
  { unfold log_scan. destruct (scans (t_view s) !! p) as [m|] eqn:E.
    - rewrite E, (As _ _ E). auto.
    - split; [by apply insert_subseteq|]. rewrite lookup_insert_eq. split; [done|].
      intros q m. rewrite lookup_insert_Some. intros [[<- <-]|[_ Hq]]; [done|by apply As]. }
  destruct Hl as (L1 & L2 & L3). split; [done|]. split; [split; [apply Hs|exact L3]|]. split; [by split|].
  intros [_ Bs]. pose proof (Bs _ _ L2) as Hp. unfold scan, on_view, rebase. cbn.
  assert (Hlog : log_scan (mkView b (writes (t_view s)) (reads (t_view s)) (scans (t_view s))) p = log_scan (t_view s) p).
  { unfold log_scan. cbn. by rewrite Hp. }
  by rewrite Hlog.
Qed.

Create HintDb tracked.
#[export] Hint Resolve tracked_liftr tracked_ret tracked_take tracked_get tracked_put tracked_scan : tracked.

(** Follow the structure of a command. *)
Ltac tracked :=
  repeat first
    [ solve [eauto with tracked]
    | apply tracked_bind; [|intros ?]
    | match goal with
      | |- Tracked (match ?p with pair _ _ => _ end) => destruct p
      | |- Tracked (if ?b then _ else _) => destruct b
      | |- Tracked (let _ := _ in _) => cbv zeta
      end ].

Section commands.
Context `{CryptoCrates} `{SerdeJson}.

Lemma tracked_account who : Tracked (account who).
Proof. unfold account. tracked. Qed.
Hint Resolve tracked_account : tracked.

Lemma tracked_credit who n : Tracked (credit who n).
Proof. unfold credit. tracked. Qed.

Lemma tracked_debit who n : Tracked (debit who n).
Proof. unfold debit. tracked. Qed.

Lemma tracked_object p id : Tracked (object p id).
Proof. unfold object. tracked. Qed.
Hint Resolve tracked_credit tracked_debit tracked_object : tracked.

Lemma tracked_deadline_with cfg d h l : Tracked (deadline_with_lifetime cfg d h l).
Proof. unfold deadline_with_lifetime. tracked. Qed.
Hint Resolve tracked_deadline_with : tracked.

Lemma tracked_deadline cfg d h : Tracked (deadline cfg d h).
Proof. unfold deadline. tracked. Qed.

Lemma tracked_repeat {A} n (f : A -> Tx A) a : (forall a, Tracked (f a)) -> Tracked (repeat_tx n f a).
Proof. intros Hf. revert a. induction n as [|n IH]; intros a; cbn; tracked. Qed.

Lemma tracked_put_all rows : Tracked (put_all rows).
Proof. induction rows as [|[k v] rows IH]; cbn; tracked. Qed.
Hint Resolve tracked_deadline tracked_repeat tracked_put_all : tracked.

Lemma tracked_read_u64 : Tracked read_u64.
Proof. unfold read_u64. tracked. Qed.
Lemma tracked_read_hash : Tracked read_hash.
Proof. apply tracked_take. Qed.
Lemma tracked_read_byte : Tracked read_byte.
Proof. unfold read_byte. tracked. Qed.
Hint Resolve tracked_read_u64 tracked_read_hash tracked_read_byte : tracked.

Lemma tracked_adopt cur acc : Tracked (adopt_step cur acc).
Proof. unfold adopt_step. tracked. Qed.
Lemma tracked_climb leaf : Tracked (climb leaf).
Proof. unfold climb. tracked. Qed.
Hint Resolve tracked_adopt tracked_climb : tracked.

Lemma tracked_command cfg tx sender fee h : Tracked (command cfg tx sender fee h).
Proof.
  unfold command. destruct (e_tag tx) as [|t|t]; try solve [tracked].
  do 4 (try (destruct t; try solve [tracked])).
Qed.
Hint Resolve tracked_command : tracked.

Lemma tracked_end : Tracked (fun s : TxState =>
  _ ← require (p_pos (t_payload s) =? zlen (p_bytes (t_payload s))) "LENGTH"; Ok (tt, s)).
Proof.
  intros s [] s' b Hs Hc. apply bind_Ok in Hc as ([] & Hq & [= <-]). split; [done|]. split; [done|].
  split; [apply log_extends_refl|]. intros _. change (t_payload (rebase b s)) with (t_payload s). by rewrite Hq.
Qed.
Hint Resolve tracked_end : tracked.

Lemma tracked_transaction p h cfg : Tracked (run_transaction p h cfg).
Proof. unfold run_transaction. cbv zeta. tracked. Qed.

(** ** Patches *)

Lemma patch_current_agrees p b :
  patch_current p b = true ->
  agrees (mkView b (pa_writes p) (pa_reads p) (pa_scans p)) b.
Proof.
  unfold patch_current. rewrite andb_true_iff, !forallb_forall. intros [Hr Hs]. split; cbn.
  - intros k o Hk. apply (bool_decide_eq_true _), (Hr (k, o)), list_elem_of_In, elem_of_btree_iter, Hk.
  - intros q m Hq. apply (bool_decide_eq_true _), (Hs (q, m)), list_elem_of_In, elem_of_btree_iter, Hq.
Qed.

(** A current patch is the patch of a replay. *)
Lemma current_patch_is_replay b b' p h cfg patch :
  apply_prepared b p h cfg = Ok patch -> patch_current patch b' = true -> apply_prepared b' p h cfg = Ok patch.
Proof.
  unfold apply_prepared. intros Hp Hcur. apply bind_Ok in Hp as ([[fee receipt] s] & Hrun & [= <-]).
  assert (Hnew : agrees (View_new b) b) by (split; cbn; intros ? ? Hk; by rewrite lookup_empty in Hk).
  edestruct (tracked_transaction p h cfg) with (b := b') as (_ & _ & _ & Hre); [|exact Hrun|]; [exact Hnew|].
  apply patch_current_agrees in Hcur. change (rebase b' _) with
    (mkTxState (View_new b') (mkPayload (e_payload (pr_envelope p)) 0)) in Hre at 1.
  rewrite Hre by exact Hcur. done.
Qed.

End commands.
