(* ===== verification/PonSafety.v ===== *)
(** * PonSafety: transactions never panic on a well-formed ledger

    [value_ok] is what the executor needs of a stored value to index it safely:
    accounts are objects, votes and claims are objects or absent.  [ok c Q]
    says that [c], on such a ledger, does not panic, keeps it well formed and
    returns values satisfying [Q]. *)

From stdpp Require Import base gmap list sorting strings.
From S2P Require Import Prelude Crypto Wire WireTheorems PonState PonExecutor PonTracked.

(** ** Objects *)

Lemma obj_get_insert k k' v m : obj_get k (obj_insert k' v m) = if decide (k = k') then Some v else obj_get k m.
Proof.
  induction m as [|[i x] m IH]; cbn [obj_insert obj_get].
  - done.
  - destruct (decide (k' = i)) as [->|Hi]; cbn [obj_get].
    + by destruct (decide (k = i)).
    + destruct (ord_ltb k' i); cbn [obj_get]; [by destruct (decide (k = k'))|].
      rewrite IH. destruct (decide (k = i)) as [->|]; [|done]. destruct (decide (i = k')); [congruence|done].
Qed.

Definition is_object (v : Value) : Prop := exists m, v = Object m.
Definition indexable (v : Value) : Prop := v = Null \/ is_object v.

Lemma get_field_set {E} v k x w k' :
  set_index (E := E) v k x = Ok w -> get_field w k' = if decide (k' = k) then Some x else get_field v k'.
Proof. destruct v; cbn; intros [= <-]; cbn; [done|]. apply obj_get_insert. Qed.

Lemma set_index_object {E} v k x w : set_index (E := E) v k x = Ok w -> is_object w.
Proof. destruct v; cbn; intros [= <-]; by eexists. Qed.

Lemma set_index_safe {E} v k x : indexable v -> set_index (E := E) v k x <> Panic.
Proof. by intros [->|[m ->]]. Qed.

Lemma get_field_object v k x : get_field v k = Some x -> is_object v.
Proof. destruct v; try done. intros _. by eexists. Qed.

Lemma field_Ok v k z : field v k = Ok z <-> exists x, get_field v (str k) = Some x /\ as_u64 x = Some z.
Proof. unfold field, num. rewrite bind_Ok. setoid_rewrite ok_or_Ok. done. Qed.

Lemma field_object v k z : field v k = Ok z -> is_object v.
Proof. intros (x & Hx & _)%field_Ok. by eapply get_field_object. Qed.

Lemma text_object v k t : text v k = Ok t -> is_object v.
Proof. unfold text. intros Ht. apply ok_or_Ok, bind_Some in Ht as (x & Hx & _). by eapply get_field_object. Qed.

Lemma json_object_object l : is_object (json_object l).
Proof. by eexists. Qed.

(** ** The executor's helpers do not panic *)

Lemma require_not_panic b e : require b e <> Panic.
Proof. by destruct b. Qed.
Lemma require_Ok b e u : require b e = Ok u <-> b = true.
Proof. destruct b, u; cbn; naive_solver. Qed.
Lemma num_not_panic v : num v <> Panic.
Proof. apply ok_or_not_panic. Qed.
Lemma field_not_panic v k : field v k <> Panic.
Proof. unfold field. no_panic. apply num_not_panic. Qed.
Lemma text_not_panic v k : text v k <> Panic.
Proof. apply ok_or_not_panic. Qed.
Lemma add_not_panic a b : add a b <> Panic.
Proof. apply ok_or_not_panic. Qed.
Lemma field_or_not_panic v k d : field_or v k d <> Panic.
Proof. unfold field_or. destruct (get_field v (str k)); [apply num_not_panic|done]. Qed.
Lemma limit_not_panic cfg name : limit cfg name <> Panic.
Proof. apply field_not_panic. Qed.
Lemma and_then_not_panic a b : a <> Panic -> b <> Panic -> and_then a b <> Panic.
Proof. intros Ha Hb. unfold and_then. apply bind_not_panic; [done|]. by intros [] _. Qed.
Lemma map_err_not_panic {E F A} (f : E -> F) (r : result E A) : r <> Panic -> map_err f r <> Panic.
Proof. by destruct r. Qed.
Lemma u_div_not_panic {E} a b : b <> 0 -> u_div (E := E) a b <> Panic.
Proof. intros Hb. unfold u_div. by rewrite (proj2 (Z.eqb_neq _ _)). Qed.

Create HintDb nopanic.
#[export] Hint Resolve require_not_panic num_not_panic field_not_panic text_not_panic add_not_panic field_or_not_panic
  limit_not_panic and_then_not_panic map_err_not_panic ok_or_not_panic fail_if_not_panic u_div_not_panic
  set_index_safe : nopanic.

(** Close the panic obligations of a chain of fallible helpers. *)
Ltac calm :=
  repeat first
    [ progress no_panic
    | solve [eauto with nopanic]
    | apply and_then_not_panic
    | match goal with
      | |- (if ?b then _ else _) <> Panic => destruct b
      | |- (match ?o with Some _ => _ | None => _ end) <> Panic => destruct o
      end ].

(** ** Well-formed ledgers *)

Definition value_ok (k : bstring) (v : Value) : Prop :=
  (starts_with k (str "account:") = true -> is_object v) /\
  (starts_with k (str "contribution:") = true -> indexable (index v (str "votes"))) /\
  (starts_with k (str "release:") = true -> indexable (index v (str "claims"))).
Definition state_ok (st : State) : Prop := map_Forall value_ok st.

(** Configurations whose divisors are not zero and whose fee table has an entry per tag. *)
Definition config_ok (cfg : Config) : Prop :=
  length (fees cfg) = 13%nat /\
  limit cfg "candidate_round_blocks" <> Ok 0 /\ limit cfg "subsidy_halving_interval" <> Ok 0.

Definition vmap (s : TxState) : State := writes (t_view s) ∪ base (t_view s).

Lemma current_vmap s k : current (t_view s) k = vmap s !! k.
Proof.
  unfold current, vmap. rewrite lookup_union. destruct (writes (t_view s) !! k), (base (t_view s) !! k); done.
Qed.

(** Two literal prefixes that differ at some position. *)
Fixpoint clash (s p : list Z) : bool :=
  match s, p with a :: s, b :: p => if a =? b then clash s p else true | _, _ => false end.

Lemma clash_prefix s p x : clash s p = true -> starts_with (s ++ x) p = false.
Proof.
  intros Hc. apply bool_decide_eq_false. intros [y Hy]. revert p Hc Hy.
  induction s as [|a s IH]; intros [|b p] Hc; try done. cbn in Hc. intros [= -> Hy].
  rewrite Z.eqb_refl in Hc. by eapply IH.
Qed.

Lemma prefix_same (p x : bstring) : starts_with (p ++ x) p = true.
Proof. apply bool_decide_eq_true. by apply prefix_app_r. Qed.

(** Decide a literal prefix of a key built from a literal prefix. *)
Ltac prefixes :=
  repeat match goal with
  | |- context [starts_with (str ?s ++ ?x) (str ?s)] => rewrite (prefix_same (str s) x)
  | |- context [starts_with (account_key ?x) ?p] => change (account_key x) with (str "account:" ++ x)
  | |- context [starts_with (str ?s ++ ?x) (str ?p)] => rewrite (clash_prefix (str s) (str p) x) by reflexivity
  | |- context [starts_with (str ?s) (str ?p)] =>
      let b := eval vm_compute in (starts_with (str s) (str p)) in change (starts_with (str s) (str p)) with b
  end.

Ltac value_ok_tac := unfold value_ok; prefixes; split_and!; try done; intros _.

Lemma indexable_object v : is_object v -> indexable v.
Proof. by right. Qed.
#[export] Hint Resolve indexable_object field_object text_object set_index_object json_object_object : nopanic.

(** ** The safety judgement *)

Definition inv (s : TxState) : Prop := state_ok (vmap s) /\ 0 <= p_pos (t_payload s).
Definition ok {A} (c : Tx A) (Q : A -> Prop) : Prop := forall s, inv s ->
  match c s with Ok (a, s') => inv s' /\ Q a | Err _ => True | Panic => False end.

Lemma ok_bind {A B} (c : Tx A) (f : A -> Tx B) Q R :
  ok c Q -> (forall a, Q a -> ok (f a) R) -> ok (c ≫= f) R.
Proof.
  intros Hc Hf s Hs. unfold mbind, Tx_bind. specialize (Hc s Hs). destruct (c s) as [[a s']| |]; cbn; try done.
  destruct Hc as [Hs' Ha]. apply (Hf a Ha s' Hs').
Qed.

Lemma ok_weaken {A} (c : Tx A) (Q R : A -> Prop) : ok c Q -> (forall a, Q a -> R a) -> ok c R.
Proof. intros Hc HQ s Hs. specialize (Hc s Hs). destruct (c s) as [[a s']| |]; naive_solver. Qed.

Lemma ok_liftr {A} (r : PonResult A) : r <> Panic -> ok (liftr r) (fun a => r = Ok a).
Proof. intros Hr s Hs. unfold liftr. by destruct r. Qed.

Lemma ok_ret {A} (a : A) : ok (mret a) (fun b => b = a).
Proof. intros s Hs. done. Qed.

Lemma ok_get k : ok (get k) (fun o => forall v, o = Some v -> value_ok k v).
Proof. intros s Hs. cbn. split; [exact Hs|]. intros v Hv. rewrite current_vmap in Hv. by eapply (proj1 Hs). Qed.

Lemma vmap_put k v s : vmap (mkTxState (mkView (base (t_view s)) (<[k := v]> (writes (t_view s))) (log_read (t_view s) k)
    (scans (t_view s))) (t_payload s)) = <[k := v]> (vmap s).
Proof. unfold vmap. cbn. by rewrite insert_union_l. Qed.

Lemma ok_put k v : value_ok k v -> ok (put k v) (fun _ => True).
Proof. intros Hv s Hs. cbn. split; [|done]. unfold inv. rewrite vmap_put. split; [|apply Hs]. apply map_Forall_insert_2; [done|apply Hs]. Qed.

Lemma ok_scan p : ok (scan p) (fun _ => True).
Proof. intros s Hs. done. Qed.

Lemma ok_take n : 0 <= n -> ok (take_n n) (fun b => zlen b = n).
Proof.
  intros Hn s [Hs Hp]. unfold take_n, checked_add. destruct (p_pos _ + n <=? u64_max); cbn; [|done].
  destruct (p_pos _ + n <=? zlen _) eqn:E; cbn; [|done]. bprop. split; [split; [exact Hs|cbn; lia]|].
  unfold zlen in *. rewrite length_take, length_drop. lia.
Qed.

Lemma ok_read_hash : ok read_hash (fun b => zlen b = 32).
Proof. by apply ok_take. Qed.

Lemma ok_read_u64 : ok read_u64 (fun _ => True).
Proof. unfold read_u64. eapply ok_bind; [by apply ok_take|]. intros b _. eapply ok_weaken; [apply ok_ret|done]. Qed.

Lemma ok_read_byte : ok read_byte (fun _ => True).
Proof.
  unfold read_byte. eapply ok_bind; [by apply ok_take|]. intros b Hb. eapply ok_weaken; [|done].
  apply ok_liftr, expect_not_panic. by destruct b.
Qed.

Lemma ok_end : ok (fun s : TxState =>
  _ ← require (p_pos (t_payload s) =? zlen (p_bytes (t_payload s))) "LENGTH"; Ok (tt, s)) (fun _ => True).
Proof. intros s Hs. by destruct (_ =? _). Qed.

Lemma ok_account who : ok (account who) is_object.
Proof.
  unfold account. eapply ok_bind; [apply ok_get|]. intros o Ho. eapply ok_weaken; [apply ok_ret|]. intros a ->.
  destruct o as [v|]; [|apply json_object_object]. destruct (Ho v eq_refl) as [Ha _]. apply Ha. by prefixes.
Qed.

(** Step through a computation; panic obligations go to [calm]. *)
Ltac ok_step :=
  match goal with
  | |- ok ((if _ then _ else _) ≫= _) _ => apply (ok_bind _ _ (fun _ => True))
  | |- ok (_ ≫= _) _ => eapply ok_bind
  | |- ok (liftr _) _ => first [apply ok_liftr | eapply ok_weaken; [apply ok_liftr|]]
  | |- ok (mret _) _ => first [apply ok_ret | eapply ok_weaken; [apply ok_ret|]]
  | |- ok (get _) _ => apply ok_get
  | |- ok (put _ _) _ => first [apply ok_put | eapply ok_weaken; [apply ok_put|]]
  | |- ok (scan _) _ => apply ok_scan
  | |- ok (take_n _) _ => apply ok_take; lia
  | |- ok read_hash _ => apply ok_read_hash
  | |- ok read_u64 _ => apply ok_read_u64
  | |- ok read_byte _ => apply ok_read_byte
  | |- ok (account _) _ => apply ok_account
  | |- ok (match ?p with pair _ _ => _ end) _ => destruct p
  | |- ok (if ?b then _ else _) _ => destruct b
  | |- forall _, _ -> ok _ _ => intros ? ?; cbv beta in *
  | |- forall _, _ -> True => done
  | |- _ <> Panic => solve [calm]
  end.
Ltac oks := repeat ok_step.

Lemma account_value_ok who v : is_object v -> value_ok (account_key who) v.
Proof. intros Hv. by value_ok_tac. Qed.
#[export] Hint Resolve account_value_ok : nopanic.

Lemma ok_credit who n : ok (credit who n) (fun _ => True).
Proof. unfold credit. oks. eauto with nopanic. Qed.

Lemma ok_debit who n : ok (debit who n) (fun _ => True).
Proof. unfold debit. oks. eauto with nopanic. Qed.

Lemma ok_object `{CryptoCrates} p id :
  ok (object p id) (fun kv => kv.1 = str p ++ hex_encode id /\ value_ok kv.1 kv.2).
Proof.
  unfold object. oks. intros kv ->. cbn. split; [done|].
  match goal with Hv : ok_or ?o _ = Ok ?v, Ho : forall v, ?o = Some v -> _ |- _ => apply Ho; by apply ok_or_Ok in Hv end.
Qed.

Lemma try_fold_calm {A B} (f : B -> A -> PonResult B) l b : (forall b a, f b a <> Panic) -> try_fold f b l <> Panic.
Proof. intros Hf. by apply (try_fold_not_panic (fun _ => True)). Qed.
Lemma try_map_calm {A B} (f : A -> PonResult B) l : (forall a, f a <> Panic) -> try_map f l <> Panic.
Proof. intros Hf. by apply try_map_not_panic. Qed.
#[export] Hint Resolve try_fold_calm try_map_calm : nopanic.

Lemma count_pending_not_panic d acc v : count_pending d acc v <> Panic.
Proof. unfold count_pending. destruct acc. calm. Qed.
#[export] Hint Resolve count_pending_not_panic : nopanic.

Lemma ok_deadline_with cfg d h l : ok (deadline_with_lifetime cfg d h l) (fun _ => True).
Proof. unfold deadline_with_lifetime. oks. Qed.

Lemma ok_deadline cfg d h : ok (deadline cfg d h) (fun _ => True).
Proof. unfold deadline. oks. apply ok_deadline_with. Qed.

Lemma ok_repeat {A} n (f : A -> Tx A) a (Q : A -> Prop) :
  Q a -> (forall a, Q a -> ok (f a) Q) -> ok (repeat_tx n f a) Q.
Proof.
  intros Ha Hf. revert a Ha. induction n as [|n IH]; intros a Ha; cbn; [oks; by intros ? ->|].
  eapply ok_bind; [by apply Hf|done].
Qed.

Lemma ok_put_all rows : Forall (fun row => value_ok row.1 row.2) rows -> ok (put_all rows) (fun _ => True).
Proof. induction 1 as [|[k v] rows Hv _ IH]; cbn; oks; done. Qed.

(** ** Values written by the commands *)

Lemma index_set {E} v k x w k' :
  set_index (E := E) v k x = Ok w -> k' <> k -> index w k' = index v k'.
Proof. intros Hs Hk. unfold index. rewrite (get_field_set _ _ _ _ k' Hs). by rewrite decide_False. Qed.

Lemma index_set_eq {E} v k x w : set_index (E := E) v k x = Ok w -> index w k = x.
Proof. intros Hs. unfold index. rewrite (get_field_set _ _ _ _ k Hs). by rewrite decide_True. Qed.

(** Updating a field other than the votes and claims keeps a value well formed. *)
Lemma value_ok_set {E} k v f x w :
  set_index (E := E) v (str f) x = Ok w -> str f <> str "votes" -> str f <> str "claims" -> value_ok k v -> value_ok k w.
Proof.
  intros Hs Hv Hc (Ha & Hvotes & Hclaims). split_and!.
  - intros _. by eapply set_index_object.
  - intros Hk. rewrite (index_set _ _ _ _ _ Hs) by done. by apply Hvotes.
  - intros Hk. rewrite (index_set _ _ _ _ _ Hs) by done. by apply Hclaims.
Qed.

(** Obligations other than releases, artifacts, work and the model pointer. *)
Lemma value_ok_free k v :
  starts_with k (str "account:") = false -> starts_with k (str "contribution:") = false ->
  starts_with k (str "release:") = false -> value_ok k v.
Proof. intros H1 H2 H3. split_and!; congruence. Qed.

Section command_safety.
Context `{CryptoCrates} `{SerdeJson}.

Lemma hash32_not_panic s : hash32 s <> Panic.
Proof. unfold hash32. calm. Qed.

Lemma decode_hash32_not_panic label s : decode_hash32 label s <> Panic.
Proof. unfold decode_hash32. calm. Qed.

Lemma verify_not_panic k msg sig : verify_hex_strict k msg sig <> Panic.
Proof.
  unfold verify_hex_strict, verifying_key_from_hex, decode_signature. no_panic. apply decode_hash32_not_panic.
Qed.

Lemma canonical_not_panic v : canonical v <> Panic.
Proof.
  unfold canonical. calm. revert v. fix IH 1. intros [|b|n|s|xs|m]; cbn [visit]; try done; try apply require_not_panic.
  - induction xs as [|x xs IHxs]; [done|]. apply bind_not_panic; [apply IH|]. intros _ _. apply IHxs.
  - induction m as [|[k v] m IHm]; [done|]. apply bind_not_panic; [apply require_not_panic|]. intros _ _.
    apply bind_not_panic; [apply IH|]. intros _ _. apply IHm.
Qed.

Lemma pair_up_nonempty l : (1 < length l)%nat -> pair_up l <> [].
Proof. destruct l as [|a [|b l]]; cbn; [lia|lia|done]. Qed.

Lemma pad_even_length l : (length l <= length (pad_even l))%nat.
Proof. unfold pad_even. destruct (Nat.even _); [done|]. rewrite length_app. lia. Qed.

Lemma reduce_leaves_nonempty fuel l : l <> [] -> reduce_leaves fuel l <> [].
Proof.
  revert l. induction fuel as [|fuel IH]; intros l Hl; cbn [reduce_leaves]; [done|]. destruct (1 <? length l)%nat eqn:E; [|done].
  apply Nat.ltb_lt in E. apply IH, pair_up_nonempty. pose proof (pad_even_length l). lia.
Qed.

Lemma allocation_root_not_panic l : allocation_root l <> Panic.
Proof.
  unfold allocation_root. apply bind_not_panic; [apply require_not_panic|]. intros u Hu. apply require_Ok in Hu.
  apply expect_not_panic. destruct l as [|a l]; [done|].
  pose proof (reduce_leaves_nonempty (length (a :: l)) (a :: l) ltac:(done)) as Hne. destruct (reduce_leaves _ _); [done|by eexists].
Qed.

Lemma min_score_not_panic votes : min_score votes <> Panic.
Proof. unfold min_score. apply bind_not_panic; [eauto with nopanic|]. by intros [] _. Qed.

Context (cfg : Config) (Hcfg : config_ok cfg).

Lemma round_blocks_nonzero z : limit cfg "candidate_round_blocks" = Ok z -> z <> 0.
Proof. destruct Hcfg as (_ & Hne & _). congruence. Qed.
Hint Resolve hash32_not_panic verify_not_panic canonical_not_panic allocation_root_not_panic min_score_not_panic
  round_blocks_nonzero : nopanic.

Lemma active_candidate_not_panic v cur h : active_candidate v cur h cfg <> Panic.
Proof. unfold active_candidate. calm. Qed.
Hint Resolve active_candidate_not_panic : nopanic.

Lemma count_active_not_panic cur h n v : count_active cur h cfg n v <> Panic.
Proof. unfold count_active. calm. Qed.
Hint Resolve count_active_not_panic : nopanic.

Ltac cmd_step :=
  first [ ok_step
        | match goal with
          | |- ok (credit _ _) _ => apply ok_credit
          | |- ok (debit _ _) _ => apply ok_debit
          | |- ok (object _ _) _ => apply ok_object
          | |- ok (deadline _ _ _) _ => apply ok_deadline
          | |- ok (deadline_with_lifetime _ _ _ _) _ => apply ok_deadline_with
          | Hkv : _ = _ /\ value_ok _ _ |- _ => cbn [fst snd] in Hkv; destruct Hkv as [-> Hkv]
          end ].
Ltac cmd := repeat cmd_step.
(** A key whose values are unconstrained. *)
Ltac free_key := apply value_ok_free; by prefixes.

Lemma ok_transfer sender : ok (cmd_transfer sender) (fun _ => True).
Proof. unfold cmd_transfer. cmd. Qed.
Lemma ok_reserve_task tx sender h : ok (cmd_reserve_task cfg tx sender h) (fun _ => True).
Proof. unfold cmd_reserve_task. cmd. free_key. Qed.
Lemma ok_cancel_task sender : ok (cmd_cancel_task sender) (fun _ => True).
Proof. unfold cmd_cancel_task. cmd. free_key. Qed.
Lemma ok_record_receipt sender h : ok (cmd_record_receipt sender h) (fun _ => True).
Proof. unfold cmd_record_receipt. cmd. free_key. Qed.
Lemma ok_accept_task sender h : ok (cmd_accept_task sender h) (fun _ => True).
Proof. unfold cmd_accept_task. cmd. free_key. Qed.
Lemma ok_register_work : ok cmd_register_work (fun _ => True).
Proof. unfold cmd_register_work. cmd. free_key. Qed.
Lemma ok_reserve_quota tx sender h : ok (cmd_reserve_quota cfg tx sender h) (fun _ => True).
Proof. unfold cmd_reserve_quota. cmd. free_key. Qed.
Lemma ok_consume_quota tx sender fee h : ok (cmd_consume_quota cfg tx sender fee h) (fun _ => True).
Proof. unfold cmd_consume_quota. cmd. all: free_key. Qed.

Lemma ok_contribute tx sender h : ok (cmd_contribute cfg tx sender h) (fun _ => True).
Proof.
  unfold cmd_contribute. cmd.
  - value_ok_tac. right. by eexists.
  - free_key.
Qed.

Lemma votes_object {E} o votes k x w k' :
  set_index (E := E) (index o (str "votes")) k x = Ok votes -> set_index (E := E) o (str "votes") votes = Ok w ->
  value_ok (str "contribution:" ++ k') w.
Proof. intros Hv Ho. value_ok_tac. rewrite (index_set_eq _ _ _ _ Ho). right. by eapply set_index_object. Qed.

Lemma and_then_text_object v k f b r : and_then (text v k ≫= f) b = Ok r -> is_object v.
Proof.
  intros Hr. apply bind_Ok in Hr as (x & Hx & _). apply bind_Ok in Hx as (t & Ht & _). by eapply text_object.
Qed.
Lemma and_then_field_object v k f b r : and_then (field v k ≫= f) b = Ok r -> is_object v.
Proof.
  intros Hr. apply bind_Ok in Hr as (x & Hx & _). apply bind_Ok in Hx as (t & Ht & _). by eapply field_object.
Qed.
Hint Resolve and_then_text_object and_then_field_object : nopanic.

Lemma votes_indexable k v : value_ok (str "contribution:" ++ k) v -> indexable (index v (str "votes")).
Proof. intros (_ & Hv & _). apply Hv, prefix_same. Qed.
Lemma claims_indexable k v : value_ok (str "release:" ++ k) v -> indexable (index v (str "claims")).
Proof. intros (_ & _ & Hv). apply Hv, prefix_same. Qed.
Hint Resolve votes_indexable claims_indexable : nopanic.

Lemma ok_evaluate sender : ok (cmd_evaluate cfg sender) (fun _ => True).
Proof.
  unfold cmd_evaluate. cmd.
  match goal with
  | Hv : set_index (index ?o _) _ _ = Ok ?votes, Ho : set_index ?o (str "votes") ?votes = Ok ?o',
    Hi : (if ?b then _ else _) = Ok ?w |- _ =>
      pose proof (votes_object _ _ _ _ _ (hex_encode a) Hv Ho) as Hok; destruct b
  end.
  - rinv. eapply value_ok_set; [eassumption|done..|]. eapply value_ok_set; [eassumption|done..|]. done.
  - rinv. by subst.
Qed.

Lemma ok_adopt cur acc :
  Forall (fun row => value_ok row.1 row.2) acc.1.2 ->
  ok (adopt_step cur acc) (fun acc => Forall (fun row => value_ok row.1 row.2) acc.1.2).
Proof.
  destruct acc as [[leaves adopted] total]. cbn [fst snd]. intros Had. unfold adopt_step. cmd.
  intros acc ->. cbn [fst snd]. apply Forall_app. split; [done|]. constructor; [|done].
  eapply value_ok_set; [eassumption|done..|]. done.
Qed.

Lemma ok_publish_release sender h : ok (cmd_publish_release cfg sender h) (fun _ => True).
Proof.
  unfold cmd_publish_release.
  assert (Hrep : forall n cur, ok (repeat_tx n (adopt_step cur) ([], [], 0))
    (fun acc => Forall (fun row : bstring * Value => value_ok row.1 row.2) acc.1.2))
    by (intros n cur; apply ok_repeat; [constructor|apply ok_adopt]).
  repeat first [apply Hrep | cmd_step].
  all: try solve [value_ok_tac; right; by eexists]; try free_key.
  - by apply ok_put_all.
  - eapply value_ok_set; [eassumption|done..|]. done.
Qed.

Lemma ok_climb leaf : ok (climb leaf) (fun _ => True).
Proof. unfold climb. cmd. Qed.

Lemma ok_claim_reward tx sender h : ok (cmd_claim_reward tx sender h) (fun _ => True).
Proof.
  unfold cmd_claim_reward.
  assert (Hrep : forall n leaf, ok (repeat_tx n climb leaf) (fun _ => True))
    by (intros n leaf; apply ok_repeat; [done|intros ? _; apply ok_climb]).
  repeat first [apply Hrep | cmd_step].
  all: match goal with
    | Hkv : value_ok (str "release:" ++ ?x) ?o, Hs : set_index ?o (str "remaining") _ = Ok ?o' |- _ =>
        pose proof (value_ok_set _ _ _ _ _ Hs ltac:(done) ltac:(done) Hkv) as Hok'
    end.
  - eauto with nopanic.
  - value_ok_tac. match goal with Ho : set_index _ (str "claims") _ = Ok _ |- _ => rewrite (index_set_eq _ _ _ _ Ho) end.
    right. eauto with nopanic.
Qed.

Lemma ok_command tx sender fee h : ok (command cfg tx sender fee h) (fun _ => True).
Proof.
  assert (Herr : ok (liftr (Err "VERSION"%string)) (fun _ : () => True)) by (intros s Hs; done).
  unfold command. destruct (e_tag tx) as [|t|t]; try exact Herr.
  do 4 (try (destruct t; try exact Herr)).
  all: match goal with
    | |- ok (cmd_transfer _) _ => apply ok_transfer
    | |- ok (cmd_reserve_task _ _ _ _) _ => apply ok_reserve_task
    | |- ok (cmd_cancel_task _) _ => apply ok_cancel_task
    | |- ok (cmd_record_receipt _ _) _ => apply ok_record_receipt
    | |- ok (cmd_accept_task _ _) _ => apply ok_accept_task
    | |- ok (cmd_contribute _ _ _ _) _ => apply ok_contribute
    | |- ok (cmd_evaluate _ _) _ => apply ok_evaluate
    | |- ok (cmd_publish_release _ _ _) _ => apply ok_publish_release
    | |- ok (cmd_claim_reward _ _ _) _ => apply ok_claim_reward
    | |- ok (cmd_reserve_quota _ _ _ _) _ => apply ok_reserve_quota
    | |- ok (cmd_consume_quota _ _ _ _ _) _ => apply ok_consume_quota
    | |- ok (cmd_register_work) _ => apply ok_register_work
    end.
Qed.

(** An envelope that was decoded has a known tag. *)
Definition tag_ok (p : Prepared) : Prop := 0 <= e_tag (pr_envelope p) <= 12.

Lemma transaction_fee_not_panic p : tag_ok p -> transaction_fee p cfg <> Panic.
Proof.
  intros Ht. unfold transaction_fee. calm. apply expect_not_panic, lookup_lt_is_Some_2.
  destruct Hcfg as [-> _]. unfold tag_ok in Ht. lia.
Qed.
Hint Resolve transaction_fee_not_panic : nopanic.

Lemma envelope_id_not_panic e : envelope_id sha256 e <> Panic.
Proof. unfold envelope_id, encode_envelope. no_panic. apply unsigned_not_panic. Qed.
Hint Resolve envelope_id_not_panic : nopanic.

Lemma ok_transaction p h : tag_ok p -> ok (run_transaction p h cfg) (fun _ => True).
Proof.
  intros Ht. unfold run_transaction. cbv zeta.
  repeat first [apply ok_command | apply ok_end | cmd_step].
  all: eauto with nopanic.
Qed.

(** Applying a prepared transaction to a well-formed ledger does not panic and
    leaves a well-formed ledger. *)
Lemma apply_prepared_safe b p h :
  state_ok b -> tag_ok p ->
  match apply_prepared b p h cfg with
  | Ok patch => state_ok (patch_apply patch b)
  | Err _ => True
  | Panic => False
  end.
Proof.
  intros Hb Ht. unfold apply_prepared.
  pose proof (ok_transaction p h Ht (mkTxState (View_new b) (mkPayload (e_payload (pr_envelope p)) 0))) as Hok.
  destruct (run_transaction p h cfg _) as [[[fee receipt] s]| |] eqn:E; cbn; try done.
  - destruct Hok as [[Hs _] _].
    + split; [|done]. unfold vmap. cbn. by rewrite (left_id_L ∅ (∪)).
    + unfold patch_apply. cbn. unfold vmap in Hs.
      edestruct (tracked_transaction p h cfg) with (b := ∅ : State) as [Eb _]; [|exact E|].
      * split; cbn; intros ? ? Hk; by rewrite lookup_empty in Hk.
      * cbn in Eb. by rewrite Eb in Hs.
  - apply Hok. split; [|done]. unfold vmap. cbn. by rewrite (left_id_L ∅ (∪)).
Qed.

End command_safety.

(** ** The mandatory transitions *)

(** Outcomes that do not panic and whose value satisfies [Q]. *)
Definition holds {A} (r : PonResult A) (Q : A -> Prop) : Prop :=
  match r with Ok a => Q a | Err _ => True | Panic => False end.

Lemma holds_bind {A B} (r : PonResult A) (f : A -> PonResult B) Q R :
  holds r Q -> (forall a, Q a -> holds (f a) R) -> holds (r ≫= f) R.
Proof. destruct r; cbn; auto. Qed.

Lemma holds_eq {A} (r : PonResult A) : r <> Panic -> holds r (fun a => r = Ok a).
Proof. by destruct r. Qed.

Lemma holds_fold {A B} (I : B -> Prop) (f : B -> A -> PonResult B) l b :
  I b -> (forall b a, a ∈ l -> I b -> holds (f b a) I) -> holds (try_fold f b l) I.
Proof.
  revert b. induction l as [|a l IH]; intros b Hb Hf; cbn [try_fold]; [done|].
  eapply holds_bind; [apply Hf; [by left|done]|]. intros b' Hb'. apply IH; [done|]. intros. apply Hf; [by right|done].
Qed.

Lemma holds_Ok {A} (r : PonResult A) (Q : A -> Prop) a : holds r Q -> r = Ok a -> Q a.
Proof. by intros Hr ->. Qed.

(** Step through a chain whose early steps only matter for panics. *)
Ltac holds_step :=
  match goal with
  | |- holds (_ ≫= _) _ => eapply holds_bind; [apply holds_eq; solve [calm]|intros ? ?; cbv beta in *]
  | |- holds (if ?b then _ else _) _ => destruct b eqn:?
  | |- holds (match ?p with pair _ _ => _ end) _ => destruct p
  | |- holds (Ok _) _ => cbn [holds]
  | |- holds (Err _) _ => exact I
  end.

Lemma bind_text_object {A} v k (f : bstring -> PonResult A) r : text v k ≫= f = Ok r -> is_object v.
Proof. intros Hr. apply bind_Ok in Hr as (t & Ht & _). by eapply text_object. Qed.
#[export] Hint Resolve bind_text_object : nopanic.

Section mandatory_safety.
Context `{CryptoCrates} `{SerdeJson}.
Context (cfg : Config) (Hcfg : config_ok cfg).
Hint Resolve canonical_not_panic : nopanic.

Let round_nz := round_blocks_nonzero cfg Hcfg.
Hint Resolve round_nz : nopanic.

Lemma delete_ok k st : state_ok st -> state_ok (delete k st).
Proof. intros Hs. by apply map_Forall_delete. Qed.
Lemma insert_ok k v st : value_ok k v -> state_ok st -> state_ok (<[k := v]> st).
Proof. intros. by apply map_Forall_insert_2. Qed.
Hint Resolve delete_ok insert_ok : nopanic.

Lemma account_of_state st who : state_ok st -> is_object (default empty_account (st !! account_key who)).
Proof.
  intros Hs. destruct (st !! account_key who) as [v|] eqn:E; cbn; [|apply json_object_object].
  destruct (Hs _ _ E) as [Ha _]. apply Ha. by prefixes.
Qed.
Hint Resolve account_of_state : nopanic.

Lemma credit_state_ok st who n : state_ok st -> holds (credit_state st who n) state_ok.
Proof. intros Hs. unfold credit_state. repeat holds_step. eauto with nopanic. Qed.

Lemma retire_step_ok cur h st k : state_ok st -> holds (retire_step cur h cfg st k) state_ok.
Proof.
  intros Hs. unfold retire_step, retire_candidate.
  repeat holds_step; eauto with nopanic.
  match goal with Hv : ok_or (st !! k) _ = Ok ?v |- _ => apply ok_or_Ok, Hs in Hv end.
  apply insert_ok; [|done]. eapply value_ok_set; [eassumption|done..|].
  match goal with
    | H1 : set_index _ (str "status") _ = Ok ?w, H2 : set_index ?w (str "votes") _ = Ok _ |- _ =>
        pose proof (value_ok_set _ _ _ _ _ H1 ltac:(done) ltac:(done) ltac:(eassumption)) as (Ha & _ & Hc);
        split_and!; [intros; eauto with nopanic|intros; rewrite (index_set_eq _ _ _ _ H2); right; by eexists|];
        intros; rewrite (index_set _ _ _ _ (str "claims") H2) by done; by apply Hc
    end.
Qed.

Lemma expire_step_ok acc row : state_ok acc.1 -> holds (expire_step acc row) (fun acc => state_ok acc.1).
Proof.
  destruct acc as [st receipts]. cbn [fst]. intros Hs. unfold expire_step.
  do 3 holds_step. eapply holds_bind; [by apply credit_state_ok|]. intros st' Hs'. repeat holds_step. cbn [fst].
  match goal with Hv : ok_or (st !! _) _ = Ok ?v |- _ => apply ok_or_Ok, Hs in Hv end.
  apply insert_ok; [|done]. eapply value_ok_set; [eassumption|done..|]. by eapply value_ok_set.
Qed.

Lemma mature_step_ok h st row : state_ok st -> holds (mature_step h st row) state_ok.
Proof. intros Hs. unfold mature_step. repeat holds_step; [|done]. apply credit_state_ok; eauto with nopanic. Qed.

Lemma delete_all_ok (ks : list bstring) st : state_ok st -> state_ok (foldl (fun st k => delete k st) st ks).
Proof. revert st. induction ks as [|k ks IH]; intros st Hs; cbn; [done|]. apply IH. by apply delete_ok. Qed.

Lemma collect_due_not_panic h due row : collect_due h due row <> Panic.
Proof. unfold collect_due. destruct row. calm. Qed.
Hint Resolve collect_due_not_panic : nopanic.

Lemma mandatory_ok st h : state_ok st -> holds (mandatory st h cfg) (fun r => state_ok r.1).
Proof.
  intros Hs. unfold mandatory. holds_step. eapply holds_bind; [apply holds_fold; [exact Hs|intros; by apply retire_step_ok]|].
  intros st1 Hs1. cbv zeta. do 2 holds_step.
  eapply holds_bind; [apply holds_fold with (I := fun acc => state_ok acc.1); [by apply delete_all_ok|intros; by apply expire_step_ok]|].
  intros [st2 receipts] Hs2. cbn [fst] in Hs2. cbv iota.
  eapply holds_bind; [apply holds_eq, try_map_calm; intros; calm|]. intros mature _.
  eapply holds_bind; [apply holds_fold; [exact Hs2|intros; by apply mature_step_ok]|]. intros st3 Hs3. done.
Qed.

End mandatory_safety.
