(* ===== verification/PonParallel.v ===== *)
(** * PonParallel: block execution is serial execution

    [serial_block] applies the transactions one after another and knows neither
    workers nor predictions.  The pool is shown to compute the predictions of all
    transactions in order, a prediction that is still current to be what the
    replay computes, and so every admissible worker count to give the serial
    outcome, errors included. *)

From stdpp Require Import base gmap list sorting strings.
From S2P Require Import Prelude Crypto Wire WireTheorems PonState PonExecutor PonTracked PonSafety.

(** ** The pool *)

(** The rows of the given positions. *)
Definition rows_at {A} (ps : list A) (idx : list nat) : list (nat * A) := omap (fun i => pair i <$> ps !! i) idx.

Lemma rows_at_app {A} (ps : list A) i j : rows_at ps (i ++ j) = rows_at ps i ++ rows_at ps j.
Proof. unfold rows_at. by rewrite omap_app. Qed.

Lemma rows_at_mjoin {A} (ps : list A) ll : mjoin (rows_at ps <$> ll) = rows_at ps (mjoin ll).
Proof.
  induction ll as [|l ll IH]; [done|]. rewrite fmap_cons. change (rows_at ps l ++ mjoin (rows_at ps <$> ll) = rows_at ps (l ++ mjoin ll)).
  by rewrite IH, rows_at_app.
Qed.

Lemma rows_at_cons {A} (ps : list A) i idx p : ps !! i = Some p -> rows_at ps (i :: idx) = (i, p) :: rows_at ps idx.
Proof. intros Hp. unfold rows_at. cbn. by rewrite Hp. Qed.

Lemma rows_at_seq {A} (ps : list A) : rows_at ps (seq 0 (length ps)) = imap pair ps.
Proof.
  induction ps as [|p ps IH] using rev_ind; [done|].
  rewrite length_app, Nat.add_1_r, seq_S, rows_at_app, imap_app. cbn [plus imap]. f_equal.
  - rewrite <- IH. unfold rows_at. apply list_omap_ext, Forall2_same_length_lookup. split; [done|].
    intros i x y Hx Hy. apply lookup_seq in Hx as [-> Hi], Hy as [-> _]. cbn. by rewrite lookup_app_l.
  - rewrite (rows_at_cons _ _ _ p); [cbn; by rewrite Nat.add_0_r|]. by rewrite lookup_app_r, Nat.sub_diag by lia.
Qed.

(** The workers' positions are all positions. *)
Lemma worker_indices_partition n count :
  (0 < count)%nat -> mjoin (worker_indices n count <$> seq 0 count) ≡ₚ seq 0 n.
Proof.
  intros Hc. apply NoDup_Permutation.
  - assert (Hk : forall l, NoDup l -> NoDup (mjoin (worker_indices n count <$> l))); [|apply Hk, NoDup_seq].
    induction 1 as [|w l Hw Hl IH]; cbn; [constructor|]. apply NoDup_app. split_and!.
    + apply NoDup_filter, NoDup_seq.
    + intros i Hi Hj. apply list_elem_of_filter in Hi as [Hi _]. apply list_elem_of_join in Hj as (l' & Hj & Hl').
      apply list_elem_of_fmap in Hl' as (w' & -> & Hw'). apply list_elem_of_filter in Hj as [Hj _]. congruence.
    + exact IH.
  - apply NoDup_seq.
  - intros i. rewrite list_elem_of_join. split.
    + intros (l & Hi & Hl). apply list_elem_of_fmap in Hl as (w & -> & _). by apply list_elem_of_filter in Hi as [_ Hi].
    + intros Hi. exists (worker_indices n count (i mod count)). split.
      * by apply list_elem_of_filter.
      * apply list_elem_of_fmap. eexists. split; [done|]. apply elem_of_seq. pose proof (Nat.mod_upper_bound i count). lia.
Qed.

(** Rows in index order. *)
Lemma sort_rows {A} (rows : list (nat * A)) (ps : list A) :
  rows ≡ₚ imap pair ps -> sort_by_key (fun row => Z.of_nat row.1) rows = imap pair ps.
Proof.
  intros Hp. apply (StronglySorted_unique_strong (key_le (fun row : nat * A => Z.of_nat row.1))).
  - intros [i a] [j b] Hi Hj Hij Hji. rewrite sort_by_key_perm, Hp in Hi.
    assert (i = j) as ->.
    { pose proof (anti_symm ord_le _ _ Hij Hji) as E. cbn in E. lia. }
    apply elem_of_lookup_imap in Hi as (i & x & [= -> ->] & Hx), Hj as (j & y & [= -> ->] & Hy). congruence.
  - apply StronglySorted_merge_sort; apply _.
  - assert (Hk : forall k, StronglySorted (key_le (fun row : nat * A => Z.of_nat row.1)) (imap (fun i => pair (k + i)%nat) ps));
      [|exact (Hk O)].
    clear Hp rows. induction ps as [|p ps IH]; intros k; cbn; constructor.
    + rewrite (imap_ext _ (fun i => pair (S k + i)%nat)) by (intros; cbn; f_equal; lia). apply IH.
    + apply Forall_forall. intros [j b] Hj. apply elem_of_lookup_imap in Hj as (i & x & [= -> ->] & Hx).
      unfold key_le, ord_le, ord_leb. cbn. destruct (Z.compare_spec (Z.of_nat (k + 0)) (Z.of_nat (k + S i))); [done..|lia].
  - by rewrite sort_by_key_perm.
Qed.

Lemma worker_rows_ok work transactions ps idx count w :
  Forall2 (fun raw p => work raw = Ok p) transactions ps ->
  idx = worker_indices (length transactions) count w ->
  worker_rows work transactions count w = Ok (rows_at ps idx).
Proof.
  intros Hps ->. unfold worker_rows. assert (Hin : Forall (fun i => (i < length transactions)%nat)
    (worker_indices (length transactions) count w)).
  { apply Forall_forall. intros i Hi. apply list_elem_of_filter in Hi as [_ Hi]. apply elem_of_seq in Hi. lia. }
  induction Hin as [|i idx Hi _ IH]; [done|]. cbn [try_map].
  apply lookup_lt_is_Some_2 in Hi as [raw Hraw]. destruct (Forall2_lookup_l _ _ _ _ _ Hps Hraw) as (p & Hp & Hw).
  rewrite Hraw. cbn [expect mbind result_bind]. rewrite Hw. cbn [mbind result_bind] in *. rewrite IH.
  by rewrite (rows_at_cons _ _ _ p).
Qed.

(** With every thread started and no panic, the pool returns the predictions in order. *)
Lemma run_pool_ok started work transactions ps count :
  (forall i, started i = true) -> (0 < count)%nat ->
  Forall2 (fun raw p => work raw = Ok p) transactions ps ->
  run_pool started work transactions count = Ok ps.
Proof.
  intros Hst Hc Hps. unfold run_pool.
  assert (Hs : forallb started (seq 0 count) = true) by (apply forallb_forall; intros; apply Hst).
  rewrite Hs. cbn [require mbind result_bind].
  set (idx := worker_indices (length transactions) count).
  assert (Hj : worker_rows work transactions count <$> seq 0 count = (fun w => Ok (rows_at ps (idx w))) <$> seq 0 count)
    by (apply list_fmap_ext; intros; by apply worker_rows_ok).
  rewrite Hj. replace (forallb _ _) with true
    by (symmetry; apply forallb_forall; intros r Hr%list_elem_of_In; by apply list_elem_of_fmap in Hr as (? & -> & _)).
  cbn [require mbind result_bind]. rewrite <- list_fmap_compose.
  replace (mjoin _) with (rows_at ps (mjoin (idx <$> seq 0 count)))
    by (by rewrite <- rows_at_mjoin, <- list_fmap_compose).
  assert (Hperm : rows_at ps (mjoin (idx <$> seq 0 count)) ≡ₚ imap pair ps).
  { rewrite <- rows_at_seq, <- (Forall2_length _ _ _ Hps). apply omap_Permutation, worker_indices_partition, Hc. }
  rewrite (sort_rows _ ps Hperm), length_imap, <- (Forall2_length _ _ _ Hps), Nat.eqb_refl.
  cbn [require mbind result_bind]. f_equal. clear. rewrite fmap_imap. cbn.
  induction ps as [|p ps IH]; [done|]. cbn. f_equal. exact IH.
Qed.

(** ** Serial execution *)

Section serial.
Context `{CryptoCrates} `{SerdeJson}.
Context (height : Z) (cfg : Config).

(** Prepare, apply and commit one transaction. *)
Definition serial_step (acc : State * list (list Z) * Z) (raw : list Z) : PonResult (State * list (list Z) * Z) :=
  let '(state, receipts, paid) := acc in
  prepared ← fst (prepare raw height cfg);
  patch ← apply_prepared state prepared height cfg;
  paid ← add paid (pa_fee patch);
  Ok (patch_apply patch state, receipts ++ [pa_receipt patch], paid).

Definition serial_block (parent : State) (transactions : list (list Z)) (miner parent_id : Hash) :
    PonResult (State * list (list Z) * Hash) :=
  max ← limit cfg "max_transactions";
  _ ← require (zlen transactions <=? max) "LIMIT";
  '(state, receipts) ← mandatory parent height cfg;
  '(state, receipts, paid) ← try_fold serial_step (state, receipts, 0) transactions;
  state ← finish_state state paid height miner parent_id cfg;
  root ← pon_root state;
  Ok (state, receipts, root).

(** An outcome without its metrics. *)
Definition outcome (r : PonResult Output) : PonResult (State * list (list Z) * Hash) :=
  o ← r; Ok (o_state o, o_receipts o, o_root o).

(** ** Predictions *)

Lemma predict_prepared st serial raw p :
  predict st serial height cfg raw = Ok p ->
  pd_prepared p = fst (prepare raw height cfg) /\
  forall r, pd_patch p = Some r -> r = (q ← pd_prepared p; apply_prepared st q height cfg).
Proof.
  unfold predict. destruct (prepare raw height cfg) as [prep n]. cbn [fst].
  destruct prep as [q|e|]; try done; destruct (serial || _); try (intros [= <-]; done).
  - cbn [mbind result_bind]. destruct (apply_prepared st q height cfg) eqn:E; try done; intros [= <-]; split; try done;
      cbn; intros r [= <-]; by rewrite E.
  - cbn. intros [= <-]. split; [done|]. cbn. by intros r [= <-].
Qed.

(** Whatever is selected is what a replay on the current state computes. *)
Lemma select_is_replay st0 serial raw p st c :
  predict st0 serial height cfg raw = Ok p ->
  ('(patch, _) ← select_patch serial height cfg st c p; Ok patch) =
  (q ← fst (prepare raw height cfg); apply_prepared st q height cfg).
Proof.
  intros Hp. destruct (predict_prepared _ _ _ _ Hp) as [Hprep Hpatch]. unfold select_patch. rewrite Hprep in *.
  destruct c as [[? ?] ?]. destruct (fst (prepare raw height cfg)) as [q|e|]; cbn [mbind result_bind]; try done.
  assert (Hre : forall f : Patch -> Z * Z * Z,
    ('(patch, _) ← (patch ← apply_prepared st q height cfg; Ok (patch, f patch)); Ok patch) = apply_prepared st q height cfg)
    by (intros f; by destruct (apply_prepared st q height cfg)).
  destruct (if serial then None else pd_patch p) as [r|] eqn:E; [|apply Hre].
  destruct serial; [done|]. specialize (Hpatch r E). cbn [mbind result_bind] in Hpatch. subst r.
  destruct (apply_prepared st0 q height cfg) as [patch| |] eqn:Ea; try apply Hre.
  destruct (patch_current patch st) eqn:Ec; [|apply Hre]. cbn. symmetry. by eapply current_patch_is_replay.
Qed.

Definition erase (r : PonResult Commit) : PonResult (State * list (list Z) * Z) := c ← r; Ok (fst c).

Lemma pon_commit_is_serial st0 serial raw p acc c :
  predict st0 serial height cfg raw = Ok p -> erase (commit_step serial height cfg (acc, c) p) = serial_step acc raw.
Proof.
  intros Hp. destruct acc as [[st receipts] paid]. unfold commit_step, serial_step.
  pose proof (select_is_replay _ _ _ _ st c Hp) as Hsel.
  destruct (fst (prepare raw height cfg)) as [q|e|]; cbn [mbind result_bind] in *.
  - rewrite <- Hsel. destruct (select_patch serial height cfg st c p) as [[patch c']| |]; cbn [mbind result_bind]; try done.
    by destruct (add paid (pa_fee patch)).
  - by destruct (select_patch serial height cfg st c p) as [[patch c']| |]; cbn in *; simplify_eq.
  - by destruct (select_patch serial height cfg st c p) as [[patch c']| |]; cbn in *; simplify_eq.
Qed.

Lemma pon_commits_are_serial st0 serial transactions ps acc c :
  Forall2 (fun raw p => predict st0 serial height cfg raw = Ok p) transactions ps ->
  erase (try_fold (commit_step serial height cfg) (acc, c) ps) = try_fold serial_step acc transactions.
Proof.
  intros Hps. revert acc c. induction Hps as [|raw p transactions ps Hp _ IH]; intros acc c; [done|].
  cbn [try_fold]. rewrite <- (pon_commit_is_serial _ _ _ _ acc c Hp).
  destruct (commit_step serial height cfg (acc, c) p) as [[acc' c']| |]; cbn [erase mbind result_bind fst]; [apply IH|done..].
Qed.

(** ** Safety of the block *)

Context (Hcfg : config_ok cfg).

Lemma prepare_safe raw : Forall is_byte raw -> holds (fst (prepare raw height cfg)) tag_ok.
Proof.
  intros Hb. unfold prepare.
  pose proof (decode_envelope_no_panic raw Hb) as Hnp. pose proof (decoded_tag raw) as Htag.
  destruct (decode_envelope raw) as [tx| |]; cbn [map_err mbind result_bind]; try done.
  destruct (require (e_network tx =?? network cfg) "NETWORK") eqn:E1; cbn [mbind result_bind]; try done;
    [|by destruct (e_network tx =?? network cfg)].
  destruct (require (height <=? e_expiry tx) "EXPIRED") eqn:E2; cbn [mbind result_bind]; try done;
    [|by destruct (height <=? e_expiry tx)].
  cbn [fst]. eapply holds_bind; [apply holds_eq, map_err_not_panic|].
  { unfold signing_digest. no_panic. apply unsigned_not_panic. }
  intros d _. eapply holds_bind; [apply holds_eq, map_err_not_panic, verify_not_panic|]. intros _ _. cbn.
  unfold tag_ok. cbn. specialize (Htag tx Hb eq_refl). lia.
Qed.

Lemma predict_safe st serial raw :
  state_ok st -> Forall is_byte raw -> exists p, predict st serial height cfg raw = Ok p.
Proof.
  intros Hs Hb. unfold predict. pose proof (prepare_safe raw Hb) as Hp. destruct (prepare raw height cfg) as [prep n].
  cbn [fst] in Hp. destruct prep as [q|e|]; [|by destruct (serial || _); eexists|done]. destruct (serial || _); [by eexists|].
  cbn [mbind result_bind]. pose proof (apply_prepared_safe cfg Hcfg st q height Hs Hp) as Ha.
  destruct (apply_prepared st q height cfg); [by eexists..|done].
Qed.

Lemma serial_step_ok acc raw :
  state_ok acc.1.1 -> Forall is_byte raw -> holds (serial_step acc raw) (fun acc => state_ok acc.1.1).
Proof.
  destruct acc as [[st receipts] paid]. cbn [fst]. intros Hs Hb. unfold serial_step.
  eapply holds_bind; [by apply prepare_safe|]. intros q Hq. cbv beta in Hq.
  pose proof (apply_prepared_safe cfg Hcfg st q height Hs Hq) as Ha. unfold holds.
  destruct (apply_prepared st q height cfg) as [patch| |]; cbn [mbind result_bind]; try done.
  unfold add, checked_add. by destruct (_ <=? _).
Qed.

Lemma add_funds_not_panic t row : add_funds t row <> Panic.
Proof. unfold add_funds. destruct row. calm. Qed.

Lemma finish_state_ok st paid miner pid :
  state_ok st -> holds (finish_state st paid height miner pid cfg) state_ok.
Proof.
  intros Hs. unfold finish_state, block_subsidy.
  assert (Hiv : forall z, limit cfg "subsidy_halving_interval" = Ok z -> z <> 0) by (destruct Hcfg as (_ & _ & Hi); congruence).
  eapply holds_bind; [apply holds_eq; calm|]. intros subsidy _. repeat holds_step.
  eapply holds_bind; [apply holds_eq, try_fold_calm, add_funds_not_panic|]. intros total _. repeat holds_step.
  assert (Hrw : value_ok (reward_key pid height miner)
    (json_object [("owner", Str (hex_encode miner)); ("amount", json_u64 a); ("maturity", json_u64 a1)]%string))
    by (apply value_ok_free; unfold reward_key; by prefixes).
  apply insert_ok; [apply value_ok_free; by prefixes|]. by apply insert_ok.
Qed.

Lemma pon_root_not_panic st : pon_root st <> Panic.
Proof.
  unfold pon_root. apply bind_not_panic.
  - apply try_fold_calm. intros m [k v]. apply bind_not_panic; [apply canonical_not_panic|done].
  - intros bytes _. apply map_err_not_panic. unfold Wire.state_root. no_panic.
    apply try_map_not_panic. intros [k v] _. unfold leaf_of. no_panic.
Qed.

Lemma serial_block_ok parent transactions miner pid :
  state_ok parent -> Forall (Forall is_byte) transactions ->
  holds (serial_block parent transactions miner pid) (fun r => state_ok r.1.1).
Proof.
  intros Hs Hb. unfold serial_block. do 2 holds_step.
  eapply holds_bind; [by apply mandatory_ok|]. intros [st receipts] Hst. cbn [fst] in Hst. cbv iota.
  eapply holds_bind; [apply holds_fold with (I := fun acc => state_ok acc.1.1); [exact Hst|]|].
  { intros acc raw Hraw Hacc. apply serial_step_ok; [done|]. rewrite Forall_forall in Hb. by apply Hb. }
  intros [[st' receipts'] paid] Hst'. cbn [fst] in Hst'. cbv iota.
  eapply holds_bind; [by apply finish_state_ok|]. intros st'' Hst''. cbv beta in Hst''.
  eapply holds_bind; [apply holds_eq, pon_root_not_panic|]. intros root _. done.
Qed.

Lemma execute_serial started parent transactions miner parent_id workers :
  state_ok parent -> Forall (Forall is_byte) transactions -> (forall i, started i = true) -> workers ∈ [1; 2; 4; 8] ->
  outcome (execute started parent transactions height miner parent_id workers cfg) =
    serial_block parent transactions miner parent_id /\
  holds (execute started parent transactions height miner parent_id workers cfg) (fun o => state_ok (o_state o)).
Proof.
  intros Hs Hb Hst Hw.
  assert (E : outcome (execute started parent transactions height miner parent_id workers cfg) =
              serial_block parent transactions miner parent_id).
  { unfold execute, serial_block, outcome. rewrite bool_decide_eq_true_2 by done. cbn [require mbind result_bind].
    destruct (limit cfg "max_transactions") as [max| |]; cbn [mbind result_bind]; try done.
    destruct (require (zlen transactions <=? max) "LIMIT"); cbn [mbind result_bind]; try done.
    pose proof (mandatory_ok cfg Hcfg parent height Hs) as Hm.
    destruct (mandatory parent height cfg) as [[st receipts]| |]; cbn [mbind result_bind]; try done. cbn [holds fst] in Hm.
    set (serial := is_serial transactions workers). set (work := predict st serial height cfg).
    assert (Hps : exists ps, Forall2 (fun raw p => work raw = Ok p) transactions ps).
    { subst work. clearbody serial. clear -Hb Hm Hcfg. induction Hb as [|raw transactions Hraw _ [ps IH]]; [by exists []|].
      destruct (predict_safe st serial raw Hm Hraw) as [p Hp]. exists (p :: ps). by constructor. }
    destruct Hps as [ps Hps].
    assert (Hpred : (if Nat.leb (Nat.min (Z.to_nat workers) (length transactions)) 1 then try_map work transactions
                     else run_pool started work transactions (Nat.min (Z.to_nat workers) (length transactions))) = Ok ps).
    { destruct (Nat.leb _ 1) eqn:El; [by apply try_map_Ok|]. apply Nat.leb_gt in El. apply run_pool_ok; [done|lia|done]. }
    rewrite Hpred. cbn [mbind result_bind].
    pose proof (pon_commits_are_serial st serial transactions ps (st, receipts, 0) (0, 0, 0) Hps) as Hc. rewrite <- Hc.
    destruct (try_fold (commit_step serial height cfg) _ ps) as [[[[st' rs'] paid] [[c1 c2] c3]]| |];
      cbn [erase mbind result_bind fst]; try done.
    destruct (finish_state st' paid height miner parent_id cfg); cbn [mbind result_bind]; try done.
    by destruct (pon_root _). }
  split; [exact E|]. pose proof (serial_block_ok parent transactions miner parent_id Hs Hb) as Hok. rewrite <- E in Hok.
  by destruct (execute _ _ _ _ _ _ _ _) as [[]| |].
Qed.

(** ** Theorem *)

(** C33: block execution is serial execution.  On a well-formed ledger, with a
    configuration without zero divisors and every worker thread started, each
    admissible worker count gives exactly the serial outcome: the same state,
    receipts and root, or the same error; and a committed block leaves a
    well-formed ledger, without any panic. *)
Theorem pon_execution_is_serial started parent transactions miner parent_id workers :
  state_ok parent -> Forall (Forall is_byte) transactions -> (forall i, started i = true) -> workers ∈ [1; 2; 4; 8] ->
  outcome (execute started parent transactions height miner parent_id workers cfg) =
    serial_block parent transactions miner parent_id /\
  holds (execute started parent transactions height miner parent_id workers cfg) (fun o => state_ok (o_state o)).
Proof. apply execute_serial. Qed.

End serial.
