(* ===== verification/PonFunds.v ===== *)
(** * PonFunds: value and nonces of the PoN ledger

    [total] is the value a ledger holds in accounts, obligations and rewards.
    Every command moves value without creating any and its sender's nonce is the
    only one it changes; the mandatory transitions keep both.  So the
    conservation check at the end of a block never fails, and nonces count the
    committed transactions of each sender. *)

From stdpp Require Import base gmap list sorting strings.
From S2P Require Import Prelude Crypto Wire WireTheorems PonState PonExecutor PonTracked PonSafety PonParallel.

(** An unsigned field of an object, zero when it is not there. *)
Definition u64_field (v : Value) (k : string) : Z := default 0 (x ← get_field v (str k); as_u64 x).

Definition amount_of (k : bstring) (v : Value) : Z :=
  if starts_with k (str "account:") then u64_field v "balance"
  else if is_obligation k then u64_field v "remaining"
  else if starts_with k (str "reward:") then u64_field v "amount"
  else 0.
Definition total (st : State) : Z := kmap_sum amount_of st.
Definition nonce_of (st : State) (who : bstring) : Z := default 0 ((fun v => u64_field v "nonce") <$> st !! account_key who).
(** Keys that no transaction writes. *)
Definition protected (k : bstring) : Prop := starts_with k (str "reward:") = true \/ k = str "meta:issued".

Lemma field_u64 v k z : field v k = Ok z -> u64_field v k = z.
Proof. intros (x & Hx & Hz)%field_Ok. unfold u64_field. rewrite Hx. cbn. by rewrite Hz. Qed.

Lemma u64_field_set {E} v k x w k' :
  set_index (E := E) v (str k) x = Ok w ->
  u64_field w k' = if decide (str k' = str k) then default 0 (as_u64 x) else u64_field v k'.
Proof.
  intros Hs. unfold u64_field. rewrite (get_field_set _ _ _ _ (str k') Hs). by destruct (decide _).
Qed.

(** The total is what [funds] computes. *)
Lemma funds_total st f : funds st = Ok f -> f = total st.
Proof.
  unfold funds, total, kmap_sum. rewrite <- (btree_iter_perm st). generalize (btree_iter st) as l.
  intros l. assert (Hg : forall t, try_fold add_funds t l = Ok f -> f = t + lsum (fun p => amount_of p.1 p.2) l).
  { induction l as [|[k v] l IH]; intros t Hf; cbn [try_fold] in Hf; [injection Hf as <-; rewrite lsum_nil; lia|].
    apply bind_Ok in Hf as (t' & Ht & Hf). rewrite lsum_cons, (IH _ Hf). cbn [fst snd]. unfold add_funds in Ht.
    apply bind_Ok in Ht as (a & Ha & Ht). apply ok_or_Ok, checked_add_Some in Ht as [-> _].
    assert (amount_of k v = a); [|lia]. unfold amount_of.
    repeat match goal with H : context [if ?b then _ else _] |- _ => destruct b end; try by apply field_u64. by injection Ha. }
  intros Hf. rewrite (Hg 0 Hf). lia.
Qed.

(** ** Effects *)

(** [m'] holds [d] more than [m], with the nonces and protected keys of [m]. *)
Record effect (d : Z) (m m' : State) : Prop := mkEffect {
  eff_total : total m' = total m + d;
  eff_nonce : forall who, nonce_of m' who = nonce_of m who;
  eff_frame : forall k, protected k -> m' !! k = m !! k;
}.

Lemma effect_refl m : effect 0 m m.
Proof. split; [lia|done..]. Qed.

Lemma effect_trans d1 d2 m1 m2 m3 : effect d1 m1 m2 -> effect d2 m2 m3 -> effect (d1 + d2) m1 m3.
Proof.
  intros [T1 N1 F1] [T2 N2 F2]. split; [lia|intros; by rewrite N2, N1|intros; by rewrite F2, F1 by done].
Qed.

Lemma effect_eq d d' m m' : effect d m m' -> d' = d -> effect d' m m'.
Proof. by intros ? ->. Qed.

(** A key outside accounts, rewards and the issuance counter. *)
Definition plain (k : bstring) : Prop :=
  starts_with k (str "account:") = false /\ starts_with k (str "reward:") = false /\ k <> str "meta:issued".

Lemma plain_not_protected k : plain k -> ~ protected k.
Proof. intros (_ & Hr & Hm) [Hp|Hp]; congruence. Qed.

Lemma plain_not_account k who : plain k -> k <> account_key who.
Proof. intros (Ha & _) ->. unfold account_key in Ha. by rewrite prefix_same in Ha. Qed.

Lemma put_effect k v m :
  plain k -> effect (amount_of k v - entry_sum amount_of m k) m (<[k := v]> m).
Proof.
  intros Hk. split.
  - unfold total. rewrite kmap_sum_insert. lia.
  - intros who. unfold nonce_of. rewrite lookup_insert_ne; [done|]. by apply plain_not_account.
  - intros k' Hk'. rewrite lookup_insert_ne; [done|]. intros <-. by apply (plain_not_protected k).
Qed.

(** A new balance of an account whose nonce stays. *)
Lemma account_effect who a a' m n :
  default empty_account (m !! account_key who) = a -> u64_field a' "nonce" = u64_field a "nonce" ->
  u64_field a' "balance" = u64_field a "balance" + n ->
  effect n m (<[account_key who := a']> m).
Proof.
  intros Ha Hn Hb. assert (Hacc : starts_with (account_key who) (str "account:") = true) by apply prefix_same. split.
  - unfold total. rewrite kmap_sum_insert. unfold entry_sum, amount_of. rewrite Hacc.
    destruct (m !! account_key who); cbn in Ha |- *; subst a; [lia|].
    change (u64_field empty_account "balance") with 0 in Hb. lia.
  - intros w. unfold nonce_of. destruct (decide (account_key who = account_key w)) as [E|Hne].
    + rewrite <- E, lookup_insert_eq. destruct (m !! account_key who); cbn in Ha |- *; subst a; [done|].
      by rewrite Hn.
    + by rewrite lookup_insert_ne.
  - intros k [Hk| ->]; rewrite lookup_insert_ne; try done.
    + intros <-. unfold account_key in Hk. revert Hk. by prefixes.
Qed.

(** ** Inverting transaction steps *)

Lemma get_inv k s o s' : get k s = Ok (o, s') -> vmap s' = vmap s /\ o = vmap s !! k.
Proof. intros [= <- <-]. split; [done|]. apply current_vmap. Qed.
Lemma put_inv k v s u s' : put k v s = Ok (u, s') -> vmap s' = <[k := v]> (vmap s).
Proof. intros [= <- <-]. apply vmap_put. Qed.
Lemma scan_inv p s m s' : scan p s = Ok (m, s') -> vmap s' = vmap s.
Proof. by intros [= _ <-]. Qed.
Lemma take_inv n s b s' : take_n n s = Ok (b, s') -> vmap s' = vmap s.
Proof. unfold take_n. intros Ht. rinv. by subst. Qed.
Lemma read_u64_inv s b s' : read_u64 s = Ok (b, s') -> vmap s' = vmap s.
Proof. unfold read_u64. intros Ht. apply Tx_bind_Ok in Ht as (x & s1 & Hx & [= <- <-]). by eapply take_inv. Qed.
Lemma read_byte_inv s b s' : read_byte s = Ok (b, s') -> vmap s' = vmap s.
Proof.
  unfold read_byte. intros Ht. apply Tx_bind_Ok in Ht as (x & s1 & Hx & Hl). apply liftr_Ok in Hl as [_ ->]. by eapply take_inv.
Qed.
Lemma account_inv who s a s' :
  account who s = Ok (a, s') -> vmap s' = vmap s /\ a = default empty_account (vmap s !! account_key who).
Proof. unfold account. intros Ht. apply Tx_bind_Ok in Ht as (x & s1 & Hx & [= <- <-]). by apply get_inv in Hx as [? ->]. Qed.
Lemma object_inv `{CryptoCrates} p id s kv s' :
  object p id s = Ok (kv, s') ->
  vmap s' = vmap s /\ kv.1 = str p ++ hex_encode id /\ vmap s !! kv.1 = Some kv.2.
Proof.
  unfold object. intros Ht. apply Tx_bind_Ok in Ht as (x & s1 & Hx & Ht). apply get_inv in Hx as [? ->].
  apply Tx_bind_Ok in Ht as (v & s2 & Hv & [= <- <-]). apply liftr_Ok in Hv as [Hv ->]. by apply ok_or_Ok in Hv.
Qed.

(** Peel a transaction into its steps; steps that do not write are forgotten. *)
Ltac tinv :=
  repeat match goal with
  | H : (_ ≫= _) _ = Ok (_, _) |- _ => apply Tx_bind_Ok in H as (? & ? & ? & ?)
  | H : liftr _ _ = Ok (_, _) |- _ => apply liftr_Ok in H as [? ->]
  | H : mret _ _ = Ok (_, _) |- _ => injection H as ? ?; subst
  | H : get _ _ = Ok (_, _) |- _ => apply get_inv in H as [? ->]
  | H : put _ _ _ = Ok (_, _) |- _ => apply put_inv in H
  | H : scan _ _ = Ok (_, _) |- _ => apply scan_inv in H
  | H : take_n _ _ = Ok (_, _) |- _ => apply take_inv in H
  | H : read_hash _ = Ok (_, _) |- _ => apply take_inv in H
  | H : read_u64 _ = Ok (_, _) |- _ => apply read_u64_inv in H
  | H : read_byte _ = Ok (_, _) |- _ => apply read_byte_inv in H
  | H : account _ _ = Ok (_, _) |- _ => apply account_inv in H as [? ->]
  | H : object _ _ _ = Ok (_, _) |- _ => apply object_inv in H as (? & ? & ?)
  | H : (match ?p with pair _ _ => _ end) _ = Ok (_, _) |- _ => destruct p; cbn [fst snd] in *; subst
  | H : (if ?b then _ else _) _ = Ok (_, _) |- _ => destruct b
  | H : require _ _ = Ok _ |- _ => apply require_Ok in H
  | H : add _ _ = Ok _ |- _ => apply ok_or_Ok, checked_add_Some in H as [-> ?]
  | H : ok_or _ _ = Ok _ |- _ => apply ok_or_Ok in H
  end.
(** Replace every ledger by the earliest equal one. *)
Ltac vmaps := repeat match goal with
  | H : vmap ?s' = vmap ?s |- _ => rewrite H in *; clear H s'
  end.

Definition off_accounts (m m' : State) : Prop := forall k, starts_with k (str "account:") = false -> m' !! k = m !! k.

Lemma account_put_off who a m : off_accounts m (<[account_key who := a]> m).
Proof. intros k Hk. rewrite lookup_insert_ne; [done|]. intros <-. unfold account_key in Hk. by rewrite prefix_same in Hk. Qed.

(** Storing a balance changed by [d]. *)
Lemma balance_effect {E} who m b d a' :
  field (default empty_account (m !! account_key who)) "balance" = Ok b ->
  set_index (E := E) (default empty_account (m !! account_key who)) (str "balance") (json_u64 (b + d)) = Ok a' ->
  effect d m (<[account_key who := a']> m).
Proof.
  intros Hf Hs. eapply account_effect; [done|by rewrite (u64_field_set _ _ _ _ "nonce" Hs)|].
  rewrite (u64_field_set _ _ _ _ "balance" Hs), decide_True by done. by rewrite (field_u64 _ _ _ Hf).
Qed.

Lemma credit_inv who n s u s' :
  credit who n s = Ok (u, s') -> effect n (vmap s) (vmap s') /\ off_accounts (vmap s) (vmap s').
Proof.
  unfold credit. intros Ht. tinv. vmaps. match goal with Hv : vmap s' = _ |- _ => rewrite Hv end.
  split; [by eapply balance_effect|apply account_put_off].
Qed.

Lemma debit_inv who n s u s' :
  debit who n s = Ok (u, s') -> effect (- n) (vmap s) (vmap s') /\ off_accounts (vmap s) (vmap s').
Proof.
  unfold debit. intros Ht. tinv. vmaps. match goal with Hv : vmap s' = _ |- _ => rewrite Hv end.
  split; [by eapply balance_effect|apply account_put_off].
Qed.

Lemma deadline_with_inv cfg d h l s u s' : deadline_with_lifetime cfg d h l s = Ok (u, s') -> vmap s' = vmap s.
Proof. unfold deadline_with_lifetime. intros Ht. tinv. congruence. Qed.

Lemma deadline_inv cfg d h s u s' : deadline cfg d h s = Ok (u, s') -> vmap s' = vmap s.
Proof. unfold deadline. intros Ht. tinv. by eapply deadline_with_inv. Qed.

(** ** Writing an obligation or a record *)

Lemma reput_effect k v x d m m1 :
  m !! k = x -> effect d m m1 -> off_accounts m m1 -> plain k ->
  effect (d + (amount_of k v - default 0 (amount_of k <$> x))) m (<[k := v]> m1).
Proof.
  intros Hx Hd Hoff Hk. eapply effect_trans; [exact Hd|]. eapply effect_eq; [by apply put_effect|].
  unfold entry_sum. rewrite (Hoff k) by apply Hk. by rewrite Hx.
Qed.

Lemma off_refl m : off_accounts m m.
Proof. by intros k _. Qed.

Lemma plain_prefix p x :
  clash (str p) (str "account:") = true -> clash (str p) (str "reward:") = true -> clash (str p) (str "meta:") = true ->
  plain (str p ++ x).
Proof.
  intros H1 H2 H3. split_and!; [by apply clash_prefix..|]. intros E.
  pose proof (clash_prefix (str p) (str "meta:") x H3) as Hm. rewrite E in Hm. by vm_compute in Hm.
Qed.

Lemma amount_obligation p x v :
  is_obligation (str p ++ x) = true -> clash (str p) (str "account:") = true ->
  amount_of (str p ++ x) v = u64_field v "remaining".
Proof. intros Ho Hc. unfold amount_of. by rewrite (clash_prefix _ _ x Hc), Ho. Qed.

Lemma amount_record k v : starts_with k (str "account:") = false -> is_obligation k = false ->
  starts_with k (str "reward:") = false -> amount_of k v = 0.
Proof. intros H1 H2 H3. unfold amount_of. by rewrite H1, H2, H3. Qed.

(** Amounts of the keys the commands build. *)
Ltac amounts :=
  repeat match goal with
  | |- context [amount_of (str ?p ++ ?x) ?v] =>
      first [rewrite (amount_obligation p x v) by (unfold is_obligation; prefixes; reflexivity)
            |rewrite (amount_record (str p ++ x) v) by (unfold is_obligation; prefixes; reflexivity)]
  | |- context [u64_field (json_object ?l) ?k] =>
      let z := eval cbv in (u64_field (json_object l) k) in change (u64_field (json_object l) k) with z
  | Hs : set_index ?v (str ?k') ?x = Ok ?w |- context [u64_field ?w ?k] =>
      rewrite (u64_field_set v k' x w k Hs);
      first [rewrite decide_True by reflexivity | rewrite decide_False by discriminate]; cbn [as_u64 json_u64 default from_option id]
  end.

Section command_effects.
Context `{CryptoCrates} `{SerdeJson}.

Ltac tinvs :=
  repeat (tinv; match goal with
  | H : credit _ _ _ = Ok _ |- _ => apply credit_inv in H as [? ?]
  | H : debit _ _ _ = Ok _ |- _ => apply debit_inv in H as [? ?]
  | H : deadline _ _ _ _ = Ok _ |- _ => apply deadline_inv in H
  | H : deadline_with_lifetime _ _ _ _ _ = Ok _ |- _ => apply deadline_with_inv in H
  end); tinv; vmaps.

(** The final write of a command, over what the ledger held at its key. *)
Ltac reput :=
  match goal with Hv : vmap _ = <[?k := ?v]> (vmap ?s1) |- effect _ (vmap ?s) _ =>
    rewrite Hv; bprop; eapply effect_eq;
    [eapply (reput_effect k v _ _ (vmap s) (vmap s1));
       [first [eassumption|reflexivity]|first [eassumption|apply effect_refl]|first [eassumption|apply off_refl]
       |apply plain_prefix; reflexivity]
    |cbn [fmap option_fmap option_map default from_option id]; amounts]
  end.
(** Read known fields. *)
Ltac fields := repeat match goal with
  | Hf : field ?v ?k = Ok ?z |- context [u64_field ?v ?k] => rewrite (field_u64 v k z Hf)
  end.

Lemma transfer_effect sender s u s' : cmd_transfer sender s = Ok (u, s') -> effect 0 (vmap s) (vmap s').
Proof.
  unfold cmd_transfer. intros Ht. tinvs. eapply effect_eq; [eapply effect_trans; eassumption|lia].
Qed.

Lemma reserve_task_effect cfg tx sender h s u s' :
  cmd_reserve_task cfg tx sender h s = Ok (u, s') -> effect 0 (vmap s) (vmap s').
Proof.
  unfold cmd_reserve_task. intros Ht. cbv zeta in Ht. tinvs. reput. cbn. lia.
Qed.

Lemma cancel_task_effect sender s u s' : cmd_cancel_task sender s = Ok (u, s') -> effect 0 (vmap s) (vmap s').
Proof. unfold cmd_cancel_task. intros Ht. tinvs. reput. fields. lia. Qed.

Lemma record_receipt_effect sender h s u s' : cmd_record_receipt sender h s = Ok (u, s') -> effect 0 (vmap s) (vmap s').
Proof. unfold cmd_record_receipt. intros Ht. tinvs. reput. lia. Qed.

Lemma accept_task_effect sender h s u s' : cmd_accept_task sender h s = Ok (u, s') -> effect 0 (vmap s) (vmap s').
Proof. unfold cmd_accept_task. intros Ht. tinvs. reput. fields. lia. Qed.

Lemma reserve_quota_effect cfg tx sender h s u s' :
  cmd_reserve_quota cfg tx sender h s = Ok (u, s') -> effect 0 (vmap s) (vmap s').
Proof. unfold cmd_reserve_quota. intros Ht. cbv zeta in Ht. tinvs. reput. cbn. lia. Qed.

Lemma register_work_effect s u s' : cmd_register_work s = Ok (u, s') -> effect 0 (vmap s) (vmap s').
Proof. unfold cmd_register_work. intros Ht. cbv zeta in Ht. tinvs; try done. reput. cbn. lia. Qed.

Lemma consume_quota_effect cfg tx sender fee h s u s' :
  cmd_consume_quota cfg tx sender fee h s = Ok (u, s') -> effect (- fee) (vmap s) (vmap s').
Proof.
  unfold cmd_consume_quota. intros Ht. cbv zeta in Ht. tinvs.
  match goal with Hi : (if ?b then _ else _) = Ok _ |- _ => destruct b; rinv; subst end; reput; fields; lia.
Qed.

Lemma repeat_climb_inv n leaf s b s' : repeat_tx n climb leaf s = Ok (b, s') -> vmap s' = vmap s.
Proof.
  revert leaf s. induction n as [|n IH]; intros leaf s Ht; cbn in Ht; [by injection Ht as _ <-|].
  apply Tx_bind_Ok in Ht as (l & s1 & Hc & Ht). apply IH in Ht. unfold climb in Hc. tinv. congruence.
Qed.

Lemma claim_reward_effect tx sender h s u s' :
  cmd_claim_reward tx sender h s = Ok (u, s') -> effect 0 (vmap s) (vmap s').
Proof.
  unfold cmd_claim_reward. intros Ht. cbv zeta in Ht. tinv.
  match goal with Hr : repeat_tx _ climb _ _ = Ok _ |- _ => apply repeat_climb_inv in Hr end.
  tinvs. reput. fields. repeat match goal with Hf : field ?v ?k = Ok _ |- _ => apply field_u64 in Hf end. lia.
Qed.

(** Records hold no value. *)
Definition record_key (k : bstring) : Prop := plain k /\ is_obligation k = false.

Lemma record_effect k v m : record_key k -> effect 0 m (<[k := v]> m).
Proof.
  intros [Hk Ho]. eapply effect_eq; [by apply put_effect|]. destruct Hk as (H1 & H2 & _). unfold entry_sum.
  rewrite (amount_record k v) by done. destruct (m !! k); cbn; [by rewrite amount_record|done].
Qed.

Lemma record_contribution x : record_key (str "contribution:" ++ x).
Proof. split; [by apply plain_prefix|]. unfold is_obligation. by prefixes. Qed.
Lemma record_artifact x : record_key (str "artifact:" ++ x).
Proof. split; [by apply plain_prefix|]. unfold is_obligation. by prefixes. Qed.
Lemma record_model : record_key (str "model:current").
Proof. split; [split_and!|]; by vm_compute. Qed.
Hint Resolve record_contribution record_artifact record_model : trnm.

(** Follow a chain of record writes. *)
Ltac records := repeat match goal with
  | Hv : vmap ?s' = <[_ := _]> (vmap _) |- effect 0 _ (vmap ?s') =>
      rewrite Hv; eapply (effect_trans 0 0); [|apply record_effect; solve [auto with trnm]]
  | |- effect 0 ?m ?m => apply effect_refl
  end.

Lemma contribute_effect cfg tx sender h s u s' :
  cmd_contribute cfg tx sender h s = Ok (u, s') -> effect 0 (vmap s) (vmap s').
Proof. unfold cmd_contribute. intros Ht. cbv zeta in Ht. tinvs; records; done. Qed.

Lemma evaluate_effect cfg sender s u s' : cmd_evaluate cfg sender s = Ok (u, s') -> effect 0 (vmap s) (vmap s').
Proof. unfold cmd_evaluate. intros Ht. tinvs. records. Qed.

Lemma adopt_inv cur acc s acc' s' :
  adopt_step cur acc s = Ok (acc', s') ->
  vmap s' = vmap s /\ (Forall (fun row => record_key row.1) acc.1.2 -> Forall (fun row => record_key row.1) acc'.1.2).
Proof.
  destruct acc as [[leaves adopted] t]. unfold adopt_step. intros Ht. tinvs. split; [congruence|].
  cbn [fst snd]. intros Ha. apply Forall_app. split; [done|]. constructor; [|done]. apply record_contribution.
Qed.

Lemma repeat_adopt_inv n cur acc s acc' s' :
  repeat_tx n (adopt_step cur) acc s = Ok (acc', s') ->
  vmap s' = vmap s /\ (Forall (fun row => record_key row.1) acc.1.2 -> Forall (fun row => record_key row.1) acc'.1.2).
Proof.
  revert acc s. induction n as [|n IH]; intros acc s Ht; cbn in Ht; [by injection Ht as <- <-|].
  apply Tx_bind_Ok in Ht as (a & s1 & Hc & Ht). apply IH in Ht as [E1 H1]. apply adopt_inv in Hc as [E2 H2].
  split; [congruence|auto].
Qed.

Lemma put_all_effect rows s u s' :
  Forall (fun row => record_key row.1) rows -> put_all rows s = Ok (u, s') -> effect 0 (vmap s) (vmap s').
Proof.
  intros Hr. revert s. induction Hr as [|[k v] rows Hk _ IH]; intros s Ht; cbn in Ht; [injection Ht as _ <-; apply effect_refl|].
  apply Tx_bind_Ok in Ht as ([] & s1 & Hp & Ht). apply put_inv in Hp. apply IH in Ht. rewrite Hp in Ht.
  eapply (effect_trans 0 0); [by apply record_effect|done].
Qed.

Lemma publish_release_effect cfg sender h s u s' :
  cmd_publish_release cfg sender h s = Ok (u, s') -> effect 0 (vmap s) (vmap s').
Proof.
  unfold cmd_publish_release. intros Ht. cbv zeta in Ht. tinv.
  match goal with Hr : repeat_tx _ _ _ _ = Ok _ |- _ =>
    apply repeat_adopt_inv in Hr as [? Hrec]; cbn [fst snd] in Hrec; specialize (Hrec (Forall_nil_2 _)) end.
  tinvs.
  match goal with Hp : put_all _ _ = Ok _ |- _ => apply (put_all_effect _ _ _ _ Hrec) in Hp end.
  records. eapply (effect_trans 0 0); [|eassumption].
  match goal with Hv : vmap ?x = <[str "release:" ++ _ := _]> _ |- effect 0 _ (vmap ?x) => idtac end.
  reput. cbn. lia.
Qed.

Lemma command_effect cfg tx sender fee h s u s' :
  command cfg tx sender fee h s = Ok (u, s') -> effect (if e_tag tx =? 11 then - fee else 0) (vmap s) (vmap s').
Proof.
  assert (Herr : forall r : () * TxState, liftr (Err "VERSION"%string) s = Ok r -> False) by done.
  unfold command. destruct (e_tag tx) as [|t|t]; try (intros Ht; by apply Herr in Ht).
  do 4 (try (destruct t; try (intros Ht; by apply Herr in Ht))).
  all: cbn [Z.eqb Pos.eqb]; intros Ht.
  all: match type of Ht with
    | cmd_transfer _ _ = _ => by eapply transfer_effect
    | cmd_reserve_task _ _ _ _ _ = _ => by eapply reserve_task_effect
    | cmd_cancel_task _ _ = _ => by eapply cancel_task_effect
    | cmd_record_receipt _ _ _ = _ => by eapply record_receipt_effect
    | cmd_accept_task _ _ _ = _ => by eapply accept_task_effect
    | cmd_contribute _ _ _ _ _ = _ => by eapply contribute_effect
    | cmd_evaluate _ _ _ = _ => by eapply evaluate_effect
    | cmd_publish_release _ _ _ _ = _ => by eapply publish_release_effect
    | cmd_claim_reward _ _ _ _ = _ => by eapply claim_reward_effect
    | cmd_reserve_quota _ _ _ _ _ = _ => by eapply reserve_quota_effect
    | cmd_consume_quota _ _ _ _ _ _ = _ => by eapply consume_quota_effect
    | cmd_register_work _ = _ => by eapply register_work_effect
    end.
Qed.

(** ** One transaction *)

(** What a committed transaction of [who] with nonce [n] and fee [fee] does. *)
Record tx_effect (who : bstring) (n fee : Z) (m m' : State) : Prop := mkTxEffect {
  tx_total : total m' = total m - fee;
  tx_nonce : nonce_of m who + 1 = n /\ nonce_of m' who = n;
  tx_others : forall w, account_key w <> account_key who -> nonce_of m' w = nonce_of m w;
  tx_frame : forall k, protected k -> m' !! k = m !! k;
}.

Lemma nonce_of_account m who : u64_field (default empty_account (m !! account_key who)) "nonce" = nonce_of m who.
Proof. unfold nonce_of. by destruct (m !! account_key who). Qed.

(** The fee: charged to the sender, or by the command that consumes a quota. *)
Lemma fee_effect tag sender fee a s u s' :
  a = default empty_account (vmap s !! account_key sender) ->
  (if tag =? 11 then put (account_key sender) a else debit sender fee) s = Ok (u, s') ->
  effect (if tag =? 11 then 0 else - fee) (vmap s) (vmap s').
Proof.
  intros ->. destruct (tag =? 11); intros Ht.
  - apply put_inv in Ht as ->. by eapply account_effect; [..|rewrite Z.add_0_r].
  - by apply debit_inv in Ht as [? _].
Qed.

(** The last write: the sender's new nonce. *)
Lemma nonce_effect {E} who n m a' :
  set_index (E := E) (default empty_account (m !! account_key who)) (str "nonce") (json_u64 n) = Ok a' ->
  nonce_of m who + 1 = n -> tx_effect who n 0 m (<[account_key who := a']> m).
Proof.
  intros Hs Hn. split.
  - unfold total. rewrite kmap_sum_insert. unfold entry_sum, amount_of.
    assert (Hacc : starts_with (account_key who) (str "account:") = true) by apply prefix_same. rewrite Hacc.
    rewrite (u64_field_set _ _ _ _ "balance" Hs), decide_False by discriminate.
    destruct (m !! account_key who); cbn [fmap option_fmap option_map default from_option id]; [lia|]. change (u64_field empty_account "balance") with 0. lia.
  - split; [done|]. unfold nonce_of. rewrite lookup_insert_eq. cbn. by rewrite (u64_field_set _ _ _ _ "nonce" Hs), decide_True.
  - intros w Hw. unfold nonce_of. by rewrite lookup_insert_ne.
  - intros k [Hk| ->]; rewrite lookup_insert_ne; try done. intros <-. unfold account_key in Hk. revert Hk. by prefixes.
Qed.

Lemma tx_effect_after d who n fee m1 m2 m3 :
  effect d m1 m2 -> tx_effect who n fee m2 m3 -> tx_effect who n (fee - d) m1 m3.
Proof.
  intros [T1 N1 F1] [T2 [N2 N2'] O2 F2]. split; [lia|by rewrite <- N1|intros; by rewrite O2, N1|intros; by rewrite F2, F1].
Qed.

Lemma end_inv s u s' :
  (fun s : TxState => _ ← require (p_pos (t_payload s) =? zlen (p_bytes (t_payload s))) "LENGTH"; Ok (tt, s)) s = Ok (u, s') ->
  s' = s.
Proof. intros Ht. apply bind_Ok in Ht as ([] & _ & [= _ <-]). done. Qed.

Lemma run_transaction_effect p h cfg s fee receipt s' :
  run_transaction p h cfg s = Ok ((fee, receipt), s') ->
  tx_effect (pr_sender p) (e_nonce (pr_envelope p)) fee (vmap s) (vmap s').
Proof.
  unfold run_transaction. intros Ht. cbv zeta in Ht.
  apply Tx_bind_Ok in Ht as (acct & s1 & Hacct & Ht). apply account_inv in Hacct as [E1 Hacct].
  do 5 (apply Tx_bind_Ok in Ht as (? & ? & Hstep & Ht); apply liftr_Ok in Hstep as [? ->]).
  apply Tx_bind_Ok in Ht as (? & s2 & Hfee & Ht). apply Tx_bind_Ok in Ht as (? & s3 & Hcmd & Ht).
  apply Tx_bind_Ok in Ht as (? & ? & Hend & Ht). apply end_inv in Hend as ->. apply command_effect in Hcmd.
  apply fee_effect in Hfee; [|by rewrite E1]. rewrite E1 in *. subst acct. tinv. vmaps.
  match goal with Hv : vmap s' = _ |- _ => rewrite Hv end. bprop.
  match goal with Hn : field _ "nonce" = Ok ?n |- _ => apply field_u64 in Hn; rewrite nonce_of_account in Hn end.
  eapply effect_trans in Hcmd; [|exact Hfee]. pose proof (eff_nonce _ _ _ Hcmd (pr_sender p)) as Hsame.
  match goal with Hs : set_index _ (str "nonce") _ = Ok _ |- _ => eapply nonce_effect in Hs; [|lia] end.
  eapply tx_effect_after in Hcmd; [|eassumption]. destruct (e_tag _ =? 11);
    (replace fee with (0 - (0 + - fee)) by lia; exact Hcmd) || (replace fee with (0 - (- fee + 0)) by lia; exact Hcmd).
Qed.

(** ** Patches *)

Lemma apply_prepared_effect b p h cfg patch :
  apply_prepared b p h cfg = Ok patch ->
  tx_effect (pr_sender p) (e_nonce (pr_envelope p)) (pa_fee patch) b (patch_apply patch b).
Proof.
  unfold apply_prepared. intros Hp. apply bind_Ok in Hp as ([[fee receipt] s] & Hrun & [= <-]).
  edestruct (tracked_transaction p h cfg) with (b := ∅ : State) as [Eb _]; [|exact Hrun|].
  { split; cbn; intros ? ? Hk; by rewrite lookup_empty in Hk. }
  apply run_transaction_effect in Hrun. unfold vmap in Hrun. cbn in Eb. rewrite Eb in Hrun. cbn in Hrun.
  by rewrite (left_id_L ∅ (∪)) in Hrun.
Qed.

End command_effects.

(** ** The mandatory transitions *)

Lemma starts_with_inv k p : starts_with k p = true -> exists x, k = p ++ x.
Proof. intros Hp. apply bool_decide_eq_true in Hp as [x ->]. by exists x. Qed.

(** Value, nonces and issuance stay; no reward appears. *)
Record settled (m m' : State) : Prop := mkSettled {
  set_total : total m' = total m;
  set_nonce : forall who, nonce_of m' who = nonce_of m who;
  set_meta : m' !! str "meta:issued" = m !! str "meta:issued";
  set_reward : forall k, starts_with k (str "reward:") = true -> m !! k = None -> m' !! k = None;
}.

Lemma settled_refl m : settled m m.
Proof. done. Qed.
Lemma settled_trans m1 m2 m3 : settled m1 m2 -> settled m2 m3 -> settled m1 m3.
Proof. intros [T1 N1 M1 R1] [T2 N2 M2 R2]. split; [congruence|intros; by rewrite N2|congruence|auto]. Qed.

Lemma effect_settled m m' : effect 0 m m' -> settled m m'.
Proof.
  intros [T N F]. split; [lia|done|apply F; by right|]. intros k Hk Hm. rewrite F by by left. done.
Qed.

Lemma delete_effect k m : plain k -> effect (- entry_sum amount_of m k) m (delete k m).
Proof.
  intros Hk. split.
  - unfold total. rewrite kmap_sum_delete. lia.
  - intros who. unfold nonce_of. rewrite lookup_delete_ne; [done|]. by apply plain_not_account.
  - intros k' Hk'. rewrite lookup_delete_ne; [done|]. intros <-. by apply (plain_not_protected k).
Qed.

Lemma delete_record k m : record_key k -> settled m (delete k m).
Proof.
  intros [Hk Ho]. apply effect_settled. eapply effect_eq; [by apply delete_effect|]. unfold entry_sum.
  destruct Hk as (H1 & H2 & _). destruct (m !! k); cbn; [by rewrite amount_record|done].
Qed.

Lemma obligation_plain k : is_obligation k = true -> plain k /\ forall v, amount_of k v = u64_field v "remaining".
Proof.
  intros Ho. split.
  - apply orb_true_iff in Ho as [[Ho|Ho]%orb_true_iff|Ho]; apply starts_with_inv in Ho as [x ->]; by apply plain_prefix.
  - intros v. unfold amount_of. rewrite Ho.
    apply orb_true_iff in Ho as [[Ho|Ho]%orb_true_iff|Ho]; apply starts_with_inv in Ho as [x ->]; by prefixes.
Qed.

Lemma delete_empty k v m :
  is_obligation k = true -> m !! k = Some v -> u64_field v "remaining" = 0 -> settled m (delete k m).
Proof.
  intros [Hk Ha]%obligation_plain Hv Hz. apply effect_settled. eapply effect_eq; [by apply delete_effect|].
  unfold entry_sum. rewrite Hv. cbn. rewrite Ha, Hz. done.
Qed.

Section mandatory_effects.
Context `{CryptoCrates} `{SerdeJson}.

Lemma credit_state_effect st who n st' :
  credit_state st who n = Ok st' -> effect n st st' /\ off_accounts st st'.
Proof.
  unfold credit_state. intros Ht. rinv. subst. unfold add in *. rinv. checked. subst.
  split; [by eapply balance_effect|apply account_put_off].
Qed.

Lemma retire_step_settled cur h cfg st k st' : retire_step cur h cfg st k = Ok st' -> settled st st'.
Proof.
  unfold retire_step, retire_candidate. intros Ht.
  destruct (starts_with k (str "contribution:")) eqn:Ec.
  { apply starts_with_inv in Ec as [x ->]. rinv.
    repeat (match goal with H : (if ?b then _ else _) = Ok _ |- _ => destruct b eqn:? end; rinv); subst;
      try apply delete_record; try apply settled_refl; try apply effect_settled, record_effect; apply record_contribution. }
  destruct (starts_with k (str "task:") || starts_with k (str "quota:")) eqn:Eo.
  { rinv. match goal with H : (if ?b then _ else _) = Ok _ |- _ => destruct b eqn:Ed end; rinv; subst; [|apply settled_refl].
    match goal with H : and_then _ _ = Ok true |- _ => unfold and_then in H; rinv end.
    match goal with H : (if ?b then _ else _) = Ok true |- _ => destruct b eqn:Ez; [|done] end. bprop. rinv. bprop. subst.
    eapply delete_empty; [|eassumption|].
    - unfold is_obligation. by rewrite Eo.
    - match goal with H : field _ "remaining" = Ok 0 |- _ => by apply field_u64 end. }
  destruct (starts_with k (str "artifact:")) eqn:Ea; [|by injection Ht as <-; apply settled_refl].
  apply starts_with_inv in Ea as [x ->]. cbv zeta in Ht. rinv.
  match goal with H : (if ?b then _ else _) = Ok _ |- _ => destruct b end; rinv; subst; [|apply settled_refl].
  apply delete_record, record_artifact.
Qed.

Lemma delete_all_settled (ks : list bstring) m :
  Forall (fun k => is_obligation k = true /\ entry_sum amount_of m k = 0) ks ->
  settled m (foldl (fun st k => delete k st) m ks).
Proof.
  revert m. induction ks as [|k ks IH]; intros m Hf; cbn [foldl]; [apply settled_refl|].
  apply Forall_cons in Hf as [[Ho Hz] Hf]. apply settled_trans with (delete k m).
  - apply effect_settled. eapply effect_eq; [by apply delete_effect, obligation_plain|]. lia.
  - apply IH. eapply Forall_impl; [exact Hf|]. intros k' [Ho' Hz']. split; [done|]. unfold entry_sum in *.
    destruct (decide (k = k')) as [->|Hne]; [by rewrite lookup_delete_eq|by rewrite lookup_delete_ne].
Qed.

Lemma retired_empty cur k v : retired_release cur (k, v) = true -> is_obligation k = true /\ u64_field v "remaining" = 0.
Proof.
  unfold retired_release. intros Hr. bprop. split; [unfold is_obligation; by match goal with H : starts_with k _ = true |- _ => rewrite H end; rewrite orb_true_r|].
  unfold u64_field. unfold index in *. destruct (get_field v (str "remaining")) as [x|]; [|done]. cbn in *.
  destruct x as [| |[]| | |]; cbn in *; try done. bprop. done.
Qed.

Lemma collect_due_obligations h l due due' :
  Forall (fun r : Z * bstring => is_obligation r.2 = true) due -> try_fold (collect_due h) due l = Ok due' ->
  Forall (fun r : Z * bstring => is_obligation r.2 = true) due'.
Proof.
  intros Hd Hf. eapply (try_fold_inv (fun d => Forall (fun r : Z * bstring => is_obligation r.2 = true) d)); [exact Hd| |exact Hf].
  intros d [k v] d' _ Hdd Hc. unfold collect_due in Hc. destruct (is_obligation k) eqn:Ho; rinv; subst; [|done].
  match goal with H : (if ?b then _ else _) = Ok _ |- _ => destruct b end; rinv; subst; [|done].
  apply Forall_app. split; [done|]. by constructor.
Qed.

Lemma expire_step_settled acc row acc' :
  is_obligation row.2 = true -> expire_step acc row = Ok acc' -> settled acc.1 acc'.1.
Proof.
  destruct acc as [st receipts], row as [dl k]. cbn [fst snd]. intros Ho Ht. unfold expire_step in Ht. cbn [snd] in Ht. rinv. subst.
  match goal with H : credit_state _ _ _ = Ok _ |- _ => apply credit_state_effect in H as [He Hoff] end.
  destruct (obligation_plain k Ho) as [Hk Ha]. apply effect_settled. eapply effect_eq; [by eapply reput_effect|].
  cbn [fmap option_fmap option_map default from_option id]. rewrite !Ha. amounts.
  match goal with H : field _ "remaining" = Ok _ |- _ => rewrite (field_u64 _ _ _ H) end. lia.
Qed.

Lemma mature_step_settled h st k m st' :
  starts_with k (str "reward:") = true -> mature_step h st (k, m) = Ok st' -> settled st st'.
Proof.
  intros Hk Ht. unfold mature_step in Ht. destruct (m <=? h); rinv; subst; [|apply settled_refl].
  apply starts_with_inv in Hk as [x ->].
  match goal with H : credit_state _ _ _ = Ok _ |- _ => apply credit_state_effect in H as [[T N F] _] end.
  assert (Hna : forall who, str "reward:" ++ x <> account_key who).
  { intros who E. pose proof (clash_prefix (str "reward:") (str "account:") x eq_refl) as Hp. rewrite E in Hp.
    unfold account_key in Hp. by rewrite prefix_same in Hp. }
  split.
  - rewrite T. unfold total. rewrite kmap_sum_delete. unfold entry_sum.
    match goal with H : st !! _ = Some ?r, Hf : field ?r "amount" = Ok _ |- _ =>
      rewrite H; cbn [fmap option_fmap option_map default from_option id]; unfold amount_of, is_obligation; prefixes; cbn [orb];
      rewrite (field_u64 _ _ _ Hf) end. lia.
  - intros who. rewrite N. unfold nonce_of. by rewrite lookup_delete_ne by apply Hna.
  - rewrite F by by right. rewrite lookup_delete_ne; [done|]. by intros E.
  - intros k' Hk' Hm. rewrite F by by left. destruct (decide (str "reward:" ++ x = k')) as [<-|Hne];
      [by rewrite lookup_delete_eq|by rewrite lookup_delete_ne].
Qed.

Lemma mandatory_settled st h cfg st' receipts : mandatory st h cfg = Ok (st', receipts) -> settled st st'.
Proof.
  unfold mandatory. intros Ht. cbv zeta in Ht.
  apply bind_Ok in Ht as (cur & _ & Ht). apply bind_Ok in Ht as (st1 & Hretire & Ht).
  apply bind_Ok in Ht as (due & Hdue & Ht). apply bind_Ok in Ht as (max & _ & Ht).
  apply bind_Ok in Ht as ([st2 rs] & Hexp & Ht). apply bind_Ok in Ht as (mature & Hmat & Ht).
  apply bind_Ok in Ht as (st3 & Hm & [= <- <-]).
  apply settled_trans with st1.
  { eapply (try_fold_inv (settled st)); [apply settled_refl| |exact Hretire].
    intros a k a' _ Ha Hs. eapply settled_trans; [exact Ha|]. by eapply retire_step_settled. }
  match type of Hdue with try_fold _ _ (btree_iter ?d) = _ => apply settled_trans with d end; [|apply settled_trans with st2].
  - apply delete_all_settled, Forall_forall. intros k Hk. apply list_elem_of_fmap in Hk as ([k' v] & -> & Hk). cbn.
    apply list_elem_of_filter in Hk as [Hr Hin]. apply elem_of_btree_iter in Hin. apply retired_empty in Hr as [Ho Hz].
    split; [done|]. unfold entry_sum. rewrite Hin. cbn. destruct (obligation_plain k' Ho) as [_ Ha]. by rewrite Ha.
  - apply collect_due_obligations in Hdue; [|constructor].
    eapply (try_fold_inv (fun acc : State * list (list Z) => settled _ acc.1)) in Hexp; [exact Hexp|apply settled_refl|].
    intros acc row acc' Hrow Hacc Hs. eapply settled_trans; [exact Hacc|]. eapply expire_step_settled; [|exact Hs].
    rewrite Forall_forall in Hdue. apply Hdue. rewrite <- (sort_perm due). apply elem_of_take in Hrow as (i & Hi & _).
    by eapply list_elem_of_lookup_2.
  - eapply (try_fold_inv (settled st2)); [apply settled_refl| |exact Hm].
    intros a [k m] a' Hin Ha Hs. eapply settled_trans; [exact Ha|]. eapply mature_step_settled; [|exact Hs].
    apply try_map_Ok in Hmat. apply list_elem_of_lookup in Hin as [i Hi].
    destruct (Forall2_lookup_r _ _ _ _ _ Hmat Hi) as ([k' v] & Hk' & Hf).
    apply bind_Ok in Hf as (? & _ & [= <- _]).
    apply list_elem_of_lookup_2 in Hk'. by apply list_elem_of_filter in Hk' as [Hk' _].
Qed.

End mandatory_effects.
