(* ===== verification/PonErrors.v ===== *)
(** * PonErrors: where the conservation error can come from

    [quiet r] says that a fallible step does not report that error; it is
    closed under [?], so only the final check of a block can report
    ["CONSERVATION"]. *)

From stdpp Require Import base gmap list sorting strings.
From S2P Require Import Prelude Crypto Wire WireTheorems PonState PonExecutor PonTracked PonSafety PonParallel.

Definition quiet {A} (r : PonResult A) : Prop := r <> Err "CONSERVATION"%string.
Definition tx_quiet {A} (c : Tx A) : Prop := forall s, quiet (c s).

Lemma quiet_bind {A B} (r : PonResult A) (f : A -> PonResult B) :
  quiet r -> (forall a, quiet (f a)) -> quiet (r ≫= f).
Proof. intros Hr Hf. destruct r; cbn; [apply Hf| |done]. intros [= ->]. by apply Hr. Qed.

Lemma quiet_ok {A} (a : A) : quiet (Ok a).
Proof. done. Qed.
Lemma quiet_require b e : (e =? "CONSERVATION")%string = false -> quiet (require b e).
Proof. intros He. destruct b; [done|]. intros [= ->]. done. Qed.
Lemma quiet_ok_or {A} (o : option A) e : (e =? "CONSERVATION")%string = false -> quiet (ok_or o e).
Proof. intros He. destruct o; [done|]. intros [= ->]. done. Qed.
Lemma quiet_map_err {E A} (r : result E A) e : (e =? "CONSERVATION")%string = false -> quiet (map_err (fun _ => e) r).
Proof. intros He. destruct r; [done| |done]. intros [= ->]. done. Qed.
Lemma quiet_expect {A} (o : option A) : quiet (expect o).
Proof. by destruct o. Qed.
Lemma quiet_u_div a b : quiet (u_div a b).
Proof. unfold u_div. by destruct (b =? 0). Qed.
Lemma quiet_set_index v k x : quiet (set_index v k x).
Proof. by destruct v. Qed.
Lemma quiet_fold {A B} (f : B -> A -> PonResult B) l b : (forall b a, quiet (f b a)) -> quiet (try_fold f b l).
Proof. intros Hf. revert b. induction l as [|a l IH]; intros b; cbn; [done|]. by apply quiet_bind. Qed.
Lemma quiet_map {A B} (f : A -> PonResult B) l : (forall a, quiet (f a)) -> quiet (try_map f l).
Proof.
  intros Hf. induction l as [|a l IH]; cbn; [done|]. apply quiet_bind; [done|]. intros b. by apply quiet_bind.
Qed.

Create HintDb quiet.
#[export] Hint Resolve quiet_ok quiet_expect quiet_u_div quiet_set_index : quiet.

(** Follow a chain of fallible steps. *)
Ltac hush :=
  repeat first
    [ solve [eauto with quiet]
    | match goal with
      | |- quiet (_ ≫= _) => apply quiet_bind; [|intros ?]
      | |- quiet (require _ _) => apply quiet_require; reflexivity
      | |- quiet (ok_or _ _) => apply quiet_ok_or; reflexivity
      | |- quiet (map_err _ _) => apply quiet_map_err; reflexivity
      | |- quiet (try_fold _ _ _) => apply quiet_fold; intros ? ?
      | |- quiet (try_map _ _) => apply quiet_map; intros ?
      | |- quiet (match ?p with pair _ _ => _ end) => destruct p
      | |- quiet (if ?b then _ else _) => destruct b
      | |- quiet (match ?o with Some _ => _ | None => _ end) => destruct o
      | |- quiet (match ?o with [] => _ | _ :: _ => _ end) => destruct o
      | |- quiet (Ok _) => done
      | |- quiet (Err _) => discriminate
      end ].

Lemma quiet_field v k : quiet (field v k).
Proof. unfold field, num. hush. Qed.
Lemma quiet_text v k : quiet (text v k).
Proof. unfold text. hush. Qed.
Lemma quiet_add a b : quiet (add a b).
Proof. unfold add. hush. Qed.
Lemma quiet_num v : quiet (num v).
Proof. unfold num. hush. Qed.
#[export] Hint Resolve quiet_field quiet_text quiet_add quiet_num : quiet.
Lemma quiet_field_or v k d : quiet (field_or v k d).
Proof. unfold field_or. hush. Qed.
Lemma quiet_limit cfg k : quiet (limit cfg k).
Proof. apply quiet_field. Qed.
Lemma quiet_and_then a b : quiet a -> quiet b -> quiet (and_then a b).
Proof. intros. unfold and_then. hush. Qed.
#[export] Hint Resolve quiet_field_or quiet_limit : quiet.
Ltac hushes := repeat first [apply quiet_and_then | progress hush].

(** ** Transactions *)

Lemma tx_quiet_bind {A B} (c : Tx A) (f : A -> Tx B) : tx_quiet c -> (forall a, tx_quiet (f a)) -> tx_quiet (c ≫= f).
Proof. intros Hc Hf s. apply quiet_bind; [apply Hc|]. intros a. apply Hf. Qed.
Lemma tx_quiet_liftr {A} (r : PonResult A) : quiet r -> tx_quiet (liftr r).
Proof. intros Hr s. by apply quiet_bind. Qed.
Lemma tx_quiet_view {A} (f : View -> A * View) : tx_quiet (on_view f).
Proof. intros s. unfold on_view. by destruct (f (t_view s)). Qed.
Lemma tx_quiet_take n : tx_quiet (take_n n).
Proof. intros s. unfold take_n. hush. Qed.
Lemma tx_quiet_ret {A} (a : A) : tx_quiet (mret a).
Proof. done. Qed.

Section errors.
Context `{CryptoCrates} `{SerdeJson}.

Lemma quiet_hash32 s : quiet (hash32 s).
Proof. unfold hash32. hush. Qed.
Lemma quiet_canonical v : quiet (canonical v).
Proof.
  unfold canonical. apply quiet_bind; [|intros; hush]. revert v.
  fix IH 1. intros [|b|n|s|xs|m]; cbn [visit]; try done; try (apply quiet_require; reflexivity).
  - induction xs as [|x xs IHxs]; [done|]. apply quiet_bind; [apply IH|]. intros _. apply IHxs.
  - induction m as [|[k v] m IHm]; [done|]. apply quiet_bind; [by apply quiet_require|]. intros _.
    apply quiet_bind; [apply IH|]. intros _. apply IHm.
Qed.
Lemma quiet_active v cur h cfg : quiet (active_candidate v cur h cfg).
Proof. unfold active_candidate. hushes. Qed.
Lemma quiet_allocation l : quiet (allocation_root l).
Proof. unfold allocation_root. hush. Qed.
Hint Resolve quiet_hash32 quiet_canonical quiet_active quiet_allocation : quiet.

(** Follow a command. *)
Ltac tx_hush :=
  repeat first
    [ apply tx_quiet_ret | apply tx_quiet_take | apply tx_quiet_view
    | match goal with
      | |- tx_quiet (_ ≫= _) => apply tx_quiet_bind; [|intros ?]
      | |- tx_quiet (liftr _) => apply tx_quiet_liftr; solve [hushes]
      | |- tx_quiet (match ?p with pair _ _ => _ end) => destruct p
      | |- tx_quiet (if ?b then _ else _) => destruct b
      | |- tx_quiet (account _) => unfold account
      | |- tx_quiet (credit _ _) => unfold credit
      | |- tx_quiet (debit _ _) => unfold debit
      | |- tx_quiet (object _ _) => unfold object
      | |- tx_quiet (deadline _ _ _) => unfold deadline
      | |- tx_quiet (deadline_with_lifetime _ _ _ _) => unfold deadline_with_lifetime, count_pending
      | |- tx_quiet read_u64 => unfold read_u64
      | |- tx_quiet read_byte => unfold read_byte
      | |- tx_quiet read_hash => apply tx_quiet_take
      end ].

Lemma tx_quiet_repeat {A} n (f : A -> Tx A) a : (forall a, tx_quiet (f a)) -> tx_quiet (repeat_tx n f a).
Proof. intros Hf. revert a. induction n as [|n IH]; intros a; cbn; [done|]. by apply tx_quiet_bind. Qed.
Lemma tx_quiet_put_all rows : tx_quiet (put_all rows).
Proof. induction rows as [|[k v] rows IH]; cbn; [done|]. apply tx_quiet_bind; [apply tx_quiet_view|done]. Qed.
Lemma tx_quiet_adopt cur acc : tx_quiet (adopt_step cur acc).
Proof. unfold adopt_step. tx_hush. Qed.
Lemma tx_quiet_climb leaf : tx_quiet (climb leaf).
Proof. unfold climb. tx_hush. Qed.

Lemma tx_quiet_command cfg tx sender fee h : tx_quiet (command cfg tx sender fee h).
Proof.
  assert (Herr : tx_quiet (liftr (A := ()) (Err "VERSION"%string))) by (intros s; discriminate).
  assert (Hrep : forall n cur, tx_quiet (repeat_tx n (adopt_step cur) ([], [], 0)))
    by (intros; apply tx_quiet_repeat, tx_quiet_adopt).
  assert (Hcl : forall n leaf, tx_quiet (repeat_tx n climb leaf)) by (intros; apply tx_quiet_repeat, tx_quiet_climb).
  assert (Hput : forall rows, tx_quiet (put_all rows)) by apply tx_quiet_put_all.
  unfold command. destruct (e_tag tx) as [|t|t]; try exact Herr. do 4 (try (destruct t; try exact Herr)).
  all: unfold cmd_transfer, cmd_reserve_task, cmd_cancel_task, cmd_record_receipt, cmd_accept_task, cmd_contribute,
    cmd_evaluate, cmd_publish_release, cmd_claim_reward, cmd_reserve_quota, cmd_consume_quota, cmd_register_work,
    count_active, min_score; cbv zeta.
  all: repeat first [apply Hrep | apply Hcl | apply Hput | progress tx_hush].
Qed.

Lemma tx_quiet_transaction p h cfg : tx_quiet (run_transaction p h cfg).
Proof.
  assert (Hcmd : forall fee, tx_quiet (command cfg (pr_envelope p) (pr_sender p) fee h)) by (intros; apply tx_quiet_command).
  unfold run_transaction, transaction_fee. cbv zeta.
  repeat first [apply Hcmd | progress tx_hush | match goal with |- tx_quiet (fun s => _) => intros s; solve [hush] end].
Qed.

Lemma quiet_apply b p h cfg : quiet (apply_prepared b p h cfg).
Proof. unfold apply_prepared. apply quiet_bind; [apply tx_quiet_transaction|]. by intros [[? ?] ?]. Qed.

Lemma quiet_prepare raw h cfg : quiet (fst (prepare raw h cfg)).
Proof.
  unfold prepare. match goal with |- quiet (fst (match ?r with _ => _ end)) => assert (Hr : quiet r) by hush; destruct r end;
    cbn [fst]; [hush|intros [= ->]; by apply Hr|done].
Qed.

Lemma quiet_credit_state st who n : quiet (credit_state st who n).
Proof. unfold credit_state. hush. Qed.
Hint Resolve quiet_credit_state : quiet.

Lemma quiet_mandatory st h cfg : quiet (mandatory st h cfg).
Proof.
  unfold mandatory, retire_step, retire_candidate, collect_due, expire_step, mature_step. cbv zeta. hushes.
Qed.

(** Only the end of the block can report it. *)
Lemma serial_block_error h cfg parent txs miner pid :
  serial_block h cfg parent txs miner pid = Err "CONSERVATION"%string ->
  exists st0 rs0 st rs paid, mandatory parent h cfg = Ok (st0, rs0) /\
    try_fold (serial_step h cfg) (st0, rs0, 0) txs = Ok (st, rs, paid) /\
    finish_state st paid h miner pid cfg = Err "CONSERVATION"%string.
Proof.
  assert (Hbind : forall A B (r : PonResult A) (f : A -> PonResult B),
    quiet r -> r ≫= f = Err "CONSERVATION"%string -> exists a, r = Ok a /\ f a = Err "CONSERVATION"%string).
  { intros A B r f Hr Hf. destruct r; cbn in Hf; [by eexists|by injection Hf as ->|done]. }
  unfold serial_block. intros Hf. apply Hbind in Hf as (max & _ & Hf); [|hush].
  apply Hbind in Hf as ([] & _ & Hf); [|hush]. apply Hbind in Hf as ([st0 rs0] & Hm & Hf); [|apply quiet_mandatory].
  apply Hbind in Hf as ([[st rs] paid] & Hs & Hf).
  - exists st0, rs0, st, rs, paid. split; [done|]. split; [done|].
    destruct (finish_state st paid h miner pid cfg) as [st'|e|]; cbn in Hf; [|by injection Hf as ->|done].
    exfalso. revert Hf. change (quiet (root ← pon_root st'; Ok (st', rs, root))). unfold pon_root. hush.
  - apply quiet_fold. intros [[st1 rs1] paid1] raw. unfold serial_step. apply quiet_bind; [apply quiet_prepare|]. intros p.
    apply quiet_bind; [apply quiet_apply|]. intros patch. hush.
Qed.

End errors.
