(* ===== verification/PonTheorems.v ===== *)
(** * PonTheorems: conservation and replay protection of blocks

    The effects of [PonFunds] summed over a block. *)

From stdpp Require Import base gmap list sorting strings.
From S2P Require Import Prelude Crypto Wire WireTheorems PonState PonExecutor PonTracked PonSafety PonParallel PonFunds PonErrors.

Section blocks.
Context `{CryptoCrates} `{SerdeJson}.
Context (height : Z) (cfg : Config).

(** The text of an encoded transaction's sender. *)
Definition sender_of (raw : list Z) : option bstring :=
  match decode_envelope raw with Ok e => Some (hex_encode (e_sender e)) | _ => None end.
Definition sent_by (who : bstring) (raw : list Z) : Z := if decide (sender_of raw = Some who) then 1 else 0.
Definition nonce_in (raw : list Z) : Z := match decode_envelope raw with Ok e => e_nonce e | _ => 0 end.

Lemma prepare_sender raw p :
  fst (prepare raw height cfg) = Ok p -> sender_of raw = Some (pr_sender p) /\ nonce_in raw = e_nonce (pr_envelope p).
Proof.
  unfold prepare, sender_of, nonce_in. destruct (decode_envelope raw) as [tx| |]; cbn [map_err mbind result_bind]; try done.
  destruct (require (e_network tx =?? network cfg) "NETWORK"); cbn [mbind result_bind]; try done.
  destruct (require (height <=? e_expiry tx) "EXPIRED"); cbn [mbind result_bind fst]; try done.
  intros Hp. rinv. by subst.
Qed.

(** One committed transaction of the serial execution. *)
Lemma serial_step_effect acc raw acc' :
  serial_step height cfg acc raw = Ok acc' ->
  exists who fee, sender_of raw = Some who /\ tx_effect who (nonce_in raw) fee acc.1.1 acc'.1.1 /\ acc'.2 = acc.2 + fee.
Proof.
  destruct acc as [[st rs] paid]. unfold serial_step. intros Hs. rinv. subst.
  match goal with Hp : fst (prepare _ _ _) = Ok _ |- _ => apply prepare_sender in Hp as [Hw Hn] end.
  match goal with Ha : apply_prepared _ _ _ _ = Ok _ |- _ => apply apply_prepared_effect in Ha end.
  unfold add in *. rinv. checked. subst. eexists _, _. split; [exact Hw|]. rewrite Hn. done.
Qed.

(** What the transactions of a block do together. *)
Record block_effect (txs : list (list Z)) (m m' : State) (paid : Z) : Prop := mkBlockEffect {
  be_total : total m' = total m - paid;
  be_nonce : forall who, nonce_of m' who = nonce_of m who + lsum (sent_by who) txs;
  be_window : forall raw who, raw ∈ txs -> sender_of raw = Some who -> nonce_of m who < nonce_in raw <= nonce_of m' who;
  be_once : NoDup txs;
  be_frame : forall k, protected k -> m' !! k = m !! k;
}.

Lemma account_key_inj a b : account_key a = account_key b -> a = b.
Proof. by intros ?%(inj _). Qed.

Lemma sent_by_nonneg who txs : 0 <= lsum (sent_by who) txs.
Proof. apply lsum_nonneg. intros raw _. unfold sent_by. by destruct (decide _). Qed.

Lemma serial_steps_effect txs acc acc' :
  try_fold (serial_step height cfg) acc txs = Ok acc' ->
  block_effect txs acc.1.1 acc'.1.1 (acc'.2 - acc.2) /\ Forall (fun raw => is_Some (sender_of raw)) txs.
Proof.
  revert acc. induction txs as [|raw txs IH]; intros acc Hf; cbn [try_fold] in Hf.
  - injection Hf as <-. split; [|constructor]. split; try done; [lia|intros; rewrite lsum_nil; lia|by intros ? ? ?%elem_of_nil|constructor].
  - apply bind_Ok in Hf as (a1 & Hs & Hf). apply serial_step_effect in Hs as (who & fee & Hw & [T [N1 N2] O F] & Hp).
    apply IH in Hf as [[BT BN BW BO BF] Hall]. split; [|by constructor].
    assert (Hnon : forall w, nonce_of a1.1.1 w = nonce_of acc.1.1 w + sent_by w raw).
    { intros w. unfold sent_by. rewrite Hw. destruct (decide (Some who = Some w)) as [[= <-]|Hne]; [lia|].
      rewrite O; [lia|]. intros E%account_key_inj. by subst. }
    assert (Hpos : forall w, nonce_of a1.1.1 w <= nonce_of acc'.1.1 w) by (intros w; rewrite BN; pose proof (sent_by_nonneg w txs); lia).
    split.
    + rewrite BT, T. lia.
    + intros w. rewrite BN, Hnon, lsum_cons. lia.
    + intros r w Hr Hrw. apply elem_of_cons in Hr as [->|Hr].
      * rewrite Hw in Hrw. injection Hrw as <-. specialize (Hpos who). lia.
      * specialize (BW r w Hr Hrw). specialize (Hnon w). unfold sent_by in Hnon. destruct (decide _); lia.
    + constructor; [|done]. intros Hin. specialize (BW raw who Hin Hw). lia.
    + intros k Hk. by rewrite BF, F.
Qed.

Lemma reward_key_facts pid miner v :
  amount_of (reward_key pid height miner) v = u64_field v "amount" /\
  starts_with (reward_key pid height miner) (str "reward:") = true /\ reward_key pid height miner <> str "meta:issued" /\
  forall who, account_key who <> reward_key pid height miner.
Proof.
  unfold reward_key. set (x := hex_encode _). split_and!.
  - unfold amount_of, is_obligation. by prefixes.
  - apply prefix_same.
  - done.
  - intros who E. pose proof (clash_prefix (str "reward:") (str "account:") x eq_refl) as Hp. rewrite <- E in Hp.
    unfold account_key in Hp. by rewrite prefix_same in Hp.
Qed.

(** The end of a block on a ledger without this block's reward. *)
Lemma finish_state_total st paid miner pid r issued v :
  st !! reward_key pid height miner = None -> st !! str "meta:issued" = Some v -> num v = Ok issued ->
  total st + paid = issued ->
  finish_state st paid height miner pid cfg = r ->
  r <> Err "CONSERVATION"%string /\
  forall st', r = Ok st' -> exists subsidy, block_subsidy height cfg = Ok subsidy /\
    funds st' = Ok (issued + subsidy) /\ st' !! str "meta:issued" = Some (json_u64 (issued + subsidy)).
Proof.
  intros Hfresh Hv Hi Ht <-. destruct (reward_key_facts pid miner Null) as (_ & _ & Hne & _).
  pose proof (fun v => proj1 (reward_key_facts pid miner v)) as Hamt. unfold finish_state.
  destruct (block_subsidy height cfg) as [subsidy|e|] eqn:Esub; cbn [mbind result_bind].
  2: { split; [|done]. change (quiet (A := State) (Err e)). intros [= ->].
       assert (quiet (block_subsidy height cfg)) by (unfold block_subsidy; hush). congruence. }
  2: done.
  destruct (add paid subsidy) as [amount|e|] eqn:Ea; cbn [mbind result_bind]; [|split; [|done]|done].
  2: { intros [= ->]. by apply quiet_add in Ea. }
  destruct (limit cfg "reward_maturity_blocks") as [mat|e|] eqn:Em; cbn [mbind result_bind]; [|split; [|done]|done].
  2: { intros [= ->]. by apply quiet_limit in Em. }
  destruct (add height mat) as [mature|e|] eqn:Eh; cbn [mbind result_bind]; [|split; [|done]|done].
  2: { intros [= ->]. by apply quiet_add in Eh. }
  rewrite lookup_insert_ne, Hv by done. cbn [ok_or mbind result_bind]. rewrite Hi. cbn [mbind result_bind].
  destruct (add issued subsidy) as [after|e|] eqn:Ei; cbn [mbind result_bind]; [|split; [|done]|done].
  2: { intros [= ->]. by apply quiet_add in Ei. }
  unfold add in Ea, Ei. apply ok_or_Ok, checked_add_Some in Ea as [-> _], Ei as [-> _].
  set (st' := <[str "meta:issued" := _]> _).
  assert (Htot : total st' = issued + subsidy).
  { unfold st', total. rewrite !kmap_sum_insert. fold (total st). rewrite Hamt. unfold entry_sum.
    rewrite lookup_insert_ne, Hv, Hfresh by done. cbn [fmap option_fmap option_map default from_option id].
    change (u64_field (json_object _) "amount") with (paid + subsidy).
    change (amount_of (str "meta:issued") ?x) with 0. lia. }
  destruct (funds st') as [f|e|] eqn:Ef; cbn [mbind result_bind]; [|split; [|done]|done].
  2: { intros [= ->]. assert (quiet (funds st')) by (unfold funds, add_funds; hush). congruence. }
  pose proof (funds_total _ _ Ef) as ->. rewrite Htot, Z.eqb_refl. cbn [require mbind result_bind]. split; [done|].
  intros ? [= <-]. exists subsidy. split; [done|]. split; [by rewrite Ef, Htot|]. by apply lookup_insert_eq.
Qed.

Lemma finish_state_nonce st paid miner pid st' who :
  finish_state st paid height miner pid cfg = Ok st' -> nonce_of st' who = nonce_of st who.
Proof.
  destruct (reward_key_facts pid miner Null) as (_ & _ & _ & Hacc). unfold finish_state. intros Hs. cbv zeta in Hs. rinv. subst.
  unfold nonce_of. rewrite !lookup_insert_ne; [done|by intros E; apply (Hacc who)|by intros E].
Qed.

Context (Hcfg : config_ok cfg).

(** The inputs a block runs on. *)
Record block_input (started : nat -> bool) (parent : State) (txs : list (list Z)) (workers : Z) : Prop := mkBlockInput {
  bi_state : state_ok parent;
  bi_bytes : Forall (Forall is_byte) txs;
  bi_started : forall i, started i = true;
  bi_workers : workers ∈ [1; 2; 4; 8];
}.

(** A ledger whose value is its issuance. *)
Definition conserving (st : State) (issued : Z) : Prop :=
  funds st = Ok issued /\ exists v, st !! str "meta:issued" = Some v /\ num v = Ok issued.

Lemma committed_block started parent txs miner pid workers out :
  block_input started parent txs workers -> execute started parent txs height miner pid workers cfg = Ok out ->
  exists st0 rs0 st rs paid, mandatory parent height cfg = Ok (st0, rs0) /\
    try_fold (serial_step height cfg) (st0, rs0, 0) txs = Ok (st, rs, paid) /\
    finish_state st paid height miner pid cfg = Ok (o_state out).
Proof.
  intros [Hs Hb Hst Hw] Hout. destruct (execute_serial height cfg Hcfg started parent txs miner pid workers Hs Hb Hst Hw) as [E _].
  rewrite Hout in E. cbn in E. symmetry in E. unfold serial_block in E. apply bind_Ok in E as (? & _ & E).
  apply bind_Ok in E as (? & _ & E). apply bind_Ok in E as ([st0 rs0] & Hm & E). apply bind_Ok in E as ([[st rs] paid] & Hf & E).
  apply bind_Ok in E as (st' & Hfin & E). apply bind_Ok in E as (root & _ & [= <- _ _]). by eexists _, _, _, _, _.
Qed.

(** ** Theorems *)

(** C34: blocks conserve value.  From a ledger whose funds equal its issuance, and
    with a fresh reward key, the conservation check never refuses a block: value
    only moves between accounts, obligations and rewards.  A committed block
    issues exactly its subsidy and again leaves funds equal to issuance. *)
Theorem pon_blocks_conserve_value started parent txs miner pid workers issued :
  block_input started parent txs workers -> conserving parent issued ->
  parent !! reward_key pid height miner = None ->
  execute started parent txs height miner pid workers cfg <> Err "CONSERVATION"%string /\
  forall out, execute started parent txs height miner pid workers cfg = Ok out ->
    exists subsidy, block_subsidy height cfg = Ok subsidy /\ conserving (o_state out) (issued + subsidy).
Proof.
  intros Hin [Hf (v & Hv & Hi)] Hfresh.
  assert (Hend : forall st0 rs0 st rs paid r, mandatory parent height cfg = Ok (st0, rs0) ->
    try_fold (serial_step height cfg) (st0, rs0, 0) txs = Ok (st, rs, paid) ->
    finish_state st paid height miner pid cfg = r -> r <> Err "CONSERVATION"%string /\
    forall st', r = Ok st' -> exists subsidy, block_subsidy height cfg = Ok subsidy /\ conserving st' (issued + subsidy)).
  { intros st0 rs0 st rs paid r Hm Hs Hr. apply mandatory_settled in Hm as [T _ M R].
    apply serial_steps_effect in Hs as [[BT _ _ _ BF] _]. cbn [fst snd] in *. apply funds_total in Hf.
    destruct (finish_state_total st paid miner pid r issued v) as [Hne Hok].
    - destruct (reward_key_facts pid miner Null) as (_ & Hp & _). rewrite BF by by left. by apply R.
    - rewrite BF by by right. by rewrite M.
    - done.
    - rewrite BT, T. lia.
    - exact Hr.
    - split; [done|]. intros st' Hst'. destruct (Hok st' Hst') as (sub & Hsub & Hfs & Hms). exists sub. split; [done|].
      split; [done|]. by eexists. }
  split.
  - intros Herr. destruct Hin as [Hs Hb Hst Hw].
    destruct (execute_serial height cfg Hcfg started parent txs miner pid workers Hs Hb Hst Hw) as [E _].
    rewrite Herr in E. symmetry in E. apply serial_block_error in E as (st0 & rs0 & st & rs & paid & Hm & Hf' & Hfin).
    by destruct (Hend _ _ _ _ _ _ Hm Hf' Hfin) as [Hne _].
  - intros out Hout. destruct (committed_block _ _ _ _ _ _ _ Hin Hout) as (st0 & rs0 & st & rs & paid & Hm & Hf' & Hfin).
    by apply (Hend _ _ _ _ _ _ Hm Hf' Hfin).
Qed.

(** Nonces count committed transactions.  In a committed block every sender's
    nonce grows by exactly the number of its transactions, each of which carries a
    nonce above the parent's and at most the result's; so no transaction occurs
    twice in a block, and none can be committed again on top of it. *)
Theorem pon_nonces_exact started parent txs miner pid workers out :
  block_input started parent txs workers -> execute started parent txs height miner pid workers cfg = Ok out ->
  (forall who, nonce_of (o_state out) who = nonce_of parent who + lsum (sent_by who) txs) /\
  (forall raw, raw ∈ txs -> exists who, sender_of raw = Some who /\
     nonce_of parent who < nonce_in raw <= nonce_of (o_state out) who) /\
  NoDup txs.
Proof.
  intros Hin Hout.
  destruct (committed_block _ _ _ _ _ _ _ Hin Hout) as (st0 & rs0 & st & rs & paid & Hm & Hs & Hfin).
  apply mandatory_settled in Hm as [_ N _ _]. apply serial_steps_effect in Hs as [[_ BN BW BO _] Hall]. cbn [fst snd] in *.
  pose proof (fun who => finish_state_nonce _ _ _ _ _ who Hfin) as Hnon. split_and!.
  - intros who. by rewrite Hnon, BN, N.
  - intros raw Hraw. rewrite Forall_forall in Hall. destruct (Hall raw Hraw) as [who Hw]. exists who. split; [done|].
    rewrite Hnon, <- N. by apply BW.
  - exact BO.
Qed.

End blocks.
