(* ===== verification/PonAllocation.v ===== *)
(** * PonAllocation: every adopted contribution can be claimed

    The publisher folds the allocation leaves into a root; a claimant climbs from
    its leaf with one sibling per level.  The loop of [allocation_root] ends, and
    for each leaf there are siblings, of the number the claim demands, that lead
    to the published root. *)

From stdpp Require Import base gmap list sorting strings.
From S2P Require Import Prelude Crypto Wire PonState PonExecutor PonTracked.

Section allocation.
Context `{CryptoCrates} (Hsha : forall m, zlen (sha256 m) = 32).

Lemma pair_hash_comm a b : pair_hash a b = pair_hash b a.
Proof.
  unfold pair_hash. rewrite !ord_ltb_leb. destruct (ord_leb b a) eqn:E1, (ord_leb a b) eqn:E2; cbn; try done.
  - by rewrite (anti_symm ord_le a b E2 E1).
  - by destruct (total ord_le a b) as [F|F]; unfold ord_le in F; congruence.
Qed.

Lemma pair_up_even l : (length (pair_up l) = Nat.div2 (length l))%nat.
Proof. induction l as [l IH] using (induction_ltof1 _ (@length _)). destruct l as [|a [|b l]]; cbn; [done..|].
  f_equal. apply IH. unfold ltof. cbn. lia. Qed.

(** Pairing puts an element and its neighbour under their parent. *)
Lemma pair_up_lookup l i a :
  l !! i = Some a -> Nat.Even (length l) ->
  exists s, s ∈ l /\ pair_up l !! Nat.div2 i = Some (pair_hash a s).
Proof.
  revert i. induction l as [l IH] using (induction_ltof1 _ (@length _)). intros i Hi Hev.
  destruct l as [|x [|y l]]; [done|by destruct Hev; cbn in *; lia|].
  destruct i as [|[|i]]; cbn in Hi.
  - injection Hi as ->. exists y. split; [by right; left|done].
  - injection Hi as ->. exists x. split; [by left|]. cbn. by rewrite pair_hash_comm.
  - destruct (IH l ltac:(unfold ltof; cbn; lia) i Hi) as (s & Hs & Hp).
    + destruct Hev as [k Hk]. cbn in Hk. exists (k - 1)%nat. lia.
    + exists s. split; [by right; right|done].
Qed.

Lemma pad_even_facts l :
  l <> [] -> Nat.Even (length (pad_even l)) /\ (length (pad_even l) <= length l + 1)%nat /\
  (forall i a, l !! i = Some a -> pad_even l !! i = Some a) /\ (forall a, a ∈ pad_even l -> a ∈ l).
Proof.
  intros Hl. unfold pad_even. destruct (Nat.even (length l)) eqn:E; [apply Nat.even_spec in E; split_and!; try done; lia|].
  destruct (last l) as [x|] eqn:Ex; [|by apply last_None in Ex]. cbn [option_list]. rewrite length_app. cbn.
  split_and!; [|lia| |].
  - apply Nat.even_spec. rewrite Nat.even_add. rewrite E. done.
  - intros i a Hi. by apply lookup_app_l_Some.
  - intros a [Ha|Ha]%elem_of_app; [done|]. apply list_elem_of_singleton in Ha as ->. by apply last_Some_elem_of.
Qed.

Lemma bit_length_half n : 1 <= n -> bit_length n = 1 + bit_length (n / 2).
Proof.
  intros Hn. unfold bit_length. rewrite (proj2 (Z.eqb_neq n 0)) by lia. destruct (decide (n = 1)) as [->|Hne]; [done|].
  assert (1 <= n / 2) by (apply Z.div_le_lower_bound; lia). rewrite (proj2 (Z.eqb_neq (n / 2) 0)) by lia.
  rewrite <- Z.div2_div, Z.div2_spec, Z.log2_shiftr by lia. pose proof (Z.log2_le_mono 2 n). cbn in *. lia.
Qed.

(** The reduction ends in one root that every leaf climbs to. *)
Lemma reduce_leaves_root fuel l :
  l <> [] -> (length l <= fuel)%nat -> Forall (fun h => zlen h = 32) l ->
  exists r, reduce_leaves fuel l = [r] /\ forall i leaf, l !! i = Some leaf ->
    exists siblings, zlen siblings = bit_length (zlen l - 1) /\ Forall (fun h => zlen h = 32) siblings /\
      foldl pair_hash leaf siblings = r.
Proof.
  revert l. induction fuel as [|fuel IH]; intros l Hl Hlen H32; [destruct l; cbn in *; [done|lia]|].
  cbn [reduce_leaves]. destruct (1 <? length l)%nat eqn:E.
  - apply Nat.ltb_lt in E. destruct (pad_even_facts l Hl) as (Hev & Hle & Hlook & Hsub).
    assert (Hge : (length l <= length (pad_even l))%nat).
    { unfold pad_even. destruct (Nat.even _); [done|]. rewrite length_app. lia. }
    pose proof (pair_up_even (pad_even l)) as Hpl. apply Nat.Even_double in Hev as Hd. unfold Nat.double in Hd.
    destruct (IH (pair_up (pad_even l))) as (r & Hr & Hclimb).
    + destruct (pair_up (pad_even l)); [cbn in Hpl; lia|done].
    + lia.
    + clear -Hsha. generalize (pad_even l) as k. induction k as [k IH] using (induction_ltof1 _ (@length _)).
      destruct k as [|a [|b k]]; cbn; [constructor..|]. constructor; [|apply IH; unfold ltof; cbn; lia].
      unfold pair_hash. destruct (ord_ltb a b); apply Hsha.
    + exists r. split; [done|]. intros i leaf Hi. destruct (pair_up_lookup (pad_even l) i leaf (Hlook i leaf Hi) Hev) as (s & Hs & Hp).
      destruct (Hclimb _ _ Hp) as (sibs & Hn & H32s & Hf). exists (s :: sibs). split_and!.
      * rewrite (bit_length_half (zlen l - 1)) by (unfold zlen; lia).
        assert (Ehalf : (zlen l - 1) / 2 = zlen (pair_up (pad_even l)) - 1).
        { unfold zlen. rewrite Hpl. symmetry. assert (length (pad_even l) = length l \/ length (pad_even l) = S (length l))%nat as [Eq|Eq] by lia.
          - apply (Z.div_unique_pos _ _ _ 1); lia.
          - apply (Z.div_unique_pos _ _ _ 0); lia. }
        rewrite Ehalf, <- Hn. unfold zlen. cbn [length]. lia.
      * constructor; [|done]. rewrite Forall_forall in H32. apply H32. by apply Hsub.
      * done.
  - apply Nat.ltb_ge in E. destruct l as [|r [|? ?]]; [done| |cbn in E; lia]. exists r. split; [done|].
    intros [|i] leaf Hi; [|done]. injection Hi as ->. exists []. by split_and!.
Qed.

(** The claim's loop reads the siblings from the payload. *)
Lemma climb_reads siblings leaf v pre post :
  Forall (fun h => zlen h = 32) siblings -> zlen (pre ++ mjoin siblings ++ post) <= u64_max ->
  repeat_tx (length siblings) climb leaf (mkTxState v (mkPayload (pre ++ mjoin siblings ++ post) (zlen pre))) =
  Ok (foldl pair_hash leaf siblings,
      mkTxState v (mkPayload (pre ++ mjoin siblings ++ post) (zlen pre + 32 * zlen siblings))).
Proof.
  intros H32. revert leaf pre. induction H32 as [|s siblings Hs _ IH]; intros leaf pre Hmax; cbn [repeat_tx length foldl].
  - unfold mret, Tx_ret. change (zlen (@nil (list Z))) with 0. by rewrite Z.mul_0_r, Z.add_0_r.
  - change (mjoin (s :: siblings)) with (s ++ mjoin siblings) in *. rewrite <- (app_assoc s) in *.
    assert (Hclimb : climb leaf (mkTxState v (mkPayload (pre ++ s ++ mjoin siblings ++ post) (zlen pre))) =
      Ok (pair_hash leaf s, mkTxState v (mkPayload (pre ++ s ++ mjoin siblings ++ post) (zlen pre + 32)))).
    { assert (Hlen : zlen pre + 32 <= zlen (pre ++ s ++ mjoin siblings ++ post)) by (unfold zlen in *; rewrite !length_app; lia).
      unfold climb, read_hash, mbind, Tx_bind, take_n. cbn [t_payload p_pos p_bytes].
      rewrite checked_add_fits by lia. cbn [ok_or mbind result_bind]. rewrite (proj2 (Z.leb_le _ _)) by exact Hlen.
      cbn [ok_or mbind result_bind fst snd]. replace (Z.to_nat (zlen pre)) with (length pre) by (unfold zlen; lia).
      rewrite drop_app_length. replace (Z.to_nat 32) with (length s) by (unfold zlen in Hs; lia). by rewrite take_app_length. }
    specialize (IH (pair_hash leaf s) (pre ++ s)). rewrite <- app_assoc in IH. specialize (IH Hmax).
    unfold mbind, Tx_bind. rewrite Hclimb. cbn [mbind result_bind fst snd].
    assert (Epos : zlen (pre ++ s) = zlen pre + 32) by (unfold zlen in *; rewrite length_app; lia). rewrite Epos in IH.
    rewrite IH. replace (zlen pre + 32 * zlen (s :: siblings)) with (zlen pre + 32 + 32 * zlen siblings); [done|].
    unfold zlen. cbn [length]. lia.
Qed.

(** ** Theorem *)

(** C36: adopted contributions are claimable.  A nonempty list of allocation
    leaves has a root, and every leaf has a proof with exactly the number of
    siblings that a claim on that many leaves must supply, such that the claim's
    loop, reading it from the payload, arrives at the root and at the end of the
    proof. *)
Theorem allocations_are_claimable leaves i leaf :
  Forall (fun h => zlen h = 32) leaves -> leaves !! i = Some leaf ->
  exists r siblings, allocation_root leaves = Ok r /\ zlen siblings = bit_length (zlen leaves - 1) /\
    forall v pre post, zlen (pre ++ mjoin siblings ++ post) <= u64_max ->
    repeat_tx (Z.to_nat (bit_length (zlen leaves - 1))) climb leaf
      (mkTxState v (mkPayload (pre ++ mjoin siblings ++ post) (zlen pre))) =
    Ok (r, mkTxState v (mkPayload (pre ++ mjoin siblings ++ post) (zlen pre + zlen (mjoin siblings)))).
Proof.
  intros H32 Hi. assert (Hne : leaves <> []) by (by intros ->).
  destruct (reduce_leaves_root (length leaves) leaves Hne ltac:(lia) H32) as (r & Hr & Hclimb).
  destruct (Hclimb i leaf Hi) as (sibs & Hn & Hs & Hf). exists r, sibs. split_and!.
  - unfold allocation_root. destruct leaves; [done|]. cbn [is_empty negb require mbind result_bind]. by rewrite Hr.
  - done.
  - intros v pre post Hmax. rewrite <- Hn. unfold zlen at 1. rewrite Nat2Z.id, climb_reads by done. rewrite Hf.
    do 4 f_equal. clear -Hs. unfold zlen. induction Hs as [|s sibs Hs _ IH]; [done|].
    change (mjoin (s :: sibs)) with (s ++ mjoin sibs). rewrite length_app. cbn [length]. unfold zlen in Hs. lia.
Qed.

End allocation.
