(* ===== verification/CryptoWitness.v ===== *)
(** * CryptoWitness: a concrete hexadecimal codec

    An executable instance of the crates' interface that satisfies [HexLaws], and
    the theorems of [CryptoTheorems] on concrete inputs.  The hash and the
    signature scheme are stand-ins: a digest is a stretch of the padded message and
    a signature verifies when its first half is the key. *)

From stdpp Require Import base gmap list sorting strings.
From S2P Require Import Prelude Wire WireTheorems Crypto CryptoTheorems.
Import WireWitness.

Definition hex_digit (n : Z) : Z := if n <? 10 then 48 + n else 87 + n.
Definition hex_value (c : Z) : option Z :=
  if (48 <=? c) && (c <=? 57) then Some (c - 48)
  else if (97 <=? c) && (c <=? 102) then Some (c - 87)
  else if (65 <=? c) && (c <=? 70) then Some (c - 55)
  else None.

Fixpoint demo_encode (bytes : list Z) : bstring :=
  match bytes with
  | [] => []
  | b :: bytes => hex_digit (b / 16) :: hex_digit (b `mod` 16) :: demo_encode bytes
  end.

Fixpoint demo_decode (s : bstring) : option (list Z) :=
  match s with
  | [] => Some []
  | a :: b :: s =>
      x ← hex_value a;
      y ← hex_value b;
      rest ← demo_decode s;
      Some (16 * x + y :: rest)
  | [_] => None
  end.

Definition short_hash (m : list Z) : Hash32 := take 32 (drop 25 m ++ replicate 32 0).
Lemma short_hash_length m : zlen (short_hash m) = 32.
Proof. unfold short_hash, zlen. rewrite length_take, length_app, length_replicate. lia. Qed.

#[export] Instance demo_crates : CryptoCrates := {
  sha256 := short_hash;
  hex_encode := demo_encode;
  hex_decode := demo_decode;
  hex_decode_to_slice s n := if zlen s =? 2 * n then demo_decode s else None;
  VerifyingKey := list Z;
  vk_from_bytes := Some;
  vk_to_bytes := id;
  verify_strict key message signature := take 32 signature =?? key;
  SigningKey := list Z;
  sk_from_bytes := id;
  sk_verifying_key := id;
  sk_sign key message := key ++ short_hash message;
}.

Lemma hex_value_digit c v :
  hex_value c = Some v -> 0 <= v < 16 /\ (hex_digit v = c <-> is_ascii_uppercase c = false).
Proof.
  unfold hex_value, hex_digit, is_ascii_uppercase. intros Hv.
  repeat match goal with H : context [if ?b then _ else _] |- _ => destruct b eqn:? end; simplify_eq; bprop;
    (split; [lia|]); case_match; bprop; rewrite andb_false_iff, !Z.leb_gt; lia.
Qed.

Lemma demo_decode_pairs P :
  P [] [] -> (forall a b x y s r, hex_value a = Some x -> hex_value b = Some y -> P s r -> P (a :: b :: s) (16 * x + y :: r)) ->
  forall s r, demo_decode s = Some r -> P s r.
Proof.
  intros Hnil Hstep s. induction s as [s IH] using (induction_ltof1 _ (@length _)). intros r Hr.
  destruct s as [|a [|b s]]; cbn in Hr; simplify_option_eq; [done|].
  apply Hstep; [done..|]. apply IH; [unfold ltof; cbn; lia|done].
Qed.

#[export] Instance demo_hex_laws : HexLaws.
Proof.
  split.
  - intros s b. cbn [hex_decode demo_crates]. revert s b. apply demo_decode_pairs; [done|].
    intros a b x y s r _ _ IH. unfold zlen in *. cbn [length]. lia.
  - done.
  - intros s b. cbn [hex_decode hex_encode demo_crates]. revert s b. apply demo_decode_pairs; [done|].
    intros a b x y s r Ha Hb IH. cbn [demo_encode existsb].
    apply hex_value_digit in Ha as [Bx Ha], Hb as [By Hb].
    replace ((16 * x + y) / 16) with x by (apply Z.div_unique_pos with y; lia).
    replace ((16 * x + y) `mod` 16) with y by (apply Z.mod_unique_pos with x; lia).
    rewrite !orb_false_iff, <- Ha, <- Hb, <- IH. split; [by intros [= -> -> ->]|by intros (-> & -> & ->)].
Qed.

Definition demo_text : bstring := demo_encode (fill 171).

(** The same bytes in capitals decode but are refused. *)
Example capitals_refused :
  demo_decode (alter (fun c => c - 32) 7%nat demo_text) = Some (fill 171) /\
  decode_hash32 (str "k") (alter (fun c => c - 32) 7%nat demo_text) = Err (str "k must use canonical lowercase hex").
Proof. by vm_compute. Qed.

Lemma hash_text_canonical_witness :
  decode_hash32 (str "k") demo_text = reference_decode_hash32 (str "k") demo_text /\
  (decode_hash32 (str "k") demo_text = Ok (fill 171) <->
   hex_decode demo_text = Some (fill 171) /\ zlen (fill 171) = 32 /\ hex_encode (fill 171) = demo_text).
Proof. exact (hash_text_canonical (str "k") demo_text (fill 171)). Defined.

Lemma canonical_point_exact_witness :
  canonical_ed25519_point (fill 9) = true <->
  of_le_bytes (fill 9) mod 2 ^ 255 < ed25519_p /\
  ~ (of_le_bytes (fill 9) / 2 ^ 255 = 1 /\
     (of_le_bytes (fill 9) mod 2 ^ 255 = 1 \/ of_le_bytes (fill 9) mod 2 ^ 255 = ed25519_p - 1)).
Proof.
  apply (canonical_point_exact (fill 9)); [reflexivity|]. apply bytes_check. vm_compute. reflexivity.
Defined.
