(* ===== verification/PonWitness.v ===== *)
(** * PonWitness: the executor on a concrete block

    Two funded accounts pay each other in one block that two workers execute; the
    theorems on blocks and on allocation trees are applied to it.  The limits are
    those of [config/pon/devnet-v1.json]. *)

From stdpp Require Import base gmap list sorting strings.
From S2P Require Import Prelude Wire WireTheorems Crypto CryptoWitness PonState PonExecutor PonSafety PonParallel PonFunds PonTheorems PonAllocation.
Import WireWitness.

(** A stand-in for [serde_json::to_vec] on the values of this block. *)
#[export] Instance demo_json : SerdeJson := fun v =>
  match v with
  | Str s => Some (34 :: s ++ [34])
  | Num (PosInt z) => Some (dec z)
  | _ => Some (str "{}")
  end.

Definition demo_params : Value := json_object
  [("max_transactions", json_u64 256); ("byte_fee_units", json_u64 1); ("candidate_round_blocks", json_u64 128);
   ("subsidy_halving_interval", json_u64 100000); ("block_subsidy_units", json_u64 1000);
   ("reward_maturity_blocks", json_u64 20); ("mandatory_expiry_per_block", json_u64 16)]%string.
Definition demo_cfg : Config := mkConfig (fill 1) (fill 2) (fill 3) (fill 4) ∅ (replicate 13 10) demo_params.

Definition demo_account (balance : Z) : Value := json_object [("balance", json_u64 balance); ("nonce", json_u64 0)]%string.
Definition demo_ledger : State :=
  <[str "model:current" := Str (demo_encode (fill 7))]>
  (<[str "meta:issued" := json_u64 20000]>
  (<[account_key (demo_encode (fill 11)) := demo_account 10000]>
  {[ account_key (demo_encode (fill 12)) := demo_account 10000 ]})).

(** A transfer of 500 units. *)
Definition transfer (from to : Z) : list Z :=
  match encode_envelope (mkEnvelope (fill 1) (fill from) 1 100 1000 1 (fill to ++ le_bytes 8 500)
                           (fill from ++ replicate 32 0)) with Ok b => b | _ => [] end.
Definition demo_block : list (list Z) := [transfer 11 12; transfer 12 11].

Abbreviation demo_execute workers :=
  (execute (fun _ => true) demo_ledger demo_block 5 (fill 9) (fill 8) workers demo_cfg).

Definition balance_of (st : State) (n : Z) : option Z :=
  a ← st !! account_key (demo_encode (fill n)); b ← get_field a (str "balance"); as_u64 b.

Definition demo_output : Output :=
  Eval vm_compute in match demo_execute 2 with Ok out => out | _ => mkOutput ∅ [] [] (mkMetrics 0 0 0 0 0 0 0 0) end.

Lemma demo_execute_ok : demo_execute 2 = Ok demo_output.
Proof. vm_cast_no_check (eq_refl (Ok (E := string) demo_output)). Qed.

(** One transaction commits without replay; the other, which conflicts, is
    executed again; both fees go to the miner's reward. *)
Example demo_block_runs :
  (balance_of (o_state demo_output) 11, balance_of (o_state demo_output) 12, m_reexecuted (o_metrics demo_output)) =
  (Some 9791, Some 9791, 1).
Proof. vm_compute. reflexivity. Qed.

Lemma demo_cfg_ok : config_ok demo_cfg.
Proof. split_and!; vm_compute; [reflexivity|discriminate..]. Qed.

Definition value_okb (row : bstring * Value) : bool :=
  let '(k, v) := row in
  negb (starts_with k (str "contribution:") || starts_with k (str "release:")) &&
  (negb (starts_with k (str "account:")) || match v with Object _ => true | _ => false end).

Lemma demo_ledger_ok : state_ok demo_ledger.
Proof.
  assert (Hb : forallb value_okb (map_to_list demo_ledger) = true) by (vm_compute; reflexivity).
  rewrite forallb_forall in Hb. intros k v Hk. apply elem_of_map_to_list, list_elem_of_In, Hb in Hk. unfold value_okb in Hk.
  apply andb_true_iff in Hk as [Hn Ha]. apply negb_true_iff, orb_false_iff in Hn as [Hc Hr].
  split_and!; intros Hp; rewrite Hp in *; try done. destruct v; try done. by eexists.
Qed.

Lemma demo_block_bytes : Forall (Forall is_byte) demo_block.
Proof.
  apply Forall_forall. intros raw Hr. apply bytes_check.
  assert (Hb : forallb (forallb is_byteb) demo_block = true) by (vm_compute; reflexivity).
  rewrite forallb_forall in Hb. by apply Hb, list_elem_of_In.
Qed.

Lemma demo_workers : 2 ∈ [1; 2; 4; 8].
Proof. by apply (bool_decide_unpack (2 ∈ [1; 2; 4; 8])). Qed.

Lemma demo_input : block_input (fun _ => true) demo_ledger demo_block 2.
Proof. split; [exact demo_ledger_ok|exact demo_block_bytes|done|exact demo_workers]. Qed.

Lemma pon_execution_is_serial_witness :
  outcome (demo_execute 2) = serial_block 5 demo_cfg demo_ledger demo_block (fill 9) (fill 8) /\
  holds (demo_execute 2) (fun o => state_ok (o_state o)).
Proof.
  apply (pon_execution_is_serial 5 demo_cfg demo_cfg_ok (fun _ => true) demo_ledger demo_block (fill 9) (fill 8) 2).
  - exact demo_ledger_ok.
  - exact demo_block_bytes.
  - reflexivity.
  - exact demo_workers.
Defined.

Lemma pon_blocks_conserve_value_witness :
  demo_execute 2 <> Err "CONSERVATION"%string /\
  forall out, demo_execute 2 = Ok out ->
    exists subsidy, block_subsidy 5 demo_cfg = Ok subsidy /\ conserving (o_state out) (20000 + subsidy).
Proof.
  apply (pon_blocks_conserve_value 5 demo_cfg demo_cfg_ok (fun _ => true) demo_ledger demo_block (fill 9) (fill 8) 2 20000).
  - exact demo_input.
  - split; [vm_compute; reflexivity|]. exists (json_u64 20000). split; reflexivity.
  - vm_compute. reflexivity.
Defined.

Lemma pon_nonces_exact_witness :
  (forall who, nonce_of (o_state demo_output) who = nonce_of demo_ledger who + lsum (sent_by who) demo_block) /\
  (forall raw, raw ∈ demo_block -> exists who, sender_of raw = Some who /\
     nonce_of demo_ledger who < nonce_in raw <= nonce_of (o_state demo_output) who) /\
  NoDup demo_block.
Proof.
  apply (pon_nonces_exact 5 demo_cfg demo_cfg_ok (fun _ => true) demo_ledger demo_block (fill 9) (fill 8) 2 demo_output).
  - exact demo_input.
  - exact demo_execute_ok.
Defined.

Definition demo_leaves : list (list Z) := [fill 1; fill 2; fill 3].

Lemma allocations_are_claimable_witness :
  exists r siblings, allocation_root demo_leaves = Ok r /\ zlen siblings = bit_length (zlen demo_leaves - 1) /\
    forall v pre post, zlen (pre ++ mjoin siblings ++ post) <= u64_max ->
    repeat_tx (Z.to_nat (bit_length (zlen demo_leaves - 1))) climb (fill 3)
      (mkTxState v (mkPayload (pre ++ mjoin siblings ++ post) (zlen pre))) =
    Ok (r, mkTxState v (mkPayload (pre ++ mjoin siblings ++ post) (zlen pre + zlen (mjoin siblings)))).
Proof.
  apply (allocations_are_claimable (H := demo_crates) short_hash_length demo_leaves 2 (fill 3)).
  - repeat constructor.
  - reflexivity.
Defined.
