(* ===== verification/Lanes.v ===== *)
(** * Lanes: the admission gates of [trnm-mempool]

    [lib.rs]: a bounded deduplicating queue and the two-lane gate built from two
    of them, with its membership caches, reserve rules, spillover and dequeue
    fairness.  Transaction ids are [u64] and counters [usize]; a [HashSet] is a
    [gset].  A method that takes [&mut self] returns the new state. *)

From stdpp Require Import base gmap list sorting strings.
From S2P Require Import Prelude.

Inductive AdmitOutcome := Accepted | Duplicate | Backpressured.
Inductive IngressClass := Normal | Critical.

#[export] Instance AdmitOutcome_eq_dec : EqDecision AdmitOutcome.
Proof. solve_decision. Defined.

Record LaneQosSnapshot := mkSnapshot {
  normal_queued : Z;
  critical_queued : Z;
  total_queued : Z;
  normal_headroom : Z;
  critical_headroom : Z;
  total_headroom : Z;
  fresh_normal_admissible : bool;
  fresh_critical_admissible : bool;
}.

Abbreviation usize_add := (saturating_add u64_max).
Definition saturating_sub (a b : Z) : Z := Z.max 0 (a - b).
Definition saturating_mul (m a b : Z) : Z := Z.min m (a * b).
(** [set.len()] and [set.is_empty()] *)
Definition set_len (s : gset Z) : Z := Z.of_nat (size s).
Definition set_is_empty (s : gset Z) : bool := set_len s =? 0.
(** [set.contains(&x)] and [queue.contains(&x)] *)
Definition set_has (x : Z) (s : gset Z) : bool := bool_decide (x ∈ s).
Definition queue_has (x : Z) (q : list Z) : bool := bool_decide (x ∈ q).

(** ** One queue *)

Record AdmissionGate := mkGate { capacity : Z; queue : list Z; seen : gset Z }.

Definition gate_new (cap : Z) : AdmissionGate := mkGate cap [] ∅.

Definition gate_admit (g : AdmissionGate) (tx_id : Z) : AdmitOutcome * AdmissionGate :=
  if capacity g <=? zlen (queue g) then (if set_has tx_id (seen g) then Duplicate else Backpressured, g)
  else if set_has tx_id (seen g) then (Duplicate, g)
  else (Accepted, mkGate (capacity g) (queue g ++ [tx_id]) ({[ tx_id ]} ∪ seen g)).

Definition gate_pop_ready (g : AdmissionGate) : option (Z * AdmissionGate) :=
  match queue g with
  | [] => None
  | id :: q =>
      let s := seen g ∖ {[ id ]} in
      let s := if is_empty q && negb (set_is_empty s) then ∅ else s in
      Some (id, mkGate (capacity g) q s)
  end.

(** ** Two lanes *)

Record LaneAdmissionGate := mkLanes {
  normal : AdmissionGate;
  critical : AdmissionGate;
  total_capacity : Z;
  seen_global : gset Z;
  critical_served_streak : Z;
  critical_burst_limit : Z;
  normal_has_dedicated_capacity : bool;
}.

Definition with_normal (g : AdmissionGate) (s : LaneAdmissionGate) : LaneAdmissionGate :=
  mkLanes g (critical s) (total_capacity s) (seen_global s) (critical_served_streak s) (critical_burst_limit s)
    (normal_has_dedicated_capacity s).
Definition with_critical (g : AdmissionGate) (s : LaneAdmissionGate) : LaneAdmissionGate :=
  mkLanes (normal s) g (total_capacity s) (seen_global s) (critical_served_streak s) (critical_burst_limit s)
    (normal_has_dedicated_capacity s).
Definition with_seen_global (x : gset Z) (s : LaneAdmissionGate) : LaneAdmissionGate :=
  mkLanes (normal s) (critical s) (total_capacity s) x (critical_served_streak s) (critical_burst_limit s)
    (normal_has_dedicated_capacity s).
Definition with_streak (z : Z) (s : LaneAdmissionGate) : LaneAdmissionGate :=
  mkLanes (normal s) (critical s) (total_capacity s) (seen_global s) z (critical_burst_limit s)
    (normal_has_dedicated_capacity s).
Definition with_seen (x : gset Z) (g : AdmissionGate) : AdmissionGate := mkGate (capacity g) (queue g) x.

Definition lanes_new (total reserve : Z) : LaneAdmissionGate :=
  let reserve := Z.min reserve total in
  let normal_cap := saturating_sub total reserve in
  mkLanes (gate_new normal_cap) (gate_new reserve) total ∅ 0 (Z.max (saturating_mul u64_max reserve 2) 1)
    (0 <? normal_cap).

(** *** Caches *)

Definition clear_seen_caches (s : LaneAdmissionGate) : LaneAdmissionGate :=
  with_seen_global ∅ (with_critical (with_seen ∅ (critical s)) (with_normal (with_seen ∅ (normal s)) s)).

Definition lane_total (s : LaneAdmissionGate) : Z := usize_add (zlen (queue (normal s))) (zlen (queue (critical s))).
Definition lane_is_idle (s : LaneAdmissionGate) : bool := lane_total s =? 0.

Definition reset_idle_state (preserve_zero_capacity_seen : bool) (s : LaneAdmissionGate) : LaneAdmissionGate :=
  let s :=
    if negb ((preserve_zero_capacity_seen && (total_capacity s =? 0))
             || (set_is_empty (seen (normal s)) && set_is_empty (seen (critical s)) && set_is_empty (seen_global s)))
    then clear_seen_caches s else s in
  if negb (critical_served_streak s =? 0) then with_streak 0 s else s.

Definition rebuild_lane_seen_from_queues (s : LaneAdmissionGate) : LaneAdmissionGate :=
  with_critical (with_seen (list_to_set (queue (critical s))) (critical s))
    (with_normal (with_seen (list_to_set (queue (normal s))) (normal s)) s).

Definition rebuild_global_seen_from_queues (s : LaneAdmissionGate) : LaneAdmissionGate :=
  with_seen_global (list_to_set (queue (normal s)) ∪ list_to_set (queue (critical s))) s.

Definition lane_local_seen_total (s : LaneAdmissionGate) : Z :=
  usize_add (set_len (seen (normal s))) (set_len (seen (critical s))).

Definition rebuild_seen_from_queues (s : LaneAdmissionGate) : LaneAdmissionGate :=
  rebuild_global_seen_from_queues (rebuild_lane_seen_from_queues s).

Definition repair_global_seen_after_pop (drained_id : Z) (s : LaneAdmissionGate) : LaneAdmissionGate :=
  if negb (set_has drained_id (seen_global s)) then
    if lane_is_idle s then with_seen_global ∅ s else rebuild_global_seen_from_queues s
  else
    let s := with_seen_global (seen_global s ∖ {[ drained_id ]}) s in
    let total := lane_total s in
    if negb (set_len (seen_global s) =? total) then
      if total =? 0 then with_seen_global ∅ s else rebuild_global_seen_from_queues s
    else s.

Definition maybe_warm_normal_fairness (normal_was_empty : bool) (out : AdmitOutcome) (s : LaneAdmissionGate) :
    LaneAdmissionGate :=
  if normal_has_dedicated_capacity s && (out =?? Accepted) && normal_was_empty
     && negb (is_empty (queue (normal s))) && negb (is_empty (queue (critical s)))
  then with_streak (critical_burst_limit s) s else s.

(** *** Headroom *)

Definition critical_free_slots (s : LaneAdmissionGate) : Z :=
  saturating_sub (capacity (critical s)) (zlen (queue (critical s))).
Definition critical_backlog_active (s : LaneAdmissionGate) : bool := negb (is_empty (queue (critical s))).
Definition critical_has_borrowable_headroom (s : LaneAdmissionGate) : bool := 0 <? critical_free_slots s.
Definition normal_uses_reserve_only_mode (s : LaneAdmissionGate) : bool := capacity (normal s) =? 0.
Definition normal_can_borrow_last_idle_critical_slot (s : LaneAdmissionGate) : bool :=
  negb (normal_uses_reserve_only_mode s) && negb (critical_backlog_active s) && (critical_free_slots s =? 1).
Definition normal_has_surplus_critical_headroom (s : LaneAdmissionGate) : bool := 1 <? critical_free_slots s.

Definition normal_can_borrow_critical_headroom (s : LaneAdmissionGate) : bool :=
  if normal_uses_reserve_only_mode s then critical_has_borrowable_headroom s
  else if normal_can_borrow_last_idle_critical_slot s then true
  else normal_has_surplus_critical_headroom s.

Definition critical_can_borrow_normal_headroom (s : LaneAdmissionGate) : bool :=
  zlen (queue (normal s)) <? capacity (normal s).

Definition queues_contain_tx (tx_id : Z) (in_normal_seen in_critical_seen : bool) (s : LaneAdmissionGate) : bool :=
  if in_normal_seen && in_critical_seen then queue_has tx_id (queue (normal s)) || queue_has tx_id (queue (critical s))
  else if in_normal_seen then queue_has tx_id (queue (normal s))
  else if in_critical_seen then queue_has tx_id (queue (critical s))
  else false.

Definition lane_has_global_headroom (total : Z) (s : LaneAdmissionGate) : bool := total <? total_capacity s.
Definition lane_is_globally_saturated (total : Z) (s : LaneAdmissionGate) : bool := negb (lane_has_global_headroom total s).
Definition normal_queue_has_headroom (s : LaneAdmissionGate) : bool := zlen (queue (normal s)) <? capacity (normal s).
Definition critical_queue_has_headroom (s : LaneAdmissionGate) : bool := zlen (queue (critical s)) <? capacity (critical s).
Definition normal_has_admission_headroom (s : LaneAdmissionGate) : bool :=
  normal_queue_has_headroom s || normal_can_borrow_critical_headroom s.
Definition critical_has_admission_headroom (s : LaneAdmissionGate) : bool :=
  critical_queue_has_headroom s || critical_can_borrow_normal_headroom s.
Definition normal_backpressure_guard_blocks (s : LaneAdmissionGate) : bool := negb (normal_has_admission_headroom s).
Definition critical_backpressure_guard_blocks (s : LaneAdmissionGate) : bool := negb (critical_has_admission_headroom s).
Definition lane_backpressure_guard_blocks (class : IngressClass) (s : LaneAdmissionGate) : bool :=
  match class with
  | Normal => normal_backpressure_guard_blocks s
  | Critical => critical_backpressure_guard_blocks s
  end.
Definition fresh_admissible (class : IngressClass) (s : LaneAdmissionGate) : bool :=
  lane_has_global_headroom (lane_total s) s && negb (lane_backpressure_guard_blocks class s).

(** *** Probes *)

Definition classify_duplicate_probe (is_duplicate : bool) : AdmitOutcome :=
  if is_duplicate then Duplicate else Backpressured.
Definition seen_caches_contain_tx (tx_id : Z) (s : LaneAdmissionGate) : bool :=
  set_has tx_id (seen_global s) || set_has tx_id (seen (normal s)) || set_has tx_id (seen (critical s)).
Definition classify_seen_probe (tx_id : Z) (s : LaneAdmissionGate) : AdmitOutcome :=
  classify_duplicate_probe (seen_caches_contain_tx tx_id s).
Definition classify_hard_stop_probe (tx_id : Z) (s : LaneAdmissionGate) : AdmitOutcome := classify_seen_probe tx_id s.
Definition classify_bounded_retry_probe (is_duplicate : bool) : AdmitOutcome := classify_duplicate_probe is_duplicate.
(** [o.or_else(..)] on pure operands. *)
Definition opt_or {A} (o p : option A) : option A := match o with Some _ => o | None => p end.
Definition classify_retry_probe_when_blocked (blocked is_duplicate : bool) : option AdmitOutcome :=
  if blocked then Some (classify_bounded_retry_probe is_duplicate) else None.
Definition classify_duplicate_after_open_headroom (is_duplicate : bool) : option AdmitOutcome :=
  if is_duplicate then Some Duplicate else None.
Definition classify_duplicate_or_retry_probe (blocked is_duplicate : bool) : option AdmitOutcome :=
  opt_or (classify_duplicate_after_open_headroom is_duplicate) (classify_retry_probe_when_blocked blocked is_duplicate).
Definition classify_guarded_probe (guard_blocks is_duplicate : bool) : option AdmitOutcome :=
  classify_duplicate_or_retry_probe guard_blocks is_duplicate.
Definition classify_pre_admission_probe (total : Z) (is_duplicate : bool) (s : LaneAdmissionGate) : option AdmitOutcome :=
  classify_guarded_probe (lane_is_globally_saturated total s) is_duplicate.
Definition reserve_slot_guard_blocks_with_lane_total (total : Z) (class : IngressClass) (s : LaneAdmissionGate) : bool :=
  lane_backpressure_guard_blocks class s && lane_has_global_headroom total s.
Definition classify_reserved_slot_guard_probe (total : Z) (class : IngressClass) (is_duplicate : bool)
    (s : LaneAdmissionGate) : option AdmitOutcome :=
  classify_guarded_probe (reserve_slot_guard_blocks_with_lane_total total class s) is_duplicate.
Definition classify_headroom_probe (total : Z) (class : IngressClass) (is_duplicate : bool) (s : LaneAdmissionGate) :
    option AdmitOutcome :=
  opt_or (classify_pre_admission_probe total is_duplicate s)
         (classify_reserved_slot_guard_probe total class is_duplicate s).

(** *** Admission *)

(** The caches are brought in line before probing. *)
Definition sync_caches (s : LaneAdmissionGate) : LaneAdmissionGate :=
  let total := lane_total s in
  if lane_is_idle s then reset_idle_state false s
  else if negb (lane_local_seen_total s =? total) then rebuild_seen_from_queues s
  else if negb (set_len (seen_global s) =? total) then rebuild_global_seen_from_queues s
  else s.

(** A hit in the lane-wide cache is confirmed against the lanes. *)
Definition confirm_global_hit (tx_id : Z) (s : LaneAdmissionGate) : bool * LaneAdmissionGate :=
  let in_normal_seen := set_has tx_id (seen (normal s)) in
  let in_critical_seen := set_has tx_id (seen (critical s)) in
  if negb in_normal_seen && negb in_critical_seen then
    let s := rebuild_seen_from_queues s in (set_has tx_id (seen_global s), s)
  else if negb (queues_contain_tx tx_id in_normal_seen in_critical_seen s) then
    let s := rebuild_seen_from_queues s in (set_has tx_id (seen_global s), s)
  else (true, s).

(** A miss in the lane-wide cache is confirmed against the lanes. *)
Definition confirm_global_miss (tx_id total : Z) (s : LaneAdmissionGate) : bool * LaneAdmissionGate :=
  let in_normal_seen := set_has tx_id (seen (normal s)) in
  let in_critical_seen := set_has tx_id (seen (critical s)) in
  if in_normal_seen || in_critical_seen then
    if queues_contain_tx tx_id in_normal_seen in_critical_seen s then
      (true, with_seen_global ({[ tx_id ]} ∪ seen_global s) s)
    else let s := rebuild_seen_from_queues s in (set_has tx_id (seen_global s), s)
  else if negb (lane_local_seen_total s =? total)
          && (queue_has tx_id (queue (normal s)) || queue_has tx_id (queue (critical s))) then
    let s := rebuild_seen_from_queues s in (set_has tx_id (seen_global s), s)
  else (false, s).

Definition detect_duplicate (tx_id total : Z) (lane_was_empty : bool) (s : LaneAdmissionGate) : bool * LaneAdmissionGate :=
  let is_duplicate := if lane_was_empty then false else set_has tx_id (seen_global s) in
  let '(is_duplicate, s) := if is_duplicate then confirm_global_hit tx_id s else (is_duplicate, s) in
  if negb is_duplicate && negb lane_was_empty then confirm_global_miss tx_id total s else (is_duplicate, s).

Definition finish_admission (tx_id : Z) (out : AdmitOutcome) (s : LaneAdmissionGate) : AdmitOutcome * LaneAdmissionGate :=
  (out, if out =?? Accepted then with_seen_global ({[ tx_id ]} ∪ seen_global s) s else s).

(** The lane of the class, then the other one. *)
Definition admit_to_lane (tx_id : Z) (class : IngressClass) (s : LaneAdmissionGate) : AdmitOutcome * LaneAdmissionGate :=
  let normal_was_empty := is_empty (queue (normal s)) in
  let '(out, s) :=
    match class with
    | Normal =>
        let '(primary, g) := gate_admit (normal s) tx_id in
        let s := with_normal g s in
        if (primary =?? Backpressured) && normal_can_borrow_critical_headroom s then
          let '(out, g) := gate_admit (critical s) tx_id in (out, with_critical g s)
        else (primary, s)
    | Critical =>
        let '(primary, g) := gate_admit (critical s) tx_id in
        let s := with_critical g s in
        if (primary =?? Backpressured) && critical_can_borrow_normal_headroom s then
          let '(out, g) := gate_admit (normal s) tx_id in (out, with_normal g s)
        else (primary, s)
    end in
  (out, maybe_warm_normal_fairness normal_was_empty out s).

Definition lanes_admit (tx_id : Z) (class : IngressClass) (s : LaneAdmissionGate) : AdmitOutcome * LaneAdmissionGate :=
  if total_capacity s =? 0 then (classify_hard_stop_probe tx_id s, s)
  else
    let total := lane_total s in
    let lane_was_empty := lane_is_idle s in
    let s := sync_caches s in
    let '(is_duplicate, s) := detect_duplicate tx_id total lane_was_empty s in
    match classify_headroom_probe total class is_duplicate s with
    | Some out => (out, s)
    | None => let '(out, s) := admit_to_lane tx_id class s in finish_admission tx_id out s
    end.

(** *** Dequeue *)

Definition prefer_normal_on_pop (s : LaneAdmissionGate) : bool :=
  normal_has_dedicated_capacity s && (critical_burst_limit s <=? critical_served_streak s)
  && negb (is_empty (queue (normal s))).

Definition record_pop_fairness (served_critical : bool) (s : LaneAdmissionGate) : LaneAdmissionGate :=
  if normal_has_dedicated_capacity s then
    if served_critical then
      with_streak (Z.min (usize_add (critical_served_streak s) 1) (critical_burst_limit s)) s
    else if negb (is_empty (queue (normal s))) && negb (is_empty (queue (critical s))) then
      with_streak (saturating_sub (critical_burst_limit s) 1) s
    else with_streak 0 s
  else with_streak 0 s.

(** The id served and whether the critical lane served it. *)
Definition pop_lanes (s : LaneAdmissionGate) : option (Z * bool * LaneAdmissionGate) :=
  let from_normal := '(id, g) ← gate_pop_ready (normal s); Some (id, false, with_normal g s) in
  let from_critical := '(id, g) ← gate_pop_ready (critical s); Some (id, true, with_critical g s) in
  if prefer_normal_on_pop s then opt_or from_normal from_critical else opt_or from_critical from_normal.

Definition lanes_pop_ready (s : LaneAdmissionGate) : option Z * LaneAdmissionGate :=
  if lane_is_idle s then (None, reset_idle_state true s)
  else match pop_lanes s with
       | None => (None, s)
       | Some (id, served_critical, s) =>
           let s := record_pop_fairness served_critical s in
           let s := repair_global_seen_after_pop id s in
           let s := if is_empty (queue (normal s)) && is_empty (queue (critical s)) then reset_idle_state false s else s in
           (Some id, s)
       end.

(** *** Views *)

(** The counts; a debug build asserts that they add up. *)
Definition queued_counts (s : LaneAdmissionGate) : Z * Z * Z :=
  (zlen (queue (normal s)), zlen (queue (critical s)), lane_total s).

Definition qos_snapshot (s : LaneAdmissionGate) : LaneQosSnapshot :=
  let normal_queued := zlen (queue (normal s)) in
  let critical_queued := zlen (queue (critical s)) in
  let total_queued := lane_total s in
  mkSnapshot normal_queued critical_queued total_queued
    (saturating_sub (capacity (normal s)) normal_queued)
    (saturating_sub (capacity (critical s)) critical_queued)
    (saturating_sub (total_capacity s) total_queued)
    (fresh_admissible Normal s) (fresh_admissible Critical s).
