(* ===== verification/LanesTheorems.v ===== *)
(** * LanesTheorems: the two-lane gate is a pair of bounded queues

    The membership caches, probes and repairs of [LaneAdmissionGate] implement an
    abstract pool: two disjoint queues and a fairness credit.  On the pool, dequeue
    order and waiting times are stated and proved. *)

From stdpp Require Import base gmap list sorting strings.
From S2P Require Import Prelude Lanes.

(** ** The abstract pool *)

Record Pool := mkPool { p_normal : list Z; p_critical : list Z; p_credit : Z }.
Definition empty_pool : Pool := mkPool [] [] 0.

(** ** Runs *)

Inductive lane_op := Arrive (tx : Z) (class : IngressClass) | PopReady.
Inductive lane_out := Outcome (o : AdmitOutcome) | Served (id : option Z).

Fixpoint run_lane_ops {S} (step : lane_op -> S -> lane_out * S) (s : S) (ops : list lane_op) : list lane_out * S :=
  match ops with
  | [] => ([], s)
  | op :: ops => let '(o, s) := step op s in let '(outs, s) := run_lane_ops step s ops in (o :: outs, s)
  end.

Definition lanes_step (op : lane_op) (s : LaneAdmissionGate) : lane_out * LaneAdmissionGate :=
  match op with
  | Arrive tx class => let '(o, s) := lanes_admit tx class s in (Outcome o, s)
  | PopReady => let '(id, s) := lanes_pop_ready s in (Served id, s)
  end.

Definition is_pop (op : lane_op) : bool := match op with PopReady => true | _ => false end.
Definition pops (ops : list lane_op) : Z := zlen (List.filter is_pop ops).

Section pool.
Context (total reserve : Z).

(** The split of the capacity, and the longest run of critical dequeues. *)
Definition reserved : Z := Z.min reserve total.
Definition dedicated : Z := total - reserved.
Definition burst : Z := Z.max (Z.min u64_max (reserved * 2)) 1.

Definition queued (tx : Z) (p : Pool) : bool := bool_decide (tx ∈ p_normal p ++ p_critical p).

(** Normal traffic may take a reserved slot when there is no dedicated lane, when
    another one stays free, or when it is the only one and nothing critical waits. *)
Definition may_enter (class : IngressClass) (p : Pool) : bool :=
  (zlen (p_normal p) + zlen (p_critical p) <? total) &&
  match class with
  | Critical => true
  | Normal =>
      (zlen (p_normal p) <? dedicated) ||
      (if dedicated =? 0 then zlen (p_critical p) <? reserved
       else (zlen (p_critical p) + 1 <? reserved) || (is_empty (p_critical p) && (reserved =? 1)))
  end.

Definition enter (tx : Z) (class : IngressClass) (p : Pool) : Pool :=
  let to_normal := match class with
                   | Normal => zlen (p_normal p) <? dedicated
                   | Critical => reserved <=? zlen (p_critical p)
                   end in
  let n := if to_normal then p_normal p ++ [tx] else p_normal p in
  let c := if to_normal then p_critical p else p_critical p ++ [tx] in
  let warm := (0 <? dedicated) && is_empty (p_normal p) && negb (is_empty n) && negb (is_empty c) in
  mkPool n c (if warm then burst else p_credit p).

Definition pool_admit (tx : Z) (class : IngressClass) (p : Pool) : AdmitOutcome * Pool :=
  if queued tx p then (Duplicate, p)
  else if may_enter class p then (Accepted, enter tx class p)
  else (Backpressured, p).

(** The credit after a dequeue that leaves these queues. *)
Definition next_credit (served_critical : bool) (n c : list Z) (credit : Z) : Z :=
  if (is_empty n && is_empty c) || (dedicated <=? 0) then 0
  else if served_critical then Z.min (credit + 1) burst
  else if negb (is_empty n) && negb (is_empty c) then burst - 1
  else 0.

Definition pool_pop (p : Pool) : option Z * Pool :=
  match p_normal p, p_critical p with
  | [], [] => (None, p)
  | x :: n, [] => (Some x, mkPool n [] (next_credit false n [] (p_credit p)))
  | [], y :: c => (Some y, mkPool [] c (next_credit true [] c (p_credit p)))
  | x :: n, y :: c =>
      if (0 <? dedicated) && (burst <=? p_credit p)
      then (Some x, mkPool n (y :: c) (next_credit false n (y :: c) (p_credit p)))
      else (Some y, mkPool (x :: n) c (next_credit true (x :: n) c (p_credit p)))
  end.

Definition pool_step (op : lane_op) (p : Pool) : lane_out * Pool :=
  match op with
  | Arrive tx class => let '(o, p) := pool_admit tx class p in (Outcome o, p)
  | PopReady => let '(id, p) := pool_pop p in (Served id, p)
  end.

(** The gate that a pool stands for. *)
Definition gate_of (p : Pool) : LaneAdmissionGate :=
  mkLanes (mkGate dedicated (p_normal p) (list_to_set (p_normal p)))
    (mkGate reserved (p_critical p) (list_to_set (p_critical p))) total
    (list_to_set (p_normal p) ∪ list_to_set (p_critical p)) (p_credit p) burst (0 <? dedicated).

Record pool_ok (p : Pool) : Prop := mkPoolOk {
  po_distinct : NoDup (p_normal p ++ p_critical p);
  po_normal : zlen (p_normal p) <= dedicated;
  po_critical : zlen (p_critical p) <= reserved;
  po_credit : 0 <= p_credit p <= burst;
  po_idle : p_normal p = [] -> p_critical p = [] -> p_credit p = 0;
}.

Context (Htotal : 0 <= total <= u64_max) (Hreserve : 0 <= reserve).

Lemma split_facts : 0 <= reserved /\ 0 <= dedicated /\ reserved + dedicated = total /\ 1 <= burst <= u64_max.
Proof. unfold dedicated, burst, reserved, u64_max in *. lia. Qed.

Lemma gate_of_new : lanes_new total reserve = gate_of empty_pool.
Proof.
  unfold lanes_new, gate_of, empty_pool, gate_new, saturating_sub, saturating_mul. cbn [p_normal p_critical p_credit].
  pose proof split_facts. fold reserved. replace (Z.max 0 (total - reserved)) with dedicated by (unfold dedicated in *; lia).
  assert (E : (list_to_set [] ∪ list_to_set [] : gset Z) = ∅) by set_solver. by rewrite E.
Qed.

Lemma empty_pool_ok : pool_ok empty_pool.
Proof. pose proof split_facts. split; unfold zlen; cbn; [by apply NoDup_nil|lia..|done]. Qed.

(** ** Reading the caches of a gate that stands for a pool *)

Lemma set_len_queue (q : list Z) : NoDup q -> set_len (list_to_set q) = zlen q.
Proof. intros Hq. unfold set_len, zlen. by rewrite size_list_to_set. Qed.

Lemma set_is_empty_queue (q : list Z) : set_is_empty (list_to_set q) = is_empty q.
Proof.
  unfold set_is_empty, set_len. destruct q as [|x q]; [done|]. apply Z.eqb_neq. cbn [list_to_set].
  assert (size ({[x]} ∪ list_to_set q : gset Z) <> 0%nat); [|lia]. apply size_non_empty_iff. set_solver.
Qed.

Lemma set_has_queue x (q : list Z) : set_has x (list_to_set q) = queue_has x q.
Proof. unfold set_has, queue_has. apply bool_decide_ext. set_solver. Qed.

Lemma queued_split tx p : queued tx p = queue_has tx (p_normal p) || queue_has tx (p_critical p).
Proof. unfold queued, queue_has. rewrite <- bool_decide_or. apply bool_decide_ext. set_solver. Qed.

Lemma zlen_cons {A} (l : list A) x : zlen (x :: l) = zlen l + 1.
Proof. unfold zlen. cbn. lia. Qed.

Lemma is_empty_zlen {A} (l : list A) : is_empty l = (zlen l =? 0).
Proof. by destruct l. Qed.

Lemma lane_total_pool p : pool_ok p -> lane_total (gate_of p) = zlen (p_normal p) + zlen (p_critical p).
Proof.
  intros [_ Hn Hc _ _]. pose proof split_facts. unfold lane_total, saturating_add. cbn.
  pose proof (zlen_nonneg (p_normal p)). pose proof (zlen_nonneg (p_critical p)). lia.
Qed.

Lemma lane_idle_pool p : pool_ok p -> lane_is_idle (gate_of p) = is_empty (p_normal p) && is_empty (p_critical p).
Proof.
  intros Hp. unfold lane_is_idle. rewrite lane_total_pool by done. rewrite !is_empty_zlen.
  pose proof (zlen_nonneg (p_normal p)). pose proof (zlen_nonneg (p_critical p)).
  destruct (zlen (p_normal p) =? 0) eqn:E1, (zlen (p_critical p) =? 0) eqn:E2; bprop; cbn;
    first [apply Z.eqb_eq | apply Z.eqb_neq]; lia.
Qed.

Lemma seen_total_pool p : pool_ok p -> lane_local_seen_total (gate_of p) = zlen (p_normal p) + zlen (p_critical p).
Proof.
  intros Hp. rewrite <- lane_total_pool by done. destruct Hp as [Hd _ _ _ _]. apply NoDup_app in Hd as (Hn & _ & Hc).
  unfold lane_local_seen_total, lane_total. cbn. by rewrite !set_len_queue.
Qed.

Lemma global_len_pool p : pool_ok p -> set_len (seen_global (gate_of p)) = zlen (p_normal p) + zlen (p_critical p).
Proof.
  intros [Hd _ _ _ _]. cbn. rewrite <- list_to_set_app_L, set_len_queue by done. unfold zlen. rewrite length_app. lia.
Qed.

(** ** Admission *)

Lemma reset_idle_pool b p : pool_ok p -> is_empty (p_normal p) && is_empty (p_critical p) = true ->
  reset_idle_state b (gate_of p) = gate_of p.
Proof.
  intros Hp He. apply andb_true_iff in He as [En Ec]. destruct p as [[|? ?] [|? ?] credit]; try done.
  destruct Hp as [_ _ _ _ Hi]. specialize (Hi eq_refl eq_refl). cbn in Hi. subst. unfold reset_idle_state. cbn.
  assert (E : (∅ ∪ ∅ : gset Z) = ∅) by set_solver. rewrite E. by rewrite orb_true_r.
Qed.

Lemma sync_pool p : pool_ok p -> sync_caches (gate_of p) = gate_of p.
Proof.
  intros Hp. unfold sync_caches. rewrite lane_idle_pool by done.
  destruct (is_empty (p_normal p) && is_empty (p_critical p)) eqn:E; [by apply reset_idle_pool|].
  by rewrite seen_total_pool, lane_total_pool, global_len_pool, Z.eqb_refl by done.
Qed.

Lemma detect_pool tx p :
  pool_ok p -> detect_duplicate tx (lane_total (gate_of p)) (lane_is_idle (gate_of p)) (gate_of p) = (queued tx p, gate_of p).
Proof.
  intros Hp. unfold detect_duplicate. rewrite lane_idle_pool by done. rewrite queued_split.
  destruct (is_empty (p_normal p) && is_empty (p_critical p)) eqn:E.
  - apply andb_true_iff in E as [En Ec]. by destruct p as [[|? ?] [|? ?] credit].
  - assert (Hg : set_has tx (seen_global (gate_of p)) = queue_has tx (p_normal p) || queue_has tx (p_critical p)).
    { cbn. rewrite <- list_to_set_app_L, set_has_queue, <- queued_split. done. }
    assert (Hn : set_has tx (seen (normal (gate_of p))) = queue_has tx (p_normal p)) by apply set_has_queue.
    assert (Hc : set_has tx (seen (critical (gate_of p))) = queue_has tx (p_critical p)) by apply set_has_queue.
    assert (Hq : queue (normal (gate_of p)) = p_normal p /\ queue (critical (gate_of p)) = p_critical p) by done.
    destruct Hq as [Hqn Hqc].
    assert (Hhit : queue_has tx (p_normal p) || queue_has tx (p_critical p) = true ->
      confirm_global_hit tx (gate_of p) = (true, gate_of p)).
    { intros Hor. unfold confirm_global_hit, queues_contain_tx. rewrite Hn, Hc, Hqn, Hqc.
      by destruct (queue_has tx (p_normal p)), (queue_has tx (p_critical p)). }
    rewrite Hg. destruct (queue_has tx (p_normal p) || queue_has tx (p_critical p)) eqn:Eq; [by rewrite Hhit|].
    cbn [negb andb]. apply orb_false_iff in Eq as [En Ec].
    unfold confirm_global_miss, queues_contain_tx. rewrite Hn, Hc, Hqn, Hqc, En, Ec.
    cbn [orb andb negb]. by rewrite andb_false_r.
Qed.

Lemma guard_pool class p :
  pool_ok p -> fresh_admissible class (gate_of p) = may_enter class p.
Proof.
  intros Hp. unfold fresh_admissible. rewrite lane_total_pool by done. destruct Hp as [_ Hn Hc _ _]. pose proof split_facts.
  unfold may_enter, lane_has_global_headroom. cbn [gate_of total_capacity].
  destruct (_ <? total) eqn:Et; bprop; cbn [andb]; [|done].
  pose proof (zlen_nonneg (p_normal p)). pose proof (zlen_nonneg (p_critical p)).
  destruct class; cbn [lane_backpressure_guard_blocks].
  - unfold normal_backpressure_guard_blocks, normal_has_admission_headroom, normal_queue_has_headroom,
      normal_can_borrow_critical_headroom, normal_uses_reserve_only_mode, critical_has_borrowable_headroom,
      normal_can_borrow_last_idle_critical_slot, normal_has_surplus_critical_headroom, normal_uses_reserve_only_mode,
      critical_backlog_active, critical_free_slots, saturating_sub. rewrite negb_involutive. cbn [gate_of normal critical capacity queue].
    f_equal. rewrite !is_empty_zlen, negb_involutive. destruct (dedicated =? 0); cbn [negb andb].
    + apply eq_true_iff_eq. rewrite !Z.ltb_lt. lia.
    + apply eq_true_iff_eq. destruct (zlen (p_critical p) =? 0) eqn:E0; bprop; cbn [andb]; rewrite ?orb_false_r.
      * rewrite orb_true_iff, Z.ltb_lt, Z.eqb_eq. destruct (_ =? 1) eqn:E1; bprop; rewrite ?Z.ltb_lt; [split; [lia|done]|lia].
      * rewrite !Z.ltb_lt. lia.
  - unfold critical_backpressure_guard_blocks, critical_has_admission_headroom, critical_queue_has_headroom,
      critical_can_borrow_normal_headroom. rewrite negb_involutive. cbn [gate_of normal critical capacity queue].
    apply orb_true_iff. rewrite !Z.ltb_lt. lia.
Qed.

Lemma headroom_pool class dup p :
  pool_ok p -> classify_headroom_probe (lane_total (gate_of p)) class dup (gate_of p) =
  if dup then Some Duplicate else if may_enter class p then None else Some Backpressured.
Proof.
  intros Hp. rewrite <- guard_pool by done.
  unfold classify_headroom_probe, classify_pre_admission_probe, classify_reserved_slot_guard_probe, classify_guarded_probe,
    classify_duplicate_or_retry_probe, classify_retry_probe_when_blocked, classify_duplicate_after_open_headroom,
    lane_is_globally_saturated, reserve_slot_guard_blocks_with_lane_total, fresh_admissible.
  destruct dup; [done|]. cbn [opt_or].
  destruct (lane_has_global_headroom _ _), (lane_backpressure_guard_blocks class _); done.
Qed.

(** A gate takes a fresh id exactly when it has room. *)
Lemma gate_admit_fresh cap q tx :
  queue_has tx q = false ->
  gate_admit (mkGate cap q (list_to_set q)) tx =
  if zlen q <? cap then (Accepted, mkGate cap (q ++ [tx]) (list_to_set (q ++ [tx])))
  else (Backpressured, mkGate cap q (list_to_set q)).
Proof.
  intros Hf. unfold gate_admit. cbn [capacity queue seen]. rewrite set_has_queue, Hf, Z.leb_antisym.
  destruct (zlen q <? cap); cbn [negb]; [|done]. do 2 f_equal. rewrite list_to_set_app_L. cbn. set_solver.
Qed.

Lemma warm_pool b s :
  normal_has_dedicated_capacity s = (0 <? dedicated) -> critical_burst_limit s = burst ->
  maybe_warm_normal_fairness b Accepted s =
  with_streak (if (0 <? dedicated) && b && negb (is_empty (queue (normal s))) && negb (is_empty (queue (critical s)))
               then burst else critical_served_streak s) s.
Proof.
  intros Hd Hb. unfold maybe_warm_normal_fairness. rewrite Hd, Hb. rewrite bool_decide_eq_true_2 by done. rewrite andb_true_r.
  destruct (_ && _); [done|]. by destruct s.
Qed.
(** The state after an accepted admission, in terms of the pool. *)
Ltac accepted :=
  rewrite warm_pool by done; unfold finish_admission; rewrite bool_decide_eq_true_2 by done;
  unfold with_seen_global, with_streak, with_normal, with_critical, gate_of; cbn.

Lemma lane_admit_pool tx class p :
  pool_ok p -> queued tx p = false -> may_enter class p = true ->
  (let '(out, s) := admit_to_lane tx class (gate_of p) in finish_admission tx out s) =
  (Accepted, gate_of (enter tx class p)).
Proof.
  intros Hp Hq Hm. rewrite queued_split in Hq. apply orb_false_iff in Hq as [Hqn Hqc].
  destruct p as [n c credit]. cbn [p_normal p_critical p_credit] in *.
  assert (Hpush : forall (q r : list Z), {[tx]} ∪ (list_to_set q ∪ list_to_set r) = (list_to_set (q ++ [tx]) ∪ list_to_set r : gset Z))
    by (intros; rewrite list_to_set_app_L; set_solver).
  assert (Hpush' : forall (q r : list Z), {[tx]} ∪ (list_to_set q ∪ list_to_set r) = (list_to_set q ∪ list_to_set (r ++ [tx]) : gset Z))
    by (intros; rewrite list_to_set_app_L; set_solver).
  pose proof (guard_pool class _ Hp) as Hg. rewrite Hm in Hg. apply andb_true_iff in Hg as [_ Hg]. apply negb_true_iff in Hg.
  unfold admit_to_lane, enter. destruct class; cbn [gate_of normal critical p_normal p_critical p_credit queue].
  - rewrite gate_admit_fresh by done. destruct (zlen n <? dedicated) eqn:En; cbv beta iota zeta.
    + rewrite bool_decide_eq_false_2 by done. cbn [andb]. accepted. by rewrite Hpush.
    + rewrite bool_decide_eq_true_2 by done. change (with_normal _ _) with (gate_of (mkPool n c credit)).
      unfold lane_backpressure_guard_blocks, normal_backpressure_guard_blocks, normal_has_admission_headroom,
        normal_queue_has_headroom in Hg. apply negb_false_iff in Hg. cbn [gate_of normal critical queue capacity p_normal] in Hg.
      rewrite En in Hg. cbn [orb] in Hg. rewrite Hg. cbn [andb gate_of critical p_critical].
      assert (Hc : (zlen c <? reserved) = true).
      { unfold may_enter in Hm. cbn [p_normal p_critical] in Hm. apply andb_true_iff in Hm as [_ Hm]. rewrite En in Hm. cbn [orb] in Hm.
        destruct (dedicated =? 0); [done|]. apply orb_true_iff in Hm as [Hm|Hm]; [bprop; apply Z.ltb_lt; lia|].
        apply andb_true_iff in Hm as [Hc Hr]. destruct c; [|done]. bprop. apply Z.ltb_lt. rewrite Hr. unfold zlen. cbn. lia. }
      rewrite gate_admit_fresh, Hc by done. cbv beta iota zeta. accepted. by rewrite Hpush'.
  - rewrite gate_admit_fresh by done. rewrite Z.leb_antisym. destruct (zlen c <? reserved) eqn:Ec; cbv beta iota zeta; cbn [negb].
    + rewrite bool_decide_eq_false_2 by done. cbn [andb]. accepted. by rewrite Hpush'.
    + rewrite bool_decide_eq_true_2 by done. change (with_critical _ _) with (gate_of (mkPool n c credit)).
      assert (Hn : (zlen n <? dedicated) = true).
      { unfold may_enter in Hm. cbn [p_normal p_critical] in Hm. pose proof split_facts. bprop. apply Z.ltb_lt. lia. }
      unfold critical_can_borrow_normal_headroom. cbn [gate_of normal capacity queue p_normal]. rewrite Hn. cbn [andb].
      rewrite gate_admit_fresh, Hn by done. cbv beta iota zeta. accepted. by rewrite Hpush.
Qed.

Lemma lanes_admit_pool tx class p :
  pool_ok p -> lanes_admit tx class (gate_of p) = (fst (pool_admit tx class p), gate_of (snd (pool_admit tx class p))).
Proof.
  intros Hp. unfold lanes_admit, pool_admit. cbn [gate_of total_capacity]. destruct (total =? 0) eqn:E0; bprop.
  - destruct Hp as [_ Hn Hc _ _]. pose proof split_facts.
    assert (p_normal p = [] /\ p_critical p = []) as [En Ec]
      by (split; apply nil_length_inv; unfold zlen in *; lia).
    unfold queued, may_enter. rewrite En, Ec. rewrite bool_decide_eq_false_2 by set_solver.
    rewrite (proj2 (Z.ltb_ge _ _)) by (rewrite E0; unfold zlen; cbn; lia). cbn [andb fst snd].
    unfold classify_hard_stop_probe, classify_seen_probe, seen_caches_contain_tx. cbn [gate_of seen_global normal critical seen].
    rewrite En, Ec, <- list_to_set_app_L, !set_has_queue. done.
  - rewrite sync_pool, detect_pool, headroom_pool by done.
    destruct (queued tx p) eqn:Eq; [done|]. destruct (may_enter class p) eqn:Em; [|done].
    rewrite lane_admit_pool by done. done.
Qed.

Lemma enter_ok tx class p : pool_ok p -> queued tx p = false -> may_enter class p = true -> pool_ok (enter tx class p).
Proof.
  intros [Hd Hn Hc Hcr Hi] Hq Hm. destruct p as [n c credit]. unfold queued in Hq. apply bool_decide_eq_false in Hq.
  cbn [p_normal p_critical p_credit] in *. pose proof split_facts.
  set (b := match class with Normal => zlen n <? dedicated | Critical => reserved <=? zlen c end).
  assert (Hroom : if b then zlen n < dedicated else zlen c < reserved).
  { subst b. unfold may_enter in Hm. cbn [p_normal p_critical] in Hm. apply andb_true_iff in Hm as [Ht Hm].
    destruct class.
    - destruct (zlen n <? dedicated) eqn:En; bprop; [lia|]. cbn [orb] in Hm. destruct (dedicated =? 0); [bprop; lia|].
      apply orb_true_iff in Hm as [Hm|Hm]; [bprop; lia|]. apply andb_true_iff in Hm as [Hm Hr]. destruct c; [|done]. bprop. 
      unfold zlen. cbn. lia.
    - destruct (reserved <=? zlen c) eqn:Ec; bprop; lia. }
  assert (Hd' : NoDup (if b then (n ++ [tx]) ++ c else n ++ c ++ [tx])).
  { assert (Hdt : NoDup (tx :: n ++ c)) by by constructor. destruct b.
    - rewrite <- app_assoc. cbn [app]. by rewrite <- Permutation_middle.
    - by rewrite app_assoc, <- Permutation_cons_append. }
  unfold enter. cbn [p_normal p_critical p_credit]. fold b.
  split; cbn [p_normal p_critical p_credit].
  - by destruct b.
  - destruct b; rewrite ?zlen_snoc; lia.
  - destruct b; rewrite ?zlen_snoc; lia.
  - destruct (_ && _); lia.
  - by destruct b, n, c.
Qed.

Lemma pool_admit_ok tx class p : pool_ok p -> pool_ok (snd (pool_admit tx class p)).
Proof.
  intros Hp. unfold pool_admit. destruct (queued tx p) eqn:Eq; [done|]. destruct (may_enter class p) eqn:Em; [|done].
  by apply enter_ok.
Qed.

(** ** Dequeue *)

Lemma gate_pop_queue cap x q :
  NoDup (x :: q) ->
  gate_pop_ready (mkGate cap (x :: q) (list_to_set (x :: q))) = Some (x, mkGate cap q (list_to_set q)).
Proof.
  intros Hd. apply NoDup_cons in Hd as [Hx _]. unfold gate_pop_ready. cbn [queue seen capacity].
  assert (E : (list_to_set (x :: q) ∖ {[x]} : gset Z) = list_to_set q) by (cbn; set_solver).
  rewrite E, set_is_empty_queue. by destruct q.
Qed.

(** The end of a dequeue: fairness, the lane-wide cache and the idle reset. *)
Definition finish_pop (id : Z) (served_critical : bool) (s : LaneAdmissionGate) : LaneAdmissionGate :=
  let s := repair_global_seen_after_pop id (record_pop_fairness served_critical s) in
  if is_empty (queue (normal s)) && is_empty (queue (critical s)) then reset_idle_state false s else s.

Lemma finish_pop_pool x served n c credit :
  NoDup (x :: n ++ c) -> zlen n <= dedicated -> zlen c <= reserved -> 0 <= credit <= burst ->
  finish_pop x served
    (mkLanes (mkGate dedicated n (list_to_set n)) (mkGate reserved c (list_to_set c)) total
       (list_to_set (x :: n ++ c)) credit burst (0 <? dedicated)) =
  gate_of (mkPool n c (next_credit served n c credit)).
Proof.
  intros Hd Hn Hc Hcr. pose proof split_facts. apply NoDup_cons in Hd as [Hx Hd].
  set (fair := if 0 <? dedicated then if served then Z.min (credit + 1) burst
               else if negb (is_empty n) && negb (is_empty c) then burst - 1 else 0 else 0).
  assert (Hrec : record_pop_fairness served
    (mkLanes (mkGate dedicated n (list_to_set n)) (mkGate reserved c (list_to_set c)) total
       (list_to_set (x :: n ++ c)) credit burst (0 <? dedicated)) =
    with_seen_global (list_to_set (x :: n ++ c)) (gate_of (mkPool n c fair))).
  { unfold record_pop_fairness, fair, saturating_add, saturating_sub. cbn [normal critical queue normal_has_dedicated_capacity
      critical_served_streak critical_burst_limit]. unfold with_streak, with_seen_global, gate_of. cbn.
    destruct (0 <? dedicated); [|done]. destruct served; [f_equal; lia|]. destruct (_ && _); [f_equal; lia|done]. }
  unfold finish_pop. rewrite Hrec.
  assert (Hset : (list_to_set (x :: n ++ c) ∖ {[x]} : gset Z) = list_to_set n ∪ list_to_set c)
    by (cbn; rewrite list_to_set_app_L; set_solver).
  assert (Hrep : repair_global_seen_after_pop x (with_seen_global (list_to_set (x :: n ++ c)) (gate_of (mkPool n c fair))) =
                 gate_of (mkPool n c fair)).
  { unfold repair_global_seen_after_pop.
    assert (Es : forall A G, seen_global (with_seen_global A G) = A) by done. rewrite (Es (list_to_set (x :: n ++ c))).
    rewrite set_has_queue. unfold queue_has. rewrite bool_decide_eq_true_2 by set_solver. cbn [negb]. rewrite Hset.
    assert (Eg : with_seen_global (list_to_set n ∪ list_to_set c)
      (with_seen_global (list_to_set (x :: n ++ c)) (gate_of (mkPool n c fair))) = gate_of (mkPool n c fair)) by done.
    cbv zeta. rewrite Eg.
    assert (El : set_len (seen_global (gate_of (mkPool n c fair))) = zlen n + zlen c).
    { cbn. rewrite <- list_to_set_app_L, set_len_queue by done. unfold zlen. rewrite length_app. lia. }
    assert (Et : lane_total (gate_of (mkPool n c fair)) = zlen n + zlen c).
    { unfold lane_total, saturating_add. cbn. pose proof (zlen_nonneg n). pose proof (zlen_nonneg c). lia. }
    by rewrite El, Et, Z.eqb_refl. }
  rewrite Hrep. cbn [gate_of normal critical queue p_normal p_critical]. unfold next_credit.
  destruct n as [|a n], c as [|b c]; cbn [is_empty andb orb negb] in *.
  - unfold reset_idle_state. cbn. assert (E : (∅ ∪ ∅ : gset Z) = ∅) by set_solver. rewrite E.
    change (set_is_empty ∅) with true. cbn [andb negb]. unfold gate_of, with_streak. cbn.
    destruct (fair =? 0) eqn:Ef; bprop; cbn; [by rewrite Ef|done].
  - unfold fair. cbn [is_empty andb negb]. rewrite Z.leb_antisym. by destruct (0 <? dedicated).
  - unfold fair. cbn [is_empty andb negb]. rewrite Z.leb_antisym. by destruct (0 <? dedicated).
  - unfold fair. cbn [is_empty andb negb]. rewrite Z.leb_antisym. by destruct (0 <? dedicated).
Qed.

Lemma next_credit_range served n c credit : 0 <= credit <= burst -> 0 <= next_credit served n c credit <= burst.
Proof. intros Hc. pose proof split_facts. unfold next_credit. repeat case_match; lia. Qed.

Lemma next_credit_idle served credit : next_credit served [] [] credit = 0.
Proof. done. Qed.

(** Removing a head keeps a pool well formed. *)
Lemma popped_ok served x n c credit n' c' :
  pool_ok (mkPool n' c' credit) -> n' ++ c' ≡ₚ x :: n ++ c -> zlen n <= zlen n' -> zlen c <= zlen c' ->
  NoDup (x :: n ++ c) /\ pool_ok (mkPool n c (next_credit served n c credit)).
Proof.
  intros [Hd Hn Hc Hcr _] Hp Ln Lc. cbn [p_normal p_critical p_credit] in *. rewrite Hp in Hd. split; [done|].
  split; cbn [p_normal p_critical p_credit]; [by apply NoDup_cons in Hd as [_ Hd]|lia..|by apply next_credit_range|].
  intros -> ->. apply next_credit_idle.
Qed.

Lemma pop_normal_ok x n c credit :
  pool_ok (mkPool (x :: n) c credit) -> NoDup (x :: n ++ c) /\ pool_ok (mkPool n c (next_credit false n c credit)).
Proof. intros Hp. eapply popped_ok; [exact Hp|done|rewrite zlen_cons; lia|done]. Qed.

Lemma pop_critical_ok y n c credit :
  pool_ok (mkPool n (y :: c) credit) -> NoDup (y :: n ++ c) /\ pool_ok (mkPool n c (next_credit true n c credit)).
Proof. intros Hp. eapply popped_ok; [exact Hp|by rewrite <- Permutation_middle|done|rewrite zlen_cons; lia]. Qed.

Lemma pool_pop_ok p : pool_ok p -> pool_ok (snd (pool_pop p)).
Proof.
  destruct p as [[|x n] [|y c] credit]; unfold pool_pop; cbn [p_normal p_critical p_credit]; intros Hp; [done| | |].
  - by eapply pop_critical_ok.
  - by eapply pop_normal_ok.
  - destruct (_ && _); cbn [snd]; [by eapply pop_normal_ok|by eapply pop_critical_ok].
Qed.

Lemma serve_normal x n c credit :
  pool_ok (mkPool (x :: n) c credit) ->
  gate_pop_ready (normal (gate_of (mkPool (x :: n) c credit))) = Some (x, mkGate dedicated n (list_to_set n)) /\
  finish_pop x false (with_normal (mkGate dedicated n (list_to_set n)) (gate_of (mkPool (x :: n) c credit))) =
  gate_of (mkPool n c (next_credit false n c credit)).
Proof.
  intros Hp. destruct (pop_normal_ok x n c credit Hp) as [Hd [_ Hn Hc _ _]]. split.
  - cbn. apply gate_pop_queue. rewrite app_comm_cons in Hd. by apply NoDup_app in Hd as (? & _ & _).
  - rewrite <- (finish_pop_pool x false n c credit); [|done|done|done|apply Hp].
    f_equal. unfold with_normal, gate_of. cbn. f_equal. rewrite list_to_set_app_L. set_solver.
Qed.

Lemma serve_critical y n c credit :
  pool_ok (mkPool n (y :: c) credit) ->
  gate_pop_ready (critical (gate_of (mkPool n (y :: c) credit))) = Some (y, mkGate reserved c (list_to_set c)) /\
  finish_pop y true (with_critical (mkGate reserved c (list_to_set c)) (gate_of (mkPool n (y :: c) credit))) =
  gate_of (mkPool n c (next_credit true n c credit)).
Proof.
  intros Hp. destruct (pop_critical_ok y n c credit Hp) as [Hd [_ Hn Hc _ _]]. split.
  - cbn. apply gate_pop_queue. destruct Hp as [Hp _ _ _ _]. by apply NoDup_app in Hp as (_ & _ & ?).
  - rewrite <- (finish_pop_pool y true n c credit); [|done|done|done|apply Hp].
    f_equal. unfold with_critical, gate_of. cbn. f_equal. rewrite list_to_set_app_L. set_solver.
Qed.

Lemma lanes_pop_pool p : pool_ok p -> lanes_pop_ready (gate_of p) = (fst (pool_pop p), gate_of (snd (pool_pop p))).
Proof.
  intros Hp. unfold lanes_pop_ready. rewrite lane_idle_pool by done.
  destruct p as [n c credit]. destruct (is_empty n && is_empty c) eqn:E.
  { rewrite reset_idle_pool by done. by destruct n, c. }
  cbn [p_normal p_critical]. rewrite E. unfold pop_lanes.
  assert (Hn : gate_pop_ready (normal (gate_of (mkPool [] c credit))) = None) by done.
  assert (Hc : gate_pop_ready (critical (gate_of (mkPool n [] credit))) = None) by done.
  assert (Hpref : prefer_normal_on_pop (gate_of (mkPool n c credit)) = (0 <? dedicated) && (burst <=? credit) && negb (is_empty n))
    by done.
  rewrite Hpref. destruct n as [|x n], c as [|y c]; [done| | |]; unfold pool_pop; cbn [p_normal p_critical p_credit].
  - destruct (serve_critical y [] c credit Hp) as [-> Hf]. rewrite Hn, andb_false_r. cbn [fst snd]. by rewrite <- Hf.
  - destruct (serve_normal x n [] credit Hp) as [-> Hf]. rewrite Hc. cbn [fst snd]. rewrite <- Hf. cbn [is_empty negb]. by destruct (_ && _ && _).
  - destruct (serve_normal x n (y :: c) credit Hp) as [-> Hf], (serve_critical y (x :: n) c credit Hp) as [-> Hg].
    cbn [is_empty negb]. rewrite andb_true_r.
    destruct ((0 <? dedicated) && (burst <=? credit)); cbn [fst snd]; [by rewrite <- Hf|by rewrite <- Hg].
Qed.

(** ** Runs of the gate are runs of the pool *)

Lemma step_pool op p :
  pool_ok p -> lanes_step op (gate_of p) = (fst (pool_step op p), gate_of (snd (pool_step op p))) /\ pool_ok (snd (pool_step op p)).
Proof.
  intros Hp. destruct op as [tx class|]; cbn [lanes_step pool_step].
  - rewrite lanes_admit_pool by done. pose proof (pool_admit_ok tx class p Hp). by destruct (pool_admit tx class p).
  - rewrite lanes_pop_pool by done. pose proof (pool_pop_ok p Hp). by destruct (pool_pop p).
Qed.

Lemma run_pool ops p :
  pool_ok p -> run_lane_ops lanes_step (gate_of p) ops =
    (fst (run_lane_ops pool_step p ops), gate_of (snd (run_lane_ops pool_step p ops))) /\
  pool_ok (snd (run_lane_ops pool_step p ops)).
Proof.
  revert p. induction ops as [|op ops IH]; intros p Hp; cbn [run_lane_ops]; [done|].
  destruct (step_pool op p Hp) as [-> Hok]. destruct (pool_step op p) as [o p']. cbn [fst snd] in *.
  destruct (IH p' Hok) as [-> Hok']. by destruct (run_lane_ops pool_step p' ops).
Qed.

(** The pools and gates that runs reach. *)
Lemma reach_pool ops :
  run_lane_ops lanes_step (lanes_new total reserve) ops =
    (fst (run_lane_ops pool_step empty_pool ops), gate_of (snd (run_lane_ops pool_step empty_pool ops))) /\
  pool_ok (snd (run_lane_ops pool_step empty_pool ops)).
Proof. rewrite gate_of_new. apply run_pool, empty_pool_ok. Qed.

(** ** Waiting times *)

Lemma admit_keeps_normal tx class p i x :
  pool_ok p -> p_normal p !! i = Some x ->
  p_normal (snd (pool_admit tx class p)) !! i = Some x /\ p_credit p <= p_credit (snd (pool_admit tx class p)).
Proof.
  intros Hp Hi. unfold pool_admit. destruct (queued tx p); [done|]. destruct (may_enter class p); [|done].
  unfold enter. cbn [snd p_normal p_credit]. split.
  - destruct class; case_match; try done; by apply lookup_app_l_Some.
  - destruct (_ && _); [apply Hp|lia].
Qed.

Lemma pop_advances_normal p i x :
  pool_ok p -> 0 < dedicated -> p_normal p !! i = Some x ->
  fst (pool_pop p) = Some x \/
  exists j, p_normal (snd (pool_pop p)) !! j = Some x /\
    burst - p_credit (snd (pool_pop p)) + Z.of_nat j * (burst + 1) < burst - p_credit p + Z.of_nat i * (burst + 1).
Proof.
  intros Hp Hded Hi. destruct p as [[|y n] c credit]; [done|]. pose proof split_facts.
  assert (Hcr := po_credit _ Hp). cbn [p_normal p_credit] in *.
  assert (Hserve : forall c', Some y = Some x \/ exists j, n !! j = Some x /\
    burst - next_credit false n c' credit + Z.of_nat j * (burst + 1) < burst - credit + Z.of_nat i * (burst + 1)).
  { intros c'. destruct i as [|i]; [by left|right]. exists i. split; [done|].
    pose proof (next_credit_range false n c' credit Hcr). nia. }
  unfold pool_pop. cbn [p_normal p_critical p_credit]. destruct c as [|z c]; [apply Hserve|].
  destruct ((0 <? dedicated) && (burst <=? credit)) eqn:E; [apply Hserve|]. right. exists i. split; [done|].
  assert (credit < burst) by (rewrite (proj2 (Z.ltb_lt _ _) Hded) in E; cbn in E; bprop; lia).
  cbn [p_credit snd]. unfold next_credit. cbn [is_empty andb orb]. rewrite (proj2 (Z.leb_gt _ _)) by lia. lia.
Qed.

Lemma normal_served ops p i x :
  pool_ok p -> 0 < dedicated -> p_normal p !! i = Some x ->
  burst - p_credit p + Z.of_nat i * (burst + 1) < pops ops ->
  Served (Some x) ∈ fst (run_lane_ops pool_step p ops).
Proof.
  revert p i. induction ops as [|op ops IH]; intros p i Hp Hded Hi Hpops.
  - pose proof split_facts. assert (Hcr := po_credit _ Hp). unfold pops, zlen in Hpops. cbn in Hpops. nia.
  - cbn [run_lane_ops]. pose proof (step_pool op p Hp) as [_ Hok].
    destruct op as [tx class|]; cbn [pool_step] in *.
    + destruct (admit_keeps_normal tx class p i x Hp Hi) as [Hi' Hc']. destruct (pool_admit tx class p) as [o p'].
      cbn [fst snd] in *. specialize (IH p' i Hok Hded Hi'). destruct (run_lane_ops pool_step p' ops). cbn [fst] in *.
      apply list_elem_of_further, IH. change (pops (Arrive tx class :: ops)) with (pops ops) in Hpops. lia.
    + assert (Ep : pops (PopReady :: ops) = pops ops + 1) by apply zlen_cons. rewrite Ep in Hpops.
      destruct (pop_advances_normal p i x Hp Hded Hi) as [Hx|(j & Hj & Hlt)]; destruct (pool_pop p) as [id p']; cbn [fst snd] in *.
      * subst. destruct (run_lane_ops pool_step p' ops). constructor.
      * specialize (IH p' j Hok Hded Hj). destruct (run_lane_ops pool_step p' ops). cbn [fst] in *.
        apply list_elem_of_further, IH. lia.
Qed.

(** A round of paced normal traffic: one arrival, one dequeue. *)
Definition rounds (txs : list Z) : list lane_op := txs ≫= fun tx => [Arrive tx Normal; PopReady].

(** With one critical transaction waiting, every round serves the new normal one:
    the arrival at the empty normal lane refills the credit that the dequeue
    before it cleared. *)
Lemma rounds_starve_critical txs y :
  0 < reserved -> 0 < dedicated -> y ∉ txs ->
  snd (run_lane_ops pool_step (mkPool [] [y] 0) (rounds txs)) = mkPool [] [y] 0.
Proof.
  intros Hr Hd. pose proof split_facts. induction txs as [|tx txs IH]; intros Hy; [done|].
  apply not_elem_of_cons in Hy as [Hne Hy]. specialize (IH Hy).
  change (rounds (tx :: txs)) with (Arrive tx Normal :: PopReady :: rounds txs). cbn [run_lane_ops pool_step].
  assert (Ea : pool_admit tx Normal (mkPool [] [y] 0) = (Accepted, mkPool [tx] [y] burst)).
  { unfold pool_admit, queued, may_enter, enter. cbn [p_normal p_critical p_credit app].
    rewrite bool_decide_eq_false_2 by set_solver. change (zlen [y]) with 1. change (zlen (@nil Z)) with 0.
    rewrite !(proj2 (Z.ltb_lt _ _)) by lia. done. }
  assert (Ep : pool_pop (mkPool [tx] [y] burst) = (Some tx, mkPool [] [y] 0)).
  { unfold pool_pop, next_credit. cbn [p_normal p_critical p_credit is_empty andb orb negb].
    rewrite (proj2 (Z.ltb_lt _ _)), (proj2 (Z.leb_le _ _)), (proj2 (Z.leb_gt _ _)) by lia. done. }
  rewrite Ea, Ep. by destruct (run_lane_ops pool_step (mkPool [] [y] 0) (rounds txs)).
Qed.

(** A critical transaction can wait for any number of dequeues, each of which
    serves a normal transaction that arrived after it. *)
Lemma critical_lane_can_starve txs y :
  0 < reserved -> 0 < dedicated -> y ∉ txs ->
  let s := snd (run_lane_ops lanes_step (lanes_new total reserve) (Arrive y Critical :: rounds txs)) in
  queue (critical s) = [y] /\ pops (rounds txs) = zlen txs.
Proof.
  intros Hr Hd Hy. pose proof split_facts. destruct (reach_pool (Arrive y Critical :: rounds txs)) as [E _]. rewrite E.
  cbn [snd fst run_lane_ops pool_step].
  assert (Ea : pool_admit y Critical empty_pool = (Accepted, mkPool [] [y] 0)).
  { unfold pool_admit, queued, may_enter, enter. cbn [p_normal p_critical p_credit app empty_pool].
    rewrite bool_decide_eq_false_2 by set_solver. change (zlen (@nil Z)) with 0. rewrite (proj2 (Z.ltb_lt _ _)) by lia.
    rewrite (proj2 (Z.leb_gt _ _)) by lia. cbn [andb is_empty negb]. by rewrite andb_true_r, andb_false_r. }
  rewrite Ea. pose proof (rounds_starve_critical txs y Hr Hd Hy) as Hs.
  destruct (run_lane_ops pool_step (mkPool [] [y] 0) (rounds txs)) as [outs p]. cbn [snd] in *. subst p. split; [done|].
  clear. induction txs as [|tx txs IH]; [done|]. unfold pops in *.
  change (rounds (tx :: txs)) with (Arrive tx Normal :: PopReady :: rounds txs). cbn [List.filter is_pop].
  by rewrite !zlen_cons, IH.
Qed.

(** ** Theorems *)

(** C7: the two-lane gate is a pool of two disjoint bounded queues.  For every
    capacity and reserve and every sequence of arrivals and dequeues, the gate
    gives exactly the answers of the abstract pool and ends in the state that
    stands for it: the membership caches are exact, no id is queued twice, each
    lane respects its share of the capacity, and the snapshot predicts for every
    class whether a fresh id would be accepted. *)
Theorem lanes_refine_pool ops :
  let r := run_lane_ops lanes_step (lanes_new total reserve) ops in
  let p := snd (run_lane_ops pool_step empty_pool ops) in
  fst r = fst (run_lane_ops pool_step empty_pool ops) /\ snd r = gate_of p /\ pool_ok p /\
  forall tx class, queued tx p = false ->
    (fst (lanes_admit tx class (snd r)) = Accepted <->
     match class with
     | Normal => fresh_normal_admissible (qos_snapshot (snd r)) = true
     | Critical => fresh_critical_admissible (qos_snapshot (snd r)) = true
     end).
Proof.
  intros r p. subst r. destruct (reach_pool ops) as [-> Hok]. fold p in Hok |- *. split_and!; [done..|].
  intros tx class Hq. cbn [snd fst]. rewrite lanes_admit_pool by done. unfold pool_admit. rewrite Hq.
  assert (Hs : match class with
               | Normal => fresh_normal_admissible (qos_snapshot (gate_of p)) = true
               | Critical => fresh_critical_admissible (qos_snapshot (gate_of p)) = true
               end <-> may_enter class p = true) by (rewrite <- guard_pool by done; by destruct class).
  rewrite Hs. by destruct (may_enter class p).
Qed.

(** C18: normal traffic is not starved.  In every reachable gate with dedicated
    normal capacity, whatever arrives afterwards, the transaction at position [i]
    of the normal lane is served within [(i + 1) * (burst + 1)] dequeues. *)
Theorem normal_wait_is_bounded ops ops' i x :
  0 < dedicated ->
  queue (normal (snd (run_lane_ops lanes_step (lanes_new total reserve) ops))) !! i = Some x ->
  (Z.of_nat i + 1) * (burst + 1) <= pops ops' ->
  Served (Some x) ∈ fst (run_lane_ops lanes_step (snd (run_lane_ops lanes_step (lanes_new total reserve) ops)) ops').
Proof.
  intros Hd Hi Hp. destruct (reach_pool ops) as [E Hok]. rewrite E in *. cbn [fst snd] in *.
  destruct (run_pool ops' _ Hok) as [-> _]. cbn [fst]. pose proof split_facts. assert (Hcr := po_credit _ Hok).
  apply (normal_served ops' _ i); [done|done|exact Hi|nia].
Qed.

End pool.
