(* ===== verification/TypedAdmission.v ===== *)
(** * TypedAdmission: signed admission and pending-nonce leases

    [typed_admission.rs]: the typed gate over the two lanes, and the lifecycle
    tokens of the pending-nonce authority.  The envelope view, the hooks, the
    authority and its tokens are traits whose implementations belong to other
    crates: the class [AdmissionTraits], every call of which may read and change
    the implementations' state [World].  [calls] records, in order, the calls made
    on reservation tokens. *)

From stdpp Require Import base gmap list sorting strings.
From S2P Require Import Prelude Lanes.

Abbreviation Digest32 := (list Z).

Definition DEFAULT_MAX_ADMISSION_BODY_BYTES : Z := 1024 * 1024.

Inductive AdmissionReject :=
| CanonicalValidationUnavailable | CanonicalValidationFailed | CanonicalDigestChanged
| ZeroDigest | ZeroSignerId | SignerIdentityUnavailable | EmptyBody | BodyTooLarge | InvalidNonce
| InvalidResourceLimits | ResourceLimitExceeded | SignatureUnavailable | SignatureRejected
| ReplayCheckUnavailable | Replay | RecheckUnavailable | RecheckFailed
| ReservationUnavailable | ReservationStateConflict | SlotIdExhausted | InconsistentState.

Inductive PendingNonceReservationState := Reserved | HandedOff | Committed | Released.
#[export] Instance ReservationState_eq_dec : EqDecision PendingNonceReservationState.
Proof. solve_decision. Defined.

(** [Result<A, AdmissionReject>] *)
Abbreviation Res := (sum AdmissionReject).
#[export] Instance Res_ret : MRet Res := fun A a => inr a.
#[export] Instance Res_bind : MBind Res := fun A B f r => match r with inl e => inl e | inr a => f a end.
Definition deny (b : bool) (e : AdmissionReject) : Res () := if b then inl e else inr tt.
Definition or_reject {A} (o : option A) (e : AdmissionReject) : Res A := match o with Some a => inr a | None => inl e end.

(** [CanonicalTxDigest::from_bytes] and [CanonicalSignerId::from_bytes] *)
Definition digest_from_bytes (bytes : Digest32) : Res Digest32 :=
  if bytes =?? replicate 32 0 then inl ZeroDigest else inr bytes.
Definition signer_from_bytes (bytes : Digest32) : Res Digest32 :=
  if bytes =?? replicate 32 0 then inl ZeroSignerId else inr bytes.

Record ResourceLimits := mkLimits { max_gas : Z; max_bytes : Z }.
#[export] Instance ResourceLimits_eq_dec : EqDecision ResourceLimits.
Proof. solve_decision. Defined.

Definition limits_validate (l : ResourceLimits) (body_len configured_max_body_bytes : Z) : Res () :=
  _ ← deny ((max_gas l =? 0) || (max_bytes l =? 0)) InvalidResourceLimits;
  deny ((max_bytes l <? body_len) || (configured_max_body_bytes <? body_len)) ResourceLimitExceeded.

Record SignedEnvelopeMetadata := mkMetadata {
  m_digest : Digest32;
  m_signer_id : Digest32;
  m_body : list Z;
  m_nonce : Z;
  m_fee_limit : Z;
  m_resource_limits : ResourceLimits;
}.

Definition sequence_key (m : SignedEnvelopeMetadata) : Digest32 * Z := (m_signer_id m, m_nonce m).

Inductive TypedAdmitOutcome := TAccepted | TDuplicate | TBackpressured | Rejected (r : AdmissionReject).

(** ** The traits *)

Class AdmissionTraits := {
  World : Type;
  Envelope : Type;
  Token : Type;
  (** [SignedEnvelopeView] *)
  canonical_digest : Envelope -> World -> Digest32 * World;
  canonical_signer_id : Envelope -> World -> Res Digest32 * World;
  canonical_body : Envelope -> World -> list Z * World;
  view_nonce : Envelope -> World -> Z * World;
  view_fee_limit : Envelope -> World -> Z * World;
  view_resource_limits : Envelope -> World -> ResourceLimits * World;
  validate_canonical : Envelope -> World -> Res () * World;
  (** [SignedAdmissionHooks] *)
  verify_signature : Envelope -> SignedEnvelopeMetadata -> World -> Res () * World;
  check_replay : SignedEnvelopeMetadata -> World -> Res () * World;
  recheck : SignedEnvelopeMetadata -> World -> Res () * World;
  (** [PendingNonceAuthority] *)
  reserve_pending_nonce : Envelope -> SignedEnvelopeMetadata -> World -> Res Token * World;
  (** [PendingNonceReservation] *)
  token_owner_binding : Token -> option Z;
  token_handoff : Token -> World -> Res () * World;
  token_commit : Token -> World -> Res () * World;
  token_release : Token -> World -> Res () * World;
}.

(** Calls on a token, numbered by reservation, with whether they succeeded. *)
Inductive TokenCall := Reserve (n : nat) | Handoff (n : nat) (ok : bool) | Commit (n : nat) (ok : bool) | Release (n : nat) (ok : bool).

Definition is_ok {A} (r : Res A) : bool := match r with inr _ => true | inl _ => false end.

Section typed.
Context `{AdmissionTraits}.

(** A boxed token with its number. *)
Record Reservation := mkReservation { r_serial : nat; r_token : Token }.
Record PendingNonceLease := mkLease { reservation : option Reservation; lease_state : PendingNonceReservationState }.

Record TypedAdmissionGate := mkTyped {
  lanes : LaneAdmissionGate;
  max_body_bytes : Z;
  next_slot : Z;
  by_slot : gmap Z SignedEnvelopeMetadata;
  slot_by_digest : gmap Digest32 Z;
  pending_reservations : gmap Z PendingNonceLease;
}.

(** The gate's environment: the implementations' state, the number of
    reservations made and the calls on their tokens. *)
Record Env := mkEnv { world : World; minted : nat; calls : list TokenCall }.

Definition IO (A : Type) : Type := Env -> A * Env.
#[local] Instance IO_ret : MRet IO := fun A a s => (a, s).
#[local] Instance IO_bind : MBind IO := fun A B f m s => let '(a, s) := m s in f a s.

(** A call of a trait method. *)
Definition ask {A} (f : World -> A * World) : IO A := fun s =>
  let '(a, w) := f (world s) in (a, mkEnv w (minted s) (calls s)).
(** A call on a token. *)
Definition on_token (f : World -> Res () * World) (call : bool -> TokenCall) : IO (Res ()) := fun s =>
  let '(r, w) := f (world s) in (r, mkEnv w (minted s) (calls s ++ [call (is_ok r)])).

(** [Result]-returning code: [?] stops at an error. *)
Definition RIO (A : Type) : Type := Env -> Res A * Env.
#[local] Instance RIO_ret : MRet RIO := fun A a s => (inr a, s).
#[local] Instance RIO_bind : MBind RIO := fun A B f m s =>
  match m s with
  | (inr a, s) => f a s
  | (inl e, s) => (inl e, s)
  end.
Definition ask_r {A} (f : World -> Res A * World) : RIO A := ask f.
Definition ask_v {A} (f : World -> A * World) : RIO A := fun s => let '(a, s) := ask f s in (inr a, s).
Definition pure {A} (r : Res A) : RIO A := fun s => (r, s).

(** ** Leases *)

Definition lease_new (r : Reservation) : PendingNonceLease := mkLease (Some r) Reserved.

Definition lease_owner_binding (l : PendingNonceLease) : option Z := r ← reservation l; token_owner_binding (r_token r).

Definition lease_handoff (l : PendingNonceLease) : IO (Res () * PendingNonceLease) := fun s =>
  if lease_state l <>? Reserved then (inl ReservationStateConflict, l, s)
  else match reservation l with
       | None => (inl ReservationUnavailable, l, s)
       | Some r =>
           let '(res, s) := on_token (token_handoff (r_token r)) (Handoff (r_serial r)) s in
           match res with
           | inr _ => (inr tt, mkLease (Some r) HandedOff, s)
           | inl e => (inl e, l, s)
           end
       end.

Definition lease_commit (l : PendingNonceLease) : IO (Res () * PendingNonceLease) := fun s =>
  if lease_state l <>? HandedOff then (inl ReservationStateConflict, l, s)
  else match reservation l with
       | None => (inl ReservationUnavailable, l, s)
       | Some r =>
           let '(res, s) := on_token (token_commit (r_token r)) (Commit (r_serial r)) s in
           match res with
           | inr _ => (inr tt, mkLease None Committed, s)
           | inl e => (inl e, l, s)
           end
       end.

Definition is_open (st : PendingNonceReservationState) : bool := (st =?? Reserved) || (st =?? HandedOff).

Definition lease_release (l : PendingNonceLease) : IO (Res () * PendingNonceLease) := fun s =>
  if negb (is_open (lease_state l)) then (inl ReservationStateConflict, l, s)
  else match reservation l with
       | None => (inl ReservationUnavailable, mkLease None Released, s)
       | Some r =>
           let '(res, s) := on_token (token_release (r_token r)) (Release (r_serial r)) s in
           (res, mkLease None Released, s)
       end.

Definition lease_cancel (l : PendingNonceLease) : IO (Res () * PendingNonceLease) := fun s =>
  if lease_state l <>? Reserved then (inl ReservationStateConflict, l, s) else lease_release l s.

(** [impl Drop for PendingNonceLease] *)
Definition drop_lease (l : PendingNonceLease) : IO () := fun s =>
  if is_open (lease_state l) then let '(_, s) := lease_release l s in (tt, s) else (tt, s).
Definition drop_lease_opt (l : option PendingNonceLease) : IO () := fun s =>
  match l with Some l => drop_lease l s | None => (tt, s) end.

(** ** Ready items *)

Record PendingNonceAdmission := mkAdmission { a_metadata : SignedEnvelopeMetadata; a_lease : option PendingNonceLease }.

(** The operations on a ready item forward to its lease. *)
Definition with_lease (op : PendingNonceLease -> IO (Res () * PendingNonceLease)) (a : PendingNonceAdmission) :
    IO (Res () * PendingNonceAdmission) := fun s =>
  match a_lease a with
  | None => (inl ReservationUnavailable, a, s)
  | Some l => let '(r, l, s) := op l s in (r, mkAdmission (a_metadata a) (Some l), s)
  end.
Definition admission_handoff := with_lease lease_handoff.
Definition admission_commit := with_lease lease_commit.
Definition admission_release := with_lease lease_release.
Definition admission_cancel := with_lease lease_cancel.
Definition reservation_state (a : PendingNonceAdmission) : Res PendingNonceReservationState :=
  or_reject (lease_state <$> a_lease a) ReservationUnavailable.
Definition owner_binding (a : PendingNonceAdmission) : option Z := l ← a_lease a; lease_owner_binding l.
Definition into_metadata (a : PendingNonceAdmission) : IO SignedEnvelopeMetadata := fun s =>
  let '(_, s) := drop_lease_opt (a_lease a) s in (a_metadata a, s).

(** ** The gate *)

Definition typed_new (total reserve max_body : Z) : TypedAdmissionGate :=
  mkTyped (lanes_new total reserve) max_body 1 ∅ ∅ ∅.
Definition with_default_body_limit (total reserve : Z) : TypedAdmissionGate :=
  typed_new total reserve DEFAULT_MAX_ADMISSION_BODY_BYTES.
Definition typed_queued_counts (g : TypedAdmissionGate) : Z * Z * Z := queued_counts (lanes g).
Definition contains_digest (g : TypedAdmissionGate) (d : Digest32) : bool := bool_decide (is_Some (slot_by_digest g !! d)).

Definition check_body (g : TypedAdmissionGate) (body : list Z) : Res Z :=
  _ ← deny (is_empty body) EmptyBody;
  body_len ← or_reject (try_from u64_max (zlen body)) BodyTooLarge;
  _ ← deny (max_body_bytes g <? body_len) BodyTooLarge;
  mret body_len.

Definition metadata_from (g : TypedAdmissionGate) (envelope : Envelope) (probed_digest : Digest32) : RIO SignedEnvelopeMetadata :=
  _ ← ask_r (validate_canonical envelope);
  digest ← ask_v (canonical_digest envelope);
  _ ← pure (deny (digest <>? probed_digest) CanonicalDigestChanged);
  _ ← pure (digest_from_bytes digest);
  signer_id ← ask_r (canonical_signer_id envelope);
  body ← ask_v (canonical_body envelope);
  body_len ← pure (check_body g body);
  nonce ← ask_v (view_nonce envelope);
  _ ← pure (deny (nonce =? 0) InvalidNonce);
  limits ← ask_v (view_resource_limits envelope);
  _ ← pure (limits_validate limits body_len (max_body_bytes g));
  fee_limit ← ask_v (view_fee_limit envelope);
  mret (mkMetadata digest signer_id body nonce fee_limit limits).

Definition canonical_metadata_v0 (g : TypedAdmissionGate) (envelope : Envelope) : RIO SignedEnvelopeMetadata :=
  digest ← ask_v (canonical_digest envelope); metadata_from g envelope digest.

(** Short-circuiting [a != b || c != d() || ..]: the fee limit is asked only when
    body and nonce agree. *)
Definition same_claims (queued : SignedEnvelopeMetadata) (envelope : Envelope) (body : list Z) (nonce : Z)
    (limits : ResourceLimits) : RIO () :=
  if (m_body queued <>? body) || negb (m_nonce queued =? nonce) then pure (inl CanonicalValidationFailed)
  else fee_limit ← ask_v (view_fee_limit envelope);
       pure (deny (negb (m_fee_limit queued =? fee_limit) || (m_resource_limits queued <>? limits)) CanonicalValidationFailed).

Definition validate_duplicate (g : TypedAdmissionGate) (envelope : Envelope) (probed_digest : Digest32) (slot : Z) : RIO () :=
  _ ← ask_r (validate_canonical envelope);
  digest ← ask_v (canonical_digest envelope);
  _ ← pure (deny (digest <>? probed_digest) CanonicalDigestChanged);
  _ ← pure (digest_from_bytes digest);
  signer_id ← ask_r (canonical_signer_id envelope);
  queued ← pure (or_reject (by_slot g !! slot) InconsistentState);
  _ ← pure (deny ((m_digest queued <>? digest) || (m_signer_id queued <>? signer_id)) CanonicalValidationFailed);
  body ← ask_v (canonical_body envelope);
  body_len ← pure (check_body g body);
  nonce ← ask_v (view_nonce envelope);
  _ ← pure (deny (nonce =? 0) InvalidNonce);
  limits ← ask_v (view_resource_limits envelope);
  _ ← pure (limits_validate limits body_len (max_body_bytes g));
  same_claims queued envelope body nonce limits.

(** The slot search: at most [fuel] candidates. *)
Fixpoint find_slot (fuel : nat) (next : Z) (taken : gmap Z SignedEnvelopeMetadata) : option Z * Z :=
  match fuel with
  | O => (None, next)
  | S fuel =>
      let candidate := next in
      let next := default 1 (checked_add u64_max next 1) in
      if negb (candidate =? 0) && bool_decide (taken !! candidate = None) then (Some candidate, next)
      else find_slot fuel next taken
  end.

(** [for _ in 0..=len.saturating_add(1)] runs [len + 2] times. *)
Definition allocate_slot (g : TypedAdmissionGate) : Res Z * TypedAdmissionGate :=
  let '(slot, next) := find_slot (Z.to_nat (saturating_add u64_max (Z.of_nat (size (by_slot g))) 1 + 1)) (next_slot g) (by_slot g) in
  (or_reject slot SlotIdExhausted,
   mkTyped (lanes g) (max_body_bytes g) next (by_slot g) (slot_by_digest g) (pending_reservations g)).

Definition typed_admissible (class : IngressClass) (g : TypedAdmissionGate) : bool :=
  let snapshot := qos_snapshot (lanes g) in
  match class with Normal => fresh_normal_admissible snapshot | Critical => fresh_critical_admissible snapshot end.

(** Queueing validated metadata, with its lease if there is one. *)
Definition enqueue (g : TypedAdmissionGate) (slot : Z) (class : IngressClass) (metadata : SignedEnvelopeMetadata)
    (lease : option PendingNonceLease) : AdmitOutcome * TypedAdmissionGate :=
  let '(out, l) := lanes_admit slot class (lanes g) in
  match out with
  | Accepted =>
      (Accepted, mkTyped l (max_body_bytes g) (next_slot g) (<[slot := metadata]> (by_slot g))
        (<[m_digest metadata := slot]> (slot_by_digest g))
        (match lease with Some lease => <[slot := lease]> (pending_reservations g) | None => pending_reservations g end))
  | out => (out, mkTyped l (max_body_bytes g) (next_slot g) (by_slot g) (slot_by_digest g) (pending_reservations g))
  end.

Definition typed_outcome (out : AdmitOutcome) : TypedAdmitOutcome :=
  match out with Accepted => TAccepted | Duplicate => TDuplicate | Backpressured => TBackpressured end.

(** The probe both admission paths start with: an answer, or the digest. *)
Definition probe_digest (g : TypedAdmissionGate) (envelope : Envelope) (class : IngressClass) :
    IO (TypedAdmitOutcome + Digest32) := fun s =>
  let '(digest, s) := ask (canonical_digest envelope) s in
  match slot_by_digest g !! digest with
  | Some slot =>
      match validate_duplicate g envelope digest slot s with
      | (inr _, s) => (inl TDuplicate, s)
      | (inl reason, s) => (inl (Rejected reason), s)
      end
  | None => (if typed_admissible class g then inr digest else inl TBackpressured, s)
  end.

(** Stops at a rejection. *)
Definition rejecting {A} (r : Res A) (s : Env) (k : A -> Env -> TypedAdmitOutcome * TypedAdmissionGate * Env)
    (g : TypedAdmissionGate) : TypedAdmitOutcome * TypedAdmissionGate * Env :=
  match r with
  | inl reason => (Rejected reason, g, s)
  | inr a => k a s
  end.

Definition admit_signed (g : TypedAdmissionGate) (envelope : Envelope) (class : IngressClass) (s : Env) :
    TypedAdmitOutcome * TypedAdmissionGate * Env :=
  let '(probe, s) := probe_digest g envelope class s in
  match probe with
  | inl out => (out, g, s)
  | inr digest =>
      let '(metadata, s) := metadata_from g envelope digest s in
      rejecting metadata s (fun metadata s =>
      let '(verified, s) := ask (verify_signature envelope metadata) s in
      rejecting verified s (fun _ s =>
      let '(replay, s) := ask (check_replay metadata) s in
      rejecting replay s (fun _ s =>
      let '(checked, s) := ask (recheck metadata) s in
      rejecting checked s (fun _ s =>
      let '(slot, g) := allocate_slot g in
      rejecting slot s (fun slot s =>
      let '(out, g) := enqueue g slot class metadata None in
      (typed_outcome out, g, s)) g) g) g) g) g
  end.

(** The reservation, numbered. *)
Definition reserve (envelope : Envelope) (metadata : SignedEnvelopeMetadata) : IO (Res PendingNonceLease) := fun s =>
  let '(r, w) := reserve_pending_nonce envelope metadata (world s) in
  match r with
  | inl reason => (inl reason, mkEnv w (minted s) (calls s))
  | inr token => (inr (lease_new (mkReservation (minted s) token)), mkEnv w (S (minted s)) (calls s ++ [Reserve (minted s)]))
  end.

(** [let _ = lease.release();] and the end of the lease's scope. *)
Definition release_and_drop (lease : PendingNonceLease) (s : Env) : Env :=
  let '(_, lease, s) := lease_release lease s in snd (drop_lease lease s).

Definition admit_signed_with_pending_nonce (g : TypedAdmissionGate) (envelope : Envelope) (class : IngressClass) (s : Env) :
    TypedAdmitOutcome * TypedAdmissionGate * Env :=
  let '(probe, s) := probe_digest g envelope class s in
  match probe with
  | inl out => (out, g, s)
  | inr digest =>
      let '(metadata, s) := metadata_from g envelope digest s in
      rejecting metadata s (fun metadata s =>
      let '(verified, s) := ask (verify_signature envelope metadata) s in
      rejecting verified s (fun _ s =>
      let '(lease, s) := reserve envelope metadata s in
      rejecting lease s (fun lease s =>
      let '(checked, s) := ask (recheck metadata) s in
      match checked with
      | inl reason => (Rejected reason, g, release_and_drop lease s)
      | inr _ =>
          let '(slot, g) := allocate_slot g in
          match slot with
          | inl reason => (Rejected reason, g, release_and_drop lease s)
          | inr slot =>
              let '(out, g) := enqueue g slot class metadata (Some lease) in
              (typed_outcome out, g,
               match out with Accepted => s | _ => release_and_drop lease s end)
          end
      end) g) g) g
  end.

(** The popped metadata with its lease; a lease without a metadata record is
    dropped. *)
Definition pop_ready_parts (g : TypedAdmissionGate) (s : Env) :
    option (SignedEnvelopeMetadata * option PendingNonceLease) * TypedAdmissionGate * Env :=
  let '(slot, l) := lanes_pop_ready (lanes g) in
  match slot with
  | None => (None, mkTyped l (max_body_bytes g) (next_slot g) (by_slot g) (slot_by_digest g) (pending_reservations g), s)
  | Some slot =>
      let metadata := by_slot g !! slot in
      let lease := pending_reservations g !! slot in
      let slots := delete slot (by_slot g) in
      let pending := delete slot (pending_reservations g) in
      match metadata with
      | None => (None, mkTyped l (max_body_bytes g) (next_slot g) slots (slot_by_digest g) pending,
                 snd (drop_lease_opt lease s))
      | Some metadata =>
          (Some (metadata, lease),
           mkTyped l (max_body_bytes g) (next_slot g) slots (delete (m_digest metadata) (slot_by_digest g)) pending, s)
      end
  end.

Definition typed_pop_ready (g : TypedAdmissionGate) (s : Env) :
    option SignedEnvelopeMetadata * TypedAdmissionGate * Env :=
  let '(parts, g, s) := pop_ready_parts g s in
  match parts with
  | None => (None, g, s)
  | Some (metadata, lease) => (Some metadata, g, snd (drop_lease_opt lease s))
  end.

Definition pop_ready_with_lifecycle (g : TypedAdmissionGate) (s : Env) :
    option PendingNonceAdmission * TypedAdmissionGate * Env :=
  let '(parts, g, s) := pop_ready_parts g s in
  match parts with
  | None => (None, g, s)
  | Some (metadata, lease) => (Some (mkAdmission metadata lease), g, s)
  end.

(** Dropping the gate drops its leases, in the map's order. *)
Definition drop_gate (g : TypedAdmissionGate) (s : Env) : Env :=
  foldl (fun s lease => snd (drop_lease lease s)) s (snd <$> map_to_list (pending_reservations g)).

End typed.
