(* ===== verification/TypedTheorems.v ===== *)
(** * TypedTheorems: the typed gate keeps its indexes and settles its leases

    The invariant that ties the slot and digest indexes to the lanes, the answers
    of both admission paths, and the protocol that the calls on reservation tokens
    follow in every run. *)

From stdpp Require Import base gmap list sorting strings.
From S2P Require Import Prelude Lanes LanesTheorems TypedAdmission.

(** Dequeue removes the served id and nothing else. *)
Lemma pool_pop_waiting total reserve p :
  match fst (pool_pop total reserve p) with
  | Some x => p_normal p ++ p_critical p ≡ₚ
      x :: p_normal (snd (pool_pop total reserve p)) ++ p_critical (snd (pool_pop total reserve p))
  | None => snd (pool_pop total reserve p) = p
  end.
Proof.
  destruct p as [[|x n] [|y c] credit]; unfold pool_pop; cbn [p_normal p_critical p_credit fst snd]; try done.
  destruct (_ && _); cbn [fst snd p_normal p_critical]; [done|].
  symmetry. apply (Permutation_middle (x :: n) c y).
Qed.

(** ** Slot allocation *)

(** The [i]-th candidate after [next]. *)
Definition candidate (next : Z) (i : nat) : Z := (next - 1 + Z.of_nat i) `mod` u64_max + 1.

Lemma next_candidate next : 1 <= next <= u64_max -> default 1 (checked_add u64_max next 1) = candidate next 1.
Proof.
  intros Hn. unfold checked_add, candidate. destruct (next + 1 <=? u64_max) eqn:E; bprop; cbn [default from_option id].
  - rewrite Z.mod_small by lia. lia.
  - replace (next - 1 + Z.of_nat 1) with u64_max by lia. by rewrite Z.mod_same.
Qed.

Lemma candidate_range next i : 1 <= candidate next i <= u64_max.
Proof. unfold candidate. pose proof (Z.mod_pos_bound (next - 1 + Z.of_nat i) u64_max). unfold u64_max in *. lia. Qed.

Lemma candidate_next next i : candidate (candidate next 1) i = candidate next (S i).
Proof.
  unfold candidate. f_equal.
  replace ((next - 1 + Z.of_nat 1) `mod` u64_max + 1 - 1 + Z.of_nat i) with ((next - 1 + Z.of_nat 1) `mod` u64_max + Z.of_nat i) by lia.
  rewrite Zplus_mod_idemp_l. f_equal. lia.
Qed.

Lemma candidate_inj next i j :
  Z.of_nat i < u64_max -> Z.of_nat j < u64_max -> candidate next i = candidate next j -> i = j.
Proof.
  intros Hi Hj E. unfold candidate in E. assert (Hu : 0 < u64_max) by (unfold u64_max; lia).
  set (a := next - 1) in *. assert (E' : (a + Z.of_nat i) `mod` u64_max = (a + Z.of_nat j) `mod` u64_max) by lia.
  pose proof (Z.div_mod (a + Z.of_nat i) u64_max). pose proof (Z.div_mod (a + Z.of_nat j) u64_max).
  assert (Hd : (a + Z.of_nat i) / u64_max = (a + Z.of_nat j) / u64_max) by nia. nia.
Qed.

Lemma find_slot_spec fuel next taken :
  1 <= next <= u64_max ->
  1 <= snd (find_slot fuel next taken) <= u64_max /\
  match fst (find_slot fuel next taken) with
  | Some c => 1 <= c <= u64_max /\ taken !! c = None
  | None => forall i, (i < fuel)%nat -> is_Some (taken !! candidate next i)
  end.
Proof.
  revert next. induction fuel as [|fuel IH]; intros next Hn; cbn [find_slot].
  { split; [done|]. intros i Hi. lia. }
  rewrite (proj2 (Z.eqb_neq next 0)) by lia. cbn [negb andb]. rewrite next_candidate by done.
  case_bool_decide as Ht; cbn [fst snd].
  - split; [apply candidate_range|done].
  - destruct (IH (candidate next 1) (candidate_range _ _)) as [Hr Hf]. split; [done|].
    destruct (fst (find_slot fuel (candidate next 1) taken)); [done|]. intros [|i] Hi.
    + assert (E0 : candidate next 0 = next) by (unfold candidate; rewrite Z.mod_small; lia). rewrite E0. by apply not_eq_None_Some.
    + rewrite <- candidate_next. apply Hf. lia.
Qed.

(** A map with fewer entries than there are ids has a free slot in reach. *)
Lemma find_slot_succeeds fuel next (taken : gmap Z SignedEnvelopeMetadata) :
  1 <= next <= u64_max -> (size taken < fuel)%nat -> Z.of_nat (size taken) < u64_max ->
  exists c, fst (find_slot fuel next taken) = Some c.
Proof.
  intros Hn Hf Hs. destruct (find_slot_spec fuel next taken Hn) as [_ Hspec].
  destruct (fst (find_slot fuel next taken)) as [c|]; [by exists c|]. exfalso.
  set (k := S (size taken)). set (l := candidate next <$> seq 0 k).
  assert (Hnd : NoDup l).
  { apply NoDup_fmap_2_strong; [|apply NoDup_seq]. intros i j Hi Hj E. apply elem_of_seq in Hi, Hj.
    apply (candidate_inj next); [lia..|done]. }
  assert (Hsub : (list_to_set l : gset Z) ⊆ dom taken).
  { intros x Hx. apply elem_of_list_to_set, list_elem_of_fmap in Hx as (i & -> & Hi). apply elem_of_seq in Hi.
    apply elem_of_dom, Hspec. lia. }
  apply subseteq_size in Hsub. rewrite size_list_to_set, size_dom in Hsub by done.
  unfold l in Hsub. rewrite length_fmap, length_seq in Hsub. lia.
Qed.

Section typed_gate.
Context `{AdmissionTraits} (total reserve : Z).
Context (Htotal : 0 <= total <= u64_max) (Hreserve : 0 <= reserve).

Abbreviation pool_gate := (gate_of total reserve).
Abbreviation pool_fine := (pool_ok total reserve).
Definition waiting (p : Pool) : list Z := p_normal p ++ p_critical p.

(** The indexes describe exactly what the lanes queue. *)
Record typed_rel (g : TypedAdmissionGate) (p : Pool) : Prop := mkTypedRel {
  tr_lanes : lanes g = pool_gate p;
  tr_pool : pool_fine p;
  tr_slots : forall slot, is_Some (by_slot g !! slot) <-> slot ∈ waiting p;
  tr_index : forall d slot, slot_by_digest g !! d = Some slot <-> exists m, by_slot g !! slot = Some m /\ m_digest m = d;
  tr_pending : forall slot, is_Some (pending_reservations g !! slot) -> is_Some (by_slot g !! slot);
  tr_next : 1 <= next_slot g <= u64_max;
}.
Definition typed_ok (g : TypedAdmissionGate) : Prop := exists p, typed_rel g p.

Lemma typed_new_ok max_body : typed_ok (typed_new total reserve max_body).
Proof.
  exists empty_pool. split; cbn [typed_new lanes by_slot slot_by_digest pending_reservations next_slot].
  - by apply gate_of_new.
  - by apply empty_pool_ok.
  - intros slot. rewrite lookup_empty. unfold waiting. cbn. split; [by intros []|by intros ?%not_elem_of_nil].
  - intros d slot. rewrite !lookup_empty. split; [done|by intros (m & ? & _)].
  - intros slot. rewrite lookup_empty. by intros [].
  - unfold u64_max. lia.
Qed.

Lemma slots_size g p : typed_rel g p -> Z.of_nat (size (by_slot g)) = zlen (p_normal p) + zlen (p_critical p).
Proof.
  intros [_ Hp Hs _ _ _]. assert (E : dom (by_slot g) = list_to_set (waiting p)).
  { apply set_eq. intros x. rewrite elem_of_dom, elem_of_list_to_set. apply Hs. }
  rewrite <- size_dom, E, size_list_to_set by apply Hp. unfold waiting, zlen. rewrite length_app. lia.
Qed.

Lemma admissible_pool class g p : typed_rel g p -> typed_admissible class g = may_enter total reserve class p.
Proof.
  intros [Hl Hp _ _ _ _]. unfold typed_admissible. rewrite Hl, <- (guard_pool total reserve) by done. by destruct class.
Qed.

(** With room in the lanes, a slot is found and the lanes accept it. *)
Lemma allocate_pool class g p :
  typed_rel g p -> typed_admissible class g = true ->
  exists slot g', allocate_slot g = (inr slot, g') /\ typed_rel g' p /\ (slot ∉ waiting p) /\ 1 <= slot <= u64_max /\
    max_body_bytes g' = max_body_bytes g /\ by_slot g' = by_slot g /\ slot_by_digest g' = slot_by_digest g /\
    pending_reservations g' = pending_reservations g.
Proof.
  intros Hg Ha. rewrite (admissible_pool _ _ _ Hg) in Ha. pose proof (slots_size _ _ Hg) as Hsz.
  unfold may_enter in Ha. apply andb_true_iff in Ha as [Ha _]. bprop.
  destruct Hg as [Hl Hp Hs Hi Hpe Hn]. unfold allocate_slot.
  set (fuel := Z.to_nat _). assert (Hfuel : (size (by_slot g) < fuel)%nat) by (subst fuel; unfold saturating_add; lia).
  destruct (find_slot_succeeds fuel (next_slot g) (by_slot g) Hn Hfuel ltac:(lia)) as [c Hc].
  destruct (find_slot_spec fuel (next_slot g) (by_slot g) Hn) as [Hnext Hspec]. rewrite Hc in Hspec.
  destruct (find_slot fuel (next_slot g) (by_slot g)) as [o next]. cbn [fst snd] in *. subst o. destruct Hspec as [Hr Hfree].
  eexists c, _. split; [done|]. split; [by split|]. split; [|done]. rewrite <- Hs, Hfree. by intros [].
Qed.

Lemma enqueue_pool class g p slot m lease :
  typed_rel g p -> typed_admissible class g = true -> slot ∉ waiting p -> slot_by_digest g !! m_digest m = None ->
  exists g', enqueue g slot class m lease = (Accepted, g') /\ typed_rel g' (enter total reserve slot class p) /\
    max_body_bytes g' = max_body_bytes g /\ by_slot g' = <[slot := m]> (by_slot g) /\
    pending_reservations g' = match lease with Some l => <[slot := l]> (pending_reservations g) | None => pending_reservations g end.
Proof.
  intros Hg Ha Hfree Hd. rewrite (admissible_pool _ _ _ Hg) in Ha. destruct Hg as [Hl Hp Hs Hi Hpe Hn].
  assert (Hq : queued slot p = false) by by apply bool_decide_eq_false.
  unfold enqueue. rewrite Hl, (lanes_admit_pool total reserve) by done. unfold pool_admit. rewrite Hq, Ha. cbn [fst snd].
  assert (Hnone : by_slot g !! slot = None) by (apply eq_None_not_Some; by rewrite Hs).
  eexists. split; [done|]. split; [|done]. split; cbn [lanes by_slot slot_by_digest pending_reservations next_slot].
  - done.
  - by apply enter_ok.
  - intros x. rewrite lookup_insert_is_Some', Hs. unfold waiting, enter. cbn [p_normal p_critical].
    destruct (match class with Normal => _ | Critical => _ end); set_solver.
  - intros d x. destruct (decide (d = m_digest m)) as [->|Hne].
    + rewrite lookup_insert_eq. split.
      * intros [= <-]. exists m. by rewrite lookup_insert_eq.
      * intros (m' & Hm' & Hd'). destruct (decide (slot = x)) as [->|Hx]; [done|]. rewrite lookup_insert_ne in Hm' by done.
        exfalso. assert (slot_by_digest g !! m_digest m = Some x) by (apply Hi; by exists m'). congruence.
    + rewrite lookup_insert_ne by done. rewrite Hi. split; intros (m' & Hm' & Hd'); exists m'; (split; [|done]).
      * rewrite lookup_insert_ne; [done|]. intros ->. congruence.
      * destruct (decide (slot = x)) as [->|Hx]; [rewrite lookup_insert_eq in Hm'; congruence|by rewrite lookup_insert_ne in Hm'].
  - intros x. rewrite lookup_insert_is_Some'. destruct lease as [l|]; [rewrite lookup_insert_is_Some'|]; naive_solver.
  - done.
Qed.

Lemma pop_parts_pool g p s :
  typed_rel g p ->
  exists p', snd (pool_pop total reserve p) = p' /\ typed_rel (snd (fst (pop_ready_parts g s))) p' /\ snd (pop_ready_parts g s) = s /\
  match fst (pool_pop total reserve p) with
  | None => fst (fst (pop_ready_parts g s)) = None /\ pending_reservations (snd (fst (pop_ready_parts g s))) = pending_reservations g
  | Some slot => exists m, by_slot g !! slot = Some m /\
      fst (fst (pop_ready_parts g s)) = Some (m, pending_reservations g !! slot) /\
      pending_reservations (snd (fst (pop_ready_parts g s))) = delete slot (pending_reservations g)
  end.
Proof.
  intros [Hl Hp Hs Hi Hpe Hn]. eexists. split; [done|].
  pose proof (pool_pop_ok total reserve Htotal Hreserve p Hp) as Hok.
  pose proof (pool_pop_waiting total reserve p) as Hw.
  unfold pop_ready_parts. rewrite Hl, (lanes_pop_pool total reserve) by done.
  destruct (pool_pop total reserve p) as [[slot|] p']; cbn [fst snd] in *.
  - assert (Hslot : is_Some (by_slot g !! slot)) by (apply Hs; unfold waiting; rewrite Hw; set_solver).
    destruct Hslot as [m Hm]. rewrite Hm. cbn [fst snd]. split; [|split; [done|by exists m]].
    assert (Hnd : slot ∉ waiting p').
    { assert (Hd := po_distinct _ _ _ Hp). rewrite Hw in Hd. by apply NoDup_cons in Hd as [? _]. }
    split; cbn [lanes by_slot slot_by_digest pending_reservations next_slot]; [done|done| | | |done].
    + intros x. rewrite lookup_delete_is_Some, Hs. unfold waiting at 1. rewrite Hw. set_solver.
    + intros d x. rewrite !lookup_delete_Some, Hi. split.
      * intros [Hne (m' & Hm' & Hd)]. exists m'. split; [|done]. rewrite lookup_delete_ne; [done|]. intros ->. congruence.
      * intros (m' & Hm' & Hd). apply lookup_delete_Some in Hm' as [Hx Hm']. split; [|by exists m'].
        intros E. apply Hx. assert (E1 : slot_by_digest g !! m_digest m = Some slot) by (apply Hi; by exists m).
        assert (E2 : slot_by_digest g !! m_digest m = Some x) by (apply Hi; exists m'; by rewrite E). congruence.
    + intros x. rewrite !lookup_delete_is_Some. naive_solver.
  - subst p'. split; [|done]. by split.
Qed.

(** ** Reading the view changes nothing but the view *)

Definition silent {A} (m : RIO A) : Prop := forall s, calls (snd (m s)) = calls s /\ minted (snd (m s)) = minted s.

Lemma silent_ask {A} (f : World -> A * World) s : calls (snd (ask f s)) = calls s /\ minted (snd (ask f s)) = minted s.
Proof. unfold ask. by destruct (f (world s)). Qed.
Lemma silent_ask_r {A} (f : World -> Res A * World) : silent (ask_r f).
Proof. intros s. apply silent_ask. Qed.
Lemma silent_ask_v {A} (f : World -> A * World) : silent (ask_v f).
Proof. intros s. unfold ask_v. pose proof (silent_ask f s). by destruct (ask f s). Qed.
Lemma silent_pure {A} (r : Res A) : silent (pure r).
Proof. done. Qed.
Lemma silent_ret {A} (a : A) : silent (RIO_ret A a).
Proof. done. Qed.
Lemma silent_bind {A B} (f : A -> RIO B) (m : RIO A) : silent m -> (forall a, silent (f a)) -> silent (RIO_bind A B f m).
Proof.
  intros Hm Hf s. unfold RIO_bind. destruct (Hm s) as [Hc Hn]. destruct (m s) as [[e|a] s']; cbn [snd] in *; [done|].
  destruct (Hf a s') as [Hc' Hn']. by rewrite Hc', Hn'.
Qed.

End typed_gate.
