(* ===== verification/TypedLeases.v ===== *)
(** * TypedLeases: every pending-nonce reservation is settled once

    The protocol of one reservation token as an automaton over its calls, and the
    proof that the calls of every run of the gate and of the owner of its ready
    items follow it. *)

From stdpp Require Import base gmap list sorting strings.
From S2P Require Import Prelude Lanes LanesTheorems TypedAdmission TypedTheorems.

(** ** The token protocol *)

(** One call moves one token; a call out of order is a violation. *)
Definition token_step (m : gmap nat PendingNonceReservationState) (c : TokenCall) : option (gmap nat PendingNonceReservationState) :=
  match c with
  | Reserve n => match m !! n with None => Some (<[n := Reserved]> m) | _ => None end
  | Handoff n ok => match m !! n with Some Reserved => Some (if ok : bool then <[n := HandedOff]> m else m) | _ => None end
  | Commit n ok => match m !! n with Some HandedOff => Some (if ok : bool then <[n := Committed]> m else m) | _ => None end
  | Release n _ => match m !! n with Some Reserved | Some HandedOff => Some (<[n := Released]> m) | _ => None end
  end.

Fixpoint replay_from (m : gmap nat PendingNonceReservationState) (cs : list TokenCall) : option (gmap nat PendingNonceReservationState) :=
  match cs with
  | [] => Some m
  | c :: cs => m ← token_step m c; replay_from m cs
  end.
Definition replay (cs : list TokenCall) : option (gmap nat PendingNonceReservationState) := replay_from ∅ cs.

Lemma replay_snoc cs c : replay (cs ++ [c]) = m ← replay cs; token_step m c.
Proof.
  unfold replay. generalize (∅ : gmap nat PendingNonceReservationState) as m.
  induction cs as [|c' cs IH]; intros m; cbn [app replay_from].
  - cbn [mbind option_bind]. by destruct (token_step m c).
  - unfold mbind, option_bind. destruct (token_step m c'); [|done]. apply IH.
Qed.

Section leases.
Context `{AdmissionTraits}.

(** The open tokens are exactly [L]. *)
Definition env_inv (s : Env) (L : list (nat * PendingNonceReservationState)) : Prop :=
  exists m, replay (calls s) = Some m /\ (forall n, is_Some (m !! n) <-> (n < minted s)%nat) /\ NoDup L.*1 /\
    forall n st, (n, st) ∈ L <-> m !! n = Some st /\ is_open st = true.

Lemma env_inv_perm s L L' : L ≡ₚ L' -> env_inv s L -> env_inv s L'.
Proof.
  intros Hp (m & Hr & Hm & Hnd & HL). exists m. split_and!; [done|done|by rewrite <- Hp|]. intros n st. by rewrite <- HL, Hp.
Qed.

Lemma env_inv_silent s s' L : calls s' = calls s -> minted s' = minted s -> env_inv s L -> env_inv s' L.
Proof. unfold env_inv. by intros -> ->. Qed.

Definition live_at (n : nat) (st : PendingNonceReservationState) : list (nat * PendingNonceReservationState) :=
  if is_open st then [(n, st)] else [].

Lemma elem_live_at k x n st : (k, x) ∈ live_at n st <-> k = n /\ x = st /\ is_open st = true.
Proof.
  unfold live_at. destruct (is_open st); [rewrite list_elem_of_singleton|rewrite elem_of_nil]; split; [by intros [= -> ->]| |done|].
  - by intros (-> & -> & _).
  - by intros (_ & _ & ?).
Qed.

(** A legal call on an open token moves it and no other. *)
Lemma env_call s w n st st' c L :
  is_open st = true -> (forall m, m !! n = Some st -> token_step m c = Some (if decide (st = st') then m else <[n := st']> m)) ->
  env_inv s ((n, st) :: L) -> env_inv (mkEnv w (minted s) (calls s ++ [c])) (live_at n st' ++ L).
Proof.
  intros Hopen Hstep (m & Hr & Hm & Hnd & HL). apply NoDup_cons in Hnd as [Hn Hnd].
  assert (Hmn : m !! n = Some st) by (apply (HL n st); left).
  assert (HL' : forall k x, (k, x) ∈ L <-> k <> n /\ m !! k = Some x /\ is_open x = true).
  { intros k x. split.
    - intros Hk. split; [|apply HL; by right]. intros ->. apply Hn, list_elem_of_fmap. by exists (n, x).
    - intros (Hne & Hk). apply HL in Hk. apply elem_of_cons in Hk as [Hk|Hk]; [congruence|done]. }
  exists (if decide (st = st') then m else <[n := st']> m). split_and!.
  - cbn [calls]. rewrite replay_snoc, Hr. by apply Hstep.
  - intros k. cbn [minted]. rewrite <- Hm. destruct (decide (st = st')); [done|]. rewrite lookup_insert_is_Some'.
    split; [intros [<-|?]; [by rewrite Hmn|done]|by right].
  - unfold live_at. destruct (is_open st'); [|done]. cbn. by constructor.
  - assert (Hat : (if decide (st = st') then m else <[n := st']> m) !! n = Some st')
      by (destruct (decide (st = st')) as [<-|]; [done|by rewrite lookup_insert_eq]).
    assert (Hoff : forall k, k <> n -> (if decide (st = st') then m else <[n := st']> m) !! k = m !! k)
      by (intros k Hk; destruct (decide (st = st')); [done|by rewrite lookup_insert_ne]).
    intros k x. rewrite elem_of_app, elem_live_at, HL'. destruct (decide (k = n)) as [->|Hk].
    + rewrite Hat. split; [by intros [(_ & -> & ?)|[]]|]. intros [[= ->] Ho]. by left.
    + rewrite Hoff by done. split; [by intros [[]|[_ ?]]|]. intros Hx. by right.
Qed.

(** ** Leases *)

Definition lease_ok (l : PendingNonceLease) : Prop := is_open (lease_state l) = true <-> is_Some (reservation l).
Definition live_of (l : PendingNonceLease) : list (nat * PendingNonceReservationState) :=
  match reservation l with Some r => live_at (r_serial r) (lease_state l) | None => [] end.

(** What an operation on a lease guarantees. *)
Definition lease_op_ok (op : PendingNonceLease -> IO (Res () * PendingNonceLease)) : Prop :=
  forall l s L, lease_ok l -> env_inv s (live_of l ++ L) ->
    lease_ok (snd (fst (op l s))) /\ env_inv (snd (op l s)) (live_of (snd (fst (op l s))) ++ L).

Lemma live_open r st : is_open st = true -> live_of (mkLease (Some r) st) = [(r_serial r, st)].
Proof. intros Ho. unfold live_of, live_at. cbn. by rewrite Ho. Qed.

Lemma handoff_ok : lease_op_ok lease_handoff.
Proof.
  intros l s L Hl Hs. unfold lease_handoff. case_bool_decide as E; cbn [negb]; [|done].
  destruct l as [[r|] st]; cbn [lease_state reservation] in *; [|done]. subst st. rewrite live_open in Hs by done.
  unfold on_token. destruct (token_handoff (r_token r) (world s)) as [[e|[]] w]; cbn [fst snd].
  - split; [done|]. rewrite live_open by done. apply (env_call _ _ _ Reserved Reserved (Handoff (r_serial r) false) _ eq_refl); [|done].
    intros m Hm. cbn. by rewrite Hm.
  - split; [done|]. rewrite live_open by done. apply (env_call _ _ _ Reserved HandedOff (Handoff (r_serial r) true) _ eq_refl); [|done].
    intros m Hm. cbn. by rewrite Hm.
Qed.

Lemma commit_ok : lease_op_ok lease_commit.
Proof.
  intros l s L Hl Hs. unfold lease_commit. case_bool_decide as E; cbn [negb]; [|done].
  destruct l as [[r|] st]; cbn [lease_state reservation] in *; [|done]. subst st. rewrite live_open in Hs by done.
  unfold on_token. destruct (token_commit (r_token r) (world s)) as [[e|[]] w]; cbn [fst snd].
  - split; [done|]. rewrite live_open by done. apply (env_call _ _ _ HandedOff HandedOff (Commit (r_serial r) false) _ eq_refl); [|done].
    intros m Hm. cbn. by rewrite Hm.
  - split; [by split; [done|intros []]|]. cbn [live_of reservation app].
    apply (env_call s w (r_serial r) HandedOff Committed (Commit (r_serial r) true) L eq_refl); [|done]. intros m Hm. cbn. by rewrite Hm.
Qed.

Lemma released_ok : lease_ok (mkLease None Released).
Proof. by split; [done|intros []]. Qed.

Lemma release_ok : lease_op_ok lease_release.
Proof.
  intros l s L Hl Hs. unfold lease_release. destruct (is_open (lease_state l)) eqn:Eo; cbn [negb]; [|done].
  destruct l as [[r|] st]; cbn [lease_state reservation] in *; [|by destruct (proj1 Hl Eo)].
  rewrite live_open in Hs by done. unfold on_token. destruct (token_release (r_token r) (world s)) as [res w]; cbn [fst snd].
  split; [apply released_ok|]. cbn [live_of reservation app].
  apply (env_call s w (r_serial r) st Released (Release (r_serial r) (is_ok res)) L Eo); [|done].
  intros m Hm. cbn. rewrite Hm. by destruct st.
Qed.

Lemma cancel_ok : lease_op_ok lease_cancel.
Proof. intros l s L Hl Hs. unfold lease_cancel. case_bool_decide; cbn [negb]; [|done]. by apply release_ok. Qed.

Lemma release_closes l s : lease_ok l -> live_of (snd (fst (lease_release l s))) = [].
Proof.
  intros Hl. unfold lease_release. destruct (is_open (lease_state l)) eqn:Eo; cbn [negb].
  - destruct (reservation l); [|done]. unfold on_token. by destruct (token_release _ _).
  - unfold live_of, live_at. cbn [fst snd]. rewrite Eo. by destruct (reservation l).
Qed.

Lemma drop_ok l s L : lease_ok l -> env_inv s (live_of l ++ L) -> env_inv (snd (drop_lease l s)) L.
Proof.
  intros Hl Hs. unfold drop_lease. destruct (is_open (lease_state l)) eqn:Eo.
  - destruct (release_ok l s L Hl Hs) as [_ Hr]. rewrite release_closes in Hr by done. by destruct (lease_release l s) as [[? ?] ?].
  - unfold live_of, live_at in Hs. rewrite Eo in Hs. by destruct (reservation l).
Qed.

Definition live_opt (l : option PendingNonceLease) : list (nat * PendingNonceReservationState) :=
  match l with Some l => live_of l | None => [] end.
Definition opt_ok (l : option PendingNonceLease) : Prop := match l with Some l => lease_ok l | None => True end.

Lemma drop_opt_ok l s L : opt_ok l -> env_inv s (live_opt l ++ L) -> env_inv (snd (drop_lease_opt l s)) L.
Proof. destruct l as [l|]; [apply drop_ok|done]. Qed.

Lemma release_and_drop_ok l s L : lease_ok l -> env_inv s (live_of l ++ L) -> env_inv (release_and_drop l s) L.
Proof.
  intros Hl Hs. destruct (release_ok l s L Hl Hs) as [Hl' Hs']. unfold release_and_drop.
  pose proof (drop_ok (snd (fst (lease_release l s))) (snd (lease_release l s)) L Hl' Hs') as Hd.
  by destruct (lease_release l s) as [[? ?] ?].
Qed.

Lemma reserve_ok e md s L :
  env_inv s L ->
  match fst (reserve e md s) with
  | inr l => lease_ok l /\ env_inv (snd (reserve e md s)) (live_of l ++ L)
  | inl _ => env_inv (snd (reserve e md s)) L
  end.
Proof.
  intros (m & Hr & Hm & Hnd & HL). unfold reserve. destruct (reserve_pending_nonce e md (world s)) as [[r|t] w]; cbn [fst snd].
  { by exists m. }
  assert (Hfresh : m !! minted s = None) by (apply eq_None_not_Some; rewrite Hm; lia).
  split; [done|]. exists (<[minted s := Reserved]> m). cbn [calls minted]. split_and!.
  - rewrite replay_snoc, Hr. cbn. by rewrite Hfresh.
  - intros n. rewrite lookup_insert_is_Some', Hm. lia.
  - cbn. constructor; [|done]. intros Hin. apply list_elem_of_fmap in Hin as ([n st] & En & Hin).
    cbn in En. subst n. apply HL in Hin as [Hin _]. congruence.
  - intros n st. change (live_of _ ++ L) with ((minted s, Reserved) :: L). rewrite elem_of_cons, HL. destruct (decide (n = minted s)) as [->|Hne].
    + rewrite lookup_insert_eq, Hfresh. naive_solver.
    + rewrite lookup_insert_ne by done. naive_solver.
Qed.

End leases.
