(* ===== verification/TypedRuns.v ===== *)
(** * TypedRuns: the typed gate with the owner of its ready items

    Both admission paths in terms of the pool, the runs of a gate together with
    the owner that pops, hands off, commits and drops its items, and the theorems
    about them. *)

From stdpp Require Import base gmap list sorting strings.
From S2P Require Import Prelude Lanes LanesTheorems TypedAdmission TypedTheorems TypedLeases.

Section typed_runs.
Context `{AdmissionTraits} (total reserve : Z).
Context (Htotal : 0 <= total <= u64_max) (Hreserve : 0 <= reserve).

Abbreviation typed_rel := (typed_rel total reserve).
Abbreviation typed_ok := (typed_ok total reserve).

(** ** The admission paths *)

(** What an admitted record satisfies. *)
Record metadata_ok (g : TypedAdmissionGate) (m : SignedEnvelopeMetadata) : Prop := mkMetadataOk {
  mo_digest : m_digest m <> replicate 32 0;
  mo_body : 1 <= zlen (m_body m) <= max_body_bytes g /\ zlen (m_body m) <= u64_max;
  mo_nonce : m_nonce m <> 0;
  mo_gas : max_gas (m_resource_limits m) <> 0;
  mo_bytes : zlen (m_body m) <= max_bytes (m_resource_limits m);
}.

(** One call of a trait method, with its answer. *)
Definition answers {A} (f : World -> A * World) (a : A) (w w' : World) : Prop := f w = (a, w').

(** Everything that is asked of an envelope, in order; the answers are the record. *)
Definition reads (e : Envelope) (m : SignedEnvelopeMetadata) : list (World -> World -> Prop) :=
  [answers (validate_canonical e) (inr tt); answers (canonical_digest e) (m_digest m);
   answers (canonical_signer_id e) (inr (m_signer_id m)); answers (canonical_body e) (m_body m);
   answers (view_nonce e) (m_nonce m); answers (view_resource_limits e) (m_resource_limits m);
   answers (view_fee_limit e) (m_fee_limit m)].
Definition probes (e : Envelope) (m : SignedEnvelopeMetadata) : list (World -> World -> Prop) :=
  answers (canonical_digest e) (m_digest m) :: reads e m.

(** The checks of a record that both paths make after reading it. *)
Definition checks (e : Envelope) (m : SignedEnvelopeMetadata) : list (World -> World -> Prop) :=
  [answers (verify_signature e m) (inr tt); answers (check_replay m) (inr tt); answers (recheck m) (inr tt)].
Definition pending_checks (e : Envelope) (m : SignedEnvelopeMetadata) (token : Token) : list (World -> World -> Prop) :=
  [answers (verify_signature e m) (inr tt); answers (reserve_pending_nonce e m) (inr token); answers (recheck m) (inr tt)].

(** A record the gate has room for and does not hold. *)
Definition fresh (g : TypedAdmissionGate) (class : IngressClass) (m : SignedEnvelopeMetadata) : Prop :=
  contains_digest g (m_digest m) = false /\ typed_admissible class g = true /\ metadata_ok g m.

(** The environment [s] with the implementations in state [w]. *)
Definition at_world (s : Env) (w : World) : Env := mkEnv w (minted s) (calls s).

Lemma ask_answers {A} (f : World -> A * World) s a w : answers f a (world s) w <-> ask f s = (a, at_world s w).
Proof. unfold answers, ask, at_world. destruct (f (world s)). naive_solver. Qed.

Lemma ask_inv {A} (f : World -> A * World) s a s' : ask f s = (a, s') -> exists w, answers f a (world s) w /\ s' = at_world s w.
Proof. unfold answers, ask, at_world. destruct (f (world s)) as [a' w]. intros [= <- <-]. by exists w. Qed.

Lemma RIO_bind_inr {A B} (f : A -> RIO B) (m : RIO A) s b s' :
  RIO_bind A B f m s = (inr b, s') -> exists a s1, m s = (inr a, s1) /\ f a s1 = (inr b, s').
Proof. unfold RIO_bind. destruct (m s) as [[e|a] s1]; [done|]. intros E. by exists a, s1. Qed.

Lemma pure_inr {A} (r : Res A) s a s' : pure r s = (inr a, s') -> r = inr a /\ s' = s.
Proof. by intros [= -> ->]. Qed.

Lemma ask_v_inv {A} (f : World -> A * World) s a s' : ask_v f s = (inr a, s') -> exists w, answers f a (world s) w /\ s' = at_world s w.
Proof. unfold ask_v. destruct (ask f s) as [a' s1] eqn:E. intros [= <- <-]. by apply ask_inv. Qed.

(** Evaluate the next call by the answer it is known to give. *)
Ltac rewrite_answer :=
  match goal with Ha : answers ?f ?a _ ?w |- context [ask ?f ?s] => rewrite (proj1 (ask_answers f s a w) Ha) end.

Lemma deny_inr b e u : deny b e = inr u -> b = false.
Proof. by destruct b. Qed.

Lemma Res_bind_inr {A B} (f : A -> Res B) (r : Res A) b : Res_bind A B f r = inr b -> exists a, r = inr a /\ f a = inr b.
Proof. destruct r as [e|a]; [done|]. intros E. by exists a. Qed.

Lemma or_reject_inr {A} (o : option A) e a : or_reject o e = inr a -> o = Some a.
Proof. destruct o; [by intros [= ->]|done]. Qed.

Lemma check_body_inr g body n : check_body g body = inr n <-> n = zlen body /\ 1 <= zlen body <= max_body_bytes g /\ zlen body <= u64_max.
Proof.
  unfold check_body. split.
  - intros ([] & E1%deny_inr & (k & E2%or_reject_inr & ([] & E3%deny_inr & E4)%Res_bind_inr)%Res_bind_inr)%Res_bind_inr.
    injection E4 as ->. apply try_from_Some in E2 as [-> ?]. split; [done|]. destruct body; [done|].
    apply Z.ltb_ge in E3. unfold zlen in *. cbn [length] in *. lia.
  - intros (-> & Hn & Hm). assert (is_empty body = false) as -> by (destruct body; [unfold zlen in Hn; cbn [length] in Hn; lia|done]).
    assert (try_from u64_max (zlen body) = Some (zlen body)) as -> by (unfold try_from; by rewrite (proj2 (Z.leb_le _ _) Hm)).
    cbn [deny or_reject mbind Res_bind]. by rewrite (proj2 (Z.ltb_ge _ _)) by lia.
Qed.

Lemma limits_inr l n max u : 1 <= n <= max -> limits_validate l n max = inr u <-> max_gas l <> 0 /\ n <= max_bytes l.
Proof.
  intros Hn. unfold limits_validate. split.
  - intros ([] & E1%deny_inr & E2%deny_inr)%Res_bind_inr. bprop. lia.
  - intros [Hg Hb]. rewrite !(proj2 (Z.eqb_neq _ _)) by lia. cbn. rewrite !(proj2 (Z.ltb_ge _ _)) by lia. by destruct u.
Qed.

Lemma digest_from_bytes_inr b d : digest_from_bytes b = inr d <-> d = b /\ b <> replicate 32 0.
Proof. unfold digest_from_bytes. case_bool_decide; naive_solver. Qed.

(** The gate reads a record exactly when the calls answer it and its bounds hold. *)
Lemma metadata_from_reads g e d s m s' : metadata_from g e d s = (inr m, s') <->
  m_digest m = d /\ metadata_ok g m /\ exists w, along (reads e m) (world s) w /\ s' = at_world s w.
Proof.
  unfold metadata_from. split.
  - intros ([] & s1 & (w1 & A1 & ->)%ask_inv & E)%RIO_bind_inr.
    apply RIO_bind_inr in E as (dg & s2 & (w2 & A2 & ->)%ask_v_inv & E).
    apply RIO_bind_inr in E as ([] & s3 & [E1%deny_inr ->]%pure_inr & E). apply negb_false_iff, bool_decide_eq_true in E1.
    apply RIO_bind_inr in E as (dg' & s4 & [[-> Hz]%digest_from_bytes_inr ->]%pure_inr & E).
    apply RIO_bind_inr in E as (signer & s5 & (w3 & A3 & ->)%ask_inv & E). apply RIO_bind_inr in E as (body & s6 & (w4 & A4 & ->)%ask_v_inv & E).
    apply RIO_bind_inr in E as (n & s7 & [(-> & Hn & Hu)%check_body_inr ->]%pure_inr & E).
    apply RIO_bind_inr in E as (nonce & s8 & (w5 & A5 & ->)%ask_v_inv & E).
    apply RIO_bind_inr in E as ([] & s9 & [Hnonce%deny_inr ->]%pure_inr & E). apply Z.eqb_neq in Hnonce.
    apply RIO_bind_inr in E as (limits & s10 & (w6 & A6 & ->)%ask_v_inv & E).
    apply RIO_bind_inr in E as ([] & s11 & [Hl ->]%pure_inr & E). apply limits_inr in Hl as [Hgas Hbytes]; [|done].
    apply RIO_bind_inr in E as (fee & s12 & (w7 & A7 & ->)%ask_v_inv & [= <- <-]). subst dg. cbn. split_and!; [done|by split|].
    exists w7. split; [|done]. by exists w1; split; [|exists w2; split; [|exists w3; split; [|exists w4; split; [|exists w5; split; [|exists w6; split; [|exists w7]]]]]].
  - intros (<- & [Hz [Hn Hu] Hnonce Hgas Hbytes] & w & (w1 & A1 & w2 & A2 & w3 & A3 & w4 & A4 & w5 & A5 & w6 & A6 & w7 & A7 & ->) & ->).
    unfold mbind, RIO_bind, ask_r, ask_v, pure. do 2 rewrite_answer.
    rewrite bool_decide_eq_true_2 by done. cbn [negb deny]. rewrite (proj2 (digest_from_bytes_inr _ (m_digest m))) by done.
    do 2 rewrite_answer. rewrite (proj2 (check_body_inr g _ _)) by done. rewrite_answer.
    rewrite (proj2 (Z.eqb_neq _ _)) by done. cbn [deny]. rewrite_answer. rewrite (proj2 (limits_inr _ _ _ tt Hn)) by done. rewrite_answer.
    by destruct m.
Qed.

Ltac hushed := first [apply silent_ask_r | apply silent_ask_v | apply silent_pure | apply silent_ret].
Ltac silence := repeat (apply silent_bind; [hushed|intros ?]); hushed.

Lemma metadata_from_silent g e d : silent (metadata_from g e d).
Proof. unfold metadata_from. silence. Qed.

Lemma validate_duplicate_silent g e d slot : silent (validate_duplicate g e d slot).
Proof.
  unfold validate_duplicate, same_claims. do 13 (apply silent_bind; [hushed|intros ?]).
  destruct (_ || _); silence.
Qed.

(** A confirmed duplicate answers every read as the queued record does. *)
Lemma duplicate_reads g e d slot s s' : validate_duplicate g e d slot s = (inr tt, s') ->
  exists m w, by_slot g !! slot = Some m /\ m_digest m = d /\ along (reads e m) (world s) w /\ s' = at_world s w.
Proof.
  unfold validate_duplicate. intros ([] & s1 & (w1 & A1 & ->)%ask_inv & E)%RIO_bind_inr.
  apply RIO_bind_inr in E as (dg & s2 & (w2 & A2 & ->)%ask_v_inv & E).
  apply RIO_bind_inr in E as ([] & s3 & [E1%deny_inr ->]%pure_inr & E).
  apply RIO_bind_inr in E as (dg' & s4 & [_ ->]%pure_inr & E).
  apply RIO_bind_inr in E as (signer & s5 & (w3 & A3 & ->)%ask_inv & E).
  apply RIO_bind_inr in E as (queued & s6 & [Hq%or_reject_inr ->]%pure_inr & E).
  apply RIO_bind_inr in E as ([] & s7 & [E2%deny_inr ->]%pure_inr & E).
  apply RIO_bind_inr in E as (body & s8 & (w4 & A4 & ->)%ask_v_inv & E). apply RIO_bind_inr in E as (n & s9 & [_ ->]%pure_inr & E).
  apply RIO_bind_inr in E as (nonce & s10 & (w5 & A5 & ->)%ask_v_inv & E). apply RIO_bind_inr in E as ([] & s11 & [_ ->]%pure_inr & E).
  apply RIO_bind_inr in E as (limits & s12 & (w6 & A6 & ->)%ask_v_inv & E). apply RIO_bind_inr in E as ([] & s13 & [_ ->]%pure_inr & E).
  unfold same_claims in E. destruct ((m_body queued <>? body) || negb (m_nonce queued =? nonce)) eqn:E3; [done|].
  apply RIO_bind_inr in E as (fee & s14 & (w7 & A7 & ->)%ask_v_inv & [E4%deny_inr ->]%pure_inr).
  bprop. subst. exists queued, w7. split_and!; [done|done| |done].
  by exists w1; split; [|exists w2; split; [|exists w3; split; [|exists w4; split; [|exists w5; split; [|exists w6; split; [|exists w7]]]]]].
Qed.

(** ** Answers *)

(** Nothing queued, indexed or leased changed. *)
Definition same_queue (g g' : TypedAdmissionGate) : Prop :=
  lanes g' = lanes g /\ by_slot g' = by_slot g /\ slot_by_digest g' = slot_by_digest g /\
  pending_reservations g' = pending_reservations g.

(** What an answer says about the gate and the calls that were made.  [accepts] relates
    an accepted record and its slot to what the path checked and reserved. *)
Definition answered (accepts : SignedEnvelopeMetadata -> Z -> TypedAdmissionGate -> Env -> Prop)
    (g : TypedAdmissionGate) (e : Envelope) (class : IngressClass) (s : Env) (r : TypedAdmitOutcome * TypedAdmissionGate * Env) : Prop :=
  let '(out, g', s') := r in
  match out with
  | TBackpressured => g' = g /\ typed_admissible class g = false /\
      exists d w, contains_digest g d = false /\ answers (canonical_digest e) d (world s) w /\ s' = at_world s w
  | TDuplicate => g' = g /\ exists slot m w, slot_by_digest g !! m_digest m = Some slot /\ by_slot g !! slot = Some m /\
      along (probes e m) (world s) w /\ s' = at_world s w
  | Rejected _ => same_queue g g'
  | TAccepted => exists slot m, by_slot g !! slot = None /\ by_slot g' = <[slot := m]> (by_slot g) /\
      fresh g class m /\ accepts m slot g' s'
  end.

(** The two paths: every call answered, in order, and a reservation only on the second. *)
Definition accepts_signed (g : TypedAdmissionGate) (e : Envelope) (s : Env) (m : SignedEnvelopeMetadata) (slot : Z)
    (g' : TypedAdmissionGate) (s' : Env) : Prop :=
  pending_reservations g' = pending_reservations g /\
  exists w, along (probes e m ++ checks e m) (world s) w /\ s' = at_world s w.
Definition accepts_pending (g : TypedAdmissionGate) (e : Envelope) (s : Env) (m : SignedEnvelopeMetadata) (slot : Z)
    (g' : TypedAdmissionGate) (s' : Env) : Prop :=
  exists token w, along (probes e m ++ pending_checks e m token) (world s) w /\
    pending_reservations g' = <[slot := lease_new (mkReservation (minted s) token)]> (pending_reservations g) /\
    s' = mkEnv w (S (minted s)) (calls s ++ [Reserve (minted s)]).

Lemma contains_digest_none g d : contains_digest g d = false <-> slot_by_digest g !! d = None.
Proof. unfold contains_digest. rewrite bool_decide_eq_false. split; [apply eq_None_not_Some|by intros -> []]. Qed.

(** The probe is an answer, or the digest of a record that the gate has room for. *)
Lemma probe_cases g e class s :
  let '(r, s') := probe_digest g e class s in
  match r with
  | inl TAccepted => False
  | inl out => forall accepts, answered accepts g e class s (out, g, s') /\ calls s' = calls s /\ minted s' = minted s
  | inr d => contains_digest g d = false /\ typed_admissible class g = true /\
      exists w, answers (canonical_digest e) d (world s) w /\ s' = at_world s w
  end.
Proof.
  unfold probe_digest. destruct (ask (canonical_digest e) s) as [d s1] eqn:E. apply ask_inv in E as (w & A & ->).
  destruct (slot_by_digest g !! d) as [slot|] eqn:Ed.
  - destruct (validate_duplicate_silent g e d slot (at_world s w)) as [Hc Hm].
    destruct (validate_duplicate g e d slot (at_world s w)) as [[r|[]] s2] eqn:Ev; cbn [snd] in *; intros accepts; (split; [|done]); [done|].
    apply duplicate_reads in Ev as (m & w' & Hs & <- & Hr & ->). split; [done|]. exists slot, m, w'. split_and!; try done. by exists w.
  - apply contains_digest_none in Ed. destruct (typed_admissible class g) eqn:Ha.
    + split_and!; [done|done|by exists w].
    + intros accepts. split; [|done]. split_and!; [done|done|by exists d, w].
Qed.

(** The probe of a record that the gate has room for. *)
Lemma probe_fresh g e class s m w : fresh g class m -> answers (canonical_digest e) (m_digest m) (world s) w ->
  probe_digest g e class s = (inr (m_digest m), at_world s w).
Proof.
  intros (Hd%contains_digest_none & Ha & _) A. unfold probe_digest. rewrite_answer. by rewrite Hd, Ha.
Qed.

(** The end of both paths: a fresh slot, accepted by the lanes. *)
Lemma queue_accepts class g p m lease :
  typed_rel g p -> typed_admissible class g = true -> slot_by_digest g !! m_digest m = None ->
  exists slot g1 g2, allocate_slot g = (inr slot, g1) /\ enqueue g1 slot class m lease = (Accepted, g2) /\ typed_ok g2 /\
    by_slot g !! slot = None /\ by_slot g2 = <[slot := m]> (by_slot g) /\ pending_reservations g !! slot = None /\
    pending_reservations g2 = match lease with Some l => <[slot := l]> (pending_reservations g) | None => pending_reservations g end.
Proof.
  intros Hg Ha Hd. destruct (allocate_pool total reserve Htotal Hreserve class g p Hg Ha)
    as (slot & g1 & Eg & Hg1 & Hfree & Hr & Hmax & Hbs & Hsd & Hpe).
  assert (Ha1 : typed_admissible class g1 = true).
  { rewrite (admissible_pool total reserve Htotal Hreserve _ g1 p) by done.
    by rewrite (admissible_pool total reserve Htotal Hreserve _ g p) in Ha. }
  destruct (enqueue_pool total reserve Htotal Hreserve class g1 p slot m lease Hg1 Ha1 Hfree) as (g2 & Eg2 & Hg2 & Hmax2 & Hbs2 & Hpe2);
    [by rewrite Hsd|].
  assert (Hnone : by_slot g !! slot = None) by (apply eq_None_not_Some; rewrite (tr_slots _ _ _ _ Hg); done).
  exists slot, g1, g2. split_and!; [done|done|by eexists|done|by rewrite Hbs2, Hbs| |by rewrite Hpe2, Hpe].
  apply eq_None_not_Some. intros Hs. apply (tr_pending _ _ _ _ Hg) in Hs. rewrite Hnone in Hs. by destruct Hs.
Qed.

(** A rejection before anything was queued. *)
Lemma rejected_answer accepts g p e class s reason s' : typed_rel g p -> calls s' = calls s -> minted s' = minted s ->
  answered accepts g e class s (Rejected reason, g, s') /\ typed_ok g /\ pending_reservations g = pending_reservations g /\
  calls s' = calls s /\ minted s' = minted s.
Proof. intros Hg Hc Hm. split_and!; [done|by eexists|done..]. Qed.

Lemma admit_signed_answer g p e class s :
  typed_rel g p ->
  let r := admit_signed g e class s in
  answered (accepts_signed g e s) g e class s r /\ typed_ok (snd (fst r)) /\
  pending_reservations (snd (fst r)) = pending_reservations g /\ calls (snd r) = calls s /\ minted (snd r) = minted s.
Proof.
  intros Hg. unfold admit_signed. pose proof (probe_cases g e class s) as Hp. destruct (probe_digest g e class s) as [[out|d] s1].
  { cbn [fst snd]. destruct out; try done; destruct (Hp (accepts_signed g e s)) as (? & ? & ?); (split_and!; [done|by eexists|done..]). }
  destruct Hp as (Hd & Ha & w & A & ->). pose proof (metadata_from_silent g e d (at_world s w)) as [Hc Hm].
  destruct (metadata_from g e d (at_world s w)) as [[r|m] s2] eqn:Em; cbn [rejecting fst snd] in *; [by eapply rejected_answer|].
  apply metadata_from_reads in Em as (<- & Hok & w2 & Hr & ->).
  destruct (ask (verify_signature e m) _) as [[r|[]] s3] eqn:E3; apply ask_inv in E3 as (w3 & A3 & ->); cbn [rejecting fst snd]; [by eapply rejected_answer|].
  destruct (ask (check_replay m) _) as [[r|[]] s4] eqn:E4; apply ask_inv in E4 as (w4 & A4 & ->); cbn [rejecting fst snd]; [by eapply rejected_answer|].
  destruct (ask (recheck m) _) as [[r|[]] s5] eqn:E5; apply ask_inv in E5 as (w5 & A5 & ->); cbn [rejecting fst snd]; [by eapply rejected_answer|].
  destruct (queue_accepts class g p m None Hg Ha) as (slot & g1 & g2 & -> & Eq & Hok2 & Hn & Hbs & _ & Hpe); [by apply contains_digest_none|].
  cbn [rejecting]. rewrite Eq. cbn [typed_outcome fst snd answered]. split_and!; [|done..].
  exists slot, m. split_and!; [done|done|done|]. split; [done|]. exists w5. split; [|done].
  exists w. split; [done|]. apply along_app. exists w2. split; [done|]. by exists w3; split; [|exists w4; split; [|exists w5]].
Qed.

Lemma admit_signed_complete g p e class s m w : typed_rel g p -> fresh g class m ->
  along (probes e m ++ checks e m) (world s) w -> fst (fst (admit_signed g e class s)) = TAccepted.
Proof.
  intros Hg Hf (w1 & A1 & (w2 & Hr & w3 & A3 & w4 & A4 & w5 & A5 & _)%along_app). unfold admit_signed.
  rewrite (probe_fresh g e class s m w1 Hf A1). destruct Hf as (Hd & Ha & Hok).
  rewrite (proj2 (metadata_from_reads g e (m_digest m) (at_world s w1) m (at_world s w2))) by (split_and!; [done|done|by exists w2]).
  cbn [rejecting]. do 3 (rewrite_answer; cbn [rejecting]).
  destruct (queue_accepts class g p m None Hg Ha) as (slot & g1 & g2 & -> & Eq & _); [by apply contains_digest_none|].
  cbn [rejecting]. by rewrite Eq.
Qed.

(** The reservations after an admission that started with the open tokens [L]. *)
Definition settles (L : list (nat * PendingNonceReservationState)) (g : TypedAdmissionGate) (r : TypedAdmitOutcome * TypedAdmissionGate * Env) : Prop :=
  let '(out, g', s') := r in
  match out with
  | TAccepted => exists slot lease, pending_reservations g !! slot = None /\ lease_ok lease /\
      pending_reservations g' = <[slot := lease]> (pending_reservations g) /\ env_inv s' (live_of lease ++ L)
  | _ => pending_reservations g' = pending_reservations g /\ env_inv s' L
  end.

Lemma admit_pending_answer g p e class s :
  typed_rel g p ->
  let r := admit_signed_with_pending_nonce g e class s in
  answered (accepts_pending g e s) g e class s r /\ typed_ok (snd (fst r)) /\ forall L, env_inv s L -> settles L g r.
Proof.
  intros Hg. unfold admit_signed_with_pending_nonce. pose proof (probe_cases g e class s) as Hp.
  destruct (probe_digest g e class s) as [[out|d] s1].
  { cbn [fst snd settles]. destruct out; try done; destruct (Hp (accepts_pending g e s)) as (? & ? & ?);
      (split; [done|split; [by eexists|intros L HL; split; [done|by eapply env_inv_silent]]]). }
  assert (Hreject : forall reason s', calls s' = calls s -> minted s' = minted s ->
    answered (accepts_pending g e s) g e class s (Rejected reason, g, s') /\ typed_ok g /\ forall L, env_inv s L -> settles L g (Rejected reason, g, s')).
  { intros reason s' Hc Hm. split; [done|]. split; [by eexists|]. intros L HL. split; [done|by eapply env_inv_silent]. }
  destruct Hp as (Hd & Ha & w & A & ->). pose proof (metadata_from_silent g e d (at_world s w)) as [Hc Hm].
  destruct (metadata_from g e d (at_world s w)) as [[r|m] s2] eqn:Em; cbn [rejecting fst snd] in *; [by apply Hreject|].
  apply metadata_from_reads in Em as (<- & Hok & w2 & Hr & ->).
  destruct (ask (verify_signature e m) _) as [[r|[]] s3] eqn:E3; apply ask_inv in E3 as (w3 & A3 & ->); cbn [rejecting fst snd]; [by apply Hreject|].
  assert (Hres : forall L, env_inv s L -> match TypedAdmission.reserve e m (at_world s w3) with
    | (inr lease, s4) => lease_ok lease /\ env_inv s4 (live_of lease ++ L) | _ => True end).
  { intros L HL. assert (HL3 : env_inv (at_world s w3) L) by by eapply env_inv_silent. pose proof (reserve_ok e m _ L HL3) as Hres. by destruct (TypedAdmission.reserve _ _ _) as [[|] ?]. }
  unfold TypedAdmission.reserve in *. destruct (reserve_pending_nonce e m _) as [[r|token] w4] eqn:A4; cbn [rejecting fst snd] in *; [by apply Hreject|].
  set (lease := lease_new _) in *. set (s4 := mkEnv w4 _ _) in *.
  destruct (ask (recheck m) s4) as [[r|[]] s5] eqn:E5; apply ask_inv in E5 as (w5 & A5 & ->); cbn [fst snd];
    (assert (HL5 : forall L, env_inv s L -> lease_ok lease /\ env_inv (at_world s4 w5) (live_of lease ++ L))
      by (intros L HL; destruct (Hres L HL); split; [done|by eapply env_inv_silent])).
  { split; [done|]. split; [by eexists|]. intros L HL. destruct (HL5 L HL). split; [done|by apply release_and_drop_ok]. }
  destruct (queue_accepts class g p m (Some lease) Hg Ha) as (slot & g1 & g2 & -> & -> & Hok2 & Hn & Hbs & Hnp & Hpe); [by apply contains_digest_none|].
  cbn [typed_outcome fst snd answered settles]. split_and!; [|done|intros L HL; destruct (HL5 L HL); by exists slot, lease].
  exists slot, m. split_and!; [done|done|done|]. exists token, w5. split_and!; [|done|done].
  exists w. split; [done|]. apply along_app. exists w2. split; [done|]. by exists w3; split; [|exists w4; split; [|exists w5]].
Qed.

Lemma admit_pending_complete g p e class s m token w : typed_rel g p -> fresh g class m ->
  along (probes e m ++ pending_checks e m token) (world s) w -> fst (fst (admit_signed_with_pending_nonce g e class s)) = TAccepted.
Proof.
  intros Hg Hf (w1 & A1 & (w2 & Hr & w3 & A3 & w4 & A4 & w5 & A5 & _)%along_app). unfold admit_signed_with_pending_nonce.
  rewrite (probe_fresh g e class s m w1 Hf A1). destruct Hf as (Hd & Ha & Hok).
  rewrite (proj2 (metadata_from_reads g e (m_digest m) (at_world s w1) m (at_world s w2))) by (split_and!; [done|done|by exists w2]).
  cbn [rejecting]. rewrite_answer. cbn [rejecting]. unfold TypedAdmission.reserve. unfold answers in A4. cbn [at_world world]. rewrite A4. cbn [rejecting].
  rewrite_answer.
  destruct (queue_accepts class g p m (Some (lease_new (mkReservation (minted s) token))) Hg Ha) as (slot & g1 & g2 & -> & Eq & _); [by apply contains_digest_none|].
  cbn [at_world minted]. by rewrite Eq.
Qed.

(** ** Runs *)

(** The gate, the ready items its owner holds, and the environment. *)
Record Sys := mkSys { sys_gate : TypedAdmissionGate; sys_held : list PendingNonceAdmission; sys_env : Env }.

Inductive typed_op :=
| OpAdmit (e : Envelope) (class : IngressClass)
| OpAdmitPending (e : Envelope) (class : IngressClass)
| OpPop
| OpPopLifecycle
| OpHandoff (i : nat) | OpCommit (i : nat) | OpRelease (i : nat) | OpCancel (i : nat)
| OpInto (i : nat).

(** An operation on the [i]-th held item. *)
Definition on_held (op : PendingNonceLease -> IO (Res () * PendingNonceLease)) (i : nat) (y : Sys) : Sys :=
  match sys_held y !! i with
  | None => y
  | Some a => let '(_, a, s) := with_lease op a (sys_env y) in mkSys (sys_gate y) (<[i := a]> (sys_held y)) s
  end.

Definition typed_step (y : Sys) (op : typed_op) : Sys :=
  match op with
  | OpAdmit e class => let '(_, g, s) := admit_signed (sys_gate y) e class (sys_env y) in mkSys g (sys_held y) s
  | OpAdmitPending e class =>
      let '(_, g, s) := admit_signed_with_pending_nonce (sys_gate y) e class (sys_env y) in mkSys g (sys_held y) s
  | OpPop => let '(_, g, s) := typed_pop_ready (sys_gate y) (sys_env y) in mkSys g (sys_held y) s
  | OpPopLifecycle =>
      let '(item, g, s) := pop_ready_with_lifecycle (sys_gate y) (sys_env y) in mkSys g (option_list item ++ sys_held y) s
  | OpHandoff i => on_held lease_handoff i y
  | OpCommit i => on_held lease_commit i y
  | OpRelease i => on_held lease_release i y
  | OpCancel i => on_held lease_cancel i y
  | OpInto i =>
      match sys_held y !! i with
      | None => y
      | Some a => let '(_, s) := into_metadata a (sys_env y) in mkSys (sys_gate y) (delete i (sys_held y)) s
      end
  end.

Definition typed_start (max_body : Z) (w : World) : Sys := mkSys (typed_new total reserve max_body) [] (mkEnv w 0 []).
Definition typed_run (max_body : Z) (w : World) (ops : list typed_op) : Sys := foldl typed_step (typed_start max_body w) ops.

(** Everything goes out of scope: the held items, then the gate. *)
Definition typed_shutdown (y : Sys) : Env :=
  drop_gate (sys_gate y) (foldl (fun s a => snd (drop_lease_opt (a_lease a) s)) (sys_env y) (sys_held y)).

Definition live_pending (m : gmap Z PendingNonceLease) : list (nat * PendingNonceReservationState) :=
  mjoin (live_of <$> (snd <$> map_to_list m)).
Definition live_held (l : list PendingNonceAdmission) : list (nat * PendingNonceReservationState) :=
  mjoin ((fun a => live_opt (a_lease a)) <$> l).

Record sys_inv (y : Sys) : Prop := mkSysInv {
  si_gate : typed_ok (sys_gate y);
  si_pending : map_Forall (fun _ l => lease_ok l) (pending_reservations (sys_gate y));
  si_held : Forall (fun a => opt_ok (a_lease a)) (sys_held y);
  si_env : env_inv (sys_env y) (live_pending (pending_reservations (sys_gate y)) ++ live_held (sys_held y));
}.

Lemma live_pending_insert m slot l : m !! slot = None -> live_pending (<[slot := l]> m) ≡ₚ live_of l ++ live_pending m.
Proof. intros Hn. unfold live_pending. by rewrite map_to_list_insert. Qed.

Lemma live_pending_delete m slot : live_pending m ≡ₚ live_opt (m !! slot) ++ live_pending (delete slot m).
Proof.
  destruct (m !! slot) as [l|] eqn:E; cbn [live_opt].
  - rewrite <- (insert_delete_id m slot l) at 1 by done. apply live_pending_insert, lookup_delete_eq.
  - by rewrite delete_id.
Qed.

Lemma live_held_cons a l : live_held (a :: l) = live_opt (a_lease a) ++ live_held l.
Proof. done. Qed.

Lemma live_held_delete l i a : l !! i = Some a -> live_held l ≡ₚ live_opt (a_lease a) ++ live_held (delete i l).
Proof. intros Hi. unfold live_held. by rewrite (delete_Permutation l i a) at 1. Qed.

Lemma delete_insert_same {A} (l : list A) i b : delete i (<[i := b]> l) = delete i l.
Proof. revert i. induction l as [|a l IH]; intros [|i]; cbn; [done..|]. f_equal. apply IH. Qed.

Lemma live_held_insert l i a b : l !! i = Some a -> live_held (<[i := b]> l) ≡ₚ live_opt (a_lease b) ++ live_held (delete i l).
Proof.
  intros Hi. assert (Hlt : (i < length l)%nat) by by eapply lookup_lt_Some.
  rewrite (live_held_delete (<[i := b]> l) i b) by by apply list_lookup_insert_eq. by rewrite delete_insert_same.
Qed.

Lemma typed_start_inv max_body w : sys_inv (typed_start max_body w).
Proof.
  split; cbn [typed_start sys_gate sys_held sys_env typed_new pending_reservations].
  - by apply typed_new_ok.
  - apply map_Forall_empty.
  - constructor.
  - exists ∅. split_and!; [done| | |].
    + intros n. rewrite lookup_empty. cbn. split; [by intros []|lia].
    + constructor.
    + intros n st. rewrite lookup_empty. unfold live_pending. rewrite map_to_list_empty. cbn. split; [by intros ?%not_elem_of_nil|by intros []].
Qed.

Lemma on_held_inv op i y : lease_op_ok op -> sys_inv y -> sys_inv (on_held op i y).
Proof.
  intros Hop [Hg Hp Hh He]. unfold on_held. destruct (sys_held y !! i) as [a|] eqn:Ei; [|done].
  unfold with_lease. destruct (a_lease a) as [l|] eqn:El.
  2:{ rewrite list_insert_id by done. by split. }
  assert (Hl : lease_ok l) by (rewrite Forall_lookup in Hh; specialize (Hh i a Ei); by rewrite El in Hh).
  set (P := live_pending (pending_reservations (sys_gate y))) in *.
  assert (He' : env_inv (sys_env y) (live_of l ++ P ++ live_held (delete i (sys_held y)))).
  { eapply env_inv_perm; [|exact He]. rewrite (live_held_delete _ i a Ei), El. cbn [live_opt]. solve_Permutation. }
  destruct (Hop l (sys_env y) _ Hl He') as [Hl' Hs']. destruct (op l (sys_env y)) as [[r l'] s']. cbn [fst snd] in *.
  split; cbn [sys_gate sys_held sys_env]; [done|done|by apply Forall_insert|].
  eapply env_inv_perm; [|exact Hs']. fold P. rewrite (live_held_insert _ i a _ Ei). cbn [a_lease live_opt]. solve_Permutation.
Qed.

(** Popping moves the item's lease out of the gate. *)
Lemma pop_parts_inv g s L :
  typed_ok g -> map_Forall (fun _ l => lease_ok l) (pending_reservations g) -> env_inv s (live_pending (pending_reservations g) ++ L) ->
  let '(parts, g', s') := pop_ready_parts g s in
  let lease := parts ≫= snd in
  s' = s /\ typed_ok g' /\ opt_ok lease /\ map_Forall (fun _ l => lease_ok l) (pending_reservations g') /\
  env_inv s' (live_opt lease ++ live_pending (pending_reservations g') ++ L).
Proof.
  intros [p Hg] Hall HL. destruct (pop_parts_pool total reserve Htotal Hreserve g p s Hg) as (p' & _ & Hg' & Hs & Hcase).
  destruct (pop_ready_parts g s) as [[parts g'] s']. cbn [fst snd] in *. subst s'. split; [done|]. split; [by eexists|].
  destruct (fst (pool_pop total reserve p)) as [slot|].
  - destruct Hcase as (m & _ & -> & Hpe). cbn [mbind option_bind snd]. rewrite Hpe. split_and!.
    + destruct (pending_reservations g !! slot) as [l|] eqn:El; [by eapply Hall|done].
    + by apply map_Forall_delete.
    + eapply env_inv_perm; [|exact HL]. rewrite app_assoc. by rewrite <- live_pending_delete.
  - destruct Hcase as [-> ->]. by split_and!.
Qed.

Lemma typed_step_inv y op : sys_inv y -> sys_inv (typed_step y op).
Proof.
  intros Hy. destruct op as [e class|e class| | |i|i|i|i|i]; cbn [typed_step].
  5-8: by apply on_held_inv; auto using handoff_ok, commit_ok, release_ok, cancel_ok.
  all: destruct Hy as [Hg Hp Hh He].
  - destruct Hg as [p Hg]. destruct (admit_signed_answer _ p e class (sys_env y) Hg) as (_ & Hok & Hpe & Hc & Hm).
    destruct (admit_signed _ _ _ _) as [[out g] s]. cbn [fst snd] in *. split; cbn [sys_gate sys_held sys_env]; [done|by rewrite Hpe|done|].
    rewrite Hpe. by eapply env_inv_silent.
  - destruct Hg as [p Hg]. destruct (admit_pending_answer _ p e class (sys_env y) Hg) as (_ & Hok & Hs). specialize (Hs _ He).
    destruct (admit_signed_with_pending_nonce _ _ _ _) as [[out g] s]. cbn [fst snd settles] in *.
    destruct out; try (destruct Hs as [Hpe Hs]; split; cbn [sys_gate sys_held sys_env]; by rewrite ?Hpe).
    destruct Hs as (slot & lease & Hn & Hl & Hpe & Hs). split; cbn [sys_gate sys_held sys_env]; [done| |done|].
    + rewrite Hpe. by apply map_Forall_insert_2.
    + rewrite Hpe. eapply env_inv_perm; [|exact Hs]. by rewrite live_pending_insert, app_assoc.
  - unfold typed_pop_ready. pose proof (pop_parts_inv (sys_gate y) (sys_env y) _ Hg Hp He) as Hpop.
    destruct (pop_ready_parts (sys_gate y) (sys_env y)) as [[parts g'] s']. destruct Hpop as (-> & Hok & Hl & Hp' & He').
    destruct parts as [[m lease]|]; [|by split]. split; cbn [sys_gate sys_held sys_env]; [done..|]. by apply drop_opt_ok.
  - unfold pop_ready_with_lifecycle. pose proof (pop_parts_inv (sys_gate y) (sys_env y) _ Hg Hp He) as Hpop.
    destruct (pop_ready_parts (sys_gate y) (sys_env y)) as [[parts g'] s']. destruct Hpop as (-> & Hok & Hl & Hp' & He').
    destruct parts as [[m lease]|]; [|by split]. split; cbn [sys_gate sys_held sys_env]; [done|done|by constructor|].
    change (live_held _) with (live_opt lease ++ live_held (sys_held y)).
    eapply env_inv_perm; [|exact He']. cbn [mbind option_bind snd]. solve_Permutation.
  - destruct (sys_held y !! i) as [a|] eqn:Ei; [|by split]. unfold into_metadata.
    assert (Ha : opt_ok (a_lease a)) by (rewrite Forall_lookup in Hh; by eapply Hh).
    pose proof (drop_opt_ok (a_lease a) (sys_env y) (live_pending (pending_reservations (sys_gate y)) ++ live_held (delete i (sys_held y))) Ha) as Hd.
    destruct (drop_lease_opt (a_lease a) (sys_env y)) as [u s']. cbn [snd] in Hd.
    split; cbn [sys_gate sys_held sys_env]; [done|done|by apply Forall_delete|]. apply Hd.
    eapply env_inv_perm; [|exact He]. rewrite (live_held_delete _ i a Ei). solve_Permutation.
Qed.

Lemma typed_run_inv max_body w ops : sys_inv (typed_run max_body w ops).
Proof.
  unfold typed_run. generalize (typed_start_inv max_body w). generalize (typed_start max_body w) as y.
  induction ops as [|op ops IH]; intros y Hy; [done|]. cbn. by apply IH, typed_step_inv.
Qed.

Lemma drop_leases_ok ls s L :
  Forall lease_ok ls -> env_inv s (mjoin (live_of <$> ls) ++ L) -> env_inv (foldl (fun s l => snd (drop_lease l s)) s ls) L.
Proof.
  intros Hls. revert s. induction Hls as [|l ls Hl _ IH]; intros s Hs; [done|]. cbn [foldl]. apply IH, drop_ok; [done|].
  by rewrite app_assoc.
Qed.

Lemma drop_held_ok held s L :
  Forall (fun a => opt_ok (a_lease a)) held -> env_inv s (live_held held ++ L) ->
  env_inv (foldl (fun s a => snd (drop_lease_opt (a_lease a) s)) s held) L.
Proof.
  intros Hls. revert s. induction Hls as [|a held Ha _ IH]; intros s Hs; [done|]. cbn [foldl]. apply IH, drop_opt_ok; [done|].
  by rewrite app_assoc.
Qed.

Lemma shutdown_closes y : sys_inv y -> env_inv (typed_shutdown y) [].
Proof.
  intros [_ Hp Hh He]. unfold typed_shutdown, drop_gate. apply drop_leases_ok.
  - apply Forall_forall. intros l Hl. apply list_elem_of_fmap in Hl as ([slot l'] & -> & Hin). apply elem_of_map_to_list in Hin.
    by eapply Hp.
  - rewrite app_nil_r. apply drop_held_ok; [done|]. eapply env_inv_perm; [|exact He]. apply Permutation_app_comm.
Qed.

(** ** Theorems *)

(** C39: admission answers are exact.  In every reachable gate, on either path and
    whatever state the traits are in, an arrival is accepted exactly when there is a record that the envelope answers to
    every read, with its digest not queued, room for its class and bounds that hold,
    whose signature is verified, whose replay check succeeds (or whose nonce is
    reserved) and whose recheck succeeds, all called in this order and nothing else.
    The accepted record is that one; it enters a free slot, and on the second path its
    reservation is held at that slot.  A backpressured arrival finds no room; it has
    been asked for its digest, which is not queued, and changed nothing.  A duplicate
    answers every read as the record queued under its digest does, and changed nothing.
    A rejection leaves queue, indexes and reservations as they were.  The indexes
    always describe exactly what the lanes hold. *)
Theorem typed_admission_exact max_body w ops e class s :
  let g := sys_gate (typed_run max_body w ops) in
  let r := admit_signed g e class s in
  let r' := admit_signed_with_pending_nonce g e class s in
  typed_ok g /\
  answered (accepts_signed g e s) g e class s r /\
  answered (accepts_pending g e s) g e class s r' /\
  (fst (fst r) = TAccepted <-> exists m w', fresh g class m /\ along (probes e m ++ checks e m) (world s) w') /\
  (fst (fst r') = TAccepted <-> exists m token w', fresh g class m /\ along (probes e m ++ pending_checks e m token) (world s) w').
Proof.
  intros g r r'. destruct (typed_run_inv max_body w ops) as [[p Hg] _ _ _]. fold g in Hg.
  pose proof (proj1 (admit_signed_answer g p e class s Hg)) as H1. pose proof (proj1 (admit_pending_answer g p e class s Hg)) as H2.
  fold r in H1. fold r' in H2. split_and!; [by eexists|done|done| |].
  - split; [|intros (m & w' & Hf & Hr); by eapply admit_signed_complete]. destruct r as [[out g'] s']. cbn [fst]. intros ->.
    destruct H1 as (slot & m & _ & _ & Hf & _ & w' & Hr & _). by exists m, w'.
  - split; [|intros (m & token & w' & Hf & Hr); by eapply admit_pending_complete]. destruct r' as [[out g'] s']. cbn [fst]. intros ->.
    destruct H2 as (slot & m & _ & _ & Hf & token & w' & Hr & _). by exists m, token, w'.
Qed.

(** C40: reservations are settled exactly once.  In every run of the gate and the
    owner of its items, the calls on each reservation token follow its protocol:
    reserve, then at most one successful handoff, then at most one of a successful
    commit and a single release, and no call after that.  Once the items and the
    gate are dropped, every reservation ever made is committed or released. *)
Theorem reservations_settle_once max_body w ops :
  let y := typed_run max_body w ops in
  is_Some (replay (calls (sys_env y))) /\
  exists m, replay (calls (typed_shutdown y)) = Some m /\
    forall n, (n < minted (typed_shutdown y))%nat -> m !! n = Some Committed \/ m !! n = Some Released.
Proof.
  intros y. pose proof (typed_run_inv max_body w ops) as Hy. fold y in Hy. split.
  { destruct Hy as [_ _ _ (m & Hr & _)]. by exists m. }
  destruct (shutdown_closes y Hy) as (m & Hr & Hm & _ & HL). exists m. split; [done|]. intros n Hn.
  apply Hm in Hn as [st Hst]. rewrite Hst. destruct st; [| |by left|by right];
    exfalso; (eapply not_elem_of_nil, HL; split; [exact Hst|done]).
Qed.

End typed_runs.
