(* ===== verification/MempoolWitness.v ===== *)
(** * MempoolWitness: lanes and typed admission on concrete runs

    A gate of four slots of which two are reserved, the starvation run of the
    critical lane, and a typed gate whose adapters read a two-field envelope. *)

From stdpp Require Import base gmap list sorting strings.
From S2P Require Import Prelude Lanes LanesTheorems TypedAdmission TypedTheorems TypedLeases TypedRuns.

(** Both lanes fill, the fifth arrival is refused and a queued one is a duplicate;
    then the critical burst ends with a normal transaction. *)
Example demo_lanes :
  fst (run_lane_ops lanes_step (lanes_new 4 2)
    [Arrive 1 Normal; Arrive 2 Critical; Arrive 3 Critical; Arrive 4 Critical; Arrive 5 Normal; Arrive 2 Normal;
     PopReady; PopReady; PopReady; PopReady; PopReady]) =
  [Outcome Accepted; Outcome Accepted; Outcome Accepted; Outcome Accepted; Outcome Backpressured; Outcome Duplicate;
   Served (Some 2); Served (Some 3); Served (Some 1); Served (Some 4); Served None].
Proof. vm_compute. reflexivity. Qed.

Lemma demo_bounds : 0 <= 4 <= u64_max /\ 0 <= 2.
Proof. unfold u64_max. lia. Qed.

Definition demo_ops : list lane_op := [Arrive 1 Normal; Arrive 2 Critical; PopReady; Arrive 3 Critical].

Lemma lanes_refine_pool_witness :
  fst (run_lane_ops lanes_step (lanes_new 4 2) demo_ops) = fst (run_lane_ops (pool_step 4 2) empty_pool demo_ops) /\
  fst (lanes_admit 9 Normal (snd (run_lane_ops lanes_step (lanes_new 4 2) demo_ops))) = Accepted.
Proof.
  destruct (lanes_refine_pool 4 2 (proj1 demo_bounds) (proj2 demo_bounds) demo_ops) as (Houts & _ & _ & Hfresh).
  split; [exact Houts|]. apply Hfresh; vm_compute; reflexivity.
Defined.

Lemma normal_wait_is_bounded_witness :
  Served (Some 1) ∈ fst (run_lane_ops lanes_step (snd (run_lane_ops lanes_step (lanes_new 4 2) demo_ops)) (replicate 5 PopReady)).
Proof.
  apply (normal_wait_is_bounded 4 2 (proj1 demo_bounds) (proj2 demo_bounds) demo_ops (replicate 5 PopReady) 0 1).
  - reflexivity.
  - vm_compute. reflexivity.
  - vm_compute. discriminate.
Defined.

(** Three normal arrivals overtake a critical transaction that came first. *)
Example demo_starvation :
  fst (run_lane_ops lanes_step (lanes_new 4 2) (Arrive 7 Critical :: rounds [1; 2; 3])) =
  [Outcome Accepted; Outcome Accepted; Served (Some 1); Outcome Accepted; Served (Some 2); Outcome Accepted; Served (Some 3)].
Proof. vm_compute. reflexivity. Qed.

(** ** Typed admission *)

(** Envelopes are a digest and a nonce; the hooks accept, and the authority
    refuses to release nonce 13. *)
#[export] Instance demo_traits : AdmissionTraits := {
  World := Z;
  Envelope := Z * Z;
  Token := Z;
  canonical_digest e w := (replicate 32 (fst e), w);
  canonical_signer_id e w := (inr (replicate 32 1), w);
  canonical_body e w := ([fst e; snd e], w);
  view_nonce e w := (snd e, w);
  view_fee_limit e w := (10, w);
  view_resource_limits e w := (mkLimits 100 64, w);
  validate_canonical e w := (inr tt, w);
  verify_signature e m w := (inr tt, w);
  check_replay m w := (inr tt, w);
  recheck m w := (inr tt, w);
  reserve_pending_nonce e m w := (inr (m_nonce m), w + 1);
  token_owner_binding t := Some t;
  token_handoff t w := (inr tt, w);
  token_commit t w := (inr tt, w);
  token_release t w := (if t =? 13 then inl Replay else inr tt, w);
}.

Definition demo_world : @World demo_traits := 0.

(** Two reserved admissions and a plain one; the first is handed off and committed. *)
Definition demo_typed_ops : list typed_op :=
  [OpAdmitPending (5, 1) Normal; OpAdmit (6, 2) Critical; OpAdmitPending (7, 13) Normal; OpAdmitPending (5, 1) Normal;
   OpPopLifecycle; OpPopLifecycle; OpHandoff 0; OpCommit 0; OpCommit 0].

Example demo_typed_calls :
  calls (typed_shutdown (typed_run 4 2 1024 demo_world demo_typed_ops)) =
  [Reserve 0; Reserve 1; Handoff 0 true; Commit 0 true; Release 1 false].
Proof. vm_compute. reflexivity. Qed.

Definition demo_gate : TypedAdmissionGate := sys_gate (typed_run 4 2 1024 demo_world demo_typed_ops).

Lemma typed_admission_exact_witness :
  fst (fst (admit_signed demo_gate (8, 3) Normal (mkEnv demo_world 0 []))) = TAccepted /\
  exists m w, fresh demo_gate Normal m /\ along (probes (8, 3) m ++ checks (8, 3) m) demo_world w.
Proof.
  destruct (typed_admission_exact 4 2 (proj1 demo_bounds) (proj2 demo_bounds) 1024 demo_world demo_typed_ops (8, 3) Normal (mkEnv demo_world 0 []))
    as (_ & _ & _ & [Hacc _] & _).
  split; [vm_compute; reflexivity|]. apply Hacc. vm_compute. reflexivity.
Defined.

Lemma reservations_settle_once_witness :
  exists m, replay (calls (typed_shutdown (typed_run 4 2 1024 demo_world demo_typed_ops))) = Some m /\
    forall n, (n < minted (typed_shutdown (typed_run 4 2 1024 demo_world demo_typed_ops)))%nat -> m !! n = Some Committed \/ m !! n = Some Released.
Proof.
  exact (proj2 (reservations_settle_once 4 2 (proj1 demo_bounds) (proj2 demo_bounds) 1024 demo_world demo_typed_ops)).
Defined.
