(* ===== verification/ResearchCbor.v ===== *)
(** * ResearchCbor: deterministic CBOR of [trnm-research-protocol]

    [canonical.rs]: the encoder, as the bytes each of its methods appends, and the
    strict decoder over a cursor.  Strings are their UTF-8 bytes; a Rust [String]
    satisfies [utf8_valid]. *)

From stdpp Require Import base gmap list sorting strings.
From S2P Require Import Prelude Crypto.

Definition CANONICAL_ENCODING : bstring := str "rfc8949-deterministic-cbor-array-v1".

(** ** UTF-8 *)

Definition in_range (lo hi b : Z) : bool := (lo <=? b) && (b <=? hi).
Definition is_cont (b : Z) : bool := in_range 128 191 b.

(** [std::str::from_utf8] accepts exactly the well-formed sequences of the Unicode
    standard: no overlong forms, surrogates or values above U+10FFFF. *)
Fixpoint utf8_valid (s : list Z) : bool :=
  match s with
  | [] => true
  | a :: s1 =>
      if a <? 128 then utf8_valid s1
      else if in_range 194 223 a then
        match s1 with b :: s2 => is_cont b && utf8_valid s2 | _ => false end
      else if in_range 224 239 a then
        match s1 with
        | b :: c :: s3 =>
            (if a =? 224 then in_range 160 191 b else if a =? 237 then in_range 128 159 b else is_cont b)
            && is_cont c && utf8_valid s3
        | _ => false
        end
      else if in_range 240 244 a then
        match s1 with
        | b :: c :: d :: s4 =>
            (if a =? 240 then in_range 144 191 b else if a =? 244 then in_range 128 143 b else is_cont b)
            && is_cont c && is_cont d && utf8_valid s4
        | _ => false
        end
      else false
  end.

(** ** Encoder *)

Definition enc_head (major value : Z) : list Z :=
  let prefix := Z.shiftl major 5 in
  if value <=? 23 then [Z.lor prefix value]
  else if value <=? 255 then [Z.lor prefix 24; value]
  else if value <=? 65535 then Z.lor prefix 25 :: be_bytes 2 value
  else if value <=? 4294967295 then Z.lor prefix 26 :: be_bytes 4 value
  else Z.lor prefix 27 :: be_bytes 8 value.

Definition enc_uint (value : Z) : list Z := enc_head 0 value.
Definition enc_bytes (value : list Z) : list Z := enc_head 2 (zlen value) ++ value.
Definition enc_text (value : bstring) : list Z := enc_head 3 (zlen value) ++ value.
Definition enc_array (len : Z) : list Z := enc_head 4 len.
Definition enc_bool (value : bool) : list Z := [if value then 245 else 244].
Definition enc_null : list Z := [246].
Definition encode_option_digest (value : option (list Z)) : list Z :=
  match value with Some digest => enc_bytes digest | None => enc_null end.
(** [encoder.array(values.len()); for value in values { .. }] *)
Definition encode_values {A} (f : A -> list Z) (values : list A) : list Z :=
  enc_array (zlen values) ++ mjoin (f <$> values).

(** ** Decoder *)

Inductive CanonicalDecodeError :=
| UnexpectedEof
| UnexpectedType
| ForbiddenAdditionalInfo
| NonMinimalEncoding
| InvalidUtf8
| ArrayLengthMismatch (expected got : Z)
| ByteLengthMismatch (expected got : Z)
| UnsupportedVersion (v : Z)
| UnknownDiscriminant (name : string) (value : Z)
| TrailingBytes
| NonCanonicalRoundTrip.

Record Decoder := mkDecoder { d_input : list Z; d_cursor : Z }.
Abbreviation DecM := (SE Decoder CanonicalDecodeError).

Definition dec_finish (d : Decoder) : result CanonicalDecodeError () :=
  fail_if (negb (d_cursor d =? zlen (d_input d))) TrailingBytes.

Definition dec_byte : DecM Z :=
  d ← get_self;
  byte ← lift (ok_or (d_input d !! Z.to_nat (d_cursor d)) UnexpectedEof);
  _ ← set_self (mkDecoder (d_input d) (d_cursor d + 1));
  mret byte.

Definition dec_take (len : Z) : DecM (list Z) :=
  d ← get_self;
  end_ ← lift (ok_or (checked_add u64_max (d_cursor d) len) UnexpectedEof);
  bytes ← lift (if end_ <=? zlen (d_input d)
                then Ok (take (Z.to_nat len) (drop (Z.to_nat (d_cursor d)) (d_input d)))
                else Err UnexpectedEof);
  _ ← set_self (mkDecoder (d_input d) end_);
  mret bytes.

(** [uN::from_be_bytes] *)
Definition of_be_bytes (l : list Z) : Z := of_le_bytes (rev l).

(** The value after the first byte, refused below its shortest form. *)
Definition dec_wide (width min : Z) : DecM Z :=
  bytes ← dec_take width;
  let value := of_be_bytes bytes in
  _ ← lift (fail_if (value <=? min) NonMinimalEncoding);
  mret value.

Definition dec_head : DecM (Z * Z) :=
  first ← dec_byte;
  let major := Z.shiftr first 5 in
  let additional := Z.land first 31 in
  value ← (if additional <=? 23 then mret additional
           else if additional =? 24 then
             value ← dec_byte;
             _ ← lift (fail_if (value <? 24) NonMinimalEncoding);
             mret value
           else if additional =? 25 then dec_wide 2 255
           else if additional =? 26 then dec_wide 4 65535
           else if additional =? 27 then dec_wide 8 4294967295
           else lift (Err ForbiddenAdditionalInfo));
  mret (major, value).

Definition dec_typed (expected : Z) : DecM Z :=
  '(major, value) ← dec_head;
  _ ← lift (fail_if (negb (major =? expected)) UnexpectedType);
  mret value.
(** [usize::try_from] of a [u64] *)
Definition dec_len (expected : Z) : DecM Z :=
  value ← dec_typed expected;
  lift (ok_or (try_from u64_max value) UnexpectedType).

Definition dec_uint : DecM Z := dec_typed 0.
Definition dec_array_len : DecM Z := dec_len 4.
Definition dec_array (expected : Z) : DecM () :=
  got ← dec_array_len;
  lift (fail_if (negb (got =? expected)) (ArrayLengthMismatch expected got)).
Definition dec_bytes : DecM (list Z) := len ← dec_len 2; dec_take len.
Definition dec_bytes_exact (n : Z) : DecM (list Z) :=
  bytes ← dec_bytes;
  _ ← lift (fail_if (negb (zlen bytes =? n)) (ByteLengthMismatch n (zlen bytes)));
  mret bytes.
Definition dec_text : DecM bstring :=
  len ← dec_len 3;
  bytes ← dec_take len;
  _ ← lift (fail_if (negb (utf8_valid bytes)) InvalidUtf8);
  mret bytes.
Definition dec_bool : DecM bool :=
  byte ← dec_byte;
  if byte =? 244 then mret false else if byte =? 245 then mret true else lift (Err UnexpectedType).
Definition dec_option_digest : DecM (option (list Z)) :=
  d ← get_self;
  if d_input d !! Z.to_nat (d_cursor d) =?? Some 246 then
    _ ← set_self (mkDecoder (d_input d) (d_cursor d + 1)); mret None
  else bytes ← dec_bytes_exact 32; mret (Some bytes).

(** [for _ in 0..len { out.push(item(decoder)?) }].  Every item consumes a byte, so
    the length of the input bounds the number of turns before the end of input. *)
Fixpoint dec_many {A} (fuel : nat) (item : DecM A) (len : Z) : DecM (list A) :=
  if len <=? 0 then mret []
  else match fuel with
       | O => lift (Err UnexpectedEof)
       | S fuel => x ← item; xs ← dec_many fuel item (len - 1); mret (x :: xs)
       end.
Definition dec_items {A} (item : DecM A) : DecM (list A) :=
  len ← dec_array_len;
  d ← get_self;
  dec_many (length (d_input d)) item len.

(** ** Hash *)

Definition canonical_hash `{CryptoCrates} (domain : bstring) (canonical_bytes : list Z) : Hash32 :=
  sha256 (str "TRNM_RESEARCH_PROTOCOL_HASH_V1" ++ [0] ++ be_bytes 4 (zlen domain) ++ domain
          ++ be_bytes 8 (zlen canonical_bytes) ++ canonical_bytes).
