(* ===== verification/ResearchTypes.v ===== *)
(** * ResearchTypes: payloads of the research protocol

    [types.rs]: keys, object references and the seven command payloads, each with
    its validation, canonical encoding and strict decoder. *)

From stdpp Require Import base gmap list sorting strings.
From S2P Require Import Prelude Crypto ResearchCbor.

Definition PROTOCOL_VERSION : Z := 1.
Abbreviation Digest32 := (list Z).
Abbreviation ExternalKey := (list Z).
Definition ZERO32 : Digest32 := replicate 32 0.

(** ** Errors *)

Inductive ResearchObjectKind :=
| MatchEvidence | EvaluationCommitment | WorkloadReceipt | ResearchClaim | LicenseDeclaration | ClaimChallenge | ClaimResolution.
#[export] Instance ResearchObjectKind_eq_dec : EqDecision ResearchObjectKind.
Proof. solve_decision. Defined.

Inductive ResearchPayloadValidationError :=
| ZeroExternalKey (field : string)
| ZeroObjectVersion (field : string)
| WrongReferenceKind (field : string) (expected got : ResearchObjectKind)
| ZeroDigest (field : string)
| ZeroValue (field : string)
| ZeroTimestamp
| InvalidCollectionSize (field : string)
| NonCanonicalOrdering (field : string)
| BasisPointsOutOfRange (field : string)
| ClaimShareTotalMismatch (total : Z)
| WorkUnitTotalMismatch (declared computed : Z)
| WorkUnitOverflow
| InconsistentEvaluation
| InvalidSpdxExpression
| UnexpectedAmendedClaimants.
Abbreviation PayloadResult := (result ResearchPayloadValidationError).

Inductive ExternalKeyError := InvalidNamespace | InvalidUuid | InvalidExternalId.

(** ** External keys *)

Definition is_ascii_lowercase (b : Z) : bool := in_range 97 122 b.
Definition is_ascii_digit (b : Z) : bool := in_range 48 57 b.
Definition is_ascii_graphic (b : Z) : bool := in_range 33 126 b.
(** [b'.' | b'-' | b'_' | b':'] *)
Definition is_separator (b : Z) : bool := (b =? 46) || (b =? 45) || (b =? 95) || (b =? 58).
Definition is_name_byte (b : Z) : bool := is_ascii_lowercase b || is_ascii_digit b || is_separator b.

Definition validate_namespace (namespace : bstring) : result ExternalKeyError () :=
  fail_if (is_empty namespace || (64 <? zlen namespace) || negb (forallb is_name_byte namespace)) InvalidNamespace.

(** The digits without dashes; writing past the 32-byte buffer panics. *)
Fixpoint compact_uuid (uuid compact : list Z) : result ExternalKeyError (list Z) :=
  match uuid with
  | [] => Ok compact
  | byte :: uuid =>
      if byte =? 45 then compact_uuid uuid compact
      else if negb (is_ascii_digit byte) && negb (in_range 97 102 byte) then Err InvalidUuid
      else if zlen compact <? 32 then compact_uuid uuid (compact ++ [byte]) else Panic
  end.

Definition parse_canonical_uuid `{CryptoCrates} (uuid : bstring) : result ExternalKeyError (list Z) :=
  _ ← fail_if (negb (zlen uuid =? 36) || (uuid !! 8%nat <>? Some 45) || (uuid !! 13%nat <>? Some 45)
               || (uuid !! 18%nat <>? Some 45) || (uuid !! 23%nat <>? Some 45)) InvalidUuid;
  compact ← compact_uuid uuid [];
  _ ← fail_if (negb (zlen compact =? 32)) InvalidUuid;
  decoded ← ok_or (hex_decode compact) InvalidUuid;
  _ ← fail_if (negb (zlen decoded =? 16)) InvalidUuid;
  Ok decoded.

Definition derive_external_key `{CryptoCrates} (namespace : bstring) (id_kind : Z) (external_id : list Z) : Digest32 :=
  sha256 (str "TRNM_RESEARCH_EXTERNAL_KEY_V1" ++ [0] ++ be_bytes 2 (zlen namespace) ++ namespace ++ [id_kind]
          ++ be_bytes 2 (zlen external_id) ++ external_id).

Definition from_uuid `{CryptoCrates} (namespace uuid : bstring) : result ExternalKeyError ExternalKey :=
  _ ← validate_namespace namespace;
  raw ← parse_canonical_uuid uuid;
  Ok (derive_external_key namespace 1 raw).

Definition from_external_id `{CryptoCrates} (namespace external_id : bstring) : result ExternalKeyError ExternalKey :=
  _ ← validate_namespace namespace;
  _ ← fail_if (is_empty external_id || (256 <? zlen external_id)) InvalidExternalId;
  _ ← fail_if (negb (forallb (fun b => is_ascii_graphic b && negb (b =? 92)) external_id)) InvalidExternalId;
  Ok (derive_external_key namespace 2 external_id).

Definition key_validate (k : ExternalKey) (field : string) : PayloadResult () := fail_if (k =?? ZERO32) (ZeroExternalKey field).
Definition encode_key (k : ExternalKey) : list Z := enc_bytes k.

(** ** Object references *)

Definition kind_tag (k : ResearchObjectKind) : Z :=
  match k with
  | MatchEvidence => 1 | EvaluationCommitment => 2 | WorkloadReceipt => 3 | ResearchClaim => 4
  | LicenseDeclaration => 5 | ClaimChallenge => 6 | ClaimResolution => 7
  end.

Record ObjectRefV1 := mkRef { r_kind : ResearchObjectKind; r_key : ExternalKey; r_version : Z }.
#[export] Instance ObjectRefV1_eq_dec : EqDecision ObjectRefV1.
Proof. solve_decision. Defined.

(** The derived [Ord]. *)
Definition ref_order (r : ObjectRefV1) : Z * (list Z * Z) := (kind_tag (r_kind r), (r_key r, r_version r)).

Definition ref_validate (r : ObjectRefV1) (field : string) : PayloadResult () :=
  _ ← key_validate (r_key r) field;
  fail_if (r_version r =? 0) (ZeroObjectVersion field).
Definition encode_ref (r : ObjectRefV1) : list Z :=
  enc_array 4 ++ enc_uint PROTOCOL_VERSION ++ enc_uint (kind_tag (r_kind r)) ++ encode_key (r_key r) ++ enc_uint (r_version r).

(** ** Validation helpers *)

Definition validate_digest (field : string) (d : Digest32) : PayloadResult () := fail_if (d =?? ZERO32) (ZeroDigest field).
Definition validate_positive (field : string) (v : Z) : PayloadResult () := fail_if (v =? 0) (ZeroValue field).
Definition validate_timestamp (t : Z) : PayloadResult () := fail_if (t =? 0) ZeroTimestamp.
Definition validate_ref_kind (field : string) (r : ObjectRefV1) (expected : ResearchObjectKind) : PayloadResult () :=
  _ ← ref_validate r field;
  fail_if (r_kind r <>? expected) (WrongReferenceKind field expected (r_kind r)).

(** [previous.is_some_and(|p| p >= next)] *)
Definition not_after {A} `{RustOrd A} (previous : option A) (next : A) : bool :=
  match previous with Some p => ord_leb next p | None => false end.

Definition check_evidence_ref (previous : option (Z * (list Z * Z))) (r : ObjectRefV1) :
    PayloadResult (option (Z * (list Z * Z))) :=
  _ ← ref_validate r "evidence_ref";
  _ ← fail_if (negb ((r_kind r =?? MatchEvidence) || (r_kind r =?? EvaluationCommitment)))
        (WrongReferenceKind "evidence_ref" EvaluationCommitment (r_kind r));
  _ ← fail_if (not_after previous (ref_order r)) (NonCanonicalOrdering "evidence_refs");
  Ok (Some (ref_order r)).
Definition validate_evidence_refs (refs : list ObjectRefV1) : PayloadResult () :=
  _ ← fail_if (is_empty refs || (64 <? zlen refs)) (InvalidCollectionSize "evidence_refs");
  _ ← try_fold check_evidence_ref None refs;
  Ok tt.

Record ClaimShareV1 := mkShare { sh_contributor : ExternalKey; sh_bps : Z }.
#[export] Instance ClaimShareV1_eq_dec : EqDecision ClaimShareV1.
Proof. solve_decision. Defined.
Definition share_validate (s : ClaimShareV1) : PayloadResult () :=
  _ ← key_validate (sh_contributor s) "claimant";
  fail_if ((sh_bps s =? 0) || (10000 <? sh_bps s)) (BasisPointsOutOfRange "share_bps").
Definition encode_share (s : ClaimShareV1) : list Z :=
  enc_array 3 ++ enc_uint PROTOCOL_VERSION ++ encode_key (sh_contributor s) ++ enc_uint (sh_bps s).

(** At most 128 shares of at most 10,000: the [u32] total does not overflow. *)
Definition check_share (acc : Z * option ExternalKey) (s : ClaimShareV1) : PayloadResult (Z * option ExternalKey) :=
  let '(total, previous) := acc in
  _ ← share_validate s;
  _ ← fail_if (not_after previous (sh_contributor s)) (NonCanonicalOrdering "claimants");
  Ok (total + sh_bps s, Some (sh_contributor s)).
Definition validate_claim_shares (shares : list ClaimShareV1) (allow_empty : bool) : PayloadResult () :=
  _ ← fail_if ((negb allow_empty && is_empty shares) || (128 <? zlen shares)) (InvalidCollectionSize "claimants");
  '(total, _) ← try_fold check_share (0, None) shares;
  fail_if (negb allow_empty && negb (total =? 10000)) (ClaimShareTotalMismatch total).

(** The UTF-8 encodings of the white-space characters. *)
Definition white_space : list (list Z) :=
  [[9]; [10]; [11]; [12]; [13]; [32]; [194; 133]; [194; 160]; [225; 154; 128]]
  ++ ((fun c => [226; 128; c]) <$> [128; 129; 130; 131; 132; 133; 134; 135; 136; 137; 138; 168; 169; 175])
  ++ [[226; 129; 159]; [227; 128; 128]].
(** [s.trim() != s]: a white-space character starts or ends the string. *)
Definition trims (s : bstring) : bool :=
  existsb (fun w => bool_decide (w `prefix_of` s) || bool_decide (w `suffix_of` s)) white_space.

(** [s.contains("  ")] *)
Fixpoint has_double_space (s : list Z) : bool :=
  match s with
  | a :: (b :: _) as s1 => ((a =? 32) && (b =? 32)) || has_double_space s1
  | _ => false
  end.

Definition validate_spdx (e : bstring) : PayloadResult () :=
  fail_if (is_empty e || (128 <? zlen e) || trims e
           || negb (forallb (fun b => is_ascii_graphic b || (b =? 32)) e) || has_double_space e) InvalidSpdxExpression.

(** ** Payloads *)

Record MatchEvidenceCommitmentV1 := mkMatch {
  me_commitment_id : ExternalKey;
  me_match_id : ExternalKey;
  me_challenge_id : ExternalKey;
  me_event_root : Digest32;
  me_roster_root : Digest32;
  me_ruleset_hash : Digest32;
  me_dataset_hash : Digest32;
  me_archive_hash : Digest32;
  me_event_count : Z;
  me_completed_at_unix_s : Z;
}.

Definition match_validate (m : MatchEvidenceCommitmentV1) : PayloadResult () :=
  _ ← key_validate (me_commitment_id m) "commitment_id";
  _ ← key_validate (me_match_id m) "match_id";
  _ ← key_validate (me_challenge_id m) "challenge_id";
  _ ← validate_digest "event_root" (me_event_root m);
  _ ← validate_digest "roster_root" (me_roster_root m);
  _ ← validate_digest "ruleset_hash" (me_ruleset_hash m);
  _ ← validate_digest "dataset_hash" (me_dataset_hash m);
  _ ← validate_digest "archive_hash" (me_archive_hash m);
  _ ← validate_positive "event_count" (me_event_count m);
  validate_timestamp (me_completed_at_unix_s m).
Definition match_ref (m : MatchEvidenceCommitmentV1) : ObjectRefV1 := mkRef MatchEvidence (me_commitment_id m) 1.
Definition encode_match (m : MatchEvidenceCommitmentV1) : list Z :=
  enc_array 11 ++ enc_uint PROTOCOL_VERSION ++ encode_key (me_commitment_id m) ++ encode_key (me_match_id m)
  ++ encode_key (me_challenge_id m) ++ enc_bytes (me_event_root m) ++ enc_bytes (me_roster_root m)
  ++ enc_bytes (me_ruleset_hash m) ++ enc_bytes (me_dataset_hash m) ++ enc_bytes (me_archive_hash m)
  ++ enc_uint (me_event_count m) ++ enc_uint (me_completed_at_unix_s m).

Record EvaluationCommitmentV1 := mkEvaluation {
  ev_evaluation_id : ExternalKey;
  ev_match_evidence_ref : ObjectRefV1;
  ev_submission_hash : Digest32;
  ev_rubric_hash : Digest32;
  ev_evaluation_hash : Digest32;
  ev_reproduction_hash : option Digest32;
  ev_score_bps : Z;
  ev_accepted : bool;
  ev_completed_at_unix_s : Z;
}.

Definition validate_option_digest (field : string) (d : option Digest32) : PayloadResult () :=
  match d with Some d => validate_digest field d | None => Ok tt end.

Definition evaluation_validate (e : EvaluationCommitmentV1) : PayloadResult () :=
  _ ← key_validate (ev_evaluation_id e) "evaluation_id";
  _ ← validate_ref_kind "match_evidence_ref" (ev_match_evidence_ref e) MatchEvidence;
  _ ← validate_digest "submission_hash" (ev_submission_hash e);
  _ ← validate_digest "rubric_hash" (ev_rubric_hash e);
  _ ← validate_digest "evaluation_hash" (ev_evaluation_hash e);
  _ ← validate_option_digest "reproduction_hash" (ev_reproduction_hash e);
  _ ← fail_if (10000 <? ev_score_bps e) (BasisPointsOutOfRange "score_bps");
  _ ← fail_if (ev_accepted e && (ev_score_bps e =? 0)) InconsistentEvaluation;
  validate_timestamp (ev_completed_at_unix_s e).
Definition evaluation_ref (e : EvaluationCommitmentV1) : ObjectRefV1 := mkRef EvaluationCommitment (ev_evaluation_id e) 1.
Definition encode_evaluation (e : EvaluationCommitmentV1) : list Z :=
  enc_array 10 ++ enc_uint PROTOCOL_VERSION ++ encode_key (ev_evaluation_id e) ++ encode_ref (ev_match_evidence_ref e)
  ++ enc_bytes (ev_submission_hash e) ++ enc_bytes (ev_rubric_hash e) ++ enc_bytes (ev_evaluation_hash e)
  ++ encode_option_digest (ev_reproduction_hash e) ++ enc_uint (ev_score_bps e) ++ enc_bool (ev_accepted e)
  ++ enc_uint (ev_completed_at_unix_s e).

Inductive ContributionRole := Researcher | DataProvider | Evaluator | Reproducer | AgentOperator.
Definition role_tag (r : ContributionRole) : Z :=
  match r with Researcher => 1 | DataProvider => 2 | Evaluator => 3 | Reproducer => 4 | AgentOperator => 5 end.

Record ContributorWorkV1 := mkWork {
  cw_contributor : ExternalKey;
  cw_role : ContributionRole;
  cw_accepted_work_units : Z;
  cw_contribution_hash : Digest32;
}.
Definition work_validate (w : ContributorWorkV1) : PayloadResult () :=
  _ ← key_validate (cw_contributor w) "contributor";
  _ ← validate_positive "accepted_work_units" (cw_accepted_work_units w);
  validate_digest "contribution_hash" (cw_contribution_hash w).
Definition encode_work (w : ContributorWorkV1) : list Z :=
  enc_array 5 ++ enc_uint PROTOCOL_VERSION ++ encode_key (cw_contributor w) ++ enc_uint (role_tag (cw_role w))
  ++ enc_uint (cw_accepted_work_units w) ++ enc_bytes (cw_contribution_hash w).

Record IssueWorkloadReceiptV1 := mkReceipt {
  wr_receipt_id : ExternalKey;
  wr_evaluation_ref : ObjectRefV1;
  wr_contributors : list ContributorWorkV1;
  wr_total_accepted_work_units : Z;
  wr_policy_hash : Digest32;
  wr_issued_at_unix_s : Z;
}.

Definition check_work (acc : Z * option ExternalKey) (w : ContributorWorkV1) : PayloadResult (Z * option ExternalKey) :=
  let '(total, previous) := acc in
  _ ← work_validate w;
  _ ← fail_if (not_after previous (cw_contributor w)) (NonCanonicalOrdering "contributors");
  total ← ok_or (checked_add u64_max total (cw_accepted_work_units w)) WorkUnitOverflow;
  Ok (total, Some (cw_contributor w)).
Definition receipt_validate (r : IssueWorkloadReceiptV1) : PayloadResult () :=
  _ ← key_validate (wr_receipt_id r) "receipt_id";
  _ ← validate_ref_kind "evaluation_ref" (wr_evaluation_ref r) EvaluationCommitment;
  _ ← fail_if (is_empty (wr_contributors r) || (128 <? zlen (wr_contributors r))) (InvalidCollectionSize "contributors");
  '(total, _) ← try_fold check_work (0, None) (wr_contributors r);
  _ ← fail_if ((total =? 0) || negb (total =? wr_total_accepted_work_units r))
        (WorkUnitTotalMismatch (wr_total_accepted_work_units r) total);
  _ ← validate_digest "policy_hash" (wr_policy_hash r);
  validate_timestamp (wr_issued_at_unix_s r).
Definition receipt_ref (r : IssueWorkloadReceiptV1) : ObjectRefV1 := mkRef WorkloadReceipt (wr_receipt_id r) 1.
Definition encode_receipt (r : IssueWorkloadReceiptV1) : list Z :=
  enc_array 7 ++ enc_uint PROTOCOL_VERSION ++ encode_key (wr_receipt_id r) ++ encode_ref (wr_evaluation_ref r)
  ++ encode_values encode_work (wr_contributors r) ++ enc_uint (wr_total_accepted_work_units r)
  ++ enc_bytes (wr_policy_hash r) ++ enc_uint (wr_issued_at_unix_s r).

Record CreateResearchClaimV1 := mkClaim {
  cl_claim_id : ExternalKey;
  cl_workload_receipt_ref : ObjectRefV1;
  cl_evidence_refs : list ObjectRefV1;
  cl_artifact_hash : Digest32;
  cl_claim_scope_hash : Digest32;
  cl_claimants : list ClaimShareV1;
  cl_created_at_unix_s : Z;
}.
Definition claim_validate (c : CreateResearchClaimV1) : PayloadResult () :=
  _ ← key_validate (cl_claim_id c) "claim_id";
  _ ← validate_ref_kind "workload_receipt_ref" (cl_workload_receipt_ref c) WorkloadReceipt;
  _ ← validate_evidence_refs (cl_evidence_refs c);
  _ ← validate_digest "artifact_hash" (cl_artifact_hash c);
  _ ← validate_digest "claim_scope_hash" (cl_claim_scope_hash c);
  _ ← validate_claim_shares (cl_claimants c) false;
  validate_timestamp (cl_created_at_unix_s c).
Definition claim_ref (c : CreateResearchClaimV1) : ObjectRefV1 := mkRef ResearchClaim (cl_claim_id c) 1.
Definition encode_claim (c : CreateResearchClaimV1) : list Z :=
  enc_array 8 ++ enc_uint PROTOCOL_VERSION ++ encode_key (cl_claim_id c) ++ encode_ref (cl_workload_receipt_ref c)
  ++ encode_values encode_ref (cl_evidence_refs c) ++ enc_bytes (cl_artifact_hash c) ++ enc_bytes (cl_claim_scope_hash c)
  ++ encode_values encode_share (cl_claimants c) ++ enc_uint (cl_created_at_unix_s c).

Inductive LicenseScope := Artifact | Dataset | Method | AllClaimedMaterial.
Definition scope_tag (s : LicenseScope) : Z :=
  match s with Artifact => 1 | Dataset => 2 | Method => 3 | AllClaimedMaterial => 4 end.

Record DeclareLicenseV1 := mkLicense {
  li_declaration_id : ExternalKey;
  li_claim_ref : ObjectRefV1;
  li_licensor : ExternalKey;
  li_scope : LicenseScope;
  li_spdx_expression : bstring;
  li_additional_terms_hash : option Digest32;
  li_effective_at_unix_s : Z;
}.
Definition license_validate (l : DeclareLicenseV1) : PayloadResult () :=
  _ ← key_validate (li_declaration_id l) "declaration_id";
  _ ← validate_ref_kind "claim_ref" (li_claim_ref l) ResearchClaim;
  _ ← key_validate (li_licensor l) "licensor";
  _ ← validate_spdx (li_spdx_expression l);
  _ ← validate_option_digest "additional_terms_hash" (li_additional_terms_hash l);
  validate_timestamp (li_effective_at_unix_s l).
Definition license_ref (l : DeclareLicenseV1) : ObjectRefV1 := mkRef LicenseDeclaration (li_declaration_id l) 1.
Definition encode_license (l : DeclareLicenseV1) : list Z :=
  enc_array 8 ++ enc_uint PROTOCOL_VERSION ++ encode_key (li_declaration_id l) ++ encode_ref (li_claim_ref l)
  ++ encode_key (li_licensor l) ++ enc_uint (scope_tag (li_scope l)) ++ enc_text (li_spdx_expression l)
  ++ encode_option_digest (li_additional_terms_hash l) ++ enc_uint (li_effective_at_unix_s l).

Inductive ChallengeReason := Authorship | ContributionAllocation | EvidenceIntegrity | Reproducibility | LicenseConflict.
Definition reason_tag (r : ChallengeReason) : Z :=
  match r with
  | Authorship => 1 | ContributionAllocation => 2 | EvidenceIntegrity => 3 | Reproducibility => 4 | LicenseConflict => 5
  end.

Record ChallengeResearchClaimV1 := mkChallenge {
  ch_challenge_id : ExternalKey;
  ch_claim_ref : ObjectRefV1;
  ch_challenger : ExternalKey;
  ch_reason : ChallengeReason;
  ch_evidence_hash : Digest32;
  ch_opened_at_unix_s : Z;
}.
Definition challenge_validate (c : ChallengeResearchClaimV1) : PayloadResult () :=
  _ ← key_validate (ch_challenge_id c) "challenge_id";
  _ ← validate_ref_kind "claim_ref" (ch_claim_ref c) ResearchClaim;
  _ ← key_validate (ch_challenger c) "challenger";
  _ ← validate_digest "evidence_hash" (ch_evidence_hash c);
  validate_timestamp (ch_opened_at_unix_s c).
Definition challenge_ref (c : ChallengeResearchClaimV1) : ObjectRefV1 := mkRef ClaimChallenge (ch_challenge_id c) 1.
Definition encode_challenge (c : ChallengeResearchClaimV1) : list Z :=
  enc_array 7 ++ enc_uint PROTOCOL_VERSION ++ encode_key (ch_challenge_id c) ++ encode_ref (ch_claim_ref c)
  ++ encode_key (ch_challenger c) ++ enc_uint (reason_tag (ch_reason c)) ++ enc_bytes (ch_evidence_hash c)
  ++ enc_uint (ch_opened_at_unix_s c).

Inductive ClaimResolutionDecision := Uphold | Reject | AmendContributorShares | RequireLicenseAmendment.
#[export] Instance ClaimResolutionDecision_eq_dec : EqDecision ClaimResolutionDecision.
Proof. solve_decision. Defined.
Definition decision_tag (d : ClaimResolutionDecision) : Z :=
  match d with Uphold => 1 | Reject => 2 | AmendContributorShares => 3 | RequireLicenseAmendment => 4 end.

Record ClaimResolutionV1 := mkResolution {
  re_resolution_id : ExternalKey;
  re_challenge_ref : ObjectRefV1;
  re_decision : ClaimResolutionDecision;
  re_resolution_hash : Digest32;
  re_amended_claimants : list ClaimShareV1;
  re_decided_at_unix_s : Z;
}.
Definition resolution_validate (r : ClaimResolutionV1) : PayloadResult () :=
  _ ← key_validate (re_resolution_id r) "resolution_id";
  _ ← validate_ref_kind "challenge_ref" (re_challenge_ref r) ClaimChallenge;
  _ ← validate_digest "resolution_hash" (re_resolution_hash r);
  _ ← (match re_decision r with
       | AmendContributorShares => validate_claim_shares (re_amended_claimants r) false
       | _ => fail_if (negb (is_empty (re_amended_claimants r))) UnexpectedAmendedClaimants
       end);
  validate_timestamp (re_decided_at_unix_s r).
Definition resolution_ref (r : ClaimResolutionV1) : ObjectRefV1 := mkRef ClaimResolution (re_resolution_id r) 1.
Definition encode_resolution (r : ClaimResolutionV1) : list Z :=
  enc_array 7 ++ enc_uint PROTOCOL_VERSION ++ encode_key (re_resolution_id r) ++ encode_ref (re_challenge_ref r)
  ++ enc_uint (decision_tag (re_decision r)) ++ enc_bytes (re_resolution_hash r)
  ++ encode_values encode_share (re_amended_claimants r) ++ enc_uint (re_decided_at_unix_s r).

(** ** Commands *)

Inductive ResearchCommandV1 :=
| CMatchEvidence (p : MatchEvidenceCommitmentV1)
| CEvaluation (p : EvaluationCommitmentV1)
| CIssueWorkload (p : IssueWorkloadReceiptV1)
| CCreateClaim (p : CreateResearchClaimV1)
| CDeclareLicense (p : DeclareLicenseV1)
| CChallengeClaim (p : ChallengeResearchClaimV1)
| CResolveClaim (p : ClaimResolutionV1).

Definition command_type (c : ResearchCommandV1) : string :=
  match c with
  | CMatchEvidence _ => "match_evidence_commitment_v1"
  | CEvaluation _ => "evaluation_commitment_v1"
  | CIssueWorkload _ => "issue_workload_receipt_v1"
  | CCreateClaim _ => "create_research_claim_v1"
  | CDeclareLicense _ => "declare_license_v1"
  | CChallengeClaim _ => "challenge_research_claim_v1"
  | CResolveClaim _ => "resolve_research_claim_v1"
  end%string.

Definition command_validate (c : ResearchCommandV1) : PayloadResult () :=
  match c with
  | CMatchEvidence p => match_validate p
  | CEvaluation p => evaluation_validate p
  | CIssueWorkload p => receipt_validate p
  | CCreateClaim p => claim_validate p
  | CDeclareLicense p => license_validate p
  | CChallengeClaim p => challenge_validate p
  | CResolveClaim p => resolution_validate p
  end.

Definition primary_object_ref (c : ResearchCommandV1) : ObjectRefV1 :=
  match c with
  | CMatchEvidence p => match_ref p
  | CEvaluation p => evaluation_ref p
  | CIssueWorkload p => receipt_ref p
  | CCreateClaim p => claim_ref p
  | CDeclareLicense p => license_ref p
  | CChallengeClaim p => challenge_ref p
  | CResolveClaim p => resolution_ref p
  end.

Definition encode_command (c : ResearchCommandV1) : list Z :=
  enc_array 3 ++ enc_uint PROTOCOL_VERSION ++
  match c with
  | CMatchEvidence p => enc_uint 1 ++ encode_match p
  | CEvaluation p => enc_uint 2 ++ encode_evaluation p
  | CIssueWorkload p => enc_uint 3 ++ encode_receipt p
  | CCreateClaim p => enc_uint 4 ++ encode_claim p
  | CDeclareLicense p => enc_uint 5 ++ encode_license p
  | CChallengeClaim p => enc_uint 6 ++ encode_challenge p
  | CResolveClaim p => enc_uint 7 ++ encode_resolution p
  end.

(** ** Decoders *)

Definition decode_version : DecM () :=
  version ← dec_uint;
  lift (fail_if (negb (version =? PROTOCOL_VERSION)) (UnsupportedVersion version)).

Definition decode_external_key : DecM ExternalKey := dec_bytes_exact 32.

(** A tag found in a table, else the discriminant error. *)
Definition decode_tag {A} (name : string) (table : Z -> option A) : DecM A :=
  value ← dec_uint;
  lift (ok_or (table value) (UnknownDiscriminant name value)).

Definition decode_kind : DecM ResearchObjectKind :=
  decode_tag "ResearchObjectKind" (fun v =>
    match v with
    | 1 => Some MatchEvidence | 2 => Some EvaluationCommitment | 3 => Some WorkloadReceipt | 4 => Some ResearchClaim
    | 5 => Some LicenseDeclaration | 6 => Some ClaimChallenge | 7 => Some ClaimResolution | _ => None
    end).

Definition decode_object_ref : DecM ObjectRefV1 :=
  _ ← dec_array 4; _ ← decode_version;
  kind ← decode_kind; key ← decode_external_key; version ← dec_uint;
  mret (mkRef kind key version).

Definition decode_match : DecM MatchEvidenceCommitmentV1 :=
  _ ← dec_array 11; _ ← decode_version;
  commitment_id ← decode_external_key; match_id ← decode_external_key; challenge_id ← decode_external_key;
  event_root ← dec_bytes_exact 32; roster_root ← dec_bytes_exact 32; ruleset_hash ← dec_bytes_exact 32;
  dataset_hash ← dec_bytes_exact 32; archive_hash ← dec_bytes_exact 32;
  event_count ← dec_uint; completed_at ← dec_uint;
  mret (mkMatch commitment_id match_id challenge_id event_root roster_root ruleset_hash dataset_hash archive_hash
          event_count completed_at).

(** [u16::try_from(decoder.uint()?)]; the error carries the given value. *)
Definition decode_bps (name : string) (reported : Z -> Z) : DecM Z :=
  raw ← dec_uint;
  lift (ok_or (try_from u16_max raw) (UnknownDiscriminant name (reported raw))).

Definition decode_evaluation : DecM EvaluationCommitmentV1 :=
  _ ← dec_array 10; _ ← decode_version;
  evaluation_id ← decode_external_key; match_evidence_ref ← decode_object_ref;
  submission_hash ← dec_bytes_exact 32; rubric_hash ← dec_bytes_exact 32; evaluation_hash ← dec_bytes_exact 32;
  reproduction_hash ← dec_option_digest;
  score_bps ← decode_bps "score_bps" (fun _ => u64_max);
  accepted ← dec_bool; completed_at ← dec_uint;
  mret (mkEvaluation evaluation_id match_evidence_ref submission_hash rubric_hash evaluation_hash reproduction_hash
          score_bps accepted completed_at).

Definition decode_role : DecM ContributionRole :=
  decode_tag "ContributionRole" (fun v =>
    match v with
    | 1 => Some Researcher | 2 => Some DataProvider | 3 => Some Evaluator | 4 => Some Reproducer | 5 => Some AgentOperator
    | _ => None
    end).

Definition decode_contribution : DecM ContributorWorkV1 :=
  _ ← dec_array 5; _ ← decode_version;
  contributor ← decode_external_key; role ← decode_role;
  units ← dec_uint; contribution_hash ← dec_bytes_exact 32;
  mret (mkWork contributor role units contribution_hash).

Definition decode_workload : DecM IssueWorkloadReceiptV1 :=
  _ ← dec_array 7; _ ← decode_version;
  receipt_id ← decode_external_key; evaluation_ref ← decode_object_ref;
  contributors ← dec_items decode_contribution;
  total ← dec_uint; policy_hash ← dec_bytes_exact 32; issued_at ← dec_uint;
  mret (mkReceipt receipt_id evaluation_ref contributors total policy_hash issued_at).

Definition decode_claim_share : DecM ClaimShareV1 :=
  _ ← dec_array 3; _ ← decode_version;
  contributor ← decode_external_key; share_bps ← decode_bps "share_bps" id;
  mret (mkShare contributor share_bps).

Definition decode_claim : DecM CreateResearchClaimV1 :=
  _ ← dec_array 8; _ ← decode_version;
  claim_id ← decode_external_key; workload_receipt_ref ← decode_object_ref;
  evidence_refs ← dec_items decode_object_ref;
  artifact_hash ← dec_bytes_exact 32; claim_scope_hash ← dec_bytes_exact 32;
  claimants ← dec_items decode_claim_share;
  created_at ← dec_uint;
  mret (mkClaim claim_id workload_receipt_ref evidence_refs artifact_hash claim_scope_hash claimants created_at).

Definition decode_license_scope : DecM LicenseScope :=
  decode_tag "LicenseScope" (fun v =>
    match v with 1 => Some Artifact | 2 => Some Dataset | 3 => Some Method | 4 => Some AllClaimedMaterial | _ => None end).

Definition decode_license : DecM DeclareLicenseV1 :=
  _ ← dec_array 8; _ ← decode_version;
  declaration_id ← decode_external_key; claim_ref ← decode_object_ref; licensor ← decode_external_key;
  scope ← decode_license_scope; spdx_expression ← dec_text; additional_terms_hash ← dec_option_digest;
  effective_at ← dec_uint;
  mret (mkLicense declaration_id claim_ref licensor scope spdx_expression additional_terms_hash effective_at).

Definition decode_challenge_reason : DecM ChallengeReason :=
  decode_tag "ChallengeReason" (fun v =>
    match v with
    | 1 => Some Authorship | 2 => Some ContributionAllocation | 3 => Some EvidenceIntegrity | 4 => Some Reproducibility
    | 5 => Some LicenseConflict | _ => None
    end).

Definition decode_challenge : DecM ChallengeResearchClaimV1 :=
  _ ← dec_array 7; _ ← decode_version;
  challenge_id ← decode_external_key; claim_ref ← decode_object_ref; challenger ← decode_external_key;
  reason ← decode_challenge_reason; evidence_hash ← dec_bytes_exact 32; opened_at ← dec_uint;
  mret (mkChallenge challenge_id claim_ref challenger reason evidence_hash opened_at).

Definition decode_resolution_decision : DecM ClaimResolutionDecision :=
  decode_tag "ClaimResolutionDecision" (fun v =>
    match v with
    | 1 => Some Uphold | 2 => Some Reject | 3 => Some AmendContributorShares | 4 => Some RequireLicenseAmendment | _ => None
    end).

Definition decode_resolution : DecM ClaimResolutionV1 :=
  _ ← dec_array 7; _ ← decode_version;
  resolution_id ← decode_external_key; challenge_ref ← decode_object_ref; decision ← decode_resolution_decision;
  resolution_hash ← dec_bytes_exact 32;
  amended_claimants ← dec_items decode_claim_share;
  decided_at ← dec_uint;
  mret (mkResolution resolution_id challenge_ref decision resolution_hash amended_claimants decided_at).

Definition decode_command : DecM ResearchCommandV1 :=
  _ ← dec_array 3; _ ← decode_version;
  tag ← dec_uint;
  match tag with
  | 1 => p ← decode_match; mret (CMatchEvidence p)
  | 2 => p ← decode_evaluation; mret (CEvaluation p)
  | 3 => p ← decode_workload; mret (CIssueWorkload p)
  | 4 => p ← decode_claim; mret (CCreateClaim p)
  | 5 => p ← decode_license; mret (CDeclareLicense p)
  | 6 => p ← decode_challenge; mret (CChallengeClaim p)
  | 7 => p ← decode_resolution; mret (CResolveClaim p)
  | _ => lift (Err (UnknownDiscriminant "ResearchCommandV1" tag))
  end.

Inductive ResearchCommandDecodeError :=
| Canonical (e : CanonicalDecodeError)
| InvalidPayload (e : ResearchPayloadValidationError).

(** [ResearchCommandV1::from_canonical_bytes] *)
Definition command_from_canonical_bytes (bytes : list Z) : result ResearchCommandDecodeError ResearchCommandV1 :=
  let '(decoded, decoder) := decode_command (mkDecoder bytes 0) in
  command ← map_err Canonical decoded;
  _ ← map_err Canonical (dec_finish decoder);
  _ ← fail_if (encode_command command <>? bytes) (Canonical NonCanonicalRoundTrip);
  _ ← map_err InvalidPayload (command_validate command);
  Ok command.
