(* ===== verification/ResearchCommand.v ===== *)
(** * ResearchCommand: signed commands of the research protocol

    [command.rs]: the signed envelope, its signing bytes, fingerprint, validation
    and strict decoder.  Ed25519 is the class [CryptoCrates]. *)

From stdpp Require Import base gmap list sorting strings.
From S2P Require Import Prelude Crypto ResearchCbor ResearchTypes.

Inductive AuthorityRole := NakamaAuthority | HeptaAuthority.
#[export] Instance AuthorityRole_eq_dec : EqDecision AuthorityRole.
Proof. solve_decision. Defined.
Definition authority_tag (r : AuthorityRole) : Z := match r with NakamaAuthority => 1 | HeptaAuthority => 2 end.

Record SignedResearchCommandV1 := mkSigned {
  s_chain_id : bstring;
  s_command_id : ExternalKey;
  s_signer_did : bstring;
  s_signer_role : AuthorityRole;
  s_nonce : Z;
  s_public_key : list Z;
  s_command : ResearchCommandV1;
  s_signature : list Z;
}.

Inductive SignedResearchCommandValidationError :=
| CanonicalDecode (e : CanonicalDecodeError)
| EncodingMismatch (encoding : bstring)
| InvalidChainId
| InvalidSignerDid
| ZeroNonce
| InvalidPublicKey
| InvalidSignature
| UnauthorizedCommand (role : AuthorityRole) (command_type : string)
| PayloadError (e : ResearchPayloadValidationError).
Abbreviation SignedResult := (result SignedResearchCommandValidationError).

Definition validate_chain_id (chain_id : bstring) : SignedResult () :=
  fail_if (is_empty chain_id || (64 <? zlen chain_id) || negb (forallb is_name_byte chain_id)) InvalidChainId.

(** [!did.starts_with("did:")] *)
Definition bad_did (did : bstring) : bool :=
  (zlen did <? 5) || (192 <? zlen did) || negb (bool_decide (str "did:" `prefix_of` did)) || negb (forallb is_ascii_graphic did).
Definition validate_did (did : bstring) : SignedResult () := fail_if (bad_did did) InvalidSignerDid.

(** Which role may submit which command. *)
Definition role_allows (role : AuthorityRole) (c : ResearchCommandV1) : bool :=
  match role, c with
  | NakamaAuthority, CMatchEvidence _ => true
  | HeptaAuthority, CMatchEvidence _ => false
  | HeptaAuthority, _ => true
  | _, _ => false
  end.

(** The fields both encodings share, after the array head. *)
Definition encode_fields (s : SignedResearchCommandV1) : list Z :=
  enc_uint PROTOCOL_VERSION ++ enc_text CANONICAL_ENCODING ++ enc_text (s_chain_id s) ++ encode_key (s_command_id s)
  ++ enc_text (s_signer_did s) ++ enc_uint (authority_tag (s_signer_role s)) ++ enc_uint (s_nonce s)
  ++ enc_bytes (s_public_key s) ++ encode_command (s_command s).
Definition signing_bytes (s : SignedResearchCommandV1) : list Z := enc_array 9 ++ encode_fields s.
Definition encode_signed (s : SignedResearchCommandV1) : list Z := enc_array 10 ++ encode_fields s ++ enc_bytes (s_signature s).

Definition validate_unsigned (s : SignedResearchCommandV1) : SignedResult () :=
  _ ← validate_chain_id (s_chain_id s);
  _ ← map_err PayloadError (key_validate (s_command_id s) "command_id");
  _ ← validate_did (s_signer_did s);
  _ ← fail_if (s_nonce s =? 0) ZeroNonce;
  _ ← fail_if (s_public_key s =?? ZERO32) InvalidPublicKey;
  _ ← map_err PayloadError (command_validate (s_command s));
  fail_if (negb (role_allows (s_signer_role s) (s_command s)))
    (UnauthorizedCommand (s_signer_role s) (command_type (s_command s))).

Definition decode_authority_role : DecM AuthorityRole :=
  decode_tag "AuthorityRole" (fun v => match v with 1 => Some NakamaAuthority | 2 => Some HeptaAuthority | _ => None end).

(** The errors of the decoder's body. *)
Abbreviation SignedM := (SE Decoder SignedResearchCommandValidationError).
Definition decoding {A} (m : DecM A) : SignedM A := fun d => let '(r, d) := m d in (map_err CanonicalDecode r, d).

Definition decode_signed : SignedM SignedResearchCommandV1 :=
  _ ← decoding (dec_array 10);
  version ← decoding dec_uint;
  _ ← lift (fail_if (negb (version =? PROTOCOL_VERSION)) (CanonicalDecode (UnsupportedVersion version)));
  encoding ← decoding dec_text;
  _ ← lift (fail_if (encoding <>? CANONICAL_ENCODING) (EncodingMismatch encoding));
  chain_id ← decoding dec_text;
  command_id ← decoding (dec_bytes_exact 32);
  signer_did ← decoding dec_text;
  signer_role ← decoding decode_authority_role;
  nonce ← decoding dec_uint;
  public_key ← decoding (dec_bytes_exact 32);
  command ← decoding decode_command;
  signature ← decoding dec_bytes;
  mret (mkSigned chain_id command_id signer_did signer_role nonce public_key command signature).

Section signed.
Context `{CryptoCrates}.

Definition validate (s : SignedResearchCommandV1) : SignedResult () :=
  _ ← validate_unsigned s;
  _ ← fail_if (negb (zlen (s_signature s) =? 64)) InvalidSignature;
  key ← ok_or (vk_from_bytes (s_public_key s)) InvalidPublicKey;
  fail_if (negb (verify_strict key (signing_bytes s) (s_signature s))) InvalidSignature.

Definition sign (chain_id : bstring) (command_id : ExternalKey) (signer_did : bstring) (signer_role : AuthorityRole)
    (nonce : Z) (command : ResearchCommandV1) (signing_key : SigningKey) : SignedResult SignedResearchCommandV1 :=
  let with_signature := mkSigned chain_id command_id signer_did signer_role nonce
                          (vk_to_bytes (sk_verifying_key signing_key)) command in
  _ ← validate_unsigned (with_signature []);
  Ok (with_signature (sk_sign signing_key (signing_bytes (with_signature [])))).

(** [SignedResearchCommandV1::from_canonical_bytes] *)
Definition signed_from_canonical_bytes (bytes : list Z) : SignedResult SignedResearchCommandV1 :=
  let '(decoded, decoder) := decode_signed (mkDecoder bytes 0) in
  signed ← decoded;
  _ ← map_err CanonicalDecode (dec_finish decoder);
  _ ← fail_if (encode_signed signed <>? bytes) (CanonicalDecode NonCanonicalRoundTrip);
  _ ← validate signed;
  Ok signed.

Definition command_fingerprint (s : SignedResearchCommandV1) : Digest32 :=
  canonical_hash (str "trnm-research-command-fingerprint-v1") (signing_bytes s).
Definition payload_hash (s : SignedResearchCommandV1) : Digest32 :=
  canonical_hash (str "trnm-research-command-payload-v1") (encode_command (s_command s)).

End signed.
