(* ===== verification/ResearchCodec.v ===== *)
(** * ResearchCodec: the deterministic CBOR codec is exact

    A decoder reads an encoding when, anywhere in an input, it consumes exactly
    that encoding and yields the value.  Reading composes, so every payload's
    decoder reads its encoder's bytes; with the re-encoding check, the strict
    decoders accept exactly the canonical bytes of valid commands. *)

From stdpp Require Import base gmap list sorting strings.
From S2P Require Import Prelude Crypto ResearchCbor ResearchTypes ResearchCommand.

Definition reads {E A} (m : SE Decoder E A) (bs : list Z) (a : A) : Prop :=
  forall pre post, zlen (pre ++ bs ++ post) <= u64_max ->
    m (mkDecoder (pre ++ bs ++ post) (zlen pre)) = (Ok a, mkDecoder (pre ++ bs ++ post) (zlen pre + zlen bs)).

(** ** Combinators *)

Lemma reads_bind {E A B} (m : SE Decoder E A) (f : A -> SE Decoder E B) bs1 bs2 a b :
  reads m bs1 a -> reads (f a) bs2 b -> reads (mbind f m) (bs1 ++ bs2) b.
Proof.
  intros Hm Hf pre post Hlen. unfold mbind, SE_bind. rewrite <- app_assoc in Hlen. rewrite <- app_assoc. rewrite Hm by done.
  rewrite <- (zlen_app pre bs1). specialize (Hf (pre ++ bs1) post). rewrite <- app_assoc in Hf. rewrite Hf by done.
  do 2 f_equal. rewrite !zlen_app. lia.
Qed.

Lemma reads_ret {E A} (a : A) : reads (E:=E) (mret a) [] a.
Proof. intros pre post _. unfold mret, SE_ret. do 2 f_equal. unfold zlen. cbn. lia. Qed.

Lemma reads_lift {E A} (r : result E A) a : r = Ok a -> reads (lift r) [] a.
Proof. intros ->. apply reads_ret. Qed.

Lemma reads_last {E A B} (m : SE Decoder E A) (f : A -> SE Decoder E B) bs a b : reads m bs a -> reads (f a) [] b -> reads (mbind f m) bs b.
Proof. intros Hm Hf. rewrite <- (app_nil_r bs). by eapply reads_bind. Qed.

Lemma reads_then {E B} (m : SE Decoder E ()) (f : () -> SE Decoder E B) bs b : reads m [] () -> reads (f ()) bs b -> reads (mbind f m) bs b.
Proof. intros Hm Hf. rewrite <- (app_nil_l bs). by eapply reads_bind. Qed.

(** ** Bytes and heads *)

Lemma reads_byte b : reads dec_byte [b] b.
Proof.
  intros pre post _. unfold dec_byte, mbind, SE_bind, get_self, lift, set_self, mret, SE_ret. cbn [d_input d_cursor].
  replace (Z.to_nat (zlen pre)) with (length pre) by (unfold zlen; lia).
  rewrite lookup_app_r, Nat.sub_diag by lia. cbn. done.
Qed.

Lemma reads_take bs : reads (dec_take (zlen bs)) bs bs.
Proof.
  intros pre post Hlen. unfold dec_take, mbind, SE_bind, get_self, lift, set_self, mret, SE_ret. cbn [d_input d_cursor].
  rewrite !zlen_app in Hlen.
  assert (0 <= zlen post) by (unfold zlen; lia). rewrite checked_add_fits by lia. cbn [ok_or].
  rewrite (proj2 (Z.leb_le _ _)) by (rewrite !zlen_app; lia).
  replace (Z.to_nat (zlen pre)) with (length pre) by (unfold zlen; lia). rewrite drop_app_length.
  replace (Z.to_nat (zlen bs)) with (length bs) by (unfold zlen; lia). by rewrite take_app_length.
Qed.

(** The first byte of a head splits into major type and additional information. *)
Lemma head_split major x : 0 <= major <= 7 -> 0 <= x <= 31 ->
  Z.shiftr (Z.lor (Z.shiftl major 5) x) 5 = major /\ Z.land (Z.lor (Z.shiftl major 5) x) 31 = x.
Proof.
  intros Hm Hx.
  assert (Hall : forallb (fun m => forallb (fun y =>
    (Z.shiftr (Z.lor (Z.shiftl (Z.of_nat m) 5) (Z.of_nat y)) 5 =? Z.of_nat m)
    && (Z.land (Z.lor (Z.shiftl (Z.of_nat m) 5) (Z.of_nat y)) 31 =? Z.of_nat y)) (seq 0 32)) (seq 0 8) = true) by (vm_compute; reflexivity).
  rewrite forallb_forall in Hall. specialize (Hall (Z.to_nat major)). rewrite forallb_forall in Hall.
  specialize (Hall ltac:(apply in_seq; lia) (Z.to_nat x) ltac:(apply in_seq; lia)). rewrite !Z2Nat.id in Hall by lia.
  bprop. done.
Qed.

Lemma be_bytes_zlen n v : zlen (be_bytes n v) = Z.of_nat n.
Proof. unfold zlen, be_bytes. by rewrite length_rev, le_bytes_length. Qed.

Lemma of_be_bytes_be_bytes n v : 0 <= v < 256 ^ Z.of_nat n -> of_be_bytes (be_bytes n v) = v.
Proof. intros Hv. unfold of_be_bytes, be_bytes. rewrite rev_involutive. by apply of_le_bytes_le_bytes. Qed.

Lemma reads_wide n min v : 0 <= v < 256 ^ Z.of_nat n -> min < v -> reads (dec_wide (Z.of_nat n) min) (be_bytes n v) v.
Proof.
  intros Hv Hmin. unfold dec_wide. eapply reads_last; [rewrite <- (be_bytes_zlen n v); apply reads_take|].
  rewrite of_be_bytes_be_bytes by done. apply reads_then; [|apply reads_ret]. apply reads_lift.
  by rewrite (proj2 (Z.leb_gt _ _)) by lia.
Qed.

Lemma reads_head major v : 0 <= major <= 7 -> in_u64 v -> reads dec_head (enc_head major v) (major, v).
Proof.
  intros Hm [Hv0 Hv]. unfold u64_max in Hv.
  assert (Hhead : forall x rest, 0 <= x <= 31 ->
    reads (if x <=? 23 then mret x
           else if x =? 24 then value ← dec_byte; _ ← lift (fail_if (value <? 24) NonMinimalEncoding); mret value
           else if x =? 25 then dec_wide 2 255 else if x =? 26 then dec_wide 4 65535
           else if x =? 27 then dec_wide 8 4294967295 else lift (Err ForbiddenAdditionalInfo)) rest v ->
    reads dec_head (Z.lor (Z.shiftl major 5) x :: rest) (major, v)).
  { intros x rest Hx Hr. unfold dec_head. change (?b :: rest) with ([b] ++ rest). eapply reads_bind; [apply reads_byte|].
    destruct (head_split major x Hm Hx) as [-> ->]. eapply reads_last; [exact Hr|apply reads_ret]. }
  unfold enc_head. destruct (v <=? 23) eqn:E1; [|destruct (v <=? 255) eqn:E2; [|destruct (v <=? 65535) eqn:E3; [|destruct (v <=? 4294967295) eqn:E4]]];
    bprop; apply Hhead; try lia; cbn [Z.leb Z.eqb Z.compare Pos.compare Pos.compare_cont Pos.eqb].
  - rewrite (proj2 (Z.leb_le v 23)) by lia. apply reads_ret.
  - eapply reads_last; [apply reads_byte|]. apply reads_then; [|apply reads_ret]. apply reads_lift.
    by rewrite (proj2 (Z.ltb_ge _ _)) by lia.
  - apply (reads_wide 2); [cbn; lia|lia].
  - apply (reads_wide 4); [cbn; lia|lia].
  - apply (reads_wide 8); [cbn; lia|lia].
Qed.

Lemma reads_typed major v : 0 <= major <= 7 -> in_u64 v -> reads (dec_typed major) (enc_head major v) v.
Proof.
  intros Hm Hv. unfold dec_typed. eapply reads_last; [by apply reads_head|]. apply reads_then; [|apply reads_ret].
  apply reads_lift. by rewrite Z.eqb_refl.
Qed.

Lemma reads_len major v : 0 <= major <= 7 -> in_u64 v -> reads (dec_len major) (enc_head major v) v.
Proof.
  intros Hm Hv. unfold dec_len. eapply reads_last; [by apply reads_typed|]. apply reads_lift. unfold try_from.
  by rewrite (proj2 (Z.leb_le _ _)) by apply Hv.
Qed.

Lemma reads_uint v : in_u64 v -> reads dec_uint (enc_uint v) v.
Proof. apply reads_typed. lia. Qed.

Lemma reads_array n : in_u64 n -> reads (dec_array n) (enc_array n) ().
Proof. intros Hn. unfold dec_array. eapply reads_last; [apply reads_len; [lia|done]|]. apply reads_lift. by rewrite Z.eqb_refl. Qed.

(** A length of something that fits in an input. *)
Lemma reads_sized {E A} (m : SE Decoder E A) bs a : (zlen bs <= u64_max -> reads m bs a) -> reads m bs a.
Proof.
  intros Hr pre post Hlen. apply Hr; [|done]. rewrite !zlen_app in Hlen.
  assert (0 <= zlen pre /\ 0 <= zlen post) by (unfold zlen; lia). lia.
Qed.

Lemma reads_lengthed major bs : 0 <= major <= 7 ->
  reads (len ← dec_len major; dec_take len) (enc_head major (zlen bs) ++ bs) bs.
Proof.
  intros Hm. apply reads_sized. rewrite zlen_app. intros Hlen.
  eapply reads_bind; [apply reads_len; [done|]|apply reads_take].
  assert (0 <= zlen (enc_head major (zlen bs)) /\ 0 <= zlen bs) by (unfold zlen; lia). split; lia.
Qed.

Lemma reads_bytes bs : reads dec_bytes (enc_bytes bs) bs.
Proof. apply reads_lengthed. lia. Qed.

Lemma reads_bytes_exact n bs : zlen bs = n -> reads (dec_bytes_exact n) (enc_bytes bs) bs.
Proof.
  intros <-. eapply reads_last; [apply reads_bytes|]. apply reads_then; [|apply reads_ret].
  apply reads_lift. by rewrite Z.eqb_refl.
Qed.

Lemma reads_text s : utf8_valid s = true -> reads dec_text (enc_text s) s.
Proof.
  intros Hs. apply reads_sized. unfold enc_text. rewrite zlen_app. intros Hlen.
  eapply reads_bind; [apply reads_len; [lia|]|eapply reads_last; [apply reads_take|]].
  - assert (0 <= zlen (enc_head 3 (zlen s)) /\ 0 <= zlen s) by (unfold zlen; lia). split; lia.
  - apply reads_then; [|apply reads_ret]. apply reads_lift. by rewrite Hs.
Qed.

Lemma reads_bool b : reads dec_bool (enc_bool b) b.
Proof. eapply reads_last; [apply reads_byte|]. destruct b; apply reads_ret. Qed.

(** The byte under the cursor is the first of the encoding. *)
Lemma cursor_at pre (b : Z) rest post : (pre ++ (b :: rest) ++ post) !! Z.to_nat (zlen pre) = Some b.
Proof.
  replace (Z.to_nat (zlen pre)) with (length pre) by (unfold zlen; lia). by rewrite lookup_app_r, Nat.sub_diag by lia.
Qed.

Lemma reads_option_digest o : (forall d, o = Some d -> zlen d = 32) -> reads dec_option_digest (encode_option_digest o) o.
Proof.
  intros Ho. destruct o as [d|].
  - intros pre post Hlen. unfold dec_option_digest, encode_option_digest in *. unfold mbind at 1, SE_bind at 1, get_self at 1.
    cbn [d_input d_cursor]. specialize (Ho d eq_refl).
    assert (Hat : (pre ++ enc_bytes d ++ post) !! Z.to_nat (zlen pre) = Some 88)
      by (unfold enc_bytes; rewrite Ho; apply cursor_at).
    rewrite Hat.
    rewrite bool_decide_eq_false_2 by done. eapply reads_last; [by apply reads_bytes_exact|apply reads_ret|done].
  - intros pre post Hlen. unfold dec_option_digest, encode_option_digest, enc_null, mbind, SE_bind, get_self, set_self, mret, SE_ret.
    cbn [d_input d_cursor]. rewrite cursor_at. rewrite bool_decide_eq_true_2 by done. done.
Qed.

(** ** Collections *)

Lemma reads_many {A} (item : DecM A) (enc : A -> list Z) xs fuel :
  Forall (fun x => reads item (enc x) x) xs -> (length xs <= fuel)%nat ->
  reads (dec_many fuel item (zlen xs)) (mjoin (enc <$> xs)) xs.
Proof.
  intros Hxs. revert fuel. induction Hxs as [|x xs Hx _ IH]; intros fuel Hf.
  - destruct fuel; apply reads_ret.
  - destruct fuel as [|fuel]; [cbn in Hf; lia|]. cbn [dec_many fmap list_fmap mjoin list_join length] in *.
    rewrite (proj2 (Z.leb_gt _ _)) by (unfold zlen; cbn; lia).
    replace (zlen (x :: xs) - 1) with (zlen xs) by (unfold zlen; cbn; lia).
    eapply reads_bind; [exact Hx|]. eapply reads_last; [apply IH; lia|apply reads_ret].
Qed.

Lemma enc_head_nonempty major v rest : enc_head major v ++ rest <> [].
Proof. unfold enc_head. repeat case_match; done. Qed.

Lemma length_mjoin_ge {A} (enc : A -> list Z) xs : (forall x, enc x <> []) -> (length xs <= length (mjoin (enc <$> xs)))%nat.
Proof.
  intros He. induction xs as [|x xs IH]; [done|]. rewrite fmap_cons.
  change (mjoin (enc x :: (enc <$> xs))) with (enc x ++ mjoin (enc <$> xs)). rewrite length_app. specialize (He x).
  destruct (enc x) as [|b l]; [done|]. cbn [length]. lia.
Qed.

Lemma reads_items {A} (item : DecM A) (enc : A -> list Z) xs :
  (forall x, enc x <> []) -> Forall (fun x => reads item (enc x) x) xs ->
  reads (dec_items item) (encode_values enc xs) xs.
Proof.
  intros He Hxs. pose proof (length_mjoin_ge enc xs He) as Hlong. apply reads_sized. unfold encode_values. rewrite zlen_app. intros Hlen.
  assert (0 <= zlen (enc_array (zlen xs)) /\ 0 <= zlen xs <= zlen (mjoin (enc <$> xs))) as [? ?] by (unfold zlen in *; lia).
  eapply reads_bind; [apply reads_len; [lia|split; lia]|]. intros pre post Hin.
  unfold mbind, SE_bind, get_self. cbn [d_input]. apply reads_many; [done| |done].
  rewrite !length_app. lia.
Qed.

(** ** Typed values

    What Rust's types say of a field: keys and digests are 32 bytes, integers fit
    their width and strings are UTF-8. *)

Definition digest32 (d : list Z) : Prop := zlen d = 32.
Definition optional32 (o : option (list Z)) : Prop := forall d, o = Some d -> digest32 d.
Definition in_u16 (z : Z) : Prop := 0 <= z <= u16_max.
Definition utf8 (s : bstring) : Prop := utf8_valid s = true.

Record typed_ref (r : ObjectRefV1) : Prop := {
  tr_key : digest32 (r_key r); tr_version : in_u64 (r_version r) }.
Record typed_share (s : ClaimShareV1) : Prop := {
  ts_key : digest32 (sh_contributor s); ts_bps : in_u16 (sh_bps s) }.
Record typed_work (w : ContributorWorkV1) : Prop := {
  tw_key : digest32 (cw_contributor w); tw_units : in_u64 (cw_accepted_work_units w); tw_hash : digest32 (cw_contribution_hash w) }.

Record typed_match (m : MatchEvidenceCommitmentV1) : Prop := {
  tm_commitment : digest32 (me_commitment_id m); tm_match : digest32 (me_match_id m);
  tm_challenge : digest32 (me_challenge_id m); tm_event : digest32 (me_event_root m);
  tm_roster : digest32 (me_roster_root m); tm_ruleset : digest32 (me_ruleset_hash m);
  tm_dataset : digest32 (me_dataset_hash m); tm_archive : digest32 (me_archive_hash m);
  tm_count : in_u64 (me_event_count m); tm_completed : in_u64 (me_completed_at_unix_s m) }.
Record typed_evaluation (e : EvaluationCommitmentV1) : Prop := {
  te_id : digest32 (ev_evaluation_id e); te_ref : typed_ref (ev_match_evidence_ref e);
  te_submission : digest32 (ev_submission_hash e); te_rubric : digest32 (ev_rubric_hash e);
  te_evaluation : digest32 (ev_evaluation_hash e); te_reproduction : optional32 (ev_reproduction_hash e);
  te_score : in_u16 (ev_score_bps e); te_completed : in_u64 (ev_completed_at_unix_s e) }.
Record typed_receipt (r : IssueWorkloadReceiptV1) : Prop := {
  trc_id : digest32 (wr_receipt_id r); trc_ref : typed_ref (wr_evaluation_ref r);
  trc_contributors : Forall typed_work (wr_contributors r); trc_total : in_u64 (wr_total_accepted_work_units r);
  trc_policy : digest32 (wr_policy_hash r); trc_issued : in_u64 (wr_issued_at_unix_s r) }.
Record typed_claim (c : CreateResearchClaimV1) : Prop := {
  tc_id : digest32 (cl_claim_id c); tc_ref : typed_ref (cl_workload_receipt_ref c);
  tc_evidence : Forall typed_ref (cl_evidence_refs c); tc_artifact : digest32 (cl_artifact_hash c);
  tc_scope : digest32 (cl_claim_scope_hash c); tc_claimants : Forall typed_share (cl_claimants c);
  tc_created : in_u64 (cl_created_at_unix_s c) }.
Record typed_license (l : DeclareLicenseV1) : Prop := {
  tl_id : digest32 (li_declaration_id l); tl_ref : typed_ref (li_claim_ref l); tl_licensor : digest32 (li_licensor l);
  tl_spdx : utf8 (li_spdx_expression l); tl_terms : optional32 (li_additional_terms_hash l);
  tl_effective : in_u64 (li_effective_at_unix_s l) }.
Record typed_challenge (c : ChallengeResearchClaimV1) : Prop := {
  tch_id : digest32 (ch_challenge_id c); tch_ref : typed_ref (ch_claim_ref c); tch_challenger : digest32 (ch_challenger c);
  tch_evidence : digest32 (ch_evidence_hash c); tch_opened : in_u64 (ch_opened_at_unix_s c) }.
Record typed_resolution (r : ClaimResolutionV1) : Prop := {
  tre_id : digest32 (re_resolution_id r); tre_ref : typed_ref (re_challenge_ref r);
  tre_hash : digest32 (re_resolution_hash r); tre_claimants : Forall typed_share (re_amended_claimants r);
  tre_decided : in_u64 (re_decided_at_unix_s r) }.

Definition typed_command (c : ResearchCommandV1) : Prop :=
  match c with
  | CMatchEvidence p => typed_match p
  | CEvaluation p => typed_evaluation p
  | CIssueWorkload p => typed_receipt p
  | CCreateClaim p => typed_claim p
  | CDeclareLicense p => typed_license p
  | CChallengeClaim p => typed_challenge p
  | CResolveClaim p => typed_resolution p
  end.

Record typed_signed (s : SignedResearchCommandV1) : Prop := {
  tsc_chain : utf8 (s_chain_id s); tsc_id : digest32 (s_command_id s); tsc_did : utf8 (s_signer_did s);
  tsc_nonce : in_u64 (s_nonce s); tsc_key : digest32 (s_public_key s); tsc_command : typed_command (s_command s) }.

(** ** Every decoder reads its encoder *)

Create HintDb reads discriminated.
#[export] Hint Resolve reads_uint reads_bytes reads_text reads_bool reads_ret : reads.

(** Read the fields in order. *)
Ltac read_fields :=
  repeat (first
    [ eapply reads_bind; [solve [eauto with reads]|]
    | eapply reads_last; [solve [eauto with reads]|] ]; cbv beta).

Lemma in_u64_small z : 0 <= z <= 1024 -> in_u64 z.
Proof. unfold in_u64, u64_max. lia. Qed.
Lemma in_u16_u64 z : in_u16 z -> in_u64 z.
Proof. unfold in_u16, u16_max, in_u64, u64_max. lia. Qed.

Lemma reads_small_array n : 0 <= n <= 1024 -> reads (dec_array n) (enc_array n) ().
Proof. intros Hn. by apply reads_array, in_u64_small. Qed.
#[export] Hint Extern 1 (reads (dec_array _) (enc_array _) _) => apply reads_small_array; lia : reads.

Lemma reads_version : reads decode_version (enc_uint PROTOCOL_VERSION) ().
Proof. eapply reads_last; [by apply reads_uint, in_u64_small|]. by apply reads_lift. Qed.

Lemma reads_tag {A} name table (tag : A -> Z) a :
  0 <= tag a <= 1024 -> table (tag a) = Some a -> reads (decode_tag name table) (enc_uint (tag a)) a.
Proof. intros Ht Ha. eapply reads_last; [by apply reads_uint, in_u64_small|]. apply reads_lift. by rewrite Ha. Qed.

Lemma reads_digest d : digest32 d -> reads (dec_bytes_exact 32) (enc_bytes d) d.
Proof. apply reads_bytes_exact. Qed.
Lemma reads_key d : digest32 d -> reads decode_external_key (encode_key d) d.
Proof. apply reads_bytes_exact. Qed.
Lemma reads_optional o : optional32 o -> reads dec_option_digest (encode_option_digest o) o.
Proof. apply reads_option_digest. Qed.
Lemma reads_bps name f v : in_u16 v -> reads (decode_bps name f) (enc_uint v) v.
Proof.
  intros Hv. eapply reads_last; [by apply reads_uint, in_u16_u64|]. apply reads_lift. unfold try_from.
  by rewrite (proj2 (Z.leb_le _ _)) by apply Hv.
Qed.
#[export] Hint Resolve reads_version reads_digest reads_key reads_optional reads_bps : reads.

Lemma reads_kind k : reads decode_kind (enc_uint (kind_tag k)) k.
Proof. apply (reads_tag _ _ kind_tag); destruct k; cbn; [lia..|done| | | | | |]; done. Qed.
Lemma reads_role r : reads decode_role (enc_uint (role_tag r)) r.
Proof. apply (reads_tag _ _ role_tag); destruct r; cbn; done || lia. Qed.
Lemma reads_scope s : reads decode_license_scope (enc_uint (scope_tag s)) s.
Proof. apply (reads_tag _ _ scope_tag); destruct s; cbn; done || lia. Qed.
Lemma reads_reason r : reads decode_challenge_reason (enc_uint (reason_tag r)) r.
Proof. apply (reads_tag _ _ reason_tag); destruct r; cbn; done || lia. Qed.
Lemma reads_decision d : reads decode_resolution_decision (enc_uint (decision_tag d)) d.
Proof. apply (reads_tag _ _ decision_tag); destruct d; cbn; done || lia. Qed.
Lemma reads_authority r : reads decode_authority_role (enc_uint (authority_tag r)) r.
Proof. apply (reads_tag _ _ authority_tag); destruct r; cbn; done || lia. Qed.
#[export] Hint Resolve reads_kind reads_role reads_scope reads_reason reads_decision reads_authority : reads.

Lemma reads_ref r : typed_ref r -> reads decode_object_ref (encode_ref r) r.
Proof. intros [? ?]. unfold decode_object_ref, encode_ref. read_fields; destruct r; apply reads_ret. Qed.
Lemma reads_share s : typed_share s -> reads decode_claim_share (encode_share s) s.
Proof. intros [? ?]. unfold decode_claim_share, encode_share. read_fields; destruct s; apply reads_ret. Qed.
Lemma reads_work w : typed_work w -> reads decode_contribution (encode_work w) w.
Proof. intros [? ? ?]. unfold decode_contribution, encode_work. read_fields; destruct w; apply reads_ret. Qed.
#[export] Hint Resolve reads_ref : reads.

Lemma reads_refs l : Forall typed_ref l -> reads (dec_items decode_object_ref) (encode_values encode_ref l) l.
Proof. intros Hl. apply reads_items; [intros; apply enc_head_nonempty|]. eapply Forall_impl; [exact Hl|apply reads_ref]. Qed.
Lemma reads_shares l : Forall typed_share l -> reads (dec_items decode_claim_share) (encode_values encode_share l) l.
Proof. intros Hl. apply reads_items; [intros; apply enc_head_nonempty|]. eapply Forall_impl; [exact Hl|apply reads_share]. Qed.
Lemma reads_works l : Forall typed_work l -> reads (dec_items decode_contribution) (encode_values encode_work l) l.
Proof. intros Hl. apply reads_items; [intros; apply enc_head_nonempty|]. eapply Forall_impl; [exact Hl|apply reads_work]. Qed.
#[export] Hint Resolve reads_refs reads_shares reads_works : reads.

Lemma reads_match p : typed_match p -> reads decode_match (encode_match p) p.
Proof. intros []. unfold decode_match, encode_match. read_fields; destruct p; apply reads_ret. Qed.
Lemma reads_evaluation p : typed_evaluation p -> reads decode_evaluation (encode_evaluation p) p.
Proof. intros []. unfold decode_evaluation, encode_evaluation. read_fields; destruct p; apply reads_ret. Qed.
Lemma reads_receipt p : typed_receipt p -> reads decode_workload (encode_receipt p) p.
Proof. intros []. unfold decode_workload, encode_receipt. read_fields; destruct p; apply reads_ret. Qed.
Lemma reads_claim p : typed_claim p -> reads decode_claim (encode_claim p) p.
Proof. intros []. unfold decode_claim, encode_claim. read_fields; destruct p; apply reads_ret. Qed.
Lemma reads_license p : typed_license p -> reads decode_license (encode_license p) p.
Proof. intros []. unfold decode_license, encode_license. read_fields; destruct p; apply reads_ret. Qed.
Lemma reads_challenge p : typed_challenge p -> reads decode_challenge (encode_challenge p) p.
Proof. intros []. unfold decode_challenge, encode_challenge. read_fields; destruct p; apply reads_ret. Qed.
Lemma reads_resolution p : typed_resolution p -> reads decode_resolution (encode_resolution p) p.
Proof. intros []. unfold decode_resolution, encode_resolution. read_fields; destruct p; apply reads_ret. Qed.
#[export] Hint Resolve reads_match reads_evaluation reads_receipt reads_claim reads_license reads_challenge reads_resolution : reads.

Lemma reads_small n : 0 <= n <= 1024 -> reads dec_uint (enc_uint n) n.
Proof. intros Hn. by apply reads_uint, in_u64_small. Qed.

Lemma reads_command c : typed_command c -> reads decode_command (encode_command c) c.
Proof.
  intros Hc. unfold decode_command, encode_command. do 2 (eapply reads_bind; [solve [eauto with reads]|]).
  destruct c; (eapply reads_bind; [apply reads_small; lia|]); cbv beta iota; cbn in Hc; read_fields; apply reads_ret.
Qed.
