(* ===== verification/ResearchDecode.v ===== *)
(** * ResearchDecode: what the strict decoders return is typed

    On an input of bytes every decoder either fails with an error of its own or
    yields a value of its type; with [ResearchCodec] this makes the two
    [from_canonical_bytes] decide exactly the canonical encodings of valid values. *)

From stdpp Require Import base gmap list sorting strings.
From S2P Require Import Prelude Crypto ResearchCbor ResearchTypes ResearchCommand ResearchCodec.

Definition yields {E A} (m : SE Decoder E A) (P : A -> Prop) : Prop :=
  forall d, Forall is_byte (d_input d) ->
    match m d with
    | (Ok a, d') => P a /\ d_input d' = d_input d
    | (Err _, _) => True
    | (Panic, _) => False
    end.

(** ** Combinators *)

Lemma yields_bind {E A B} (m : SE Decoder E A) (f : A -> SE Decoder E B) P Q :
  yields m P -> (forall a, P a -> yields (f a) Q) -> yields (mbind f m) Q.
Proof.
  intros Hm Hf d Hd. unfold mbind, SE_bind. specialize (Hm d Hd). destruct (m d) as [[a|e|] d']; [|done..].
  destruct Hm as [Ha Hi]. rewrite <- Hi in Hd. specialize (Hf a Ha d' Hd). by rewrite Hi in Hf.
Qed.

Lemma yields_ret {E A} (a : A) P : P a -> yields (E:=E) (mret a) P.
Proof. intros Ha d _. done. Qed.

Lemma yields_lift {E A} (r : result E A) P : r <> Panic -> (forall a, r = Ok a -> P a) -> yields (lift r) P.
Proof. intros Hr Ha d _. unfold lift. destruct r; [auto|done|done]. Qed.

Lemma yields_fail_if {E} b (e : E) (P : () -> Prop) : (b = false -> P tt) -> yields (lift (fail_if b e)) P.
Proof. intros Hb. apply yields_lift; unfold fail_if; destruct b; [done|done|done|]. intros [] _. auto. Qed.

Lemma yields_ok_or {E A} (o : option A) (e : E) P : (forall a, o = Some a -> P a) -> yields (lift (ok_or o e)) P.
Proof. intros Ha. apply yields_lift; destruct o; cbn; [done|done| |done]. intros b [= <-]. auto. Qed.

Lemma yields_impl {E A} (m : SE Decoder E A) (P Q : A -> Prop) : yields m P -> (forall a, P a -> Q a) -> yields m Q.
Proof. intros Hm HPQ d Hd. specialize (Hm d Hd). destruct (m d) as [[a|e|] d']; [|done..]. destruct Hm. auto. Qed.

(** Only the value read decides the result of a field that is not kept. *)
Lemma yields_any {E A} (m : SE Decoder E A) P : yields m P -> yields m (fun _ => True).
Proof. intros Hm. by eapply yields_impl. Qed.

(** ** Heads *)

Lemma yields_byte : yields dec_byte is_byte.
Proof.
  intros d Hd. unfold dec_byte, mbind, SE_bind, get_self, lift, set_self, mret, SE_ret.
  destruct (d_input d !! Z.to_nat (d_cursor d)) as [b|] eqn:E; cbn [ok_or]; [|done].
  split; [|done]. eapply Forall_lookup_1; [exact Hd|exact E].
Qed.

Lemma yields_take n : yields (dec_take n) (fun bs => Forall is_byte bs /\ (length bs <= Z.to_nat n)%nat).
Proof.
  intros d Hd. unfold dec_take, mbind, SE_bind, get_self, lift, set_self, mret, SE_ret.
  destruct (checked_add u64_max (d_cursor d) n) as [e|]; cbn [ok_or]; [|done].
  destruct (e <=? zlen (d_input d)); [|done]. split; [|done].
  split; [by apply Forall_take, Forall_drop|]. rewrite length_take. lia.
Qed.

Lemma of_be_bytes_bound l n : Forall is_byte l -> (length l <= n)%nat -> 0 <= of_be_bytes l < 256 ^ Z.of_nat n.
Proof.
  intros Hl Hn. unfold of_be_bytes. pose proof (of_le_bytes_bound (rev l)) as Hb. rewrite length_rev in Hb.
  assert (Forall is_byte (rev l)) as Hr by (by apply List.Forall_rev). specialize (Hb Hr).
  assert (256 ^ Z.of_nat (length l) <= 256 ^ Z.of_nat n) by (apply Z.pow_le_mono_r; lia). lia.
Qed.

Lemma yields_wide n min : (n <= 8)%nat -> yields (dec_wide (Z.of_nat n) min) in_u64.
Proof.
  intros Hn. eapply yields_bind; [apply yields_take|]. intros bs [Hb Hl]. rewrite Nat2Z.id in Hl.
  pose proof (of_be_bytes_bound bs 8 Hb ltac:(lia)) as B. change (256 ^ Z.of_nat 8) with 18446744073709551616 in B.
  eapply yields_bind; [by apply (yields_fail_if _ _ (fun _ => True))|]. intros _ _. apply yields_ret.
  unfold in_u64, u64_max. lia.
Qed.

Lemma yields_head : yields dec_head (fun p => in_u64 p.2).
Proof.
  eapply yields_bind; [apply yields_byte|]. intros b Hb. cbv zeta. eapply (yields_bind _ _ in_u64); [|intros v Hv; by apply yields_ret].
  assert (0 <= Z.land b 31 < 2 ^ 5) by (change 31 with (Z.ones 5); rewrite Z.land_ones by lia; apply Z.mod_pos_bound; lia).
  destruct (Z.land b 31 <=? 23) eqn:E. { bprop. apply yields_ret, in_u64_small. lia. }
  destruct (Z.land b 31 =? 24).
  { eapply yields_bind; [apply yields_byte|]. intros v Hv. eapply yields_bind; [by apply (yields_fail_if _ _ (fun _ => True))|].
    intros _ _. apply yields_ret, in_u64_small. unfold is_byte, u8_max in Hv. lia. }
  destruct (Z.land b 31 =? 25); [apply (yields_wide 2); lia|].
  destruct (Z.land b 31 =? 26); [apply (yields_wide 4); lia|].
  destruct (Z.land b 31 =? 27); [apply (yields_wide 8); lia|]. by apply yields_lift.
Qed.

Lemma yields_typed n : yields (dec_typed n) in_u64.
Proof.
  eapply yields_bind; [apply yields_head|]. intros [mj v] Hv.
  eapply yields_bind; [by apply (yields_fail_if _ _ (fun _ => True))|]. intros _ _. by apply yields_ret.
Qed.

Lemma yields_len n : yields (dec_len n) in_u64.
Proof.
  eapply yields_bind; [apply yields_typed|]. intros v Hv. apply yields_ok_or. unfold try_from. intros a Ha.
  destruct (v <=? u64_max); by simplify_eq.
Qed.

Lemma yields_array n : yields (dec_array n) (fun _ => True).
Proof. eapply yields_bind; [apply yields_len|]. intros. by apply yields_fail_if. Qed.

Lemma yields_bytes : yields dec_bytes (fun _ => True).
Proof. eapply yields_bind; [apply yields_len|]. intros. eapply yields_any, yields_take. Qed.

Lemma yields_digest : yields (dec_bytes_exact 32) digest32.
Proof.
  eapply yields_bind; [apply yields_bytes|]. intros bs _.
  eapply (yields_bind _ _ (fun _ => zlen bs = 32)); [apply yields_fail_if; intros; by bprop|]. intros _ Hb. by apply yields_ret.
Qed.

Lemma yields_text : yields dec_text utf8.
Proof.
  eapply yields_bind; [apply yields_len|]. intros n _. eapply yields_bind; [apply yields_take|]. intros bs _.
  eapply (yields_bind _ _ (fun _ => utf8 bs)); [apply yields_fail_if; intros; by bprop|]. intros _ Hb. by apply yields_ret.
Qed.

Lemma yields_bool : yields dec_bool (fun _ => True).
Proof. eapply yields_bind; [apply yields_byte|]. intros b _. repeat case_match; [by apply yields_ret..|by apply yields_lift]. Qed.

Lemma yields_optional : yields dec_option_digest optional32.
Proof.
  intros d Hd. unfold dec_option_digest. unfold mbind at 1, SE_bind at 1, get_self. destruct (bool_decide (d_input d !! Z.to_nat (d_cursor d) = Some 246)).
  - unfold mbind, SE_bind, set_self, mret, SE_ret. by split.
  - assert (yields (bytes ← dec_bytes_exact 32; mret (Some bytes)) optional32) as Hy.
    { eapply yields_bind; [apply yields_digest|]. intros bs Hb. apply yields_ret. intros x [= <-]. done. }
    by apply Hy.
Qed.

Lemma yields_tag {A} name (table : Z -> option A) : yields (decode_tag name table) (fun _ => True).
Proof. eapply yields_bind; [apply yields_typed|]. intros. by apply yields_ok_or. Qed.

Lemma yields_version : yields decode_version (fun _ => True).
Proof. eapply yields_bind; [apply yields_typed|]. intros. by apply yields_fail_if. Qed.

Lemma yields_bps name f : yields (decode_bps name f) in_u16.
Proof.
  eapply yields_bind; [apply yields_typed|]. intros v Hv. apply yields_ok_or. unfold try_from. intros a Ha.
  destruct (v <=? u16_max) eqn:E; simplify_eq. bprop. destruct Hv. split; lia.
Qed.

Lemma yields_many {A} fuel (item : DecM A) n P : yields item P -> yields (dec_many fuel item n) (Forall P).
Proof.
  intros Hi. revert n. induction fuel as [|fuel IH]; intros n; cbn [dec_many]; (destruct (n <=? 0); [by apply yields_ret|]).
  - by apply yields_lift.
  - eapply yields_bind; [exact Hi|]. intros x Hx. eapply yields_bind; [apply IH|]. intros xs Hxs. apply yields_ret. by constructor.
Qed.

Lemma yields_items {A} (item : DecM A) P : yields item P -> yields (dec_items item) (Forall P).
Proof.
  intros Hi. eapply yields_bind; [apply yields_len|]. intros n _ d Hd. unfold mbind, SE_bind, get_self. by apply yields_many.
Qed.

(** ** Payloads *)

Create HintDb yields discriminated.
#[export] Hint Resolve yields_array yields_version yields_digest yields_text yields_bool yields_optional yields_bps yields_bytes : yields.
#[export] Hint Extern 1 (yields dec_uint _) => apply yields_typed : yields.
#[export] Hint Extern 1 (yields decode_external_key _) => apply yields_digest : yields.
#[export] Hint Extern 1 (yields (decode_tag _ _) _) => apply yields_tag : yields.

Ltac yield_fields :=
  repeat (eapply yields_bind; [solve [eauto with yields]|]; intros ? ?; cbv beta in *); apply yields_ret; constructor; cbn; assumption.

Lemma yields_kind : yields decode_kind (fun _ => True).
Proof. apply yields_tag. Qed.
Lemma yields_role : yields decode_role (fun _ => True).
Proof. apply yields_tag. Qed.
Lemma yields_scope : yields decode_license_scope (fun _ => True).
Proof. apply yields_tag. Qed.
Lemma yields_reason : yields decode_challenge_reason (fun _ => True).
Proof. apply yields_tag. Qed.
Lemma yields_decision : yields decode_resolution_decision (fun _ => True).
Proof. apply yields_tag. Qed.
Lemma yields_authority : yields decode_authority_role (fun _ => True).
Proof. apply yields_tag. Qed.
#[export] Hint Resolve yields_kind yields_role yields_scope yields_reason yields_decision yields_authority : yields.

Lemma yields_ref : yields decode_object_ref typed_ref.
Proof. unfold decode_object_ref. yield_fields. Qed.
Lemma yields_share : yields decode_claim_share typed_share.
Proof. unfold decode_claim_share. yield_fields. Qed.
Lemma yields_work : yields decode_contribution typed_work.
Proof. unfold decode_contribution. yield_fields. Qed.
#[export] Hint Resolve yields_ref yields_share yields_work yields_items : yields.

Lemma yields_match : yields decode_match typed_match.
Proof. unfold decode_match. yield_fields. Qed.
Lemma yields_evaluation : yields decode_evaluation typed_evaluation.
Proof. unfold decode_evaluation. yield_fields. Qed.
Lemma yields_receipt : yields decode_workload typed_receipt.
Proof. unfold decode_workload. yield_fields. Qed.
Lemma yields_claim : yields decode_claim typed_claim.
Proof. unfold decode_claim. yield_fields. Qed.
Lemma yields_license : yields decode_license typed_license.
Proof. unfold decode_license. yield_fields. Qed.
Lemma yields_challenge : yields decode_challenge typed_challenge.
Proof. unfold decode_challenge. yield_fields. Qed.
Lemma yields_resolution : yields decode_resolution typed_resolution.
Proof. unfold decode_resolution. yield_fields. Qed.

Lemma yields_wrap {A B} (m : DecM A) (c : A -> B) P Q : yields m P -> (forall a, P a -> Q (c a)) -> yields (p ← m; mret (c p)) Q.
Proof. intros Hm HQ. eapply yields_bind; [exact Hm|]. intros a Ha. apply yields_ret. auto. Qed.

Lemma yields_command : yields decode_command typed_command.
Proof.
  unfold decode_command. do 2 (eapply yields_bind; [solve [eauto with yields]|]; intros _ _).
  eapply yields_bind; [apply yields_typed|]. intros tag _.
  destruct tag as [|[[[|[]|]|[|[]|]|]|[[|[]|]|[|[]|]|]|]|]; first
    [ by apply yields_lift
    | eapply yields_wrap; [first [apply yields_match|apply yields_evaluation|apply yields_receipt|apply yields_claim
        |apply yields_license|apply yields_challenge|apply yields_resolution]|done] ].
Qed.

(** ** The signed envelope *)

Lemma reads_decoding {A} (m : DecM A) bs a : reads m bs a -> reads (decoding m) bs a.
Proof. intros Hm pre post Hlen. unfold decoding. by rewrite Hm. Qed.

Lemma yields_decoding {A} (m : DecM A) P : yields m P -> yields (decoding m) P.
Proof. intros Hm d Hd. unfold decoding. specialize (Hm d Hd). by destruct (m d) as [[a|e|] d']. Qed.
#[export] Hint Resolve reads_decoding reads_command : reads.
#[export] Hint Resolve yields_decoding yields_command : yields.

Lemma reads_signed s : typed_signed s -> reads decode_signed (encode_signed s) s.
Proof.
  intros []. unfold decode_signed, encode_signed, encode_fields. rewrite <- !app_assoc.
  eapply reads_bind; [apply reads_decoding, reads_small_array; lia|].
  eapply reads_bind; [by apply reads_decoding, reads_small|]. apply reads_then; [by apply reads_lift|].
  eapply reads_bind; [by apply reads_decoding, reads_text|]. apply reads_then; [by apply reads_lift|].
  read_fields. destruct s; apply reads_ret.
Qed.

Lemma yields_signed : yields decode_signed typed_signed.
Proof.
  unfold decode_signed. do 2 (eapply yields_bind; [solve [eauto with yields]|]; intros ? ?).
  eapply yields_bind; [by apply (yields_fail_if _ _ (fun _ => True))|]. intros ? ?.
  eapply yields_bind; [solve [eauto with yields]|]. intros ? ?.
  eapply yields_bind; [by apply (yields_fail_if _ _ (fun _ => True))|]. intros ? ?.
  yield_fields.
Qed.

(** ** Strict decoding *)

(** A decoder that reads an encoding reads it as a whole input. *)
Lemma reads_whole {E A} (m : SE Decoder E A) bs a :
  reads m bs a -> zlen bs <= u64_max -> m (mkDecoder bs 0) = (Ok a, mkDecoder bs (zlen bs)).
Proof. intros Hm Hlen. specialize (Hm [] []). cbn [app] in Hm. rewrite app_nil_r in Hm. by apply Hm. Qed.

Lemma dec_finish_whole bs : dec_finish (mkDecoder bs (zlen bs)) = Ok tt.
Proof. unfold dec_finish. cbn. by rewrite Z.eqb_refl. Qed.

(** The strict command decoder accepts exactly the canonical encodings of valid
    commands. *)
Lemma command_codec_exact bs c : Forall is_byte bs -> zlen bs <= u64_max ->
  command_from_canonical_bytes bs = Ok c <->
  typed_command c /\ encode_command c = bs /\ command_validate c = Ok tt.
Proof.
  intros Hb Hlen. unfold command_from_canonical_bytes. split.
  - pose proof (yields_command (mkDecoder bs 0) Hb) as Hy.
    destruct (decode_command (mkDecoder bs 0)) as [[c'|e|] d']; cbn [map_err mbind result_bind]; [|done..].
    destruct Hy as [Ht _]. intros Hr.
    destruct (dec_finish d'); cbn [map_err mbind result_bind] in Hr; [|done..].
    rinv. bprop. subst. destruct (command_validate c) as [[]| |]; done.
  - intros (Ht & <- & Hv). rewrite (reads_whole _ _ c) by (by try apply reads_command).
    cbn [map_err mbind result_bind]. rewrite dec_finish_whole. cbn [map_err mbind result_bind].
    rewrite bool_decide_eq_true_2 by done. cbn [negb fail_if mbind result_bind]. by rewrite Hv.
Qed.

Section signed.
Context `{CryptoCrates}.

Lemma signed_codec bs s : Forall is_byte bs -> zlen bs <= u64_max ->
  signed_from_canonical_bytes bs = Ok s <->
  typed_signed s /\ encode_signed s = bs /\ validate s = Ok tt.
Proof.
  intros Hb Hlen. unfold signed_from_canonical_bytes. split.
  - pose proof (yields_signed (mkDecoder bs 0) Hb) as Hy.
    destruct (decode_signed (mkDecoder bs 0)) as [[c'|e|] d']; cbn [map_err mbind result_bind]; [|done..].
    destruct Hy as [Ht _]. intros Hr.
    destruct (dec_finish d'); cbn [map_err mbind result_bind] in Hr; [|done..].
    rinv. bprop. subst. destruct (validate s) as [[]| |]; done.
  - intros (Ht & <- & Hv). rewrite (reads_whole _ _ s) by (by try apply reads_signed).
    cbn [map_err mbind result_bind]. rewrite dec_finish_whole. cbn [map_err mbind result_bind].
    rewrite bool_decide_eq_true_2 by done. cbn [negb fail_if mbind result_bind]. by rewrite Hv.
Qed.

End signed.
