(* ===== verification/ResearchState.v ===== *)
(** * ResearchState: the research protocol's state machine

    [state.rs]: the authority set, the seven kinds of object, [apply] with one
    handler per command, object and snapshot encodings, and the reload of a
    snapshot.  A handler runs on [&mut self]: the state survives an early return.
    [BTreeMap]s are [gmap]s iterated in key order. *)

From stdpp Require Import base gmap list sorting strings.
From S2P Require Import Prelude Crypto ResearchCbor ResearchTypes ResearchCommand.

(** ** Data *)

Inductive ClaimStatus := Active | Challenged | Rejected | Amended | LicenseAmendmentRequired.
#[export] Instance ClaimStatus_eq_dec : EqDecision ClaimStatus.
Proof. solve_decision. Defined.
Definition claim_status_tag (s : ClaimStatus) : Z :=
  match s with Active => 1 | Challenged => 2 | Rejected => 3 | Amended => 4 | LicenseAmendmentRequired => 5 end.

Inductive ClaimChallengeStatus := Open | Resolved.
#[export] Instance ClaimChallengeStatus_eq_dec : EqDecision ClaimChallengeStatus.
Proof. solve_decision. Defined.
Definition challenge_status_tag (s : ClaimChallengeStatus) : Z := match s with Open => 1 | Resolved => 2 end.

Inductive ProtocolStateError :=
| InvalidCommand (e : SignedResearchCommandValidationError)
| InvalidStatePayload (e : ResearchPayloadValidationError)
| AlteredReplay (command_id : ExternalKey)
| InvalidAuthoritySet
| UnauthorizedAuthority (signer_did : bstring) (role : AuthorityRole) (public_key : list Z)
| DuplicateObject (kind : ResearchObjectKind) (key : ExternalKey)
| MissingReferencedObject (r : ObjectRefV1)
| ObjectVersionMismatch (r : ObjectRefV1) (actual : Z)
| RejectedEvaluationCannotIssueWorkload
| ClaimantWithoutAcceptedWork
| ClaimMissingWorkloadEvaluation
| LicensorIsNotClaimant
| ClaimNotLicensable (s : ClaimStatus)
| ClaimNotChallengeable (s : ClaimStatus)
| ChallengeAlreadyResolved
| ChallengeClaimStateMismatch
| TimestampRegression
| UnsupportedSnapshotVersion (v : Z)
| InvalidSnapshotGraph.
Abbreviation StateResult := (result ProtocolStateError).

(** ** Authorities *)

Record AuthorityIdentityV1 := mkIdentity { ai_signer_did : bstring; ai_public_key : list Z }.
#[export] Instance AuthorityIdentityV1_eq_dec : EqDecision AuthorityIdentityV1.
Proof. solve_decision. Defined.
(** The derived [Ord]. *)
Definition identity_order (i : AuthorityIdentityV1) : list Z * list Z := (ai_signer_did i, ai_public_key i).

Definition identity_validate (i : AuthorityIdentityV1) : StateResult () :=
  fail_if (bad_did (ai_signer_did i) || (ai_public_key i =?? ZERO32)) InvalidAuthoritySet.
Definition identity_new (signer_did : bstring) (public_key : list Z) : StateResult AuthorityIdentityV1 :=
  let identity := mkIdentity signer_did public_key in
  _ ← identity_validate identity;
  Ok identity.
Definition encode_identity (i : AuthorityIdentityV1) : list Z :=
  enc_array 3 ++ enc_uint PROTOCOL_VERSION ++ enc_text (ai_signer_did i) ++ enc_bytes (ai_public_key i).

Record AuthoritySetV1 := mkAuthorities {
  nakama_authorities : list AuthorityIdentityV1;
  hepta_authorities : list AuthorityIdentityV1;
}.

Definition check_identity (previous : option (list Z * list Z)) (i : AuthorityIdentityV1) : StateResult (option (list Z * list Z)) :=
  _ ← identity_validate i;
  _ ← fail_if (not_after previous (identity_order i)) InvalidAuthoritySet;
  Ok (Some (identity_order i)).
Definition validate_authority_bucket (identities : list AuthorityIdentityV1) : StateResult () :=
  _ ← fail_if (128 <? zlen identities) InvalidAuthoritySet;
  _ ← try_fold check_identity None identities;
  Ok tt.

Definition authorities_validate (a : AuthoritySetV1) : StateResult () :=
  _ ← validate_authority_bucket (nakama_authorities a);
  _ ← validate_authority_bucket (hepta_authorities a);
  Ok tt.
Definition authorities_new (nakama hepta : list AuthorityIdentityV1) : StateResult AuthoritySetV1 :=
  let authorities := mkAuthorities (sort_by_key identity_order nakama) (sort_by_key identity_order hepta) in
  _ ← authorities_validate authorities;
  Ok authorities.

(** [binary_search_by] of a bucket in strictly ascending order, which [validate]
    ensures: the identity is found exactly when it is in the bucket. *)
Definition authorizes (a : AuthoritySetV1) (s : SignedResearchCommandV1) : bool :=
  let bucket := match s_signer_role s with
                | NakamaAuthority => nakama_authorities a
                | HeptaAuthority => hepta_authorities a
                end in
  bool_decide (mkIdentity (s_signer_did s) (s_public_key s) ∈ bucket).

Definition encode_authorities (a : AuthoritySetV1) : list Z :=
  enc_array 3 ++ enc_uint PROTOCOL_VERSION ++ encode_values encode_identity (nakama_authorities a)
  ++ encode_values encode_identity (hepta_authorities a).

(** ** Objects *)

Record MatchEvidenceObjectV1 := mkMatchObject { mo_ref : ObjectRefV1; mo_commitment : MatchEvidenceCommitmentV1 }.
Record EvaluationCommitmentObjectV1 := mkEvaluationObject { eo_ref : ObjectRefV1; eo_commitment : EvaluationCommitmentV1 }.
Record WorkloadReceiptObjectV1 := mkReceiptObject { wo_ref : ObjectRefV1; wo_receipt : IssueWorkloadReceiptV1 }.
Record ResearchClaimObjectV1 := mkClaimObject {
  co_ref : ObjectRefV1;
  co_claim : CreateResearchClaimV1;
  co_current_claimants : list ClaimShareV1;
  co_status : ClaimStatus;
  co_active_challenge : option ExternalKey;
}.
Record LicenseDeclarationObjectV1 := mkLicenseObject { lo_ref : ObjectRefV1; lo_declaration : DeclareLicenseV1 }.
Record ClaimChallengeObjectV1 := mkChallengeObject {
  ho_ref : ObjectRefV1;
  ho_challenge : ChallengeResearchClaimV1;
  ho_status : ClaimChallengeStatus;
  ho_resolution_ref : option ObjectRefV1;
}.
Record ClaimResolutionObjectV1 := mkResolutionObject { so_ref : ObjectRefV1; so_resolution : ClaimResolutionV1 }.
Record AppliedCommandRecordV1 := mkRecord {
  ar_command_id : ExternalKey;
  ar_fingerprint : list Z;
  ar_primary_object_ref : ObjectRefV1;
}.

Definition encode_object (r : ObjectRefV1) (payload : list Z) : list Z :=
  enc_array 3 ++ enc_uint PROTOCOL_VERSION ++ encode_ref r ++ payload.
Definition encode_match_object (o : MatchEvidenceObjectV1) : list Z := encode_object (mo_ref o) (encode_match (mo_commitment o)).
Definition encode_evaluation_object (o : EvaluationCommitmentObjectV1) : list Z :=
  encode_object (eo_ref o) (encode_evaluation (eo_commitment o)).
Definition encode_receipt_object (o : WorkloadReceiptObjectV1) : list Z := encode_object (wo_ref o) (encode_receipt (wo_receipt o)).
Definition encode_claim_object (o : ResearchClaimObjectV1) : list Z :=
  enc_array 6 ++ enc_uint PROTOCOL_VERSION ++ encode_ref (co_ref o) ++ encode_claim (co_claim o)
  ++ encode_values encode_share (co_current_claimants o) ++ enc_uint (claim_status_tag (co_status o))
  ++ match co_active_challenge o with Some key => encode_key key | None => enc_null end.
Definition encode_license_object (o : LicenseDeclarationObjectV1) : list Z :=
  encode_object (lo_ref o) (encode_license (lo_declaration o)).
Definition encode_challenge_object (o : ClaimChallengeObjectV1) : list Z :=
  enc_array 5 ++ enc_uint PROTOCOL_VERSION ++ encode_ref (ho_ref o) ++ encode_challenge (ho_challenge o)
  ++ enc_uint (challenge_status_tag (ho_status o))
  ++ match ho_resolution_ref o with Some r => encode_ref r | None => enc_null end.
Definition encode_resolution_object (o : ClaimResolutionObjectV1) : list Z :=
  encode_object (so_ref o) (encode_resolution (so_resolution o)).
Definition encode_record (r : AppliedCommandRecordV1) : list Z :=
  enc_array 4 ++ enc_uint PROTOCOL_VERSION ++ encode_key (ar_command_id r) ++ enc_bytes (ar_fingerprint r)
  ++ encode_ref (ar_primary_object_ref r).

(** ** State *)

Record ResearchProtocolState := mkState {
  rs_authorities : AuthoritySetV1;
  rs_matches : gmap ExternalKey MatchEvidenceObjectV1;
  rs_evaluations : gmap ExternalKey EvaluationCommitmentObjectV1;
  rs_workload_receipts : gmap ExternalKey WorkloadReceiptObjectV1;
  rs_claims : gmap ExternalKey ResearchClaimObjectV1;
  rs_licenses : gmap ExternalKey LicenseDeclarationObjectV1;
  rs_challenges : gmap ExternalKey ClaimChallengeObjectV1;
  rs_resolutions : gmap ExternalKey ClaimResolutionObjectV1;
  rs_applied_commands : gmap ExternalKey AppliedCommandRecordV1;
}.
Abbreviation StateM := (SE ResearchProtocolState ProtocolStateError).

Definition upd_matches f st := mkState (rs_authorities st) (f (rs_matches st)) (rs_evaluations st) (rs_workload_receipts st) (rs_claims st) (rs_licenses st) (rs_challenges st) (rs_resolutions st) (rs_applied_commands st).
Definition upd_evaluations f st := mkState (rs_authorities st) (rs_matches st) (f (rs_evaluations st)) (rs_workload_receipts st) (rs_claims st) (rs_licenses st) (rs_challenges st) (rs_resolutions st) (rs_applied_commands st).
Definition upd_workload_receipts f st := mkState (rs_authorities st) (rs_matches st) (rs_evaluations st) (f (rs_workload_receipts st)) (rs_claims st) (rs_licenses st) (rs_challenges st) (rs_resolutions st) (rs_applied_commands st).
Definition upd_claims f st := mkState (rs_authorities st) (rs_matches st) (rs_evaluations st) (rs_workload_receipts st) (f (rs_claims st)) (rs_licenses st) (rs_challenges st) (rs_resolutions st) (rs_applied_commands st).
Definition upd_licenses f st := mkState (rs_authorities st) (rs_matches st) (rs_evaluations st) (rs_workload_receipts st) (rs_claims st) (f (rs_licenses st)) (rs_challenges st) (rs_resolutions st) (rs_applied_commands st).
Definition upd_challenges f st := mkState (rs_authorities st) (rs_matches st) (rs_evaluations st) (rs_workload_receipts st) (rs_claims st) (rs_licenses st) (f (rs_challenges st)) (rs_resolutions st) (rs_applied_commands st).
Definition upd_resolutions f st := mkState (rs_authorities st) (rs_matches st) (rs_evaluations st) (rs_workload_receipts st) (rs_claims st) (rs_licenses st) (rs_challenges st) (f (rs_resolutions st)) (rs_applied_commands st).
Definition upd_applied f st := mkState (rs_authorities st) (rs_matches st) (rs_evaluations st) (rs_workload_receipts st) (rs_claims st) (rs_licenses st) (rs_challenges st) (rs_resolutions st) (f (rs_applied_commands st)).

Definition with_authorities (a : AuthoritySetV1) : StateResult ResearchProtocolState :=
  _ ← authorities_validate a;
  Ok (mkState a ∅ ∅ ∅ ∅ ∅ ∅ ∅ ∅).

(** ** References *)

Definition current_version (st : ResearchProtocolState) (r : ObjectRefV1) : option Z :=
  match r_kind r with
  | MatchEvidence => (fun o => r_version (mo_ref o)) <$> rs_matches st !! r_key r
  | EvaluationCommitment => (fun o => r_version (eo_ref o)) <$> rs_evaluations st !! r_key r
  | WorkloadReceipt => (fun o => r_version (wo_ref o)) <$> rs_workload_receipts st !! r_key r
  | ResearchClaim => (fun o => r_version (co_ref o)) <$> rs_claims st !! r_key r
  | LicenseDeclaration => (fun o => r_version (lo_ref o)) <$> rs_licenses st !! r_key r
  | ClaimChallenge => (fun o => r_version (ho_ref o)) <$> rs_challenges st !! r_key r
  | ClaimResolution => (fun o => r_version (so_ref o)) <$> rs_resolutions st !! r_key r
  end.

Definition require_ref (st : ResearchProtocolState) (r : ObjectRefV1) : StateResult () :=
  match current_version st r with
  | None => Err (MissingReferencedObject r)
  | Some actual => fail_if (negb (actual =? r_version r)) (ObjectVersionMismatch r actual)
  end.

(** [contains_key] in the map of the reference's kind. *)
Definition require_ref_relaxed (st : ResearchProtocolState) (r : ObjectRefV1) : StateResult () :=
  fail_if (bool_decide (current_version st r = None)) (MissingReferencedObject r).

Definition contains_key {V} (m : gmap ExternalKey V) (key : ExternalKey) : bool := bool_decide (is_Some (m !! key)).
Definition ensure_absent {V} (m : gmap ExternalKey V) (kind : ResearchObjectKind) (key : ExternalKey) : StateResult () :=
  fail_if (contains_key m key) (DuplicateObject kind key).

(** [object_ref.object_version += 1] panics on overflow. *)
Definition bump (r : ObjectRefV1) : StateResult ObjectRefV1 :=
  version ← expect (checked_add u64_max (r_version r) 1);
  Ok (mkRef (r_kind r) (r_key r) version).

(** ** Handlers *)

Definition apply_match (p : MatchEvidenceCommitmentV1) : StateM ObjectRefV1 :=
  st ← get_self;
  let object_ref := match_ref p in
  _ ← lift (ensure_absent (rs_matches st) (r_kind object_ref) (me_commitment_id p));
  _ ← modify_self (upd_matches (<[me_commitment_id p := mkMatchObject object_ref p]>));
  mret object_ref.

Definition apply_evaluation (p : EvaluationCommitmentV1) : StateM ObjectRefV1 :=
  st ← get_self;
  _ ← lift (require_ref st (ev_match_evidence_ref p));
  match_object ← lift (expect (rs_matches st !! r_key (ev_match_evidence_ref p)));
  _ ← lift (fail_if (ev_completed_at_unix_s p <? me_completed_at_unix_s (mo_commitment match_object)) TimestampRegression);
  let object_ref := evaluation_ref p in
  _ ← lift (ensure_absent (rs_evaluations st) (r_kind object_ref) (ev_evaluation_id p));
  _ ← modify_self (upd_evaluations (<[ev_evaluation_id p := mkEvaluationObject object_ref p]>));
  mret object_ref.

Definition apply_workload (p : IssueWorkloadReceiptV1) : StateM ObjectRefV1 :=
  st ← get_self;
  _ ← lift (require_ref st (wr_evaluation_ref p));
  evaluation ← lift (expect (rs_evaluations st !! r_key (wr_evaluation_ref p)));
  _ ← lift (fail_if (negb (ev_accepted (eo_commitment evaluation))) RejectedEvaluationCannotIssueWorkload);
  _ ← lift (fail_if (wr_issued_at_unix_s p <? ev_completed_at_unix_s (eo_commitment evaluation)) TimestampRegression);
  let object_ref := receipt_ref p in
  _ ← lift (ensure_absent (rs_workload_receipts st) (r_kind object_ref) (wr_receipt_id p));
  _ ← modify_self (upd_workload_receipts (<[wr_receipt_id p := mkReceiptObject object_ref p]>));
  mret object_ref.

(** The contributors with accepted work, and a share of someone else. *)
Definition contributor_keys (r : IssueWorkloadReceiptV1) : gset ExternalKey := list_to_set (cw_contributor <$> wr_contributors r).
Definition without_work (r : IssueWorkloadReceiptV1) (shares : list ClaimShareV1) : bool :=
  existsb (fun share => bool_decide (sh_contributor share ∉ contributor_keys r)) shares.

Definition apply_claim (p : CreateResearchClaimV1) : StateM ObjectRefV1 :=
  st ← get_self;
  _ ← lift (require_ref st (cl_workload_receipt_ref p));
  _ ← lift (try_fold (fun _ evidence_ref => require_ref st evidence_ref) tt (cl_evidence_refs p));
  workload ← lift (expect (rs_workload_receipts st !! r_key (cl_workload_receipt_ref p)));
  _ ← lift (fail_if (without_work (wo_receipt workload) (cl_claimants p)) ClaimantWithoutAcceptedWork);
  _ ← lift (fail_if (bool_decide (wr_evaluation_ref (wo_receipt workload) ∉ cl_evidence_refs p)) ClaimMissingWorkloadEvaluation);
  _ ← lift (fail_if (cl_created_at_unix_s p <? wr_issued_at_unix_s (wo_receipt workload)) TimestampRegression);
  let object_ref := claim_ref p in
  _ ← lift (ensure_absent (rs_claims st) (r_kind object_ref) (cl_claim_id p));
  _ ← modify_self (upd_claims (<[cl_claim_id p := mkClaimObject object_ref p (cl_claimants p) Active None]>));
  mret object_ref.

Definition apply_license (p : DeclareLicenseV1) : StateM ObjectRefV1 :=
  st ← get_self;
  _ ← lift (require_ref st (li_claim_ref p));
  claim ← lift (expect (rs_claims st !! r_key (li_claim_ref p)));
  _ ← lift (fail_if (bool_decide (co_status claim ∈ [Challenged; Rejected])) (ClaimNotLicensable (co_status claim)));
  _ ← lift (fail_if (negb (existsb (fun share => sh_contributor share =?? li_licensor p) (co_current_claimants claim)))
                    LicensorIsNotClaimant);
  _ ← lift (fail_if (li_effective_at_unix_s p <? cl_created_at_unix_s (co_claim claim)) TimestampRegression);
  let object_ref := license_ref p in
  _ ← lift (ensure_absent (rs_licenses st) (r_kind object_ref) (li_declaration_id p));
  _ ← modify_self (upd_licenses (<[li_declaration_id p := mkLicenseObject object_ref p]>));
  mret object_ref.

Definition apply_challenge (p : ChallengeResearchClaimV1) : StateM ObjectRefV1 :=
  st ← get_self;
  _ ← lift (require_ref st (ch_claim_ref p));
  claim ← lift (expect (rs_claims st !! r_key (ch_claim_ref p)));
  _ ← lift (fail_if (negb (bool_decide (co_status claim ∈ [Active; Amended; LicenseAmendmentRequired])))
                    (ClaimNotChallengeable (co_status claim)));
  _ ← lift (fail_if (ch_opened_at_unix_s p <? cl_created_at_unix_s (co_claim claim)) TimestampRegression);
  let object_ref := challenge_ref p in
  _ ← lift (ensure_absent (rs_challenges st) (r_kind object_ref) (ch_challenge_id p));
  _ ← modify_self (upd_challenges (<[ch_challenge_id p := mkChallengeObject object_ref p Open None]>));
  st ← get_self;
  claim ← lift (expect (rs_claims st !! r_key (ch_claim_ref p)));
  next ← lift (bump (co_ref claim));
  _ ← modify_self (upd_claims (<[r_key (ch_claim_ref p) :=
        mkClaimObject next (co_claim claim) (co_current_claimants claim) Challenged (Some (ch_challenge_id p))]>));
  mret object_ref.

(** The claim after a decision. *)
Definition resolved_claim (p : ClaimResolutionV1) (next : ObjectRefV1) (claim : ResearchClaimObjectV1) : ResearchClaimObjectV1 :=
  match re_decision p with
  | Uphold => mkClaimObject next (co_claim claim) (co_current_claimants claim) Active None
  | Reject => mkClaimObject next (co_claim claim) (co_current_claimants claim) Rejected None
  | AmendContributorShares => mkClaimObject next (co_claim claim) (re_amended_claimants p) Amended None
  | RequireLicenseAmendment => mkClaimObject next (co_claim claim) (co_current_claimants claim) LicenseAmendmentRequired None
  end.

Definition apply_resolution (p : ClaimResolutionV1) : StateM ObjectRefV1 :=
  st ← get_self;
  _ ← lift (require_ref st (re_challenge_ref p));
  challenge ← lift (expect (rs_challenges st !! r_key (re_challenge_ref p)));
  _ ← lift (fail_if (ho_status challenge <>? Open) ChallengeAlreadyResolved);
  _ ← lift (fail_if (re_decided_at_unix_s p <? ch_opened_at_unix_s (ho_challenge challenge)) TimestampRegression);
  let claim_key := r_key (ch_claim_ref (ho_challenge challenge)) in
  claim ← lift (ok_or (rs_claims st !! claim_key) (MissingReferencedObject (ch_claim_ref (ho_challenge challenge))));
  _ ← lift (fail_if ((co_status claim <>? Challenged) || (co_active_challenge claim <>? Some (r_key (re_challenge_ref p))))
                    ChallengeClaimStateMismatch);
  _ ← lift (if re_decision p =?? AmendContributorShares then
              workload ← ok_or (rs_workload_receipts st !! r_key (cl_workload_receipt_ref (co_claim claim)))
                               (MissingReferencedObject (cl_workload_receipt_ref (co_claim claim)));
              fail_if (without_work (wo_receipt workload) (re_amended_claimants p)) ClaimantWithoutAcceptedWork
            else Ok tt);
  let object_ref := resolution_ref p in
  _ ← lift (ensure_absent (rs_resolutions st) (r_kind object_ref) (re_resolution_id p));
  _ ← modify_self (upd_resolutions (<[re_resolution_id p := mkResolutionObject object_ref p]>));
  st ← get_self;
  challenge ← lift (expect (rs_challenges st !! r_key (re_challenge_ref p)));
  next ← lift (bump (ho_ref challenge));
  _ ← modify_self (upd_challenges (<[r_key (re_challenge_ref p) :=
        mkChallengeObject next (ho_challenge challenge) Resolved (Some object_ref)]>));
  st ← get_self;
  claim ← lift (expect (rs_claims st !! claim_key));
  next ← lift (bump (co_ref claim));
  _ ← modify_self (upd_claims (<[claim_key := resolved_claim p next claim]>));
  mret object_ref.

Definition changed_object_refs_for (st : ResearchProtocolState) (c : ResearchCommandV1) (primary : ObjectRefV1) :
    StateResult (list ObjectRefV1) :=
  refs ← (match c with
          | CChallengeClaim p =>
              claim ← ok_or (rs_claims st !! r_key (ch_claim_ref p)) (MissingReferencedObject (ch_claim_ref p));
              Ok [primary; co_ref claim]
          | CResolveClaim p =>
              challenge ← ok_or (rs_challenges st !! r_key (re_challenge_ref p)) (MissingReferencedObject (re_challenge_ref p));
              claim ← ok_or (rs_claims st !! r_key (ch_claim_ref (ho_challenge challenge)))
                            (MissingReferencedObject (ch_claim_ref (ho_challenge challenge)));
              Ok [primary; ho_ref challenge; co_ref claim]
          | _ => Ok [primary]
          end);
  Ok (sort_by_key ref_order refs).

Definition apply_command (c : ResearchCommandV1) : StateM ObjectRefV1 :=
  match c with
  | CMatchEvidence p => apply_match p
  | CEvaluation p => apply_evaluation p
  | CIssueWorkload p => apply_workload p
  | CCreateClaim p => apply_claim p
  | CDeclareLicense p => apply_license p
  | CChallengeClaim p => apply_challenge p
  | CResolveClaim p => apply_resolution p
  end.

Inductive ApplyOutcome :=
| Applied (primary_object_ref : ObjectRefV1) (changed_object_refs : list ObjectRefV1)
| Idempotent (primary_object_ref : ObjectRefV1) (changed_object_refs : list ObjectRefV1).

Section apply.
Context `{CryptoCrates}.

Definition apply (s : SignedResearchCommandV1) : StateM ApplyOutcome :=
  st ← get_self;
  _ ← lift (map_err InvalidCommand (validate s));
  _ ← lift (fail_if (negb (authorizes (rs_authorities st) s))
              (UnauthorizedAuthority (s_signer_did s) (s_signer_role s) (s_public_key s)));
  let fingerprint := command_fingerprint s in
  match rs_applied_commands st !! s_command_id s with
  | Some existing =>
      if ar_fingerprint existing =?? fingerprint then mret (Idempotent (ar_primary_object_ref existing) [])
      else lift (Err (AlteredReplay (s_command_id s)))
  | None =>
      primary ← apply_command (s_command s);
      _ ← modify_self (upd_applied (<[s_command_id s := mkRecord (s_command_id s) fingerprint primary]>));
      st ← get_self;
      changed ← lift (changed_object_refs_for st (s_command s) primary);
      mret (Applied primary changed)
  end.

End apply.

(** ** Snapshots *)

Record ResearchProtocolSnapshotV1 := mkSnapshot {
  sn_protocol_version : Z;
  sn_authorities : AuthoritySetV1;
  sn_matches : list MatchEvidenceObjectV1;
  sn_evaluations : list EvaluationCommitmentObjectV1;
  sn_workload_receipts : list WorkloadReceiptObjectV1;
  sn_claims : list ResearchClaimObjectV1;
  sn_licenses : list LicenseDeclarationObjectV1;
  sn_challenges : list ClaimChallengeObjectV1;
  sn_resolutions : list ClaimResolutionObjectV1;
  sn_applied_commands : list AppliedCommandRecordV1;
}.

Definition export_snapshot (st : ResearchProtocolState) : ResearchProtocolSnapshotV1 :=
  mkSnapshot PROTOCOL_VERSION (rs_authorities st) (btree_values (rs_matches st)) (btree_values (rs_evaluations st))
    (btree_values (rs_workload_receipts st)) (btree_values (rs_claims st)) (btree_values (rs_licenses st))
    (btree_values (rs_challenges st)) (btree_values (rs_resolutions st)) (btree_values (rs_applied_commands st)).

Definition encode_snapshot (s : ResearchProtocolSnapshotV1) : list Z :=
  enc_array 10 ++ enc_uint (sn_protocol_version s) ++ encode_authorities (sn_authorities s)
  ++ encode_values encode_match_object (sn_matches s) ++ encode_values encode_evaluation_object (sn_evaluations s)
  ++ encode_values encode_receipt_object (sn_workload_receipts s) ++ encode_values encode_claim_object (sn_claims s)
  ++ encode_values encode_license_object (sn_licenses s) ++ encode_values encode_challenge_object (sn_challenges s)
  ++ encode_values encode_resolution_object (sn_resolutions s) ++ encode_values encode_record (sn_applied_commands s).
Definition canonical_snapshot_bytes (st : ResearchProtocolState) : list Z := encode_snapshot (export_snapshot st).
Definition canonical_snapshot_hash `{CryptoCrates} (st : ResearchProtocolState) : Digest32 :=
  canonical_hash (str "trnm-research-protocol-snapshot-v1") (canonical_snapshot_bytes st).

Definition current_object_refs (st : ResearchProtocolState) : list ObjectRefV1 :=
  sort_by_key ref_order
    ((mo_ref <$> btree_values (rs_matches st)) ++ (eo_ref <$> btree_values (rs_evaluations st))
     ++ (wo_ref <$> btree_values (rs_workload_receipts st)) ++ (co_ref <$> btree_values (rs_claims st))
     ++ (lo_ref <$> btree_values (rs_licenses st)) ++ (ho_ref <$> btree_values (rs_challenges st))
     ++ (so_ref <$> btree_values (rs_resolutions st))).

Definition object_canonical_bytes (st : ResearchProtocolState) (r : ObjectRefV1) : StateResult (list Z) :=
  _ ← require_ref st r;
  match r_kind r with
  | MatchEvidence => o ← expect (rs_matches st !! r_key r); Ok (encode_match_object o)
  | EvaluationCommitment => o ← expect (rs_evaluations st !! r_key r); Ok (encode_evaluation_object o)
  | WorkloadReceipt => o ← expect (rs_workload_receipts st !! r_key r); Ok (encode_receipt_object o)
  | ResearchClaim => o ← expect (rs_claims st !! r_key r); Ok (encode_claim_object o)
  | LicenseDeclaration => o ← expect (rs_licenses st !! r_key r); Ok (encode_license_object o)
  | ClaimChallenge => o ← expect (rs_challenges st !! r_key r); Ok (encode_challenge_object o)
  | ClaimResolution => o ← expect (rs_resolutions st !! r_key r); Ok (encode_resolution_object o)
  end.
Definition object_leaf_hash `{CryptoCrates} (st : ResearchProtocolState) (r : ObjectRefV1) : StateResult Digest32 :=
  bytes ← object_canonical_bytes st r;
  Ok (canonical_hash (str "trnm-research-protocol-object-leaf-v1") bytes).

Definition collect_objects {V} (objects : list V) (expected_kind : ResearchObjectKind) (object_ref : V -> ObjectRefV1) :
    StateResult (gmap ExternalKey V) :=
  try_fold (fun (map : gmap ExternalKey V) object =>
    let reference := object_ref object in
    _ ← fail_if ((r_kind reference <>? expected_kind) || (r_version reference =? 0)) InvalidSnapshotGraph;
    _ ← fail_if (contains_key map (r_key reference)) (DuplicateObject expected_kind (r_key reference));
    Ok (<[r_key reference := object]> map)) ∅ objects.

Definition collect_command_records (records : list AppliedCommandRecordV1) :
    StateResult (gmap ExternalKey AppliedCommandRecordV1) :=
  try_fold (fun (map : gmap ExternalKey AppliedCommandRecordV1) record =>
    _ ← fail_if ((ar_command_id record =?? ZERO32) || contains_key map (ar_command_id record)) InvalidSnapshotGraph;
    Ok (<[ar_command_id record := record]> map)) ∅ records.

Definition validate_snapshot_object_ref (r : ObjectRefV1) (expected_kind : ResearchObjectKind) (expected_key : ExternalKey) :
    StateResult () :=
  fail_if ((r_kind r <>? expected_kind) || (r_key r <>? expected_key) || (r_version r =? 0)) InvalidSnapshotGraph.

(** [for object in map.values() { .. }] *)
Definition for_values {V} (m : gmap ExternalKey V) (body : V -> StateResult ()) : StateResult () :=
  try_fold (fun _ object => body object) tt (btree_values m).

Section graph.
Variable st : ResearchProtocolState.

Definition check_match_object (o : MatchEvidenceObjectV1) : StateResult () :=
  _ ← map_err InvalidStatePayload (match_validate (mo_commitment o));
  _ ← validate_snapshot_object_ref (mo_ref o) MatchEvidence (me_commitment_id (mo_commitment o));
  fail_if (negb (r_version (mo_ref o) =? 1)) InvalidSnapshotGraph.

Definition check_evaluation_object (o : EvaluationCommitmentObjectV1) : StateResult () :=
  _ ← map_err InvalidStatePayload (evaluation_validate (eo_commitment o));
  _ ← validate_snapshot_object_ref (eo_ref o) EvaluationCommitment (ev_evaluation_id (eo_commitment o));
  _ ← fail_if (negb (r_version (eo_ref o) =? 1)) InvalidSnapshotGraph;
  require_ref st (ev_match_evidence_ref (eo_commitment o)).

Definition check_receipt_object (o : WorkloadReceiptObjectV1) : StateResult () :=
  _ ← map_err InvalidStatePayload (receipt_validate (wo_receipt o));
  _ ← validate_snapshot_object_ref (wo_ref o) WorkloadReceipt (wr_receipt_id (wo_receipt o));
  _ ← fail_if (negb (r_version (wo_ref o) =? 1)) InvalidSnapshotGraph;
  _ ← require_ref st (wr_evaluation_ref (wo_receipt o));
  fail_if (negb (match rs_evaluations st !! r_key (wr_evaluation_ref (wo_receipt o)) with
                 | Some evaluation => ev_accepted (eo_commitment evaluation)
                 | None => false
                 end)) InvalidSnapshotGraph.

Definition check_claim_object (o : ResearchClaimObjectV1) : StateResult () :=
  _ ← map_err InvalidStatePayload (claim_validate (co_claim o));
  _ ← validate_snapshot_object_ref (co_ref o) ResearchClaim (cl_claim_id (co_claim o));
  _ ← map_err InvalidStatePayload (validate_claim_shares (co_current_claimants o) false);
  _ ← require_ref st (cl_workload_receipt_ref (co_claim o));
  let challenge_consistent := match co_status o with
                              | Challenged => bool_decide (is_Some (co_active_challenge o))
                              | _ => co_active_challenge o =?? None
                              end in
  fail_if (negb challenge_consistent) InvalidSnapshotGraph.

Definition check_license_object (o : LicenseDeclarationObjectV1) : StateResult () :=
  _ ← map_err InvalidStatePayload (license_validate (lo_declaration o));
  _ ← validate_snapshot_object_ref (lo_ref o) LicenseDeclaration (li_declaration_id (lo_declaration o));
  _ ← fail_if (negb (r_version (lo_ref o) =? 1)) InvalidSnapshotGraph;
  fail_if (negb (contains_key (rs_claims st) (r_key (li_claim_ref (lo_declaration o))))) InvalidSnapshotGraph.

Definition check_challenge_object (o : ClaimChallengeObjectV1) : StateResult () :=
  _ ← map_err InvalidStatePayload (challenge_validate (ho_challenge o));
  _ ← validate_snapshot_object_ref (ho_ref o) ClaimChallenge (ch_challenge_id (ho_challenge o));
  _ ← fail_if (negb (contains_key (rs_claims st) (r_key (ch_claim_ref (ho_challenge o))))) InvalidSnapshotGraph;
  let status_consistent := match ho_status o with
                           | Open => (r_version (ho_ref o) =? 1) && (ho_resolution_ref o =?? None)
                           | Resolved => (r_version (ho_ref o) =? 2) && bool_decide (is_Some (ho_resolution_ref o))
                           end in
  fail_if (negb status_consistent) InvalidSnapshotGraph.

Definition check_resolution_object (o : ClaimResolutionObjectV1) : StateResult () :=
  _ ← map_err InvalidStatePayload (resolution_validate (so_resolution o));
  _ ← validate_snapshot_object_ref (so_ref o) ClaimResolution (re_resolution_id (so_resolution o));
  _ ← fail_if (negb (r_version (so_ref o) =? 1)) InvalidSnapshotGraph;
  fail_if (negb (contains_key (rs_challenges st) (r_key (re_challenge_ref (so_resolution o))))) InvalidSnapshotGraph.

Definition check_record (r : AppliedCommandRecordV1) : StateResult () :=
  _ ← fail_if (ar_fingerprint r =?? ZERO32) InvalidSnapshotGraph;
  require_ref_relaxed st (ar_primary_object_ref r).

Definition validate_snapshot_graph : StateResult () :=
  _ ← authorities_validate (rs_authorities st);
  _ ← for_values (rs_matches st) check_match_object;
  _ ← for_values (rs_evaluations st) check_evaluation_object;
  _ ← for_values (rs_workload_receipts st) check_receipt_object;
  _ ← for_values (rs_claims st) check_claim_object;
  _ ← for_values (rs_licenses st) check_license_object;
  _ ← for_values (rs_challenges st) check_challenge_object;
  _ ← for_values (rs_resolutions st) check_resolution_object;
  for_values (rs_applied_commands st) check_record.

End graph.

Definition from_snapshot (s : ResearchProtocolSnapshotV1) : StateResult ResearchProtocolState :=
  _ ← fail_if (negb (sn_protocol_version s =? PROTOCOL_VERSION)) (UnsupportedSnapshotVersion (sn_protocol_version s));
  _ ← authorities_validate (sn_authorities s);
  matches_ ← collect_objects (sn_matches s) MatchEvidence mo_ref;
  evaluations ← collect_objects (sn_evaluations s) EvaluationCommitment eo_ref;
  workload_receipts ← collect_objects (sn_workload_receipts s) WorkloadReceipt wo_ref;
  claims ← collect_objects (sn_claims s) ResearchClaim co_ref;
  licenses ← collect_objects (sn_licenses s) LicenseDeclaration lo_ref;
  challenges ← collect_objects (sn_challenges s) ClaimChallenge ho_ref;
  resolutions ← collect_objects (sn_resolutions s) ClaimResolution so_ref;
  applied_commands ← collect_command_records (sn_applied_commands s);
  let state := mkState (sn_authorities s) matches_ evaluations workload_receipts claims licenses challenges resolutions applied_commands in
  _ ← validate_snapshot_graph state;
  Ok state.
