(* ===== verification/ResearchSteps.v ===== *)
(** * ResearchSteps: what a handler does when it succeeds

    The handlers of [ResearchState] as a step relation on states, and the proof
    that each handler takes exactly its step, fails without a trace, and panics
    only when an object's version counter is full. *)

From stdpp Require Import base gmap list sorting strings.
From S2P Require Import Prelude Crypto ResearchCbor ResearchTypes ResearchCommand ResearchState.

(** ** Outcomes of [&mut self] computations *)

Section outcome.
Context {S E : Type} (st0 : S) (Full : Prop).

(** On success [Q], on an error the state is [st0], a panic needs [Full]. *)
Definition outcome {A} (Q : A -> S -> Prop) (x : result E A * S) : Prop :=
  match x with
  | (Ok a, st) => Q a st
  | (Err _, st) => st = st0
  | (Panic, _) => Full
  end.

Lemma outcome_bind {A B} (m : SE S E A) (f : A -> SE S E B) Q st :
  outcome (fun a st' => outcome Q (f a st')) (m st) -> outcome Q (mbind f m st).
Proof. unfold mbind, SE_bind. by destruct (m st) as [[a|e|] st']. Qed.

Lemma outcome_get {A} (f : S -> SE S E A) Q st : outcome Q (f st st) -> outcome Q (mbind f get_self st).
Proof. done. Qed.

Lemma outcome_modify {B} (g : S -> S) (f : () -> SE S E B) Q st :
  outcome Q (f tt (g st)) -> outcome Q (mbind f (modify_self g) st).
Proof. done. Qed.

(** A guard before anything was written. *)
Lemma outcome_guard {A B} (r : result E A) (f : A -> SE S E B) Q :
  (r = Panic -> Full) -> (forall a, r = Ok a -> outcome Q (f a st0)) -> outcome Q (mbind f (lift r) st0).
Proof. intros Hp Hf. unfold mbind, SE_bind, lift. destruct r; cbn; auto. Qed.

(** A step that cannot fail after something was written. *)
Lemma outcome_sure {A B} (r : result E A) (f : A -> SE S E B) Q st :
  (r = Panic -> Full) -> (forall e, r <> Err e) -> (forall a, r = Ok a -> outcome Q (f a st)) ->
  outcome Q (mbind f (lift r) st).
Proof. intros Hp He Hf. unfold mbind, SE_bind, lift. destruct r as [a|e|]; cbn; [auto|by destruct (He e)|auto]. Qed.

Lemma outcome_impl {A} (Q R : A -> S -> Prop) x : outcome Q x -> (forall a st, Q a st -> R a st) -> outcome R x.
Proof. intros HQ HR. destruct x as [[a|e|] st]; cbn in *; auto. Qed.

End outcome.

(** ** The step relation *)

Definition insert_match p st := upd_matches (<[me_commitment_id p := mkMatchObject (match_ref p) p]>) st.
Definition insert_evaluation p st := upd_evaluations (<[ev_evaluation_id p := mkEvaluationObject (evaluation_ref p) p]>) st.
Definition insert_receipt p st := upd_workload_receipts (<[wr_receipt_id p := mkReceiptObject (receipt_ref p) p]>) st.
Definition insert_claim p st :=
  upd_claims (<[cl_claim_id p := mkClaimObject (claim_ref p) p (cl_claimants p) Active None]>) st.
Definition insert_license p st := upd_licenses (<[li_declaration_id p := mkLicenseObject (license_ref p) p]>) st.

Definition next_ref (r : ObjectRefV1) : ObjectRefV1 := mkRef (r_kind r) (r_key r) (r_version r + 1).
Definition challenged_claim p (claim : ResearchClaimObjectV1) : ResearchClaimObjectV1 :=
  mkClaimObject (next_ref (co_ref claim)) (co_claim claim) (co_current_claimants claim) Challenged (Some (ch_challenge_id p)).
Definition open_challenge p claim st :=
  upd_claims (<[r_key (ch_claim_ref p) := challenged_claim p claim]>)
    (upd_challenges (<[ch_challenge_id p := mkChallengeObject (challenge_ref p) p Open None]>) st).
Definition closed_challenge p (challenge : ClaimChallengeObjectV1) : ClaimChallengeObjectV1 :=
  mkChallengeObject (next_ref (ho_ref challenge)) (ho_challenge challenge) Resolved (Some (resolution_ref p)).
Definition resolve_challenge p challenge claim st :=
  upd_claims (<[r_key (ch_claim_ref (ho_challenge challenge)) := resolved_claim p (next_ref (co_ref claim)) claim]>)
    (upd_challenges (<[r_key (re_challenge_ref p) := closed_challenge p challenge]>)
      (upd_resolutions (<[re_resolution_id p := mkResolutionObject (resolution_ref p) p]>) st)).

(** The object a reference names, at the version it names. *)
Definition live (st : ResearchProtocolState) (r : ObjectRefV1) : Prop := current_version st r = Some (r_version r).

Inductive handled (st : ResearchProtocolState) : ResearchCommandV1 -> ResearchProtocolState -> Prop :=
| handled_match p :
    rs_matches st !! me_commitment_id p = None -> handled st (CMatchEvidence p) (insert_match p st)
| handled_evaluation p m :
    live st (ev_match_evidence_ref p) -> rs_matches st !! r_key (ev_match_evidence_ref p) = Some m ->
    me_completed_at_unix_s (mo_commitment m) <= ev_completed_at_unix_s p ->
    rs_evaluations st !! ev_evaluation_id p = None -> handled st (CEvaluation p) (insert_evaluation p st)
| handled_receipt p e :
    live st (wr_evaluation_ref p) -> rs_evaluations st !! r_key (wr_evaluation_ref p) = Some e ->
    ev_accepted (eo_commitment e) = true -> ev_completed_at_unix_s (eo_commitment e) <= wr_issued_at_unix_s p ->
    rs_workload_receipts st !! wr_receipt_id p = None -> handled st (CIssueWorkload p) (insert_receipt p st)
| handled_claim p w :
    live st (cl_workload_receipt_ref p) -> Forall (live st) (cl_evidence_refs p) ->
    rs_workload_receipts st !! r_key (cl_workload_receipt_ref p) = Some w ->
    without_work (wo_receipt w) (cl_claimants p) = false -> wr_evaluation_ref (wo_receipt w) ∈ cl_evidence_refs p ->
    wr_issued_at_unix_s (wo_receipt w) <= cl_created_at_unix_s p ->
    rs_claims st !! cl_claim_id p = None -> handled st (CCreateClaim p) (insert_claim p st)
| handled_license p c :
    live st (li_claim_ref p) -> rs_claims st !! r_key (li_claim_ref p) = Some c ->
    (co_status c ∉ [Challenged; Rejected]) -> li_licensor p ∈ sh_contributor <$> co_current_claimants c ->
    cl_created_at_unix_s (co_claim c) <= li_effective_at_unix_s p ->
    rs_licenses st !! li_declaration_id p = None -> handled st (CDeclareLicense p) (insert_license p st)
| handled_challenge p c :
    live st (ch_claim_ref p) -> rs_claims st !! r_key (ch_claim_ref p) = Some c ->
    co_status c ∈ [Active; Amended; LicenseAmendmentRequired] ->
    cl_created_at_unix_s (co_claim c) <= ch_opened_at_unix_s p ->
    rs_challenges st !! ch_challenge_id p = None -> handled st (CChallengeClaim p) (open_challenge p c st)
| handled_resolution p h c :
    live st (re_challenge_ref p) -> rs_challenges st !! r_key (re_challenge_ref p) = Some h -> ho_status h = Open ->
    ch_opened_at_unix_s (ho_challenge h) <= re_decided_at_unix_s p ->
    rs_claims st !! r_key (ch_claim_ref (ho_challenge h)) = Some c ->
    co_status c = Challenged -> co_active_challenge c = Some (r_key (re_challenge_ref p)) ->
    (re_decision p = AmendContributorShares ->
       exists w, rs_workload_receipts st !! r_key (cl_workload_receipt_ref (co_claim c)) = Some w /\
                 without_work (wo_receipt w) (re_amended_claimants p) = false) ->
    rs_resolutions st !! re_resolution_id p = None -> handled st (CResolveClaim p) (resolve_challenge p h c st).

(** ** The handlers take their steps *)

Definition versions_full (st : ResearchProtocolState) : Prop :=
  (exists k c, rs_claims st !! k = Some c /\ u64_max <= r_version (co_ref c)) \/
  (exists k h, rs_challenges st !! k = Some h /\ u64_max <= r_version (ho_ref h)).

Lemma require_ref_live st r u : require_ref st r = Ok u <-> live st r.
Proof.
  unfold require_ref, live. destruct (current_version st r) as [v|]; [|naive_solver].
  rewrite fail_if_Ok, negb_false_iff, Z.eqb_eq. naive_solver.
Qed.
Lemma require_ref_not_panic st r : require_ref st r <> Panic.
Proof. unfold require_ref. destruct (current_version st r); [apply fail_if_not_panic|done]. Qed.

Lemma require_refs_live st l u : try_fold (fun _ r => require_ref st r) tt l = Ok u <-> Forall (live st) l.
Proof.
  destruct u. induction l as [|r l IH]; cbn [try_fold]; [naive_solver|]. rewrite bind_Ok, Forall_cons, <- IH. split.
  - intros ([] & Hr & Hl). by rewrite require_ref_live in Hr.
  - intros [Hr Hl]. exists tt. by rewrite require_ref_live.
Qed.

Lemma ensure_absent_Ok {V} (m : gmap ExternalKey V) kind key u : ensure_absent m kind key = Ok u <-> m !! key = None.
Proof.
  unfold ensure_absent, contains_key. rewrite fail_if_Ok, bool_decide_eq_false, <- eq_None_not_Some. done.
Qed.

Lemma bump_Ok r r' : bump r = Ok r' <-> r' = next_ref r /\ r_version r < u64_max.
Proof.
  unfold bump, next_ref. rewrite bind_Ok. split.
  - intros (v & Hv & [= <-]). apply expect_Ok, checked_add_Some in Hv as [-> ?]. split; [done|lia].
  - intros [-> ?]. exists (r_version r + 1). split; [|done]. by rewrite checked_add_fits by lia.
Qed.
Lemma bump_not_Err r e : bump r <> Err e.
Proof. unfold bump. by destruct (checked_add _ _ _). Qed.
Lemma bump_Panic r : bump r = Panic -> u64_max <= r_version r.
Proof. unfold bump, checked_add. destruct (_ <=? _) eqn:E; [done|]. bprop. lia. Qed.

(** A successful handler took the step of its command. *)
Definition took (st : ResearchProtocolState) (c : ResearchCommandV1) (r : ObjectRefV1) (st' : ResearchProtocolState) : Prop :=
  r = primary_object_ref c /\ handled st c st'.

(** What [validate] says of the reference a handler follows. *)
Lemma validate_ref_kind_Ok field r k u : validate_ref_kind field r k = Ok u -> r_kind r = k.
Proof. unfold validate_ref_kind. intros H. rinv. by bprop. Qed.

Ltac passes :=
  apply outcome_guard; [intros Hpanic; exfalso; revert Hpanic; first [apply fail_if_not_panic|apply require_ref_not_panic|apply ok_or_not_panic]|
    let u := fresh "u" in intros u ?Hg; cbv beta zeta].

(** The object behind a checked reference is there. *)
Ltac passes_object Hkind Hlive :=
  let o := fresh "o" in let Ho := fresh "Ho" in
  pose proof Hlive as Ho; unfold live, current_version in Ho; rewrite Hkind in Ho; apply fmap_Some in Ho as (o & Ho & _);
  rewrite Ho; apply outcome_guard; [done|]; intros ? [= <-].

Section handlers.
Variable st : ResearchProtocolState.
Let out c := outcome (E:=ProtocolStateError) st (versions_full st) (took st c).

Lemma apply_match_step p : out (CMatchEvidence p) (apply_match p st).
Proof.
  unfold out, apply_match. apply outcome_get. passes. rewrite ensure_absent_Ok in Hg. apply outcome_modify.
  split; [done|]. by constructor.
Qed.

Lemma apply_evaluation_step p : evaluation_validate p = Ok tt -> out (CEvaluation p) (apply_evaluation p st).
Proof.
  intros Hv. unfold evaluation_validate in Hv. rinv. assert (r_kind (ev_match_evidence_ref p) = MatchEvidence) as Hk by (by eapply validate_ref_kind_Ok).
  unfold out, apply_evaluation. apply outcome_get. passes. rewrite require_ref_live in Hg. passes_object Hk Hg. passes. passes.
  rewrite ensure_absent_Ok in Hg1. apply fail_if_Ok in Hg0. bprop. apply outcome_modify. split; [done|]. by econstructor.
Qed.

Lemma apply_workload_step p : receipt_validate p = Ok tt -> out (CIssueWorkload p) (apply_workload p st).
Proof.
  intros Hv. unfold receipt_validate in Hv. rinv. assert (r_kind (wr_evaluation_ref p) = EvaluationCommitment) as Hk by (by eapply validate_ref_kind_Ok).
  unfold out, apply_workload. apply outcome_get. passes. rewrite require_ref_live in Hg. passes_object Hk Hg. passes. passes. passes.
  rewrite ensure_absent_Ok in Hg2. apply fail_if_Ok in Hg0, Hg1. bprop. apply outcome_modify. split; [done|]. by econstructor.
Qed.

Lemma apply_claim_step p : claim_validate p = Ok tt -> out (CCreateClaim p) (apply_claim p st).
Proof.
  intros Hv. unfold claim_validate in Hv. rinv. assert (r_kind (cl_workload_receipt_ref p) = WorkloadReceipt) as Hk by (by eapply validate_ref_kind_Ok).
  unfold out, apply_claim. apply outcome_get. passes. rewrite require_ref_live in Hg.
  apply outcome_guard. { intros Hp. exfalso. revert Hp. apply (try_fold_not_panic (fun _ => True)); [done| |done]. intros; apply require_ref_not_panic. }
  intros [] He. rewrite require_refs_live in He. passes_object Hk Hg. passes. passes. passes. passes.
  rewrite ensure_absent_Ok in Hg3. apply fail_if_Ok in Hg0, Hg1, Hg2. bprop. apply outcome_modify. split; [done|].
  econstructor; try done. by apply dec_stable.
Qed.

Lemma existsb_elem {A B} (f : A -> B) `{EqDecision B} (b : B) l : existsb (fun x => bool_decide (f x = b)) l = true <-> b ∈ f <$> l.
Proof.
  rewrite existsb_exists, list_elem_of_fmap. setoid_rewrite bool_decide_eq_true. setoid_rewrite <- list_elem_of_In. naive_solver.
Qed.

Lemma apply_license_step p : license_validate p = Ok tt -> out (CDeclareLicense p) (apply_license p st).
Proof.
  intros Hv. unfold license_validate in Hv. rinv. assert (r_kind (li_claim_ref p) = ResearchClaim) as Hk by (by eapply validate_ref_kind_Ok).
  unfold out, apply_license. apply outcome_get. passes. rewrite require_ref_live in Hg. passes_object Hk Hg. passes. passes. passes. passes.
  rewrite ensure_absent_Ok in Hg3. apply fail_if_Ok in Hg0, Hg1, Hg2. bprop. apply existsb_elem in Hg1. apply outcome_modify.
  split; [done|]. by econstructor.
Qed.

Lemma apply_challenge_step p : challenge_validate p = Ok tt -> out (CChallengeClaim p) (apply_challenge p st).
Proof.
  intros Hv. unfold challenge_validate in Hv. rinv. assert (r_kind (ch_claim_ref p) = ResearchClaim) as Hk by (by eapply validate_ref_kind_Ok).
  unfold out, apply_challenge. apply outcome_get. passes. rewrite require_ref_live in Hg. passes_object Hk Hg. passes. passes. passes.
  rewrite ensure_absent_Ok in Hg2. apply fail_if_Ok in Hg0, Hg1. bprop. apply outcome_modify, outcome_get.
  cbn [rs_claims upd_challenges]. rewrite Ho. apply outcome_sure; [done|done|]. intros ? [= <-].
  apply outcome_sure; [intros Hp%bump_Panic; left; eauto|apply bump_not_Err|]. intros n [-> Hmax]%bump_Ok. apply outcome_modify.
  split; [done|]. by econstructor.
Qed.

Lemma apply_resolution_step p : resolution_validate p = Ok tt -> out (CResolveClaim p) (apply_resolution p st).
Proof.
  intros Hv. unfold resolution_validate in Hv. rinv. assert (r_kind (re_challenge_ref p) = ClaimChallenge) as Hk by (by eapply validate_ref_kind_Ok).
  unfold out, apply_resolution. apply outcome_get. passes. rewrite require_ref_live in Hg. passes_object Hk Hg. passes. passes. passes. passes.
  apply outcome_guard. { intros Hp. exfalso. revert Hp. destruct (bool_decide (re_decision p = AmendContributorShares)); [|done]. apply bind_not_panic; [apply ok_or_not_panic|intros; apply fail_if_not_panic]. }
  intros w Hw. passes. rewrite ensure_absent_Ok in Hg4. apply fail_if_Ok in Hg0, Hg1, Hg3. apply ok_or_Ok in Hg2. bprop.
  apply outcome_modify, outcome_get. cbn [rs_challenges upd_resolutions]. rewrite Ho. apply outcome_sure; [done|done|]. intros ? [= <-].
  apply outcome_sure; [intros Hp%bump_Panic; right; eauto|apply bump_not_Err|]. intros n [-> Hmax]%bump_Ok. apply outcome_modify, outcome_get.
  cbn [rs_claims upd_challenges upd_resolutions]. rewrite Hg2. apply outcome_sure; [done|done|]. intros ? [= <-].
  apply outcome_sure; [intros Hp%bump_Panic; left; eauto|apply bump_not_Err|]. intros n [-> Hmax']%bump_Ok. apply outcome_modify.
  split; [done|]. econstructor; try done. intros Hd. rewrite bool_decide_eq_true_2 in Hw by done. rinv. eauto.
Qed.

End handlers.

Lemma apply_command_step st c : command_validate c = Ok tt ->
  outcome (E:=ProtocolStateError) st (versions_full st) (took st c) (apply_command c st).
Proof.
  destruct c; cbn [command_validate apply_command]; intros Hv;
    [apply apply_match_step|by apply apply_evaluation_step|by apply apply_workload_step|by apply apply_claim_step
    |by apply apply_license_step|by apply apply_challenge_step|by apply apply_resolution_step].
Qed.
