(* ===== verification/ResearchInvariant.v ===== *)
(** * ResearchInvariant: the object graph

    What every state of the research protocol satisfies: each object carries its
    own reference and a valid payload, references lead to objects that are there,
    claimants did accepted work, and claims, challenges and resolutions agree. *)

From stdpp Require Import base gmap list sorting strings.
From S2P Require Import Prelude Crypto ResearchCbor ResearchTypes ResearchCommand ResearchState ResearchSteps.

(** ** The invariant *)

Section objects.
Variable st : ResearchProtocolState.

Definition match_ok (k : ExternalKey) (o : MatchEvidenceObjectV1) : Prop :=
  mo_ref o = mkRef MatchEvidence k 1 /\ me_commitment_id (mo_commitment o) = k /\ match_validate (mo_commitment o) = Ok tt.

Definition evaluation_ok (k : ExternalKey) (o : EvaluationCommitmentObjectV1) : Prop :=
  eo_ref o = mkRef EvaluationCommitment k 1 /\ ev_evaluation_id (eo_commitment o) = k /\ evaluation_validate (eo_commitment o) = Ok tt /\
  r_version (ev_match_evidence_ref (eo_commitment o)) = 1 /\
  exists m, rs_matches st !! r_key (ev_match_evidence_ref (eo_commitment o)) = Some m /\
    me_completed_at_unix_s (mo_commitment m) <= ev_completed_at_unix_s (eo_commitment o).

Definition receipt_ok (k : ExternalKey) (o : WorkloadReceiptObjectV1) : Prop :=
  wo_ref o = mkRef WorkloadReceipt k 1 /\ wr_receipt_id (wo_receipt o) = k /\ receipt_validate (wo_receipt o) = Ok tt /\
  r_version (wr_evaluation_ref (wo_receipt o)) = 1 /\
  exists e, rs_evaluations st !! r_key (wr_evaluation_ref (wo_receipt o)) = Some e /\ ev_accepted (eo_commitment e) = true /\
    ev_completed_at_unix_s (eo_commitment e) <= wr_issued_at_unix_s (wo_receipt o).

(** A claim: its current shares are a valid allocation among those whose work the
    receipt accepted, and its evidence is there. *)
Definition claim_ok (k : ExternalKey) (o : ResearchClaimObjectV1) : Prop :=
  r_kind (co_ref o) = ResearchClaim /\ r_key (co_ref o) = k /\ 1 <= r_version (co_ref o) /\
  cl_claim_id (co_claim o) = k /\ claim_validate (co_claim o) = Ok tt /\
  validate_claim_shares (co_current_claimants o) false = Ok tt /\
  r_version (cl_workload_receipt_ref (co_claim o)) = 1 /\
  Forall (live st) (cl_evidence_refs (co_claim o)) /\
  exists w, rs_workload_receipts st !! r_key (cl_workload_receipt_ref (co_claim o)) = Some w /\
    without_work (wo_receipt w) (co_current_claimants o) = false /\
    wr_evaluation_ref (wo_receipt w) ∈ cl_evidence_refs (co_claim o) /\
    wr_issued_at_unix_s (wo_receipt w) <= cl_created_at_unix_s (co_claim o).

Definition license_ok (k : ExternalKey) (o : LicenseDeclarationObjectV1) : Prop :=
  lo_ref o = mkRef LicenseDeclaration k 1 /\ li_declaration_id (lo_declaration o) = k /\ license_validate (lo_declaration o) = Ok tt /\
  exists c, rs_claims st !! r_key (li_claim_ref (lo_declaration o)) = Some c /\
    cl_created_at_unix_s (co_claim c) <= li_effective_at_unix_s (lo_declaration o).

Definition challenge_ok (k : ExternalKey) (o : ClaimChallengeObjectV1) : Prop :=
  r_kind (ho_ref o) = ClaimChallenge /\ r_key (ho_ref o) = k /\ ch_challenge_id (ho_challenge o) = k /\
  challenge_validate (ho_challenge o) = Ok tt /\
  exists c, rs_claims st !! r_key (ch_claim_ref (ho_challenge o)) = Some c /\
    cl_created_at_unix_s (co_claim c) <= ch_opened_at_unix_s (ho_challenge o).

Definition resolution_ok (k : ExternalKey) (o : ClaimResolutionObjectV1) : Prop :=
  so_ref o = mkRef ClaimResolution k 1 /\ re_resolution_id (so_resolution o) = k /\ resolution_validate (so_resolution o) = Ok tt /\
  exists h, rs_challenges st !! r_key (re_challenge_ref (so_resolution o)) = Some h /\
    ch_opened_at_unix_s (ho_challenge h) <= re_decided_at_unix_s (so_resolution o).

(** A claim is challenged exactly while one open challenge of it is active. *)
Definition claim_linked (k : ExternalKey) (o : ResearchClaimObjectV1) : Prop :=
  (co_status o = Challenged <-> is_Some (co_active_challenge o)) /\
  forall ck, co_active_challenge o = Some ck ->
    exists h, rs_challenges st !! ck = Some h /\ ho_status h = Open /\ r_key (ch_claim_ref (ho_challenge h)) = k.

(** An open challenge is its claim's active one; a resolved one has its resolution. *)
Definition challenge_linked (k : ExternalKey) (o : ClaimChallengeObjectV1) : Prop :=
  match ho_status o with
  | Open => r_version (ho_ref o) = 1 /\ ho_resolution_ref o = None /\
      exists c, rs_claims st !! r_key (ch_claim_ref (ho_challenge o)) = Some c /\ co_active_challenge c = Some k
  | Resolved => r_version (ho_ref o) = 2 /\
      exists rk s, ho_resolution_ref o = Some (mkRef ClaimResolution rk 1) /\ rs_resolutions st !! rk = Some s /\
        r_key (re_challenge_ref (so_resolution s)) = k
  end.

(** Every resolution is the one its challenge names. *)
Definition resolution_linked (k : ExternalKey) (o : ClaimResolutionObjectV1) : Prop :=
  exists h, rs_challenges st !! r_key (re_challenge_ref (so_resolution o)) = Some h /\
    ho_status h = Resolved /\ ho_resolution_ref h = Some (so_ref o).

Definition record_ok (k : ExternalKey) (r : AppliedCommandRecordV1) : Prop :=
  ar_command_id r = k /\ k <> ZERO32 /\ is_Some (current_version st (ar_primary_object_ref r)).

End objects.

Record wf (st : ResearchProtocolState) : Prop := {
  wf_authorities : authorities_validate (rs_authorities st) = Ok tt;
  wf_matches : map_Forall match_ok (rs_matches st);
  wf_evaluations : map_Forall (evaluation_ok st) (rs_evaluations st);
  wf_receipts : map_Forall (receipt_ok st) (rs_workload_receipts st);
  wf_claims : map_Forall (claim_ok st) (rs_claims st);
  wf_licenses : map_Forall (license_ok st) (rs_licenses st);
  wf_challenges : map_Forall (challenge_ok st) (rs_challenges st);
  wf_resolutions : map_Forall (resolution_ok st) (rs_resolutions st);
  wf_claim_links : map_Forall (claim_linked st) (rs_claims st);
  wf_challenge_links : map_Forall (challenge_linked st) (rs_challenges st);
  wf_resolution_links : map_Forall (resolution_linked st) (rs_resolutions st);
  wf_records : map_Forall (record_ok st) (rs_applied_commands st);
}.

(** ** Growth

    Steps only add objects, or replace a claim or a challenge by a later version
    with the same payload. *)

Definition same_claim (o o' : ResearchClaimObjectV1) : Prop :=
  co_claim o' = co_claim o /\ r_version (co_ref o) <= r_version (co_ref o').
Definition same_challenge (o o' : ClaimChallengeObjectV1) : Prop :=
  ho_challenge o' = ho_challenge o /\ r_version (ho_ref o) <= r_version (ho_ref o').
Definition updates {V} (R : V -> V -> Prop) (m m' : gmap ExternalKey V) : Prop :=
  forall k o, m !! k = Some o -> exists o', m' !! k = Some o' /\ R o o'.

Record grows (st st' : ResearchProtocolState) : Prop := {
  g_authorities : rs_authorities st' = rs_authorities st;
  g_matches : rs_matches st ⊆ rs_matches st';
  g_evaluations : rs_evaluations st ⊆ rs_evaluations st';
  g_receipts : rs_workload_receipts st ⊆ rs_workload_receipts st';
  g_licenses : rs_licenses st ⊆ rs_licenses st';
  g_resolutions : rs_resolutions st ⊆ rs_resolutions st';
  g_claims : updates same_claim (rs_claims st) (rs_claims st');
  g_challenges : updates same_challenge (rs_challenges st) (rs_challenges st');
  g_applied : rs_applied_commands st ⊆ rs_applied_commands st';
}.

Lemma updates_refl {V} (R : V -> V -> Prop) `{!Reflexive R} m : updates R m m.
Proof. intros k o Ho. eauto. Qed.
Lemma updates_insert_new {V} (R : V -> V -> Prop) `{!Reflexive R} (m : gmap ExternalKey V) k o :
  m !! k = None -> updates R m (<[k:=o]> m).
Proof. intros Hk k' o' Ho'. exists o'. rewrite lookup_insert_ne by congruence. done. Qed.
Lemma updates_insert {V} (R : V -> V -> Prop) `{!Reflexive R} (m : gmap ExternalKey V) k o o' :
  m !! k = Some o -> R o o' -> updates R m (<[k:=o']> m).
Proof.
  intros Hk HR k' x Hx. destruct (decide (k' = k)) as [->|Hne].
  - exists o'. rewrite lookup_insert_eq. by simplify_eq.
  - exists x. by rewrite lookup_insert_ne.
Qed.
#[export] Instance same_claim_refl : Reflexive same_claim.
Proof. intros o. split; [done|lia]. Qed.
#[export] Instance same_challenge_refl : Reflexive same_challenge.
Proof. intros o. split; [done|lia]. Qed.

#[export] Instance grows_refl : Reflexive grows.
Proof. intros st. split; try done; apply updates_refl, _. Qed.

#[export] Instance grows_trans : Transitive grows.
Proof.
  intros a b c [] []. split; try (etrans; eassumption).
  - intros k o Ho. destruct (g_claims0 k o Ho) as (o1 & H1 & [E1 L1]). destruct (g_claims1 k o1 H1) as (o2 & H2 & [E2 L2]).
    exists o2. split; [done|]. split; [congruence|lia].
  - intros k o Ho. destruct (g_challenges0 k o Ho) as (o1 & H1 & [E1 L1]). destruct (g_challenges1 k o1 H1) as (o2 & H2 & [E2 L2]).
    exists o2. split; [done|]. split; [congruence|lia].
Qed.

(** The kinds whose version never changes. *)
Lemma grows_live st st' r : grows st st' -> r_kind r ∈ [MatchEvidence; EvaluationCommitment] -> live st r -> live st' r.
Proof.
  intros [] Hk. unfold live, current_version.
  assert (r_kind r = MatchEvidence \/ r_kind r = EvaluationCommitment) as [-> | ->] by set_solver.
  - intros (o & Ho & Hv)%fmap_Some. by rewrite (lookup_weaken _ _ _ _ Ho g_matches0), Hv.
  - intros (o & Ho & Hv)%fmap_Some. by rewrite (lookup_weaken _ _ _ _ Ho g_evaluations0), Hv.
Qed.

Lemma grows_current st st' r : grows st st' -> is_Some (current_version st r) -> is_Some (current_version st' r).
Proof.
  intros []. unfold current_version. destruct (r_kind r); rewrite !fmap_is_Some; intros [o Ho];
    first [eexists; by eapply lookup_weaken|by destruct (g_claims0 _ _ Ho) as (? & ? & _)|by destruct (g_challenges0 _ _ Ho) as (? & ? & _)].
Qed.

Lemma evaluation_ok_grows st st' k o : grows st st' -> evaluation_ok st k o -> evaluation_ok st' k o.
Proof. intros [] (? & ? & ? & ? & m & Hm & ?). repeat (split; [done|]). exists m. split; [|done]. by eapply lookup_weaken. Qed.

Lemma receipt_ok_grows st st' k o : grows st st' -> receipt_ok st k o -> receipt_ok st' k o.
Proof. intros [] (? & ? & ? & ? & e & He & ?). repeat (split; [done|]). exists e. split; [|done]. by eapply lookup_weaken. Qed.

Lemma license_ok_grows st st' k o : grows st st' -> license_ok st k o -> license_ok st' k o.
Proof.
  intros [] (? & ? & ? & c & Hc & ?). repeat (split; [done|]). destruct (g_claims0 _ _ Hc) as (c' & Hc' & [E _]).
  exists c'. by rewrite E.
Qed.

Lemma challenge_ok_grows st st' k o : grows st st' -> challenge_ok st k o -> challenge_ok st' k o.
Proof.
  intros [] (? & ? & ? & ? & c & Hc & ?). repeat (split; [done|]). destruct (g_claims0 _ _ Hc) as (c' & Hc' & [E _]).
  exists c'. by rewrite E.
Qed.

Lemma resolution_ok_grows st st' k o : grows st st' -> resolution_ok st k o -> resolution_ok st' k o.
Proof.
  intros [] (? & ? & ? & h & Hh & ?). repeat (split; [done|]). destruct (g_challenges0 _ _ Hh) as (h' & Hh' & [E _]).
  exists h'. by rewrite E.
Qed.

Lemma record_ok_grows st st' k r : grows st st' -> record_ok st k r -> record_ok st' k r.
Proof. intros Hg (? & ? & Hc). repeat (split; [done|]). by eapply grows_current. Qed.

(** ** What validation says *)

Lemma evidence_kinds l u : validate_evidence_refs l = Ok u -> Forall (fun r => r_kind r ∈ [MatchEvidence; EvaluationCommitment]) l.
Proof.
  unfold validate_evidence_refs. intros H. rinv. eapply try_fold_Forall; [|eassumption]. intros x ref x' Hc.
  unfold check_evidence_ref in Hc. rinv. bprop. match goal with H : _ || _ = true |- _ => apply orb_true_iff in H as [H|H] end; bprop; set_solver.
Qed.

Lemma claim_evidence_kinds p : claim_validate p = Ok tt ->
  Forall (fun r => r_kind r ∈ [MatchEvidence; EvaluationCommitment]) (cl_evidence_refs p).
Proof. unfold claim_validate. intros H. rinv. by eapply evidence_kinds. Qed.

Lemma claim_ok_grows st st' k o : grows st st' -> claim_ok st k o -> claim_ok st' k o.
Proof.
  intros Hg (? & ? & ? & ? & Hv & ? & ? & He & w & Hw & ?). repeat (split; [done|]). split.
  - pose proof (claim_evidence_kinds _ Hv) as Hk. apply Forall_forall. intros ref Hr. rewrite Forall_forall in He, Hk.
    eapply grows_live; eauto.
  - exists w. split; [|done]. eapply lookup_weaken; [exact Hw|apply Hg].
Qed.

(** ** Every step grows the state *)

Lemma resolved_claim_same p next claim : r_version (co_ref claim) <= r_version next ->
  same_claim claim (resolved_claim p next claim).
Proof. intros Hv. unfold resolved_claim. by destruct (re_decision p). Qed.

Lemma handled_grows st c st' : handled st c st' -> grows st st'.
Proof.
  destruct 1; split; cbn; try done; try (by apply insert_subseteq); try apply updates_refl, _;
    try (by apply updates_insert_new; [apply _|]).
  - eapply updates_insert; [apply _|eassumption|]. split; [done|]. cbn. lia.
  - eapply updates_insert; [apply _|eassumption|]. apply resolved_claim_same. cbn. lia.
  - eapply updates_insert; [apply _|eassumption|]. split; [done|]. cbn. lia.
Qed.

(** ** Every step keeps the invariant *)

(** Links do not change where claims, challenges and resolutions are only added to. *)
Lemma links_insert st st' : wf st -> rs_claims st ⊆ rs_claims st' -> rs_challenges st' = rs_challenges st ->
  rs_resolutions st' = rs_resolutions st ->
  map_Forall (claim_linked st') (rs_claims st) /\ map_Forall (challenge_linked st') (rs_challenges st') /\
  map_Forall (resolution_linked st') (rs_resolutions st').
Proof.
  intros W Hc Hh Hs. split; [|split].
  - intros k o Ho. destruct (wf_claim_links _ W k o Ho) as [? Hl]. split; [done|]. by rewrite Hh.
  - rewrite Hh. intros k o Ho. pose proof (wf_challenge_links _ W k o Ho) as Hl. unfold challenge_linked in *. rewrite Hs.
    destruct (ho_status o); [|done]. destruct Hl as (? & ? & c & Hcl & ?). repeat (split; [done|]). exists c.
    split; [|done]. by eapply lookup_weaken.
  - rewrite Hs. intros k o Ho. pose proof (wf_resolution_links _ W k o Ho) as Hl. unfold resolution_linked in *. by rewrite Hh.
Qed.

(** The predicates of a grown state, on the objects that were there. *)
Lemma wf_grown st st' : wf st -> grows st st' ->
  map_Forall (evaluation_ok st') (rs_evaluations st) /\ map_Forall (receipt_ok st') (rs_workload_receipts st) /\
  map_Forall (claim_ok st') (rs_claims st) /\ map_Forall (license_ok st') (rs_licenses st) /\
  map_Forall (challenge_ok st') (rs_challenges st) /\ map_Forall (resolution_ok st') (rs_resolutions st) /\
  map_Forall (record_ok st') (rs_applied_commands st).
Proof.
  intros W Hg. split_and!; (eapply map_Forall_impl; [apply W|]); intros k o;
    [by apply evaluation_ok_grows|by apply receipt_ok_grows|by apply claim_ok_grows|by apply license_ok_grows
    |by apply challenge_ok_grows|by apply resolution_ok_grows|by apply record_ok_grows].
Qed.

(** References to objects that are never replaced name version 1. *)
Lemma live_version st r : wf st -> live st r ->
  (r_kind r = MatchEvidence \/ r_kind r = EvaluationCommitment \/ r_kind r = WorkloadReceipt) -> r_version r = 1.
Proof.
  intros W Hl Hk. unfold live, current_version in Hl.
  destruct Hk as [E|[E|E]]; rewrite E in Hl; apply fmap_Some in Hl as (x & Hx & ->);
    [destruct (wf_matches _ W _ _ Hx) as [Hr _]|destruct (wf_evaluations _ W _ _ Hx) as [Hr _]|destruct (wf_receipts _ W _ _ Hx) as [Hr _]];
    by rewrite Hr.
Qed.

Lemma handled_match_wf st p : wf st -> match_validate p = Ok tt -> rs_matches st !! me_commitment_id p = None ->
  wf (insert_match p st).
Proof.
  intros W Hv Hn. pose proof (handled_grows _ _ _ (handled_match st p Hn)) as Hg.
  destruct (wf_grown _ _ W Hg) as (? & ? & ? & ? & ? & ? & ?). destruct (links_insert st (insert_match p st) W) as (? & ? & ?); [done..|].
  split; try done; try apply W. apply map_Forall_insert_2; [done|apply W].
Qed.

Lemma handled_evaluation_wf st p m : wf st -> evaluation_validate p = Ok tt -> live st (ev_match_evidence_ref p) ->
  rs_matches st !! r_key (ev_match_evidence_ref p) = Some m ->
  me_completed_at_unix_s (mo_commitment m) <= ev_completed_at_unix_s p ->
  rs_evaluations st !! ev_evaluation_id p = None -> wf (insert_evaluation p st).
Proof.
  intros W Hv Hl Hm Ht Hn. pose proof (handled_grows _ _ _ (handled_evaluation st p m Hl Hm Ht Hn)) as Hg.
  destruct (wf_grown _ _ W Hg) as (? & ? & ? & ? & ? & ? & ?). destruct (links_insert st (insert_evaluation p st) W) as (? & ? & ?); [done..|].
  assert (r_kind (ev_match_evidence_ref p) = MatchEvidence) as Hk
    by (unfold evaluation_validate in Hv; rinv; by eapply validate_ref_kind_Ok).
  split; try done; try apply W. apply map_Forall_insert_2; [|done]. repeat (split; [done|]). split; [|by exists m].
  cbn. eapply live_version; eauto.
Qed.

Lemma handled_receipt_wf st p e : wf st -> receipt_validate p = Ok tt -> live st (wr_evaluation_ref p) ->
  rs_evaluations st !! r_key (wr_evaluation_ref p) = Some e -> ev_accepted (eo_commitment e) = true ->
  ev_completed_at_unix_s (eo_commitment e) <= wr_issued_at_unix_s p ->
  rs_workload_receipts st !! wr_receipt_id p = None -> wf (insert_receipt p st).
Proof.
  intros W Hv Hl He Ha Ht Hn. pose proof (handled_grows _ _ _ (handled_receipt st p e Hl He Ha Ht Hn)) as Hg.
  destruct (wf_grown _ _ W Hg) as (? & ? & ? & ? & ? & ? & ?). destruct (links_insert st (insert_receipt p st) W) as (? & ? & ?); [done..|].
  assert (r_kind (wr_evaluation_ref p) = EvaluationCommitment) as Hk
    by (unfold receipt_validate in Hv; rinv; by eapply validate_ref_kind_Ok).
  split; try done; try apply W. apply map_Forall_insert_2; [|done]. repeat (split; [done|]). split; [|by exists e].
  cbn. eapply live_version; eauto.
Qed.

Lemma handled_claim_wf st p w : wf st -> claim_validate p = Ok tt -> live st (cl_workload_receipt_ref p) ->
  Forall (live st) (cl_evidence_refs p) -> rs_workload_receipts st !! r_key (cl_workload_receipt_ref p) = Some w ->
  without_work (wo_receipt w) (cl_claimants p) = false -> wr_evaluation_ref (wo_receipt w) ∈ cl_evidence_refs p ->
  wr_issued_at_unix_s (wo_receipt w) <= cl_created_at_unix_s p ->
  rs_claims st !! cl_claim_id p = None -> wf (insert_claim p st).
Proof.
  intros W Hv Hl Hev Hw Hwork Hin Ht Hn. pose proof (handled_grows _ _ _ (handled_claim st p w Hl Hev Hw Hwork Hin Ht Hn)) as Hg.
  destruct (wf_grown _ _ W Hg) as (? & ? & ? & ? & ? & ? & ?).
  destruct (links_insert st (insert_claim p st) W) as (? & ? & ?); [by apply insert_subseteq|done..|].
  assert (r_kind (cl_workload_receipt_ref p) = WorkloadReceipt /\ validate_claim_shares (cl_claimants p) false = Ok tt) as [Hk Hs].
  { unfold claim_validate in Hv. rinv. split; [by eapply validate_ref_kind_Ok|].
    repeat match goal with u : () |- _ => destruct u end. done. }
  split; try done; try apply W.
  - apply map_Forall_insert_2; [|done]. repeat (split; [done|]). cbn [co_claim co_current_claimants].
    split; [eapply live_version; eauto|]. split; [|by exists w].
    pose proof (claim_evidence_kinds _ Hv) as Hks. apply Forall_forall. intros ref Hr. rewrite Forall_forall in Hev, Hks.
    eapply grows_live; eauto.
  - apply map_Forall_insert_2; [|done]. split; [|done]. cbn. split; [done|]. by intros [? ?].
Qed.

Lemma handled_license_wf st p c : wf st -> license_validate p = Ok tt -> live st (li_claim_ref p) ->
  rs_claims st !! r_key (li_claim_ref p) = Some c -> (co_status c ∉ [Challenged; Rejected]) ->
  li_licensor p ∈ sh_contributor <$> co_current_claimants c ->
  cl_created_at_unix_s (co_claim c) <= li_effective_at_unix_s p ->
  rs_licenses st !! li_declaration_id p = None -> wf (insert_license p st).
Proof.
  intros W Hv Hl Hc Hst Hli Ht Hn. pose proof (handled_grows _ _ _ (handled_license st p c Hl Hc Hst Hli Ht Hn)) as Hg.
  destruct (wf_grown _ _ W Hg) as (? & ? & ? & ? & ? & ? & ?). destruct (links_insert st (insert_license p st) W) as (? & ? & ?); [done..|].
  split; try done; try apply W. apply map_Forall_insert_2; [|done]. repeat (split; [done|]). by exists c.
Qed.

(** ** Challenges and resolutions *)

Lemma not_challenged st k c : wf st -> rs_claims st !! k = Some c -> co_status c <> Challenged -> co_active_challenge c = None.
Proof.
  intros W Hc Hs. destruct (wf_claim_links _ W _ _ Hc) as [Hl _]. destruct (co_active_challenge c); [|done].
  destruct Hs. by apply Hl.
Qed.

Lemma challengeable s : s ∈ [Active; Amended; LicenseAmendmentRequired] -> s <> Challenged.
Proof. intros Hs ->. rewrite !elem_of_cons, elem_of_nil in Hs. naive_solver. Qed.

Lemma open_challenge_links st p c : wf st -> rs_claims st !! r_key (ch_claim_ref p) = Some c -> co_status c <> Challenged ->
  rs_challenges st !! ch_challenge_id p = None ->
  let st' := open_challenge p c st in
  map_Forall (claim_linked st') (rs_claims st') /\ map_Forall (challenge_linked st') (rs_challenges st') /\
  map_Forall (resolution_linked st') (rs_resolutions st').
Proof.
  intros W Hc Hs Hn st'. pose proof (not_challenged _ _ _ W Hc Hs) as Hnone. split_and!.
  - intros k o. cbn. rewrite lookup_insert_Some. intros [[<- <-]|[Hne Ho]].
    + split; [naive_solver|]. intros ck [= <-]. cbn. rewrite lookup_insert_eq. by eexists.
    + destruct (wf_claim_links _ W _ _ Ho) as [Hl Hch]. split; [done|]. intros ck Hck. destruct (Hch ck Hck) as (h & Hh & ?).
      exists h. cbn. by rewrite lookup_insert_ne by congruence.
  - intros k o. cbn. rewrite lookup_insert_Some. intros [[<- <-]|[Hne Ho]].
    + unfold challenge_linked. cbn. split_and!; [done..|]. rewrite lookup_insert_eq. by eexists.
    + pose proof (wf_challenge_links _ W _ _ Ho) as Hl. unfold challenge_linked in *. destruct (ho_status o); [|done].
      destruct Hl as (? & ? & c0 & Hc0 & Ha). split_and!; [done..|]. exists c0. cbn. by rewrite lookup_insert_ne by congruence.
  - intros k o Ho. destruct (wf_resolution_links _ W _ _ Ho) as (h & Hh & ?). exists h. cbn. by rewrite lookup_insert_ne by congruence.
Qed.

Lemma handled_challenge_wf st p c : wf st -> challenge_validate p = Ok tt -> live st (ch_claim_ref p) ->
  rs_claims st !! r_key (ch_claim_ref p) = Some c -> co_status c ∈ [Active; Amended; LicenseAmendmentRequired] ->
  cl_created_at_unix_s (co_claim c) <= ch_opened_at_unix_s p -> rs_challenges st !! ch_challenge_id p = None ->
  wf (open_challenge p c st).
Proof.
  intros W Hv Hl Hc Hst Ht Hn. pose proof (handled_grows _ _ _ (handled_challenge st p c Hl Hc Hst Ht Hn)) as Hg.
  destruct (wf_grown _ _ W Hg) as (? & ? & Hcl & ? & ? & ? & ?).
  destruct (open_challenge_links st p c W Hc) as (? & ? & ?); [by apply challengeable|done|].
  split; try done; try apply W.
  - apply map_Forall_insert_2; [|done]. destruct (Hcl _ _ Hc) as (? & ? & ? & ?). do 2 (split; [done|]). split; [cbn; lia|done].
  - apply map_Forall_insert_2; [|done]. split_and!; [done..|]. cbn. rewrite lookup_insert_eq. by eexists.
Qed.

Lemma resolve_challenge_links st p h c : wf st -> rs_challenges st !! r_key (re_challenge_ref p) = Some h -> ho_status h = Open ->
  rs_claims st !! r_key (ch_claim_ref (ho_challenge h)) = Some c -> co_active_challenge c = Some (r_key (re_challenge_ref p)) ->
  rs_resolutions st !! re_resolution_id p = None ->
  let st' := resolve_challenge p h c st in
  map_Forall (claim_linked st') (rs_claims st') /\ map_Forall (challenge_linked st') (rs_challenges st') /\
  map_Forall (resolution_linked st') (rs_resolutions st').
Proof.
  intros W Hh Hopen Hc Hact Hn st'. pose proof (wf_challenge_links _ W _ _ Hh) as Hlink. unfold challenge_linked in Hlink.
  rewrite Hopen in Hlink. destruct Hlink as (Hver & _ & _). split_and!.
  - intros k o. cbn. rewrite lookup_insert_Some. intros [[<- <-]|[Hne Ho]].
    + unfold claim_linked, resolved_claim. destruct (re_decision p); cbn; (split; [|done]); (split; [done|by intros [? ?]]).
    + destruct (wf_claim_links _ W _ _ Ho) as [Hl Hch]. split; [done|]. intros ck Hck. destruct (Hch ck Hck) as (h' & Hh' & ? & ?).
      exists h'. cbn. rewrite lookup_insert_ne; [done|]. intros <-. congruence.
  - intros k o. cbn. rewrite lookup_insert_Some. intros [[<- <-]|[Hne Ho]].
    + unfold challenge_linked. cbn. split; [lia|]. eexists _, _. split; [done|]. by rewrite lookup_insert_eq.
    + pose proof (wf_challenge_links _ W _ _ Ho) as Hl. unfold challenge_linked in *. destruct (ho_status o).
      * destruct Hl as (? & ? & c0 & Hc0 & Ha). split_and!; [done..|]. exists c0. cbn. by rewrite lookup_insert_ne by congruence.
      * destruct Hl as (? & rk & s & ? & Hs & ?). split; [done|]. exists rk, s. cbn. by rewrite lookup_insert_ne by congruence.
  - intros k o. cbn. rewrite lookup_insert_Some. intros [[<- <-]|[Hne Ho]].
    + eexists. cbn. by rewrite lookup_insert_eq.
    + destruct (wf_resolution_links _ W _ _ Ho) as (h' & Hh' & ? & ?). exists h'. cbn. by rewrite lookup_insert_ne by congruence.
Qed.

Lemma resolution_shares p : resolution_validate p = Ok tt -> re_decision p = AmendContributorShares ->
  validate_claim_shares (re_amended_claimants p) false = Ok tt.
Proof. unfold resolution_validate. intros Hv Hd. rewrite Hd in Hv. rinv. by repeat match goal with u : () |- _ => destruct u end. Qed.

Lemma handled_resolution_wf st p h c : wf st -> resolution_validate p = Ok tt -> live st (re_challenge_ref p) ->
  rs_challenges st !! r_key (re_challenge_ref p) = Some h -> ho_status h = Open ->
  ch_opened_at_unix_s (ho_challenge h) <= re_decided_at_unix_s p ->
  rs_claims st !! r_key (ch_claim_ref (ho_challenge h)) = Some c ->
  co_status c = Challenged -> co_active_challenge c = Some (r_key (re_challenge_ref p)) ->
  (re_decision p = AmendContributorShares ->
     exists w, rs_workload_receipts st !! r_key (cl_workload_receipt_ref (co_claim c)) = Some w /\
  without_work (wo_receipt w) (re_amended_claimants p) = false) ->
  rs_resolutions st !! re_resolution_id p = None -> wf (resolve_challenge p h c st).
Proof.
  intros W Hv Hl Hh Ho Ht Hc Hst Ha Hw Hn.
  pose proof (handled_grows _ _ _ (handled_resolution st p h c Hl Hh Ho Ht Hc Hst Ha Hw Hn)) as Hg.
  destruct (wf_grown _ _ W Hg) as (? & ? & Hcl & ? & Hch & ? & ?).
  destruct (resolve_challenge_links st p h c W) as (? & ? & ?); [done..|].
  split; try done; try apply W.
  - apply map_Forall_insert_2; [|done].
    destruct (Hcl _ _ Hc) as (? & ? & ? & ? & ? & ? & ? & ? & w & Hw' & Hwork & ? & ?).
    pose proof (resolution_shares p Hv). unfold claim_ok, resolved_claim.
    destruct (re_decision p) eqn:Hd; cbn; split_and!; try done; try lia; try (by exists w); try auto.
    destruct (Hw eq_refl) as (w' & Hw'' & ?). exists w. assert (w' = w) as -> by (cbn in Hw'; congruence). done.
  - apply map_Forall_insert_2; [|done]. destruct (Hch _ _ Hh) as (? & ? & ? & ? & ?). by split_and!.
  - apply map_Forall_insert_2; [|done]. split_and!; [done..|]. cbn. rewrite lookup_insert_eq. by eexists.
Qed.

(** A step of a valid command keeps the invariant. *)
Lemma handled_wf st c st' : wf st -> command_validate c = Ok tt -> handled st c st' -> wf st'.
Proof.
  intros W Hv Hs. destruct Hs; cbn in Hv;
    eauto using handled_match_wf, handled_evaluation_wf, handled_receipt_wf, handled_claim_wf, handled_license_wf,
      handled_challenge_wf, handled_resolution_wf.
Qed.
