(* ===== verification/ResearchSnapshot.v ===== *)
(** * ResearchSnapshot: exported snapshots reload

    The export of a well-formed state passes every check of the reload and gives
    back the same maps. *)

From stdpp Require Import base gmap list sorting strings.
From S2P Require Import Prelude Crypto ResearchCbor ResearchTypes ResearchCommand ResearchState ResearchSteps ResearchInvariant.

(** ** Loops over a map's values *)

Lemma elem_of_btree_values {V} (m : gmap ExternalKey V) v : v ∈ btree_values m <-> exists k, m !! k = Some v.
Proof.
  unfold btree_values. rewrite list_elem_of_fmap. split.
  - intros ([k w] & -> & Hin). exists k. by apply elem_of_btree_iter in Hin.
  - intros [k Hk]. exists (k, v). split; [done|]. by apply elem_of_btree_iter.
Qed.

Lemma for_list_Ok {V} (body : V -> StateResult ()) l :
  try_fold (fun _ o => body o) tt l = Ok tt <-> Forall (fun o => body o = Ok tt) l.
Proof.
  induction l as [|o l IH]; cbn [try_fold]; [naive_solver|]. rewrite bind_Ok, Forall_cons, <- IH. split.
  - by intros ([] & ? & ?).
  - intros [? ?]. by exists tt.
Qed.

Lemma for_values_Ok {V} (m : gmap ExternalKey V) body : map_Forall (fun _ o => body o = Ok tt) m -> for_values m body = Ok tt.
Proof.
  intros Hm. apply for_list_Ok, Forall_forall. intros o Ho. apply elem_of_btree_values in Ho as [k Hk]. by apply (Hm k).
Qed.

(** A loop whose body only ever fails one way. *)
Lemma for_values_if {V} (m : gmap ExternalKey V) body (bad : V -> bool) e :
  map_Forall (fun _ o => body o = fail_if (bad o) e) m -> for_values m body = fail_if (existsb bad (btree_values m)) e.
Proof.
  intros Hm. assert (Hl : Forall (fun o => body o = fail_if (bad o) e) (btree_values m)).
  { apply Forall_forall. intros o Ho. apply elem_of_btree_values in Ho as [k Hk]. by apply (Hm k). }
  unfold for_values. induction Hl as [|o l Ho _ IH]; [done|]. cbn [try_fold existsb]. rewrite Ho. by destruct (bad o).
Qed.

(** ** Collecting a map's values gives the map *)

Lemma collect_values {V} (m : gmap ExternalKey V) (good : V -> StateResult ()) (key : V -> ExternalKey) (dup : V -> ProtocolStateError) :
  map_Forall (fun k o => good o = Ok tt /\ key o = k) m ->
  try_fold (fun (map : gmap ExternalKey V) o =>
    _ ← good o; _ ← fail_if (contains_key map (key o)) (dup o); Ok (<[key o := o]> map)) ∅ (btree_values m) = Ok m.
Proof.
  intros Hm. unfold btree_values. rewrite <- (list_to_map_btree_iter m) at 2.
  assert (Hl : Forall (fun p => good p.2 = Ok tt /\ key p.2 = p.1) (btree_iter m)).
  { apply Forall_forall. intros [k o] Hin. apply elem_of_btree_iter in Hin. by apply Hm. }
  pose proof (btree_iter_NoDup m) as Hnd. clear Hm. revert Hl Hnd. generalize (btree_iter m) as l. clear m.
  enough (Hacc : forall (l : list (ExternalKey * V)) (acc : gmap ExternalKey V),
    Forall (fun p => good p.2 = Ok tt /\ key p.2 = p.1) l -> NoDup l.*1 -> (forall k, k ∈ l.*1 -> acc !! k = None) ->
    try_fold (fun (map : gmap ExternalKey V) o =>
      _ ← good o; _ ← fail_if (contains_key map (key o)) (dup o); Ok (<[key o := o]> map)) acc l.*2 = Ok (list_to_map l ∪ acc)).
  { intros l Hl Hnd. rewrite Hacc by (done || (intros; apply lookup_empty)). by rewrite (right_id_L ∅ (∪)). }
  induction l as [|[k o] l IH]; intros acc Hl Hnd Hfree; cbn [fmap list_fmap try_fold snd fst list_to_map foldr].
  { by rewrite (left_id_L ∅ (∪)). }
  apply Forall_cons in Hl as [[Hg Hk] Hl]. apply NoDup_cons in Hnd as [Hnin Hnd]. cbn in Hg, Hk. rewrite Hg.
  cbn [mbind result_bind]. unfold contains_key. rewrite Hk, (Hfree k) by (cbn; left).
  rewrite bool_decide_eq_false_2 by (by intros [? ?]). cbn [fail_if mbind result_bind].
  change (list_fmap _ _ snd l) with (l.*2). rewrite IH; [|done|done|].
  - f_equal. cbn. rewrite <- insert_union_l, insert_union_r; [done|]. by apply not_elem_of_list_to_map_1.
  - intros k' Hk'. rewrite lookup_insert_ne by (intros <-; done). apply Hfree. by right.
Qed.

Lemma collect_objects_values {V} (m : gmap ExternalKey V) kind (ref : V -> ObjectRefV1) :
  map_Forall (fun k o => r_kind (ref o) = kind /\ r_key (ref o) = k /\ r_version (ref o) <> 0) m ->
  collect_objects (btree_values m) kind ref = Ok m.
Proof.
  intros Hm. unfold collect_objects.
  apply (collect_values m (fun o => fail_if ((r_kind (ref o) <>? kind) || (r_version (ref o) =? 0)) InvalidSnapshotGraph)
           (fun o => r_key (ref o)) (fun o => DuplicateObject kind (r_key (ref o)))).
  eapply map_Forall_impl; [exact Hm|]. intros k o (-> & -> & Hv). cbv beta. rewrite bool_decide_eq_true_2 by done.
  by rewrite (proj2 (Z.eqb_neq _ _)) by done.
Qed.

Lemma collect_records_values (m : gmap ExternalKey AppliedCommandRecordV1) :
  map_Forall (fun k r => ar_command_id r = k /\ k <> ZERO32) m -> collect_command_records (btree_values m) = Ok m.
Proof.
  intros Hm. unfold collect_command_records.
  rewrite (try_fold_ext _ (fun (map : gmap ExternalKey AppliedCommandRecordV1) r =>
    _ ← fail_if (ar_command_id r =?? ZERO32) InvalidSnapshotGraph;
    _ ← fail_if (contains_key map (ar_command_id r)) InvalidSnapshotGraph; Ok (<[ar_command_id r := r]> map))).
  2: { intros map r _. by destruct (bool_decide (ar_command_id r = ZERO32)). }
  apply (collect_values m (fun r => fail_if (ar_command_id r =?? ZERO32) InvalidSnapshotGraph) ar_command_id (fun _ => InvalidSnapshotGraph)).
  eapply map_Forall_impl; [exact Hm|]. intros k r [-> Hz]. cbv beta. by rewrite bool_decide_eq_false_2.
Qed.

(** ** The checks of a well-formed state *)

Lemma require_ref_ok st r : live st r -> require_ref st r = Ok tt.
Proof. intros Hl. by apply require_ref_live. Qed.

Lemma snapshot_ref_ok r kind key : r_kind r = kind -> r_key r = key -> r_version r <> 0 -> validate_snapshot_object_ref r kind key = Ok tt.
Proof.
  intros <- <- Hv. unfold validate_snapshot_object_ref. rewrite !bool_decide_eq_true_2 by done.
  by rewrite (proj2 (Z.eqb_neq _ _)) by done.
Qed.

Lemma contains_key_true {V} (m : gmap ExternalKey V) k o : m !! k = Some o -> contains_key m k = true.
Proof. intros Hk. unfold contains_key. rewrite Hk. by apply bool_decide_eq_true_2. Qed.

Section checks.
Variable st : ResearchProtocolState.
Hypothesis W : wf st.

Lemma check_matches_ok : for_values (rs_matches st) check_match_object = Ok tt.
Proof.
  apply for_values_Ok. intros k o Ho. destruct (wf_matches _ W _ _ Ho) as (Hr & <- & Hv).
  unfold check_match_object. rewrite Hv, Hr. cbn [map_err mbind result_bind]. by rewrite snapshot_ref_ok.
Qed.

Lemma check_evaluations_ok : for_values (rs_evaluations st) (check_evaluation_object st) = Ok tt.
Proof.
  apply for_values_Ok. intros k o Ho. destruct (wf_evaluations _ W _ _ Ho) as (Hr & <- & Hv & Hver & m & Hm & _).
  unfold check_evaluation_object. rewrite Hv, Hr. cbn [map_err mbind result_bind]. rewrite snapshot_ref_ok by done.
  cbn [r_version Z.eqb Pos.eqb negb fail_if mbind result_bind]. apply require_ref_ok. unfold evaluation_validate in Hv. rinv.
  unfold live, current_version. erewrite validate_ref_kind_Ok by eassumption. rewrite Hm, Hver. cbn.
  by destruct (wf_matches _ W _ _ Hm) as (-> & _).
Qed.

Lemma check_receipts_ok : for_values (rs_workload_receipts st) (check_receipt_object st) = Ok tt.
Proof.
  apply for_values_Ok. intros k o Ho. destruct (wf_receipts _ W _ _ Ho) as (Hr & <- & Hv & Hver & e & He & Ha & _).
  unfold check_receipt_object. rewrite Hv, Hr. cbn [map_err mbind result_bind]. rewrite snapshot_ref_ok by done.
  cbn [r_version Z.eqb Pos.eqb negb fail_if mbind result_bind]. rewrite require_ref_ok; [by rewrite He, Ha|].
  unfold receipt_validate in Hv. rinv. unfold live, current_version. erewrite validate_ref_kind_Ok by eassumption.
  rewrite He, Hver. cbn. by destruct (wf_evaluations _ W _ _ He) as (-> & _).
Qed.

Lemma check_claims_ok : for_values (rs_claims st) (check_claim_object st) = Ok tt.
Proof.
  apply for_values_Ok. intros k o Ho. destruct (wf_claims _ W _ _ Ho) as (Hk & Hkey & Hver & Hid & Hv & Hs & Hver' & _ & w & Hw & _).
  destruct (wf_claim_links _ W _ _ Ho) as [Hl _].
  unfold check_claim_object. rewrite Hv, Hs. cbn [map_err mbind result_bind]. rewrite snapshot_ref_ok by (congruence || lia).
  cbn [map_err mbind result_bind]. rewrite require_ref_ok.
  2: { unfold claim_validate in Hv. rinv. unfold live, current_version. erewrite validate_ref_kind_Ok by eassumption.
       rewrite Hw, Hver'. cbn. by destruct (wf_receipts _ W _ _ Hw) as (-> & _). }
  cbn [mbind result_bind]. cbv zeta. destruct (co_active_challenge o) as [x|].
  - rewrite (proj2 Hl) by eauto. by rewrite bool_decide_eq_true_2.
  - assert (co_status o <> Challenged) by (intros E; by destruct (proj1 Hl E)). by destruct (co_status o).
Qed.

Lemma check_licenses_ok : for_values (rs_licenses st) (check_license_object st) = Ok tt.
Proof.
  apply for_values_Ok. intros k o Ho. destruct (wf_licenses _ W _ _ Ho) as (Hr & <- & Hv & c & Hc & _).
  unfold check_license_object. rewrite Hv, Hr. cbn [map_err mbind result_bind]. rewrite snapshot_ref_ok by done.
  cbn [r_version Z.eqb Pos.eqb negb fail_if mbind result_bind]. by rewrite (contains_key_true _ _ _ Hc).
Qed.

Lemma check_challenges_ok : for_values (rs_challenges st) (check_challenge_object st) = Ok tt.
Proof.
  apply for_values_Ok. intros k o Ho. destruct (wf_challenges _ W _ _ Ho) as (Hk & Hkey & Hid & Hv & c & Hc & _).
  pose proof (wf_challenge_links _ W _ _ Ho) as Hl. unfold challenge_linked in Hl.
  assert (r_version (ho_ref o) <> 0) by (destruct (ho_status o); destruct Hl as [-> _]; lia).
  unfold check_challenge_object. rewrite Hv. cbn [map_err mbind result_bind]. rewrite snapshot_ref_ok by congruence.
  cbn [mbind result_bind]. rewrite (contains_key_true _ _ _ Hc). cbn [negb fail_if mbind result_bind]. cbv zeta.
  destruct (ho_status o).
  - destruct Hl as (-> & -> & _). by rewrite bool_decide_eq_true_2.
  - destruct Hl as (-> & rk & s & -> & _). by rewrite bool_decide_eq_true_2.
Qed.

Lemma check_resolutions_ok : for_values (rs_resolutions st) (check_resolution_object st) = Ok tt.
Proof.
  apply for_values_Ok. intros k o Ho. destruct (wf_resolutions _ W _ _ Ho) as (Hr & <- & Hv & h & Hh & _).
  unfold check_resolution_object. rewrite Hv, Hr. cbn [map_err mbind result_bind]. rewrite snapshot_ref_ok by done.
  cbn [r_version Z.eqb Pos.eqb negb fail_if mbind result_bind]. by rewrite (contains_key_true _ _ _ Hh).
Qed.

Definition zero_fingerprint (r : AppliedCommandRecordV1) : bool := ar_fingerprint r =?? ZERO32.

Lemma check_records_if : for_values (rs_applied_commands st) (check_record st) =
  fail_if (existsb zero_fingerprint (btree_values (rs_applied_commands st))) InvalidSnapshotGraph.
Proof.
  apply for_values_if. intros k r Hr. destruct (wf_records _ W _ _ Hr) as (_ & _ & [v Hc]). unfold check_record, require_ref_relaxed, zero_fingerprint.
  rewrite Hc. by destruct (bool_decide (ar_fingerprint r = ZERO32)).
Qed.

Lemma snapshot_reloads : from_snapshot (export_snapshot st) =
  if existsb zero_fingerprint (btree_values (rs_applied_commands st)) then Err InvalidSnapshotGraph else Ok st.
Proof.
  unfold from_snapshot, export_snapshot. cbn [sn_protocol_version sn_authorities sn_matches sn_evaluations sn_workload_receipts
    sn_claims sn_licenses sn_challenges sn_resolutions sn_applied_commands].
  rewrite Z.eqb_refl. cbn [negb fail_if mbind result_bind]. rewrite (wf_authorities _ W). cbn [mbind result_bind].
  rewrite !collect_objects_values, collect_records_values; cbn [mbind result_bind]; cbv zeta.
  - replace (mkState _ _ _ _ _ _ _ _ _) with st by (by destruct st). unfold validate_snapshot_graph.
    rewrite (wf_authorities _ W), check_matches_ok, check_evaluations_ok, check_receipts_ok, check_claims_ok, check_licenses_ok,
      check_challenges_ok, check_resolutions_ok, check_records_if. cbn [mbind result_bind].
    by destruct (existsb zero_fingerprint _).
  - intros k r Hr. by destruct (wf_records _ W _ _ Hr) as (? & ? & _).
  - intros k o Ho. destruct (wf_matches _ W _ _ Ho) as (-> & _). done.
  - intros k o Ho. destruct (wf_evaluations _ W _ _ Ho) as (-> & _). done.
  - intros k o Ho. destruct (wf_receipts _ W _ _ Ho) as (-> & _). done.
  - intros k o Ho. destruct (wf_claims _ W _ _ Ho) as (? & ? & ? & _). split_and!; try done. lia.
  - intros k o Ho. destruct (wf_licenses _ W _ _ Ho) as (-> & _). done.
  - intros k o Ho. destruct (wf_challenges _ W _ _ Ho) as (? & ? & _). pose proof (wf_challenge_links _ W _ _ Ho) as Hl.
    unfold challenge_linked in Hl. split_and!; try done. destruct (ho_status o); destruct Hl as [-> _]; lia.
  - intros k o Ho. destruct (wf_resolutions _ W _ _ Ho) as (-> & _). done.
Qed.

End checks.
