(* ===== verification/ResearchTheorems.v ===== *)
(** * ResearchTheorems: guarantees of the research protocol

    Over every history of [apply] from a genesis authority set: the object graph
    is well formed, a command takes effect once, the reported references are
    exactly the objects that changed, and an exported snapshot reloads to the
    same state. *)

From stdpp Require Import base gmap list sorting strings.
From S2P Require Import Prelude Crypto ResearchCbor ResearchTypes ResearchCommand ResearchCodec ResearchDecode ResearchState ResearchSteps ResearchInvariant ResearchSnapshot.

(** ** Reported references *)

(** The version of one object after a map was written. *)
Definition set_version (kind : ResearchObjectKind) (key : ExternalKey) (v : Z) (st : ResearchProtocolState) (r : ObjectRefV1) : option Z :=
  if decide (r_kind r = kind /\ r_key r = key) then Some v else current_version st r.

Ltac version_cases :=
  let Hd := fresh "Hd" in
  unfold set_version, current_version; cbn; destruct (decide (_ /\ _)) as [[-> ->]|Hd];
  [by rewrite lookup_insert_eq
  |match goal with r : ObjectRefV1 |- _ => destruct (r_kind r); cbn; try reflexivity end;
   rewrite lookup_insert_ne by (intros ?; apply Hd; done); reflexivity].

Lemma version_matches k o st r : current_version (upd_matches (<[k:=o]>) st) r = set_version MatchEvidence k (r_version (mo_ref o)) st r.
Proof. version_cases. Qed.
Lemma version_evaluations k o st r : current_version (upd_evaluations (<[k:=o]>) st) r = set_version EvaluationCommitment k (r_version (eo_ref o)) st r.
Proof. version_cases. Qed.
Lemma version_receipts k o st r : current_version (upd_workload_receipts (<[k:=o]>) st) r = set_version WorkloadReceipt k (r_version (wo_ref o)) st r.
Proof. version_cases. Qed.
Lemma version_claims k o st r : current_version (upd_claims (<[k:=o]>) st) r = set_version ResearchClaim k (r_version (co_ref o)) st r.
Proof. version_cases. Qed.
Lemma version_licenses k o st r : current_version (upd_licenses (<[k:=o]>) st) r = set_version LicenseDeclaration k (r_version (lo_ref o)) st r.
Proof. version_cases. Qed.
Lemma version_challenges k o st r : current_version (upd_challenges (<[k:=o]>) st) r = set_version ClaimChallenge k (r_version (ho_ref o)) st r.
Proof. version_cases. Qed.
Lemma version_resolutions k o st r : current_version (upd_resolutions (<[k:=o]>) st) r = set_version ClaimResolution k (r_version (so_ref o)) st r.
Proof. version_cases. Qed.
Lemma version_applied f st r : current_version (upd_applied f st) r = current_version st r.
Proof. done. Qed.

(** Writing one object makes exactly its new reference live that was not. *)
Lemma set_version_changed kind key v st r :
  current_version st (mkRef kind key v) <> Some v ->
  set_version kind key v st r = Some (r_version r) /\ current_version st r <> Some (r_version r) <-> r = mkRef kind key v.
Proof.
  intros Hn. unfold set_version. destruct r as [k x n]. cbn. case_decide as Hd.
  - destruct Hd as [-> ->]. split; [by intros [[= ->] _]|]. intros [= ->]. done.
  - split; [naive_solver|]. intros [= -> -> ->]. by destruct Hd.
Qed.

Lemma elem_of_changed l r : r ∈ sort_by_key ref_order l <-> r ∈ l.
Proof. by rewrite sort_by_key_perm. Qed.

(** The references that [changed_object_refs_for] reports are those that became
    live. *)
Definition reports (st st' : ResearchProtocolState) (c : ResearchCommandV1) : Prop :=
  exists l, changed_object_refs_for st' c (primary_object_ref c) = Ok l /\ forall r, r ∈ l <-> live st' r /\ ~ live st r.

(** A command that writes one new object. *)
Lemma reports_insert st st' c kind key :
  (forall p, c <> CChallengeClaim p) -> (forall p, c <> CResolveClaim p) -> primary_object_ref c = mkRef kind key 1 ->
  (forall r, current_version st' r = set_version kind key 1 st r) -> current_version st (mkRef kind key 1) = None ->
  reports st st' c.
Proof.
  intros Hc Hr Hp Hv Hn. exists [primary_object_ref c]. split.
  - unfold changed_object_refs_for. destruct c as [| | | | |q|q]; [done..|by destruct (Hc q)|by destruct (Hr q)].
  - intros r. rewrite list_elem_of_singleton, Hp. unfold live. rewrite Hv, set_version_changed by (by rewrite Hn). done.
Qed.

Lemma reports_challenge st p c : wf st -> rs_claims st !! r_key (ch_claim_ref p) = Some c ->
  rs_challenges st !! ch_challenge_id p = None -> reports st (open_challenge p c st) (CChallengeClaim p).
Proof.
  intros W Hc Hn. destruct (wf_claims _ W _ _ Hc) as (Hkind & Hkey & _). eexists. split.
  - unfold changed_object_refs_for. cbn. rewrite lookup_insert_eq. reflexivity.
  - intros r. rewrite elem_of_changed, !elem_of_cons, elem_of_nil. unfold live, open_challenge.
    rewrite version_claims. unfold set_version. rewrite version_challenges. unfold set_version. cbn.
    unfold next_ref. rewrite Hkind, Hkey. destruct r as [k x n]. cbn.
    destruct (decide (k = ResearchClaim /\ x = _)) as [[-> ->]|H1].
    { unfold current_version. cbn. rewrite Hc. cbn. split; [intros [[=]|[[= ->]|[]]]; split; [done|intros [= ?]; lia]|]. intros [[= <-] _]. by right; left. }
    destruct (decide (k = ClaimChallenge /\ x = _)) as [[-> ->]|H2].
    { unfold current_version. cbn. rewrite Hn. cbn. split; [intros [[= ->]|[[=]|[]]]; by split|]. intros [[= <-] _]. by left. }
    split; [|by intros [? []]]. intros [[= -> -> ->]|[[= -> -> ->]|[]]]; [by destruct H2|by destruct H1].
Qed.

Lemma reports_resolution st p h c : wf st -> rs_challenges st !! r_key (re_challenge_ref p) = Some h ->
  rs_claims st !! r_key (ch_claim_ref (ho_challenge h)) = Some c -> rs_resolutions st !! re_resolution_id p = None ->
  reports st (resolve_challenge p h c st) (CResolveClaim p).
Proof.
  intros W Hh Hc Hn. destruct (wf_claims _ W _ _ Hc) as (Hkind & Hkey & _). destruct (wf_challenges _ W _ _ Hh) as (Hkind' & Hkey' & _).
  assert (Hres : forall nx, co_ref (resolved_claim p nx c) = nx) by (intros; unfold resolved_claim; by destruct (re_decision p)).
  exists (sort_by_key ref_order [resolution_ref p; next_ref (ho_ref h); next_ref (co_ref c)]). split.
  - unfold changed_object_refs_for. cbn. rewrite lookup_insert_eq. cbn. rewrite lookup_insert_eq. cbn. rewrite Hres. done.
  - intros r. rewrite elem_of_changed, !elem_of_cons, elem_of_nil. unfold live, resolve_challenge.
    rewrite version_claims. unfold set_version. rewrite version_challenges. unfold set_version.
    rewrite version_resolutions. unfold set_version. rewrite Hres. cbn.
    unfold next_ref. rewrite Hkind, Hkey, Hkind', Hkey'. destruct r as [k x n]. cbn.
    destruct (decide (k = ResearchClaim /\ x = _)) as [[-> ->]|H1].
    { unfold current_version. cbn. rewrite Hc. cbn. split; [intros [[=]|[[=]|[[= ->]|[]]]]; split; [done|intros [= ?]; lia]|]. intros [[= <-] _]. by right; right; left. }
    destruct (decide (k = ClaimChallenge /\ x = _)) as [[-> ->]|H2].
    { unfold current_version. cbn. rewrite Hh. cbn. split; [intros [[=]|[[= ->]|[[=]|[]]]]; split; [done|intros [= ?]; lia]|]. intros [[= <-] _]. by right; left. }
    destruct (decide (k = ClaimResolution /\ x = _)) as [[-> ->]|H3].
    { unfold current_version. cbn. rewrite Hn. cbn. split; [intros [[= ->]|[[=]|[[=]|[]]]]; by split|]. intros [[= <-] _]. by left. }
    split; [|by intros [? []]]. intros [[= -> -> ->]|[[= -> -> ->]|[[= -> -> ->]|[]]]]; [by destruct H3|by destruct H2|by destruct H1].
Qed.

Lemma handled_reports st c st' : wf st -> handled st c st' -> reports st st' c.
Proof.
  intros W Hs. destruct Hs as [p Hn|p m _ _ _ Hn|p e _ _ _ _ Hn|p w _ _ _ _ _ _ Hn|p c _ _ _ _ _ Hn|p c _ Hc _ _ Hn|p h c _ Hh _ _ Hc _ _ _ Hn].
  - eapply (reports_insert _ _ _ MatchEvidence); [done|done|done|intros; apply version_matches|]. unfold current_version. cbn. by rewrite Hn.
  - eapply (reports_insert _ _ _ EvaluationCommitment); [done|done|done|intros; apply version_evaluations|]. unfold current_version. cbn. by rewrite Hn.
  - eapply (reports_insert _ _ _ WorkloadReceipt); [done|done|done|intros; apply version_receipts|]. unfold current_version. cbn. by rewrite Hn.
  - eapply (reports_insert _ _ _ ResearchClaim); [done|done|done|intros; apply version_claims|]. unfold current_version. cbn. by rewrite Hn.
  - eapply (reports_insert _ _ _ LicenseDeclaration); [done|done|done|intros; apply version_licenses|]. unfold current_version. cbn. by rewrite Hn.
  - by apply reports_challenge.
  - by apply reports_resolution.
Qed.

(** ** Validation is total *)

Lemma map_err_total {E F A} (f : E -> F) (r : result E A) : r <> Panic -> map_err f r <> Panic.
Proof. by destruct r. Qed.

Lemma shares_total shares allow : validate_claim_shares shares allow <> Panic.
Proof.
  unfold validate_claim_shares. no_panic. apply (try_fold_not_panic (fun _ => True)); [done| |done].
  intros [t q] x _ _. unfold check_share, share_validate, key_validate. no_panic.
Qed.

Lemma evidence_total refs : validate_evidence_refs refs <> Panic.
Proof.
  unfold validate_evidence_refs. no_panic. apply (try_fold_not_panic (fun _ => True)); [done| |done].
  intros q x _ _. unfold check_evidence_ref, ref_validate, key_validate. no_panic.
Qed.

Lemma command_validate_total c : command_validate c <> Panic.
Proof.
  destruct c as [p|p|p|p|p|p|p]; cbn [command_validate];
    unfold match_validate, evaluation_validate, receipt_validate, claim_validate, license_validate, challenge_validate,
      resolution_validate, validate_ref_kind, ref_validate, key_validate, validate_digest, validate_positive, validate_timestamp,
      validate_spdx, validate_option_digest; no_panic; try apply evidence_total; try apply shares_total.
  - destruct (ev_reproduction_hash p); [apply fail_if_not_panic|done].
  - apply (try_fold_not_panic (fun _ => True)); [done| |done]. intros [t q] x _ _.
    unfold check_work, work_validate, key_validate, validate_positive, validate_digest. no_panic.
  - destruct (li_additional_terms_hash p); [apply fail_if_not_panic|done].
  - destruct (re_decision p); first [apply fail_if_not_panic|apply shares_total].
Qed.

Lemma validate_total `{CryptoCrates} s : validate s <> Panic.
Proof.
  unfold validate, validate_unsigned, validate_chain_id, validate_did. no_panic; apply map_err_total;
    [apply fail_if_not_panic|apply command_validate_total].
Qed.

(** ** One call of [apply] *)

Section histories.
Context `{CryptoCrates}.

Definition record_of (s : SignedResearchCommandV1) : AppliedCommandRecordV1 :=
  mkRecord (s_command_id s) (command_fingerprint s) (primary_object_ref (s_command s)).

(** A command that took effect: authorised and valid, new, handled, recorded. *)
Definition effect (s : SignedResearchCommandV1) (st st' : ResearchProtocolState) : Prop :=
  validate s = Ok tt /\ authorizes (rs_authorities st) s = true /\ rs_applied_commands st !! s_command_id s = None /\
  exists st1, handled st (s_command s) st1 /\ st' = upd_applied (<[s_command_id s := record_of s]>) st1.

Lemma validate_command s : validate s = Ok tt -> command_validate (s_command s) = Ok tt /\ s_command_id s <> ZERO32.
Proof.
  unfold validate, validate_unsigned. intros Hv. rinv. split.
  - by destruct (command_validate (s_command s)) as [[]| |].
  - match goal with H : map_err PayloadError (key_validate _ _) = Ok _ |- _ => unfold key_validate, fail_if in H;
      destruct (bool_decide (s_command_id s = ZERO32)) eqn:E; [done|] end. by bprop.
Qed.

Lemma apply_cases s st : wf st ->
  match apply s st with
  | (Ok (Applied r refs), st') => effect s st st' /\ r = primary_object_ref (s_command s) /\
      forall x, x ∈ refs <-> live st' x /\ ~ live st x
  | (Ok (Idempotent r refs), st') => st' = st /\ refs = [] /\ validate s = Ok tt /\ authorizes (rs_authorities st) s = true /\
      exists rec, rs_applied_commands st !! s_command_id s = Some rec /\
        ar_fingerprint rec = command_fingerprint s /\ ar_primary_object_ref rec = r
  | (Err _, st') => st' = st
  | (Panic, _) => versions_full st
  end.
Proof.
  intros W. unfold apply. unfold mbind at 1, SE_bind at 1, get_self at 1. cbv beta iota.
  unfold mbind at 1, SE_bind at 1, lift at 1. destruct (validate s) as [[]|e|] eqn:Hv; cbn [map_err]; [|done|by destruct (validate_total s)].
  unfold mbind at 1, SE_bind at 1, lift at 1. destruct (authorizes (rs_authorities st) s) eqn:Hau; cbn [negb fail_if]; [|done].
  cbv zeta. destruct (rs_applied_commands st !! s_command_id s) as [rec|] eqn:Hrec.
  { destruct (bool_decide (ar_fingerprint rec = command_fingerprint s)) eqn:Hf; cbn; [|done]. bprop. split_and!; eauto. }
  destruct (validate_command s Hv) as [Hc _]. pose proof (apply_command_step st (s_command s) Hc) as Hs.
  unfold mbind at 1, SE_bind at 1. destruct (apply_command (s_command s) st) as [[r|e|] st1]; cbn in Hs; [|done|done].
  destruct Hs as [-> Hs]. destruct (handled_reports _ _ _ W Hs) as (l & Hl & Hin).
  unfold mbind, SE_bind, modify_self, get_self, lift, mret, SE_ret.
  change (changed_object_refs_for (upd_applied ?f st1)) with (changed_object_refs_for st1). rewrite Hl.
  split_and!; try done. unfold effect. split_and!; eauto.
Qed.

(** ** Histories *)

Inductive reachable : ResearchProtocolState -> Prop :=
| reachable_genesis a st : with_authorities a = Ok st -> reachable st
| reachable_apply s st outcome st' : reachable st -> apply s st = (Ok outcome, st') -> reachable st'.

(** Calls one after the other, failed ones included. *)
Inductive history : ResearchProtocolState -> ResearchProtocolState -> Prop :=
| history_done st : history st st
| history_apply s st r st1 st2 : apply s st = (r, st1) -> r <> Panic -> history st1 st2 -> history st st2.

Lemma effect_wf s st st' : wf st -> effect s st st' -> wf st' /\ grows st st'.
Proof.
  intros W (Hv & _ & Hn & st1 & Hs & ->). destruct (validate_command s Hv) as [Hc Hz].
  pose proof (handled_wf _ _ _ W Hc Hs) as W1. pose proof (handled_grows _ _ _ Hs) as G1.
  assert (Ha : rs_applied_commands st1 = rs_applied_commands st) by (by destruct Hs).
  split.
  - destruct W1. split; try done. apply map_Forall_insert_2; [|done]. split_and!; [done..|]. cbn.
    destruct (handled_reports _ _ _ W Hs) as (l & Hl & Hin).
    change (is_Some (current_version st1 (primary_object_ref (s_command s)))).
    assert (primary_object_ref (s_command s) ∈ l) as Hp.
    { unfold changed_object_refs_for in Hl. rinv. subst l. apply elem_of_changed.
      destruct (s_command s); rinv; subst; repeat case_match; set_solver. }
    apply Hin in Hp as [Hp _]. by rewrite Hp.
  - destruct G1. split; try done. cbn. rewrite Ha. by apply insert_subseteq.
Qed.

Lemma apply_wf s st r st' : wf st -> apply s st = (r, st') -> r <> Panic -> wf st' /\ grows st st'.
Proof.
  intros W E Hp. pose proof (apply_cases s st W) as Hc. rewrite E in Hc. destruct r as [[]|e|]; [|naive_solver..].
  destruct Hc as [He _]. by eapply effect_wf.
Qed.

Lemma reachable_is_wf st : reachable st -> wf st.
Proof.
  induction 1 as [a st Hi|s st o st' _ IH E].
  - unfold with_authorities in Hi. rinv. subst st. destruct r. split; cbn; try done; apply map_Forall_empty.
  - by eapply apply_wf.
Qed.

Lemma history_grows st st' : wf st -> history st st' -> wf st' /\ grows st st'.
Proof.
  intros W Hh. induction Hh as [|s st r st1 st2 E Hp _ IH]; [done|].
  destruct (apply_wf _ _ _ _ W E Hp) as [W1 G1]. destruct (IH W1) as [W2 G2]. split; [done|]. by etrans.
Qed.

Lemma history_reachable st st' : reachable st -> history st st' -> reachable st'.
Proof.
  intros R Hh. induction Hh as [|s st r st1 st2 E Hp _ IH]; [done|]. apply IH. destruct r as [o|e|]; [|..|done].
  - by eapply reachable_apply.
  - pose proof (apply_cases s st (reachable_is_wf _ R)) as Hc. rewrite E in Hc. by subst st1.
Qed.

(** Each version of a claim costs a recorded command. *)
Definition versions_bounded (st : ResearchProtocolState) : Prop :=
  map_Forall (fun _ c => r_version (co_ref c) <= Z.of_nat (size (rs_applied_commands st))) (rs_claims st).

Lemma effect_bounded s st st' : versions_bounded st -> effect s st st' -> versions_bounded st'.
Proof.
  intros B (_ & _ & Hn & st1 & Hs & ->). unfold versions_bounded. cbn [rs_claims rs_applied_commands upd_applied].
  assert (Ha : rs_applied_commands st1 = rs_applied_commands st) by (by destruct Hs).
  rewrite Ha, map_size_insert_None by done.
  assert (B' : map_Forall (fun _ c => r_version (co_ref c) <= Z.of_nat (S (size (rs_applied_commands st)))) (rs_claims st)).
  { eapply map_Forall_impl; [exact B|]. intros k c Hc. cbv beta in *. lia. }
  destruct Hs; cbn; try done; apply map_Forall_insert_2; try done; cbn; try lia.
  - match goal with Hc : rs_claims st !! _ = Some _ |- _ => specialize (B _ _ Hc) end. cbv beta in B. lia.
  - match goal with Hc : rs_claims st !! _ = Some _ |- _ => specialize (B _ _ Hc) end. cbv beta in B.
    unfold resolved_claim. destruct (re_decision p); cbn; lia.
Qed.

Lemma reachable_bounded st : reachable st -> versions_bounded st.
Proof.
  induction 1 as [a st Hi|s st o st' R IH E].
  - unfold with_authorities in Hi. rinv. subst st. apply map_Forall_empty.
  - pose proof (apply_cases s st (reachable_is_wf _ R)) as Hc. rewrite E in Hc. destruct o; [|by destruct Hc as [-> _]].
    destruct Hc as [He _]. by eapply effect_bounded.
Qed.

Lemma reachable_not_full st : reachable st -> Z.of_nat (size (rs_applied_commands st)) < u64_max -> ~ versions_full st.
Proof.
  intros R Hsz [(k & c & Hc & Hv)|(k & h & Hh & Hv)].
  - pose proof (reachable_bounded _ R _ _ Hc) as B. cbv beta in B. lia.
  - pose proof (wf_challenge_links _ (reachable_is_wf _ R) _ _ Hh) as Hl. unfold challenge_linked in Hl.
    destruct (ho_status h); destruct Hl as [E _]; rewrite E in Hv; unfold u64_max in Hv; lia.
Qed.

(** ** Claims *)

(** C25: the strict decoder of signed research commands is exact: on any byte
    string it returns a command exactly when the bytes are that command's
    deterministic encoding, the command's fields have their Rust types, and the
    command validates (fields, role, payload and signature).  So no two byte strings
    decode to the same command, no canonical encoding of a valid one is refused, and
    overlong integers, wrong lengths, unknown tags and trailing bytes never pass. *)
Theorem signed_codec_exact bs s : Forall is_byte bs -> zlen bs <= u64_max ->
  signed_from_canonical_bytes bs = Ok s <->
  typed_signed s /\ encode_signed s = bs /\ validate s = Ok tt.
Proof. apply signed_codec. Qed.

(** C4: after any history of calls the research graph is well formed: every object
    carries its own kind, key and version and a payload that validates; evaluations,
    receipts, claims, licenses, challenges and resolutions refer to objects that are
    there, in time order; the current shares of a claim are a valid allocation among
    contributors whose work its receipt accepted; a claim is challenged exactly
    while it has an active challenge, which is open and of that claim; resolved
    challenges and resolutions name each other; every applied command's object is
    there. *)
Theorem research_graph_well_formed st : reachable st -> wf st.
Proof. apply reachable_is_wf. Qed.

(** C28: a signed research command takes effect at most once.  Once [apply] has
    applied it, then after any further calls the same command is answered with its
    recorded object and changes nothing, and a valid, authorised command that
    reuses its id with other signed bytes is refused as an altered replay. *)
Theorem command_takes_effect_once s st r refs st1 st2 :
  reachable st -> apply s st = (Ok (Applied r refs), st1) -> history st1 st2 ->
  apply s st2 = (Ok (Idempotent r []), st2) /\
  forall s', s_command_id s' = s_command_id s -> command_fingerprint s' <> command_fingerprint s ->
    validate s' = Ok tt -> authorizes (rs_authorities st2) s' = true ->
    apply s' st2 = (Err (AlteredReplay (s_command_id s)), st2).
Proof.
  intros R E Hh. pose proof (reachable_is_wf _ R) as W. pose proof (apply_cases s st W) as Hc. rewrite E in Hc.
  destruct Hc as (He & -> & _). destruct (effect_wf _ _ _ W He) as [W1 G1]. destruct (history_grows _ _ W1 Hh) as [W2 G2].
  destruct He as (Hv & Hau & _ & st0 & _ & ->).
  assert (Hrec : rs_applied_commands st2 !! s_command_id s = Some (record_of s)).
  { eapply lookup_weaken; [|apply (g_applied _ _ G2)]. cbn. apply lookup_insert_eq. }
  assert (Hauth : rs_authorities st2 = rs_authorities st) by (rewrite (g_authorities _ _ G2), (g_authorities _ _ G1); done).
  split.
  - unfold apply, mbind, SE_bind, get_self, lift. rewrite Hv, Hauth, Hau. cbn [map_err negb fail_if]. cbv zeta.
    rewrite Hrec. by rewrite bool_decide_eq_true_2.
  - intros s' Hid Hfp Hv' Hau'. unfold apply, mbind, SE_bind, get_self, lift. rewrite Hv', Hau'. cbn [map_err negb fail_if]. cbv zeta.
    rewrite Hid, Hrec. by rewrite bool_decide_eq_false_2 by (cbn; congruence).
Qed.

(** On any state reached with fewer than 2^64 - 1 applied commands, every call
    of [apply] returns, without a panic.  An error or an idempotent answer leaves
    the state as it was; an applied command only adds objects, or replaces a claim
    or challenge by a later version with the same payload, and reports exactly the
    references that became current. *)
Theorem apply_total_and_atomic s st :
  reachable st -> Z.of_nat (size (rs_applied_commands st)) < u64_max ->
  match apply s st with
  | (Ok (Applied r refs), st') => r = primary_object_ref (s_command s) /\ grows st st' /\
      forall x, x ∈ refs <-> live st' x /\ ~ live st x
  | (Ok (Idempotent _ _), st') => st' = st
  | (Err _, st') => st' = st
  | (Panic, _) => False
  end.
Proof.
  intros R Hsz. pose proof (reachable_is_wf _ R) as W. pose proof (apply_cases s st W) as Hc.
  destruct (apply s st) as [[[r refs|r refs]|e|] st'].
  - destruct Hc as (He & Hr & Hin). split_and!; [done| |done]. by eapply effect_wf.
  - by destruct Hc as [-> _].
  - done.
  - by destruct (reachable_not_full _ R Hsz).
Qed.

(** C12: the exported snapshot of any reached state reloads to exactly that state,
    unless some recorded fingerprint is the zero digest, and then the reload fails
    with [InvalidSnapshotGraph]. *)
Theorem snapshot_round_trip st : reachable st ->
  from_snapshot (export_snapshot st) =
    if existsb zero_fingerprint (btree_values (rs_applied_commands st)) then Err InvalidSnapshotGraph else Ok st.
Proof. intros R. by apply snapshot_reloads, reachable_is_wf. Qed.

End histories.
