(* ===== verification/ResearchWitness.v ===== *)
(** * ResearchWitness: a claim from match to amended shares

    A run of the research protocol on concrete signed commands, and the theorems of
    [ResearchTheorems] on it.  The signature scheme is the stand-in of
    [CryptoWitness]. *)

From stdpp Require Import base gmap list sorting strings.
From S2P Require Import Prelude Crypto CryptoWitness ResearchCbor ResearchTypes ResearchCommand ResearchCodec ResearchDecode ResearchState ResearchSteps ResearchInvariant ResearchSnapshot ResearchTheorems.

Definition demo_key (n : Z) : list Z := replicate 31 0 ++ [n].
Definition demo_nakama : AuthorityIdentityV1 := mkIdentity (str "did:trnm:nakama") (demo_key 201).
Definition demo_hepta : AuthorityIdentityV1 := mkIdentity (str "did:trnm:hepta") (demo_key 202).

Definition demo_sign (id : Z) (c : ResearchCommandV1) : SignedResearchCommandV1 :=
  let '(role, who) := match c with CMatchEvidence _ => (NakamaAuthority, demo_nakama) | _ => (HeptaAuthority, demo_hepta) end in
  mkSigned (str "trnm-1") (demo_key id) (ai_signer_did who) role id (ai_public_key who) c (ai_public_key who ++ replicate 32 7).

Definition demo_match_command := demo_sign 11 (CMatchEvidence
  (mkMatch (demo_key 1) (demo_key 2) (demo_key 3) (demo_key 4) (demo_key 5) (demo_key 6) (demo_key 7) (demo_key 8) 300 1000)).
Definition demo_match_ref := mkRef MatchEvidence (demo_key 1) 1.
Definition demo_evaluation_command := demo_sign 12 (CEvaluation
  (mkEvaluation (demo_key 21) demo_match_ref (demo_key 22) (demo_key 23) (demo_key 24) (Some (demo_key 25)) 9000 true 2000)).
Definition demo_evaluation_ref := mkRef EvaluationCommitment (demo_key 21) 1.
Definition demo_receipt_command := demo_sign 13 (CIssueWorkload
  (mkReceipt (demo_key 31) demo_evaluation_ref
     [mkWork (demo_key 101) Researcher 60 (demo_key 32); mkWork (demo_key 102) DataProvider 40 (demo_key 33)] 100 (demo_key 34) 3000)).
Definition demo_receipt_ref := mkRef WorkloadReceipt (demo_key 31) 1.
Definition demo_claim_command := demo_sign 14 (CCreateClaim
  (mkClaim (demo_key 41) demo_receipt_ref [demo_match_ref; demo_evaluation_ref] (demo_key 42) (demo_key 43)
     [mkShare (demo_key 101) 10000] 4000)).
Definition demo_license_command := demo_sign 15 (CDeclareLicense
  (mkLicense (demo_key 51) (mkRef ResearchClaim (demo_key 41) 1) (demo_key 101) Artifact (str "MIT OR Apache-2.0") None 5000)).
Definition demo_challenge_command := demo_sign 16 (CChallengeClaim
  (mkChallenge (demo_key 61) (mkRef ResearchClaim (demo_key 41) 1) (demo_key 102) ContributionAllocation (demo_key 62) 6000)).
Definition demo_resolution_command := demo_sign 17 (CResolveClaim
  (mkResolution (demo_key 71) (mkRef ClaimChallenge (demo_key 61) 1) AmendContributorShares (demo_key 72)
     [mkShare (demo_key 101) 6000; mkShare (demo_key 102) 4000] 7000)).

Definition demo_genesis : ResearchProtocolState :=
  mkState (mkAuthorities [demo_nakama] [demo_hepta]) ∅ ∅ ∅ ∅ ∅ ∅ ∅ ∅.

Fixpoint run_all (commands : list SignedResearchCommandV1) (st : ResearchProtocolState) : option ResearchProtocolState :=
  match commands with
  | [] => Some st
  | s :: commands => match apply s st with (Ok _, st') => run_all commands st' | _ => None end
  end.

Lemma run_all_reachable commands st st' : reachable st -> run_all commands st = Some st' -> reachable st'.
Proof.
  revert st. induction commands as [|s l IH]; intros st R E; cbn in E; [by simplify_eq|].
  destruct (apply s st) as [[o|e|] st1] eqn:Ha; [|done..]. eapply IH; [|exact E]. by eapply reachable_apply.
Qed.

Lemma run_all_default commands st : is_Some (run_all commands st) -> reachable st -> reachable (default st (run_all commands st)).
Proof. intros [st' E] R. rewrite E. by eapply run_all_reachable. Qed.

Lemma demo_genesis_reachable : reachable demo_genesis.
Proof. apply (reachable_genesis (mkAuthorities [demo_nakama] [demo_hepta])). vm_compute. reflexivity. Qed.

Definition demo_commands : list SignedResearchCommandV1 :=
  [demo_match_command; demo_evaluation_command; demo_receipt_command; demo_claim_command; demo_license_command;
   demo_challenge_command; demo_resolution_command].
Definition demo_claimed : ResearchProtocolState := default demo_genesis (run_all (take 4 demo_commands) demo_genesis).
Definition demo_final : ResearchProtocolState := default demo_genesis (run_all demo_commands demo_genesis).

Lemma demo_claimed_reachable : reachable demo_claimed.
Proof. apply run_all_default; [|apply demo_genesis_reachable]. vm_compute. by eexists. Qed.
Lemma demo_final_reachable : reachable demo_final.
Proof. apply run_all_default; [|apply demo_genesis_reachable]. vm_compute. by eexists. Qed.

(** The resolution amended the shares of the claim, now at version 3. *)
Example demo_amended : (fun o => (r_version (co_ref o), co_status o, sh_bps <$> co_current_claimants o)) <$> rs_claims demo_final !! demo_key 41
  = Some (3, Amended, [6000; 4000]).
Proof. vm_compute. reflexivity. Qed.

Definition demo_bytes : list Z := Eval vm_compute in encode_signed demo_resolution_command.

Lemma signed_codec_exact_witness : Forall is_byte demo_bytes /\ zlen demo_bytes <= u64_max /\
  (signed_from_canonical_bytes demo_bytes = Ok demo_resolution_command <->
   typed_signed demo_resolution_command /\ encode_signed demo_resolution_command = demo_bytes /\
   validate demo_resolution_command = Ok tt) /\
  signed_from_canonical_bytes demo_bytes = Ok demo_resolution_command.
Proof.
  assert (Forall is_byte demo_bytes) as Hb by (apply all_bytes_ok; vm_compute; reflexivity).
  assert (zlen demo_bytes <= u64_max) as Hl by (vm_compute; discriminate).
  split; [exact Hb|]. split; [exact Hl|]. split; [exact (signed_codec_exact demo_bytes demo_resolution_command Hb Hl)|].
  vm_compute. reflexivity.
Defined.

Lemma research_graph_well_formed_witness : reachable demo_final /\ wf demo_final.
Proof. split; [exact demo_final_reachable|]. exact (research_graph_well_formed demo_final demo_final_reachable). Defined.

Definition demo_challenged : ResearchProtocolState := (apply demo_challenge_command demo_claimed).2.
Definition demo_closed : ResearchProtocolState := (apply demo_resolution_command demo_challenged).2.
Definition demo_challenge_refs : list ObjectRefV1 := [mkRef ResearchClaim (demo_key 41) 2; mkRef ClaimChallenge (demo_key 61) 1].

Lemma demo_challenge_applied :
  apply demo_challenge_command demo_claimed = (Ok (Applied (mkRef ClaimChallenge (demo_key 61) 1) demo_challenge_refs), demo_challenged).
Proof. vm_compute. reflexivity. Qed.
Lemma demo_closing_history : history demo_challenged demo_closed.
Proof.
  eapply (history_apply demo_resolution_command); [vm_compute; reflexivity|discriminate|]. vm_compute. apply history_done.
Qed.

Lemma command_takes_effect_once_witness : reachable demo_claimed /\
  apply demo_challenge_command demo_closed = (Ok (Idempotent (mkRef ClaimChallenge (demo_key 61) 1) []), demo_closed).
Proof.
  split; [exact demo_claimed_reachable|].
  exact (proj1 (command_takes_effect_once demo_challenge_command demo_claimed _ _ demo_challenged demo_closed
    demo_claimed_reachable demo_challenge_applied demo_closing_history)).
Defined.

Lemma apply_total_and_atomic_witness : Z.of_nat (size (rs_applied_commands demo_claimed)) < u64_max /\
  forall x, x ∈ demo_challenge_refs <-> live demo_challenged x /\ ~ live demo_claimed x.
Proof.
  assert (Z.of_nat (size (rs_applied_commands demo_claimed)) < u64_max) as Hs by (vm_compute; reflexivity).
  split; [exact Hs|]. pose proof (apply_total_and_atomic demo_challenge_command demo_claimed demo_claimed_reachable Hs) as Ht.
  rewrite demo_challenge_applied in Ht. apply Ht.
Defined.

Lemma snapshot_round_trip_witness : reachable demo_final /\ from_snapshot (export_snapshot demo_final) = Ok demo_final.
Proof.
  split; [exact demo_final_reachable|]. rewrite (snapshot_round_trip demo_final demo_final_reachable). vm_compute. reflexivity.
Defined.

(** The graph check of the reload is weaker than the invariant: it accepts a
    challenged claim whose active challenge does not exist.  Such a claim can be
    neither licensed nor challenged, and no resolution can name its challenge. *)
Definition demo_dangling : ResearchProtocolState :=
  upd_claims (alter (fun c => mkClaimObject (co_ref c) (co_claim c) (co_current_claimants c) Challenged (Some (demo_key 99))) (demo_key 41))
    demo_claimed.

Lemma reload_accepts_dangling_challenge :
  from_snapshot (export_snapshot demo_dangling) = Ok demo_dangling /\ ~ wf demo_dangling.
Proof.
  split; [vm_compute; reflexivity|]. intros W.
  assert (exists c, rs_claims demo_dangling !! demo_key 41 = Some c /\ co_active_challenge c = Some (demo_key 99)) as (c & Hc & Ha).
  { vm_compute. by eexists. }
  destruct (wf_claim_links _ W _ _ Hc) as [_ Hl]. destruct (Hl _ Ha) as (h & Hh & _). vm_compute in Hh. discriminate Hh.
Qed.
