(* ===== verification/KernelTypes.v ===== *)
(** * KernelTypes: data, errors and encoding of [trnm-task-kernel]

    [types.rs], [error.rs] and [codec.rs].  An identifier is 32 bytes, an integer
    is a [Z] whose width [typed_*] states, a [String] its code points.  Errors are
    their codes: the message is a diagnostic text.  [borsh] is third-party code:
    the class [KernelCrates] has its two functions for every type the crate
    stores, [KernelLaws] what the crate documents (decoding inverts encoding and
    yields values of the Rust type) together with the width of a SHA-256 digest. *)

From stdpp Require Import base gmap list sorting strings.
From S2P Require Import Prelude Crypto.

Abbreviation Hash32V1 := (list Z).

(** [Hash32V1::default()] *)
Definition zero_hash : Hash32V1 := replicate 32 0.

Definition PROTOCOL_VERSION_V1 : Z := 1.
Definition SCHEMA_VERSION_V1 : Z := 1.
Definition CONTROLLER_LANE_V1 : Z := 0.
Definition CONTROLLER_SENTINEL_KEY_V1 : Hash32V1 := zero_hash.

(** ** The Rust types of the fields *)

Definition is_width (m z : Z) : bool := (0 <=? z) && (z <=? m).
Definition is_u8 : Z -> bool := is_width u8_max.
Definition is_u16 : Z -> bool := is_width u16_max.
Definition is_u32 : Z -> bool := is_width u32_max.
Definition is_u64 : Z -> bool := is_width u64_max.
Definition is_u128 : Z -> bool := is_width u128_max.
Definition is_hash (h : Hash32V1) : bool := (zlen h =? 32) && forallb is_u8 h.
Definition is_string (s : rstring) : bool := forallb (is_width 1114111) s.
#[global] Arguments is_width : simpl never.
#[global] Arguments is_u8 : simpl never.
#[global] Arguments is_u16 : simpl never.
#[global] Arguments is_u32 : simpl never.
#[global] Arguments is_u64 : simpl never.
#[global] Arguments is_u128 : simpl never.
#[global] Arguments is_hash : simpl never.
#[global] Arguments is_string : simpl never.
Definition typed_opt {A} (f : A -> bool) (o : option A) : bool :=
  match o with Some a => f a | None => true end.

(** [Option<T>]: [None] is less than every [Some]. *)
Definition option_cmp {A} `{RustOrd A} (x y : option A) : comparison :=
  match x, y with
  | None, None => Eq
  | None, Some _ => Lt
  | Some _, None => Gt
  | Some a, Some b => cmp a b
  end.

#[export] Program Instance option_ord {A} `{RustOrd A} : RustOrd (option A) := {| cmp := option_cmp |}.
Next Obligation.
  intros A ? [a|] [b|]; simpl; try naive_solver.
  rewrite cmp_eq. naive_solver.
Qed.
Next Obligation. intros A ? [a|] [b|]; simpl; try done. apply cmp_antisym. Qed.
Next Obligation. intros A ? [a|] [b|] [c|]; simpl; try done. apply cmp_lt_trans. Qed.

(** ** Records ([types.rs]) *)

Record ProtocolContextV1 := mkContext {
  pc_genesis_hash : Hash32V1;
  pc_chain_id : rstring;
  pc_protocol_version : Z;
  pc_stack_profile_hash : Hash32V1;
}.
#[export] Instance ProtocolContextV1_eq_dec : EqDecision ProtocolContextV1.
Proof. solve_decision. Defined.
Definition typed_pc (v : ProtocolContextV1) : bool :=
  is_hash (pc_genesis_hash v)
  && is_string (pc_chain_id v)
  && is_u32 (pc_protocol_version v)
  && is_hash (pc_stack_profile_hash v).
#[global] Arguments typed_pc : simpl never.

Record BootstrapAgentV1 := mkAgent {
  ba_agent_id : Hash32V1;
  ba_controller_key_id : Hash32V1;
  ba_controller_public_key : Hash32V1;
  ba_session_key_id : Hash32V1;
  ba_session_public_key : Hash32V1;
}.
#[export] Instance BootstrapAgentV1_eq_dec : EqDecision BootstrapAgentV1.
Proof. solve_decision. Defined.
Definition typed_ba (v : BootstrapAgentV1) : bool :=
  is_hash (ba_agent_id v)
  && is_hash (ba_controller_key_id v)
  && is_hash (ba_controller_public_key v)
  && is_hash (ba_session_key_id v)
  && is_hash (ba_session_public_key v).
#[global] Arguments typed_ba : simpl never.

Record AccountBodyV1 := mkAccountBody {
  ab_schema_version : Z;
  ab_context : ProtocolContextV1;
  ab_owner_agent_id : Hash32V1;
  ab_asset_id : Hash32V1;
  ab_account_nonce : Hash32V1;
}.
#[export] Instance AccountBodyV1_eq_dec : EqDecision AccountBodyV1.
Proof. solve_decision. Defined.
Definition typed_ab (v : AccountBodyV1) : bool :=
  is_u16 (ab_schema_version v)
  && typed_pc (ab_context v)
  && is_hash (ab_owner_agent_id v)
  && is_hash (ab_asset_id v)
  && is_hash (ab_account_nonce v).
#[global] Arguments typed_ab : simpl never.

Record BondBodyV1 := mkBondBody {
  bb_schema_version : Z;
  bb_context : ProtocolContextV1;
  bb_owner_agent_id : Hash32V1;
  bb_asset_id : Hash32V1;
  bb_purpose : Z;
  bb_source_object_kind : Z;
  bb_source_object_id : Hash32V1;
  bb_bond_nonce : Hash32V1;
}.
#[export] Instance BondBodyV1_eq_dec : EqDecision BondBodyV1.
Proof. solve_decision. Defined.
Definition typed_bb (v : BondBodyV1) : bool :=
  is_u16 (bb_schema_version v)
  && typed_pc (bb_context v)
  && is_hash (bb_owner_agent_id v)
  && is_hash (bb_asset_id v)
  && is_u16 (bb_purpose v)
  && is_u16 (bb_source_object_kind v)
  && is_hash (bb_source_object_id v)
  && is_hash (bb_bond_nonce v).
#[global] Arguments typed_bb : simpl never.

Record AgentMarketFreshGenesisTrustBundleV1 := mkBundle {
  tb_schema_version : Z;
  tb_context : ProtocolContextV1;
  tb_initial_order_height : Z;
  tb_initial_order_block_id : Hash32V1;
  tb_requester : BootstrapAgentV1;
  tb_provider : BootstrapAgentV1;
  tb_requester_account_body : AccountBodyV1;
  tb_requester_account_id : Hash32V1;
  tb_requester_account_funding : Z;
  tb_provider_bond_body : BondBodyV1;
  tb_provider_bond_id : Hash32V1;
  tb_provider_bond_funding : Z;
  tb_provider_bond_hold : Z;
}.
#[export] Instance AgentMarketFreshGenesisTrustBundleV1_eq_dec : EqDecision AgentMarketFreshGenesisTrustBundleV1.
Proof. solve_decision. Defined.
Definition typed_tb (v : AgentMarketFreshGenesisTrustBundleV1) : bool :=
  is_u16 (tb_schema_version v)
  && typed_pc (tb_context v)
  && is_u64 (tb_initial_order_height v)
  && is_hash (tb_initial_order_block_id v)
  && typed_ba (tb_requester v)
  && typed_ba (tb_provider v)
  && typed_ab (tb_requester_account_body v)
  && is_hash (tb_requester_account_id v)
  && is_u128 (tb_requester_account_funding v)
  && typed_bb (tb_provider_bond_body v)
  && is_hash (tb_provider_bond_id v)
  && is_u128 (tb_provider_bond_funding v)
  && is_u128 (tb_provider_bond_hold v).
#[global] Arguments typed_tb : simpl never.

Record CommittedExecutionContextV1 := mkExecution {
  ex_schema_version : Z;
  ex_context : ProtocolContextV1;
  ex_expected_order_height : Z;
  ex_expected_order_block_id : Hash32V1;
  ex_order_height : Z;
  ex_order_block_id : Hash32V1;
}.
#[export] Instance CommittedExecutionContextV1_eq_dec : EqDecision CommittedExecutionContextV1.
Proof. solve_decision. Defined.
Definition typed_ex (v : CommittedExecutionContextV1) : bool :=
  is_u16 (ex_schema_version v)
  && typed_pc (ex_context v)
  && is_u64 (ex_expected_order_height v)
  && is_hash (ex_expected_order_block_id v)
  && is_u64 (ex_order_height v)
  && is_hash (ex_order_block_id v).
#[global] Arguments typed_ex : simpl never.

Record VerificationProfileRefV1 := mkProfileRef {
  vp_profile_id : list Z;
  vp_profile_version : Z;
  vp_profile_hash : Hash32V1;
}.
#[export] Instance VerificationProfileRefV1_eq_dec : EqDecision VerificationProfileRefV1.
Proof. solve_decision. Defined.
#[export] Instance VerificationProfileRefV1_ord : RustOrd VerificationProfileRefV1 :=
  derive_ord (fun x => (vp_profile_id x, vp_profile_version x, vp_profile_hash x))
    ltac:(intros [] []; simpl; congruence).
Definition typed_vp (v : VerificationProfileRefV1) : bool :=
  forallb is_u8 (vp_profile_id v)
  && is_u32 (vp_profile_version v)
  && is_hash (vp_profile_hash v).
#[global] Arguments typed_vp : simpl never.

Record OperationScopeV1 := mkOperationScope {
  os_operation_kind : Z;
  os_task_id : option Hash32V1;
  os_market_id : option Hash32V1;
  os_model_commitment : option Hash32V1;
  os_tool_commitment : option Hash32V1;
  os_endpoint_commitment : option Hash32V1;
  os_verification_profile : option VerificationProfileRefV1;
  os_privacy_lane : option Z;
  os_maximum_unit_price : option Z;
}.
#[export] Instance OperationScopeV1_eq_dec : EqDecision OperationScopeV1.
Proof. solve_decision. Defined.
#[export] Instance OperationScopeV1_ord : RustOrd OperationScopeV1 :=
  derive_ord (fun x => (os_operation_kind x, os_task_id x, os_market_id x, os_model_commitment x, os_tool_commitment x, os_endpoint_commitment x, os_verification_profile x, os_privacy_lane x, os_maximum_unit_price x))
    ltac:(intros [] []; simpl; congruence).
Definition typed_os (v : OperationScopeV1) : bool :=
  is_u16 (os_operation_kind v)
  && typed_opt is_hash (os_task_id v)
  && typed_opt is_hash (os_market_id v)
  && typed_opt is_hash (os_model_commitment v)
  && typed_opt is_hash (os_tool_commitment v)
  && typed_opt is_hash (os_endpoint_commitment v)
  && typed_opt typed_vp (os_verification_profile v)
  && typed_opt is_u8 (os_privacy_lane v)
  && typed_opt is_u128 (os_maximum_unit_price v).
#[global] Arguments typed_os : simpl never.

Record ResourceScopeV1 := mkResourceScope {
  rsc_resource_kind : Z;
  rsc_scope_mode : Z;
  rsc_allowed_ids : list Hash32V1;
  rsc_allowlist_commitment : option Hash32V1;
}.
#[export] Instance ResourceScopeV1_eq_dec : EqDecision ResourceScopeV1.
Proof. solve_decision. Defined.
#[export] Instance ResourceScopeV1_ord : RustOrd ResourceScopeV1 :=
  derive_ord (fun x => (rsc_resource_kind x, rsc_scope_mode x, rsc_allowed_ids x, rsc_allowlist_commitment x))
    ltac:(intros [] []; simpl; congruence).
Definition typed_rsc (v : ResourceScopeV1) : bool :=
  is_u16 (rsc_resource_kind v)
  && is_u8 (rsc_scope_mode v)
  && forallb is_hash (rsc_allowed_ids v)
  && typed_opt is_hash (rsc_allowlist_commitment v).
#[global] Arguments typed_rsc : simpl never.

Record AssetLimitV1 := mkLimit {
  al_asset_id : Hash32V1;
  al_maximum_amount : Z;
}.
#[export] Instance AssetLimitV1_eq_dec : EqDecision AssetLimitV1.
Proof. solve_decision. Defined.
#[export] Instance AssetLimitV1_ord : RustOrd AssetLimitV1 :=
  derive_ord (fun x => (al_asset_id x, al_maximum_amount x))
    ltac:(intros [] []; simpl; congruence).
Definition typed_al (v : AssetLimitV1) : bool :=
  is_hash (al_asset_id v)
  && is_u128 (al_maximum_amount v).
#[global] Arguments typed_al : simpl never.

Record CapabilityGrantBodyV1 := mkGrant {
  cg_schema_version : Z;
  cg_genesis_hash : Hash32V1;
  cg_chain_id : rstring;
  cg_protocol_version : Z;
  cg_stack_profile_hash : Hash32V1;
  cg_issuer_agent_id : Hash32V1;
  cg_issuer_key_id : Hash32V1;
  cg_delegate_agent_id : Hash32V1;
  cg_delegate_key_id : option Hash32V1;
  cg_parent_capability_id : option Hash32V1;
  cg_grant_nonce : Hash32V1;
  cg_operation_scopes : list OperationScopeV1;
  cg_resource_scopes : list ResourceScopeV1;
  cg_spend_limits : list AssetLimitV1;
  cg_fee_limit : Z;
  cg_gas_limit : Z;
  cg_da_byte_limit : Z;
  cg_artifact_retention_limit : Z;
  cg_allowed_nonce_lanes : list Z;
  cg_valid_from_height : Z;
  cg_expires_after_height : Z;
  cg_rate_window_blocks : Z;
  cg_rate_max_operations : Z;
  cg_max_total_operations : Z;
  cg_delegation_depth_remaining : Z;
  cg_revocation_generation : Z;
  cg_conditions_hash : Hash32V1;
}.
#[export] Instance CapabilityGrantBodyV1_eq_dec : EqDecision CapabilityGrantBodyV1.
Proof. solve_decision. Defined.
Definition typed_cg (v : CapabilityGrantBodyV1) : bool :=
  is_u16 (cg_schema_version v)
  && is_hash (cg_genesis_hash v)
  && is_string (cg_chain_id v)
  && is_u32 (cg_protocol_version v)
  && is_hash (cg_stack_profile_hash v)
  && is_hash (cg_issuer_agent_id v)
  && is_hash (cg_issuer_key_id v)
  && is_hash (cg_delegate_agent_id v)
  && typed_opt is_hash (cg_delegate_key_id v)
  && typed_opt is_hash (cg_parent_capability_id v)
  && is_hash (cg_grant_nonce v)
  && forallb typed_os (cg_operation_scopes v)
  && forallb typed_rsc (cg_resource_scopes v)
  && forallb typed_al (cg_spend_limits v)
  && is_u128 (cg_fee_limit v)
  && is_u64 (cg_gas_limit v)
  && is_u64 (cg_da_byte_limit v)
  && is_u64 (cg_artifact_retention_limit v)
  && forallb is_u16 (cg_allowed_nonce_lanes v)
  && is_u64 (cg_valid_from_height v)
  && is_u64 (cg_expires_after_height v)
  && is_u64 (cg_rate_window_blocks v)
  && is_u64 (cg_rate_max_operations v)
  && is_u64 (cg_max_total_operations v)
  && is_u8 (cg_delegation_depth_remaining v)
  && is_u64 (cg_revocation_generation v)
  && is_hash (cg_conditions_hash v).
#[global] Arguments typed_cg : simpl never.

Record AssetBudgetCounterV1 := mkCounter {
  ac_asset_id : Hash32V1;
  ac_limit : Z;
  ac_spent : Z;
  ac_reserved : Z;
}.
#[export] Instance AssetBudgetCounterV1_eq_dec : EqDecision AssetBudgetCounterV1.
Proof. solve_decision. Defined.
Definition typed_ac (v : AssetBudgetCounterV1) : bool :=
  is_hash (ac_asset_id v)
  && is_u128 (ac_limit v)
  && is_u128 (ac_spent v)
  && is_u128 (ac_reserved v).
#[global] Arguments typed_ac : simpl never.

Record CapabilityBudgetStateV1 := mkBudget {
  cb_schema_version : Z;
  cb_context : ProtocolContextV1;
  cb_capability_id : Hash32V1;
  cb_budget_version : Z;
  cb_revocation_generation : Z;
  cb_asset_counters : list AssetBudgetCounterV1;
  cb_fee_limit : Z;
  cb_fee_spent : Z;
  cb_fee_reserved : Z;
  cb_gas_limit : Z;
  cb_gas_spent : Z;
  cb_gas_reserved : Z;
  cb_da_byte_limit : Z;
  cb_da_bytes_spent : Z;
  cb_da_bytes_reserved : Z;
  cb_retention_limit : Z;
  cb_retention_spent : Z;
  cb_retention_reserved : Z;
  cb_operation_limit : Z;
  cb_operations_spent : Z;
  cb_operations_reserved : Z;
  cb_rate_window_start_height : Z;
  cb_rate_window_operations : Z;
}.
#[export] Instance CapabilityBudgetStateV1_eq_dec : EqDecision CapabilityBudgetStateV1.
Proof. solve_decision. Defined.
Definition typed_cb (v : CapabilityBudgetStateV1) : bool :=
  is_u16 (cb_schema_version v)
  && typed_pc (cb_context v)
  && is_hash (cb_capability_id v)
  && is_u64 (cb_budget_version v)
  && is_u64 (cb_revocation_generation v)
  && forallb typed_ac (cb_asset_counters v)
  && is_u128 (cb_fee_limit v)
  && is_u128 (cb_fee_spent v)
  && is_u128 (cb_fee_reserved v)
  && is_u64 (cb_gas_limit v)
  && is_u64 (cb_gas_spent v)
  && is_u64 (cb_gas_reserved v)
  && is_u64 (cb_da_byte_limit v)
  && is_u64 (cb_da_bytes_spent v)
  && is_u64 (cb_da_bytes_reserved v)
  && is_u64 (cb_retention_limit v)
  && is_u64 (cb_retention_spent v)
  && is_u64 (cb_retention_reserved v)
  && is_u64 (cb_operation_limit v)
  && is_u64 (cb_operations_spent v)
  && is_u64 (cb_operations_reserved v)
  && is_u64 (cb_rate_window_start_height v)
  && is_u64 (cb_rate_window_operations v).
#[global] Arguments typed_cb : simpl never.

Record CapabilityStateV1 := mkCapability {
  cs_schema_version : Z;
  cs_context : ProtocolContextV1;
  cs_capability_id : Hash32V1;
  cs_state_version : Z;
  cs_status : Z;
  cs_live_revocation_generation : Z;
  cs_accepted_height : Z;
  cs_status_changed_height : Z;
  cs_revoked_at_height : option Z;
  cs_budget : CapabilityBudgetStateV1;
}.
#[export] Instance CapabilityStateV1_eq_dec : EqDecision CapabilityStateV1.
Proof. solve_decision. Defined.
Definition typed_cs (v : CapabilityStateV1) : bool :=
  is_u16 (cs_schema_version v)
  && typed_pc (cs_context v)
  && is_hash (cs_capability_id v)
  && is_u64 (cs_state_version v)
  && is_u8 (cs_status v)
  && is_u64 (cs_live_revocation_generation v)
  && is_u64 (cs_accepted_height v)
  && is_u64 (cs_status_changed_height v)
  && typed_opt is_u64 (cs_revoked_at_height v)
  && typed_cb (cs_budget v).
#[global] Arguments typed_cs : simpl never.

Record SessionKeyGrantBodyV1 := mkSessionGrant {
  sg_schema_version : Z;
  sg_genesis_hash : Hash32V1;
  sg_chain_id : rstring;
  sg_protocol_version : Z;
  sg_stack_profile_hash : Hash32V1;
  sg_agent_id : Hash32V1;
  sg_session_key_id : Hash32V1;
  sg_capability_id : Hash32V1;
  sg_allowed_nonce_lanes : list Z;
  sg_valid_from_height : Z;
  sg_expires_after_height : Z;
  sg_max_total_operations : Z;
  sg_session_generation : Z;
  sg_grant_nonce : Hash32V1;
}.
#[export] Instance SessionKeyGrantBodyV1_eq_dec : EqDecision SessionKeyGrantBodyV1.
Proof. solve_decision. Defined.
Definition typed_sg (v : SessionKeyGrantBodyV1) : bool :=
  is_u16 (sg_schema_version v)
  && is_hash (sg_genesis_hash v)
  && is_string (sg_chain_id v)
  && is_u32 (sg_protocol_version v)
  && is_hash (sg_stack_profile_hash v)
  && is_hash (sg_agent_id v)
  && is_hash (sg_session_key_id v)
  && is_hash (sg_capability_id v)
  && forallb is_u16 (sg_allowed_nonce_lanes v)
  && is_u64 (sg_valid_from_height v)
  && is_u64 (sg_expires_after_height v)
  && is_u64 (sg_max_total_operations v)
  && is_u64 (sg_session_generation v)
  && is_hash (sg_grant_nonce v).
#[global] Arguments typed_sg : simpl never.

Record SessionKeyGrantStateV1 := mkSession {
  ss_schema_version : Z;
  ss_context : ProtocolContextV1;
  ss_session_key_grant_id : Hash32V1;
  ss_state_version : Z;
  ss_status : Z;
  ss_session_generation : Z;
  ss_bound_capability_generation : Z;
  ss_operations_spent : Z;
  ss_accepted_height : Z;
  ss_status_changed_height : Z;
  ss_revoked_at_height : option Z;
}.
#[export] Instance SessionKeyGrantStateV1_eq_dec : EqDecision SessionKeyGrantStateV1.
Proof. solve_decision. Defined.
Definition typed_ss (v : SessionKeyGrantStateV1) : bool :=
  is_u16 (ss_schema_version v)
  && typed_pc (ss_context v)
  && is_hash (ss_session_key_grant_id v)
  && is_u64 (ss_state_version v)
  && is_u8 (ss_status v)
  && is_u64 (ss_session_generation v)
  && is_u64 (ss_bound_capability_generation v)
  && is_u64 (ss_operations_spent v)
  && is_u64 (ss_accepted_height v)
  && is_u64 (ss_status_changed_height v)
  && typed_opt is_u64 (ss_revoked_at_height v).
#[global] Arguments typed_ss : simpl never.

Record NonceLaneKeyBodyV1 := mkLaneKey {
  nb_schema_version : Z;
  nb_context : ProtocolContextV1;
  nb_agent_id : Hash32V1;
  nb_authorizing_key_id : Hash32V1;
  nb_capability_id : option Hash32V1;
  nb_session_generation : Z;
  nb_lane : Z;
}.
#[export] Instance NonceLaneKeyBodyV1_eq_dec : EqDecision NonceLaneKeyBodyV1.
Proof. solve_decision. Defined.
Definition typed_nb (v : NonceLaneKeyBodyV1) : bool :=
  is_u16 (nb_schema_version v)
  && typed_pc (nb_context v)
  && is_hash (nb_agent_id v)
  && is_hash (nb_authorizing_key_id v)
  && typed_opt is_hash (nb_capability_id v)
  && is_u64 (nb_session_generation v)
  && is_u16 (nb_lane v).
#[global] Arguments typed_nb : simpl never.

Record NonceLaneStateV1 := mkLane {
  ns_schema_version : Z;
  ns_context : ProtocolContextV1;
  ns_nonce_lane_id : Hash32V1;
  ns_state_version : Z;
  ns_agent_id : Hash32V1;
  ns_authorizing_key_id : Hash32V1;
  ns_capability_id : option Hash32V1;
  ns_session_generation : Z;
  ns_lane : Z;
  ns_next_nonce : Z;
  ns_last_operation_digest : option Hash32V1;
  ns_status : Z;
}.
#[export] Instance NonceLaneStateV1_eq_dec : EqDecision NonceLaneStateV1.
Proof. solve_decision. Defined.
Definition typed_ns (v : NonceLaneStateV1) : bool :=
  is_u16 (ns_schema_version v)
  && typed_pc (ns_context v)
  && is_hash (ns_nonce_lane_id v)
  && is_u64 (ns_state_version v)
  && is_hash (ns_agent_id v)
  && is_hash (ns_authorizing_key_id v)
  && typed_opt is_hash (ns_capability_id v)
  && is_u64 (ns_session_generation v)
  && is_u16 (ns_lane v)
  && is_u64 (ns_next_nonce v)
  && typed_opt is_hash (ns_last_operation_digest v)
  && is_u8 (ns_status v).
#[global] Arguments typed_ns : simpl never.

Record AssetChargeV1 := mkCharge {
  ch_asset_id : Hash32V1;
  ch_amount : Z;
}.
#[export] Instance AssetChargeV1_eq_dec : EqDecision AssetChargeV1.
Proof. solve_decision. Defined.
#[export] Instance AssetChargeV1_ord : RustOrd AssetChargeV1 :=
  derive_ord (fun x => (ch_asset_id x, ch_amount x))
    ltac:(intros [] []; simpl; congruence).
Definition typed_ch (v : AssetChargeV1) : bool :=
  is_hash (ch_asset_id v)
  && is_u128 (ch_amount v).
#[global] Arguments typed_ch : simpl never.

Record KernelResourceChargeV1 := mkResourceCharge {
  rc_asset_charges : list AssetChargeV1;
  rc_fee : Z;
  rc_gas : Z;
  rc_da_bytes : Z;
  rc_retention : Z;
  rc_operations : Z;
}.
#[export] Instance KernelResourceChargeV1_eq_dec : EqDecision KernelResourceChargeV1.
Proof. solve_decision. Defined.
Definition typed_rc (v : KernelResourceChargeV1) : bool :=
  forallb typed_ch (rc_asset_charges v)
  && is_u128 (rc_fee v)
  && is_u64 (rc_gas v)
  && is_u64 (rc_da_bytes v)
  && is_u64 (rc_retention v)
  && is_u64 (rc_operations v).
#[global] Arguments typed_rc : simpl never.

Record AccountStateV1 := mkAccount {
  as_schema_version : Z;
  as_context : ProtocolContextV1;
  as_account_id : Hash32V1;
  as_version : Z;
  as_available : Z;
  as_reserved : Z;
  as_spent : Z;
  as_closed : bool;
}.
#[export] Instance AccountStateV1_eq_dec : EqDecision AccountStateV1.
Proof. solve_decision. Defined.
Definition typed_as (v : AccountStateV1) : bool :=
  is_u16 (as_schema_version v)
  && typed_pc (as_context v)
  && is_hash (as_account_id v)
  && is_u64 (as_version v)
  && is_u128 (as_available v)
  && is_u128 (as_reserved v)
  && is_u128 (as_spent v).
#[global] Arguments typed_as : simpl never.

Record BondStateV1 := mkBond {
  bs_schema_version : Z;
  bs_context : ProtocolContextV1;
  bs_bond_id : Hash32V1;
  bs_version : Z;
  bs_available : Z;
  bs_held : Z;
  bs_released : Z;
  bs_slashed : Z;
  bs_closed : bool;
}.
#[export] Instance BondStateV1_eq_dec : EqDecision BondStateV1.
Proof. solve_decision. Defined.
Definition typed_bs (v : BondStateV1) : bool :=
  is_u16 (bs_schema_version v)
  && typed_pc (bs_context v)
  && is_hash (bs_bond_id v)
  && is_u64 (bs_version v)
  && is_u128 (bs_available v)
  && is_u128 (bs_held v)
  && is_u128 (bs_released v)
  && is_u128 (bs_slashed v).
#[global] Arguments typed_bs : simpl never.

Record EscrowTermsV1 := mkTerms {
  et_schema_version : Z;
  et_asset_id : Hash32V1;
  et_funded_amount : Z;
  et_provider_payment_cap : Z;
  et_order_fee_reserve : Z;
  et_transaction_da_fee_reserve : Z;
  et_artifact_da_fee_reserve : Z;
  et_verification_fee_reserve : Z;
  et_challenge_reserve : Z;
  et_refund_beneficiary : Hash32V1;
  et_settlement_policy_hash : Hash32V1;
}.
#[export] Instance EscrowTermsV1_eq_dec : EqDecision EscrowTermsV1.
Proof. solve_decision. Defined.
Definition typed_et (v : EscrowTermsV1) : bool :=
  is_u16 (et_schema_version v)
  && is_hash (et_asset_id v)
  && is_u128 (et_funded_amount v)
  && is_u128 (et_provider_payment_cap v)
  && is_u128 (et_order_fee_reserve v)
  && is_u128 (et_transaction_da_fee_reserve v)
  && is_u128 (et_artifact_da_fee_reserve v)
  && is_u128 (et_verification_fee_reserve v)
  && is_u128 (et_challenge_reserve v)
  && is_hash (et_refund_beneficiary v)
  && is_hash (et_settlement_policy_hash v).
#[global] Arguments typed_et : simpl never.

Record TaskOfferBodyV1 := mkOffer {
  to_schema_version : Z;
  to_genesis_hash : Hash32V1;
  to_chain_id : rstring;
  to_protocol_version : Z;
  to_stack_profile_hash : Hash32V1;
  to_requester_agent_id : Hash32V1;
  to_requester_key_id : Hash32V1;
  to_requester_capability_id : option Hash32V1;
  to_requester_session_generation : Z;
  to_request_nonce_lane : Z;
  to_request_nonce : Z;
  to_task_kind : list Z;
  to_task_spec_commitment : Hash32V1;
  to_input_artifacts : list Hash32V1;
  to_model_scope_commitment : Hash32V1;
  to_tool_scope_commitment : Hash32V1;
  to_verification_profile_id : list Z;
  to_verification_profile_version : Z;
  to_verification_profile_hash : Hash32V1;
  to_privacy_lane : Z;
  to_provider_policy_hash : Hash32V1;
  to_resource_limit_hash : Hash32V1;
  to_pricing_policy_hash : Hash32V1;
  to_escrow_terms_hash : Hash32V1;
  to_checkpoint_policy_hash : Hash32V1;
  to_migration_policy_hash : Hash32V1;
  to_challenge_policy_hash : Hash32V1;
  to_offer_expiry_height : Z;
  to_start_deadline_height : Z;
  to_result_deadline_height : Z;
  to_settlement_deadline_height : Z;
  to_requester_metadata_commitment : Hash32V1;
}.
#[export] Instance TaskOfferBodyV1_eq_dec : EqDecision TaskOfferBodyV1.
Proof. solve_decision. Defined.
Definition typed_to (v : TaskOfferBodyV1) : bool :=
  is_u16 (to_schema_version v)
  && is_hash (to_genesis_hash v)
  && is_string (to_chain_id v)
  && is_u32 (to_protocol_version v)
  && is_hash (to_stack_profile_hash v)
  && is_hash (to_requester_agent_id v)
  && is_hash (to_requester_key_id v)
  && typed_opt is_hash (to_requester_capability_id v)
  && is_u64 (to_requester_session_generation v)
  && is_u16 (to_request_nonce_lane v)
  && is_u64 (to_request_nonce v)
  && forallb is_u8 (to_task_kind v)
  && is_hash (to_task_spec_commitment v)
  && forallb is_hash (to_input_artifacts v)
  && is_hash (to_model_scope_commitment v)
  && is_hash (to_tool_scope_commitment v)
  && forallb is_u8 (to_verification_profile_id v)
  && is_u32 (to_verification_profile_version v)
  && is_hash (to_verification_profile_hash v)
  && is_u8 (to_privacy_lane v)
  && is_hash (to_provider_policy_hash v)
  && is_hash (to_resource_limit_hash v)
  && is_hash (to_pricing_policy_hash v)
  && is_hash (to_escrow_terms_hash v)
  && is_hash (to_checkpoint_policy_hash v)
  && is_hash (to_migration_policy_hash v)
  && is_hash (to_challenge_policy_hash v)
  && is_u64 (to_offer_expiry_height v)
  && is_u64 (to_start_deadline_height v)
  && is_u64 (to_result_deadline_height v)
  && is_u64 (to_settlement_deadline_height v)
  && is_hash (to_requester_metadata_commitment v).
#[global] Arguments typed_to : simpl never.

Record TaskCreationOperationBodyV1 := mkCreation {
  tc_task_offer_body : TaskOfferBodyV1;
  tc_escrow_terms : EscrowTermsV1;
  tc_funding_account_id : Hash32V1;
  tc_expected_funding_account_version : Z;
  tc_escrow_nonce : Hash32V1;
}.
#[export] Instance TaskCreationOperationBodyV1_eq_dec : EqDecision TaskCreationOperationBodyV1.
Proof. solve_decision. Defined.
Definition typed_tc (v : TaskCreationOperationBodyV1) : bool :=
  typed_to (tc_task_offer_body v)
  && typed_et (tc_escrow_terms v)
  && is_hash (tc_funding_account_id v)
  && is_u64 (tc_expected_funding_account_version v)
  && is_hash (tc_escrow_nonce v).
#[global] Arguments typed_tc : simpl never.

Record TaskStateV1 := mkTask {
  ts_schema_version : Z;
  ts_context : ProtocolContextV1;
  ts_task_id : Hash32V1;
  ts_revision : Z;
  ts_attempt : Z;
  ts_status : Z;
  ts_active_lease_id : option Hash32V1;
  ts_latest_checkpoint_id : option Hash32V1;
  ts_active_result_id : option Hash32V1;
  ts_escrow_id : Hash32V1;
  ts_active_deadline_kind : Z;
  ts_active_deadline_height : Z;
}.
#[export] Instance TaskStateV1_eq_dec : EqDecision TaskStateV1.
Proof. solve_decision. Defined.
Definition typed_ts (v : TaskStateV1) : bool :=
  is_u16 (ts_schema_version v)
  && typed_pc (ts_context v)
  && is_hash (ts_task_id v)
  && is_u64 (ts_revision v)
  && is_u32 (ts_attempt v)
  && is_u8 (ts_status v)
  && typed_opt is_hash (ts_active_lease_id v)
  && typed_opt is_hash (ts_latest_checkpoint_id v)
  && typed_opt is_hash (ts_active_result_id v)
  && is_hash (ts_escrow_id v)
  && is_u8 (ts_active_deadline_kind v)
  && is_u64 (ts_active_deadline_height v).
#[global] Arguments typed_ts : simpl never.

Record EscrowBodyV1 := mkEscrowBody {
  eb_schema_version : Z;
  eb_genesis_hash : Hash32V1;
  eb_chain_id : rstring;
  eb_protocol_version : Z;
  eb_stack_profile_hash : Hash32V1;
  eb_task_id : Hash32V1;
  eb_requester_agent_id : Hash32V1;
  eb_asset_id : Hash32V1;
  eb_funded_amount : Z;
  eb_provider_payment_cap : Z;
  eb_order_fee_reserve : Z;
  eb_transaction_da_fee_reserve : Z;
  eb_artifact_da_fee_reserve : Z;
  eb_verification_fee_reserve : Z;
  eb_challenge_reserve : Z;
  eb_refund_beneficiary : Hash32V1;
  eb_settlement_policy_hash : Hash32V1;
  eb_escrow_nonce : Hash32V1;
}.
#[export] Instance EscrowBodyV1_eq_dec : EqDecision EscrowBodyV1.
Proof. solve_decision. Defined.
Definition typed_eb (v : EscrowBodyV1) : bool :=
  is_u16 (eb_schema_version v)
  && is_hash (eb_genesis_hash v)
  && is_string (eb_chain_id v)
  && is_u32 (eb_protocol_version v)
  && is_hash (eb_stack_profile_hash v)
  && is_hash (eb_task_id v)
  && is_hash (eb_requester_agent_id v)
  && is_hash (eb_asset_id v)
  && is_u128 (eb_funded_amount v)
  && is_u128 (eb_provider_payment_cap v)
  && is_u128 (eb_order_fee_reserve v)
  && is_u128 (eb_transaction_da_fee_reserve v)
  && is_u128 (eb_artifact_da_fee_reserve v)
  && is_u128 (eb_verification_fee_reserve v)
  && is_u128 (eb_challenge_reserve v)
  && is_hash (eb_refund_beneficiary v)
  && is_hash (eb_settlement_policy_hash v)
  && is_hash (eb_escrow_nonce v).
#[global] Arguments typed_eb : simpl never.

Record EscrowReservationEntryV1 := mkReservation {
  er_reservation_kind : Z;
  er_source_object_kind : Z;
  er_source_object_id : Hash32V1;
  er_asset_id : Hash32V1;
  er_amount : Z;
  er_created_height : Z;
  er_release_condition_hash : Hash32V1;
}.
#[export] Instance EscrowReservationEntryV1_eq_dec : EqDecision EscrowReservationEntryV1.
Proof. solve_decision. Defined.
Definition typed_er (v : EscrowReservationEntryV1) : bool :=
  is_u16 (er_reservation_kind v)
  && is_u16 (er_source_object_kind v)
  && is_hash (er_source_object_id v)
  && is_hash (er_asset_id v)
  && is_u128 (er_amount v)
  && is_u64 (er_created_height v)
  && is_hash (er_release_condition_hash v).
#[global] Arguments typed_er : simpl never.

Record EscrowStateV1 := mkEscrow {
  es_schema_version : Z;
  es_context : ProtocolContextV1;
  es_escrow_id : Hash32V1;
  es_version : Z;
  es_available : Z;
  es_reserved : Z;
  es_disbursed : Z;
  es_refunded : Z;
  es_forfeited : Z;
  es_active_reservations : list EscrowReservationEntryV1;
  es_active_reservation_root : Hash32V1;
  es_last_settlement_id : option Hash32V1;
  es_closed : bool;
}.
#[export] Instance EscrowStateV1_eq_dec : EqDecision EscrowStateV1.
Proof. solve_decision. Defined.
Definition typed_es (v : EscrowStateV1) : bool :=
  is_u16 (es_schema_version v)
  && typed_pc (es_context v)
  && is_hash (es_escrow_id v)
  && is_u64 (es_version v)
  && is_u128 (es_available v)
  && is_u128 (es_reserved v)
  && is_u128 (es_disbursed v)
  && is_u128 (es_refunded v)
  && is_u128 (es_forfeited v)
  && forallb typed_er (es_active_reservations v)
  && is_hash (es_active_reservation_root v)
  && typed_opt is_hash (es_last_settlement_id v).
#[global] Arguments typed_es : simpl never.

Record BidBodyV1 := mkBidBody {
  bd_schema_version : Z;
  bd_genesis_hash : Hash32V1;
  bd_chain_id : rstring;
  bd_protocol_version : Z;
  bd_stack_profile_hash : Hash32V1;
  bd_task_id : Hash32V1;
  bd_task_revision : Z;
  bd_provider_agent_id : Hash32V1;
  bd_provider_key_id : Hash32V1;
  bd_provider_capability_id : option Hash32V1;
  bd_provider_session_generation : Z;
  bd_provider_nonce_lane : Z;
  bd_provider_nonce : Z;
  bd_price_asset_id : Hash32V1;
  bd_maximum_price : Z;
  bd_pricing_terms_hash : Hash32V1;
  bd_resource_offer_hash : Hash32V1;
  bd_execution_environment_hash : Hash32V1;
  bd_provider_bond_id : Hash32V1;
  bd_checkpoint_terms_hash : Hash32V1;
  bd_availability_terms_hash : Hash32V1;
  bd_bid_expiry_height : Z;
  bd_provider_metadata_commitment : Hash32V1;
}.
#[export] Instance BidBodyV1_eq_dec : EqDecision BidBodyV1.
Proof. solve_decision. Defined.
Definition typed_bd (v : BidBodyV1) : bool :=
  is_u16 (bd_schema_version v)
  && is_hash (bd_genesis_hash v)
  && is_string (bd_chain_id v)
  && is_u32 (bd_protocol_version v)
  && is_hash (bd_stack_profile_hash v)
  && is_hash (bd_task_id v)
  && is_u64 (bd_task_revision v)
  && is_hash (bd_provider_agent_id v)
  && is_hash (bd_provider_key_id v)
  && typed_opt is_hash (bd_provider_capability_id v)
  && is_u64 (bd_provider_session_generation v)
  && is_u16 (bd_provider_nonce_lane v)
  && is_u64 (bd_provider_nonce v)
  && is_hash (bd_price_asset_id v)
  && is_u128 (bd_maximum_price v)
  && is_hash (bd_pricing_terms_hash v)
  && is_hash (bd_resource_offer_hash v)
  && is_hash (bd_execution_environment_hash v)
  && is_hash (bd_provider_bond_id v)
  && is_hash (bd_checkpoint_terms_hash v)
  && is_hash (bd_availability_terms_hash v)
  && is_u64 (bd_bid_expiry_height v)
  && is_hash (bd_provider_metadata_commitment v).
#[global] Arguments typed_bd : simpl never.

Record BidStateV1 := mkBid {
  bt_schema_version : Z;
  bt_context : ProtocolContextV1;
  bt_bid_id : Hash32V1;
  bt_state_version : Z;
  bt_status : Z;
  bt_accepted_lease_id : option Hash32V1;
  bt_accepted_height : option Z;
  bt_terminal_height : option Z;
}.
#[export] Instance BidStateV1_eq_dec : EqDecision BidStateV1.
Proof. solve_decision. Defined.
Definition typed_bt (v : BidStateV1) : bool :=
  is_u16 (bt_schema_version v)
  && typed_pc (bt_context v)
  && is_hash (bt_bid_id v)
  && is_u64 (bt_state_version v)
  && is_u8 (bt_status v)
  && typed_opt is_hash (bt_accepted_lease_id v)
  && typed_opt is_u64 (bt_accepted_height v)
  && typed_opt is_u64 (bt_terminal_height v).
#[global] Arguments typed_bt : simpl never.

Record TaskLeaseBodyV1 := mkLeaseBody {
  lb_schema_version : Z;
  lb_genesis_hash : Hash32V1;
  lb_chain_id : rstring;
  lb_protocol_version : Z;
  lb_stack_profile_hash : Hash32V1;
  lb_task_id : Hash32V1;
  lb_base_task_revision : Z;
  lb_attempt : Z;
  lb_accepted_bid_id : Hash32V1;
  lb_requester_agent_id : Hash32V1;
  lb_provider_agent_id : Hash32V1;
  lb_escrow_id : Hash32V1;
  lb_provider_bond_id : Hash32V1;
  lb_resume_checkpoint_id : option Hash32V1;
  lb_execution_environment_hash : Hash32V1;
  lb_verification_profile_id : list Z;
  lb_verification_profile_version : Z;
  lb_verification_profile_hash : Hash32V1;
  lb_pricing_terms_hash : Hash32V1;
  lb_checkpoint_terms_hash : Hash32V1;
  lb_availability_terms_hash : Hash32V1;
  lb_start_deadline_height : Z;
  lb_checkpoint_deadline_height : Z;
  lb_result_deadline_height : Z;
  lb_lease_nonce : Hash32V1;
}.
#[export] Instance TaskLeaseBodyV1_eq_dec : EqDecision TaskLeaseBodyV1.
Proof. solve_decision. Defined.
Definition typed_lb (v : TaskLeaseBodyV1) : bool :=
  is_u16 (lb_schema_version v)
  && is_hash (lb_genesis_hash v)
  && is_string (lb_chain_id v)
  && is_u32 (lb_protocol_version v)
  && is_hash (lb_stack_profile_hash v)
  && is_hash (lb_task_id v)
  && is_u64 (lb_base_task_revision v)
  && is_u32 (lb_attempt v)
  && is_hash (lb_accepted_bid_id v)
  && is_hash (lb_requester_agent_id v)
  && is_hash (lb_provider_agent_id v)
  && is_hash (lb_escrow_id v)
  && is_hash (lb_provider_bond_id v)
  && typed_opt is_hash (lb_resume_checkpoint_id v)
  && is_hash (lb_execution_environment_hash v)
  && forallb is_u8 (lb_verification_profile_id v)
  && is_u32 (lb_verification_profile_version v)
  && is_hash (lb_verification_profile_hash v)
  && is_hash (lb_pricing_terms_hash v)
  && is_hash (lb_checkpoint_terms_hash v)
  && is_hash (lb_availability_terms_hash v)
  && is_u64 (lb_start_deadline_height v)
  && is_u64 (lb_checkpoint_deadline_height v)
  && is_u64 (lb_result_deadline_height v)
  && is_hash (lb_lease_nonce v).
#[global] Arguments typed_lb : simpl never.

Record TaskLeaseStateV1 := mkLease {
  ls_schema_version : Z;
  ls_context : ProtocolContextV1;
  ls_lease_id : Hash32V1;
  ls_revision : Z;
  ls_attempt : Z;
  ls_status : Z;
  ls_accepted_height : option Z;
  ls_started_height : option Z;
  ls_terminal_height : option Z;
  ls_latest_checkpoint_id : option Hash32V1;
}.
#[export] Instance TaskLeaseStateV1_eq_dec : EqDecision TaskLeaseStateV1.
Proof. solve_decision. Defined.
Definition typed_ls (v : TaskLeaseStateV1) : bool :=
  is_u16 (ls_schema_version v)
  && typed_pc (ls_context v)
  && is_hash (ls_lease_id v)
  && is_u64 (ls_revision v)
  && is_u32 (ls_attempt v)
  && is_u8 (ls_status v)
  && typed_opt is_u64 (ls_accepted_height v)
  && typed_opt is_u64 (ls_started_height v)
  && typed_opt is_u64 (ls_terminal_height v)
  && typed_opt is_hash (ls_latest_checkpoint_id v).
#[global] Arguments typed_ls : simpl never.

Record LeaseProviderAcceptanceBodyV1 := mkAcceptance {
  pa_schema_version : Z;
  pa_context : ProtocolContextV1;
  pa_lease_id : Hash32V1;
  pa_provider_agent_id : Hash32V1;
  pa_expected_task_revision : Z;
  pa_acceptance_nonce : Hash32V1;
}.
#[export] Instance LeaseProviderAcceptanceBodyV1_eq_dec : EqDecision LeaseProviderAcceptanceBodyV1.
Proof. solve_decision. Defined.
Definition typed_pa (v : LeaseProviderAcceptanceBodyV1) : bool :=
  is_u16 (pa_schema_version v)
  && typed_pc (pa_context v)
  && is_hash (pa_lease_id v)
  && is_hash (pa_provider_agent_id v)
  && is_u64 (pa_expected_task_revision v)
  && is_hash (pa_acceptance_nonce v).
#[global] Arguments typed_pa : simpl never.

Record KernelAuthorizationStatementV1 := mkStatement {
  au_schema_version : Z;
  au_context : ProtocolContextV1;
  au_operation_kind : Z;
  au_operation_digest : Hash32V1;
  au_sender_agent_id : Hash32V1;
  au_authorizing_key_id : Hash32V1;
  au_capability_id : option Hash32V1;
  au_live_capability_generation : Z;
  au_session_key_grant_id : option Hash32V1;
  au_session_generation : Z;
  au_nonce_lane : Z;
  au_nonce : Z;
  au_expected_lane_version : Z;
  au_valid_after_height : Z;
  au_expires_after_height : Z;
}.
#[export] Instance KernelAuthorizationStatementV1_eq_dec : EqDecision KernelAuthorizationStatementV1.
Proof. solve_decision. Defined.
Definition typed_au (v : KernelAuthorizationStatementV1) : bool :=
  is_u16 (au_schema_version v)
  && typed_pc (au_context v)
  && is_u16 (au_operation_kind v)
  && is_hash (au_operation_digest v)
  && is_hash (au_sender_agent_id v)
  && is_hash (au_authorizing_key_id v)
  && typed_opt is_hash (au_capability_id v)
  && is_u64 (au_live_capability_generation v)
  && typed_opt is_hash (au_session_key_grant_id v)
  && is_u64 (au_session_generation v)
  && is_u16 (au_nonce_lane v)
  && is_u64 (au_nonce v)
  && is_u64 (au_expected_lane_version v)
  && is_u64 (au_valid_after_height v)
  && is_u64 (au_expires_after_height v).
#[global] Arguments typed_au : simpl never.

Record KernelAuthorizationV1 := mkAuthorization {
  ka_statement : KernelAuthorizationStatementV1;
  ka_signer_key_id : Hash32V1;
  ka_signature : list Z;
}.
#[export] Instance KernelAuthorizationV1_eq_dec : EqDecision KernelAuthorizationV1.
Proof. solve_decision. Defined.
Definition typed_ka (v : KernelAuthorizationV1) : bool :=
  typed_au (ka_statement v)
  && is_hash (ka_signer_key_id v)
  && forallb is_u8 (ka_signature v).
#[global] Arguments typed_ka : simpl never.

Record KernelTransitionReceiptV1 := mkReceipt {
  kr_schema_version : Z;
  kr_store_id : Hash32V1;
  kr_sequence : Z;
  kr_operation_id : Hash32V1;
  kr_operation_kind : Z;
  kr_operation_digest : Hash32V1;
  kr_order_height : Z;
  kr_order_block_id : Hash32V1;
  kr_post_state_root : Hash32V1;
}.
#[export] Instance KernelTransitionReceiptV1_eq_dec : EqDecision KernelTransitionReceiptV1.
Proof. solve_decision. Defined.
Definition typed_kr (v : KernelTransitionReceiptV1) : bool :=
  is_u16 (kr_schema_version v)
  && is_hash (kr_store_id v)
  && is_u64 (kr_sequence v)
  && is_hash (kr_operation_id v)
  && is_u16 (kr_operation_kind v)
  && is_hash (kr_operation_digest v)
  && is_u64 (kr_order_height v)
  && is_hash (kr_order_block_id v)
  && is_hash (kr_post_state_root v).
#[global] Arguments typed_kr : simpl never.

(** ** Commands *)

Inductive KernelCommandV1 :=
| CapabilityGrant (body : CapabilityGrantBodyV1) (authorization : KernelAuthorizationV1)
| SessionGrant (body : SessionKeyGrantBodyV1) (authorization : KernelAuthorizationV1)
| TaskCreate (body : TaskCreationOperationBodyV1) (charge : KernelResourceChargeV1)
    (authorization : KernelAuthorizationV1)
| Bid (body : BidBodyV1) (charge : KernelResourceChargeV1) (authorization : KernelAuthorizationV1)
| LeaseAccept (body : TaskLeaseBodyV1)
    (expected_bid_version expected_escrow_version expected_bond_version : Z)
    (charge : KernelResourceChargeV1) (authorization : KernelAuthorizationV1)
| ProviderAccept (body : LeaseProviderAcceptanceBodyV1) (expected_lease_revision : Z)
    (charge : KernelResourceChargeV1) (authorization : KernelAuthorizationV1).
#[export] Instance KernelCommandV1_eq_dec : EqDecision KernelCommandV1.
Proof. solve_decision. Defined.

Definition typed_command (c : KernelCommandV1) : bool :=
  match c with
  | CapabilityGrant b a => typed_cg b && typed_ka a
  | SessionGrant b a => typed_sg b && typed_ka a
  | TaskCreate b c a => typed_tc b && typed_rc c && typed_ka a
  | Bid b c a => typed_bd b && typed_rc c && typed_ka a
  | LeaseAccept b v1 v2 v3 c a =>
      typed_lb b && is_u64 v1 && is_u64 v2 && is_u64 v3 && typed_rc c && typed_ka a
  | ProviderAccept b v c a => typed_pa b && is_u64 v && typed_rc c && typed_ka a
  end.

Definition operation_kind (c : KernelCommandV1) : Z :=
  match c with
  | CapabilityGrant _ _ => 2
  | SessionGrant _ _ => 3
  | TaskCreate _ _ _ => 4
  | Bid _ _ _ => 5
  | LeaseAccept _ _ _ _ _ _ => 6
  | ProviderAccept _ _ _ _ => 7
  end.

Definition authorization (c : KernelCommandV1) : KernelAuthorizationV1 :=
  match c with
  | CapabilityGrant _ a | SessionGrant _ a | TaskCreate _ _ a | Bid _ _ a
  | LeaseAccept _ _ _ _ _ a | ProviderAccept _ _ _ a => a
  end.

Inductive ObjectKindV1 :=
| KindCapability | KindSessionGrant | KindTask | KindBid | KindLease | KindEscrow
| KindNonceLane | KindAccount | KindBond.
#[export] Instance ObjectKindV1_eq_dec : EqDecision ObjectKindV1.
Proof. solve_decision. Defined.

(** [kind as u16] *)
Definition kind_code (k : ObjectKindV1) : Z :=
  match k with
  | KindCapability => 2 | KindSessionGrant => 3 | KindTask => 4 | KindBid => 5
  | KindLease => 6 | KindEscrow => 7 | KindNonceLane => 44 | KindAccount => 45 | KindBond => 47
  end.

(** ** Errors ([error.rs]) *)

Inductive AgentMarketErrorCodeV1 :=
| InvalidContext | InvalidBounds | NonCanonical | IdentifierMismatch | InvalidSignature
| Unauthorized | InvalidCapability | InvalidSession | InvalidNonceLane | NonceReplay
| NonceGap | BudgetExceeded | RateExceeded | InvalidState | StaleVersion
| ConservationViolation | InsufficientFunds | Expired | Conflict | NotFound
| ArithmeticOverflow | StoreFailure | SchemaMismatch | TamperDetected | SidecarPresent
| CommitUncertain | ThirdStateFenced.
#[export] Instance AgentMarketErrorCodeV1_eq_dec : EqDecision AgentMarketErrorCodeV1.
Proof. solve_decision. Defined.

Abbreviation KResult := (result AgentMarketErrorCodeV1).

(** ** The crates *)

(** [borsh::from_slice] *)
Class BorshDeserialize (A : Type) := borsh_from_slice : list Z -> option A.

Class KernelCrates := {
  kernel_crypto :: CryptoCrates;
  borsh_capability_body :: BorshSerialize CapabilityGrantBodyV1;
  unborsh_capability_body :: BorshDeserialize CapabilityGrantBodyV1;
  borsh_capability_state :: BorshSerialize CapabilityStateV1;
  unborsh_capability_state :: BorshDeserialize CapabilityStateV1;
  borsh_session_body :: BorshSerialize SessionKeyGrantBodyV1;
  unborsh_session_body :: BorshDeserialize SessionKeyGrantBodyV1;
  borsh_session_state :: BorshSerialize SessionKeyGrantStateV1;
  unborsh_session_state :: BorshDeserialize SessionKeyGrantStateV1;
  borsh_lane_body :: BorshSerialize NonceLaneKeyBodyV1;
  unborsh_lane_body :: BorshDeserialize NonceLaneKeyBodyV1;
  borsh_lane_state :: BorshSerialize NonceLaneStateV1;
  unborsh_lane_state :: BorshDeserialize NonceLaneStateV1;
  borsh_account_body :: BorshSerialize AccountBodyV1;
  unborsh_account_body :: BorshDeserialize AccountBodyV1;
  borsh_account_state :: BorshSerialize AccountStateV1;
  unborsh_account_state :: BorshDeserialize AccountStateV1;
  borsh_bond_body :: BorshSerialize BondBodyV1;
  unborsh_bond_body :: BorshDeserialize BondBodyV1;
  borsh_bond_state :: BorshSerialize BondStateV1;
  unborsh_bond_state :: BorshDeserialize BondStateV1;
  borsh_task_body :: BorshSerialize TaskOfferBodyV1;
  unborsh_task_body :: BorshDeserialize TaskOfferBodyV1;
  borsh_task_state :: BorshSerialize TaskStateV1;
  unborsh_task_state :: BorshDeserialize TaskStateV1;
  borsh_escrow_body :: BorshSerialize EscrowBodyV1;
  unborsh_escrow_body :: BorshDeserialize EscrowBodyV1;
  borsh_escrow_state :: BorshSerialize EscrowStateV1;
  unborsh_escrow_state :: BorshDeserialize EscrowStateV1;
  borsh_bid_body :: BorshSerialize BidBodyV1;
  unborsh_bid_body :: BorshDeserialize BidBodyV1;
  borsh_bid_state :: BorshSerialize BidStateV1;
  unborsh_bid_state :: BorshDeserialize BidStateV1;
  borsh_lease_body :: BorshSerialize TaskLeaseBodyV1;
  unborsh_lease_body :: BorshDeserialize TaskLeaseBodyV1;
  borsh_lease_state :: BorshSerialize TaskLeaseStateV1;
  unborsh_lease_state :: BorshDeserialize TaskLeaseStateV1;
  borsh_command :: BorshSerialize KernelCommandV1;
  unborsh_command :: BorshDeserialize KernelCommandV1;
  borsh_receipt :: BorshSerialize KernelTransitionReceiptV1;
  unborsh_receipt :: BorshDeserialize KernelTransitionReceiptV1;
  borsh_config :: BorshSerialize (Hash32V1 * AgentMarketFreshGenesisTrustBundleV1);
  borsh_terms :: BorshSerialize (EscrowTermsV1);
  borsh_reservations :: BorshSerialize (list EscrowReservationEntryV1);
  borsh_statement :: BorshSerialize (KernelAuthorizationStatementV1);
  borsh_create_op :: BorshSerialize (TaskCreationOperationBodyV1 * KernelResourceChargeV1);
  borsh_bid_op :: BorshSerialize (BidBodyV1 * KernelResourceChargeV1);
  borsh_lease_op :: BorshSerialize (TaskLeaseBodyV1 * Z * Z * Z * KernelResourceChargeV1);
  borsh_accept_op :: BorshSerialize (LeaseProviderAcceptanceBodyV1 * Z * KernelResourceChargeV1);
}.

(** The values of a Rust type, among those of its model. *)
Class RustTyped (A : Type) := typed : A -> bool.
#[export] Instance rust_capability_body : RustTyped CapabilityGrantBodyV1 := typed_cg.
#[export] Instance rust_capability_state : RustTyped CapabilityStateV1 := typed_cs.
#[export] Instance rust_session_body : RustTyped SessionKeyGrantBodyV1 := typed_sg.
#[export] Instance rust_session_state : RustTyped SessionKeyGrantStateV1 := typed_ss.
#[export] Instance rust_lane_body : RustTyped NonceLaneKeyBodyV1 := typed_nb.
#[export] Instance rust_lane_state : RustTyped NonceLaneStateV1 := typed_ns.
#[export] Instance rust_account_body : RustTyped AccountBodyV1 := typed_ab.
#[export] Instance rust_account_state : RustTyped AccountStateV1 := typed_as.
#[export] Instance rust_bond_body : RustTyped BondBodyV1 := typed_bb.
#[export] Instance rust_bond_state : RustTyped BondStateV1 := typed_bs.
#[export] Instance rust_task_body : RustTyped TaskOfferBodyV1 := typed_to.
#[export] Instance rust_task_state : RustTyped TaskStateV1 := typed_ts.
#[export] Instance rust_escrow_body : RustTyped EscrowBodyV1 := typed_eb.
#[export] Instance rust_escrow_state : RustTyped EscrowStateV1 := typed_es.
#[export] Instance rust_bid_body : RustTyped BidBodyV1 := typed_bd.
#[export] Instance rust_bid_state : RustTyped BidStateV1 := typed_bt.
#[export] Instance rust_lease_body : RustTyped TaskLeaseBodyV1 := typed_lb.
#[export] Instance rust_lease_state : RustTyped TaskLeaseStateV1 := typed_ls.
#[export] Instance rust_command : RustTyped KernelCommandV1 := typed_command.
#[export] Instance rust_receipt : RustTyped KernelTransitionReceiptV1 := typed_kr.

(** What [borsh] documents of a type that derives both traits. *)
Class BorshLaw (A : Type) `{BorshSerialize A, BorshDeserialize A, RustTyped A} : Prop := {
  borsh_round_trip (a : A) b : typed a = true -> borsh_to_vec a = inr b -> borsh_from_slice b = Some a;
  borsh_decodes_typed b (a : A) : borsh_from_slice b = Some a -> typed a = true;
}.

Class KernelLaws `{KernelCrates} : Prop := {
  sha256_width m : is_hash (sha256 m) = true;
  law_capability_body :: BorshLaw CapabilityGrantBodyV1;
  law_capability_state :: BorshLaw CapabilityStateV1;
  law_session_body :: BorshLaw SessionKeyGrantBodyV1;
  law_session_state :: BorshLaw SessionKeyGrantStateV1;
  law_lane_body :: BorshLaw NonceLaneKeyBodyV1;
  law_lane_state :: BorshLaw NonceLaneStateV1;
  law_account_body :: BorshLaw AccountBodyV1;
  law_account_state :: BorshLaw AccountStateV1;
  law_bond_body :: BorshLaw BondBodyV1;
  law_bond_state :: BorshLaw BondStateV1;
  law_task_body :: BorshLaw TaskOfferBodyV1;
  law_task_state :: BorshLaw TaskStateV1;
  law_escrow_body :: BorshLaw EscrowBodyV1;
  law_escrow_state :: BorshLaw EscrowStateV1;
  law_bid_body :: BorshLaw BidBodyV1;
  law_bid_state :: BorshLaw BidStateV1;
  law_lease_body :: BorshLaw TaskLeaseBodyV1;
  law_lease_state :: BorshLaw TaskLeaseStateV1;
  law_command :: BorshLaw KernelCommandV1;
  law_receipt :: BorshLaw KernelTransitionReceiptV1;
}.

(** ** Encoding and digests ([codec.rs]) *)

Section codec.
Context `{KernelCrates}.

Definition canonical_bytes {A} `{BorshSerialize A} (value : A) : KResult (list Z) :=
  match borsh_to_vec value with inr b => Ok b | inl _ => Err NonCanonical end.

Definition strict_decode {A} `{BorshSerialize A, BorshDeserialize A} (bytes : list Z) : KResult A :=
  value ← ok_or (borsh_from_slice bytes) NonCanonical;
  encoded ← canonical_bytes value;
  _ ← fail_if (encoded <>? bytes) NonCanonical;
  Ok value.

Definition digest_encoded (domain : string) (encoded : list Z) : KResult Hash32V1 :=
  let d := str domain in
  _ ← fail_if (is_empty d || negb (forallb (is_width 127) d)) InvalidBounds;
  domain_len ← ok_or (try_from u32_max (zlen d)) ArithmeticOverflow;
  Ok (sha256 (le_bytes 4 domain_len ++ d ++ encoded)).

Definition digest_value {A} `{BorshSerialize A} (domain : string) (value : A) : KResult Hash32V1 :=
  encoded ← canonical_bytes value;
  digest_encoded domain encoded.

Definition checksum (parts : list (list Z)) : Hash32V1 :=
  sha256 (str "trnm.portable.v2.agent-market-store-checksum.candidate.v1" ++
    mjoin ((fun part => le_bytes 8 (default u64_max (try_from u64_max (zlen part))) ++ part) <$> parts)).

(** ** Identifiers ([types.rs]) *)

Definition capability_id (b : CapabilityGrantBodyV1) : KResult Hash32V1 :=
  digest_value "trnm.portable.v2.capability.v1" b.
Definition session_key_grant_id (b : SessionKeyGrantBodyV1) : KResult Hash32V1 :=
  digest_value "trnm.portable.v2.session-key-grant.v1" b.
Definition nonce_lane_id (b : NonceLaneKeyBodyV1) : KResult Hash32V1 :=
  digest_value "trnm.portable.v2.nonce-lane.v1" b.
Definition account_id (b : AccountBodyV1) : KResult Hash32V1 :=
  digest_value "trnm.portable.v2.account.v1" b.
Definition bond_id (b : BondBodyV1) : KResult Hash32V1 :=
  digest_value "trnm.portable.v2.bond.v1" b.
Definition task_id (b : TaskOfferBodyV1) : KResult Hash32V1 :=
  digest_value "trnm.portable.v2.task.v1" b.
Definition escrow_id (b : EscrowBodyV1) : KResult Hash32V1 :=
  digest_value "trnm.portable.v2.escrow.v1" b.
Definition bid_id (b : BidBodyV1) : KResult Hash32V1 :=
  digest_value "trnm.portable.v2.bid.v1" b.
Definition lease_id (b : TaskLeaseBodyV1) : KResult Hash32V1 :=
  digest_value "trnm.portable.v2.lease.v1" b.

Definition operation_digest (c : KernelCommandV1) : KResult Hash32V1 :=
  match c with
  | CapabilityGrant body _ =>
      digest_value "trnm.portable.v2.capability-grant-operation.candidate.v1" body
  | SessionGrant body _ =>
      digest_value "trnm.portable.v2.session-grant-operation.candidate.v1" body
  | TaskCreate body charge _ =>
      digest_value "trnm.portable.v2.task-create-operation.candidate.v1" (body, charge)
  | Bid body charge _ =>
      digest_value "trnm.portable.v2.bid-operation.candidate.v1" (body, charge)
  | LeaseAccept body bid_version escrow_version bond_version charge _ =>
      digest_value "trnm.portable.v2.lease-accept-operation.candidate.v1"
        (body, bid_version, escrow_version, bond_version, charge)
  | ProviderAccept body lease_revision charge _ =>
      digest_value "trnm.portable.v2.provider-accept-operation.candidate.v1"
        (body, lease_revision, charge)
  end.

Definition operation_id (c : KernelCommandV1) : KResult Hash32V1 :=
  digest_value "trnm.portable.v2.agent-market-kernel-operation.candidate.v1"
    (ka_statement (authorization c)).

End codec.

(** ** Field assignment *)

Definition set_as_version (v : Z) (x : AccountStateV1) : AccountStateV1 :=
  mkAccount (as_schema_version x) (as_context x) (as_account_id x) v (as_available x) (as_reserved x) (as_spent x) (as_closed x).
Definition set_as_available (v : Z) (x : AccountStateV1) : AccountStateV1 :=
  mkAccount (as_schema_version x) (as_context x) (as_account_id x) (as_version x) v (as_reserved x) (as_spent x) (as_closed x).
Definition set_as_spent (v : Z) (x : AccountStateV1) : AccountStateV1 :=
  mkAccount (as_schema_version x) (as_context x) (as_account_id x) (as_version x) (as_available x) (as_reserved x) v (as_closed x).
Definition set_bs_version (v : Z) (x : BondStateV1) : BondStateV1 :=
  mkBond (bs_schema_version x) (bs_context x) (bs_bond_id x) v (bs_available x) (bs_held x) (bs_released x) (bs_slashed x) (bs_closed x).
Definition set_bs_available (v : Z) (x : BondStateV1) : BondStateV1 :=
  mkBond (bs_schema_version x) (bs_context x) (bs_bond_id x) (bs_version x) v (bs_held x) (bs_released x) (bs_slashed x) (bs_closed x).
Definition set_bs_held (v : Z) (x : BondStateV1) : BondStateV1 :=
  mkBond (bs_schema_version x) (bs_context x) (bs_bond_id x) (bs_version x) (bs_available x) v (bs_released x) (bs_slashed x) (bs_closed x).
Definition set_es_version (v : Z) (x : EscrowStateV1) : EscrowStateV1 :=
  mkEscrow (es_schema_version x) (es_context x) (es_escrow_id x) v (es_available x) (es_reserved x) (es_disbursed x) (es_refunded x) (es_forfeited x) (es_active_reservations x) (es_active_reservation_root x) (es_last_settlement_id x) (es_closed x).
Definition set_es_available (v : Z) (x : EscrowStateV1) : EscrowStateV1 :=
  mkEscrow (es_schema_version x) (es_context x) (es_escrow_id x) (es_version x) v (es_reserved x) (es_disbursed x) (es_refunded x) (es_forfeited x) (es_active_reservations x) (es_active_reservation_root x) (es_last_settlement_id x) (es_closed x).
Definition set_es_reserved (v : Z) (x : EscrowStateV1) : EscrowStateV1 :=
  mkEscrow (es_schema_version x) (es_context x) (es_escrow_id x) (es_version x) (es_available x) v (es_disbursed x) (es_refunded x) (es_forfeited x) (es_active_reservations x) (es_active_reservation_root x) (es_last_settlement_id x) (es_closed x).
Definition set_es_active_reservations (v : list EscrowReservationEntryV1) (x : EscrowStateV1) : EscrowStateV1 :=
  mkEscrow (es_schema_version x) (es_context x) (es_escrow_id x) (es_version x) (es_available x) (es_reserved x) (es_disbursed x) (es_refunded x) (es_forfeited x) v (es_active_reservation_root x) (es_last_settlement_id x) (es_closed x).
Definition set_es_active_reservation_root (v : Hash32V1) (x : EscrowStateV1) : EscrowStateV1 :=
  mkEscrow (es_schema_version x) (es_context x) (es_escrow_id x) (es_version x) (es_available x) (es_reserved x) (es_disbursed x) (es_refunded x) (es_forfeited x) (es_active_reservations x) v (es_last_settlement_id x) (es_closed x).
Definition set_ts_revision (v : Z) (x : TaskStateV1) : TaskStateV1 :=
  mkTask (ts_schema_version x) (ts_context x) (ts_task_id x) v (ts_attempt x) (ts_status x) (ts_active_lease_id x) (ts_latest_checkpoint_id x) (ts_active_result_id x) (ts_escrow_id x) (ts_active_deadline_kind x) (ts_active_deadline_height x).
Definition set_ts_status (v : Z) (x : TaskStateV1) : TaskStateV1 :=
  mkTask (ts_schema_version x) (ts_context x) (ts_task_id x) (ts_revision x) (ts_attempt x) v (ts_active_lease_id x) (ts_latest_checkpoint_id x) (ts_active_result_id x) (ts_escrow_id x) (ts_active_deadline_kind x) (ts_active_deadline_height x).
Definition set_ts_active_lease_id (v : option Hash32V1) (x : TaskStateV1) : TaskStateV1 :=
  mkTask (ts_schema_version x) (ts_context x) (ts_task_id x) (ts_revision x) (ts_attempt x) (ts_status x) v (ts_latest_checkpoint_id x) (ts_active_result_id x) (ts_escrow_id x) (ts_active_deadline_kind x) (ts_active_deadline_height x).
Definition set_ts_active_deadline_kind (v : Z) (x : TaskStateV1) : TaskStateV1 :=
  mkTask (ts_schema_version x) (ts_context x) (ts_task_id x) (ts_revision x) (ts_attempt x) (ts_status x) (ts_active_lease_id x) (ts_latest_checkpoint_id x) (ts_active_result_id x) (ts_escrow_id x) v (ts_active_deadline_height x).
Definition set_ts_active_deadline_height (v : Z) (x : TaskStateV1) : TaskStateV1 :=
  mkTask (ts_schema_version x) (ts_context x) (ts_task_id x) (ts_revision x) (ts_attempt x) (ts_status x) (ts_active_lease_id x) (ts_latest_checkpoint_id x) (ts_active_result_id x) (ts_escrow_id x) (ts_active_deadline_kind x) v.
Definition set_bt_state_version (v : Z) (x : BidStateV1) : BidStateV1 :=
  mkBid (bt_schema_version x) (bt_context x) (bt_bid_id x) v (bt_status x) (bt_accepted_lease_id x) (bt_accepted_height x) (bt_terminal_height x).
Definition set_bt_status (v : Z) (x : BidStateV1) : BidStateV1 :=
  mkBid (bt_schema_version x) (bt_context x) (bt_bid_id x) (bt_state_version x) v (bt_accepted_lease_id x) (bt_accepted_height x) (bt_terminal_height x).
Definition set_bt_accepted_lease_id (v : option Hash32V1) (x : BidStateV1) : BidStateV1 :=
  mkBid (bt_schema_version x) (bt_context x) (bt_bid_id x) (bt_state_version x) (bt_status x) v (bt_accepted_height x) (bt_terminal_height x).
Definition set_bt_accepted_height (v : option Z) (x : BidStateV1) : BidStateV1 :=
  mkBid (bt_schema_version x) (bt_context x) (bt_bid_id x) (bt_state_version x) (bt_status x) (bt_accepted_lease_id x) v (bt_terminal_height x).
Definition set_ls_revision (v : Z) (x : TaskLeaseStateV1) : TaskLeaseStateV1 :=
  mkLease (ls_schema_version x) (ls_context x) (ls_lease_id x) v (ls_attempt x) (ls_status x) (ls_accepted_height x) (ls_started_height x) (ls_terminal_height x) (ls_latest_checkpoint_id x).
Definition set_ls_status (v : Z) (x : TaskLeaseStateV1) : TaskLeaseStateV1 :=
  mkLease (ls_schema_version x) (ls_context x) (ls_lease_id x) (ls_revision x) (ls_attempt x) v (ls_accepted_height x) (ls_started_height x) (ls_terminal_height x) (ls_latest_checkpoint_id x).
Definition set_ls_accepted_height (v : option Z) (x : TaskLeaseStateV1) : TaskLeaseStateV1 :=
  mkLease (ls_schema_version x) (ls_context x) (ls_lease_id x) (ls_revision x) (ls_attempt x) (ls_status x) v (ls_started_height x) (ls_terminal_height x) (ls_latest_checkpoint_id x).
Definition set_ns_state_version (v : Z) (x : NonceLaneStateV1) : NonceLaneStateV1 :=
  mkLane (ns_schema_version x) (ns_context x) (ns_nonce_lane_id x) v (ns_agent_id x) (ns_authorizing_key_id x) (ns_capability_id x) (ns_session_generation x) (ns_lane x) (ns_next_nonce x) (ns_last_operation_digest x) (ns_status x).
Definition set_ns_next_nonce (v : Z) (x : NonceLaneStateV1) : NonceLaneStateV1 :=
  mkLane (ns_schema_version x) (ns_context x) (ns_nonce_lane_id x) (ns_state_version x) (ns_agent_id x) (ns_authorizing_key_id x) (ns_capability_id x) (ns_session_generation x) (ns_lane x) v (ns_last_operation_digest x) (ns_status x).
Definition set_ns_last_operation_digest (v : option Hash32V1) (x : NonceLaneStateV1) : NonceLaneStateV1 :=
  mkLane (ns_schema_version x) (ns_context x) (ns_nonce_lane_id x) (ns_state_version x) (ns_agent_id x) (ns_authorizing_key_id x) (ns_capability_id x) (ns_session_generation x) (ns_lane x) (ns_next_nonce x) v (ns_status x).
Definition set_ss_state_version (v : Z) (x : SessionKeyGrantStateV1) : SessionKeyGrantStateV1 :=
  mkSession (ss_schema_version x) (ss_context x) (ss_session_key_grant_id x) v (ss_status x) (ss_session_generation x) (ss_bound_capability_generation x) (ss_operations_spent x) (ss_accepted_height x) (ss_status_changed_height x) (ss_revoked_at_height x).
Definition set_ss_operations_spent (v : Z) (x : SessionKeyGrantStateV1) : SessionKeyGrantStateV1 :=
  mkSession (ss_schema_version x) (ss_context x) (ss_session_key_grant_id x) (ss_state_version x) (ss_status x) (ss_session_generation x) (ss_bound_capability_generation x) v (ss_accepted_height x) (ss_status_changed_height x) (ss_revoked_at_height x).
Definition set_cs_state_version (v : Z) (x : CapabilityStateV1) : CapabilityStateV1 :=
  mkCapability (cs_schema_version x) (cs_context x) (cs_capability_id x) v (cs_status x) (cs_live_revocation_generation x) (cs_accepted_height x) (cs_status_changed_height x) (cs_revoked_at_height x) (cs_budget x).
Definition set_cs_budget (v : CapabilityBudgetStateV1) (x : CapabilityStateV1) : CapabilityStateV1 :=
  mkCapability (cs_schema_version x) (cs_context x) (cs_capability_id x) (cs_state_version x) (cs_status x) (cs_live_revocation_generation x) (cs_accepted_height x) (cs_status_changed_height x) (cs_revoked_at_height x) v.
Definition set_cb_budget_version (v : Z) (x : CapabilityBudgetStateV1) : CapabilityBudgetStateV1 :=
  mkBudget (cb_schema_version x) (cb_context x) (cb_capability_id x) v (cb_revocation_generation x) (cb_asset_counters x) (cb_fee_limit x) (cb_fee_spent x) (cb_fee_reserved x) (cb_gas_limit x) (cb_gas_spent x) (cb_gas_reserved x) (cb_da_byte_limit x) (cb_da_bytes_spent x) (cb_da_bytes_reserved x) (cb_retention_limit x) (cb_retention_spent x) (cb_retention_reserved x) (cb_operation_limit x) (cb_operations_spent x) (cb_operations_reserved x) (cb_rate_window_start_height x) (cb_rate_window_operations x).
Definition set_cb_asset_counters (v : list AssetBudgetCounterV1) (x : CapabilityBudgetStateV1) : CapabilityBudgetStateV1 :=
  mkBudget (cb_schema_version x) (cb_context x) (cb_capability_id x) (cb_budget_version x) (cb_revocation_generation x) v (cb_fee_limit x) (cb_fee_spent x) (cb_fee_reserved x) (cb_gas_limit x) (cb_gas_spent x) (cb_gas_reserved x) (cb_da_byte_limit x) (cb_da_bytes_spent x) (cb_da_bytes_reserved x) (cb_retention_limit x) (cb_retention_spent x) (cb_retention_reserved x) (cb_operation_limit x) (cb_operations_spent x) (cb_operations_reserved x) (cb_rate_window_start_height x) (cb_rate_window_operations x).
Definition set_cb_fee_spent (v : Z) (x : CapabilityBudgetStateV1) : CapabilityBudgetStateV1 :=
  mkBudget (cb_schema_version x) (cb_context x) (cb_capability_id x) (cb_budget_version x) (cb_revocation_generation x) (cb_asset_counters x) (cb_fee_limit x) v (cb_fee_reserved x) (cb_gas_limit x) (cb_gas_spent x) (cb_gas_reserved x) (cb_da_byte_limit x) (cb_da_bytes_spent x) (cb_da_bytes_reserved x) (cb_retention_limit x) (cb_retention_spent x) (cb_retention_reserved x) (cb_operation_limit x) (cb_operations_spent x) (cb_operations_reserved x) (cb_rate_window_start_height x) (cb_rate_window_operations x).
Definition set_cb_gas_spent (v : Z) (x : CapabilityBudgetStateV1) : CapabilityBudgetStateV1 :=
  mkBudget (cb_schema_version x) (cb_context x) (cb_capability_id x) (cb_budget_version x) (cb_revocation_generation x) (cb_asset_counters x) (cb_fee_limit x) (cb_fee_spent x) (cb_fee_reserved x) (cb_gas_limit x) v (cb_gas_reserved x) (cb_da_byte_limit x) (cb_da_bytes_spent x) (cb_da_bytes_reserved x) (cb_retention_limit x) (cb_retention_spent x) (cb_retention_reserved x) (cb_operation_limit x) (cb_operations_spent x) (cb_operations_reserved x) (cb_rate_window_start_height x) (cb_rate_window_operations x).
Definition set_cb_da_bytes_spent (v : Z) (x : CapabilityBudgetStateV1) : CapabilityBudgetStateV1 :=
  mkBudget (cb_schema_version x) (cb_context x) (cb_capability_id x) (cb_budget_version x) (cb_revocation_generation x) (cb_asset_counters x) (cb_fee_limit x) (cb_fee_spent x) (cb_fee_reserved x) (cb_gas_limit x) (cb_gas_spent x) (cb_gas_reserved x) (cb_da_byte_limit x) v (cb_da_bytes_reserved x) (cb_retention_limit x) (cb_retention_spent x) (cb_retention_reserved x) (cb_operation_limit x) (cb_operations_spent x) (cb_operations_reserved x) (cb_rate_window_start_height x) (cb_rate_window_operations x).
Definition set_cb_retention_spent (v : Z) (x : CapabilityBudgetStateV1) : CapabilityBudgetStateV1 :=
  mkBudget (cb_schema_version x) (cb_context x) (cb_capability_id x) (cb_budget_version x) (cb_revocation_generation x) (cb_asset_counters x) (cb_fee_limit x) (cb_fee_spent x) (cb_fee_reserved x) (cb_gas_limit x) (cb_gas_spent x) (cb_gas_reserved x) (cb_da_byte_limit x) (cb_da_bytes_spent x) (cb_da_bytes_reserved x) (cb_retention_limit x) v (cb_retention_reserved x) (cb_operation_limit x) (cb_operations_spent x) (cb_operations_reserved x) (cb_rate_window_start_height x) (cb_rate_window_operations x).
Definition set_cb_operations_spent (v : Z) (x : CapabilityBudgetStateV1) : CapabilityBudgetStateV1 :=
  mkBudget (cb_schema_version x) (cb_context x) (cb_capability_id x) (cb_budget_version x) (cb_revocation_generation x) (cb_asset_counters x) (cb_fee_limit x) (cb_fee_spent x) (cb_fee_reserved x) (cb_gas_limit x) (cb_gas_spent x) (cb_gas_reserved x) (cb_da_byte_limit x) (cb_da_bytes_spent x) (cb_da_bytes_reserved x) (cb_retention_limit x) (cb_retention_spent x) (cb_retention_reserved x) (cb_operation_limit x) v (cb_operations_reserved x) (cb_rate_window_start_height x) (cb_rate_window_operations x).
Definition set_cb_rate_window_start_height (v : Z) (x : CapabilityBudgetStateV1) : CapabilityBudgetStateV1 :=
  mkBudget (cb_schema_version x) (cb_context x) (cb_capability_id x) (cb_budget_version x) (cb_revocation_generation x) (cb_asset_counters x) (cb_fee_limit x) (cb_fee_spent x) (cb_fee_reserved x) (cb_gas_limit x) (cb_gas_spent x) (cb_gas_reserved x) (cb_da_byte_limit x) (cb_da_bytes_spent x) (cb_da_bytes_reserved x) (cb_retention_limit x) (cb_retention_spent x) (cb_retention_reserved x) (cb_operation_limit x) (cb_operations_spent x) (cb_operations_reserved x) v (cb_rate_window_operations x).
Definition set_cb_rate_window_operations (v : Z) (x : CapabilityBudgetStateV1) : CapabilityBudgetStateV1 :=
  mkBudget (cb_schema_version x) (cb_context x) (cb_capability_id x) (cb_budget_version x) (cb_revocation_generation x) (cb_asset_counters x) (cb_fee_limit x) (cb_fee_spent x) (cb_fee_reserved x) (cb_gas_limit x) (cb_gas_spent x) (cb_gas_reserved x) (cb_da_byte_limit x) (cb_da_bytes_spent x) (cb_da_bytes_reserved x) (cb_retention_limit x) (cb_retention_spent x) (cb_retention_reserved x) (cb_operation_limit x) (cb_operations_spent x) (cb_operations_reserved x) (cb_rate_window_start_height x) v.
Definition set_ac_spent (v : Z) (x : AssetBudgetCounterV1) : AssetBudgetCounterV1 :=
  mkCounter (ac_asset_id x) (ac_limit x) v (ac_reserved x).
