(* ===== verification/KernelStore.v ===== *)
(** * KernelStore: the SQLite tables of [trnm-task-kernel]

    The table functions of [store.rs].  A table is a finite map from its primary
    key, a BLOB column a list of bytes, an INTEGER column a [Z].  A query without
    an ORDER BY reads a WITHOUT ROWID table in key order.  A statement that
    violates a PRIMARY KEY or UNIQUE constraint fails; the CHECKs on column widths
    are those of the Rust types of the values written.  A transaction is a store
    passed along: it is dropped by an early return and becomes the durable store
    when it commits.  Disk failures are not modelled; [present] says whether the
    path names a database file, [sidecars] whether a -wal, -shm or -journal file
    lies beside it. *)

From stdpp Require Import base gmap list sorting strings.
From S2P Require Import Prelude Crypto KernelTypes.

Definition STORE_SCHEMA_VERSION_V1 : Z := 3.

Definition META_SQL : string := "CREATE TABLE agent_market_metadata_v1 (singleton INTEGER PRIMARY KEY CHECK (singleton = 1), schema_version INTEGER NOT NULL, store_id BLOB NOT NULL CHECK (length(store_id) = 32), config_hash BLOB NOT NULL CHECK (length(config_hash) = 32), sequence BLOB NOT NULL CHECK (length(sequence) = 8), order_height BLOB NOT NULL CHECK (length(order_height) = 8), order_block_id BLOB NOT NULL CHECK (length(order_block_id) = 32), durable_state_root BLOB NOT NULL CHECK (length(durable_state_root) = 32), durable_journal_root BLOB NOT NULL CHECK (length(durable_journal_root) = 32), fenced INTEGER NOT NULL CHECK (fenced IN (0,1)), row_checksum BLOB NOT NULL CHECK (length(row_checksum) = 32))".
Definition OBJECTS_SQL : string := "CREATE TABLE agent_market_objects_v1 (object_kind INTEGER NOT NULL, object_id BLOB NOT NULL CHECK (length(object_id) = 32), object_version BLOB NOT NULL CHECK (length(object_version) = 8), immutable_body BLOB NOT NULL, mutable_state BLOB NOT NULL, row_checksum BLOB NOT NULL CHECK (length(row_checksum) = 32), PRIMARY KEY (object_kind, object_id)) WITHOUT ROWID".
Definition OPERATIONS_SQL : string := "CREATE TABLE agent_market_operations_v1 (operation_id BLOB PRIMARY KEY CHECK (length(operation_id) = 32), sequence BLOB NOT NULL CHECK (length(sequence) = 8), operation_kind INTEGER NOT NULL, command BLOB NOT NULL, receipt BLOB NOT NULL, row_checksum BLOB NOT NULL CHECK (length(row_checksum) = 32)) WITHOUT ROWID".
Definition COMMITTED_BLOCKS_SQL : string := "CREATE TABLE agent_market_committed_blocks_v1 (marker_sequence BLOB PRIMARY KEY CHECK (length(marker_sequence) = 8), order_height BLOB NOT NULL CHECK (length(order_height) = 8), order_block_id BLOB NOT NULL UNIQUE CHECK (length(order_block_id) = 32), parent_order_height BLOB NOT NULL CHECK (length(parent_order_height) = 8), parent_order_block_id BLOB NOT NULL CHECK (length(parent_order_block_id) = 32), source_operation_sequence BLOB NOT NULL CHECK (length(source_operation_sequence) = 8), target_operation_sequence BLOB NOT NULL CHECK (length(target_operation_sequence) = 8), source_state_root BLOB NOT NULL CHECK (length(source_state_root) = 32), target_state_root BLOB NOT NULL CHECK (length(target_state_root) = 32), source_operation_root BLOB NOT NULL CHECK (length(source_operation_root) = 32), target_operation_root BLOB NOT NULL CHECK (length(target_operation_root) = 32), previous_marker_checksum BLOB NOT NULL CHECK (length(previous_marker_checksum) = 32), row_checksum BLOB NOT NULL CHECK (length(row_checksum) = 32)) WITHOUT ROWID".

(** ** Tables *)

Record ObjectRow := mkObjectRow {
  o_version : list Z;
  o_body : list Z;
  o_state : list Z;
  o_checksum : list Z;
}.

Record OperationRow := mkOperationRow {
  p_sequence : list Z;
  p_kind : Z;
  p_command : list Z;
  p_receipt : list Z;
  p_checksum : list Z;
}.

Record MarkerRow := mkMarkerRow {
  b_order_height : list Z;
  b_order_block_id : list Z;
  b_parent_order_height : list Z;
  b_parent_order_block_id : list Z;
  b_source_operation_sequence : list Z;
  b_target_operation_sequence : list Z;
  b_source_state_root : list Z;
  b_target_state_root : list Z;
  b_source_operation_root : list Z;
  b_target_operation_root : list Z;
  b_previous_marker_checksum : list Z;
  b_row_checksum : list Z;
}.

Record MetadataRecordV1 := mkMetadata {
  m_schema_version : Z;
  m_store_id : list Z;
  m_config_hash : list Z;
  m_sequence : list Z;
  m_order_height : list Z;
  m_order_block_id : list Z;
  m_durable_state_root : list Z;
  m_durable_journal_root : list Z;
  m_fenced : Z;
  m_row_checksum : list Z;
}.

Abbreviation ObjectTable := (gmap (Z * list Z) ObjectRow).
Abbreviation OperationTable := (gmap (list Z) OperationRow).
Abbreviation MarkerTable := (gmap (list Z) MarkerRow).

Record Store := mkStore {
  present : bool;
  sidecars : bool;
  tables : list (string * string);
  triggers : Z;
  metadata : option MetadataRecordV1;
  objects : ObjectTable;
  operations : OperationTable;
  markers : MarkerTable;
}.

Definition set_metadata (v : MetadataRecordV1) (s : Store) : Store :=
  mkStore (present s) (sidecars s) (tables s) (triggers s) (Some v) (objects s) (operations s) (markers s).
Definition set_objects (v : ObjectTable) (s : Store) : Store :=
  mkStore (present s) (sidecars s) (tables s) (triggers s) (metadata s) v (operations s) (markers s).
Definition set_operations (v : OperationTable) (s : Store) : Store :=
  mkStore (present s) (sidecars s) (tables s) (triggers s) (metadata s) (objects s) v (markers s).
Definition set_markers (v : MarkerTable) (s : Store) : Store :=
  mkStore (present s) (sidecars s) (tables s) (triggers s) (metadata s) (objects s) (operations s) v.

Record AgentMarketStoreConfigV1 := mkConfig {
  store_id : Hash32V1;
  trust_bundle : AgentMarketFreshGenesisTrustBundleV1;
}.

Record CommittedBlockMarkerV1 := mkMarker {
  cm_marker_sequence : Z;
  cm_order_height : Z;
  cm_order_block_id : Hash32V1;
  cm_parent_order_height : Z;
  cm_parent_order_block_id : Hash32V1;
  cm_source_operation_sequence : Z;
  cm_target_operation_sequence : Z;
  cm_source_state_root : Hash32V1;
  cm_target_state_root : Hash32V1;
  cm_source_operation_root : Hash32V1;
  cm_target_operation_root : Hash32V1;
  cm_previous_marker_checksum : Hash32V1;
  cm_row_checksum : Hash32V1;
}.

Definition set_cm_row_checksum (v : Hash32V1) (m : CommittedBlockMarkerV1) : CommittedBlockMarkerV1 :=
  mkMarker (cm_marker_sequence m) (cm_order_height m) (cm_order_block_id m)
    (cm_parent_order_height m) (cm_parent_order_block_id m)
    (cm_source_operation_sequence m) (cm_target_operation_sequence m)
    (cm_source_state_root m) (cm_target_state_root m)
    (cm_source_operation_root m) (cm_target_operation_root m) (cm_previous_marker_checksum m) v.

(** The parameters of the INSERT of a marker. *)
Definition marker_row (m : CommittedBlockMarkerV1) : MarkerRow :=
  mkMarkerRow (le_bytes 8 (cm_order_height m)) (cm_order_block_id m)
    (le_bytes 8 (cm_parent_order_height m)) (cm_parent_order_block_id m)
    (le_bytes 8 (cm_source_operation_sequence m)) (le_bytes 8 (cm_target_operation_sequence m))
    (cm_source_state_root m) (cm_target_state_root m)
    (cm_source_operation_root m) (cm_target_operation_root m)
    (cm_previous_marker_checksum m) (cm_row_checksum m).

(** ** Column values *)

(** [row.get::<_, u16>] and [row.get::<_, u8>] *)
Definition get_int (m z : Z) : KResult Z := if is_width m z then Ok z else Err StoreFailure.

Definition decode_u64 (bytes : list Z) : KResult Z :=
  if zlen bytes =? 8 then Ok (of_le_bytes bytes) else Err TamperDetected.

(** [<[u8; 32]>::try_from(bytes)] *)
Definition decode_marker_hash (bytes : list Z) : KResult Hash32V1 :=
  if zlen bytes =? 32 then Ok bytes else Err TamperDetected.

(** The loop that appends each component with its length. *)
Definition extend_component (encoded bytes : list Z) : KResult (list Z) :=
  len ← ok_or (try_from u64_max (zlen bytes)) ArithmeticOverflow;
  Ok (encoded ++ le_bytes 8 len ++ bytes).

Section store.
Context `{KernelCrates}.

Definition config_hash (config : AgentMarketStoreConfigV1) : KResult Hash32V1 :=
  digest_value "trnm.portable.v2.agent-market-store-config.candidate.v1"
    (store_id config, trust_bundle config).

(** ** Objects *)

Definition object_checksum (kind : Z) (id version body state : list Z) : Hash32V1 :=
  checksum [le_bytes 2 kind; id; version; body; state].

Definition insert_object {B S} `{BorshSerialize B, BorshSerialize S} (st : Store)
    (kind : ObjectKindV1) (id : Hash32V1) (version : Z) (body : B) (state : S) : KResult Store :=
  body_bytes ← canonical_bytes body;
  state_bytes ← canonical_bytes state;
  let version_bytes := le_bytes 8 version in
  let key := (kind_code kind, id) in
  let row := mkObjectRow version_bytes body_bytes state_bytes
    (object_checksum (kind_code kind) id version_bytes body_bytes state_bytes) in
  match objects st !! key with
  | Some _ => Err Conflict
  | None => Ok (set_objects (<[key := row]> (objects st)) st)
  end.

Definition update_object {B S} `{BorshSerialize B, BorshSerialize S} (st : Store)
    (kind : ObjectKindV1) (id : Hash32V1) (expected_version successor_version : Z)
    (body : B) (state : S) : KResult Store :=
  next ← ok_or (checked_add u64_max expected_version 1) ArithmeticOverflow;
  _ ← fail_if (successor_version <>? next) StaleVersion;
  body_bytes ← canonical_bytes body;
  state_bytes ← canonical_bytes state;
  let version_bytes := le_bytes 8 successor_version in
  let key := (kind_code kind, id) in
  let row := mkObjectRow version_bytes body_bytes state_bytes
    (object_checksum (kind_code kind) id version_bytes body_bytes state_bytes) in
  match objects st !! key with
  | Some old =>
      if o_version old =?? le_bytes 8 expected_version
      then Ok (set_objects (<[key := row]> (objects st)) st)
      else Err StaleVersion
  | None => Err StaleVersion
  end.

Definition load_object (B S : Type) `{BorshSerialize B, BorshDeserialize B, BorshSerialize S, BorshDeserialize S}
    (st : Store) (kind : ObjectKindV1) (id : Hash32V1) : KResult (B * S) :=
  row ← ok_or (objects st !! (kind_code kind, id)) NotFound;
  body ← strict_decode (o_body row);
  state ← strict_decode (o_state row);
  Ok (body, state).

(** ** The operation journal *)

Definition operation_checksum (id sequence : list Z) (kind : Z) (command receipt : list Z) : Hash32V1 :=
  checksum [id; sequence; le_bytes 2 kind; command; receipt].

Definition insert_operation (st : Store) (command : KernelCommandV1) (command_bytes : list Z)
    (receipt : KernelTransitionReceiptV1) : KResult Store :=
  receipt_bytes ← canonical_bytes receipt;
  let sequence_bytes := le_bytes 8 (kr_sequence receipt) in
  let id := kr_operation_id receipt in
  let row := mkOperationRow sequence_bytes (operation_kind command) command_bytes receipt_bytes
    (operation_checksum id sequence_bytes (operation_kind command) command_bytes receipt_bytes) in
  match operations st !! id with
  | Some _ => Err StoreFailure
  | None => Ok (set_operations (<[id := row]> (operations st)) st)
  end.

Definition load_operation (st : Store) (operation_id : Hash32V1) (command_bytes : list Z)
    : KResult (option KernelTransitionReceiptV1) :=
  match operations st !! operation_id with
  | None => Ok None
  | Some row =>
      _ ← fail_if (p_command row <>? command_bytes) Conflict;
      receipt ← strict_decode (p_receipt row);
      Ok (Some receipt)
  end.

(** ** Roots *)

Definition extend_object (encoded : list Z) (entry : (Z * list Z) * ObjectRow) : KResult (list Z) :=
  let '((k, id), row) := entry in
  kind ← get_int u16_max k;
  try_fold extend_component (encoded ++ le_bytes 2 kind)
    [id; o_version row; o_body row; o_state row; o_checksum row].

Definition compute_state_root (st : Store) : KResult Hash32V1 :=
  encoded ← try_fold extend_object [] (btree_iter (objects st));
  digest_encoded "trnm.portable.v2.agent-market-kernel-state-root.candidate.v1" encoded.

(** A journal row with its decoded sequence. *)
Definition sequenced (entry : list Z * OperationRow) : KResult (Z * (list Z * OperationRow)) :=
  let '(id, row) := entry in
  kind ← get_int u16_max (p_kind row);
  sequence ← decode_u64 (p_sequence row);
  Ok (sequence, (id, row)).

Definition extend_operation (encoded : list Z) (record : Z * (list Z * OperationRow)) : KResult (list Z) :=
  let '(_, (id, row)) := record in
  try_fold extend_component (encoded ++ le_bytes 2 (p_kind row))
    [id; p_sequence row; p_command row; p_receipt row; p_checksum row].

Definition compute_operation_journal_root_through (st : Store) (maximum_sequence : Z) : KResult Hash32V1 :=
  records ← try_map sequenced (btree_iter (operations st));
  let records := sort_by_key fst (filter (fun r => (r.1 <=? maximum_sequence) = true) records) in
  encoded ← try_fold extend_operation [] records;
  digest_encoded "trnm.portable.v2.agent-market-operation-journal-root.candidate.v1" encoded.

Definition compute_operation_journal_root (st : Store) : KResult Hash32V1 :=
  compute_operation_journal_root_through st u64_max.

(** ** Metadata *)

Definition load_metadata (st : Store) : KResult MetadataRecordV1 := ok_or (metadata st) StoreFailure.

Definition load_sequence (st : Store) : KResult Z :=
  m ← load_metadata st; decode_u64 (m_sequence m).

Definition load_order_tip (st : Store) : KResult (Z * Hash32V1) :=
  m ← load_metadata st;
  block_id ← decode_marker_hash (m_order_block_id m);
  height ← decode_u64 (m_order_height m);
  Ok (height, block_id).

Definition load_durable_state_root (st : Store) : KResult Hash32V1 :=
  m ← load_metadata st; decode_marker_hash (m_durable_state_root m).

Definition load_durable_journal_root (st : Store) : KResult Hash32V1 :=
  m ← load_metadata st; decode_marker_hash (m_durable_journal_root m).

Definition metadata_checksum (schema : Z) (store_id config_hash sequence height block_id state_root journal_root : list Z)
    (fenced : Z) : Hash32V1 :=
  checksum [le_bytes 2 schema; store_id; config_hash; sequence; height; block_id; state_root; journal_root; [fenced]].

Definition update_metadata_progress (st : Store) (config : AgentMarketStoreConfigV1)
    (sequence order_height : Z) (order_block_id state_root journal_root : Hash32V1) (fenced : bool)
    : KResult Store :=
  config_hash ← config_hash config;
  let s := le_bytes 8 sequence in
  let h := le_bytes 8 order_height in
  let f := if fenced then 1 else 0 in
  Ok (set_metadata (mkMetadata STORE_SCHEMA_VERSION_V1 (store_id config) config_hash s h order_block_id
        state_root journal_root f
        (metadata_checksum STORE_SCHEMA_VERSION_V1 (store_id config) config_hash s h order_block_id
          state_root journal_root f)) st).

(** [fence_store]: its transaction reads the head and sets the flag. *)
Definition fence_store (st : Store) (config : AgentMarketStoreConfigV1) : KResult Store :=
  sequence ← load_sequence st;
  '(order_height, order_block_id) ← load_order_tip st;
  state_root ← load_durable_state_root st;
  journal_root ← load_durable_journal_root st;
  update_metadata_progress st config sequence order_height order_block_id state_root journal_root true.

Definition verify_metadata (st : Store) (config : AgentMarketStoreConfigV1) : KResult () :=
  m ← load_metadata st;
  schema ← get_int u16_max (m_schema_version m);
  fenced ← get_int u8_max (m_fenced m);
  expected_config_hash ← config_hash config;
  let expected_checksum := metadata_checksum schema (m_store_id m) (m_config_hash m) (m_sequence m)
    (m_order_height m) (m_order_block_id m) (m_durable_state_root m) (m_durable_journal_root m) fenced in
  _ ← fail_if ((schema <>? STORE_SCHEMA_VERSION_V1)
      || (m_store_id m <>? store_id config)
      || (m_config_hash m <>? expected_config_hash)
      || negb (zlen (m_sequence m) =? 8)
      || negb (zlen (m_order_height m) =? 8)
      || negb (zlen (m_order_block_id m) =? 32)
      || negb (zlen (m_durable_state_root m) =? 32)
      || negb (zlen (m_durable_journal_root m) =? 32)
      || (1 <? fenced)
      || (m_row_checksum m <>? expected_checksum)) TamperDetected;
  decoded_order_height ← decode_u64 (m_order_height m);
  let initial := tb_initial_order_height (trust_bundle config) in
  _ ← fail_if ((decoded_order_height <? initial)
      || (m_order_block_id m =?? zero_hash)
      || ((decoded_order_height =? initial)
          && (m_order_block_id m <>? tb_initial_order_block_id (trust_bundle config)))) TamperDetected;
  state_root ← compute_state_root st;
  _ ← fail_if (m_durable_state_root m <>? state_root) TamperDetected;
  journal_root ← compute_operation_journal_root st;
  _ ← fail_if (m_durable_journal_root m <>? journal_root) TamperDetected;
  fail_if (fenced =? 1) ThirdStateFenced.

(** ** The committed-block journal *)

Definition marker_predecessor_checksum (config : AgentMarketStoreConfigV1) : KResult Hash32V1 :=
  config_hash ← config_hash config;
  Ok (checksum [str "trnm.portable.v2.agent-market-committed-block-anchor.candidate.v1";
    store_id config; config_hash;
    le_bytes 8 (tb_initial_order_height (trust_bundle config));
    tb_initial_order_block_id (trust_bundle config)]).

Definition committed_block_marker_checksum (config : AgentMarketStoreConfigV1)
    (marker : CommittedBlockMarkerV1) : KResult Hash32V1 :=
  config_hash ← config_hash config;
  Ok (checksum [le_bytes 2 STORE_SCHEMA_VERSION_V1; store_id config; config_hash;
    le_bytes 8 (cm_marker_sequence marker); le_bytes 8 (cm_order_height marker); cm_order_block_id marker;
    le_bytes 8 (cm_parent_order_height marker); cm_parent_order_block_id marker;
    le_bytes 8 (cm_source_operation_sequence marker); le_bytes 8 (cm_target_operation_sequence marker);
    cm_source_state_root marker; cm_target_state_root marker;
    cm_source_operation_root marker; cm_target_operation_root marker;
    cm_previous_marker_checksum marker]).

(** The INSERT fails on a known sequence (PRIMARY KEY) or block (UNIQUE). *)
Definition insert_committed_block_marker (st : Store) (config : AgentMarketStoreConfigV1)
    (marker : CommittedBlockMarkerV1) : KResult Store :=
  row_checksum ← committed_block_marker_checksum config marker;
  let marker := set_cm_row_checksum row_checksum marker in
  let key := le_bytes 8 (cm_marker_sequence marker) in
  _ ← fail_if (bool_decide (is_Some (markers st !! key))
      || existsb (fun '(_, row) => b_order_block_id row =?? cm_order_block_id marker)
           (btree_iter (markers st))) StoreFailure;
  Ok (set_markers (<[key := marker_row marker]> (markers st)) st).

Definition insert_anchor_committed_block_marker (st : Store) (config : AgentMarketStoreConfigV1)
    (state_root operation_root : Hash32V1) : KResult Store :=
  let height := tb_initial_order_height (trust_bundle config) in
  let block_id := tb_initial_order_block_id (trust_bundle config) in
  predecessor ← marker_predecessor_checksum config;
  insert_committed_block_marker st config
    (mkMarker 0 height block_id height block_id 0 0 state_root state_root operation_root operation_root
       predecessor zero_hash).

Definition load_marker (config : AgentMarketStoreConfigV1) (entry : list Z * MarkerRow)
    : KResult CommittedBlockMarkerV1 :=
  let '(key, row) := entry in
  marker_sequence ← decode_u64 key;
  order_height ← decode_u64 (b_order_height row);
  order_block_id ← decode_marker_hash (b_order_block_id row);
  parent_order_height ← decode_u64 (b_parent_order_height row);
  parent_order_block_id ← decode_marker_hash (b_parent_order_block_id row);
  source_operation_sequence ← decode_u64 (b_source_operation_sequence row);
  target_operation_sequence ← decode_u64 (b_target_operation_sequence row);
  source_state_root ← decode_marker_hash (b_source_state_root row);
  target_state_root ← decode_marker_hash (b_target_state_root row);
  source_operation_root ← decode_marker_hash (b_source_operation_root row);
  target_operation_root ← decode_marker_hash (b_target_operation_root row);
  previous_marker_checksum ← decode_marker_hash (b_previous_marker_checksum row);
  row_checksum ← decode_marker_hash (b_row_checksum row);
  let marker := mkMarker marker_sequence order_height order_block_id parent_order_height
    parent_order_block_id source_operation_sequence target_operation_sequence source_state_root
    target_state_root source_operation_root target_operation_root previous_marker_checksum row_checksum in
  expected ← committed_block_marker_checksum config marker;
  _ ← fail_if (row_checksum <>? expected) TamperDetected;
  Ok marker.

Definition load_committed_block_markers (st : Store) (config : AgentMarketStoreConfigV1)
    : KResult (list CommittedBlockMarkerV1) :=
  loaded ← try_map (load_marker config) (btree_iter (markers st));
  let loaded := sort_by_key cm_marker_sequence loaded in
  _ ← fail_if (is_empty loaded) TamperDetected;
  Ok loaded.

Definition advance_committed_block_marker (st : Store) (config : AgentMarketStoreConfigV1)
    (execution : CommittedExecutionContextV1) (source_sequence target_sequence : Z)
    (source_state_root target_state_root source_operation_root target_operation_root : Hash32V1)
    : KResult Store :=
  loaded ← load_committed_block_markers st config;
  tail ← expect (last loaded);
  _ ← fail_if ((source_sequence <>? cm_target_operation_sequence tail)
      || (source_state_root <>? cm_target_state_root tail)
      || (source_operation_root <>? cm_target_operation_root tail)
      || (target_sequence <? source_sequence)) StaleVersion;
  if (ex_order_height execution, ex_order_block_id execution)
       =?? (cm_order_height tail, cm_order_block_id tail) then
    _ ← fail_if ((ex_expected_order_height execution, ex_expected_order_block_id execution)
        <>? (cm_order_height tail, cm_order_block_id tail)) StaleVersion;
    let updated := mkMarker (cm_marker_sequence tail) (cm_order_height tail) (cm_order_block_id tail)
      (cm_parent_order_height tail) (cm_parent_order_block_id tail)
      (cm_source_operation_sequence tail) target_sequence
      (cm_source_state_root tail) target_state_root
      (cm_source_operation_root tail) target_operation_root
      (cm_previous_marker_checksum tail) (cm_row_checksum tail) in
    row_checksum ← committed_block_marker_checksum config updated;
    let key := le_bytes 8 (cm_marker_sequence updated) in
    match markers st !! key with
    | Some row =>
        _ ← fail_if (b_row_checksum row <>? cm_row_checksum tail) StaleVersion;
        Ok (set_markers (<[key := mkMarkerRow (b_order_height row) (b_order_block_id row)
              (b_parent_order_height row) (b_parent_order_block_id row)
              (b_source_operation_sequence row) (le_bytes 8 target_sequence)
              (b_source_state_root row) target_state_root
              (b_source_operation_root row) target_operation_root
              (b_previous_marker_checksum row) row_checksum]> (markers st)) st)
    | None => Err StaleVersion
    end
  else
    _ ← fail_if (((ex_expected_order_height execution, ex_expected_order_block_id execution)
          <>? (cm_order_height tail, cm_order_block_id tail))
        || (checked_add u64_max (cm_order_height tail) 1 <>? Some (ex_order_height execution))
        || (ex_order_block_id execution =?? cm_order_block_id tail)) InvalidContext;
    marker_sequence ← ok_or (checked_add u64_max (cm_marker_sequence tail) 1) ArithmeticOverflow;
    insert_committed_block_marker st config
      (mkMarker marker_sequence (ex_order_height execution) (ex_order_block_id execution)
         (cm_order_height tail) (cm_order_block_id tail) source_sequence target_sequence
         source_state_root target_state_root source_operation_root target_operation_root
         (cm_row_checksum tail) zero_hash).

End store.
