(* ===== verification/KernelAudit.v ===== *)
(** * KernelAudit: the audits of the [trnm-task-kernel] store

    The functions of [store.rs] that re-derive every row of an open store: object
    records with the conservation laws of escrows and bonds, the operation
    journal, the committed-block journal and the schema. *)

From stdpp Require Import base gmap list sorting strings.
From S2P Require Import Prelude Crypto KernelTypes KernelStore.

(** [a..=b] over [u64] *)
Definition inclusive_range (a b : Z) : list Z :=
  (fun i => a + Z.of_nat i) <$> seq 0 (Z.to_nat (b - a + 1)).

Section audit.
Context `{KernelCrates}.

(** ** Conservation of one escrow and of the bond *)

Definition validate_escrow_conservation (body : EscrowBodyV1) (state : EscrowStateV1) : KResult () :=
  total ← ok_or (v ← checked_add u128_max (es_available state) (es_reserved state);
                 v ← checked_add u128_max v (es_disbursed state);
                 v ← checked_add u128_max v (es_refunded state);
                 checked_add u128_max v (es_forfeited state)) ArithmeticOverflow;
  reservation_sum ← try_fold (fun sum entry => ok_or (checked_add u128_max sum (er_amount entry)) ArithmeticOverflow)
    0 (es_active_reservations state);
  bad ← or_else ((total <>? eb_funded_amount body) || (reservation_sum <>? es_reserved state))
    (root ← digest_value "trnm.portable.v2.escrow-active-reservations-root.v1" (es_active_reservations state);
     Ok (es_active_reservation_root state <>? root));
  fail_if bad ConservationViolation.

Definition validate_bond_conservation (config : AgentMarketStoreConfigV1) (state : BondStateV1) : KResult () :=
  total ← ok_or (v ← checked_add u128_max (bs_available state) (bs_held state);
                 v ← checked_add u128_max v (bs_released state);
                 checked_add u128_max v (bs_slashed state)) ArithmeticOverflow;
  fail_if (total <>? tb_provider_bond_funding (trust_bundle config)) ConservationViolation.

(** ** Objects *)

(** The macro [validate!]: the record's two blobs decode, and name its key and version. *)
Definition validate {B S} `{BorshSerialize B, BorshDeserialize B, BorshSerialize S, BorshDeserialize S}
    (id_method : B -> KResult Hash32V1) (state_id : S -> Hash32V1) (state_version : S -> Z)
    (id32 : Hash32V1) (version : Z) (body state : list Z) : KResult (B * S) :=
  decoded_body ← strict_decode body;
  decoded_state ← strict_decode state;
  id ← id_method decoded_body;
  _ ← fail_if ((id <>? id32) || (state_id decoded_state <>? id32)
      || (state_version decoded_state <>? version)) TamperDetected;
  Ok (decoded_body, decoded_state).

Definition validate_object_record (kind : Z) (id : list Z) (version : Z) (body state : list Z)
    (config : AgentMarketStoreConfigV1) : KResult () :=
  id32 ← decode_marker_hash id;
  if kind =? 2 then
    _ ← validate capability_id cs_capability_id cs_state_version id32 version body state; Ok tt
  else if kind =? 3 then
    _ ← validate session_key_grant_id ss_session_key_grant_id ss_state_version id32 version body state; Ok tt
  else if kind =? 4 then
    _ ← validate task_id ts_task_id ts_revision id32 version body state; Ok tt
  else if kind =? 5 then
    _ ← validate bid_id bt_bid_id bt_state_version id32 version body state; Ok tt
  else if kind =? 6 then
    _ ← validate lease_id ls_lease_id ls_revision id32 version body state; Ok tt
  else if kind =? 7 then
    '(decoded_body, decoded_state) ← validate escrow_id es_escrow_id es_version id32 version body state;
    validate_escrow_conservation decoded_body decoded_state
  else if kind =? 44 then
    _ ← validate nonce_lane_id ns_nonce_lane_id ns_state_version id32 version body state; Ok tt
  else if kind =? 45 then
    _ ← validate account_id as_account_id as_version id32 version body state; Ok tt
  else if kind =? 47 then
    '(_, decoded_state) ← validate bond_id bs_bond_id bs_version id32 version body state;
    validate_bond_conservation config decoded_state
  else Err SchemaMismatch.

Definition audit_object (config : AgentMarketStoreConfigV1) (entry : (Z * list Z) * ObjectRow) : KResult () :=
  let '((k, id), row) := entry in
  kind ← get_int u16_max k;
  _ ← fail_if (negb (zlen id =? 32) || negb (zlen (o_version row) =? 8)) TamperDetected;
  _ ← fail_if (o_checksum row <>? object_checksum kind id (o_version row) (o_body row) (o_state row))
        TamperDetected;
  version ← decode_u64 (o_version row);
  validate_object_record kind id version (o_body row) (o_state row) config.

Definition audit_objects (st : Store) (config : AgentMarketStoreConfigV1) : KResult () :=
  try_fold (fun _ entry => audit_object config entry) tt (btree_iter (objects st)).

(** ** The operation journal *)

(** One iteration: the state is the expected sequence and the previous order tip. *)
Definition audit_operation (config : AgentMarketStoreConfigV1) (acc : Z * Z * Hash32V1)
    (record : Z * (list Z * OperationRow)) : KResult (Z * Z * Hash32V1) :=
  let '(expected_sequence, previous_height, previous_block_id) := acc in
  let '(sequence_value, (operation_id_bytes, row)) := record in
  _ ← fail_if (sequence_value <>? expected_sequence) TamperDetected;
  _ ← fail_if (p_checksum row <>? operation_checksum operation_id_bytes (p_sequence row) (p_kind row)
        (p_command row) (p_receipt row)) TamperDetected;
  command ← strict_decode (p_command row);
  receipt ← strict_decode (p_receipt row);
  id ← operation_id command;
  bad ← or_else ((operation_id_bytes <>? id)
      || (kr_schema_version receipt <>? SCHEMA_VERSION_V1)
      || (kr_operation_id receipt <>? id)
      || (kr_store_id receipt <>? store_id config)
      || (kr_sequence receipt <>? sequence_value)
      || (kr_operation_kind receipt <>? p_kind row)
      || (p_kind row <>? operation_kind command))
    (digest ← operation_digest command;
     Ok ((kr_operation_digest receipt <>? digest)
       || (kr_order_height receipt <? previous_height)
       || ((kr_order_height receipt =? previous_height) && (kr_order_block_id receipt <>? previous_block_id))
       || ((previous_height <? kr_order_height receipt) && (kr_order_block_id receipt =?? previous_block_id))));
  _ ← fail_if bad TamperDetected;
  next ← ok_or (checked_add u64_max expected_sequence 1) ArithmeticOverflow;
  Ok (next, kr_order_height receipt, kr_order_block_id receipt).

Definition audit_operations (st : Store) (config : AgentMarketStoreConfigV1) : KResult () :=
  records ← try_map sequenced (btree_iter (operations st));
  '(expected_sequence, _, _) ← try_fold (audit_operation config)
    (1, tb_initial_order_height (trust_bundle config), tb_initial_order_block_id (trust_bundle config))
    (sort_by_key fst records);
  metadata_sequence ← load_sequence st;
  fail_if (metadata_sequence <>? (expected_sequence - 1)) TamperDetected.

(** The row with the largest sequence. *)
Definition operation_tail (tail : option (Z * list Z)) (entry : list Z * OperationRow)
    : KResult (option (Z * list Z)) :=
  sequence ← decode_u64 (p_sequence entry.2);
  Ok (if match tail with Some (tail_sequence, _) => tail_sequence <? sequence | None => true end
      then Some (sequence, p_receipt entry.2) else tail).

Definition audit_operation_tail_root (st : Store) : KResult () :=
  tail ← try_fold operation_tail None (btree_iter (operations st));
  match tail with
  | Some (_, bytes) =>
      receipt ← strict_decode (A := KernelTransitionReceiptV1) bytes;
      root ← compute_state_root st;
      fail_if (kr_post_state_root receipt <>? root) TamperDetected
  | None => Ok tt
  end.

(** ** The committed-block journal *)

Definition collect_receipt (receipts : gmap Z KernelTransitionReceiptV1) (entry : list Z * OperationRow)
    : KResult (gmap Z KernelTransitionReceiptV1) :=
  sequence ← decode_u64 (p_sequence entry.2);
  receipt ← strict_decode (A := KernelTransitionReceiptV1) (p_receipt entry.2);
  _ ← fail_if ((kr_sequence receipt <>? sequence) || bool_decide (is_Some (receipts !! sequence)))
        TamperDetected;
  Ok (<[sequence := receipt]> receipts).

(** One step over a marker's operation range: the state is the expected target root. *)
Definition range_step (receipts : gmap Z KernelTransitionReceiptV1) (marker : CommittedBlockMarkerV1)
    (_ : Hash32V1) (sequence : Z) : KResult Hash32V1 :=
  receipt ← ok_or (receipts !! sequence) TamperDetected;
  _ ← fail_if ((kr_order_height receipt <>? cm_order_height marker)
      || (kr_order_block_id receipt <>? cm_order_block_id marker)) TamperDetected;
  Ok (kr_post_state_root receipt).

Definition check_successor (config : AgentMarketStoreConfigV1) (previous : option CommittedBlockMarkerV1)
    (marker : CommittedBlockMarkerV1) : KResult () :=
  match previous with
  | None =>
      bad ← or_else ((cm_marker_sequence marker <>? 0)
          || (cm_order_height marker <>? tb_initial_order_height (trust_bundle config))
          || (cm_order_block_id marker <>? tb_initial_order_block_id (trust_bundle config))
          || (cm_parent_order_height marker <>? cm_order_height marker)
          || (cm_parent_order_block_id marker <>? cm_order_block_id marker)
          || (cm_source_operation_sequence marker <>? 0))
        (predecessor ← marker_predecessor_checksum config;
         Ok (cm_previous_marker_checksum marker <>? predecessor));
      fail_if bad TamperDetected
  | Some parent =>
      fail_if ((checked_add u64_max (cm_marker_sequence parent) 1 <>? Some (cm_marker_sequence marker))
          || (checked_add u64_max (cm_order_height parent) 1 <>? Some (cm_order_height marker))
          || (cm_parent_order_height marker <>? cm_order_height parent)
          || (cm_parent_order_block_id marker <>? cm_order_block_id parent)
          || (cm_order_block_id marker =?? cm_order_block_id parent)
          || (cm_source_operation_sequence marker <>? cm_target_operation_sequence parent)
          || (cm_source_state_root marker <>? cm_target_state_root parent)
          || (cm_source_operation_root marker <>? cm_target_operation_root parent)
          || (cm_previous_marker_checksum marker <>? cm_row_checksum parent)) TamperDetected
  end.

Definition audit_marker (st : Store) (config : AgentMarketStoreConfigV1)
    (receipts : gmap Z KernelTransitionReceiptV1) (acc : Z * option CommittedBlockMarkerV1)
    (marker : CommittedBlockMarkerV1) : KResult (Z * option CommittedBlockMarkerV1) :=
  let '(index, previous) := acc in
  expected ← ok_or (try_from u64_max index) ArithmeticOverflow;
  _ ← fail_if (cm_marker_sequence marker <>? expected) TamperDetected;
  _ ← check_successor config previous marker;
  bad ← or_else (cm_target_operation_sequence marker <? cm_source_operation_sequence marker)
    (source ← compute_operation_journal_root_through st (cm_source_operation_sequence marker);
     or_else (cm_source_operation_root marker <>? source)
       (target ← compute_operation_journal_root_through st (cm_target_operation_sequence marker);
        Ok (cm_target_operation_root marker <>? target)));
  _ ← fail_if bad TamperDetected;
  expected_target_state ← try_fold (range_step receipts marker) (cm_source_state_root marker)
    (inclusive_range (saturating_add u64_max (cm_source_operation_sequence marker) 1)
       (cm_target_operation_sequence marker));
  _ ← fail_if (cm_target_state_root marker <>? expected_target_state) TamperDetected;
  Ok (index + 1, Some marker).

Definition audit_committed_block_journal (st : Store) (config : AgentMarketStoreConfigV1) : KResult () :=
  loaded ← load_committed_block_markers st config;
  receipts ← try_fold collect_receipt ∅ (btree_iter (operations st));
  '(_, previous) ← try_fold (audit_marker st config receipts) (0, None) loaded;
  tail ← expect previous;
  metadata_sequence ← load_sequence st;
  metadata_state_root ← load_durable_state_root st;
  metadata_operation_root ← load_durable_journal_root st;
  tip ← load_order_tip st;
  fail_if ((tip <>? (cm_order_height tail, cm_order_block_id tail))
      || (metadata_sequence <>? cm_target_operation_sequence tail)
      || (metadata_state_root <>? cm_target_state_root tail)
      || (metadata_operation_root <>? cm_target_operation_root tail)
      || (try_from u64_max (Z.of_nat (size receipts)) <>? Some metadata_sequence)) TamperDetected.

Definition committed_block_journal_root (st : Store) (config : AgentMarketStoreConfigV1) : KResult Hash32V1 :=
  _ ← audit_committed_block_journal st config;
  loaded ← load_committed_block_markers st config;
  ok_or (cm_row_checksum <$> last loaded) TamperDetected.

Definition audit_store (st : Store) (config : AgentMarketStoreConfigV1) : KResult () :=
  _ ← audit_objects st config;
  _ ← audit_operations st config;
  _ ← audit_operation_tail_root st;
  audit_committed_block_journal st config.

(** ** The schema and the directory *)

Definition verify_schema (st : Store) : KResult () :=
  _ ← fail_if (tables st <>? [("agent_market_committed_blocks_v1"%string, COMMITTED_BLOCKS_SQL);
        ("agent_market_metadata_v1"%string, META_SQL);
        ("agent_market_objects_v1"%string, OBJECTS_SQL);
        ("agent_market_operations_v1"%string, OPERATIONS_SQL)]) SchemaMismatch;
  fail_if (triggers st <>? 0) SchemaMismatch.

Definition reject_sidecars (st : Store) : KResult () := fail_if (sidecars st) SidecarPresent.

(** [open_ro_raw] and [open_rw_raw] without SQLITE_OPEN_CREATE: the file must exist. *)
Definition open_raw (st : Store) : KResult () := fail_if (negb (present st)) StoreFailure.

(** The connection reads the durable store. *)
Definition open_ro_verified (st : Store) (config : AgentMarketStoreConfigV1) : KResult () :=
  _ ← reject_sidecars st;
  _ ← open_raw st;
  _ ← verify_schema st;
  _ ← verify_metadata st config;
  audit_store st config.

Definition open_rw_verified (st : Store) (config : AgentMarketStoreConfigV1) : KResult () :=
  _ ← reject_sidecars st;
  _ ← open_raw st;
  _ ← verify_schema st;
  _ ← verify_metadata st config;
  _ ← audit_store st config;
  _ ← open_raw st;
  _ ← verify_schema st;
  _ ← verify_metadata st config;
  audit_store st config.

End audit.
