(* ===== verification/Kernel.v ===== *)
(** * Kernel: the Agent/Market kernel of [trnm-task-kernel]

    The rest of [store.rs]: authorization, the six command handlers, the budget,
    and the public methods of [TaskKernelStoreV1].  A handler takes the
    transaction and returns the changed one; a public method that writes returns
    its result together with the durable store.  Unsigned subtraction panics when
    it underflows. *)

From stdpp Require Import base gmap list sorting strings.
From S2P Require Import Prelude Crypto KernelTypes KernelStore KernelAudit.

(** [require_strictly_sorted_unique], [require_unique_key] *)
Definition require_strictly_sorted_unique {T} `{RustOrd T} (values : list T) : KResult () :=
  fail_if (windows2_any (fun a b => ord_leb b a) values) NonCanonical.
Definition require_unique_key {T K} `{EqDecision K} (key : T -> K) (values : list T) : KResult () :=
  fail_if (windows2_any (fun a b => key a =?? key b) values) NonCanonical.

(** [values.contains(&v)] *)
Definition contains {A} `{EqDecision A} (values : list A) (v : A) : bool :=
  existsb (fun x => x =?? v) values.

(** [values.iter().find(f)] *)
Fixpoint iter_find {A} (f : A -> bool) (values : list A) : option A :=
  match values with
  | [] => None
  | v :: values => if f v then Some v else iter_find f values
  end.

(** [o.is_some_and(f)] *)
Definition is_some_and {A} (f : A -> bool) (o : option A) : bool :=
  match o with Some a => f a | None => false end.
Definition is_some {A} (o : option A) : bool := is_some_and (fun _ => true) o.

Fixpoint all_unique_from (seen values : list Hash32V1) : bool :=
  match values with
  | [] => true
  | v :: values => negb (contains seen v) && all_unique_from (seen ++ [v]) values
  end.
(** [all_unique]: no value occurs in the slice before it. *)
Definition all_unique (values : list Hash32V1) : bool := all_unique_from [] values.

(** [*spent] after [checked_budget_add_u128] or [checked_budget_add_u64] at width [m]. *)
Definition checked_budget_add (m spent reserved requested limit : Z) : KResult Z :=
  total ← ok_or (v ← checked_add m spent reserved; checked_add m v requested) ArithmeticOverflow;
  _ ← fail_if (limit <? total) BudgetExceeded;
  ok_or (checked_add m spent requested) ArithmeticOverflow.

Record AuthorizationSnapshotV1 := mkSnapshot {
  sn_lane_body : NonceLaneKeyBodyV1;
  sn_lane_state : NonceLaneStateV1;
  sn_capability : option (CapabilityGrantBodyV1 * CapabilityStateV1);
  sn_session : option (SessionKeyGrantBodyV1 * SessionKeyGrantStateV1);
}.

Record ResolvedOperationScopeV1 := mkResolved {
  rs_task_id : Hash32V1;
  rs_task : TaskOfferBodyV1;
  rs_maximum_unit_price : option Z;
}.

(** The states the handlers insert. *)
Definition initial_capability (config : AgentMarketStoreConfigV1) (execution_height : Z) (id : Hash32V1)
    (body : CapabilityGrantBodyV1) : CapabilityStateV1 :=
  let context := tb_context (trust_bundle config) in
  let budget := mkBudget SCHEMA_VERSION_V1 context id 0 (cg_revocation_generation body)
    ((fun limit => mkCounter (al_asset_id limit) (al_maximum_amount limit) 0 0) <$> cg_spend_limits body)
    (cg_fee_limit body) 0 0
    (cg_gas_limit body) 0 0
    (cg_da_byte_limit body) 0 0
    (cg_artifact_retention_limit body) 0 0
    (cg_max_total_operations body) 0 0
    execution_height 0 in
  mkCapability SCHEMA_VERSION_V1 context id 0 0 (cg_revocation_generation body)
    execution_height execution_height None budget.

Definition initial_session (config : AgentMarketStoreConfigV1) (execution_height : Z) (id : Hash32V1)
    (body : SessionKeyGrantBodyV1) (capability_state : CapabilityStateV1) : SessionKeyGrantStateV1 :=
  mkSession SCHEMA_VERSION_V1 (tb_context (trust_bundle config)) id 0 0 (sg_session_generation body)
    (cs_live_revocation_generation capability_state) 0 execution_height execution_height None.

Definition session_lane (config : AgentMarketStoreConfigV1) (body : SessionKeyGrantBodyV1) (lane : Z)
    : NonceLaneKeyBodyV1 :=
  mkLaneKey SCHEMA_VERSION_V1 (tb_context (trust_bundle config)) (sg_agent_id body) (sg_session_key_id body)
    (Some (sg_capability_id body)) (sg_session_generation body) lane.

Definition initial_lane (id : Hash32V1) (body : NonceLaneKeyBodyV1) : NonceLaneStateV1 :=
  mkLane SCHEMA_VERSION_V1 (nb_context body) id 0 (nb_agent_id body)
    (nb_authorizing_key_id body) (nb_capability_id body) (nb_session_generation body) (nb_lane body)
    0 None 0.

Definition escrow_body_of (body : TaskCreationOperationBodyV1) (id : Hash32V1) : EscrowBodyV1 :=
  let offer := tc_task_offer_body body in
  let terms := tc_escrow_terms body in
  mkEscrowBody SCHEMA_VERSION_V1 (to_genesis_hash offer) (to_chain_id offer)
    (to_protocol_version offer) (to_stack_profile_hash offer) id (to_requester_agent_id offer)
    (et_asset_id terms) (et_funded_amount terms) (et_provider_payment_cap terms) (et_order_fee_reserve terms)
    (et_transaction_da_fee_reserve terms) (et_artifact_da_fee_reserve terms)
    (et_verification_fee_reserve terms) (et_challenge_reserve terms) (et_refund_beneficiary terms)
    (et_settlement_policy_hash terms) (tc_escrow_nonce body).

Definition initial_escrow (config : AgentMarketStoreConfigV1) (id : Hash32V1) (body : EscrowBodyV1)
    (root : Hash32V1) : EscrowStateV1 :=
  mkEscrow SCHEMA_VERSION_V1 (tb_context (trust_bundle config)) id 0 (eb_funded_amount body) 0 0 0 0
    [] root None false.

Definition initial_task (config : AgentMarketStoreConfigV1) (id escrow : Hash32V1) (offer : TaskOfferBodyV1)
    : TaskStateV1 :=
  mkTask SCHEMA_VERSION_V1 (tb_context (trust_bundle config)) id 0 0 0 None None None escrow 0
    (to_offer_expiry_height offer).

Definition initial_bid (config : AgentMarketStoreConfigV1) (id : Hash32V1) : BidStateV1 :=
  mkBid SCHEMA_VERSION_V1 (tb_context (trust_bundle config)) id 0 0 None None None.

Definition initial_lease (config : AgentMarketStoreConfigV1) (id : Hash32V1) (body : TaskLeaseBodyV1)
    : TaskLeaseStateV1 :=
  mkLease SCHEMA_VERSION_V1 (tb_context (trust_bundle config)) id 0 (lb_attempt body) 0 None None None None.

Definition lease_reservation (execution_height : Z) (id : Hash32V1) (escrow_body : EscrowBodyV1)
    (price : Z) : EscrowReservationEntryV1 :=
  mkReservation 0 (kind_code KindLease) id (eb_asset_id escrow_body) price
    execution_height (eb_settlement_policy_hash escrow_body).

Section kernel.
Context `{KernelCrates}.

(** ** Contexts and signatures *)

Definition validate_trust_bundle (bundle : AgentMarketFreshGenesisTrustBundleV1) : KResult () :=
  _ ← fail_if ((tb_schema_version bundle <>? SCHEMA_VERSION_V1)
      || (pc_protocol_version (tb_context bundle) <>? PROTOCOL_VERSION_V1)
      || is_empty (pc_chain_id (tb_context bundle))) InvalidContext;
  let requester := tb_requester bundle in
  let provider := tb_provider bundle in
  let agent_ids := [ba_agent_id requester; ba_agent_id provider] in
  let key_ids := [ba_controller_key_id requester; ba_session_key_id requester;
                  ba_controller_key_id provider; ba_session_key_id provider] in
  let public_keys := [ba_controller_public_key requester; ba_session_public_key requester;
                      ba_controller_public_key provider; ba_session_public_key provider] in
  bad ← or_else ((tb_initial_order_block_id bundle =?? zero_hash)
      || contains agent_ids zero_hash
      || contains key_ids zero_hash
      || (ba_agent_id requester =?? ba_agent_id provider)
      || negb (all_unique key_ids)
      || negb (all_unique public_keys))
    (account ← account_id (tb_requester_account_body bundle);
     or_else (account <>? tb_requester_account_id bundle)
       (bond ← bond_id (tb_provider_bond_body bundle);
        Ok ((bond <>? tb_provider_bond_id bundle)
          || (ab_context (tb_requester_account_body bundle) <>? tb_context bundle)
          || (bb_context (tb_provider_bond_body bundle) <>? tb_context bundle)
          || (ab_owner_agent_id (tb_requester_account_body bundle) <>? ba_agent_id requester)
          || (bb_owner_agent_id (tb_provider_bond_body bundle) <>? ba_agent_id provider)
          || (tb_requester_account_funding bundle =? 0)
          || (tb_provider_bond_hold bundle =? 0)
          || (tb_provider_bond_funding bundle <? tb_provider_bond_hold bundle))));
  _ ← fail_if bad InvalidBounds;
  _ ← ok_or (vk_from_bytes (ba_controller_public_key requester)) InvalidSignature;
  _ ← ok_or (vk_from_bytes (ba_session_public_key requester)) InvalidSignature;
  _ ← ok_or (vk_from_bytes (ba_controller_public_key provider)) InvalidSignature;
  _ ← ok_or (vk_from_bytes (ba_session_public_key provider)) InvalidSignature;
  Ok tt.

Definition validate_execution_context_static (config : AgentMarketStoreConfigV1)
    (execution : CommittedExecutionContextV1) : KResult () :=
  fail_if ((ex_schema_version execution <>? SCHEMA_VERSION_V1)
      || (ex_context execution <>? tb_context (trust_bundle config))
      || (ex_order_height execution <? ex_expected_order_height execution)
      || (ex_expected_order_block_id execution =?? zero_hash)
      || (ex_order_block_id execution =?? zero_hash)
      || ((ex_order_height execution =? ex_expected_order_height execution)
          && (ex_order_block_id execution <>? ex_expected_order_block_id execution))
      || ((ex_expected_order_height execution <? ex_order_height execution)
          && (ex_order_block_id execution =?? ex_expected_order_block_id execution))) InvalidContext.

Definition validate_execution_context_cas (st : Store) (execution : CommittedExecutionContextV1) : KResult () :=
  '(height, block_id) ← load_order_tip st;
  fail_if ((height <>? ex_expected_order_height execution)
      || (block_id <>? ex_expected_order_block_id execution)) StaleVersion.

Definition bootstrap_agent (bundle : AgentMarketFreshGenesisTrustBundleV1) (agent_id : Hash32V1)
    : KResult BootstrapAgentV1 :=
  if ba_agent_id (tb_requester bundle) =?? agent_id then Ok (tb_requester bundle)
  else if ba_agent_id (tb_provider bundle) =?? agent_id then Ok (tb_provider bundle)
  else Err Unauthorized.

Definition signature_domain (kind : Z) : option string :=
  if kind =? 2 then Some "trnm.portable.v2.capability-grant-kernel-signature.candidate.v1"%string
  else if kind =? 3 then Some "trnm.portable.v2.session-grant-kernel-signature.candidate.v1"%string
  else if kind =? 4 then Some "trnm.portable.v2.task-offer-kernel-signature.candidate.v1"%string
  else if kind =? 5 then Some "trnm.portable.v2.bid-kernel-signature.candidate.v1"%string
  else if kind =? 6 then Some "trnm.portable.v2.lease-requester-kernel-signature.candidate.v1"%string
  else if kind =? 7 then Some "trnm.portable.v2.lease-provider-kernel-signature.candidate.v1"%string
  else None.

(** [Signature::from_slice] accepts 64 bytes. *)
Definition verify_authorization_signature (config : AgentMarketStoreConfigV1) (command : KernelCommandV1)
    : KResult () :=
  let authorization := authorization command in
  agent ← bootstrap_agent (trust_bundle config) (au_sender_agent_id (ka_statement authorization));
  let '(expected_key_id, public_key) :=
    if operation_kind command <=? 3 then (ba_controller_key_id agent, ba_controller_public_key agent)
    else (ba_session_key_id agent, ba_session_public_key agent) in
  _ ← fail_if (ka_signer_key_id authorization <>? expected_key_id) Unauthorized;
  domain ← ok_or (signature_domain (operation_kind command)) InvalidBounds;
  message ← digest_value domain (ka_statement authorization);
  key ← ok_or (vk_from_bytes public_key) InvalidSignature;
  _ ← fail_if (negb (zlen (ka_signature authorization) =? 64)) InvalidSignature;
  fail_if (negb (verify_strict key message (ka_signature authorization))) InvalidSignature.

Definition verify_command_envelope (config : AgentMarketStoreConfigV1) (execution_height : Z)
    (command : KernelCommandV1) : KResult () :=
  let statement := ka_statement (authorization command) in
  bad ← or_else ((au_schema_version statement <>? SCHEMA_VERSION_V1)
      || (au_context statement <>? tb_context (trust_bundle config))
      || (au_operation_kind statement <>? operation_kind command))
    (digest ← operation_digest command; Ok (au_operation_digest statement <>? digest));
  _ ← fail_if bad InvalidContext;
  _ ← fail_if ((execution_height <? au_valid_after_height statement)
      || (au_expires_after_height statement <? execution_height)) Expired;
  _ ← fail_if (negb (zlen (ka_signature (authorization command)) =? 64)) InvalidSignature;
  verify_authorization_signature config command.

Definition validate_body_context (config : AgentMarketStoreConfigV1) (schema : Z) (genesis_hash : Hash32V1)
    (chain_id : rstring) (protocol_version : Z) (stack_profile_hash : Hash32V1) : KResult () :=
  let context := tb_context (trust_bundle config) in
  fail_if ((schema <>? SCHEMA_VERSION_V1)
      || (genesis_hash <>? pc_genesis_hash context)
      || (chain_id <>? pc_chain_id context)
      || (protocol_version <>? pc_protocol_version context)
      || (stack_profile_hash <>? pc_stack_profile_hash context)) InvalidContext.

(** ** Authorization *)

Definition resolve_operation_scope (st : Store) (command : KernelCommandV1) : KResult ResolvedOperationScopeV1 :=
  match command with
  | TaskCreate body _ _ =>
      id ← task_id (tc_task_offer_body body);
      Ok (mkResolved id (tc_task_offer_body body) None)
  | Bid body _ _ =>
      '(task, _) ← load_object TaskOfferBodyV1 TaskStateV1 st KindTask (bd_task_id body);
      Ok (mkResolved (bd_task_id body) task (Some (bd_maximum_price body)))
  | LeaseAccept body _ _ _ _ _ =>
      '(task, _) ← load_object TaskOfferBodyV1 TaskStateV1 st KindTask (lb_task_id body);
      '(bid, _) ← load_object BidBodyV1 BidStateV1 st KindBid (lb_accepted_bid_id body);
      Ok (mkResolved (lb_task_id body) task (Some (bd_maximum_price bid)))
  | ProviderAccept body _ _ _ =>
      '(lease, _) ← load_object TaskLeaseBodyV1 TaskLeaseStateV1 st KindLease (pa_lease_id body);
      '(task, _) ← load_object TaskOfferBodyV1 TaskStateV1 st KindTask (lb_task_id lease);
      '(bid, _) ← load_object BidBodyV1 BidStateV1 st KindBid (lb_accepted_bid_id lease);
      Ok (mkResolved (lb_task_id lease) task (Some (bd_maximum_price bid)))
  | CapabilityGrant _ _ | SessionGrant _ _ => Err InvalidCapability
  end.

Definition validate_operation_scope (st : Store) (capability : CapabilityGrantBodyV1)
    (command : KernelCommandV1) : KResult () :=
  let kind := operation_kind command in
  scope ← ok_or (iter_find (fun scope => os_operation_kind scope =? kind) (cg_operation_scopes capability))
    InvalidCapability;
  resolved ← resolve_operation_scope st command;
  let task := rs_task resolved in
  _ ← fail_if (is_some_and (fun required => required <>? rs_task_id resolved) (os_task_id scope)
      || is_some_and (fun required => required <>? to_model_scope_commitment task) (os_model_commitment scope)
      || is_some_and (fun required => required <>? to_tool_scope_commitment task) (os_tool_commitment scope)
      || is_some_and (fun required =>
           (vp_profile_id required <>? to_verification_profile_id task)
           || (vp_profile_version required <>? to_verification_profile_version task)
           || (vp_profile_hash required <>? to_verification_profile_hash task)) (os_verification_profile scope)
      || is_some_and (fun required => required <>? to_privacy_lane task) (os_privacy_lane scope))
      InvalidCapability;
  _ ← fail_if (is_some (os_market_id scope) || is_some (os_endpoint_commitment scope)) InvalidCapability;
  _ ← match os_maximum_unit_price scope with
      | Some maximum =>
          price ← ok_or (rs_maximum_unit_price resolved) InvalidCapability;
          fail_if (maximum <? price) BudgetExceeded
      | None => Ok tt
      end;
  resource_scope ← ok_or (iter_find (fun candidate => rsc_resource_kind candidate =? 1)
    (cg_resource_scopes capability)) InvalidCapability;
  fail_if ((rsc_scope_mode resource_scope <>? 0)
      || negb (contains (rsc_allowed_ids resource_scope) (to_resource_limit_hash task))) InvalidCapability.

Definition authorize (st : Store) (config : AgentMarketStoreConfigV1) (execution_height : Z)
    (command : KernelCommandV1) : KResult AuthorizationSnapshotV1 :=
  let statement := ka_statement (authorization command) in
  let controller := operation_kind command <=? 3 in
  _ ← (if controller then
         fail_if ((au_authorizing_key_id statement <>? CONTROLLER_SENTINEL_KEY_V1)
           || is_some (au_capability_id statement)
           || (au_live_capability_generation statement <>? 0)
           || is_some (au_session_key_grant_id statement)
           || (au_session_generation statement <>? 0)
           || (au_nonce_lane statement <>? CONTROLLER_LANE_V1)) Unauthorized
       else
         fail_if ((au_authorizing_key_id statement =?? CONTROLLER_SENTINEL_KEY_V1)
           || negb (is_some (au_capability_id statement))
           || negb (is_some (au_session_key_grant_id statement))
           || (au_session_generation statement =? 0)
           || (au_nonce_lane statement =? CONTROLLER_LANE_V1)) Unauthorized);
  let lane_body := mkLaneKey SCHEMA_VERSION_V1 (tb_context (trust_bundle config))
    (au_sender_agent_id statement) (au_authorizing_key_id statement) (au_capability_id statement)
    (au_session_generation statement) (au_nonce_lane statement) in
  lane_id ← nonce_lane_id lane_body;
  '(stored_lane_body, lane_state) ← load_object NonceLaneKeyBodyV1 NonceLaneStateV1 st KindNonceLane lane_id;
  _ ← fail_if ((stored_lane_body <>? lane_body)
      || (ns_nonce_lane_id lane_state <>? lane_id)
      || (ns_status lane_state <>? 0)
      || (ns_state_version lane_state <>? au_expected_lane_version statement)) InvalidNonceLane;
  _ ← fail_if (au_nonce statement <? ns_next_nonce lane_state) NonceReplay;
  _ ← fail_if (ns_next_nonce lane_state <? au_nonce statement) NonceGap;
  if controller then Ok (mkSnapshot lane_body lane_state None None)
  else
    capability_id ← expect (au_capability_id statement);
    session_id ← expect (au_session_key_grant_id statement);
    '(capability_body, capability_state) ←
      load_object CapabilityGrantBodyV1 CapabilityStateV1 st KindCapability capability_id;
    '(session_body, session_state) ←
      load_object SessionKeyGrantBodyV1 SessionKeyGrantStateV1 st KindSessionGrant session_id;
    let height := execution_height in
    _ ← fail_if ((cs_status capability_state <>? 0)
        || (cs_live_revocation_generation capability_state <>? au_live_capability_generation statement)
        || (cg_revocation_generation capability_body <>? au_live_capability_generation statement)
        || (cg_delegate_agent_id capability_body <>? au_sender_agent_id statement)
        || (height <? cg_valid_from_height capability_body)
        || (cg_expires_after_height capability_body <? height)) InvalidCapability;
    bad ← or_else ((ss_status session_state <>? 0)
        || (ss_session_generation session_state <>? au_session_generation statement)
        || (ss_bound_capability_generation session_state <>? au_live_capability_generation statement)
        || (sg_session_generation session_body <>? au_session_generation statement)
        || (sg_capability_id session_body <>? capability_id)
        || (sg_agent_id session_body <>? au_sender_agent_id statement)
        || (sg_session_key_id session_body <>? au_authorizing_key_id statement))
      (grant_id ← session_key_grant_id session_body;
       Ok ((grant_id <>? session_id)
         || (height <? sg_valid_from_height session_body)
         || (sg_expires_after_height session_body <? height)
         || negb (contains (sg_allowed_nonce_lanes session_body) (au_nonce_lane statement))
         || (sg_max_total_operations session_body <=? ss_operations_spent session_state)));
    _ ← fail_if bad InvalidSession;
    _ ← validate_operation_scope st capability_body command;
    Ok (mkSnapshot lane_body lane_state (Some (capability_body, capability_state))
          (Some (session_body, session_state))).

(** ** Handlers *)

Definition check_resource_scope (scope : ResourceScopeV1) : KResult () :=
  let exact := (rsc_scope_mode scope =? 0) && negb (is_empty (rsc_allowed_ids scope))
    && negb (is_some (rsc_allowlist_commitment scope)) in
  _ ← fail_if (negb exact || (rsc_resource_kind scope <>? 1)) InvalidCapability;
  require_strictly_sorted_unique (rsc_allowed_ids scope).

Definition apply_capability_grant (st : Store) (config : AgentMarketStoreConfigV1) (execution_height : Z)
    (body : CapabilityGrantBodyV1) (authorization : KernelAuthorizationV1) : KResult Store :=
  _ ← validate_body_context config (cg_schema_version body) (cg_genesis_hash body) (cg_chain_id body)
        (cg_protocol_version body) (cg_stack_profile_hash body);
  agent ← bootstrap_agent (trust_bundle config) (au_sender_agent_id (ka_statement authorization));
  _ ← fail_if ((cg_issuer_agent_id body <>? ba_agent_id agent)
      || (cg_delegate_agent_id body <>? ba_agent_id agent)
      || (cg_issuer_key_id body <>? CONTROLLER_SENTINEL_KEY_V1)
      || (cg_delegate_key_id body <>? Some (ba_session_key_id agent))
      || is_some (cg_parent_capability_id body)
      || (execution_height <? cg_valid_from_height body)
      || (cg_expires_after_height body <? execution_height)
      || (cg_expires_after_height body <? cg_valid_from_height body)
      || (cg_rate_window_blocks body =? 0)
      || (cg_rate_max_operations body =? 0)
      || (cg_max_total_operations body =? 0)
      || is_empty (cg_operation_scopes body)
      || is_empty (cg_resource_scopes body)
      || is_empty (cg_allowed_nonce_lanes body)
      || contains (cg_allowed_nonce_lanes body) 0) InvalidCapability;
  _ ← require_strictly_sorted_unique (cg_operation_scopes body);
  _ ← require_strictly_sorted_unique (cg_resource_scopes body);
  _ ← require_strictly_sorted_unique (cg_spend_limits body);
  _ ← require_strictly_sorted_unique (cg_allowed_nonce_lanes body);
  _ ← require_unique_key os_operation_kind (cg_operation_scopes body);
  _ ← require_unique_key rsc_resource_kind (cg_resource_scopes body);
  _ ← require_unique_key al_asset_id (cg_spend_limits body);
  _ ← try_fold (fun _ scope => check_resource_scope scope) tt (cg_resource_scopes body);
  id ← capability_id body;
  insert_object st KindCapability id 0 body (initial_capability config execution_height id body).

Definition insert_nonce_lane (st : Store) (body : NonceLaneKeyBodyV1) : KResult Store :=
  id ← nonce_lane_id body;
  insert_object st KindNonceLane id 0 body (initial_lane id body).

Definition apply_session_grant (st : Store) (config : AgentMarketStoreConfigV1) (execution_height : Z)
    (body : SessionKeyGrantBodyV1) (authorization : KernelAuthorizationV1) : KResult Store :=
  _ ← validate_body_context config (sg_schema_version body) (sg_genesis_hash body) (sg_chain_id body)
        (sg_protocol_version body) (sg_stack_profile_hash body);
  agent ← bootstrap_agent (trust_bundle config) (au_sender_agent_id (ka_statement authorization));
  '(capability_body, capability_state) ←
    load_object CapabilityGrantBodyV1 CapabilityStateV1 st KindCapability (sg_capability_id body);
  _ ← fail_if ((sg_agent_id body <>? ba_agent_id agent)
      || (sg_session_key_id body <>? ba_session_key_id agent)
      || (sg_session_generation body <>? 1)
      || is_empty (sg_allowed_nonce_lanes body)
      || contains (sg_allowed_nonce_lanes body) 0
      || (sg_valid_from_height body <? cg_valid_from_height capability_body)
      || (cg_expires_after_height capability_body <? sg_expires_after_height body)
      || (sg_expires_after_height body <? sg_valid_from_height body)
      || (sg_max_total_operations body =? 0)
      || (cg_max_total_operations capability_body <? sg_max_total_operations body)
      || (cs_status capability_state <>? 0)
      || negb (forallb (contains (cg_allowed_nonce_lanes capability_body)) (sg_allowed_nonce_lanes body)))
      InvalidSession;
  _ ← require_strictly_sorted_unique (sg_allowed_nonce_lanes body);
  session_id ← session_key_grant_id body;
  st ← insert_object st KindSessionGrant session_id 0 body
         (initial_session config execution_height session_id body capability_state);
  try_fold (fun st lane => insert_nonce_lane st (session_lane config body lane)) st (sg_allowed_nonce_lanes body).

Definition account_total (state : AccountStateV1) : KResult Z :=
  ok_or (v ← checked_add u128_max (as_available state) (as_reserved state);
         checked_add u128_max v (as_spent state)) ArithmeticOverflow.

Definition apply_task_create (st : Store) (config : AgentMarketStoreConfigV1) (execution_height : Z)
    (body : TaskCreationOperationBodyV1) (authorization : KernelAuthorizationV1) : KResult Store :=
  let offer := tc_task_offer_body body in
  let terms := tc_escrow_terms body in
  _ ← validate_body_context config (to_schema_version offer) (to_genesis_hash offer) (to_chain_id offer)
        (to_protocol_version offer) (to_stack_profile_hash offer);
  let statement := ka_statement authorization in
  bad ← or_else ((to_requester_agent_id offer <>? au_sender_agent_id statement)
      || (to_requester_key_id offer <>? au_authorizing_key_id statement)
      || (to_requester_capability_id offer <>? au_capability_id statement)
      || (to_requester_session_generation offer <>? au_session_generation statement)
      || (to_request_nonce_lane offer <>? au_nonce_lane statement)
      || (to_request_nonce offer <>? au_nonce statement)
      || is_empty (to_task_kind offer)
      || (to_offer_expiry_height offer <? execution_height)
      || negb ((to_offer_expiry_height offer <=? to_start_deadline_height offer)
           && (to_start_deadline_height offer <=? to_result_deadline_height offer)
           && (to_result_deadline_height offer <=? to_settlement_deadline_height offer))
      || (et_schema_version terms <>? SCHEMA_VERSION_V1)
      || (et_refund_beneficiary terms <>? au_sender_agent_id statement))
    (digest ← digest_value "trnm.portable.v2.escrow-terms.v1" terms;
     Ok (to_escrow_terms_hash offer <>? digest));
  _ ← fail_if bad InvalidState;
  allocated ← ok_or (v ← checked_add u128_max (et_provider_payment_cap terms) (et_order_fee_reserve terms);
                     v ← checked_add u128_max v (et_transaction_da_fee_reserve terms);
                     v ← checked_add u128_max v (et_artifact_da_fee_reserve terms);
                     v ← checked_add u128_max v (et_verification_fee_reserve terms);
                     checked_add u128_max v (et_challenge_reserve terms)) ArithmeticOverflow;
  let funded := et_funded_amount terms in
  _ ← fail_if (funded <? allocated) ConservationViolation;
  '(account_body, account_state) ←
    load_object AccountBodyV1 AccountStateV1 st KindAccount (tc_funding_account_id body);
  _ ← fail_if ((as_version account_state <>? tc_expected_funding_account_version body)
      || as_closed account_state
      || (ab_owner_agent_id account_body <>? au_sender_agent_id statement)
      || (ab_asset_id account_body <>? et_asset_id terms)
      || (as_available account_state <? funded)) InsufficientFunds;
  before_total ← account_total account_state;
  available ← expect (checked_sub (as_available account_state) funded);
  let account_state := set_as_available available account_state in
  spent ← ok_or (checked_add u128_max (as_spent account_state) funded) ArithmeticOverflow;
  let account_state := set_as_spent spent account_state in
  version ← ok_or (checked_add u64_max (as_version account_state) 1) ArithmeticOverflow;
  let account_state := set_as_version version account_state in
  after_total ← account_total account_state;
  _ ← fail_if (after_total <>? before_total) ConservationViolation;
  st ← update_object st KindAccount (tc_funding_account_id body) (tc_expected_funding_account_version body)
         (as_version account_state) account_body account_state;
  id ← task_id offer;
  let escrow_body := escrow_body_of body id in
  escrow ← escrow_id escrow_body;
  root ← digest_value "trnm.portable.v2.escrow-active-reservations-root.v1" ([] : list EscrowReservationEntryV1);
  st ← insert_object st KindTask id 0 offer (initial_task config id escrow offer);
  insert_object st KindEscrow escrow 0 escrow_body (initial_escrow config escrow escrow_body root).

Definition apply_bid (st : Store) (config : AgentMarketStoreConfigV1) (execution_height : Z)
    (body : BidBodyV1) (authorization : KernelAuthorizationV1) : KResult Store :=
  _ ← validate_body_context config (bd_schema_version body) (bd_genesis_hash body) (bd_chain_id body)
        (bd_protocol_version body) (bd_stack_profile_hash body);
  let statement := ka_statement authorization in
  '(task_body, task_state) ← load_object TaskOfferBodyV1 TaskStateV1 st KindTask (bd_task_id body);
  '(escrow_body, _) ← load_object EscrowBodyV1 EscrowStateV1 st KindEscrow (ts_escrow_id task_state);
  '(bond_body, bond_state) ← load_object BondBodyV1 BondStateV1 st KindBond (bd_provider_bond_id body);
  _ ← fail_if ((bd_provider_agent_id body <>? au_sender_agent_id statement)
      || (bd_provider_key_id body <>? au_authorizing_key_id statement)
      || (bd_provider_capability_id body <>? au_capability_id statement)
      || (bd_provider_session_generation body <>? au_session_generation statement)
      || (bd_provider_nonce_lane body <>? au_nonce_lane statement)
      || (bd_provider_nonce body <>? au_nonce statement)
      || (ts_status task_state <>? 0)
      || (ts_revision task_state <>? bd_task_revision body)
      || (bd_bid_expiry_height body <? execution_height)
      || (bd_price_asset_id body <>? eb_asset_id escrow_body)
      || (bd_maximum_price body =? 0)
      || (eb_provider_payment_cap escrow_body <? bd_maximum_price body)
      || (bb_owner_agent_id bond_body <>? au_sender_agent_id statement)
      || bs_closed bond_state
      || (bs_available bond_state <? tb_provider_bond_hold (trust_bundle config))
      || (to_offer_expiry_height task_body <? execution_height)) InvalidState;
  id ← bid_id body;
  insert_object st KindBid id 0 body (initial_bid config id).

Definition apply_lease_accept (st : Store) (config : AgentMarketStoreConfigV1) (execution_height : Z)
    (body : TaskLeaseBodyV1) (expected_bid_version expected_escrow_version expected_bond_version : Z)
    (authorization : KernelAuthorizationV1) : KResult Store :=
  _ ← validate_body_context config (lb_schema_version body) (lb_genesis_hash body) (lb_chain_id body)
        (lb_protocol_version body) (lb_stack_profile_hash body);
  let statement := ka_statement authorization in
  '(task_body, task_state) ← load_object TaskOfferBodyV1 TaskStateV1 st KindTask (lb_task_id body);
  '(bid_body, bid_state) ← load_object BidBodyV1 BidStateV1 st KindBid (lb_accepted_bid_id body);
  '(escrow_body, escrow_state) ← load_object EscrowBodyV1 EscrowStateV1 st KindEscrow (lb_escrow_id body);
  '(bond_body, bond_state) ← load_object BondBodyV1 BondStateV1 st KindBond (lb_provider_bond_id body);
  id ← lease_id body;
  let hold := tb_provider_bond_hold (trust_bundle config) in
  let price := bd_maximum_price bid_body in
  _ ← fail_if ((au_sender_agent_id statement <>? lb_requester_agent_id body)
      || (lb_requester_agent_id body <>? to_requester_agent_id task_body)
      || (lb_provider_agent_id body <>? bd_provider_agent_id bid_body)
      || (lb_accepted_bid_id body <>? bt_bid_id bid_state)
      || (lb_base_task_revision body <>? ts_revision task_state)
      || (lb_base_task_revision body <>? bd_task_revision bid_body)
      || (ts_revision task_state <>? 0)
      || (ts_status task_state <>? 0)
      || is_some (ts_active_lease_id task_state)
      || (lb_attempt body <>? ts_attempt task_state)
      || (bt_state_version bid_state <>? expected_bid_version)
      || (bt_status bid_state <>? 0)
      || (bd_bid_expiry_height bid_body <? execution_height)
      || (es_version escrow_state <>? expected_escrow_version)
      || es_closed escrow_state
      || (bs_version bond_state <>? expected_bond_version)
      || bs_closed bond_state
      || (lb_escrow_id body <>? ts_escrow_id task_state)
      || (lb_provider_bond_id body <>? bd_provider_bond_id bid_body)
      || (lb_execution_environment_hash body <>? bd_execution_environment_hash bid_body)
      || (lb_pricing_terms_hash body <>? bd_pricing_terms_hash bid_body)
      || (lb_checkpoint_terms_hash body <>? bd_checkpoint_terms_hash bid_body)
      || (lb_availability_terms_hash body <>? bd_availability_terms_hash bid_body)
      || (lb_verification_profile_id body <>? to_verification_profile_id task_body)
      || (lb_verification_profile_version body <>? to_verification_profile_version task_body)
      || (lb_verification_profile_hash body <>? to_verification_profile_hash task_body)
      || (lb_start_deadline_height body <>? to_start_deadline_height task_body)
      || (lb_result_deadline_height body <>? to_result_deadline_height task_body)
      || (lb_checkpoint_deadline_height body <? lb_start_deadline_height body)
      || (lb_result_deadline_height body <? lb_checkpoint_deadline_height body)
      || (eb_provider_payment_cap escrow_body <? price)
      || (es_available escrow_state <? price)
      || (bb_owner_agent_id bond_body <>? lb_provider_agent_id body)
      || (bs_available bond_state <? hold)) InvalidState;
  let reservation := lease_reservation execution_height id escrow_body price in
  _ ← fail_if (negb (is_empty (es_active_reservations escrow_state))) Conflict;
  available ← expect (checked_sub (es_available escrow_state) price);
  let escrow_state := set_es_available available escrow_state in
  reserved ← ok_or (checked_add u128_max (es_reserved escrow_state) price) ArithmeticOverflow;
  let escrow_state := set_es_reserved reserved escrow_state in
  let escrow_state := set_es_active_reservations (es_active_reservations escrow_state ++ [reservation]) escrow_state in
  root ← digest_value "trnm.portable.v2.escrow-active-reservations-root.v1" (es_active_reservations escrow_state);
  let escrow_state := set_es_active_reservation_root root escrow_state in
  escrow_version ← ok_or (checked_add u64_max (es_version escrow_state) 1) ArithmeticOverflow;
  let escrow_state := set_es_version escrow_version escrow_state in
  _ ← validate_escrow_conservation escrow_body escrow_state;
  bond_available ← expect (checked_sub (bs_available bond_state) hold);
  let bond_state := set_bs_available bond_available bond_state in
  held ← ok_or (checked_add u128_max (bs_held bond_state) hold) ArithmeticOverflow;
  let bond_state := set_bs_held held bond_state in
  bond_version ← ok_or (checked_add u64_max (bs_version bond_state) 1) ArithmeticOverflow;
  let bond_state := set_bs_version bond_version bond_state in
  _ ← validate_bond_conservation config bond_state;
  revision ← ok_or (checked_add u64_max (ts_revision task_state) 1) ArithmeticOverflow;
  let task_state := set_ts_active_deadline_height (lb_start_deadline_height body)
    (set_ts_active_deadline_kind 1 (set_ts_active_lease_id (Some id)
      (set_ts_status 1 (set_ts_revision revision task_state)))) in
  bid_version ← ok_or (checked_add u64_max (bt_state_version bid_state) 1) ArithmeticOverflow;
  let bid_state := set_bt_accepted_height (Some execution_height) (set_bt_accepted_lease_id (Some id)
    (set_bt_status 1 (set_bt_state_version bid_version bid_state))) in
  st ← update_object st KindTask (lb_task_id body) (lb_base_task_revision body) (ts_revision task_state)
         task_body task_state;
  st ← update_object st KindBid (lb_accepted_bid_id body) expected_bid_version (bt_state_version bid_state)
         bid_body bid_state;
  st ← update_object st KindEscrow (lb_escrow_id body) expected_escrow_version (es_version escrow_state)
         escrow_body escrow_state;
  st ← update_object st KindBond (lb_provider_bond_id body) expected_bond_version (bs_version bond_state)
         bond_body bond_state;
  insert_object st KindLease id 0 body (initial_lease config id body).

Definition apply_provider_accept (st : Store) (config : AgentMarketStoreConfigV1) (execution_height : Z)
    (body : LeaseProviderAcceptanceBodyV1) (expected_lease_revision : Z)
    (authorization : KernelAuthorizationV1) : KResult Store :=
  _ ← fail_if ((pa_schema_version body <>? SCHEMA_VERSION_V1)
      || (pa_context body <>? tb_context (trust_bundle config))) InvalidContext;
  '(lease_body, lease_state) ← load_object TaskLeaseBodyV1 TaskLeaseStateV1 st KindLease (pa_lease_id body);
  '(_, task_state) ← load_object TaskOfferBodyV1 TaskStateV1 st KindTask (lb_task_id lease_body);
  _ ← fail_if ((pa_provider_agent_id body <>? au_sender_agent_id (ka_statement authorization))
      || (pa_provider_agent_id body <>? lb_provider_agent_id lease_body)
      || (pa_expected_task_revision body <>? ts_revision task_state)
      || (ts_status task_state <>? 1)
      || (ts_active_lease_id task_state <>? Some (pa_lease_id body))
      || (ls_revision lease_state <>? expected_lease_revision)
      || (ls_status lease_state <>? 0)
      || (ls_attempt lease_state <>? lb_attempt lease_body)) InvalidState;
  revision ← ok_or (checked_add u64_max (ls_revision lease_state) 1) ArithmeticOverflow;
  let lease_state := set_ls_accepted_height (Some execution_height)
    (set_ls_status 1 (set_ls_revision revision lease_state)) in
  update_object st KindLease (pa_lease_id body) expected_lease_revision (ls_revision lease_state)
    lease_body lease_state.

Definition apply_command (st : Store) (config : AgentMarketStoreConfigV1) (execution_height : Z)
    (command : KernelCommandV1) : KResult Store :=
  match command with
  | CapabilityGrant body authorization => apply_capability_grant st config execution_height body authorization
  | SessionGrant body authorization => apply_session_grant st config execution_height body authorization
  | TaskCreate body _ authorization => apply_task_create st config execution_height body authorization
  | Bid body _ authorization => apply_bid st config execution_height body authorization
  | LeaseAccept body bid_version escrow_version bond_version _ authorization =>
      apply_lease_accept st config execution_height body bid_version escrow_version bond_version authorization
  | ProviderAccept body lease_revision _ authorization =>
      apply_provider_accept st config execution_height body lease_revision authorization
  end.

(** ** Budgets *)

(** The loop body of [apply_budget]: the first counter of the asset is charged. *)
Fixpoint charge_counter (counters : list AssetBudgetCounterV1) (requested : AssetChargeV1)
    : KResult (list AssetBudgetCounterV1) :=
  match counters with
  | [] => Err BudgetExceeded
  | counter :: rest =>
      if ac_asset_id counter =?? ch_asset_id requested then
        next ← ok_or (v ← checked_add u128_max (ac_spent counter) (ac_reserved counter);
                      checked_add u128_max v (ch_amount requested)) ArithmeticOverflow;
        _ ← fail_if (ac_limit counter <? next) BudgetExceeded;
        spent ← ok_or (checked_add u128_max (ac_spent counter) (ch_amount requested)) ArithmeticOverflow;
        Ok (set_ac_spent spent counter :: rest)
      else rest ← charge_counter rest requested; Ok (counter :: rest)
  end.

Definition apply_budget (execution_height : Z) (capability_body : CapabilityGrantBodyV1)
    (state : CapabilityStateV1) (charge : KernelResourceChargeV1) : KResult CapabilityStateV1 :=
  _ ← fail_if (rc_operations charge <>? 1) BudgetExceeded;
  _ ← require_strictly_sorted_unique (rc_asset_charges charge);
  _ ← require_unique_key ch_asset_id (rc_asset_charges charge);
  let budget := cs_budget state in
  counters ← try_fold charge_counter (cb_asset_counters budget) (rc_asset_charges charge);
  let budget := set_cb_asset_counters counters budget in
  fee ← checked_budget_add u128_max (cb_fee_spent budget) (cb_fee_reserved budget) (rc_fee charge) (cb_fee_limit budget);
  let budget := set_cb_fee_spent fee budget in
  gas ← checked_budget_add u64_max (cb_gas_spent budget) (cb_gas_reserved budget) (rc_gas charge) (cb_gas_limit budget);
  let budget := set_cb_gas_spent gas budget in
  da_bytes ← checked_budget_add u64_max (cb_da_bytes_spent budget) (cb_da_bytes_reserved budget)
    (rc_da_bytes charge) (cb_da_byte_limit budget);
  let budget := set_cb_da_bytes_spent da_bytes budget in
  retention ← checked_budget_add u64_max (cb_retention_spent budget) (cb_retention_reserved budget)
    (rc_retention charge) (cb_retention_limit budget);
  let budget := set_cb_retention_spent retention budget in
  operations ← checked_budget_add u64_max (cb_operations_spent budget) (cb_operations_reserved budget)
    (rc_operations charge) (cb_operation_limit budget);
  let budget := set_cb_operations_spent operations budget in
  let height := execution_height in
  window_end ← ok_or (checked_add u64_max (cb_rate_window_start_height budget) (cg_rate_window_blocks capability_body))
    ArithmeticOverflow;
  let budget := if window_end <=? height
    then set_cb_rate_window_operations 0 (set_cb_rate_window_start_height height budget) else budget in
  rate ← ok_or (checked_add u64_max (cb_rate_window_operations budget) (rc_operations charge)) ArithmeticOverflow;
  let budget := set_cb_rate_window_operations rate budget in
  _ ← fail_if (cg_rate_max_operations capability_body <? cb_rate_window_operations budget) RateExceeded;
  budget_version ← ok_or (checked_add u64_max (cb_budget_version budget) 1) ArithmeticOverflow;
  let budget := set_cb_budget_version budget_version budget in
  state_version ← ok_or (checked_add u64_max (cs_state_version state) 1) ArithmeticOverflow;
  Ok (set_cs_state_version state_version (set_cs_budget budget state)).

(** The charge a session command carries; a task's must be its funding. *)
Definition command_charge (command : KernelCommandV1) : KResult KernelResourceChargeV1 :=
  match command with
  | TaskCreate body charge _ =>
      _ ← fail_if (rc_asset_charges charge <>? [mkCharge (et_asset_id (tc_escrow_terms body))
            (et_funded_amount (tc_escrow_terms body))]) BudgetExceeded;
      Ok charge
  | Bid _ charge _ | LeaseAccept _ _ _ _ charge _ | ProviderAccept _ _ charge _ => Ok charge
  | CapabilityGrant _ _ | SessionGrant _ _ => Panic
  end.

Definition consume_authorization (st : Store) (execution_height : Z) (command : KernelCommandV1)
    (snapshot : AuthorizationSnapshotV1) : KResult Store :=
  let statement := ka_statement (authorization command) in
  let lane_state := sn_lane_state snapshot in
  lane_version ← ok_or (checked_add u64_max (ns_state_version lane_state) 1) ArithmeticOverflow;
  let lane_state := set_ns_state_version lane_version lane_state in
  next_nonce ← ok_or (checked_add u64_max (ns_next_nonce lane_state) 1) ArithmeticOverflow;
  let lane_state := set_ns_next_nonce next_nonce lane_state in
  let lane_state := set_ns_last_operation_digest (Some (au_operation_digest statement)) lane_state in
  st ← update_object st KindNonceLane (ns_nonce_lane_id lane_state) (au_expected_lane_version statement)
         (ns_state_version lane_state) (sn_lane_body snapshot) lane_state;
  match sn_capability snapshot, sn_session snapshot with
  | Some (capability_body, capability_state), Some (session_body, session_state) =>
      charge ← command_charge command;
      capability_state ← apply_budget execution_height capability_body capability_state charge;
      spent ← ok_or (checked_add u64_max (ss_operations_spent session_state) (rc_operations charge)) ArithmeticOverflow;
      let session_state := set_ss_operations_spent spent session_state in
      _ ← fail_if (sg_max_total_operations session_body <? ss_operations_spent session_state) BudgetExceeded;
      session_version ← ok_or (checked_add u64_max (ss_state_version session_state) 1) ArithmeticOverflow;
      let session_state := set_ss_state_version session_version session_state in
      capability_expected ← expect (checked_sub (cs_state_version capability_state) 1);
      st ← update_object st KindCapability (cs_capability_id capability_state) capability_expected
             (cs_state_version capability_state) capability_body capability_state;
      session_expected ← expect (checked_sub (ss_state_version session_state) 1);
      update_object st KindSessionGrant (ss_session_key_grant_id session_state) session_expected
        (ss_state_version session_state) session_body session_state
  | _, _ => Ok st
  end.

End kernel.
