(* ===== verification/KernelService.v ===== *)
(** * KernelService: the public methods of [TaskKernelStoreV1]

    [store.rs]: opening and creating a store, reading it back, executing a
    command or an empty block of the committed order, and previewing a proposal.
    A method runs in the state-and-error monad over the durable store: what a
    committed transaction wrote survives a later error, and a transaction that
    returns early leaves the store as it was. *)

From stdpp Require Import base gmap list sorting strings.
From S2P Require Import Prelude Crypto KernelTypes KernelStore KernelAudit Kernel.

Inductive CommitFaultInternalV1 := NoFault | NotAppliedAckLost | AppliedAckLost | ThirdState.
#[export] Instance CommitFaultInternalV1_eq_dec : EqDecision CommitFaultInternalV1.
Proof. solve_decision. Defined.

(** [ConfirmedKernelReceiptV1] is its receipt. *)
Inductive KernelExecutionOutcomeV1 :=
| Applied (confirmed : KernelTransitionReceiptV1)
| Replayed (confirmed : KernelTransitionReceiptV1).

Definition outcome_receipt (o : KernelExecutionOutcomeV1) : KernelTransitionReceiptV1 :=
  match o with Applied r | Replayed r => r end.
Definition is_replay (o : KernelExecutionOutcomeV1) : bool :=
  match o with Replayed _ => true | Applied _ => false end.

Record AgentMarketFreshReadbackV1 := mkReadback {
  rb_context : ProtocolContextV1;
  rb_store_schema_version : Z;
  rb_store_id : Hash32V1;
  rb_sequence : Z;
  rb_order_height : Z;
  rb_order_block_id : Hash32V1;
  rb_durable_state_root : Hash32V1;
  rb_durable_journal_root : Hash32V1;
  rb_durable_committed_block_root : Hash32V1;
}.
#[export] Instance AgentMarketFreshReadbackV1_eq_dec : EqDecision AgentMarketFreshReadbackV1.
Proof. solve_decision. Defined.

Record AgentMarketExecutionPreviewV1 := mkPreview {
  pv_source_sequence : Z;
  pv_source_state_root : Hash32V1;
  pv_source_journal_root : Hash32V1;
  pv_candidate_post_state_root : Hash32V1;
  pv_candidate_receipts : list KernelTransitionReceiptV1;
  pv_unchanged_row_inventory_digest : Hash32V1;
}.

(** A column as rusqlite's [ValueRef] shows it. *)
Inductive SqlValue := SqlInteger (z : Z) | SqlBlob (b : list Z).

Definition encode_value (encoded : list Z) (v : SqlValue) : KResult (list Z) :=
  match v with
  | SqlInteger z => Ok (encoded ++ [1] ++ le_bytes 8 z)
  | SqlBlob b =>
      len ← ok_or (try_from u64_max (zlen b)) ArithmeticOverflow;
      Ok (encoded ++ [4] ++ le_bytes 8 len ++ b)
  end.

(** One query of the inventory: its rows, then their number. *)
Definition encode_query (encoded : list Z) (rows : list (list SqlValue)) : KResult (list Z) :=
  '(encoded, row_count) ← try_fold (fun '(encoded, row_count) row =>
      row_count ← ok_or (checked_add u64_max row_count 1) ArithmeticOverflow;
      encoded ← try_fold encode_value encoded row;
      Ok (encoded, row_count)) (encoded, 0) rows;
  Ok (encoded ++ le_bytes 8 row_count).

Definition metadata_values (m : MetadataRecordV1) : list SqlValue :=
  [SqlInteger 1; SqlInteger (m_schema_version m); SqlBlob (m_store_id m); SqlBlob (m_config_hash m);
   SqlBlob (m_sequence m); SqlBlob (m_order_height m); SqlBlob (m_order_block_id m);
   SqlBlob (m_durable_state_root m); SqlBlob (m_durable_journal_root m); SqlInteger (m_fenced m);
   SqlBlob (m_row_checksum m)].
Definition object_values (e : (Z * list Z) * ObjectRow) : list SqlValue :=
  [SqlInteger e.1.1; SqlBlob e.1.2; SqlBlob (o_version e.2); SqlBlob (o_body e.2); SqlBlob (o_state e.2);
   SqlBlob (o_checksum e.2)].
Definition operation_values (e : list Z * OperationRow) : list SqlValue :=
  [SqlBlob e.1; SqlBlob (p_sequence e.2); SqlInteger (p_kind e.2); SqlBlob (p_command e.2);
   SqlBlob (p_receipt e.2); SqlBlob (p_checksum e.2)].
Definition marker_values (e : list Z * MarkerRow) : list SqlValue :=
  SqlBlob e.1 :: (SqlBlob <$>
    [b_order_height e.2; b_order_block_id e.2; b_parent_order_height e.2; b_parent_order_block_id e.2;
     b_source_operation_sequence e.2; b_target_operation_sequence e.2; b_source_state_root e.2;
     b_target_state_root e.2; b_source_operation_root e.2; b_target_operation_root e.2;
     b_previous_marker_checksum e.2; b_row_checksum e.2]).

(** A path that names no file. *)
Definition absent_store : Store := mkStore false false [] 0 None ∅ ∅ ∅.

Section service.
Context `{KernelCrates}.

(** ** Creating and opening *)

Definition controller_lane (config : AgentMarketStoreConfigV1) (agent : BootstrapAgentV1) : NonceLaneKeyBodyV1 :=
  mkLaneKey SCHEMA_VERSION_V1 (tb_context (trust_bundle config)) (ba_agent_id agent)
    CONTROLLER_SENTINEL_KEY_V1 None 0 0.

(** The transaction of [create_schema]. *)
Definition schema_transaction (st : Store) (config : AgentMarketStoreConfigV1) : KResult Store :=
  _ ← fail_if (negb (is_empty (tables st))) StoreFailure;
  let st := mkStore (present st) (sidecars st)
    [("agent_market_committed_blocks_v1"%string, COMMITTED_BLOCKS_SQL);
     ("agent_market_metadata_v1"%string, META_SQL);
     ("agent_market_objects_v1"%string, OBJECTS_SQL);
     ("agent_market_operations_v1"%string, OPERATIONS_SQL)]
    (triggers st) None ∅ ∅ ∅ in
  let bundle := trust_bundle config in
  st ← insert_nonce_lane st (controller_lane config (tb_requester bundle));
  st ← insert_nonce_lane st (controller_lane config (tb_provider bundle));
  let account_state := mkAccount SCHEMA_VERSION_V1 (tb_context bundle) (tb_requester_account_id bundle) 0
    (tb_requester_account_funding bundle) 0 0 false in
  st ← insert_object st KindAccount (tb_requester_account_id bundle) 0 (tb_requester_account_body bundle) account_state;
  let bond_state := mkBond SCHEMA_VERSION_V1 (tb_context bundle) (tb_provider_bond_id bundle) 0
    (tb_provider_bond_funding bundle) 0 0 0 false in
  st ← insert_object st KindBond (tb_provider_bond_id bundle) 0 (tb_provider_bond_body bundle) bond_state;
  initial_state_root ← compute_state_root st;
  initial_journal_root ← compute_operation_journal_root st;
  st ← insert_anchor_committed_block_marker st config initial_state_root initial_journal_root;
  update_metadata_progress st config 0 (tb_initial_order_height bundle) (tb_initial_order_block_id bundle)
    initial_state_root initial_journal_root false.

Definition create_schema (config : AgentMarketStoreConfigV1) : SE Store AgentMarketErrorCodeV1 () :=
  st ← get_self;
  st ← lift (schema_transaction st config);
  _ ← set_self st;
  _ ← lift (verify_schema st);
  _ ← lift (verify_metadata st config);
  lift (audit_store st config).

Definition open (config : AgentMarketStoreConfigV1) : SE Store AgentMarketErrorCodeV1 () :=
  st ← get_self;
  _ ← lift (validate_trust_bundle (trust_bundle config));
  _ ← lift (reject_sidecars st);
  if present st then
    _ ← lift (verify_schema st);
    _ ← lift (verify_metadata st config);
    _ ← lift (audit_store st config);
    _ ← lift (verify_schema st);
    _ ← lift (verify_metadata st config);
    lift (audit_store st config)
  else
    _ ← set_self (mkStore true (sidecars st) [] 0 None ∅ ∅ ∅);
    create_schema config.

(** A missing file is refused; the kind of the file is not modelled. *)
Definition require_existing_regular_store (st : Store) : KResult () :=
  fail_if (negb (present st)) StoreFailure.

Definition open_existing (st : Store) (config : AgentMarketStoreConfigV1) : KResult () :=
  _ ← validate_trust_bundle (trust_bundle config);
  _ ← require_existing_regular_store st;
  _ ← reject_sidecars st;
  _ ← open_raw st;
  _ ← verify_schema st;
  _ ← verify_metadata st config;
  _ ← audit_store st config;
  _ ← require_existing_regular_store st;
  reject_sidecars st.

(** ** Reading back *)

Definition fresh_readback (st : Store) (config : AgentMarketStoreConfigV1) : KResult AgentMarketFreshReadbackV1 :=
  _ ← open_ro_verified st config;
  sequence ← load_sequence st;
  '(order_height, order_block_id) ← load_order_tip st;
  state_root ← load_durable_state_root st;
  journal_root ← load_durable_journal_root st;
  block_root ← committed_block_journal_root st config;
  Ok (mkReadback (tb_context (trust_bundle config)) STORE_SCHEMA_VERSION_V1 (store_id config) sequence
        order_height order_block_id state_root journal_root block_root).

Definition logical_row_inventory_digest_v1 (st : Store) (config : AgentMarketStoreConfigV1) : KResult Hash32V1 :=
  _ ← open_ro_verified st config;
  encoded ← try_fold encode_query []
    [metadata_values <$> option_list (metadata st);
     object_values <$> btree_iter (objects st);
     operation_values <$> btree_iter (operations st);
     marker_values <$> btree_iter (markers st)];
  digest_encoded "trnm.portable.v2.agent-market-logical-row-inventory.candidate.v1" encoded.

Definition fresh_confirm_receipt (st : Store) (config : AgentMarketStoreConfigV1)
    (receipt : KernelTransitionReceiptV1) : KResult KernelTransitionReceiptV1 :=
  _ ← fail_if (kr_store_id receipt <>? store_id config) Unauthorized;
  _ ← open_ro_verified st config;
  row ← ok_or (operations st !! kr_operation_id receipt) NotFound;
  decoded ← strict_decode (p_receipt row);
  bad ← or_else (decoded <>? receipt)
    (bytes ← canonical_bytes receipt; Ok (bytes <>? p_receipt row));
  _ ← fail_if bad Conflict;
  Ok decoded.

Definition confirm_receipt (st : Store) (config : AgentMarketStoreConfigV1)
    (receipt : KernelTransitionReceiptV1) : KResult KernelTransitionReceiptV1 :=
  fresh_confirm_receipt st config receipt.

Definition read_state {T} `{BorshSerialize T, BorshDeserialize T} (st : Store)
    (config : AgentMarketStoreConfigV1) (kind : ObjectKindV1) (id : Hash32V1) : KResult T :=
  _ ← open_ro_verified st config;
  row ← ok_or (objects st !! (kind_code kind, id)) NotFound;
  strict_decode (o_state row).

Definition capability_state st config id : KResult CapabilityStateV1 := read_state st config KindCapability id.
Definition session_state st config id : KResult SessionKeyGrantStateV1 := read_state st config KindSessionGrant id.
Definition nonce_lane_state st config id : KResult NonceLaneStateV1 := read_state st config KindNonceLane id.
Definition task_state st config id : KResult TaskStateV1 := read_state st config KindTask id.
Definition bid_state st config id : KResult BidStateV1 := read_state st config KindBid id.
Definition lease_state st config id : KResult TaskLeaseStateV1 := read_state st config KindLease id.
Definition escrow_state st config id : KResult EscrowStateV1 := read_state st config KindEscrow id.
Definition account_state st config id : KResult AccountStateV1 := read_state st config KindAccount id.
Definition bond_state st config id : KResult BondStateV1 := read_state st config KindBond id.

(** ** Executing one command *)

(** What execution and preview share: authorize, apply, consume. *)
Definition perform (st : Store) (config : AgentMarketStoreConfigV1) (height : Z) (command : KernelCommandV1)
    : KResult Store :=
  authorization ← authorize st config height command;
  st ← apply_command st config height command;
  consume_authorization st height command authorization.

(** The write transaction of [execute_inner]. *)
Definition execute_transaction (st : Store) (config : AgentMarketStoreConfigV1)
    (execution : CommittedExecutionContextV1) (command : KernelCommandV1)
    (command_bytes : list Z) (operation_id : Hash32V1) : KResult (Store * KernelTransitionReceiptV1) :=
  _ ← validate_execution_context_cas st execution;
  st ← perform st config (ex_order_height execution) command;
  current_sequence ← load_sequence st;
  sequence ← ok_or (checked_add u64_max current_sequence 1) ArithmeticOverflow;
  post_state_root ← compute_state_root st;
  digest ← operation_digest command;
  let receipt := mkReceipt SCHEMA_VERSION_V1 (store_id config) sequence operation_id
    (operation_kind command) digest (ex_order_height execution) (ex_order_block_id execution) post_state_root in
  st ← insert_operation st command command_bytes receipt;
  durable_journal_root ← compute_operation_journal_root st;
  source_state_root ← load_durable_state_root st;
  source_journal_root ← load_durable_journal_root st;
  st ← advance_committed_block_marker st config execution current_sequence sequence
         source_state_root post_state_root source_journal_root durable_journal_root;
  st ← update_metadata_progress st config sequence (ex_order_height execution) (ex_order_block_id execution)
         post_state_root durable_journal_root false;
  Ok (st, receipt).

Definition execute_inner (config : AgentMarketStoreConfigV1) (execution : CommittedExecutionContextV1)
    (command : KernelCommandV1) (fault : CommitFaultInternalV1)
    : SE Store AgentMarketErrorCodeV1 KernelExecutionOutcomeV1 :=
  st ← get_self;
  _ ← lift (reject_sidecars st);
  _ ← lift (validate_execution_context_static config execution);
  _ ← lift (verify_command_envelope config (ex_order_height execution) command);
  command_bytes ← lift (canonical_bytes command);
  id ← lift (operation_id command);
  _ ← lift (open_rw_verified st config);
  recorded ← lift (load_operation st id command_bytes);
  match recorded with
  | Some receipt =>
      let target := (kr_order_height receipt, kr_order_block_id receipt) in
      bad ← lift (or_else ((ex_order_height execution, ex_order_block_id execution) <>? target)
        (tip ← load_order_tip st; Ok (tip <>? target)));
      _ ← lift (fail_if bad StaleVersion);
      confirmed ← lift (fresh_confirm_receipt st config receipt);
      mret (Replayed confirmed)
  | None =>
      _ ← lift (validate_execution_context_cas st execution);
      match fault with
      | NotAppliedAckLost => lift (Err CommitUncertain)
      | ThirdState =>
          st ← lift (fence_store st config);
          _ ← set_self st;
          lift (Err ThirdStateFenced)
      | NoFault | AppliedAckLost =>
          '(st, receipt) ← lift (execute_transaction st config execution command command_bytes id);
          _ ← set_self st;
          _ ← lift (fail_if (fault =?? AppliedAckLost) CommitUncertain);
          confirmed ← lift (fresh_confirm_receipt st config receipt);
          mret (Applied confirmed)
      end
  end.

Definition execute_committed_execution (config : AgentMarketStoreConfigV1)
    (execution : CommittedExecutionContextV1) (command : KernelCommandV1)
    : SE Store AgentMarketErrorCodeV1 KernelExecutionOutcomeV1 :=
  execute_inner config execution command NoFault.

(** ** An empty block *)

Definition advance_empty_committed_execution_v1 (config : AgentMarketStoreConfigV1)
    (execution : CommittedExecutionContextV1) : SE Store AgentMarketErrorCodeV1 AgentMarketFreshReadbackV1 :=
  st ← get_self;
  _ ← lift (reject_sidecars st);
  _ ← lift (validate_execution_context_static config execution);
  _ ← lift (fail_if (checked_add u64_max (ex_expected_order_height execution) 1 <>? Some (ex_order_height execution))
        InvalidContext);
  before ← lift (fresh_readback st config);
  if (rb_order_height before =? ex_order_height execution)
     && (rb_order_block_id before =?? ex_order_block_id execution) then mret before
  else
    _ ← lift (fail_if ((rb_order_height before <>? ex_expected_order_height execution)
          || (rb_order_block_id before <>? ex_expected_order_block_id execution)) StaleVersion);
    _ ← lift (open_rw_verified st config);
    _ ← lift (validate_execution_context_cas st execution);
    st ← lift (advance_committed_block_marker st config execution (rb_sequence before) (rb_sequence before)
           (rb_durable_state_root before) (rb_durable_state_root before)
           (rb_durable_journal_root before) (rb_durable_journal_root before));
    st ← lift (update_metadata_progress st config (rb_sequence before) (ex_order_height execution)
           (ex_order_block_id execution) (rb_durable_state_root before) (rb_durable_journal_root before) false);
    _ ← set_self st;
    after ← lift (fresh_readback st config);
    _ ← lift (fail_if ((rb_sequence after <>? rb_sequence before)
          || (rb_order_height after <>? ex_order_height execution)
          || (rb_order_block_id after <>? ex_order_block_id execution)
          || (rb_durable_state_root after <>? rb_durable_state_root before)
          || (rb_durable_journal_root after <>? rb_durable_journal_root before)
          || (rb_durable_committed_block_root after =?? rb_durable_committed_block_root before)) ThirdStateFenced);
    mret after.

(** ** The preview of a proposal *)

(** The loop of [preview_before_vote_v1]: the transaction, the identifiers seen and
    the receipts so far. *)
Definition preview_step (config : AgentMarketStoreConfigV1) (before : AgentMarketFreshReadbackV1)
    (candidate_height : Z) (candidate_block_id : Hash32V1)
    (acc : Store * gset Hash32V1 * list KernelTransitionReceiptV1) (command : KernelCommandV1)
    : KResult (Store * gset Hash32V1 * list KernelTransitionReceiptV1) :=
  let '(st, operation_ids, receipts) := acc in
  _ ← verify_command_envelope config candidate_height command;
  command_bytes ← canonical_bytes command;
  id ← operation_id command;
  repeated ← or_else (bool_decide (id ∈ operation_ids))
    (recorded ← load_operation st id command_bytes; Ok (is_some recorded));
  _ ← fail_if repeated Conflict;
  st ← perform st config candidate_height command;
  offset ← ok_or (try_from u64_max (zlen receipts)) ArithmeticOverflow;
  sequence ← ok_or (v ← checked_add u64_max (rb_sequence before) offset; checked_add u64_max v 1)
    ArithmeticOverflow;
  digest ← operation_digest command;
  post_state_root ← compute_state_root st;
  let receipt := mkReceipt SCHEMA_VERSION_V1 (store_id config) sequence id (operation_kind command) digest
    candidate_height candidate_block_id post_state_root in
  st ← insert_operation st command command_bytes receipt;
  Ok (st, {[id]} ∪ operation_ids, receipts ++ [receipt]).

(** The transaction is rolled back: the method reads the store and does not change it. *)
Definition preview_before_vote_v1 (st : Store) (config : AgentMarketStoreConfigV1)
    (expected_parent : AgentMarketFreshReadbackV1) (candidate_height : Z) (candidate_block_id : Hash32V1)
    (commands : list KernelCommandV1) : KResult AgentMarketExecutionPreviewV1 :=
  _ ← reject_sidecars st;
  before ← fresh_readback st config;
  bad ← or_else (before <>? expected_parent)
    (next ← ok_or (checked_add u64_max (rb_order_height before) 1) ArithmeticOverflow;
     Ok ((candidate_height <>? next) || (candidate_block_id =?? zero_hash)
       || (candidate_block_id =?? rb_order_block_id before)));
  _ ← fail_if bad InvalidContext;
  before_inventory ← logical_row_inventory_digest_v1 st config;
  _ ← open_rw_verified st config;
  '(tip_height, tip_block_id) ← load_order_tip st;
  _ ← fail_if ((tip_height <>? rb_order_height before) || (tip_block_id <>? rb_order_block_id before)) StaleVersion;
  '(tx, _, receipts) ← try_fold (preview_step config before candidate_height candidate_block_id) (st, ∅, []) commands;
  candidate_post_state_root ← compute_state_root tx;
  after ← fresh_readback st config;
  after_inventory ← logical_row_inventory_digest_v1 st config;
  _ ← fail_if ((after <>? before) || (after_inventory <>? before_inventory)) TamperDetected;
  Ok (mkPreview (rb_sequence before) (rb_durable_state_root before) (rb_durable_journal_root before)
        candidate_post_state_root receipts before_inventory).

End service.
