(* ===== verification/KernelObjects.v ===== *)
(** * KernelObjects: the typed objects of a kernel store

    [KObject] is a row of the objects table as the kernel sees it: a body and a
    state of one kind.  [view] decodes a table; [Repr] says that a table is exactly
    the encoding of a map of objects, which is what [audit_objects] checks.  Under
    [Repr] loading is lookup, inserting and updating are map insertion. *)

From stdpp Require Import base gmap list sorting strings.
From S2P Require Import Prelude Crypto KernelTypes KernelStore KernelAudit Kernel.

Inductive KObject :=
| OCapability (b : CapabilityGrantBodyV1) (s : CapabilityStateV1)
| OSession (b : SessionKeyGrantBodyV1) (s : SessionKeyGrantStateV1)
| OTask (b : TaskOfferBodyV1) (s : TaskStateV1)
| OBid (b : BidBodyV1) (s : BidStateV1)
| OLease (b : TaskLeaseBodyV1) (s : TaskLeaseStateV1)
| OEscrow (b : EscrowBodyV1) (s : EscrowStateV1)
| OLane (b : NonceLaneKeyBodyV1) (s : NonceLaneStateV1)
| OAccount (b : AccountBodyV1) (s : AccountStateV1)
| OBond (b : BondBodyV1) (s : BondStateV1).

Abbreviation Objects := (gmap (Z * list Z) KObject).

Definition obj_kind (o : KObject) : ObjectKindV1 :=
  match o with
  | OCapability _ _ => KindCapability | OSession _ _ => KindSessionGrant | OTask _ _ => KindTask
  | OBid _ _ => KindBid | OLease _ _ => KindLease | OEscrow _ _ => KindEscrow
  | OLane _ _ => KindNonceLane | OAccount _ _ => KindAccount | OBond _ _ => KindBond
  end.

Definition obj_version (o : KObject) : Z :=
  match o with
  | OCapability _ s => cs_state_version s | OSession _ s => ss_state_version s
  | OTask _ s => ts_revision s | OBid _ s => bt_state_version s | OLease _ s => ls_revision s
  | OEscrow _ s => es_version s | OLane _ s => ns_state_version s | OAccount _ s => as_version s
  | OBond _ s => bs_version s
  end.

(** The identifier a state carries. *)
Definition obj_state_id (o : KObject) : Hash32V1 :=
  match o with
  | OCapability _ s => cs_capability_id s | OSession _ s => ss_session_key_grant_id s
  | OTask _ s => ts_task_id s | OBid _ s => bt_bid_id s | OLease _ s => ls_lease_id s
  | OEscrow _ s => es_escrow_id s | OLane _ s => ns_nonce_lane_id s | OAccount _ s => as_account_id s
  | OBond _ s => bs_bond_id s
  end.

Definition obj_typed (o : KObject) : bool :=
  match o with
  | OCapability b s => typed_cg b && typed_cs s | OSession b s => typed_sg b && typed_ss s
  | OTask b s => typed_to b && typed_ts s | OBid b s => typed_bd b && typed_bt s
  | OLease b s => typed_lb b && typed_ls s | OEscrow b s => typed_eb b && typed_es s
  | OLane b s => typed_nb b && typed_ns s | OAccount b s => typed_ab b && typed_as s
  | OBond b s => typed_bb b && typed_bs s
  end.

(** The key of an object of a kind. *)
Definition key (k : ObjectKindV1) (id : Hash32V1) : Z * list Z := (kind_code k, id).

Lemma kind_code_inj k k' : kind_code k = kind_code k' -> k = k'.
Proof. by destruct k, k'. Qed.

Section objects.
Context `{KernelCrates}.

Definition obj_body_bytes (o : KObject) : string + list Z :=
  match o with
  | OCapability b _ => borsh_to_vec b | OSession b _ => borsh_to_vec b | OTask b _ => borsh_to_vec b
  | OBid b _ => borsh_to_vec b | OLease b _ => borsh_to_vec b | OEscrow b _ => borsh_to_vec b
  | OLane b _ => borsh_to_vec b | OAccount b _ => borsh_to_vec b | OBond b _ => borsh_to_vec b
  end.
Definition obj_state_bytes (o : KObject) : string + list Z :=
  match o with
  | OCapability _ s => borsh_to_vec s | OSession _ s => borsh_to_vec s | OTask _ s => borsh_to_vec s
  | OBid _ s => borsh_to_vec s | OLease _ s => borsh_to_vec s | OEscrow _ s => borsh_to_vec s
  | OLane _ s => borsh_to_vec s | OAccount _ s => borsh_to_vec s | OBond _ s => borsh_to_vec s
  end.
(** The identifier of a body. *)
Definition obj_id (o : KObject) : KResult Hash32V1 :=
  match o with
  | OCapability b _ => capability_id b | OSession b _ => session_key_grant_id b | OTask b _ => task_id b
  | OBid b _ => bid_id b | OLease b _ => lease_id b | OEscrow b _ => escrow_id b
  | OLane b _ => nonce_lane_id b | OAccount b _ => account_id b | OBond b _ => bond_id b
  end.

(** The object of a row, by its kind. *)
Definition decode_row (k : Z * list Z) (row : ObjectRow) : option KObject :=
  let decode {B S} `{BorshSerialize B, BorshDeserialize B, BorshSerialize S, BorshDeserialize S}
      (wrap : B -> S -> KObject) : option KObject :=
    match strict_decode (A := B) (o_body row), strict_decode (A := S) (o_state row) with
    | Ok b, Ok s => Some (wrap b s)
    | _, _ => None
    end in
  if k.1 =? 2 then decode OCapability
  else if k.1 =? 3 then decode OSession
  else if k.1 =? 4 then decode OTask
  else if k.1 =? 5 then decode OBid
  else if k.1 =? 6 then decode OLease
  else if k.1 =? 7 then decode OEscrow
  else if k.1 =? 44 then decode OLane
  else if k.1 =? 45 then decode OAccount
  else if k.1 =? 47 then decode OBond
  else None.

(** The typed contents of a store. *)
Definition view (st : Store) : Objects := map_imap decode_row (objects st).

(** An object under its key, consistent with itself. *)
Definition keyed (k : Z * list Z) (o : KObject) : Prop :=
  k.1 = kind_code (obj_kind o) /\ obj_typed o = true /\ obj_id o = Ok k.2 /\ obj_state_id o = k.2.

Definition encodes (k : Z * list Z) (row : ObjectRow) (o : KObject) : Prop :=
  keyed k o /\ obj_body_bytes o = inr (o_body row) /\ obj_state_bytes o = inr (o_state row) /\
  o_version row = le_bytes 8 (obj_version o) /\
  o_checksum row = object_checksum k.1 k.2 (o_version row) (o_body row) (o_state row).

Definition Repr (st : Store) (m : Objects) : Prop :=
  forall k, match objects st !! k, m !! k with
            | Some row, Some o => encodes k row o
            | None, None => True
            | _, _ => False
            end.

(** Everything but the objects table. *)
Definition same_frame (st st' : Store) : Prop := st' = set_objects (objects st') st.

#[export] Instance same_frame_refl : Reflexive same_frame.
Proof. by intros []. Qed.
#[export] Instance same_frame_trans : Transitive same_frame.
Proof. intros [] [] []. unfold same_frame, set_objects; simpl. congruence. Qed.

Lemma canonical_bytes_Ok {A} `{BorshSerialize A} (a : A) b : canonical_bytes a = Ok b <-> borsh_to_vec a = inr b.
Proof. unfold canonical_bytes. destruct (borsh_to_vec a); naive_solver. Qed.

Lemma strict_decode_Ok {A} `{BorshLaw A} b (a : A) :
  strict_decode b = Ok a <-> typed a = true /\ borsh_to_vec a = inr b.
Proof.
  unfold strict_decode. split.
  - intros Hd. rinv. subst r. apply canonical_bytes_Ok in Hr0. bprop. subst.
    eauto using borsh_decodes_typed.
  - intros [Ht Hb]. rewrite (borsh_round_trip a b Ht Hb). cbn.
    assert (canonical_bytes a = Ok b) as -> by by apply canonical_bytes_Ok.
    cbn. by rewrite bool_decide_true.
Qed.

Lemma digest_hash `{!KernelLaws} {A} `{BorshSerialize A} d (a : A) h : digest_value d a = Ok h -> is_hash h = true.
Proof. unfold digest_value, digest_encoded. intros Hd. rinv. subst. apply sha256_width. Qed.

Lemma is_width_iff m z : is_width m z = true <-> 0 <= z <= m.
Proof. unfold is_width. rewrite andb_true_iff, !Z.leb_le. done. Qed.

Lemma obj_version_u64 o : obj_typed o = true -> in_u64 (obj_version o).
Proof.
  intros Ht. apply is_width_iff. destruct o; cbn in Ht |- *; apply andb_true_iff in Ht as [_ Ht];
    repeat (apply andb_true_iff in Ht as [Ht ?]); done.
Qed.

Lemma le_bytes8_inj a b : in_u64 a -> in_u64 b -> le_bytes 8 a = le_bytes 8 b -> a = b.
Proof.
  intros Ha Hb Heq. unfold in_u64, u64_max in *.
  rewrite <- (of_le_bytes_le_bytes 8 a), <- (of_le_bytes_le_bytes 8 b) by (simpl; lia). by rewrite Heq.
Qed.

Lemma decode_u64_le_bytes z : in_u64 z -> decode_u64 (le_bytes 8 z) = Ok z.
Proof.
  intros Hz. unfold decode_u64, zlen. rewrite le_bytes_length. change (Z.of_nat 8 =? 8) with true. cbn iota.
  rewrite of_le_bytes_le_bytes; [done|]. unfold in_u64, u64_max in Hz. simpl. lia.
Qed.

Section laws.
Context `{!KernelLaws}.

Lemma decode_row_encodes k row o : encodes k row o -> decode_row k row = Some o.
Proof.
  intros ((Hk & Ht & _ & _) & Hb & Hs & _ & _). unfold decode_row. rewrite Hk.
  destruct o; cbn in Ht, Hb, Hs |- *; apply andb_true_iff in Ht as [Ht1 Ht2];
    by rewrite (proj2 (strict_decode_Ok _ _) (conj Ht1 Hb)), (proj2 (strict_decode_Ok _ _) (conj Ht2 Hs)).
Qed.

(** The map a table represents is its view. *)
Lemma Repr_view st m : Repr st m -> view st = m.
Proof.
  intros HR. apply map_eq. intros k. unfold view. rewrite map_lookup_imap. specialize (HR k).
  destruct (objects st !! k) as [row|] eqn:Hrow, (m !! k) as [o|] eqn:Ho; simpl; try done.
  by apply decode_row_encodes.
Qed.

Lemma Repr_keyed st m k o : Repr st m -> m !! k = Some o -> keyed k o.
Proof. intros HR Ho. specialize (HR k). rewrite Ho in HR. destruct (objects st !! k); [|done]. apply HR. Qed.

Lemma load_row {B S} `{BorshLaw B, BorshLaw S} st K id (b : B) (s : S) :
  load_object B S st K id = Ok (b, s) ->
  exists row, objects st !! key K id = Some row /\ typed b = true /\ borsh_to_vec b = inr (o_body row) /\
    typed s = true /\ borsh_to_vec s = inr (o_state row).
Proof.
  unfold load_object. intros Hl. rinv. simplify_eq.
  apply strict_decode_Ok in Hr0 as [? ?]. apply strict_decode_Ok in Hr1 as [? ?]. eauto 10.
Qed.

(** The decoded pair of a kind determines the object. *)
Lemma same_bytes {A} `{BorshLaw A} (a a' : A) x :
  typed a = true -> typed a' = true -> borsh_to_vec a = inr x -> borsh_to_vec a' = inr x -> a = a'.
Proof.
  intros Ha Ha' Hx Hx'. pose proof (borsh_round_trip _ _ Ha Hx). pose proof (borsh_round_trip _ _ Ha' Hx').
  congruence.
Qed.

Lemma load_lookup {B S} `{BorshLaw B, BorshLaw S} st m K id (b : B) (s : S) :
  Repr st m -> load_object B S st K id = Ok (b, s) ->
  exists o row, m !! key K id = Some o /\ obj_kind o = K /\ obj_typed o = true /\
    obj_body_bytes o = inr (o_body row) /\ obj_state_bytes o = inr (o_state row) /\
    typed b = true /\ borsh_to_vec b = inr (o_body row) /\
    typed s = true /\ borsh_to_vec s = inr (o_state row).
Proof.
  intros HR Hl. apply load_row in Hl as (row & Hrow & Htb & Hb & Hts & Hs).
  specialize (HR (key K id)). rewrite Hrow in HR. destruct (m !! key K id) as [o|] eqn:Ho; [|done].
  destruct HR as ((Hk & Ht & _) & Hb' & Hs' & _). apply kind_code_inj in Hk. exists o, row. done.
Qed.

Ltac load_kind :=
  let HR := fresh in let Hl := fresh in intros HR Hl;
  let o := fresh in let Hk := fresh in let Ht := fresh in
  eapply load_lookup in Hl as (o & ? & -> & Hk & Ht & ? & ? & ? & ? & ? & ?); [|exact HR];
  destruct o; try discriminate Hk; cbn in *; apply andb_true_iff in Ht as [? ?];
  do 2 f_equal; eapply same_bytes; eauto.

Section loads.
Context (st : Store) (m : Objects) (id : Hash32V1).
Lemma load_capability b s : Repr st m -> load_object CapabilityGrantBodyV1 CapabilityStateV1 st KindCapability id = Ok (b, s) ->
  m !! key KindCapability id = Some (OCapability b s).
Proof. load_kind. Qed.
Lemma load_session b s : Repr st m -> load_object SessionKeyGrantBodyV1 SessionKeyGrantStateV1 st KindSessionGrant id = Ok (b, s) ->
  m !! key KindSessionGrant id = Some (OSession b s).
Proof. load_kind. Qed.
Lemma load_task b s : Repr st m -> load_object TaskOfferBodyV1 TaskStateV1 st KindTask id = Ok (b, s) ->
  m !! key KindTask id = Some (OTask b s).
Proof. load_kind. Qed.
Lemma load_bid b s : Repr st m -> load_object BidBodyV1 BidStateV1 st KindBid id = Ok (b, s) ->
  m !! key KindBid id = Some (OBid b s).
Proof. load_kind. Qed.
Lemma load_lease b s : Repr st m -> load_object TaskLeaseBodyV1 TaskLeaseStateV1 st KindLease id = Ok (b, s) ->
  m !! key KindLease id = Some (OLease b s).
Proof. load_kind. Qed.
Lemma load_escrow b s : Repr st m -> load_object EscrowBodyV1 EscrowStateV1 st KindEscrow id = Ok (b, s) ->
  m !! key KindEscrow id = Some (OEscrow b s).
Proof. load_kind. Qed.
Lemma load_lane b s : Repr st m -> load_object NonceLaneKeyBodyV1 NonceLaneStateV1 st KindNonceLane id = Ok (b, s) ->
  m !! key KindNonceLane id = Some (OLane b s).
Proof. load_kind. Qed.
Lemma load_account b s : Repr st m -> load_object AccountBodyV1 AccountStateV1 st KindAccount id = Ok (b, s) ->
  m !! key KindAccount id = Some (OAccount b s).
Proof. load_kind. Qed.
Lemma load_bond b s : Repr st m -> load_object BondBodyV1 BondStateV1 st KindBond id = Ok (b, s) ->
  m !! key KindBond id = Some (OBond b s).
Proof. load_kind. Qed.
End loads.

(** ** Writing one object *)

(** The common body of [insert_object] and [update_object]. *)
Definition object_row (k : Z * list Z) (o : KObject) (body state : list Z) : ObjectRow :=
  mkObjectRow (le_bytes 8 (obj_version o)) body state
    (object_checksum k.1 k.2 (le_bytes 8 (obj_version o)) body state).

Definition writes (st : Store) (k : Z * list Z) (o : KObject) (st' : Store) : Prop :=
  exists body state, obj_body_bytes o = inr body /\ obj_state_bytes o = inr state /\
    st' = set_objects (<[k := object_row k o body state]> (objects st)) st.

Lemma writes_Repr st k o st' m :
  writes st k o st' -> keyed k o -> Repr st m -> Repr st' (<[k := o]> m) /\ same_frame st st'.
Proof.
  intros (body & state & Hb & Hs & ->) Hk HR. split; [|by destruct st].
  intros k'. simpl. destruct (decide (k = k')) as [<-|Hne].
  - rewrite !lookup_insert_eq. by split.
  - rewrite !lookup_insert_ne by done. apply HR.
Qed.

Lemma insert_object_inv {B S} `{BorshSerialize B, BorshSerialize S} st K id v (b : B) (s : S) st' o :
  insert_object st K id v b s = Ok st' ->
  K = obj_kind o -> v = obj_version o -> obj_body_bytes o = borsh_to_vec b -> obj_state_bytes o = borsh_to_vec s ->
  objects st !! key K id = None /\ writes st (key K id) o st'.
Proof.
  unfold insert_object. intros Hw -> -> Hb Hs. rinv.
  apply canonical_bytes_Ok in Hr, Hr0. unfold key.
  destruct (objects st !! _) eqn:Ho; [done|]. injection Hw as <-.
  split; [done|]. exists r, r0. rewrite Hb, Hs. done.
Qed.

Lemma update_object_inv {B S} `{BorshSerialize B, BorshSerialize S} st K id ev sv (b : B) (s : S) st' o :
  update_object st K id ev sv b s = Ok st' ->
  K = obj_kind o -> sv = obj_version o -> obj_body_bytes o = borsh_to_vec b -> obj_state_bytes o = borsh_to_vec s ->
  (exists row, objects st !! key K id = Some row /\ o_version row = le_bytes 8 ev) /\
  sv = ev + 1 /\ ev + 1 <= u64_max /\ writes st (key K id) o st'.
Proof.
  unfold update_object. intros Hw -> -> Hb Hs. rinv. checked. bprop.
  apply canonical_bytes_Ok in Hr1, Hr2. unfold key.
  destruct (objects st !! _) as [row|] eqn:Ho; [|done]. destruct (bool_decide _) eqn:Hv; [|done].
  bprop. injection Hw as <-. split; [eauto|]. split; [lia|]. split; [lia|].
  exists r1, r2. rewrite Hb, Hs. done.
Qed.

Lemma insert_Repr {B S} `{BorshSerialize B, BorshSerialize S} st K id v (b : B) (s : S) st' o m :
  insert_object st K id v b s = Ok st' -> Repr st m ->
  K = obj_kind o -> v = obj_version o -> obj_body_bytes o = borsh_to_vec b -> obj_state_bytes o = borsh_to_vec s ->
  obj_typed o = true -> obj_id o = Ok id -> obj_state_id o = id ->
  m !! key K id = None /\ Repr st' (<[key K id := o]> m) /\ same_frame st st'.
Proof.
  intros Hi HR HK Hv Hb Hs Ht Hid Hsid.
  destruct (insert_object_inv _ _ _ _ _ _ _ _ Hi HK Hv Hb Hs) as [Hn Hw]. split.
  - specialize (HR (key K id)). rewrite Hn in HR. by destruct (m !! _).
  - eapply writes_Repr; eauto. split; [by subst|]. eauto.
Qed.

Lemma update_Repr {B S} `{BorshSerialize B, BorshSerialize S} st K id ev sv (b : B) (s : S) st' o m :
  update_object st K id ev sv b s = Ok st' -> Repr st m ->
  K = obj_kind o -> sv = obj_version o -> obj_body_bytes o = borsh_to_vec b -> obj_state_bytes o = borsh_to_vec s ->
  obj_typed o = true -> obj_id o = Ok id -> obj_state_id o = id -> 0 <= ev ->
  exists old, m !! key K id = Some old /\ obj_version old = ev /\ sv = ev + 1 /\
    Repr st' (<[key K id := o]> m) /\ same_frame st st'.
Proof.
  intros Hi HR HK Hv Hb Hs Ht Hid Hsid Hev.
  destruct (update_object_inv _ _ _ _ _ _ _ _ _ Hi HK Hv Hb Hs) as ((row & Hrow & Hver) & Hsv & Hmax & Hw).
  pose proof (HR (key K id)) as HRk. rewrite Hrow in HRk. destruct (m !! key K id) as [old|] eqn:Hold; [|done].
  destruct HRk as ((_ & Hto & _ & _) & _ & _ & Hvo & _).
  exists old. split; [done|]. split.
  - apply le_bytes8_inj; [by apply obj_version_u64|unfold in_u64; lia|congruence].
  - split; [done|]. eapply writes_Repr; eauto. split; [by subst|]. eauto.
Qed.

End laws.
End objects.
