(* ===== verification/KernelSteps.v ===== *)
(** * KernelSteps: the kernel's commands as steps on typed objects

    [performs] is the abstract kernel: a relation on maps of typed objects with one
    rule per command, followed by the consumption of the authorization.  [perform],
    the code that execution and preview share, refines it. *)

From stdpp Require Import base gmap list sorting strings.
From S2P Require Import Prelude Crypto KernelTypes KernelStore KernelAudit Kernel KernelService KernelObjects.

Section steps.
Context `{KernelCrates} (config : AgentMarketStoreConfigV1).
Implicit Types m : Objects.

Definition hold : Z := tb_provider_bond_hold (trust_bundle config).

(** ** Successor states *)

Definition funded_account (amount : Z) (s : AccountStateV1) : AccountStateV1 :=
  set_as_version (as_version s + 1)
    (set_as_spent (as_spent s + amount) (set_as_available (as_available s - amount) s)).

Definition reserved_escrow (price : Z) (entry : EscrowReservationEntryV1) (root : Hash32V1)
    (s : EscrowStateV1) : EscrowStateV1 :=
  set_es_version (es_version s + 1) (set_es_active_reservation_root root
    (set_es_active_reservations (es_active_reservations s ++ [entry])
      (set_es_reserved (es_reserved s + price) (set_es_available (es_available s - price) s)))).

Definition held_bond (s : BondStateV1) : BondStateV1 :=
  set_bs_version (bs_version s + 1) (set_bs_held (bs_held s + hold) (set_bs_available (bs_available s - hold) s)).

Definition leased_task (lease : Hash32V1) (deadline : Z) (s : TaskStateV1) : TaskStateV1 :=
  set_ts_active_deadline_height deadline (set_ts_active_deadline_kind 1
    (set_ts_active_lease_id (Some lease) (set_ts_status 1 (set_ts_revision (ts_revision s + 1) s)))).

Definition accepted_bid (lease : Hash32V1) (height : Z) (s : BidStateV1) : BidStateV1 :=
  set_bt_accepted_height (Some height) (set_bt_accepted_lease_id (Some lease)
    (set_bt_status 1 (set_bt_state_version (bt_state_version s + 1) s))).

Definition accepted_lease (height : Z) (s : TaskLeaseStateV1) : TaskLeaseStateV1 :=
  set_ls_accepted_height (Some height) (set_ls_status 1 (set_ls_revision (ls_revision s + 1) s)).

Definition consumed_lane (digest : Hash32V1) (s : NonceLaneStateV1) : NonceLaneStateV1 :=
  set_ns_last_operation_digest (Some digest)
    (set_ns_next_nonce (ns_next_nonce s + 1) (set_ns_state_version (ns_state_version s + 1) s)).

Definition consumed_session (s : SessionKeyGrantStateV1) : SessionKeyGrantStateV1 :=
  set_ss_state_version (ss_state_version s + 1) (set_ss_operations_spent (ss_operations_spent s + 1) s).

(** ** The commands *)

(** A session opens its lanes one by one, each under a fresh identifier. *)
Fixpoint opens_lanes (b : SessionKeyGrantBodyV1) (lanes : list Z) m m' : Prop :=
  match lanes with
  | [] => m' = m
  | lane :: lanes => exists id, nonce_lane_id (session_lane config b lane) = Ok id /\
      m !! key KindNonceLane id = None /\
      opens_lanes b lanes
        (<[key KindNonceLane id := OLane (session_lane config b lane) (initial_lane id (session_lane config b lane))]> m) m'
  end.

Inductive applies (h : Z) : KernelCommandV1 -> Objects -> Objects -> Prop :=
| applies_capability b a m id :
    capability_id b = Ok id -> m !! key KindCapability id = None ->
    NoDup (al_asset_id <$> cg_spend_limits b) ->
    cg_valid_from_height b <= h <= cg_expires_after_height b ->
    applies h (CapabilityGrant b a) m
      (<[key KindCapability id := OCapability b (initial_capability config h id b)]> m)
| applies_session b a m m' id cb cs :
    session_key_grant_id b = Ok id ->
    m !! key KindCapability (sg_capability_id b) = Some (OCapability cb cs) ->
    m !! key KindSessionGrant id = None ->
    sg_session_generation b = 1 -> Forall (fun l => l ∈ cg_allowed_nonce_lanes cb) (sg_allowed_nonce_lanes b) ->
    cg_valid_from_height cb <= sg_valid_from_height b -> sg_expires_after_height b <= cg_expires_after_height cb ->
    sg_max_total_operations b <= cg_max_total_operations cb ->
    opens_lanes b (sg_allowed_nonce_lanes b)
      (<[key KindSessionGrant id := OSession b (initial_session config h id b cs)]> m) m' ->
    applies h (SessionGrant b a) m m'
| applies_task b ch a m ab s id escrow root :
    let offer := tc_task_offer_body b in
    let terms := tc_escrow_terms b in
    task_id offer = Ok id -> escrow_id (escrow_body_of b id) = Ok escrow ->
    digest_value "trnm.portable.v2.escrow-active-reservations-root.v1" ([] : list EscrowReservationEntryV1) = Ok root ->
    m !! key KindAccount (tc_funding_account_id b) = Some (OAccount ab s) ->
    m !! key KindTask id = None -> m !! key KindEscrow escrow = None ->
    as_closed s = false -> ab_owner_agent_id ab = to_requester_agent_id offer -> ab_asset_id ab = et_asset_id terms ->
    et_funded_amount terms <= as_available s -> as_spent s + et_funded_amount terms <= u128_max ->
    et_provider_payment_cap terms <= et_funded_amount terms ->
    to_requester_agent_id offer = au_sender_agent_id (ka_statement a) ->
    applies h (TaskCreate b ch a) m
      (<[key KindEscrow escrow := OEscrow (escrow_body_of b id) (initial_escrow config escrow (escrow_body_of b id) root)]>
        (<[key KindTask id := OTask offer (initial_task config id escrow offer)]>
          (<[key KindAccount (tc_funding_account_id b) := OAccount ab (funded_account (et_funded_amount terms) s)]> m)))
| applies_bid b ch a m id tb ts eb es bb bs :
    bid_id b = Ok id -> m !! key KindTask (bd_task_id b) = Some (OTask tb ts) ->
    m !! key KindEscrow (ts_escrow_id ts) = Some (OEscrow eb es) ->
    m !! key KindBond (bd_provider_bond_id b) = Some (OBond bb bs) ->
    m !! key KindBid id = None ->
    ts_status ts = 0 -> ts_revision ts = bd_task_revision b ->
    h <= bd_bid_expiry_height b -> h <= to_offer_expiry_height tb ->
    bd_maximum_price b <> 0 -> bd_maximum_price b <= eb_provider_payment_cap eb ->
    bd_price_asset_id b = eb_asset_id eb ->
    bd_provider_agent_id b = au_sender_agent_id (ka_statement a) ->
    bb_owner_agent_id bb = bd_provider_agent_id b -> hold <= bs_available bs ->
    applies h (Bid b ch a) m (<[key KindBid id := OBid b (initial_bid config id)]> m)
| applies_lease b v1 v2 v3 ch a m id root tb ts db ds eb es bb bs :
    let entry := lease_reservation h id eb (bd_maximum_price db) in
    lease_id b = Ok id -> digest_value "trnm.portable.v2.escrow-active-reservations-root.v1" [entry] = Ok root ->
    m !! key KindTask (lb_task_id b) = Some (OTask tb ts) ->
    m !! key KindBid (lb_accepted_bid_id b) = Some (OBid db ds) ->
    m !! key KindEscrow (lb_escrow_id b) = Some (OEscrow eb es) ->
    m !! key KindBond (lb_provider_bond_id b) = Some (OBond bb bs) ->
    m !! key KindLease id = None ->
    ts_status ts = 0 -> ts_revision ts = 0 -> ts_active_lease_id ts = None -> bt_status ds = 0 ->
    ts_escrow_id ts = lb_escrow_id b -> lb_attempt b = ts_attempt ts ->
    es_active_reservations es = [] -> es_closed es = false -> bs_closed bs = false ->
    bd_maximum_price db <= eb_provider_payment_cap eb -> bd_maximum_price db <= es_available es ->
    es_reserved es + bd_maximum_price db <= u128_max -> hold <= bs_available bs -> bs_held bs + hold <= u128_max ->
    h <= bd_bid_expiry_height db ->
    lb_requester_agent_id b = au_sender_agent_id (ka_statement a) ->
    lb_requester_agent_id b = to_requester_agent_id tb -> lb_provider_agent_id b = bd_provider_agent_id db ->
    lb_provider_bond_id b = bd_provider_bond_id db ->
    validate_escrow_conservation eb (reserved_escrow (bd_maximum_price db) entry root es) = Ok tt ->
    validate_bond_conservation config (held_bond bs) = Ok tt ->
    applies h (LeaseAccept b v1 v2 v3 ch a) m
      (<[key KindLease id := OLease b (initial_lease config id b)]>
        (<[key KindBond (lb_provider_bond_id b) := OBond bb (held_bond bs)]>
          (<[key KindEscrow (lb_escrow_id b) := OEscrow eb (reserved_escrow (bd_maximum_price db) entry root es)]>
            (<[key KindBid (lb_accepted_bid_id b) := OBid db (accepted_bid id h ds)]>
              (<[key KindTask (lb_task_id b) := OTask tb (leased_task id (lb_start_deadline_height b) ts)]> m)))))
| applies_accept b v ch a m lb ls tb ts :
    m !! key KindLease (pa_lease_id b) = Some (OLease lb ls) ->
    m !! key KindTask (lb_task_id lb) = Some (OTask tb ts) ->
    lb_provider_agent_id lb = au_sender_agent_id (ka_statement a) ->
    ts_status ts = 1 -> ts_active_lease_id ts = Some (pa_lease_id b) -> ls_status ls = 0 ->
    applies h (ProviderAccept b v ch a) m
      (<[key KindLease (pa_lease_id b) := OLease lb (accepted_lease h ls)]> m).

(** ** The authorization *)

(** The lane a statement names. *)
Definition statement_lane (s : KernelAuthorizationStatementV1) : NonceLaneKeyBodyV1 :=
  mkLaneKey SCHEMA_VERSION_V1 (tb_context (trust_bundle config)) (au_sender_agent_id s)
    (au_authorizing_key_id s) (au_capability_id s) (au_session_generation s) (au_nonce_lane s).

(** The lane of a command, ready for exactly this nonce. *)
Definition lane_ready m (c : KernelCommandV1) (id : Hash32V1) (ls : NonceLaneStateV1) : Prop :=
  let s := ka_statement (KernelTypes.authorization c) in
  nonce_lane_id (statement_lane s) = Ok id /\
  m !! key KindNonceLane id = Some (OLane (statement_lane s) ls) /\
  ns_next_nonce ls = au_nonce s /\ ns_state_version ls = au_expected_lane_version s.

(** An active capability and an unexhausted session of the sender that allow the command. *)
Record delegated m (h : Z) (c : KernelCommandV1) (cid sid : Hash32V1)
    (cb : CapabilityGrantBodyV1) (cs : CapabilityStateV1)
    (sb : SessionKeyGrantBodyV1) (ss : SessionKeyGrantStateV1) : Prop := {
  dl_statement : au_capability_id (ka_statement (KernelTypes.authorization c)) = Some cid;
  dl_session_statement : au_session_key_grant_id (ka_statement (KernelTypes.authorization c)) = Some sid;
  dl_capability : m !! key KindCapability cid = Some (OCapability cb cs);
  dl_session : m !! key KindSessionGrant sid = Some (OSession sb ss);
  dl_active : cs_status cs = 0 /\ ss_status ss = 0;
  dl_window : cg_valid_from_height cb <= h <= cg_expires_after_height cb /\
    sg_valid_from_height sb <= h <= sg_expires_after_height sb;
  dl_binding : sg_capability_id sb = cid;
  dl_sender : cg_delegate_agent_id cb = au_sender_agent_id (ka_statement (KernelTypes.authorization c)) /\
    sg_agent_id sb = au_sender_agent_id (ka_statement (KernelTypes.authorization c));
  dl_lane : au_nonce_lane (ka_statement (KernelTypes.authorization c)) ∈ sg_allowed_nonce_lanes sb;
  dl_scope : operation_kind c ∈ (os_operation_kind <$> cg_operation_scopes cb);
  dl_left : ss_operations_spent ss < sg_max_total_operations sb;
}.

(** A controller's statement names no capability and no session. *)
Definition undelegated (c : KernelCommandV1) : Prop :=
  au_capability_id (ka_statement (KernelTypes.authorization c)) = None /\
  au_session_key_grant_id (ka_statement (KernelTypes.authorization c)) = None.

(** [m] before the command, [m1] after its handler. *)
Inductive consumes (h : Z) (c : KernelCommandV1) m m1 : Objects -> Prop :=
| consumes_controller id ls :
    operation_kind c <= 3 -> undelegated c -> lane_ready m c id ls ->
    consumes h c m m1 (<[key KindNonceLane id :=
      OLane (statement_lane (ka_statement (KernelTypes.authorization c)))
        (consumed_lane (au_operation_digest (ka_statement (KernelTypes.authorization c))) ls)]> m1)
| consumes_session id ls cid sid cb cs cs' sb ss ch :
    3 < operation_kind c -> lane_ready m c id ls -> delegated m h c cid sid cb cs sb ss ->
    command_charge c = Ok ch -> rc_operations ch = 1 -> apply_budget h cb cs ch = Ok cs' ->
    consumes h c m m1 (<[key KindSessionGrant sid := OSession sb (consumed_session ss)]>
      (<[key KindCapability cid := OCapability cb cs']>
        (<[key KindNonceLane id := OLane (statement_lane (ka_statement (KernelTypes.authorization c)))
            (consumed_lane (au_operation_digest (ka_statement (KernelTypes.authorization c))) ls)]> m1))).

Definition performs (h : Z) (c : KernelCommandV1) m m' : Prop :=
  exists m1, applies h c m m1 /\ consumes h c m m1 m'.

End steps.

(** ** Typing of the records the handlers build *)

(** Split the typing of a record into its fields. *)
Ltac typed_hyp H :=
  match type of H with ?f ?x = true => unfold f in H end;
  repeat lazymatch type of H with _ && _ = true => let H' := fresh "Ht" in apply andb_true_iff in H as [H H'] end.
Ltac typed_hyps :=
  repeat match goal with
  | Ht : obj_typed _ = true |- _ => progress cbn in Ht
  | Ht : _ && _ = true |- _ => let H' := fresh "Ht" in apply andb_true_iff in Ht as [Ht H']
  end.
Ltac widths :=
  repeat match goal with
  | Ht : is_u64 _ = true |- _ => apply is_width_iff in Ht
  | Ht : is_u128 _ = true |- _ => apply is_width_iff in Ht
  | Ht : is_width _ _ = true |- _ => apply is_width_iff in Ht
  end.
Ltac typed_goal :=
  repeat match goal with
  | |- _ && _ = true => apply andb_true_iff; split
  | |- true = true => reflexivity
  | Ht : ?g = true |- ?g = true => exact Ht
  end.
(** A record whose fields are old ones, small constants or bounded sums. *)
Ltac typed_width :=
  widths; apply is_width_iff; unfold u64_max, u128_max, u32_max, u16_max, u8_max in *; lia.
Ltac typed_record_at n :=
  cbn; typed_goal; try solve [reflexivity | typed_width];
  lazymatch n with
  | S ?n => match goal with |- ?f ?x = true => unfold f end; typed_record_at n
  | _ => idtac
  end.
Ltac typed_record := typed_record_at 3%nat.

Section refinement.
Context `{KernelCrates, !KernelLaws} (config : AgentMarketStoreConfigV1).
Implicit Types m : Objects.

Lemma or_else_false (a : bool) (r : KResult bool) : or_else a r = Ok false <-> a = false /\ r = Ok false.
Proof. destruct a; simpl; naive_solver. Qed.

Lemma is_some_false {A} (o : option A) : is_some o = false -> o = None.
Proof. by destruct o. Qed.

Lemma contains_elem {A} `{EqDecision A} (l : list A) v : contains l v = true <-> v ∈ l.
Proof.
  unfold contains. rewrite existsb_exists. split.
  - intros (x & Hx & He). bprop. subst. by apply list_elem_of_In.
  - intros Hv. exists v. split; [by apply list_elem_of_In|by apply bool_decide_eq_true].
Qed.

End refinement.

(** The steps of a chain of checked additions. *)
Ltac obinds :=
  repeat match goal with Hx : _ ≫= _ = Some _ |- _ => apply bind_Some in Hx as (? & ? & Hx) end.

(** Every successful step of a handler, with its guard. *)
Ltac kinv :=
  repeat (progress rinv || match goal with
  | Hx : or_else _ _ = Ok false |- _ => apply or_else_false in Hx as [? Hx]
  | Hx : ?b = false |- _ => is_var b; subst b
  | Hx : is_some _ = false |- _ => apply is_some_false in Hx
  end); bprop.

Section handlers.
Context `{KernelCrates, !KernelLaws} (config : AgentMarketStoreConfigV1).
Context (Hctx : typed_pc (tb_context (trust_bundle config)) = true).
Implicit Types m : Objects.

(** The result of a handler: a step, its representation, and an untouched frame. *)
Definition refines (h : Z) (c : KernelCommandV1) st m st' : Prop :=
  exists m', applies config h c m m' /\ Repr st' m' /\ same_frame st st'.

Lemma is_hash_of {A} `{BorshSerialize A} d (a : A) x : digest_value d a = Ok x -> is_hash x = true.
Proof. apply digest_hash. Qed.

Lemma typed_counters b : typed_cg b = true ->
  forallb typed_ac ((fun limit => mkCounter (al_asset_id limit) (al_maximum_amount limit) 0 0) <$> cg_spend_limits b) = true.
Proof.
  intros Ht. typed_hyp Ht. apply forallb_forall. intros x Hx%list_elem_of_In.
  apply list_elem_of_fmap in Hx as (l & -> & Hl).
  match goal with Hf : forallb typed_al _ = true |- _ => rewrite forallb_forall in Hf; specialize (Hf l) end.
  assert (Hal : typed_al l = true) by (match goal with Hf : In l _ -> _ |- _ => apply Hf end; by apply list_elem_of_In).
  typed_hyp Hal. typed_record.
Qed.

(** Sorted by asset and amount, without a repeated asset: the assets are distinct. *)
Lemma unique_first {T K} `{RustOrd T, RustOrd K, EqDecision K} (key : T -> K) (l : list T) u v :
  (forall a b, ord_leb b a = false -> key a <> key b -> ord_leb (key b) (key a) = false) ->
  require_strictly_sorted_unique l = Ok u -> require_unique_key key l = Ok v -> NoDup (key <$> l).
Proof.
  intros Hlex Hs Hk. unfold require_strictly_sorted_unique, require_unique_key in *. rinv.
  apply strict_keys_NoDup, windows2_strict. revert Hs Hk.
  induction l as [|x [|y l] IH]; [done..|]. intros Hs Hk.
  cbn [windows2_any] in Hs, Hk |- *. apply orb_false_iff in Hs as [Hxy Hs]. apply orb_false_iff in Hk as [Hne Hk].
  bprop. rewrite Hlex by done. by apply IH.
Qed.

Lemma unique_limits (l : list AssetLimitV1) u v :
  require_strictly_sorted_unique l = Ok u -> require_unique_key al_asset_id l = Ok v -> NoDup (al_asset_id <$> l).
Proof.
  apply unique_first. intros [a x] [b y]. unfold ord_leb; cbn. unfold prod_cmp; cbn.
  intros Hl Hne. destruct (list_cmp b a) eqn:E; [|done..]. change (cmp (A := list Z) b a = Eq) in E. apply cmp_eq in E. congruence.
Qed.

Lemma unique_charges (l : list AssetChargeV1) u v :
  require_strictly_sorted_unique l = Ok u -> require_unique_key ch_asset_id l = Ok v -> NoDup (ch_asset_id <$> l).
Proof.
  apply unique_first. intros [a x] [b y]. unfold ord_leb; cbn. unfold prod_cmp; cbn.
  intros Hl Hne. destruct (list_cmp b a) eqn:E; [|done..]. change (cmp (A := list Z) b a = Eq) in E. apply cmp_eq in E. congruence.
Qed.

Lemma apply_capability_refines st m h b a st' :
  Repr st m -> is_u64 h = true -> typed_cg b = true ->
  apply_capability_grant st config h b a = Ok st' -> refines h (CapabilityGrant b a) st m st'.
Proof.
  intros HR Hh Ht Ha. unfold apply_capability_grant in Ha. kinv.
  assert (Hid := is_hash_of _ _ _ Hr10). pose proof (typed_counters _ Ht) as Hcounters.
  edestruct (insert_Repr _ _ _ _ _ _ _ (OCapability b (initial_capability config h r10 b)) _ Ha HR) as (Hn & HR' & Hf); try done.
  - cbn. rewrite Ht. typed_hyp Ht. cbn. unfold initial_capability. typed_record.
  - eexists. split_and!; [|done..]. constructor; eauto using unique_limits.
Qed.

Lemma insert_lane_refines st m b st' :
  Repr st m -> typed_nb b = true -> insert_nonce_lane st b = Ok st' ->
  exists id, nonce_lane_id b = Ok id /\ m !! key KindNonceLane id = None /\
    Repr st' (<[key KindNonceLane id := OLane b (initial_lane id b)]> m) /\ same_frame st st'.
Proof.
  intros HR Ht Ha. unfold insert_nonce_lane in Ha. kinv. assert (Hid := is_hash_of _ _ _ Hr).
  edestruct (insert_Repr _ _ _ _ _ _ _ (OLane b (initial_lane r b)) _ Ha HR) as (Hn & HR' & Hf); try done; [|eauto].
  cbn. rewrite Ht. typed_hyp Ht. cbn. typed_record.
Qed.

Lemma opens_lanes_refines b lanes : forall st m st',
  Repr st m -> typed_sg b = true -> forallb is_u16 lanes = true ->
  try_fold (fun st lane => insert_nonce_lane st (session_lane config b lane)) st lanes = Ok st' ->
  exists m', opens_lanes config b lanes m m' /\ Repr st' m' /\ same_frame st st'.
Proof.
  induction lanes as [|l lanes IH]; intros st m st' HR Ht Hl Ha; cbn in Ha, Hl.
  - injection Ha as <-. exists m. done.
  - apply andb_true_iff in Hl as [Hl Hls]. rinv.
    apply insert_lane_refines with (m := m) in Hr as (id & Hid & Hn & HR1 & Hf1); [|done|].
    2:{ typed_hyp Ht. unfold session_lane. typed_record. }
    destruct (IH _ _ _ HR1 Ht Hls Ha) as (m' & Ho & HR' & Hf).
    exists m'. split_and!; [|done|by etrans]. exists id. done.
Qed.

Lemma apply_session_refines st m h b a st' :
  Repr st m -> is_u64 h = true -> typed_sg b = true ->
  apply_session_grant st config h b a = Ok st' -> refines h (SessionGrant b a) st m st'.
Proof.
  intros HR Hh Ht Ha. unfold apply_session_grant in Ha. kinv.
  apply load_capability with (m := m) in Hr1; [|done]. assert (Hid := is_hash_of _ _ _ Hr4).
  pose proof (Repr_keyed _ _ _ _ HR Hr1) as (_ & Htc & _ & _). typed_hyps.
  edestruct (insert_Repr _ _ _ _ _ _ _ (OSession b (initial_session config h r3 b p0)) _ Hr5 HR)
    as (Hn & HR' & Hf); try done.
  - cbn. rewrite Ht. cbn. match goal with Hc : typed_cs _ = true |- _ => typed_hyp Hc end.
    typed_hyp Ht. unfold initial_session. typed_record.
  - assert (Hlanes : forallb is_u16 (sg_allowed_nonce_lanes b) = true) by (typed_hyp Ht; done).
    eapply opens_lanes_refines in Ha as (m' & Ho & HR'' & Hf'); [|done..].
    eexists. split_and!; [|done|by etrans]. econstructor; eauto.
    match goal with Hc : forallb (contains _) _ = true |- _ => rewrite forallb_forall in Hc; rename Hc into Hall end.
    apply Forall_forall. intros l Hl. apply contains_elem, Hall. by apply list_elem_of_In.
Qed.

Lemma apply_task_refines st m h b ch a st' :
  Repr st m -> is_u64 h = true -> typed_tc b = true ->
  apply_task_create st config h b a = Ok st' -> refines h (TaskCreate b ch a) st m st'.
Proof.
  intros HR Hh Ht Ha. unfold apply_task_create, account_total in Ha. kinv. obinds. checked. cbn in *. subst.
  apply load_account with (m := m) in Hr4; [|done].
  pose proof (Repr_keyed _ _ _ _ HR Hr4) as (_ & Hta & Hid & Hsid).
  assert (Hv := obj_version_u64 _ Hta). unfold in_u64 in Hv. cbn in Hv, Hid, Hsid. typed_hyps.
  assert (Hto : typed_to (tc_task_offer_body b) = true) by (typed_hyp Ht; done).
  assert (Hte : typed_et (tc_escrow_terms b) = true) by (typed_hyp Ht; done).
  assert (Hnonce : is_hash (tc_escrow_nonce b) = true) by (typed_hyp Ht; done).
  assert (Hfund : is_u128 (et_funded_amount (tc_escrow_terms b)) = true) by (typed_hyp Hte; done).
  assert (Hp : typed_ab p = true) by done. assert (Hp0 : typed_as p0 = true) by done.
  edestruct (update_Repr _ _ _ _ _ _ _ _ (OAccount p (funded_account (et_funded_amount (tc_escrow_terms b)) p0)) _ Hr12 HR)
    as (old & Hold & _ & _ & HR1 & Hf1); try done.
  { cbn. rewrite Hp. typed_hyp Hp0. typed_record. }
  { lia. }
  assert (Hh1 := is_hash_of _ _ _ Hr13). assert (Hh2 := is_hash_of _ _ _ Hr14). assert (Hh3 := is_hash_of _ _ _ Hr15).
  edestruct (insert_Repr _ _ _ _ _ _ _ (OTask (tc_task_offer_body b) (initial_task config r12 r13 (tc_task_offer_body b))) _ Hr16 HR1)
    as (Hn2 & HR2 & Hf2); try done.
  { cbn. rewrite Hto. typed_hyp Hto. typed_record. }
  edestruct (insert_Repr _ _ _ _ _ _ _ (OEscrow (escrow_body_of b r12) (initial_escrow config r13 (escrow_body_of b r12) r14)) _ Ha HR2)
    as (Hn3 & HR3 & Hf3); try done.
  { cbn. typed_hyp Hto. typed_hyp Hte. typed_record. }
  eexists. split_and!; [|done|by do 2 (etrans; [done|])].
  rewrite !lookup_insert_ne in Hn3 by done. rewrite lookup_insert_ne in Hn2 by done.
  econstructor; eauto; try congruence; widths; try lia. typed_hyp Hte. widths. lia.
Qed.

Lemma apply_bid_refines st m h b ch a st' :
  Repr st m -> is_u64 h = true -> typed_bd b = true ->
  apply_bid st config h b a = Ok st' -> refines h (Bid b ch a) st m st'.
Proof.
  intros HR Hh Ht Ha. unfold apply_bid in Ha. kinv.
  apply load_task with (m := m) in Hr0; [|done]. apply load_escrow with (m := m) in Hr1; [|done].
  apply load_bond with (m := m) in Hr2; [|done].
  match goal with Hi : bid_id _ = Ok ?x |- _ => rename x into id; assert (Hid := is_hash_of _ _ _ Hi) end.
  edestruct (insert_Repr _ _ _ _ _ _ _ (OBid b (initial_bid config id)) _ Ha HR) as (Hn & HR' & Hf); try done.
  - cbn. rewrite Ht. typed_record.
  - eexists. split_and!; [|done..]. econstructor; eauto; congruence.
Qed.

Lemma apply_accept_refines st m h b v ch a st' :
  Repr st m -> is_u64 h = true ->
  apply_provider_accept st config h b v a = Ok st' -> refines h (ProviderAccept b v ch a) st m st'.
Proof.
  intros HR Hh Ha. unfold apply_provider_accept in Ha. kinv. checked.
  apply load_lease with (m := m) in Hr0; [|done]. apply load_task with (m := m) in Hr1; [|done].
  pose proof (Repr_keyed _ _ _ _ HR Hr0) as (_ & Htl & Hid & Hsid). typed_hyps. subst.
  assert (Hv : in_u64 (ls_revision p0)) by (apply (obj_version_u64 (OLease p p0)); cbn; by rewrite Htl).
  edestruct (update_Repr _ _ _ _ _ _ _ _ (OLease p (accepted_lease h p0)) _ Ha HR)
    as (old & Hold & _ & _ & HR' & Hf); try done.
  - cbn. rewrite Htl. match goal with Hc : typed_ls _ = true |- _ => typed_hyp Hc end. typed_record.
  - unfold in_u64 in Hv. lia.
  - eexists. split_and!; [|done..]. econstructor; eauto; congruence.
Qed.

(** *** Typed successors *)

Lemma typed_leased_task s id d : typed_ts s = true -> is_hash id = true -> is_u64 d = true ->
  ts_revision s + 1 <= u64_max -> typed_ts (leased_task id d s) = true.
Proof. intros Ht Hid Hd Hv. typed_hyp Ht. typed_record. Qed.

Lemma typed_accepted_bid s id h : typed_bt s = true -> is_hash id = true -> is_u64 h = true ->
  bt_state_version s + 1 <= u64_max -> typed_bt (accepted_bid id h s) = true.
Proof. intros Ht Hid Hd Hv. typed_hyp Ht. typed_record. Qed.

Lemma typed_reservation h id eb db : is_u64 h = true -> is_hash id = true -> typed_eb eb = true -> typed_bd db = true ->
  typed_er (lease_reservation h id eb (bd_maximum_price db)) = true.
Proof. intros Hh Hid He Hd. typed_hyp He. typed_hyp Hd. typed_record. Qed.

Lemma typed_reserved_escrow s p e root : typed_es s = true -> typed_er e = true -> is_hash root = true ->
  is_u128 p = true -> es_active_reservations s = [] -> p <= es_available s -> es_reserved s + p <= u128_max -> es_version s + 1 <= u64_max ->
  typed_es (reserved_escrow p e root s) = true.
Proof. intros Ht He Hroot Hp Hn H1 H2 H3. typed_hyp Ht. unfold reserved_escrow. rewrite Hn. typed_record. Qed.

Lemma typed_held_bond s : typed_bs s = true -> 0 <= hold config -> hold config <= bs_available s ->
  bs_held s + hold config <= u128_max -> bs_version s + 1 <= u64_max -> typed_bs (held_bond config s) = true.
Proof. intros Ht H1 H2 H3 H4. typed_hyp Ht. typed_record. Qed.

Lemma keyed_version k o : keyed k o -> 0 <= obj_version o.
Proof. intros (_ & Ht & _). apply obj_version_u64 in Ht. unfold in_u64 in Ht. lia. Qed.

Lemma apply_lease_refines st m h b v1 v2 v3 ch a st' :
  Repr st m -> is_u64 h = true -> typed_lb b = true -> 0 <= hold config ->
  apply_lease_accept st config h b v1 v2 v3 a = Ok st' -> refines h (LeaseAccept b v1 v2 v3 ch a) st m st'.
Proof.
  intros HR Hh Ht Hhold Ha. unfold apply_lease_accept in Ha. kinv. checked. cbn in *. subst.
  apply load_task with (m := m) in Hr0; [|done]. apply load_bid with (m := m) in Hr1; [|done].
  apply load_escrow with (m := m) in Hr2; [|done]. apply load_bond with (m := m) in Hr3; [|done].
  pose proof (Repr_keyed _ _ _ _ HR Hr0) as Ht0. pose proof (Repr_keyed _ _ _ _ HR Hr1) as Ht1.
  pose proof (Repr_keyed _ _ _ _ HR Hr2) as Ht2. pose proof (Repr_keyed _ _ _ _ HR Hr3) as Ht3.
  pose proof (keyed_version _ _ Ht0) as Hv0. pose proof (keyed_version _ _ Ht1) as Hv1.
  pose proof (keyed_version _ _ Ht2) as Hv2. pose proof (keyed_version _ _ Ht3) as Hv3.
  destruct Ht0 as (_ & Ht0 & Hid0 & Hsid0), Ht1 as (_ & Ht1 & Hid1 & Hsid1),
    Ht2 as (_ & Ht2 & Hid2 & Hsid2), Ht3 as (_ & Ht3 & Hid3 & Hsid3).
  cbn in *. apply andb_true_iff in Ht0 as [Hb0 Ht0], Ht1 as [Hb1 Ht1], Ht2 as [Hb2 Ht2], Ht3 as [Hb3 Ht3].
  assert (Hid := is_hash_of _ _ _ Hr4). assert (Hroot := is_hash_of _ _ _ Hr9).
  assert (Hprice : is_u128 (bd_maximum_price p1) = true) by (clear -Hb1; typed_hyp Hb1; done).
  assert (Hstart : is_u64 (lb_start_deadline_height b) = true) by (clear -Ht; typed_hyp Ht; done).
  pose proof (typed_reservation h r0 p3 p1 Hh Hid Hb2 Hb1) as Hentry.
  assert (Hnil : es_active_reservations p4 = []) by by destruct (es_active_reservations p4).
  edestruct (update_Repr _ _ _ _ _ _ _ _ (OTask p (leased_task r0 (lb_start_deadline_height b) p0)) _ Hr18 HR)
    as (o1 & Ho1 & _ & _ & HR1 & Hf1); try done.
  { cbn. rewrite Hb0. apply typed_leased_task; auto. }
  { lia. }
  edestruct (update_Repr _ _ _ _ _ _ _ _ (OBid p1 (accepted_bid r0 h p2)) _ Hr19 HR1)
    as (o2 & Ho2 & _ & _ & HR2 & Hf2); try done.
  { cbn. rewrite Hb1. apply typed_accepted_bid; auto. }
  edestruct (update_Repr _ _ _ _ _ _ _ _ (OEscrow p3 (reserved_escrow (bd_maximum_price p1)
    (lease_reservation h r0 p3 (bd_maximum_price p1)) r5 p4)) _ Hr20 HR2) as (o3 & Ho3 & _ & _ & HR3 & Hf3); try done.
  { cbn. rewrite Hb2. by apply typed_reserved_escrow. }
  edestruct (update_Repr _ _ _ _ _ _ _ _ (OBond p5 (held_bond config p6)) _ Hr21 HR3) as (o4 & Ho4 & _ & _ & HR4 & Hf4); try done.
  { cbn. rewrite Hb3. by apply typed_held_bond. }
  edestruct (insert_Repr _ _ _ _ _ _ _ (OLease b (initial_lease config r0 b)) _ Ha HR4) as (Hn5 & HR5 & Hf5); try done.
  { cbn. rewrite Ht. typed_hyp Ht. typed_record. }
  eexists. split_and!; [|done|by do 4 (etrans; [done|])].
  rewrite !lookup_insert_ne in Hn5 by done. rewrite Hnil in Hr9. destruct r7, r11.
  econstructor; eauto; try congruence. by apply is_some_false.
Qed.

End handlers.

Section authorization.
Context `{KernelCrates, !KernelLaws} (config : AgentMarketStoreConfigV1).
Implicit Types m : Objects.

Lemma iter_find_Some {A} (f : A -> bool) l x : iter_find f l = Some x -> x ∈ l /\ f x = true.
Proof.
  induction l as [|y l IH]; cbn; [done|]. destruct (f y) eqn:E.
  - intros [= ->]. split; [by left|done].
  - intros [? ?]%IH. split; [by right|done].
Qed.

(** What a granted authorization has checked. *)
Inductive authorized m (h : Z) (c : KernelCommandV1) : AuthorizationSnapshotV1 -> Prop :=
| authorized_controller id ls :
    operation_kind c <= 3 -> undelegated c -> lane_ready config m c id ls -> ns_nonce_lane_id ls = id ->
    authorized m h c (mkSnapshot (statement_lane config (ka_statement (authorization c))) ls None None)
| authorized_session id ls cid sid cb cs sb ss :
    3 < operation_kind c -> lane_ready config m c id ls -> ns_nonce_lane_id ls = id ->
    delegated m h c cid sid cb cs sb ss ->
    authorized m h c (mkSnapshot (statement_lane config (ka_statement (authorization c))) ls
      (Some (cb, cs)) (Some (sb, ss))).

Lemma authorize_authorized st m h c snapshot :
  Repr st m -> authorize st config h c = Ok snapshot -> authorized m h c snapshot.
Proof.
  intros HR Ha. unfold authorize in Ha. kinv.
  match goal with Hl : load_object _ _ _ KindNonceLane _ = Ok _ |- _ => apply load_lane with (m := m) in Hl; [|done] end.
  match goal with Hb : p = _ |- _ => subst p end.
  assert (Hready : lane_ready config m c r0 p0).
  { split_and!; try done. lia. }
  destruct (operation_kind c <=? 3) eqn:Hkind; bprop.
  - injection Ha as <-. kinv. econstructor; eauto. split; by apply is_some_false.
  - kinv. subst.
    match goal with Hl : load_object _ _ _ KindCapability _ = Ok _ |- _ => apply load_capability with (m := m) in Hl; [|done] end.
    match goal with Hl : load_object _ _ _ KindSessionGrant _ = Ok _ |- _ => apply load_session with (m := m) in Hl; [|done] end.
    match goal with Hv : validate_operation_scope _ _ _ = Ok _ |- _ => unfold validate_operation_scope in Hv end. kinv.
    match goal with Hf : iter_find _ (cg_operation_scopes _) = Some _ |- _ => apply iter_find_Some in Hf as [Hin Hk] end.
    eapply authorized_session; eauto. split; eauto; try lia; bprop.
    + by apply contains_elem.
    + apply list_elem_of_fmap. eauto.
Qed.

(** *** Budgets *)

Lemma charge_counter_inv l q l' : charge_counter l q = Ok l' ->
  exists l1 a l2, l = l1 ++ a :: l2 /\ ac_asset_id a = ch_asset_id q /\
    ac_spent a + ac_reserved a + ch_amount q <= ac_limit a /\ ac_spent a + ch_amount q <= u128_max /\
    l' = l1 ++ set_ac_spent (ac_spent a + ch_amount q) a :: l2 /\ ch_asset_id q ∉ (ac_asset_id <$> l1).
Proof.
  revert l'. induction l as [|a l IH]; cbn; intros l' Hc; [done|].
  destruct (bool_decide _) eqn:E; bprop.
  - kinv. obinds. checked. subst. exists [], a, l. split_and!; try done; try lia. apply not_elem_of_nil.
  - kinv. destruct (IH _ Hr) as (l1 & x & l2 & -> & Hx & ? & ? & -> & Hn). subst.
    exists (a :: l1), x, l2. split_and!; try done. rewrite fmap_cons. apply not_elem_of_cons. done.
Qed.

Lemma typed_charge_counter l q l' : forallb typed_ac l = true -> typed_ch q = true ->
  charge_counter l q = Ok l' -> forallb typed_ac l' = true.
Proof.
  intros Hl Hq (l1 & a & l2 & -> & _ & ? & ? & -> & _)%charge_counter_inv.
  rewrite forallb_app in Hl |- *. cbn in Hl |- *. apply andb_true_iff in Hl as [-> Hl].
  apply andb_true_iff in Hl as [Ha ->]. typed_hyp Ha. typed_hyp Hq. rewrite andb_true_r. typed_record.
Qed.

Lemma checked_budget_add_Ok w spent reserved q limit x : checked_budget_add w spent reserved q limit = Ok x ->
  x = spent + q /\ spent + q <= w /\ spent + reserved + q <= limit.
Proof. unfold checked_budget_add. intros Hc. kinv. obinds. checked. subst. lia. Qed.

(** The charged budget, field by field. *)
Record charged (h : Z) (cb : CapabilityGrantBodyV1) (s s' : CapabilityStateV1) (ch : KernelResourceChargeV1) : Prop := {
  cd_version : cs_state_version s' = cs_state_version s + 1 /\ cs_state_version s + 1 <= u64_max;
  cd_rest : s' = set_cs_state_version (cs_state_version s + 1) (set_cs_budget (cs_budget s') s);
  cd_operations : rc_operations ch = 1 /\ cb_operations_spent (cs_budget s') = cb_operations_spent (cs_budget s) + 1;
  cd_assets : try_fold charge_counter (cb_asset_counters (cs_budget s)) (rc_asset_charges ch)
    = Ok (cb_asset_counters (cs_budget s'));
  cd_distinct : NoDup (ch_asset_id <$> rc_asset_charges ch);
  cd_spent : cb_fee_spent (cs_budget s') = cb_fee_spent (cs_budget s) + rc_fee ch /\
    cb_gas_spent (cs_budget s') = cb_gas_spent (cs_budget s) + rc_gas ch /\
    cb_da_bytes_spent (cs_budget s') = cb_da_bytes_spent (cs_budget s) + rc_da_bytes ch /\
    cb_retention_spent (cs_budget s') = cb_retention_spent (cs_budget s) + rc_retention ch;
  cd_limits : cb_fee_spent (cs_budget s') + cb_fee_reserved (cs_budget s) <= cb_fee_limit (cs_budget s) /\
    cb_gas_spent (cs_budget s') + cb_gas_reserved (cs_budget s) <= cb_gas_limit (cs_budget s) /\
    cb_da_bytes_spent (cs_budget s') + cb_da_bytes_reserved (cs_budget s) <= cb_da_byte_limit (cs_budget s) /\
    cb_retention_spent (cs_budget s') + cb_retention_reserved (cs_budget s) <= cb_retention_limit (cs_budget s) /\
    cb_operations_spent (cs_budget s') + cb_operations_reserved (cs_budget s) <= cb_operation_limit (cs_budget s);
  cd_fixed : cb_fee_limit (cs_budget s') = cb_fee_limit (cs_budget s) /\
    cb_gas_limit (cs_budget s') = cb_gas_limit (cs_budget s) /\
    cb_da_byte_limit (cs_budget s') = cb_da_byte_limit (cs_budget s) /\
    cb_retention_limit (cs_budget s') = cb_retention_limit (cs_budget s) /\
    cb_operation_limit (cs_budget s') = cb_operation_limit (cs_budget s) /\
    cb_fee_reserved (cs_budget s') = cb_fee_reserved (cs_budget s) /\
    cb_gas_reserved (cs_budget s') = cb_gas_reserved (cs_budget s) /\
    cb_da_bytes_reserved (cs_budget s') = cb_da_bytes_reserved (cs_budget s) /\
    cb_retention_reserved (cs_budget s') = cb_retention_reserved (cs_budget s) /\
    cb_operations_reserved (cs_budget s') = cb_operations_reserved (cs_budget s);
  cd_rate : cb_rate_window_operations (cs_budget s') <= cg_rate_max_operations cb /\
    (cb_rate_window_start_height (cs_budget s') = cb_rate_window_start_height (cs_budget s) /\
       cb_rate_window_operations (cs_budget s') = cb_rate_window_operations (cs_budget s) + 1 /\
       h < cb_rate_window_start_height (cs_budget s) + cg_rate_window_blocks cb \/
     cb_rate_window_start_height (cs_budget s') = h /\ cb_rate_window_operations (cs_budget s') = 1 /\
       cb_rate_window_start_height (cs_budget s) + cg_rate_window_blocks cb <= h);
}.

Lemma apply_budget_charged h cb s ch s' : apply_budget h cb s ch = Ok s' -> charged h cb s s' ch.
Proof.
  unfold apply_budget. intros Hb. kinv.
  repeat match goal with Hc : checked_budget_add _ _ _ _ _ = Ok _ |- _ => apply checked_budget_add_Ok in Hc as (? & ? & ?) end.
  checked. destruct (_ <=? h) eqn:E; bprop; cbn in *; subst; split; cbn;
    eauto using unique_charges; split_and!; try done; try lia.
Qed.

Lemma typed_apply_budget h cb s ch s' : typed_cs s = true -> typed_rc ch = true -> is_u64 h = true ->
  apply_budget h cb s ch = Ok s' -> typed_cs s' = true.
Proof.
  unfold apply_budget. intros Hs Hch Hh Hb. kinv.
  assert (Hc : forallb typed_ac r2 = true).
  { eapply (try_fold_inv (fun l => forallb typed_ac l = true)); [| |exact Hr2].
    - typed_hyp Hs. match goal with Hx : typed_cb _ = true |- _ => typed_hyp Hx end. done.
    - intros. eapply typed_charge_counter; eauto. typed_hyp Hch. rewrite forallb_forall in Hch.
      apply Hch. by apply list_elem_of_In. }
  repeat match goal with Hc : checked_budget_add _ _ _ _ _ = Ok _ |- _ => apply checked_budget_add_Ok in Hc as (? & ? & ?) end.
  checked. typed_hyp Hs. match goal with Hx : typed_cb _ = true |- _ => typed_hyp Hx end. typed_hyp Hch.
  destruct (_ <=? h) eqn:E; bprop; cbn in *; subst; typed_record.
Qed.

Definition typed_config : Prop := is_hash (store_id config) = true /\ typed_tb (trust_bundle config) = true.

Lemma typed_statement c : typed_command c = true -> typed_au (ka_statement (authorization c)) = true.
Proof.
  assert (Hk : forall a, typed_ka a = true -> typed_au (ka_statement a) = true).
  { intros a Ha. typed_hyp Ha. done. }
  destruct c; cbn; rewrite ?andb_true_iff; intuition auto.
Qed.

Lemma typed_command_charge c ch : typed_command c = true -> command_charge c = Ok ch -> typed_rc ch = true.
Proof. destruct c; cbn; rewrite ?andb_true_iff; intros Ht Hc; kinv; subst; intuition auto. Qed.

Lemma typed_consumed_lane d s : typed_ns s = true -> is_hash d = true -> ns_state_version s + 1 <= u64_max ->
  ns_next_nonce s + 1 <= u64_max -> typed_ns (consumed_lane d s) = true.
Proof. intros Hs Hd H1 H2. typed_hyp Hs. typed_record. Qed.

Lemma typed_consumed_session s : typed_ss s = true -> ss_state_version s + 1 <= u64_max ->
  ss_operations_spent s + 1 <= u64_max -> typed_ss (consumed_session s) = true.
Proof. intros Hs H1 H2. typed_hyp Hs. typed_record. Qed.

Lemma lane_consumed st m m1 c id ls st' :
  Repr st m1 -> typed_command c = true -> lane_ready config m c id ls -> keyed (key KindNonceLane id)
    (OLane (statement_lane config (ka_statement (authorization c))) ls) ->
  ns_state_version ls + 1 <= u64_max -> ns_next_nonce ls + 1 <= u64_max ->
  update_object st KindNonceLane (ns_nonce_lane_id ls) (au_expected_lane_version (ka_statement (authorization c)))
    (ns_state_version ls + 1) (statement_lane config (ka_statement (authorization c)))
    (consumed_lane (au_operation_digest (ka_statement (authorization c))) ls) = Ok st' ->
  Repr st' (<[key KindNonceLane id := OLane (statement_lane config (ka_statement (authorization c)))
      (consumed_lane (au_operation_digest (ka_statement (authorization c))) ls)]> m1) /\ same_frame st st'.
Proof.
  intros HR Htc (Hid & _ & _ & Hver) Hk H1 H2 Hu.
  pose proof (keyed_version _ _ Hk) as Hv. destruct Hk as (_ & Ht & _ & Hsid). cbn in Ht, Hsid, Hv.
  apply andb_true_iff in Ht as [Ht1 Ht2]. rewrite Hsid in Hu. apply typed_statement in Htc.
  edestruct (update_Repr _ _ _ _ _ _ _ _ (OLane (statement_lane config (ka_statement (authorization c)))
    (consumed_lane (au_operation_digest (ka_statement (authorization c))) ls)) _ Hu HR)
    as (old & Hold & _ & _ & HR' & Hf); try done.
  - cbn. rewrite Ht1. apply typed_consumed_lane; auto. typed_hyp Htc. done.
  - lia.
Qed.

Lemma consume_consumes st0 st m m1 h c snapshot st' :
  Repr st0 m -> Repr st m1 -> is_u64 h = true -> typed_command c = true -> authorized m h c snapshot ->
  consume_authorization st h c snapshot = Ok st' ->
  exists m', consumes config h c m m1 m' /\ Repr st' m' /\ same_frame st st'.
Proof.
  intros HR0 HR Hh Htc Ha Hc. unfold consume_authorization in Hc. kinv. checked. subst. 
  destruct Ha as [id ls Hkind Hun Hlane Hid|id ls cid sid cb cs sb ss Hkind Hlane Hid Hd]; cbn in *.
  - injection Hc as <-. pose proof (Repr_keyed _ _ _ _ HR0 (proj1 (proj2 Hlane))) as Hk.
    eapply lane_consumed in Hr1 as [HR' Hf]; eauto.
    eexists. split_and!; [|done..]. by constructor.
  - kinv. checked. subst. pose proof (Repr_keyed _ _ _ _ HR0 (proj1 (proj2 Hlane))) as Hk.
    eapply lane_consumed in Hr1 as [HR1 Hf1]; eauto.
    pose proof (apply_budget_charged _ _ _ _ _ Hr0) as Hch.
    pose proof (dl_capability _ _ _ _ _ _ _ _ _ Hd) as Hcap. pose proof (dl_session _ _ _ _ _ _ _ _ _ Hd) as Hses.
    destruct (Repr_keyed _ _ _ _ HR0 Hcap) as (_ & Htcap & Hidc & Hsidc).
    pose proof (keyed_version _ _ (Repr_keyed _ _ _ _ HR0 Hses)) as Hvs.
    pose proof (keyed_version _ _ (Repr_keyed _ _ _ _ HR0 Hcap)) as Hvc.
    destruct (Repr_keyed _ _ _ _ HR0 Hses) as (_ & Htses & Hids & Hsids). cbn in *.
    apply andb_true_iff in Htcap as [Hcb Hcs], Htses as [Hsb Hss].
    destruct Hch as [[Hver Hmax] Hrest [Hone _] _ _ _ _ _ _].
    assert (Hsid' : cs_capability_id r0 = cid) by (rewrite Hrest; done).
    rewrite Hone in *. rewrite Hsid', Hver in Hr6. rewrite Hsids in Hc.
    edestruct (update_Repr _ _ _ _ _ _ _ _ (OCapability cb r0) _ Hr6 HR1) as (o2 & Ho2 & _ & _ & HR2 & Hf2); try done.
    { cbn. rewrite Hcb. eauto using typed_apply_budget, typed_command_charge. }
    { lia. }
    edestruct (update_Repr _ _ _ _ _ _ _ _ (OSession sb (consumed_session ss)) _ Hc HR2) as (o3 & Ho3 & _ & _ & HR3 & Hf3); try done.
    { cbn. rewrite Hsb. by apply typed_consumed_session. }
    { lia. }
    eexists. split_and!; [|done|by do 2 (etrans; [done|])]. econstructor; eauto.
Qed.

End authorization.

(** ** One command refines one step *)

Section perform.
Context `{KernelCrates, !KernelLaws} (config : AgentMarketStoreConfigV1) (Hconfig : typed_config config).

Lemma apply_command_refines st m h c st' :
  Repr st m -> is_u64 h = true -> typed_command c = true ->
  apply_command st config h c = Ok st' -> refines config h c st m st'.
Proof.
  destruct Hconfig as [_ Htb]. pose proof Htb as Htb'. typed_hyp Htb'.
  intros HR Hh Hty Ha. destruct c; cbn in Hty, Ha; rewrite ?andb_true_iff in Hty.
  - eapply apply_capability_refines; eauto; tauto.
  - eapply apply_session_refines; eauto; tauto.
  - eapply apply_task_refines; eauto; tauto.
  - eapply apply_bid_refines; eauto; tauto.
  - eapply apply_lease_refines; eauto; [tauto..|]. widths. unfold hold. lia.
  - eapply apply_accept_refines; eauto; tauto.
Qed.

Theorem perform_refines st m h c st' :
  Repr st m -> is_u64 h = true -> typed_command c = true -> perform st config h c = Ok st' ->
  exists m', performs config h c m m' /\ Repr st' m' /\ same_frame st st'.
Proof.
  intros HR Hh Ht Hp. unfold perform in Hp. kinv.
  eapply authorize_authorized in Hr; [|done]. apply apply_command_refines with (m := m) in Hr0 as (m1 & Ha & HR1 & Hf1); [|done..].
  eapply consume_consumes in Hp as (m2 & Hc & HR2 & Hf2); [|exact HR|exact HR1|done..].
  exists m2. split_and!; [|done|by etrans]. exists m1. done.
Qed.

End perform.
