(* ===== verification/KernelLedger.v ===== *)
(** * KernelLedger: funds and the market graph under the kernel's steps

    Invariants of maps of typed objects, proved for every step of the abstract
    kernel ([performs]): value is conserved, every task has its own escrow, a leased
    task has exactly one lease whose price is reserved, and the provider's bond holds
    one hold per lease. *)

From stdpp Require Import base gmap list sorting strings.
From S2P Require Import Prelude Crypto KernelTypes KernelStore KernelAudit Kernel KernelService KernelObjects KernelSteps.

(** ** Sums over objects *)

(** What an object holds of the requester's asset. *)
Definition obj_value (o : KObject) : Z :=
  match o with
  | OAccount _ s => as_available s + as_reserved s
  | OEscrow _ s => es_available s + es_reserved s
  | _ => 0
  end.

(** The provider's bond: what is free and what is held. *)
Definition obj_bonded (o : KObject) : Z :=
  match o with OBond _ s => bs_available s + bs_held s | _ => 0 end.
Definition obj_held (o : KObject) : Z := match o with OBond _ s => bs_held s | _ => 0 end.
Definition obj_leases (o : KObject) : Z := match o with OLease _ _ => 1 | _ => 0 end.

Definition kinded (m : Objects) : Prop := map_Forall (fun k o => k.1 = kind_code (obj_kind o)) m.

Lemma kinded_insert m K id o : kinded m -> obj_kind o = K -> kinded (<[key K id := o]> m).
Proof. intros Hm <-. apply map_Forall_insert_2; done. Qed.

(** An object of a kind that does not count leaves a sum alone. *)
Lemma map_sum_other (f : KObject -> Z) m K id o :
  kinded m -> obj_kind o = K -> (forall o', obj_kind o' = K -> f o' = 0) ->
  map_sum f (<[key K id := o]> m) = map_sum f m.
Proof.
  intros Hm HK Hf. destruct (m !! key K id) as [old|] eqn:Hold.
  - rewrite (map_sum_insert _ _ _ _ old) by done. rewrite (Hf o), (Hf old); [lia| |done].
    apply Hm in Hold. by apply kind_code_inj.
  - rewrite map_sum_insert_new by done. rewrite Hf; [lia|done].
Qed.

(** Solve a sum over a map with several insertions of uncounted kinds. *)
Ltac kinds := repeat (apply kinded_insert; [|reflexivity]); assumption.
Ltac skip f := rewrite (map_sum_other f); [|kinds|reflexivity|intros []; (reflexivity || discriminate)].
Ltac skip_other := rewrite map_sum_other; [|kinds|reflexivity|intros []; (reflexivity || discriminate)].

Section ledger.
Context `{KernelCrates, !KernelLaws} (config : AgentMarketStoreConfigV1).
Implicit Types m : Objects.

Lemma opens_lanes_kinded b lanes : forall m m', kinded m -> opens_lanes config b lanes m m' -> kinded m'.
Proof.
  induction lanes as [|l lanes IH]; cbn; intros m m' Hm Ho; [by subst|].
  destruct Ho as (id & _ & _ & Ho). eapply IH; [|done]. kinds.
Qed.

Lemma opens_lanes_sum (f : KObject -> Z) b lanes : (forall o, obj_kind o = KindNonceLane -> f o = 0) ->
  forall m m', kinded m -> opens_lanes config b lanes m m' -> map_sum f m' = map_sum f m.
Proof.
  intros Hf. induction lanes as [|l lanes IH]; cbn; intros m m' Hm Ho; [by subst|].
  destruct Ho as (id & _ & _ & Ho). etrans; [eapply IH; [|exact Ho]; kinds|]. by rewrite map_sum_other.
Qed.

Lemma applies_kinded h c m m' : kinded m -> applies config h c m m' -> kinded m'.
Proof.
  intros Hm Ha. destruct Ha; try kinds. eapply opens_lanes_kinded; [|eassumption]. kinds.
Qed.

Lemma consumes_kinded h c m m1 m' : kinded m1 -> consumes config h c m m1 m' -> kinded m'.
Proof. intros Hm Hc. destruct Hc; kinds. Qed.

Lemma performs_kinded h c m m' : kinded m -> performs config h c m m' -> kinded m'.
Proof. intros Hm (m1 & Ha & Hc). eauto using applies_kinded, consumes_kinded. Qed.

(** The authorization's lane, capability and session carry no funds. *)
Lemma consumes_sum (f : KObject -> Z) h c m m1 m' :
  (forall o, obj_kind o ∈ [KindNonceLane; KindCapability; KindSessionGrant] -> f o = 0) ->
  kinded m1 -> consumes config h c m m1 m' -> map_sum f m' = map_sum f m1.
Proof.
  intros Hf Hm Hc.
  assert (H1 : forall o, obj_kind o = KindNonceLane -> f o = 0) by (intros o Ho; apply Hf; rewrite Ho; set_solver).
  assert (H2 : forall o, obj_kind o = KindCapability -> f o = 0) by (intros o Ho; apply Hf; rewrite Ho; set_solver).
  assert (H3 : forall o, obj_kind o = KindSessionGrant -> f o = 0) by (intros o Ho; apply Hf; rewrite Ho; set_solver).
  destruct Hc.
  - by rewrite map_sum_other.
  - by rewrite !map_sum_other by (done || kinds).
Qed.

Lemma not_authorization (f : KObject -> Z) :
  (forall b s, f (OLane b s) = 0) -> (forall b s, f (OCapability b s) = 0) -> (forall b s, f (OSession b s) = 0) ->
  forall o, obj_kind o ∈ [KindNonceLane; KindCapability; KindSessionGrant] -> f o = 0.
Proof. intros H1 H2 H3 [] Ho; auto; exfalso; cbn in Ho; set_solver. Qed.

(** ** Conservation *)

Lemma applies_value h c m m' : kinded m -> applies config h c m m' -> map_sum obj_value m' = map_sum obj_value m.
Proof.
  intros Hm Ha. destruct Ha.
  - skip_other; reflexivity.
  - etrans; [eapply opens_lanes_sum; [intros []; (reflexivity || discriminate)| |eassumption]; kinds|]. skip_other; reflexivity.
  - rewrite map_sum_insert_new by (rewrite !lookup_insert_ne by discriminate; eassumption). skip_other.
    erewrite map_sum_insert by eassumption. cbn. subst terms. lia.
  - skip_other; reflexivity.
  - skip_other. skip_other. erewrite map_sum_insert by (rewrite !lookup_insert_ne by discriminate; eassumption). do 2 skip_other.
    cbn. lia.
  - skip_other; reflexivity.
Qed.

Lemma applies_bonded h c m m' : kinded m -> applies config h c m m' -> map_sum obj_bonded m' = map_sum obj_bonded m.
Proof.
  intros Hm Ha. destruct Ha.
  - skip_other; reflexivity.
  - etrans; [eapply opens_lanes_sum; [intros []; (reflexivity || discriminate)| |eassumption]; kinds|]. skip_other; reflexivity.
  - do 3 skip_other; reflexivity.
  - skip_other; reflexivity.
  - skip_other. erewrite map_sum_insert by (rewrite !lookup_insert_ne by discriminate; eassumption). do 3 skip_other. cbn. lia.
  - skip_other; reflexivity.
Qed.

Lemma applies_held h c m m' : kinded m -> applies config h c m m' ->
  map_sum obj_held m' - hold config * map_sum obj_leases m' = map_sum obj_held m - hold config * map_sum obj_leases m.
Proof.
  intros Hm Ha. destruct Ha.
  - do 2 skip_other; reflexivity.
  - assert (Hsum : forall f : KObject -> Z, (forall o, obj_kind o = KindNonceLane -> f o = 0) ->
      (forall o, obj_kind o = KindSessionGrant -> f o = 0) -> map_sum f m' = map_sum f m).
    { intros f H1' H2'. etrans; [eapply opens_lanes_sum; [exact H1'| |eassumption]; kinds|].
      by apply map_sum_other. }
    rewrite !Hsum; [reflexivity|..]; intros []; (reflexivity || discriminate).
  - do 6 skip_other; reflexivity.
  - do 2 skip_other; reflexivity.
  - rewrite (map_sum_insert_new obj_leases) by (rewrite !lookup_insert_ne by discriminate; eassumption).
    do 4 skip obj_leases. skip obj_held.
    erewrite (map_sum_insert obj_held) by (rewrite !lookup_insert_ne by discriminate; eassumption).
    do 3 skip obj_held. cbn. lia.
  - skip obj_held. erewrite (map_sum_insert obj_leases) by eassumption. cbn. lia.
Qed.

Record funds_step m m' : Prop := {
  fs_value : map_sum obj_value m' = map_sum obj_value m;
  fs_bonded : map_sum obj_bonded m' = map_sum obj_bonded m;
  fs_held : map_sum obj_held m' - hold config * map_sum obj_leases m'
    = map_sum obj_held m - hold config * map_sum obj_leases m;
}.

(** Every step moves funds without creating or destroying any. *)
Lemma performs_funds h c m m' : kinded m -> performs config h c m m' -> funds_step m m'.
Proof.
  intros Hm (m1 & Ha & Hc). pose proof (applies_kinded _ _ _ _ Hm Ha) as Hm1.
  assert (Hsum : forall f : KObject -> Z, (forall o, obj_kind o ∈ [KindNonceLane; KindCapability; KindSessionGrant] -> f o = 0) ->
    map_sum f m' = map_sum f m1) by (intros; eapply consumes_sum; eauto).
  split; rewrite !Hsum by by apply not_authorization.
  - eauto using applies_value.
  - eauto using applies_bonded.
  - eauto using applies_held.
Qed.

(** ** The market graph *)

(** A task waiting for a lease: nothing of its escrow is reserved. *)
Definition open_task (ts : TaskStateV1) (es : EscrowStateV1) : Prop :=
  ts_status ts = 0 /\ ts_revision ts = 0 /\ ts_active_lease_id ts = None /\ es_active_reservations es = [].

(** A leased task: its one lease accepted one bid, whose price is reserved for it. *)
Definition leased_at m (id : Hash32V1) (ts : TaskStateV1) (es : EscrowStateV1) : Prop :=
  exists lid lb ls db ds e,
    ts_status ts = 1 /\ ts_revision ts = 1 /\ ts_active_lease_id ts = Some lid /\
    m !! key KindLease lid = Some (OLease lb ls) /\ lb_task_id lb = id /\ lb_escrow_id lb = ts_escrow_id ts /\
    m !! key KindBid (lb_accepted_bid_id lb) = Some (OBid db ds) /\
    bt_status ds = 1 /\ bt_accepted_lease_id ds = Some lid /\
    lb_provider_agent_id lb = bd_provider_agent_id db /\
    es_active_reservations es = [e] /\ er_amount e = bd_maximum_price db /\ er_source_object_id e = lid.

Record market m : Prop := {
  mk_task id tb ts : m !! key KindTask id = Some (OTask tb ts) ->
    exists eb es, m !! key KindEscrow (ts_escrow_id ts) = Some (OEscrow eb es) /\ eb_task_id eb = id /\
      (open_task ts es \/ leased_at m id ts es);
  mk_escrow id eb es : m !! key KindEscrow id = Some (OEscrow eb es) ->
    (exists tb ts, m !! key KindTask (eb_task_id eb) = Some (OTask tb ts) /\ ts_escrow_id ts = id) /\
    es_available es + es_reserved es = eb_funded_amount eb /\
    es_reserved es = lsum er_amount (es_active_reservations es) /\ es_closed es = false;
  mk_lease id lb ls : m !! key KindLease id = Some (OLease lb ls) ->
    (ls_status ls = 0 \/ ls_status ls = 1) /\
    exists tb ts, m !! key KindTask (lb_task_id lb) = Some (OTask tb ts) /\ ts_active_lease_id ts = Some id;
  mk_bid id db ds : m !! key KindBid id = Some (OBid db ds) ->
    (exists tb ts, m !! key KindTask (bd_task_id db) = Some (OTask tb ts)) /\
    (bt_status ds = 0 /\ bt_accepted_lease_id ds = None \/
     bt_status ds = 1 /\ exists lid lb ls, bt_accepted_lease_id ds = Some lid /\
       m !! key KindLease lid = Some (OLease lb ls) /\ lb_accepted_bid_id lb = id);
}.

(** The graph reads only four kinds. *)
Definition graph_kind (K : ObjectKindV1) : bool :=
  match K with KindTask | KindEscrow | KindLease | KindBid => true | _ => false end.

Lemma market_agree m m' : (forall K id, graph_kind K = true -> m' !! key K id = m !! key K id) -> market m -> market m'.
Proof.
  intros Hag [H1 H2 H3 H4].
  pose proof (fun id => Hag KindTask id eq_refl) as HT. pose proof (fun id => Hag KindEscrow id eq_refl) as HE.
  pose proof (fun id => Hag KindLease id eq_refl) as HL. pose proof (fun id => Hag KindBid id eq_refl) as HB.
  split.
  - intros id tb ts. rewrite HT. intros Ht. destruct (H1 _ _ _ Ht) as (eb & es & He & Hid & Hs).
    exists eb, es. rewrite HE. split_and!; [done..|]. destruct Hs as [Hs|(lid & lb & ls & db & ds & e & Hs)]; [by left|].
    right. exists lid, lb, ls, db, ds, e. by rewrite HL, HB.
  - intros id eb es. rewrite HE. intros He. destruct (H2 _ _ _ He) as ((tb & ts & Ht) & Hs).
    split; [|done]. exists tb, ts. by rewrite HT.
  - intros id lb ls. rewrite HL. intros Hl. destruct (H3 _ _ _ Hl) as (Hs & tb & ts & Ht).
    split; [done|]. exists tb, ts. by rewrite HT.
  - intros id db ds. rewrite HB. intros Hb. destruct (H4 _ _ _ Hb) as ((tb & ts & Ht) & Hs).
    split; [exists tb, ts; by rewrite HT|]. destruct Hs as [Hs|(Hs & lid & lb & ls & Hl)]; [by left|].
    right. split; [done|]. exists lid, lb, ls. by rewrite HL.
Qed.

Lemma market_other m K id o : graph_kind K = false -> market m -> market (<[key K id := o]> m).
Proof.
  intros HK. apply market_agree. intros K' id' HK'. apply lookup_insert_ne. unfold key.
  intros [= Hk%kind_code_inj _]. congruence.
Qed.

Lemma opens_lanes_market b lanes : forall m m', opens_lanes config b lanes m m' -> market m -> market m'.
Proof.
  induction lanes as [|l lanes IH]; cbn; intros m m' Ho Hm; [by subst|].
  destruct Ho as (id & _ & _ & Ho). eapply IH; [exact Ho|]. by apply market_other.
Qed.

Lemma consumes_market h c m m1 m' : consumes config h c m m1 m' -> market m1 -> market m'.
Proof. intros Hc Hm. destruct Hc; repeat (apply market_other; [reflexivity|]); exact Hm. Qed.

(** Look through insertions at other kinds; split on the identifier at the same kind. *)
Ltac other_kind := repeat rewrite lookup_insert_ne by discriminate.
Ltac at_key Hx := repeat (rewrite lookup_insert_ne in Hx by discriminate).

Lemma key_inj K id id' : key K id = key K id' -> id = id'.
Proof. by intros [= ->]. Qed.

Lemma market_new_task m id e tb ts eb es :
  m !! key KindTask id = None -> m !! key KindEscrow e = None ->
  ts_escrow_id ts = e -> eb_task_id eb = id -> open_task ts es ->
  es_available es = eb_funded_amount eb -> es_reserved es = 0 -> es_closed es = false -> market m ->
  market (<[key KindEscrow e := OEscrow eb es]> (<[key KindTask id := OTask tb ts]> m)).
Proof.
  intros HnT HnE He Hid Hopen Hav Hres Hcl [H1 H2 H3 H4].
  assert (Hreserv : es_active_reservations es = []) by apply Hopen. split.
  - intros id' tb' ts' Hl. at_key Hl. apply lookup_insert_Some in Hl as [[<-%key_inj [= <- <-]]|[Hne Hl]].
    + exists eb, es. rewrite He, lookup_insert_eq. auto.
    + destruct (H1 _ _ _ Hl) as (eb' & es' & He' & Hid' & Hs). exists eb', es'.
      rewrite lookup_insert_ne by congruence. other_kind. split_and!; [done..|].
      destruct Hs as [Hs|(lid & lb & ls & db & ds & en & Hs)]; [by left|]. right. exists lid, lb, ls, db, ds, en.
      other_kind. exact Hs.
  - intros id' eb' es' Hl. apply lookup_insert_Some in Hl as [[<-%key_inj [= <- <-]]|[Hne Hl]].
    + split; [|by rewrite Hreserv, lsum_nil; split_and!; lia || done].
      exists tb, ts. other_kind. by rewrite Hid, lookup_insert_eq.
    + at_key Hl. destruct (H2 _ _ _ Hl) as ((tb' & ts' & Ht' & Hts') & Hs). split; [|done].
      exists tb', ts'. other_kind. rewrite lookup_insert_ne by congruence. done.
  - intros id' lb ls Hl. at_key Hl. destruct (H3 _ _ _ Hl) as (Hs & tb' & ts' & Ht' & Ha). split; [done|].
    exists tb', ts'. other_kind. rewrite lookup_insert_ne by congruence. done.
  - intros id' db ds Hl. at_key Hl. destruct (H4 _ _ _ Hl) as ((tb' & ts' & Ht') & Hs). split.
    + exists tb', ts'. other_kind. rewrite lookup_insert_ne by congruence. done.
    + destruct Hs as [Hs|(Hs & lid & lb & ls & Hs')]; [by left|]. right. split; [done|]. exists lid, lb, ls.
      other_kind. exact Hs'.
Qed.

Lemma market_new_bid m id db ds tb ts :
  m !! key KindBid id = None -> m !! key KindTask (bd_task_id db) = Some (OTask tb ts) ->
  bt_status ds = 0 -> bt_accepted_lease_id ds = None -> market m -> market (<[key KindBid id := OBid db ds]> m).
Proof.
  intros Hn Ht Hst Hac [H1 H2 H3 H4]. split.
  - intros id' tb' ts' Hl. at_key Hl. destruct (H1 _ _ _ Hl) as (eb' & es' & He' & Hid' & Hs). exists eb', es'.
    other_kind. split_and!; [done..|]. destruct Hs as [Hs|(lid & lb & ls & db' & ds' & en & Hs)]; [by left|].
    right. exists lid, lb, ls, db', ds', en. other_kind. rewrite lookup_insert_ne; [exact Hs|].
    intros Heq. destruct Hs as (_ & _ & _ & _ & _ & _ & Hb & _). congruence.
  - intros id' eb' es' Hl. at_key Hl. destruct (H2 _ _ _ Hl) as ((tb' & ts' & Ht') & Hs).
    split; [exists tb', ts'; by other_kind|done].
  - intros id' lb ls Hl. at_key Hl. destruct (H3 _ _ _ Hl) as (Hs & tb' & ts' & Ht').
    split; [done|exists tb', ts'; by other_kind].
  - intros id' db' ds' Hl. apply lookup_insert_Some in Hl as [[<-%key_inj [= <- <-]]|[Hne Hl]].
    + split; [|by left]. exists tb, ts. by other_kind.
    + destruct (H4 _ _ _ Hl) as ((tb' & ts' & Ht') & Hs). split; [exists tb', ts'; by other_kind|].
      destruct Hs as [Hs|(Hs & lid & lb & ls & Hs')]; [by left|]. right. split; [done|]. exists lid, lb, ls. by other_kind.
Qed.

Lemma market_accept m id lb ls h :
  m !! key KindLease id = Some (OLease lb ls) -> market m ->
  market (<[key KindLease id := OLease lb (accepted_lease h ls)]> m).
Proof.
  intros Hl [H1 H2 H3 H4].
  assert (Hsame : forall id' lb' ls', m !! key KindLease id' = Some (OLease lb' ls') ->
    exists ls'', <[key KindLease id := OLease lb (accepted_lease h ls)]> m !! key KindLease id' = Some (OLease lb' ls'')).
  { intros id' lb' ls' Hx. destruct (decide (id' = id)) as [->|Hne].
    - rewrite lookup_insert_eq. rewrite Hl in Hx. injection Hx as <- <-. eauto.
    - rewrite lookup_insert_ne by (intros E%key_inj; congruence). eauto. }
  split.
  - intros id' tb' ts' Ht. at_key Ht. destruct (H1 _ _ _ Ht) as (eb' & es' & He' & Hid' & Hs). exists eb', es'.
    other_kind. split_and!; [done..|]. destruct Hs as [Hs|(lid & lb' & ls' & db' & ds' & en & Hs)]; [by left|].
    destruct Hs as (? & ? & ? & Hlease & Hrest). destruct (Hsame _ _ _ Hlease) as [ls'' Hls].
    right. exists lid, lb', ls'', db', ds', en. do 3 (split; [done|]). split; [exact Hls|]. other_kind. exact Hrest.
  - intros id' eb' es' He. at_key He. destruct (H2 _ _ _ He) as ((tb' & ts' & Ht') & Hs).
    split; [exists tb', ts'; by other_kind|done].
  - intros id' lb' ls' Hx. apply lookup_insert_Some in Hx as [[<-%key_inj [= <- <-]]|[Hne Hx]].
    + destruct (H3 _ _ _ Hl) as (_ & tb' & ts' & Ht'). split; [by right|]. exists tb', ts'. by other_kind.
    + destruct (H3 _ _ _ Hx) as (Hs & tb' & ts' & Ht'). split; [done|]. exists tb', ts'. by other_kind.
  - intros id' db' ds' Hb. at_key Hb. destruct (H4 _ _ _ Hb) as ((tb' & ts' & Ht) & Hs). split.
    + exists tb', ts'. by other_kind.
    + destruct Hs as [Hs|(Hs & lid & lb' & ls' & Hac & Hlease & Hbid)]; [by left|]. right. split; [done|].
      destruct (Hsame _ _ _ Hlease) as [ls'' Hls]. eauto 10.
Qed.

(** Accepting a bid: the task, the bid and the escrow change together. *)
Lemma market_new_lease m h id root lb ls tb ts db ds eb es :
  m !! key KindTask (lb_task_id lb) = Some (OTask tb ts) ->
  m !! key KindBid (lb_accepted_bid_id lb) = Some (OBid db ds) ->
  m !! key KindEscrow (ts_escrow_id ts) = Some (OEscrow eb es) ->
  m !! key KindLease id = None ->
  ts_status ts = 0 -> ts_revision ts = 0 -> bt_status ds = 0 -> ls_status ls = 0 ->
  es_active_reservations es = [] -> lb_escrow_id lb = ts_escrow_id ts ->
  lb_provider_agent_id lb = bd_provider_agent_id db -> market m ->
  market (<[key KindLease id := OLease lb ls]>
    (<[key KindEscrow (ts_escrow_id ts) := OEscrow eb (reserved_escrow (bd_maximum_price db)
        (lease_reservation h id eb (bd_maximum_price db)) root es)]>
      (<[key KindBid (lb_accepted_bid_id lb) := OBid db (accepted_bid id h ds)]>
        (<[key KindTask (lb_task_id lb) := OTask tb (leased_task id (lb_start_deadline_height lb) ts)]> m)))).
Proof.
  intros HT HB HE HnL Hst Hrev Hbst Hlst Hres Hesc Hprov [H1 H2 H3 H4].
  destruct (H1 _ _ _ HT) as (eb0 & es0 & HE0 & Hown & _). rewrite HE in HE0. injection HE0 as <- <-.
  split.
  - intros id' tb' ts' Hl. at_key Hl. apply lookup_insert_Some in Hl as [[<-%key_inj [= <- <-]]|[Hne Hl]].
    + exists eb. eexists. cbn. other_kind. rewrite lookup_insert_eq. split_and!; [done..|]. right.
      exists id, lb, ls, db. do 2 eexists. cbn. rewrite Hres, Hrev. do 3 (split; [done|]).
      split; [by rewrite lookup_insert_eq|]. do 2 (split; [done|]).
      split; [other_kind; by rewrite lookup_insert_eq|]. done.
    + destruct (H1 _ _ _ Hl) as (eb' & es' & He' & Hid' & Hs). exists eb', es'. other_kind.
      rewrite lookup_insert_ne.
      2:{ intros Heq%key_inj. rewrite <- Heq, HE in He'. injection He' as <- <-. apply Hne. by rewrite <- Hown, Hid'. }
      other_kind. split_and!; [done..|].
      destruct Hs as [Hs|(lid & lb' & ls' & db' & ds' & en & ? & ? & ? & Hlease & ? & ? & Hbid & Hst1 & Hrest)]; [by left|].
      right. exists lid, lb', ls', db', ds', en. do 3 (split; [done|]).
      split; [rewrite lookup_insert_ne by congruence; by other_kind|]. do 2 (split; [done|]). split; [|done].
      other_kind. rewrite lookup_insert_ne; [by other_kind|]. intros Heq%key_inj. rewrite <- Heq, HB in Hbid.
      injection Hbid as <- <-. lia.
  - intros id' eb' es' Hl. at_key Hl.
    assert (Htask : forall t tb' ts', m !! key KindTask t = Some (OTask tb' ts') -> exists tb'' ts'',
      <[key KindTask (lb_task_id lb) := OTask tb (leased_task id (lb_start_deadline_height lb) ts)]> m !! key KindTask t
        = Some (OTask tb'' ts'') /\ ts_escrow_id ts'' = ts_escrow_id ts').
    { intros t tb' ts' Ht. destruct (decide (t = lb_task_id lb)) as [->|Hne].
      - rewrite HT in Ht. injection Ht as <- <-. rewrite lookup_insert_eq. eauto.
      - rewrite lookup_insert_ne by (intros E%key_inj; congruence). eauto. }
    apply lookup_insert_Some in Hl as [[<-%key_inj [= <- <-]]|[Hne Hl]].
    + destruct (H2 _ _ _ HE) as ((tb' & ts' & Ht' & Hte) & Hs). destruct (Htask _ _ _ Ht') as (tb'' & ts'' & Ht'' & He'').
      split; [exists tb'', ts''; other_kind; split; [done|congruence]|]. cbn. rewrite Hres in *. cbn.
      rewrite lsum_nil in Hs. split_and!; [lia..|apply Hs].
    + at_key Hl. destruct (H2 _ _ _ Hl) as ((tb' & ts' & Ht' & Hte) & Hs). destruct (Htask _ _ _ Ht') as (tb'' & ts'' & Ht'' & He'').
      split; [exists tb'', ts''; other_kind; split; [done|congruence]|done].
  - intros id' lb' ls' Hl. apply lookup_insert_Some in Hl as [[<-%key_inj [= <- <-]]|[Hne Hl]].
    + split; [by left|]. do 2 eexists. other_kind. rewrite lookup_insert_eq. done.
    + at_key Hl. destruct (H3 _ _ _ Hl) as (Hs & tb' & ts' & Ht' & Hact). split; [done|]. exists tb', ts'.
      other_kind. rewrite lookup_insert_ne; [done|]. intros Heq%key_inj. rewrite <- Heq, HT in Ht'. injection Ht' as <- <-.
      destruct (H1 _ _ _ HT) as (? & ? & _ & _ & [Ho|(? & ? & ? & ? & ? & ? & Ho)]); [destruct Ho as (_ & _ & Ho & _); congruence|].
      destruct Ho as [Ho _]. lia.
  - intros id' db' ds' Hl. at_key Hl.
    assert (Htb : forall t tb' ts', m !! key KindTask t = Some (OTask tb' ts') -> exists tb'' ts'',
      <[key KindTask (lb_task_id lb) := OTask tb (leased_task id (lb_start_deadline_height lb) ts)]> m !! key KindTask t
        = Some (OTask tb'' ts'')).
    { intros t tb' ts' Ht. destruct (decide (t = lb_task_id lb)) as [->|Hne]; [rewrite lookup_insert_eq; eauto|].
      rewrite lookup_insert_ne by (intros E%key_inj; congruence). eauto. }
    apply lookup_insert_Some in Hl as [[<-%key_inj [= <- <-]]|[Hne Hl]].
    + destruct (H4 _ _ _ HB) as ((tb' & ts' & Ht') & _). destruct (Htb _ _ _ Ht') as (tb'' & ts'' & Ht'').
      split; [exists tb'', ts''; by other_kind|]. right. split; [done|]. exists id, lb, ls. split; [done|].
      by rewrite lookup_insert_eq.
    + at_key Hl. destruct (H4 _ _ _ Hl) as ((tb' & ts' & Ht') & Hs). destruct (Htb _ _ _ Ht') as (tb'' & ts'' & Ht'').
      split; [exists tb'', ts''; by other_kind|]. destruct Hs as [Hs|(Hs & lid & lb' & ls' & Hac & Hlease & Hb)]; [by left|].
      right. split; [done|]. exists lid, lb', ls'. split_and!; [done| |done]. rewrite lookup_insert_ne by congruence. by other_kind.
Qed.

Lemma applies_market h c m m' : market m -> applies config h c m m' -> market m'.
Proof.
  intros Hm Ha. destruct Ha.
  - apply market_other; [reflexivity|exact Hm].
  - eapply opens_lanes_market; [eassumption|]. apply market_other; [reflexivity|exact Hm].
  - apply market_new_task; rewrite ?lookup_insert_ne by discriminate; try eassumption; try reflexivity; [done|].
    apply market_other; [reflexivity|exact Hm].
  - eapply market_new_bid; try eassumption; reflexivity.
  - match goal with He : ts_escrow_id _ = lb_escrow_id _ |- _ => rewrite <- He in * end.
    rewrite (insert_insert_ne _ (key KindLease _)) by discriminate.
    apply market_other; [reflexivity|]. eapply market_new_lease; try eassumption; (reflexivity || by symmetry).
  - apply market_accept; assumption.
Qed.

(** Every step preserves the graph. *)
Lemma performs_market h c m m' : market m -> performs config h c m m' -> market m'.
Proof. intros Hm (m1 & Ha & Hc). eauto using applies_market, consumes_market. Qed.

End ledger.
