(* ===== verification/KernelBudgets.v ===== *)
(** * KernelBudgets: what the journal says of nonces and budgets

    The counters of a map of objects are functions of the journaled commands: a
    lane's commands carry the nonces 0, 1, 2, ... without gap or repetition, and a
    capability's and a session's counters are the sums of the charges of the
    commands they authorized.  [accounted] states it, and every step of the abstract
    kernel preserves it with its command appended. *)

From stdpp Require Import base gmap list sorting strings.
From S2P Require Import Prelude Crypto KernelTypes KernelStore KernelAudit Kernel KernelService KernelObjects KernelSteps KernelLedger.

(** The statement a command was signed with, and its charge. *)
Abbreviation stmt c := (ka_statement (KernelTypes.authorization c)).

Definition charge_of (c : KernelCommandV1) : KernelResourceChargeV1 :=
  match c with
  | TaskCreate _ ch _ | Bid _ ch _ | LeaseAccept _ _ _ _ ch _ | ProviderAccept _ _ ch _ => ch
  | CapabilityGrant _ _ | SessionGrant _ _ => mkResourceCharge [] 0 0 0 0 0
  end.

Definition asset_charge (asset : Hash32V1) (c : KernelCommandV1) : Z :=
  lsum (fun q => if ch_asset_id q =?? asset then ch_amount q else 0) (rc_asset_charges (charge_of c)).

Definition by_capability (id : Hash32V1) (js : list KernelCommandV1) : list KernelCommandV1 :=
  filter (fun c => au_capability_id (stmt c) = Some id) js.
Definition by_session (id : Hash32V1) (js : list KernelCommandV1) : list KernelCommandV1 :=
  filter (fun c => au_session_key_grant_id (stmt c) = Some id) js.

Section budgets.
Context `{KernelCrates, !KernelLaws} (config : AgentMarketStoreConfigV1).
Implicit Types m : Objects.

Definition lane_of (c : KernelCommandV1) : option Hash32V1 :=
  match nonce_lane_id (statement_lane config (stmt c)) with Ok id => Some id | _ => None end.
Definition by_lane (id : Hash32V1) (js : list KernelCommandV1) : list KernelCommandV1 :=
  filter (fun c => lane_of c = Some id) js.

(** The nonces of a lane are consecutive from zero up to its next nonce. *)
Definition lane_exact (s : NonceLaneStateV1) (cs : list KernelCommandV1) : Prop :=
  0 <= ns_next_nonce s /\ (fun c => au_nonce (stmt c)) <$> cs = seqZ 0 (ns_next_nonce s) /\
  ns_state_version s = ns_next_nonce s.

Record budget_exact (b : CapabilityGrantBodyV1) (s : CapabilityBudgetStateV1) (cs : list KernelCommandV1) : Prop := {
  be_operations : cb_operations_spent s = zlen cs /\ cb_operations_spent s <= cg_max_total_operations b;
  be_fee : cb_fee_spent s = lsum (fun c => rc_fee (charge_of c)) cs /\ cb_fee_spent s <= cg_fee_limit b;
  be_gas : cb_gas_spent s = lsum (fun c => rc_gas (charge_of c)) cs /\ cb_gas_spent s <= cg_gas_limit b;
  be_da : cb_da_bytes_spent s = lsum (fun c => rc_da_bytes (charge_of c)) cs /\ cb_da_bytes_spent s <= cg_da_byte_limit b;
  be_retention : cb_retention_spent s = lsum (fun c => rc_retention (charge_of c)) cs /\ cb_retention_spent s <= cg_artifact_retention_limit b;
  be_assets : Forall2 (fun l a => ac_asset_id a = al_asset_id l /\ ac_limit a = al_maximum_amount l /\ ac_reserved a = 0 /\
      ac_spent a = lsum (asset_charge (al_asset_id l)) cs /\ ac_spent a <= al_maximum_amount l) (cg_spend_limits b) (cb_asset_counters s);
  be_limits : cb_fee_limit s = cg_fee_limit b /\ cb_gas_limit s = cg_gas_limit b /\ cb_da_byte_limit s = cg_da_byte_limit b /\
    cb_retention_limit s = cg_artifact_retention_limit b /\ cb_operation_limit s = cg_max_total_operations b;
  be_reserved : cb_fee_reserved s = 0 /\ cb_gas_reserved s = 0 /\ cb_da_bytes_reserved s = 0 /\
    cb_retention_reserved s = 0 /\ cb_operations_reserved s = 0;
  be_rate : cb_rate_window_operations s <= cg_rate_max_operations b;
}.

Record accounted m (js : list KernelCommandV1) : Prop := {
  at_lane id b s : m !! key KindNonceLane id = Some (OLane b s) -> lane_exact s (by_lane id js);
  at_no_lane id : m !! key KindNonceLane id = None -> by_lane id js = [];
  at_capability id b s : m !! key KindCapability id = Some (OCapability b s) ->
    NoDup (al_asset_id <$> cg_spend_limits b) /\ budget_exact b (cs_budget s) (by_capability id js);
  at_no_capability id : m !! key KindCapability id = None -> by_capability id js = [];
  at_session id b s : m !! key KindSessionGrant id = Some (OSession b s) ->
    ss_operations_spent s = zlen (by_session id js) /\ ss_operations_spent s <= sg_max_total_operations b;
  at_no_session id : m !! key KindSessionGrant id = None -> by_session id js = [];
}.

(** ** Frames *)

Definition account_kind (K : ObjectKindV1) : bool :=
  match K with KindNonceLane | KindCapability | KindSessionGrant => true | _ => false end.

Lemma accounted_agree m m' js :
  (forall K id, account_kind K = true -> m' !! key K id = m !! key K id) -> accounted m js -> accounted m' js.
Proof.
  intros Hag [H1 H2 H3 H4 H5 H6].
  split; intros id; rewrite Hag by reflexivity; eauto.
Qed.

Lemma accounted_other m js K id o : account_kind K = false -> accounted m js -> accounted (<[key K id := o]> m) js.
Proof.
  intros HK. apply accounted_agree. intros K' id' HK'. apply lookup_insert_ne. unfold key.
  intros [= Hk%kind_code_inj _]. congruence.
Qed.

Lemma accounted_new_lane m js id b :
  m !! key KindNonceLane id = None -> accounted m js ->
  accounted (<[key KindNonceLane id := OLane b (initial_lane id b)]> m) js.
Proof.
  intros Hn [H1 H2 H3 H4 H5 H6]. split; intros id'; rewrite ?lookup_insert_ne by discriminate; eauto.
  - intros b' s' [[<-%key_inj [= <- <-]]|[_ Hl]]%lookup_insert_Some; [|eauto].
    rewrite H2 by done. done.
  - intros [Hl _]%lookup_insert_None. eauto.
Qed.

Lemma accounted_new_capability m js id b h :
  m !! key KindCapability id = None -> NoDup (al_asset_id <$> cg_spend_limits b) -> typed_cg b = true -> accounted m js ->
  accounted (<[key KindCapability id := OCapability b (initial_capability config h id b)]> m) js.
Proof.
  intros Hn Hnd Ht [H1 H2 H3 H4 H5 H6]. split; intros id'; rewrite ?lookup_insert_ne by discriminate; eauto.
  - intros b' s' [[<-%key_inj [= <- <-]]|[_ Hl]]%lookup_insert_Some; [|eauto].
    rewrite H4 by done. split; [done|]. typed_hyp Ht. widths. split; cbn; try (split_and!; lia || done).
    + apply Forall2_fmap_r, Forall_Forall2_diag, Forall_forall. intros l Hl. cbn. split_and!; try done.
      match goal with Hf : forallb typed_al _ = true |- _ => rewrite forallb_forall in Hf; specialize (Hf l) end.
      assert (Hal : typed_al l = true) by (match goal with Hf : In l _ -> _ |- _ => apply Hf end; by apply list_elem_of_In).
      typed_hyp Hal. widths. lia.
    + lia.
  - intros [Hl _]%lookup_insert_None. eauto.
Qed.

Lemma accounted_new_session m js id b cs h :
  m !! key KindSessionGrant id = None -> typed_sg b = true -> accounted m js ->
  accounted (<[key KindSessionGrant id := OSession b (initial_session config h id b cs)]> m) js.
Proof.
  intros Hn Ht [H1 H2 H3 H4 H5 H6]. split; intros id'; rewrite ?lookup_insert_ne by discriminate; eauto.
  - intros b' s' [[<-%key_inj [= <- <-]]|[_ Hl]]%lookup_insert_Some; [|eauto].
    rewrite H6 by done. cbn. typed_hyp Ht. widths. split; [done|lia].
  - intros [Hl _]%lookup_insert_None. eauto.
Qed.

Lemma opens_lanes_accounted b lanes : forall m m' js,
  opens_lanes config b lanes m m' -> accounted m js -> accounted m' js.
Proof.
  induction lanes as [|l lanes IH]; cbn; intros m m' js Ho Hm; [by subst|].
  destruct Ho as (id & _ & Hn & Ho). eapply IH; [exact Ho|]. by apply accounted_new_lane.
Qed.

Lemma applies_accounted h c m m' js : typed_command c = true -> accounted m js -> applies config h c m m' -> accounted m' js.
Proof.
  intros Ht Hm Ha. destruct Ha; cbn in Ht; rewrite ?andb_true_iff in Ht;
    try (repeat (apply accounted_other; [reflexivity|]); exact Hm).
  - apply accounted_new_capability; tauto.
  - eapply opens_lanes_accounted; [eassumption|]. apply accounted_new_session; tauto.
Qed.

Lemma opens_lanes_keeps b lanes : forall m m' k o, opens_lanes config b lanes m m' -> m !! k = Some o -> m' !! k = Some o.
Proof.
  induction lanes as [|l lanes IH]; cbn; intros m m' k o Ho Hm; [by subst|].
  destruct Ho as (id & _ & Hn & Ho). eapply IH; [exact Ho|]. rewrite lookup_insert_ne; [done|congruence].
Qed.

(** The handlers never touch an existing lane, capability or session. *)
Lemma applies_keeps h c m m' K id o :
  account_kind K = true -> applies config h c m m' -> m !! key K id = Some o -> m' !! key K id = Some o.
Proof.
  intros HK Ha Ho.
  assert (Hne : forall K' id', account_kind K' = false -> key K' id' <> key K id).
  { unfold key. intros K' id' HK' [= Hk%kind_code_inj _]. congruence. }
  destruct Ha; rewrite ?lookup_insert_ne by (apply Hne; reflexivity); try exact Ho.
  - rewrite lookup_insert_ne; [exact Ho|congruence].
  - eapply opens_lanes_keeps; [eassumption|]. rewrite lookup_insert_ne; [exact Ho|congruence].
Qed.

(** ** Charging the counters of a capability *)

Definition charges_for (asset : Hash32V1) (qs : list AssetChargeV1) : Z :=
  lsum (fun q => if ch_asset_id q =?? asset then ch_amount q else 0) qs.

Definition counter_step (qs : list AssetChargeV1) (a a' : AssetBudgetCounterV1) : Prop :=
  ac_asset_id a' = ac_asset_id a /\ ac_limit a' = ac_limit a /\ ac_reserved a' = ac_reserved a /\
  ac_spent a' = ac_spent a + charges_for (ac_asset_id a) qs /\
  (ac_spent a + ac_reserved a <= ac_limit a -> ac_spent a' + ac_reserved a' <= ac_limit a').

Lemma counter_step_other qs a : charges_for (ac_asset_id a) qs = 0 -> counter_step qs a a.
Proof. intros Hz. unfold counter_step. rewrite Hz. split_and!; try done; lia. Qed.

Lemma charge_counter_step l q l' : NoDup (ac_asset_id <$> l) -> charge_counter l q = Ok l' -> Forall2 (counter_step [q]) l l'.
Proof.
  intros Hnd (l1 & a & l2 & -> & Ha & Hlim & _ & -> & Hn)%charge_counter_inv.
  rewrite fmap_app in Hnd. apply NoDup_app in Hnd as (_ & Hd & Hnd). cbn in Hnd. apply NoDup_cons in Hnd as [Hn2 _].
  assert (Hother : forall x, ac_asset_id x <> ch_asset_id q -> counter_step [q] x x).
  { intros x Hx. apply counter_step_other. unfold charges_for. rewrite lsum_cons, lsum_nil.
    rewrite bool_decide_false by congruence. lia. }
  apply Forall2_app; [|constructor].
  - apply Forall_Forall2_diag, Forall_forall. intros x Hx. apply Hother. intros E. apply Hn.
    rewrite <- E. by apply list_elem_of_fmap_2.
  - unfold counter_step, charges_for. rewrite lsum_cons, lsum_nil. rewrite bool_decide_true by done. cbn. split_and!; try done; lia.
  - apply Forall_Forall2_diag, Forall_forall. intros x Hx. apply Hother. intros E. apply Hn2.
    rewrite Ha, <- E. by apply list_elem_of_fmap_2.
Qed.

Lemma Forall2_compose {A B C} (P : A -> B -> Prop) (Q : B -> C -> Prop) (R : A -> C -> Prop) l k j :
  (forall a b c, P a b -> Q b c -> R a c) -> Forall2 P l k -> Forall2 Q k j -> Forall2 R l j.
Proof.
  intros HPQ HP. revert j. induction HP as [|a b l k Hab _ IH]; intros j HQ; inversion HQ; subst; constructor; eauto.
Qed.

Lemma charge_counters_step qs : forall l l', NoDup (ac_asset_id <$> l) ->
  try_fold charge_counter l qs = Ok l' -> Forall2 (counter_step qs) l l'.
Proof.
  induction qs as [|q qs IH]; cbn; intros l l' Hnd Hc.
  - injection Hc as <-. apply Forall_Forall2_diag, Forall_forall. intros x _. by apply counter_step_other.
  - rinv. pose proof (charge_counter_step _ _ _ Hnd Hr) as Hs.
    assert (Hassets : ac_asset_id <$> r = ac_asset_id <$> l).
    { clear -Hs. induction Hs as [|a a' l l' Ha _ IHl]; [done|]. rewrite !fmap_cons, IHl. f_equal. apply Ha. }
    apply IH in Hc; [|by rewrite Hassets].
    eapply Forall2_compose; [|exact Hs|exact Hc].
    intros a a1 a2 (E1 & E2 & E3 & E4 & E5) (F1 & F2 & F3 & F4 & F5).
    unfold counter_step, charges_for in *. rewrite lsum_cons, lsum_nil in E4. rewrite lsum_cons.
    rewrite E1 in *. split_and!; congruence || lia.
Qed.

Lemma lsum_snoc {A} (f : A -> Z) l a : lsum f (l ++ [a]) = lsum f l + f a.
Proof. rewrite lsum_app, lsum_cons, lsum_nil. lia. Qed.

Lemma budget_exact_step h b s s' cs c :
  NoDup (al_asset_id <$> cg_spend_limits b) -> budget_exact b (cs_budget s) cs ->
  charged h b s s' (charge_of c) -> budget_exact b (cs_budget s') (cs ++ [c]).
Proof.
  intros Hnd [Hop Hfee Hgas Hda Hret Has Hlim Hres Hrate] [_ _ [_ Hop'] Hassets _ Hsp Hle Hfix [Hrate' _]].
  assert (Hids : ac_asset_id <$> cb_asset_counters (cs_budget s) = al_asset_id <$> cg_spend_limits b).
  { clear -Has. induction Has as [|l a ls cs' Ha _ IH]; [done|]. rewrite !fmap_cons, IH. f_equal. apply Ha. }
  split; rewrite ?lsum_snoc, ?zlen_snoc; try lia.
  apply charge_counters_step in Hassets; [|by rewrite Hids].
  clear -Has Hassets. revert Hassets. generalize (cb_asset_counters (cs_budget s')).
  induction Has as [|l a ls cs0 Ha _ IH]; intros k Hk; inversion Hk as [|? a' ? k' Hst Hk']; subst; constructor; [|by apply IH].
  destruct Ha as (E1 & E2 & E3 & E4 & E5), Hst as (F1 & F2 & F3 & F4 & F5).
  rewrite lsum_snoc. unfold asset_charge at 2. unfold charges_for in F4. rewrite E1 in F4.
  split_and!; try congruence; lia.
Qed.

(** ** Consuming an authorization *)

Lemma filter_snoc {A} (P : A -> Prop) `{!forall x, Decision (P x)} l x :
  filter P (l ++ [x]) = if decide (P x) then filter P l ++ [x] else filter P l.
Proof. rewrite filter_app, filter_cons, filter_nil. case_decide; [done|by rewrite app_nil_r]. Qed.

Lemma command_charge_of c ch : command_charge c = Ok ch -> ch = charge_of c.
Proof. destruct c; cbn; intros Hc; kinv; done. Qed.

Lemma lane_exact_step s cs c d : lane_exact s cs -> ns_next_nonce s = au_nonce (stmt c) -> lane_exact (consumed_lane d s) (cs ++ [c]).
Proof.
  intros (Hpos & Hseq & Hv) Hn. split_and!; cbn; [lia| |lia].
  rewrite fmap_app, Hseq, seqZ_app by lia. do 2 f_equal. cbn. by rewrite Hn.
Qed.

Lemma accounted_lane m js c id b s d :
  lane_of c = Some id -> m !! key KindNonceLane id = Some (OLane b s) -> ns_next_nonce s = au_nonce (stmt c) ->
  accounted m js ->
  (forall id' b' s', <[key KindNonceLane id := OLane b (consumed_lane d s)]> m !! key KindNonceLane id' = Some (OLane b' s') ->
     lane_exact s' (by_lane id' (js ++ [c]))) /\
  (forall id', <[key KindNonceLane id := OLane b (consumed_lane d s)]> m !! key KindNonceLane id' = None ->
     by_lane id' (js ++ [c]) = []).
Proof.
  intros Hc Hl Hn Hm. split; intros id'; unfold by_lane; rewrite filter_snoc.
  - intros b' s' [[<-%key_inj [= <- <-]]|[Hne Hx]]%lookup_insert_Some.
    + rewrite decide_True by done. apply lane_exact_step; [|done]. by eapply at_lane.
    + rewrite decide_False; [by eapply at_lane|]. intros E. apply Hne. congruence.
  - intros [Hx Hne]%lookup_insert_None. rewrite decide_False; [by eapply at_no_lane|]. intros E. apply Hne. congruence.
Qed.

Lemma consumes_accounted h c m m1 m' js :
  (forall K id o, account_kind K = true -> m !! key K id = Some o -> m1 !! key K id = Some o) ->
  accounted m1 js -> consumes config h c m m1 m' -> accounted m' (js ++ [c]).
Proof.
  intros Hkeep Hm Hc. destruct Hc as [id ls Hk [Hun1 Hun2] (Hid & Hl & Hn & _)|id ls cid sid cb cs cs' sb ss ch Hk (Hid & Hl & Hn & _) Hd Hch Hone Hb].
  - apply Hkeep in Hl; [|done]. assert (Hlane : lane_of c = Some id) by (unfold lane_of; by rewrite Hid).
    edestruct (accounted_lane m1 js c) as [HL1 HL2]; try done.
    split; [exact HL1|exact HL2|..]; intros id'; rewrite lookup_insert_ne by discriminate;
      unfold by_capability, by_session; rewrite filter_snoc, decide_False by congruence; apply Hm.
  - pose proof (dl_capability _ _ _ _ _ _ _ _ _ Hd) as Hcap. pose proof (dl_session _ _ _ _ _ _ _ _ _ Hd) as Hses.
    apply Hkeep in Hl; [|done]. apply Hkeep in Hcap; [|done]. apply Hkeep in Hses; [|done].
    assert (Hlane : lane_of c = Some id) by (unfold lane_of; by rewrite Hid).
    edestruct (accounted_lane m1 js c) as [HL1 HL2]; try done.
    pose proof (dl_statement _ _ _ _ _ _ _ _ _ Hd) as Hsc. pose proof (dl_session_statement _ _ _ _ _ _ _ _ _ Hd) as Hss.
    pose proof (command_charge_of _ _ Hch) as ->. apply apply_budget_charged in Hb.
    split; intros id'.
    + intros b s. rewrite !(lookup_insert_ne _ (key KindSessionGrant _)), (lookup_insert_ne _ (key KindCapability _)) by discriminate. apply HL1.
    + rewrite !(lookup_insert_ne _ (key KindSessionGrant _)), (lookup_insert_ne _ (key KindCapability _)) by discriminate. apply HL2.
    + intros b s Hx. rewrite lookup_insert_ne in Hx by discriminate. unfold by_capability. rewrite filter_snoc.
      apply lookup_insert_Some in Hx as [[<-%key_inj [= <- <-]]|[Hne Hx]].
      * rewrite decide_True by done. destruct (at_capability _ _ Hm _ _ _ Hcap) as [Hnd Hex].
        split; [done|]. by eapply budget_exact_step.
      * rewrite lookup_insert_ne in Hx by discriminate. rewrite decide_False; [by eapply at_capability|].
        intros E. apply Hne. congruence.
    + rewrite lookup_insert_ne by discriminate. intros [Hx Hne]%lookup_insert_None. rewrite lookup_insert_ne in Hx by discriminate.
      unfold by_capability. rewrite filter_snoc, decide_False; [by eapply at_no_capability|]. intros E. apply Hne. congruence.
    + unfold by_session. rewrite filter_snoc. intros b s [[<-%key_inj [= <- <-]]|[Hne Hx]]%lookup_insert_Some.
      * rewrite decide_True by done. destruct (at_session _ _ Hm _ _ _ Hses) as [Hsp _]. cbn. unfold by_session in Hsp.
        rewrite zlen_snoc. pose proof (dl_left _ _ _ _ _ _ _ _ _ Hd). lia.
      * rewrite !lookup_insert_ne in Hx by discriminate. rewrite decide_False; [by eapply at_session|].
        intros E. apply Hne. congruence.
    + intros [Hx Hne]%lookup_insert_None. rewrite !lookup_insert_ne in Hx by discriminate.
      unfold by_session. rewrite filter_snoc, decide_False; [by eapply at_no_session|]. intros E. apply Hne. congruence.
Qed.

Lemma performs_accounted h c m m' js :
  typed_command c = true -> accounted m js -> performs config h c m m' -> accounted m' (js ++ [c]).
Proof.
  intros Ht Hm (m1 & Ha & Hc). eapply consumes_accounted; [|eapply applies_accounted; eauto|exact Hc].
  intros. eapply applies_keeps; eauto.
Qed.

End budgets.
