(* ===== verification/KernelJournal.v ===== *)
(** * KernelJournal: the operation journal and the committed-block journal

    How the two journals grow.  The audited journal is the list of its rows in
    sequence order ([journal_rows]), its commands are [journal]; one committed
    operation appends one row, and every root over a prefix stays what it was.  The
    markers of the committed blocks form a chain whose ranges partition the journal. *)

From stdpp Require Import base gmap list sorting strings.
From S2P Require Import Prelude Crypto KernelTypes KernelStore KernelAudit Kernel KernelService KernelObjects KernelSteps.

(** ** Sorting by a key without ties *)

Lemma sort_by_key_unique {A K} `{RustOrd K} (key : A -> K) (l k : list A) :
  l ≡ₚ k -> StronglySorted (fun a b => ord_ltb (key a) (key b) = true) k -> sort_by_key key l = k.
Proof.
  intros Hp Hs. apply (StronglySorted_unique_strong (key_le key)).
  - intros x y Hx Hy Hxy Hyx.
    assert (Hkey : key x = key y) by (by apply (anti_symm (@ord_le K _))).
    assert (Hxk : x ∈ k) by (rewrite <- Hp; by rewrite <- (sort_by_key_perm key l)).
    assert (Hnd : NoDup (key <$> k)) by by apply strict_keys_NoDup.
    apply list_elem_of_lookup in Hxk as [i Hi], Hy as [j Hj].
    assert (i = j) as ->; [|congruence].
    eapply NoDup_lookup; [exact Hnd|rewrite list_lookup_fmap, Hi; reflexivity|].
    rewrite list_lookup_fmap, Hj. cbn. by rewrite Hkey.
  - apply StronglySorted_merge_sort; apply _.
  - clear Hp. induction Hs as [|a k Hs IH Hall]; constructor; [done|].
    eapply Forall_impl; [exact Hall|]. cbn. intros b Hab. unfold key_le, ord_le.
    rewrite ord_ltb_leb in Hab. apply negb_true_iff in Hab. destruct (ord_leb (key a) (key b)) eqn:E; [done|].
    destruct (total ord_le (key a) (key b)) as [F|F]; unfold ord_le in F; congruence.
  - etrans; [apply sort_by_key_perm|exact Hp].
Qed.

Lemma try_map_perm {E A B} (f : A -> result E B) l l' k :
  l ≡ₚ l' -> try_map f l = Ok k -> exists k', try_map f l' = Ok k' /\ k ≡ₚ k'.
Proof.
  intros Hp. revert k. induction Hp as [|a l l' Hp IH|a b l|l1 l2 l3 _ IH1 _ IH2]; intros k Hk.
  - exists k. done.
  - cbn in Hk |- *. rinv. destruct (IH _ Hr0) as (k' & Hk' & Hpk). rewrite Hr, Hk'. cbn. subst. eauto.
  - cbn in Hk |- *. rinv. rewrite Hr1, Hr, Hr2. cbn. subst. eexists. split; [done|]. constructor.
  - destruct (IH1 _ Hk) as (k1 & Hk1 & Hp1). destruct (IH2 _ Hk1) as (k2 & Hk2 & Hp2). exists k2. split; [done|by etrans].
Qed.

Lemma try_fold_unit {E A} (f : A -> result E ()) l :
  try_fold (fun _ a => f a) tt l = Ok tt <-> Forall (fun a => f a = Ok tt) l.
Proof.
  induction l as [|a l IH]; cbn; [split; [constructor|done]|]. rewrite Forall_cons. split.
  - intros Hx. rinv. destruct r. split; [done|]. by apply IH.
  - intros [-> Hl]. cbn. by apply IH.
Qed.

Lemma seqZ_snoc a n : 0 <= n -> seqZ a (n + 1) = seqZ a n ++ [a + n].
Proof. intros Hn. rewrite seqZ_app by lia. f_equal. Qed.

(** Strictly increasing integers: a run of consecutive sequence numbers. *)
Lemma seqZ_sorted {A} (key : A -> Z) (l : list A) a n :
  key <$> l = seqZ a n -> StronglySorted (fun x y => ord_ltb (key x) (key y) = true) l.
Proof.
  revert a n. induction l as [|x l IH]; intros a n Hl; [constructor|].
  destruct (decide (n <= 0)) as [Hn|Hn]; [rewrite seqZ_nil in Hl by lia; done|].
  rewrite (seqZ_cons a n) in Hl by lia. cbn in Hl. injection Hl as Hx Hl.
  constructor; [by eapply IH|]. apply Forall_forall. intros y Hy.
  assert (Hin : key y ∈ seqZ (Z.succ a) (Z.pred n)) by (rewrite <- Hl; by apply list_elem_of_fmap_2).
  apply elem_of_seqZ in Hin. unfold ord_ltb. cbn. destruct (Z.compare_spec (key x) (key y)); try done; lia.
Qed.

Section journal.
Context `{KernelCrates, !KernelLaws} (config : AgentMarketStoreConfigV1).

Abbreviation record := (Z * (list Z * OperationRow))%type.

Definition records (st : Store) : KResult (list record) := try_map sequenced (btree_iter (operations st)).

(** The rows in sequence order. *)
Definition journal_rows (st : Store) : list record :=
  match records st with Ok l => sort_by_key fst l | _ => [] end.

(** The journaled commands in order. *)
Definition journal (st : Store) : list KernelCommandV1 :=
  omap (fun r : record => match strict_decode (p_command r.2.2) with Ok c => Some c | _ => None end) (journal_rows st).

(** ** Appending one row *)

Lemma records_insert st st' id row r l :
  records st = Ok l -> operations st !! id = None -> operations st' = <[id := row]> (operations st) ->
  sequenced (id, row) = Ok r -> exists l', records st' = Ok l' /\ l' ≡ₚ r :: l.
Proof.
  unfold records. intros Hl Hn Hst' Hr.
  assert (Hp : (id, row) :: btree_iter (operations st) ≡ₚ btree_iter (operations st')).
  { rewrite !btree_iter_perm, Hst', map_to_list_insert by done. done. }
  assert (Hcons : try_map sequenced ((id, row) :: btree_iter (operations st)) = Ok (r :: l)).
  { cbn [try_map]. rewrite Hr. cbn. by rewrite Hl. }
  destruct (try_map_perm _ _ _ _ Hp Hcons) as (l' & Hl' & Hpl). exists l'. done.
Qed.

(** A journal numbered from one. *)
Definition numbered (st : Store) (n : Z) : Prop :=
  exists l, records st = Ok l /\ fst <$> sort_by_key fst l = seqZ 1 n /\ 0 <= n.

Lemma numbered_rows st n : numbered st n -> records st <> Panic /\ fst <$> journal_rows st = seqZ 1 n /\ 0 <= n.
Proof. intros (l & Hl & Hn & Hpos). unfold journal_rows. rewrite Hl. done. Qed.

Lemma numbered_insert st st' id row n :
  numbered st n -> operations st !! id = None -> operations st' = <[id := row]> (operations st) ->
  sequenced (id, row) = Ok (n + 1, (id, row)) ->
  numbered st' (n + 1) /\ journal_rows st' = journal_rows st ++ [(n + 1, (id, row))].
Proof.
  intros (l & Hl & Hn & Hpos) Hid Hst' Hr.
  destruct (records_insert _ _ _ _ _ _ Hl Hid Hst' Hr) as (l' & Hl' & Hp).
  assert (Hsort : sort_by_key fst l' = sort_by_key fst l ++ [(n + 1, (id, row))]).
  { apply sort_by_key_unique.
    - rewrite Hp, sort_by_key_perm. by rewrite Permutation_app_comm.
    - apply (seqZ_sorted fst _ 1 (n + 1)). rewrite fmap_app, Hn, seqZ_snoc by lia. f_equal. cbn. f_equal. lia. }
  split.
  - exists l'. split_and!; [done| |lia]. rewrite Hsort, fmap_app, Hn, seqZ_snoc by lia. f_equal. cbn. f_equal. lia.
  - unfold journal_rows. by rewrite Hl, Hl', Hsort.
Qed.

(** ** Roots over a prefix *)

Lemma filter_prefix (rows : list record) n k :
  fst <$> rows = seqZ 1 n -> filter (fun r : record => (r.1 <=? k) = true) rows = take (Z.to_nat k) rows.
Proof.
  intros Hrows. assert (Hgen : forall l a len, fst <$> l = seqZ a len ->
    filter (fun r : record => (r.1 <=? k) = true) l = take (Z.to_nat (k - a + 1)) l).
  { clear. induction l as [|[z r] l IH]; intros a len Hl; [by rewrite take_nil|].
    destruct (decide (len <= 0)) as [Hn|Hn]; [rewrite seqZ_nil in Hl by lia; done|].
    rewrite (seqZ_cons a len) in Hl by lia. cbn in Hl. injection Hl as -> Hl.
    rewrite filter_cons. cbn. destruct (decide (k < a)) as [Hk|Hk].
    - rewrite decide_False by (rewrite Z.leb_le; lia). replace (Z.to_nat (k - a + 1)) with 0%nat by lia. cbn.
      rewrite (IH (Z.succ a) _ Hl). replace (Z.to_nat (k - Z.succ a + 1)) with 0%nat by lia. done.
    - rewrite decide_True by (apply Z.leb_le; lia). rewrite (IH (Z.succ a) _ Hl).
      replace (Z.to_nat (k - a + 1)) with (S (Z.to_nat (k - Z.succ a + 1))) by lia. done. }
  rewrite (Hgen _ _ _ Hrows). do 2 f_equal. lia.
Qed.

Definition rows_root (rows : list record) : KResult Hash32V1 :=
  encoded ← try_fold extend_operation [] rows;
  digest_encoded "trnm.portable.v2.agent-market-operation-journal-root.candidate.v1" encoded.

Lemma root_through st n k : numbered st n ->
  compute_operation_journal_root_through st k = rows_root (take (Z.to_nat k) (journal_rows st)).
Proof.
  intros (l & Hl & Hn & Hpos). unfold compute_operation_journal_root_through. change (try_map sequenced (btree_iter (operations st))) with (records st).
  unfold journal_rows. rewrite Hl. cbn. unfold rows_root. do 2 f_equal.
  rewrite <- (filter_prefix _ n) by done. apply sort_by_key_unique; [by rewrite sort_by_key_perm|].
  rewrite (filter_prefix _ n) by done.
  pose proof (seqZ_sorted fst _ _ _ Hn) as Hs. revert Hs. generalize (sort_by_key fst l). clear.
  intros l Hs. rewrite <- (take_drop (Z.to_nat k) l) in Hs. by apply StronglySorted_app_1_l in Hs.
Qed.

(** Equal operation tables have equal journals. *)
Lemma journal_rows_ext st st' : operations st' = operations st -> journal_rows st' = journal_rows st.
Proof. intros Ho. unfold journal_rows, records. by rewrite Ho. Qed.

Lemma root_append st st' n x k :
  numbered st n -> numbered st' (n + 1) -> journal_rows st' = journal_rows st ++ [x] -> k <= n ->
  compute_operation_journal_root_through st' k = compute_operation_journal_root_through st k.
Proof.
  intros Hn Hn' Hr Hk. rewrite (root_through st n), (root_through st' (n + 1)) by done. rewrite Hr.
  rewrite take_app_le; [done|]. destruct (numbered_rows _ _ Hn) as (_ & Hs & Hpos).
  rewrite <- (length_fmap fst), Hs, length_seqZ. lia.
Qed.

Lemma root_full st n k : numbered st n -> n <= k ->
  compute_operation_journal_root_through st k = rows_root (journal_rows st).
Proof.
  intros Hn Hk. rewrite (root_through st n) by done. rewrite take_ge; [done|].
  destruct (numbered_rows _ _ Hn) as (_ & Hs & Hpos). rewrite <- (length_fmap fst), Hs, length_seqZ. lia.
Qed.

(** ** The audit of the operations *)

Lemma audit_operation_next acc r acc' : audit_operation config acc r = Ok acc' ->
  acc.1.1 = r.1 /\ acc'.1.1 = acc.1.1 + 1 /\ acc.1.1 + 1 <= u64_max /\
  exists receipt, strict_decode (p_receipt r.2.2) = Ok receipt /\ kr_sequence receipt = r.1 /\
    acc'.1.2 = kr_order_height receipt /\ acc'.2 = kr_order_block_id receipt.
Proof.
  destruct acc as [[e ph] pb], r as [z [id row]]. unfold audit_operation. intros Ha. kinv. checked. subst. cbn. eauto 10.
Qed.

Lemma audit_fold_numbered rows : forall acc acc', try_fold (audit_operation config) acc rows = Ok acc' ->
  fst <$> rows = seqZ acc.1.1 (acc'.1.1 - acc.1.1) /\ acc.1.1 <= acc'.1.1.
Proof.
  induction rows as [|r rows IH]; cbn [try_fold]; intros acc acc' Hf.
  - injection Hf as <-. rewrite Z.sub_diag. done.
  - rinv. apply audit_operation_next in Hr as (He & Hn & _). destruct (IH _ _ Hf) as [Hrows Hle].
    split; [|lia]. rewrite (seqZ_cons acc.1.1) by lia. rewrite fmap_cons, Hrows, Hn. f_equal; [done|f_equal; lia].
Qed.

Definition audit_start : Z * Z * Hash32V1 :=
  (1, tb_initial_order_height (trust_bundle config), tb_initial_order_block_id (trust_bundle config)).

Lemma audit_operations_Ok st : audit_operations st config = Ok tt <->
  exists n tip, numbered st n /\ try_fold (audit_operation config) audit_start (journal_rows st) = Ok (n + 1, tip.1, tip.2) /\
    load_sequence st = Ok n.
Proof.
  unfold audit_operations. fold (records st). fold audit_start. split.
  - intros Ha. kinv. subst.
    pose proof Hr0 as Hf. apply audit_fold_numbered in Hf as [Hrows Hle]. cbn in Hrows, Hle.
    exists (p1 - 1), (p2, p0). unfold journal_rows. rewrite Hr. split_and!.
    + exists r. split_and!; [done| |lia]. exact Hrows.
    + rewrite Hr0. cbn. do 2 f_equal. f_equal. lia.
    + done.
  - intros (n & tip & (l & Hl & Hn & Hpos) & Hf & Hs). unfold journal_rows in Hf. rewrite Hl in Hf |- *. cbn.
    rewrite Hf. cbn. rewrite Hs. cbn. rewrite bool_decide_true by lia. done.
Qed.

(** The tip after the journal: that of its last receipt, or the anchor's. *)
Lemma audit_fold_tip rows n tip :
  try_fold (audit_operation config) audit_start rows = Ok (n + 1, tip.1, tip.2) ->
  rows = [] /\ tip = (tb_initial_order_height (trust_bundle config), tb_initial_order_block_id (trust_bundle config)) \/
  exists rows0 r receipt, rows = rows0 ++ [r] /\ strict_decode (p_receipt r.2.2) = Ok receipt /\ r.1 = n /\ kr_sequence receipt = n /\
    tip = (kr_order_height receipt, kr_order_block_id receipt).
Proof.
  destruct tip as [th tb]. destruct rows as [|r0 rows'] using rev_ind; [|clear IHrows']; intros Hf.
  - left. cbn in Hf. split; [done|]. by injection Hf as _ <- <-.
  - right. rewrite try_fold_app in Hf. rinv. cbn [try_fold] in Hf. rinv. subst.
    apply audit_operation_next in Hr0 as (He & Hn & _ & receipt & Hd & Hs & Hh & Hb). cbn in *.
    exists rows', r0, receipt. split_and!; try done; [lia|lia|congruence].
Qed.

(** ** Receipts by sequence *)

Definition receipt_pair (entry : list Z * OperationRow) : KResult (Z * KernelTransitionReceiptV1) :=
  sequence ← decode_u64 (p_sequence entry.2);
  receipt ← strict_decode (A := KernelTransitionReceiptV1) (p_receipt entry.2);
  _ ← fail_if (kr_sequence receipt <>? sequence) TamperDetected;
  Ok (sequence, receipt).

Lemma collect_spec l : forall M M', try_fold collect_receipt M l = Ok M' <->
  exists prs, try_map receipt_pair l = Ok prs /\ NoDup (fst <$> prs) /\
    (forall x, x ∈ fst <$> prs -> M !! x = None) /\ M' = list_to_map prs ∪ M.
Proof.
  induction l as [|e l IH]; intros M M'; cbn [try_fold try_map].
  - split.
    + intros [= <-]. exists []. split_and!; [done|by apply NoDup_nil|by intros ? ?%not_elem_of_nil|cbn; by rewrite (left_id_L ∅ (∪))].
    + intros (prs & [= <-] & _ & _ & ->). cbn. by rewrite (left_id_L ∅ (∪)).
  - split.
    + intros Hf. rinv. unfold collect_receipt in Hr. kinv. subst.
      apply IH in Hf as (prs & Hp & Hnd & Hdis & ->).
      assert (Hrp : receipt_pair e = Ok (kr_sequence r1, r1)).
      { unfold receipt_pair. rewrite Hr0. cbn. rewrite Hr1. cbn. by rewrite bool_decide_true. }
      rewrite Hrp. cbn. rewrite Hp. cbn. eexists. split; [done|].
      assert (Hnone : M !! kr_sequence r1 = None) by (apply eq_None_not_Some; done).
      assert (Hnew : kr_sequence r1 ∉ fst <$> prs).
      { intros Hin. apply Hdis in Hin. by rewrite lookup_insert_eq in Hin. }
      split_and!.
      * cbn. by constructor.
      * cbn. intros x [->|Hx]%elem_of_cons; [done|]. specialize (Hdis x Hx). by apply lookup_insert_None in Hdis as [? _].
      * cbn. rewrite <- insert_union_l, insert_union_r; [done|]. by apply not_elem_of_list_to_map_1.
    + intros (prs & Hp & Hnd & Hdis & ->). rinv. subst. unfold receipt_pair in Hr. kinv. subst.
      cbn in Hnd, Hdis. apply NoDup_cons in Hnd as [Hnew Hnd].
      assert (collect_receipt M e = Ok (<[kr_sequence r2 := r2]> M)) as ->.
      { unfold collect_receipt. rewrite Hr1. cbn. rewrite Hr2. cbn. rewrite bool_decide_true by done. cbn.
        rewrite bool_decide_false; [done|]. rewrite Hdis by (by left). by intros [? ?]. }
      cbn.
      apply IH. exists r0. split_and!; [done|done| |].
      * intros x Hx. rewrite lookup_insert_ne; [apply Hdis; by right|]. intros <-. done.
      * cbn. rewrite <- insert_union_l, insert_union_r; [done|]. by apply not_elem_of_list_to_map_1.
Qed.

Lemma pair_sequences l : forall recs prs, try_map sequenced l = Ok recs -> try_map receipt_pair l = Ok prs ->
  fst <$> prs = fst <$> recs.
Proof.
  induction l as [|[id row] l IH]; cbn [try_map]; intros recs prs H1 H2; rinv; subst; [done|].
  unfold sequenced in Hr1. unfold receipt_pair in Hr. kinv. subst. cbn in *. f_equal; [congruence|by apply IH].
Qed.

Definition receipts (st : Store) : KResult (gmap Z KernelTransitionReceiptV1) :=
  try_fold collect_receipt ∅ (btree_iter (operations st)).

(** The receipts of a numbered journal, and how they grow. *)
Lemma receipts_append st st' n id row receipt R :
  numbered st n -> receipts st = Ok R -> operations st !! id = None -> operations st' = <[id := row]> (operations st) ->
  receipt_pair (id, row) = Ok (n + 1, receipt) ->
  receipts st' = Ok (<[n + 1 := receipt]> R) /\ R !! (n + 1) = None /\ Z.of_nat (size R) = n /\
  (forall s, s ∈ seqZ 1 n -> is_Some (R !! s)).
Proof.
  intros (l & Hl & Hn & Hpos) HR Hid Hst' Hp. unfold receipts in HR. apply collect_spec in HR as (prs & Hprs & Hnd & _ & ->).
  rewrite (right_id_L ∅ (∪)). pose proof (pair_sequences _ _ _ Hl Hprs) as Hseq.
  assert (Hperm : fst <$> prs ≡ₚ seqZ 1 n) by (rewrite Hseq, <- Hn; by rewrite sort_by_key_perm).
  assert (Hnew : n + 1 ∉ fst <$> prs) by (rewrite Hperm, elem_of_seqZ; lia).
  split_and!.
  - unfold receipts. rewrite Hst'. apply collect_spec.
    assert (Hpl : (id, row) :: btree_iter (operations st) ≡ₚ btree_iter (<[id:=row]> (operations st))).
    { rewrite !btree_iter_perm, map_to_list_insert by done. done. }
    assert (Hcons : try_map receipt_pair ((id, row) :: btree_iter (operations st)) = Ok ((n + 1, receipt) :: prs)).
    { cbn [try_map]. rewrite Hp. cbn. by rewrite Hprs. }
    destruct (try_map_perm _ _ _ _ Hpl Hcons) as (prs' & Hprs' & Hpp). exists prs'. split_and!.
    + done.
    + rewrite <- Hpp. cbn. by constructor.
    + intros x _. apply lookup_empty.
    + rewrite (right_id_L ∅ (∪)). symmetry. apply (list_to_map_proper (M := gmap Z)) in Hpp; [|cbn; by constructor].
      rewrite <- Hpp. done.
  - by apply not_elem_of_list_to_map_1.
  - rewrite map_size_list_to_map by done. rewrite <- (length_fmap fst), Hperm, length_seqZ. lia.
  - intros s Hs. rewrite <- Hperm in Hs. destruct (list_to_map prs !! s) eqn:E; [eauto|].
    by apply not_elem_of_list_to_map_2 in E.
Qed.

(** The receipts are those of the rows. *)
Lemma receipts_rows st R r receipt : receipts st = Ok R -> r ∈ journal_rows st ->
  strict_decode (p_receipt r.2.2) = Ok receipt -> R !! r.1 = Some receipt.
Proof.
  unfold receipts, journal_rows, records. intros HR Hin Hd.
  apply collect_spec in HR as (prs & Hprs & Hnd & _ & ->). rewrite (right_id_L ∅ (∪)).
  destruct (try_map sequenced _) as [l| |] eqn:Hl; [|by apply not_elem_of_nil in Hin..].
  rewrite sort_by_key_perm in Hin. apply list_elem_of_lookup in Hin as [i Hi].
  apply try_map_Ok in Hl, Hprs. destruct (Forall2_lookup_r _ _ _ _ _ Hl Hi) as ([id row] & He & Hs).
  destruct (Forall2_lookup_l _ _ _ _ _ Hprs He) as (pr & Hpr & Hrp).
  unfold sequenced in Hs. unfold receipt_pair in Hrp. kinv. subst. cbn in *.
  apply elem_of_list_to_map_1; [done|]. apply list_elem_of_lookup. exists i. rewrite Hpr. do 2 f_equal; congruence.
Qed.

(** ** The last row *)

Lemma operation_tail_from l : forall t recs, try_map sequenced l = Ok recs ->
  exists t', try_fold operation_tail t l = Ok t' /\
    (t' = t \/ exists r, r ∈ recs /\ t' = Some (r.1, p_receipt r.2.2)) /\
    (forall r, r ∈ recs -> exists s b, t' = Some (s, b) /\ r.1 <= s) /\
    (forall s b, t = Some (s, b) -> exists s' b', t' = Some (s', b') /\ s <= s').
Proof.
  induction l as [|[id row] l IH]; cbn [try_map try_fold]; intros t recs Hm.
  - injection Hm as <-. exists t. split_and!; [done|by left|by intros ? ?%not_elem_of_nil|eauto with lia].
  - rinv. unfold sequenced in Hr. kinv. subst.
    assert (Hstep : operation_tail t (id, row) =
      Ok (if match t with Some (s, _) => s <? r2 | None => true end then Some (r2, p_receipt row) else t)).
    { unfold operation_tail. cbn. by rewrite Hr2. }
    rewrite Hstep. cbn [mbind result_bind]. destruct (IH (if match t with Some (s, _) => s <? r2 | None => true end then Some (r2, p_receipt row) else t) _ Hr0)
      as (t' & Ht' & Hor & Hmax & Hge). exists t'. split; [done|]. split_and!.
    + destruct Hor as [->|(r & Hin & ->)]; [|right; exists r; split; [by right|done]].
      destruct (match t with Some (s, _) => s <? r2 | None => true end); [|by left].
      right. eexists. split; [by left|done].
    + intros r [->|Hin]%elem_of_cons; [|by apply Hmax]. cbn. destruct t as [[s b]|].
      * destruct (s <? r2) eqn:E; rewrite ?E in Hge; bprop; [by eapply Hge|]. destruct (Hge _ _ eq_refl) as (s' & b' & -> & Hs). exists s', b'. split; [done|lia].
      * by eapply Hge.
    + intros s b ->. destruct (s <? r2) eqn:E; rewrite ?E in Hge; bprop; [|by eapply Hge].
      destruct (Hge _ _ eq_refl) as (s' & b' & -> & Hs). exists s', b'. split; [done|lia].
Qed.

Lemma tail_of st n rows0 id row :
  numbered st n -> journal_rows st = rows0 ++ [(n, (id, row))] ->
  try_fold operation_tail None (btree_iter (operations st)) = Ok (Some (n, p_receipt row)).
Proof.
  intros (l & Hl & Hn & Hpos) Hrows. unfold journal_rows in Hrows. rewrite Hl in Hrows.
  destruct (operation_tail_from _ None _ Hl) as (t' & Ht' & Hor & Hmax & _). rewrite Ht'. do 2 f_equal.
  assert (Hlast : (n, (id, row)) ∈ l) by (rewrite <- (sort_by_key_perm fst), Hrows; apply elem_of_app; right; by left).
  destruct (Hmax _ Hlast) as (s & b & -> & Hs). destruct Hor as [?|(r & Hin & [= -> ->])]; [done|].
  cbn in Hs. rewrite <- (sort_by_key_perm fst) in Hin.
  assert (Hin' : r.1 ∈ seqZ 1 n) by (rewrite <- Hn; by apply list_elem_of_fmap_2).
  apply elem_of_seqZ in Hin'. assert (Heq : r.1 = n) by lia.
  assert (Hsame : r = (n, (id, row))); [|by rewrite Hsame].
  rewrite Hrows in Hin. apply elem_of_app in Hin as [Hin|Hin%list_elem_of_singleton]; [|done].
  exfalso. rewrite Hrows, fmap_app in Hn. assert (Hnd : NoDup (seqZ 1 n)) by apply NoDup_seqZ. rewrite <- Hn in Hnd.
  apply NoDup_app in Hnd as (_ & Hd & _). apply (Hd r.1); [by apply list_elem_of_fmap_2|]. rewrite Heq. by left.
Qed.

End journal.
