(* ===== verification/KernelMarkers.v ===== *)
(** * KernelMarkers: the chain of committed blocks

    The audited markers form a chain: consecutive heights, each marker's range of
    operations starting where its parent's ended.  The chain keeps auditing when the
    journal grows, when its last marker is extended and when a marker is added. *)

From stdpp Require Import base gmap list sorting strings.
From S2P Require Import Prelude Crypto KernelTypes KernelStore KernelAudit Kernel KernelService KernelObjects KernelSteps KernelJournal.

Section markers.
Context `{KernelCrates, !KernelLaws} (config : AgentMarketStoreConfigV1).

Abbreviation Marker := CommittedBlockMarkerV1.
Abbreviation Receipts := (gmap Z KernelTransitionReceiptV1).

(** What the audit of one marker checks. *)
Record marker_ok (st : Store) (R : Receipts) (i : Z) (prev : option Marker) (mk : Marker) : Prop := {
  mo_sequence : cm_marker_sequence mk = i /\ i <= u64_max;
  mo_successor : check_successor config prev mk = Ok tt;
  mo_range : cm_source_operation_sequence mk <= cm_target_operation_sequence mk;
  mo_source : compute_operation_journal_root_through st (cm_source_operation_sequence mk) = Ok (cm_source_operation_root mk);
  mo_target : compute_operation_journal_root_through st (cm_target_operation_sequence mk) = Ok (cm_target_operation_root mk);
  mo_state : try_fold (range_step R mk) (cm_source_state_root mk)
    (inclusive_range (saturating_add u64_max (cm_source_operation_sequence mk) 1) (cm_target_operation_sequence mk))
    = Ok (cm_target_state_root mk);
}.

Lemma audit_marker_Ok st R i prev mk acc :
  audit_marker st config R (i, prev) mk = Ok acc <-> acc = (i + 1, Some mk) /\ marker_ok st R i prev mk.
Proof.
  unfold audit_marker. split.
  - intros Ha. kinv. checked. subst. split; [done|]. split; try done; try lia. by destruct r1.
  - intros [-> [[Hs Hi] Hsu Hr Hso Hta Hst]]. subst i. unfold try_from. rewrite (proj2 (Z.leb_le _ _) Hi). cbn.
    rewrite bool_decide_true by done. cbn. rewrite Hsu. cbn.
    rewrite (proj2 (Z.ltb_ge _ _) Hr). cbn. rewrite Hso. cbn. rewrite bool_decide_true by done. cbn. rewrite Hta. cbn.
    rewrite bool_decide_true by done. cbn. rewrite Hst. cbn. by rewrite bool_decide_true.
Qed.

Fixpoint chain (st : Store) (R : Receipts) (i : Z) (prev : option Marker) (ms : list Marker) : Prop :=
  match ms with
  | [] => True
  | mk :: ms => marker_ok st R i prev mk /\ chain st R (i + 1) (Some mk) ms
  end.

Definition last_of (prev : option Marker) (ms : list Marker) : option Marker :=
  match last ms with Some mk => Some mk | None => prev end.

Lemma last_of_cons prev mk ms : last_of prev (mk :: ms) = last_of (Some mk) ms.
Proof. unfold last_of. rewrite last_cons. by destruct (last ms). Qed.

Lemma last_of_snoc prev ms mk : last_of prev (ms ++ [mk]) = Some mk.
Proof. unfold last_of. by rewrite last_snoc. Qed.

Lemma fold_chain st R ms : forall i prev acc, try_fold (audit_marker st config R) (i, prev) ms = Ok acc <->
  chain st R i prev ms /\ acc = (i + zlen ms, last_of prev ms).
Proof.
  induction ms as [|mk ms IH]; intros i prev acc; cbn [try_fold chain].
  - unfold zlen. cbn. split; [intros [= <-]|intros [_ ->]]; [split; [done|]|]; do 2 f_equal; lia.
  - rewrite last_of_cons. assert (Hlen : zlen (mk :: ms) = zlen ms + 1) by (unfold zlen; cbn; lia). rewrite Hlen. split.
    + intros Hf. rinv. apply audit_marker_Ok in Hr as [-> Hok]. apply IH in Hf as [Hc ->]. split; [done|]. f_equal. lia.
    + intros [[Hok Hc] ->]. rewrite (proj2 (audit_marker_Ok _ _ _ _ _ _) (conj eq_refl Hok)). cbn. apply IH.
      split; [done|]. f_equal. lia.
Qed.

Lemma chain_snoc st R ms mk : forall i prev, chain st R i prev (ms ++ [mk]) <->
  chain st R i prev ms /\ marker_ok st R (i + zlen ms) (last_of prev ms) mk.
Proof.
  induction ms as [|m ms IH]; intros i prev; cbn [chain app].
  - unfold zlen, last_of. cbn. rewrite Z.add_0_r. tauto.
  - rewrite IH, last_of_cons. assert (Hlen : zlen (m :: ms) = 1 + zlen ms) by (unfold zlen; cbn; lia).
    rewrite Hlen, Z.add_assoc. tauto.
Qed.

(** The number of operations before a marker. *)
Definition base (prev : option Marker) : Z := match prev with Some p => cm_target_operation_sequence p | None => 0 end.

Lemma successor_source prev mk : check_successor config prev mk = Ok tt -> cm_source_operation_sequence mk = base prev.
Proof. destruct prev as [p|]; cbn; intros Hc; kinv; subst; done. Qed.

Lemma successor_height p mk : check_successor config (Some p) mk = Ok tt -> cm_order_height mk = cm_order_height p + 1.
Proof. cbn. intros Hc. kinv. checked. lia. Qed.

Lemma chain_sequences st R ms : forall i prev, chain st R i prev ms -> cm_marker_sequence <$> ms = seqZ i (zlen ms).
Proof.
  induction ms as [|mk ms IH]; intros i prev; cbn [chain]; [done|]. intros [Hok Hc].
  assert (Hlen : zlen (mk :: ms) = zlen ms + 1) by (unfold zlen; cbn; lia). rewrite Hlen.
  rewrite (seqZ_cons i) by (unfold zlen; lia). cbn. f_equal; [apply Hok|]. rewrite (IH _ _ Hc). f_equal; lia.
Qed.

(** Ranges grow along the chain. *)
Lemma chain_targets st R ms : forall i prev mk, chain st R i prev ms -> mk ∈ ms ->
  base prev <= cm_source_operation_sequence mk /\ cm_target_operation_sequence mk <= base (last_of prev ms).
Proof.
  assert (Hmono : forall ms i prev, chain st R i prev ms -> base prev <= base (last_of prev ms)).
  { clear ms. induction ms as [|mk ms IH]; intros i prev; cbn [chain]; [unfold last_of; cbn; lia|].
    intros [Hok Hc]. rewrite last_of_cons. apply IH in Hc. cbn in Hc. pose proof (successor_source _ _ (mo_successor _ _ _ _ _ Hok)).
    pose proof (mo_range _ _ _ _ _ Hok). lia. }
  induction ms as [|m ms IH]; intros i prev mk; cbn [chain]; [by intros _ ?%not_elem_of_nil|].
  intros [Hok Hc] [->|Hin]%elem_of_cons; rewrite last_of_cons; pose proof (successor_source _ _ (mo_successor _ _ _ _ _ Hok));
    pose proof (mo_range _ _ _ _ _ Hok).
  - apply Hmono in Hc. cbn in Hc. lia.
  - destruct (IH _ _ _ Hc Hin). cbn in *. lia.
Qed.

(** Heights grow strictly. *)
Lemma chain_heights st R ms : forall i prev mk tail, chain st R i prev ms -> mk ∈ ms -> last_of prev ms = Some tail ->
  mk = tail \/ cm_order_height mk < cm_order_height tail.
Proof.
  assert (Hmono : forall ms i p tail, chain st R i (Some p) ms -> last_of (Some p) ms = Some tail ->
    p = tail \/ cm_order_height p < cm_order_height tail).
  { clear ms. induction ms as [|mk ms IH]; intros i p tail; cbn [chain]; [unfold last_of; cbn; naive_solver|].
    intros [Hok Hc]. rewrite last_of_cons. intros Hl. pose proof (successor_height _ _ (mo_successor _ _ _ _ _ Hok)).
    destruct (IH _ _ _ Hc Hl) as [->|]; lia. }
  induction ms as [|m ms IH]; intros i prev mk tail; cbn [chain]; [by intros _ ?%not_elem_of_nil|].
  rewrite last_of_cons. intros [Hok Hc] [->|Hin]%elem_of_cons Hl; eauto.
Qed.

Lemma inclusive_range_seqZ a b : inclusive_range a b = seqZ a (b - a + 1).
Proof. unfold inclusive_range, seqZ. apply list_fmap_ext. intros. lia. Qed.

Lemma range_step_receipts R mk l : forall root root', try_fold (range_step R mk) root l = Ok root' ->
  Forall (fun s => exists r, R !! s = Some r /\ kr_order_height r = cm_order_height mk /\ kr_order_block_id r = cm_order_block_id mk) l.
Proof.
  induction l as [|s l IH]; cbn [try_fold]; intros root root' Hf; [constructor|]. rinv. unfold range_step in Hr. kinv. subst.
  constructor; eauto.
Qed.

(** Every operation is in the range of one marker, and its receipt names that block. *)
Lemma chain_covers st R ms : forall i prev s, chain st R i prev ms -> 0 <= base prev ->
  base prev < s <= base (last_of prev ms) -> base (last_of prev ms) < u64_max ->
  exists mk r, mk ∈ ms /\ R !! s = Some r /\ kr_order_height r = cm_order_height mk /\ kr_order_block_id r = cm_order_block_id mk.
Proof.
  induction ms as [|mk ms IH]; intros i prev s; cbn [chain]; [unfold last_of; cbn; lia|].
  intros [Hok Hc] Hb Hs Hmax. rewrite last_of_cons in *.
  pose proof (successor_source _ _ (mo_successor _ _ _ _ _ Hok)) as Hsrc. pose proof (mo_range _ _ _ _ _ Hok) as Hrg.
  destruct (decide (s <= cm_target_operation_sequence mk)) as [Hle|Hgt].
  - pose proof (range_step_receipts _ _ _ _ _ (mo_state _ _ _ _ _ Hok)) as Hall. rewrite Forall_forall in Hall.
    destruct (Hall s) as (r & Hr & Hh & Hbk); [|exists mk, r; split_and!; [by left|done..]].
    rewrite inclusive_range_seqZ, elem_of_seqZ. unfold saturating_add, u64_max in *. lia.
  - destruct (IH _ _ s Hc) as (mk' & r & Hin & Hr); cbn in *; [lia|lia|done|]. exists mk', r. split; [by right|done].
Qed.

(** ** Growth of the journal *)

(** What the audit of the old markers reads is unchanged up to sequence [n]. *)
Definition agree_upto (n : Z) (st : Store) (R : Receipts) (st' : Store) (R' : Receipts) : Prop :=
  (forall k, k <= n -> compute_operation_journal_root_through st' k = compute_operation_journal_root_through st k) /\
  (forall s, s <= n -> R' !! s = R !! s).

Lemma marker_ok_agree n st R st' R' i prev mk : agree_upto n st R st' R' -> cm_target_operation_sequence mk <= n ->
  marker_ok st R i prev mk -> marker_ok st' R' i prev mk.
Proof.
  intros [Hroot HR] Hn [Hs Hsu Hr Hso Hta Hst]. split; try done.
  - rewrite Hroot by lia. done.
  - rewrite Hroot by lia. done.
  - rewrite <- Hst. apply try_fold_ext. intros x s Hin. rewrite inclusive_range_seqZ in Hin. apply elem_of_seqZ in Hin.
    unfold range_step. rewrite HR by lia. done.
Qed.

Lemma chain_agree n st R st' R' ms : agree_upto n st R st' R' -> forall i prev, base (last_of prev ms) <= n ->
  chain st R i prev ms -> chain st' R' i prev ms.
Proof.
  intros Hag. induction ms as [|mk ms IH]; intros i prev Hn; cbn [chain]; [done|]. intros [Hok Hc].
  pose proof (chain_targets st R (mk :: ms) i prev mk (conj Hok Hc) ltac:(by left)) as [_ Ht].
  rewrite last_of_cons in *. split; [|by apply IH]. eapply marker_ok_agree; eauto. lia.
Qed.

(** The last marker of a block that gains one operation. *)
Lemma marker_ok_extend n st R st' r i prev mk post root ck :
  agree_upto n st R st' (<[n + 1 := r]> R) -> marker_ok st R i prev mk -> cm_target_operation_sequence mk = n ->
  0 <= n -> n + 1 <= u64_max -> compute_operation_journal_root_through st' (n + 1) = Ok root ->
  kr_order_height r = cm_order_height mk -> kr_order_block_id r = cm_order_block_id mk -> kr_post_state_root r = post ->
  marker_ok st' (<[n + 1 := r]> R) i prev
    (mkMarker (cm_marker_sequence mk) (cm_order_height mk) (cm_order_block_id mk)
      (cm_parent_order_height mk) (cm_parent_order_block_id mk) (cm_source_operation_sequence mk) (n + 1)
      (cm_source_state_root mk) post (cm_source_operation_root mk) root (cm_previous_marker_checksum mk) ck).
Proof.
  intros Hag Hok Hn Hpos Hmax Hroot Hh Hb Hpost. assert (Hle : cm_target_operation_sequence mk <= n) by lia.
  pose proof (marker_ok_agree n _ _ _ _ _ _ _ Hag Hle Hok) as Hok'.
  destruct Hok' as [Hs Hsu Hr Hso Hta Hst]. pose proof (successor_source _ _ Hsu) as Hsrc.
  split; cbn; [done|destruct prev; exact Hsu|lia|done|done|].
  - rewrite Hn in Hst, Hr.
    rewrite inclusive_range_seqZ in Hst |- *. unfold saturating_add in *.
    rewrite Z.min_r in Hst |- * by lia. set (a := cm_source_operation_sequence mk + 1) in *.
    replace (n + 1 - a + 1) with ((n - a + 1) + 1) by lia. rewrite seqZ_snoc by lia.
    rewrite try_fold_app.
    assert (Hfold : try_fold (range_step (<[n + 1:=r]> R) (mkMarker (cm_marker_sequence mk) (cm_order_height mk) (cm_order_block_id mk)
      (cm_parent_order_height mk) (cm_parent_order_block_id mk) (cm_source_operation_sequence mk) (n + 1)
      (cm_source_state_root mk) post (cm_source_operation_root mk) root (cm_previous_marker_checksum mk) ck))
      (cm_source_state_root mk) (seqZ a (n - a + 1)) = Ok (cm_target_state_root mk)) by exact Hst.
    rewrite Hfold. cbn [mbind result_bind try_fold]. replace (a + (n - a + 1)) with (n + 1) by lia. unfold range_step.
    rewrite lookup_insert_eq. cbn. rewrite !bool_decide_true by done. cbn. by rewrite Hpost.
Qed.

(** The first operations of a new block. *)
Lemma marker_ok_new n m st R i tail mk :
  check_successor config (Some tail) mk = Ok tt -> cm_marker_sequence mk = i -> i <= u64_max ->
  cm_target_operation_sequence tail = n -> cm_target_operation_sequence mk = m -> 0 <= n < u64_max ->
  compute_operation_journal_root_through st n = Ok (cm_source_operation_root mk) ->
  compute_operation_journal_root_through st m = Ok (cm_target_operation_root mk) ->
  (m = n /\ cm_target_state_root mk = cm_source_state_root mk \/
   m = n + 1 /\ exists r, R !! (n + 1) = Some r /\ kr_order_height r = cm_order_height mk /\
     kr_order_block_id r = cm_order_block_id mk /\ kr_post_state_root r = cm_target_state_root mk) ->
  marker_ok st R i (Some tail) mk.
Proof.
  intros Hsu Hs Hi Ht Hm Hpos Hso Hta Hcase. pose proof (successor_source _ _ Hsu) as Hsrc. cbn in Hsrc.
  assert (Hnm : n <= m) by (destruct Hcase as [[-> _]|[-> _]]; lia).
  split; try done; [lia|congruence|congruence|].
  rewrite inclusive_range_seqZ, Hsrc, Ht, Hm. unfold saturating_add. rewrite Z.min_r by lia.
  destruct Hcase as [[-> ->]|[-> (r & Hr & Hh & Hb & Hp)]].
  - rewrite seqZ_nil by lia. done.
  - replace (n + 1 - (n + 1) + 1) with (0 + 1) by lia. rewrite seqZ_snoc by lia. rewrite seqZ_nil by lia.
    rewrite Z.add_0_r. cbn [app try_fold]. unfold range_step. rewrite Hr. cbn.
    rewrite !bool_decide_true by done. cbn. by rewrite Hp.
Qed.

(** ** The table of markers *)

(** The UNIQUE constraint on the block column. *)
Definition unique_blocks (st : Store) : Prop :=
  forall k k' row row', markers st !! k = Some row -> markers st !! k' = Some row' ->
    b_order_block_id row = b_order_block_id row' -> k = k'.

Lemma decode_u64_Ok b z : decode_u64 b = Ok z -> zlen b = 8 /\ z = of_le_bytes b.
Proof. unfold decode_u64. destruct (_ =? _) eqn:E; [|done]. bprop. by intros [= <-]. Qed.

Lemma decode_hash_Ok b h : decode_marker_hash b = Ok h <-> zlen b = 32 /\ h = b.
Proof. unfold decode_marker_hash. destruct (_ =? _) eqn:E; bprop; naive_solver. Qed.

Lemma is_hash_len h : is_hash h = true -> zlen h = 32.
Proof. unfold is_hash. intros Hh. bprop. done. Qed.

Lemma checksum_hash parts : is_hash (checksum parts) = true.
Proof. apply sha256_width. Qed.

Lemma load_marker_block k row mk : load_marker config (k, row) = Ok mk ->
  cm_order_block_id mk = b_order_block_id row /\ decode_u64 k = Ok (cm_marker_sequence mk) /\
  zlen (cm_row_checksum mk) = 32 /\ zlen (cm_order_block_id mk) = 32 /\ cm_row_checksum mk = b_row_checksum row.
Proof.
  unfold load_marker. intros Hl. kinv.
  repeat match goal with Hd : decode_marker_hash _ = Ok _ |- _ => apply decode_hash_Ok in Hd as [? ->] end.
  subst. cbn. done.
Qed.

Lemma load_marker_lengths k row mk : load_marker config (k, row) = Ok mk ->
  zlen (cm_order_block_id mk) = 32 /\ zlen (cm_target_state_root mk) = 32 /\ zlen (cm_target_operation_root mk) = 32 /\
  zlen (cm_row_checksum mk) = 32.
Proof.
  unfold load_marker. intros Hl. kinv.
  repeat match goal with Hd : decode_marker_hash _ = Ok _ |- _ => apply decode_hash_Ok in Hd as [? ->] end.
  subst. cbn. done.
Qed.

Lemma loaded_elem st ms : load_committed_block_markers st config = Ok ms ->
  (forall mk, mk ∈ ms -> exists k row, markers st !! k = Some row /\ load_marker config (k, row) = Ok mk) /\
  (forall k row, markers st !! k = Some row -> exists mk, mk ∈ ms /\ load_marker config (k, row) = Ok mk).
Proof.
  unfold load_committed_block_markers. intros Hl. kinv. subst. apply try_map_Ok in Hr. split.
  - intros mk Hin. rewrite sort_by_key_perm in Hin. apply list_elem_of_lookup in Hin as [i Hi].
    destruct (Forall2_lookup_r _ _ _ _ _ Hr Hi) as ([k row] & Hk & Hm). exists k, row. split; [|done].
    apply elem_of_btree_iter. by eapply list_elem_of_lookup_2.
  - intros k row Hk. apply elem_of_btree_iter, list_elem_of_lookup in Hk as [i Hi].
    destruct (Forall2_lookup_l _ _ _ _ _ Hr Hi) as (mk & Hk & Hm). exists mk. split; [|done].
    rewrite sort_by_key_perm. by eapply list_elem_of_lookup_2.
Qed.

Lemma blocks_distinct st ms mk mk' : load_committed_block_markers st config = Ok ms -> unique_blocks st ->
  mk ∈ ms -> mk' ∈ ms -> cm_order_block_id mk = cm_order_block_id mk' -> mk = mk'.
Proof.
  intros Hl Hu Hin Hin' Hb. destruct (loaded_elem _ _ Hl) as [He _].
  destruct (He _ Hin) as (k & row & Hk & Hm), (He _ Hin') as (k' & row' & Hk' & Hm').
  pose proof (load_marker_block _ _ _ Hm) as (E & _). pose proof (load_marker_block _ _ _ Hm') as (E' & _).
  assert (k = k') as -> by (eapply Hu; eauto; congruence). congruence.
Qed.

(** A marker written with its checksum loads back. *)
Lemma load_marker_row mk k :
  decode_u64 k = Ok (cm_marker_sequence mk) -> in_u64 (cm_order_height mk) -> in_u64 (cm_parent_order_height mk) ->
  in_u64 (cm_source_operation_sequence mk) -> in_u64 (cm_target_operation_sequence mk) ->
  zlen (cm_order_block_id mk) = 32 -> zlen (cm_parent_order_block_id mk) = 32 ->
  zlen (cm_source_state_root mk) = 32 -> zlen (cm_target_state_root mk) = 32 ->
  zlen (cm_source_operation_root mk) = 32 -> zlen (cm_target_operation_root mk) = 32 ->
  zlen (cm_previous_marker_checksum mk) = 32 -> committed_block_marker_checksum config mk = Ok (cm_row_checksum mk) ->
  load_marker config (k, marker_row mk) = Ok mk.
Proof.
  intros Hk H1 H2 H3 H4 L1 L2 L3 L4 L5 L6 L7 Hc. unfold load_marker. rewrite Hk. cbn -[decode_u64 le_bytes decode_marker_hash committed_block_marker_checksum].
  assert (L8 : zlen (cm_row_checksum mk) = 32).
  { unfold committed_block_marker_checksum in Hc. rinv. subst. rewrite <- Hc. apply is_hash_len, checksum_hash. }
  assert (Hh : forall h, zlen h = 32 -> decode_marker_hash h = Ok h) by (intros; by apply decode_hash_Ok).
  repeat (first [rewrite decode_u64_le_bytes by done | rewrite Hh by done]; cbn -[decode_u64 le_bytes decode_marker_hash committed_block_marker_checksum]).
  destruct mk; cbn -[committed_block_marker_checksum] in *. rewrite Hc. cbn. by rewrite bool_decide_true.
Qed.

(** ** Loading after a write *)

Lemma sorted_sequences ms : cm_marker_sequence <$> ms = seqZ 0 (zlen ms) ->
  StronglySorted (fun x y => ord_ltb (cm_marker_sequence x) (cm_marker_sequence y) = true) ms.
Proof. apply seqZ_sorted. Qed.

Lemma load_after_insert st st' ms k mk :
  load_committed_block_markers st config = Ok ms -> cm_marker_sequence <$> ms = seqZ 0 (zlen ms) ->
  markers st !! k = None -> markers st' = <[k := marker_row mk]> (markers st) ->
  load_marker config (k, marker_row mk) = Ok mk -> cm_marker_sequence mk = zlen ms ->
  load_committed_block_markers st' config = Ok (ms ++ [mk]).
Proof.
  unfold load_committed_block_markers. intros Hl Hs Hn Hst' Hload Hseq. rinv. subst.
  assert (Hp : (k, marker_row mk) :: btree_iter (markers st) ≡ₚ btree_iter (markers st')).
  { rewrite !btree_iter_perm, Hst', map_to_list_insert by done. done. }
  assert (Hcons : try_map (load_marker config) ((k, marker_row mk) :: btree_iter (markers st)) = Ok (mk :: r)).
  { cbn [try_map]. rewrite Hload. cbn. by rewrite Hr. }
  destruct (try_map_perm _ _ _ _ Hp Hcons) as (r' & -> & Hpr). cbn.
  assert (sort_by_key cm_marker_sequence r' = sort_by_key cm_marker_sequence r ++ [mk]) as ->.
  { apply sort_by_key_unique; [rewrite <- Hpr, sort_by_key_perm; by rewrite Permutation_app_comm|].
    apply (seqZ_sorted _ _ 0 (zlen (sort_by_key cm_marker_sequence r) + 1)).
    rewrite fmap_app, Hs, seqZ_snoc by (unfold zlen; lia). f_equal. cbn. f_equal. lia. }
  by destruct (sort_by_key _ r).
Qed.

(** The row under a marker's sequence is that marker's row. *)
Lemma loaded_tail st init tail k row :
  load_committed_block_markers st config = Ok (init ++ [tail]) ->
  cm_marker_sequence <$> (init ++ [tail]) = seqZ 0 (zlen (init ++ [tail])) ->
  markers st !! k = Some row -> decode_u64 k = Ok (cm_marker_sequence tail) -> load_marker config (k, row) = Ok tail.
Proof.
  intros Hl Hs Hk Hd. destruct (loaded_elem _ _ Hl) as [_ He].
  destruct (He _ _ Hk) as (t & Hin & Ht). pose proof (load_marker_block _ _ _ Ht) as (_ & Hdt & _).
  assert (t = tail) as ->; [|done].
  assert (Hnd : NoDup (cm_marker_sequence <$> (init ++ [tail]))) by (rewrite Hs; apply NoDup_seqZ).
  apply list_elem_of_lookup in Hin as [i Hi].
  assert (Htl : (init ++ [tail]) !! length init = Some tail) by by apply list_lookup_middle.
  assert (i = length init) as ->; [|congruence].
  eapply NoDup_lookup; [exact Hnd| |].
  - rewrite list_lookup_fmap, Hi. reflexivity.
  - rewrite list_lookup_fmap, Htl. cbn. congruence.
Qed.

Lemma load_after_update st st' init tail k row row' mk :
  load_committed_block_markers st config = Ok (init ++ [tail]) ->
  cm_marker_sequence <$> (init ++ [tail]) = seqZ 0 (zlen (init ++ [tail])) ->
  markers st !! k = Some row -> decode_u64 k = Ok (cm_marker_sequence tail) ->
  markers st' = <[k := row']> (markers st) -> load_marker config (k, row') = Ok mk ->
  load_committed_block_markers st' config = Ok (init ++ [mk]).
Proof.
  intros Hl Hs Hk Hd Hst' Hload. pose proof (loaded_tail _ _ _ _ _ Hl Hs Hk Hd) as Ht.
  pose proof (load_marker_block _ _ _ Hload) as (_ & Hdm & _).
  unfold load_committed_block_markers in *. rinv.
  assert (Hp0 : (k, row) :: map_to_list (delete k (markers st)) ≡ₚ btree_iter (markers st)).
  { rewrite btree_iter_perm. by rewrite map_to_list_delete. }
  destruct (try_map_perm _ _ _ _ (symmetry Hp0) Hr) as (rest & Hrest & Hpr0).
  cbn [try_map] in Hrest. rewrite Ht in Hrest. cbn in Hrest. rinv. subst rest.
  assert (Hp1 : (k, row') :: map_to_list (delete k (markers st)) ≡ₚ btree_iter (markers st')).
  { rewrite btree_iter_perm, Hst'. rewrite <- (map_to_list_delete (<[k:=row']> (markers st)) k row') by apply lookup_insert_eq.
    by rewrite delete_insert_eq. }
  match goal with Hm : try_map (load_marker config) (map_to_list _) = Ok ?x |- _ => rename x into rest, Hm into Hrest end.
  assert (Hcons : try_map (load_marker config) ((k, row') :: map_to_list (delete k (markers st))) = Ok (mk :: rest)).
  { cbn [try_map]. rewrite Hload. cbn. by rewrite Hrest. }
  destruct (try_map_perm _ _ _ _ Hp1 Hcons) as (r' & -> & Hpr'). cbn.
  assert (Hinit : rest ≡ₚ init).
  { apply (Permutation_cons_inv (a := tail)). rewrite <- Hpr0, <- (sort_by_key_perm cm_marker_sequence r), Hl.
    by rewrite Permutation_app_comm. }
  assert (sort_by_key cm_marker_sequence r' = init ++ [mk]) as ->.
  { apply sort_by_key_unique; [rewrite <- Hpr', Hinit; by rewrite Permutation_app_comm|].
    apply (seqZ_sorted _ _ 0 (zlen (init ++ [tail]))). rewrite <- Hs, !fmap_app. f_equal. cbn. congruence. }
  by destruct init.
Qed.


(** ** Advancing the journal *)

(** The last marker with a longer range. *)
Definition extended (mk : Marker) (sequence : Z) (state_root operation_root checksum : Hash32V1) : Marker :=
  mkMarker (cm_marker_sequence mk) (cm_order_height mk) (cm_order_block_id mk)
    (cm_parent_order_height mk) (cm_parent_order_block_id mk) (cm_source_operation_sequence mk) sequence
    (cm_source_state_root mk) state_root (cm_source_operation_root mk) operation_root
    (cm_previous_marker_checksum mk) checksum.

(** The marker of a new block above [tail]. *)
Definition appended (tail : Marker) (execution : CommittedExecutionContextV1) (sequence : Z)
    (state_root operation_root checksum : Hash32V1) : Marker :=
  mkMarker (cm_marker_sequence tail + 1) (ex_order_height execution) (ex_order_block_id execution)
    (cm_order_height tail) (cm_order_block_id tail) (cm_target_operation_sequence tail) sequence
    (cm_target_state_root tail) state_root (cm_target_operation_root tail) operation_root
    (cm_row_checksum tail) checksum.

Lemma load_extended k row mk t sr opr ck :
  load_marker config (k, row) = Ok mk -> in_u64 t -> zlen sr = 32 -> zlen opr = 32 ->
  committed_block_marker_checksum config (extended mk t sr opr (cm_row_checksum mk)) = Ok ck ->
  load_marker config (k, mkMarkerRow (b_order_height row) (b_order_block_id row)
    (b_parent_order_height row) (b_parent_order_block_id row) (b_source_operation_sequence row) (le_bytes 8 t)
    (b_source_state_root row) sr (b_source_operation_root row) opr (b_previous_marker_checksum row) ck)
  = Ok (extended mk t sr opr ck).
Proof.
  intros Hl Ht Hsr Hor Hc. unfold load_marker in Hl |- *. kinv.
  assert (Hck : zlen ck = 32).
  { unfold committed_block_marker_checksum in Hc. rinv. subst. apply is_hash_len, checksum_hash. }
  assert (Hh : forall h, zlen h = 32 -> decode_marker_hash h = Ok h) by (intros; by apply decode_hash_Ok).
  cbn -[decode_u64 le_bytes decode_marker_hash committed_block_marker_checksum].
  repeat match goal with Hx : _ = Ok _ |- context [?f ≫= _] =>
    match type of Hx with f = _ => rewrite Hx; cbn -[decode_u64 le_bytes decode_marker_hash committed_block_marker_checksum] end
  | |- context [decode_u64 (le_bytes 8 t)] => rewrite (decode_u64_le_bytes t Ht); cbn -[decode_u64 le_bytes decode_marker_hash committed_block_marker_checksum]
  | |- context [decode_marker_hash ?h] => rewrite (Hh h) by done; cbn -[decode_u64 le_bytes decode_marker_hash committed_block_marker_checksum]
  end.
  subst mk. match goal with |- context [committed_block_marker_checksum config ?x] =>
    assert (Hx : committed_block_marker_checksum config x = Ok ck) by exact Hc; rewrite Hx; clear Hx end. cbn.
  by rewrite bool_decide_true.
Qed.

Record advanced (st st' : Store) (init : list Marker) (tail : Marker) (execution : CommittedExecutionContextV1)
    (t : Z) (state_root operation_root : Hash32V1) : Prop := {
  av_frame : st' = set_markers (markers st') st;
  av_unique : unique_blocks st';
  av_expected : ex_expected_order_height execution = cm_order_height tail /\
    ex_expected_order_block_id execution = cm_order_block_id tail;
  av_markers : exists ck,
    ex_order_height execution = cm_order_height tail /\ ex_order_block_id execution = cm_order_block_id tail /\
      load_committed_block_markers st' config = Ok (init ++ [extended tail t state_root operation_root ck]) \/
    ex_order_height execution = cm_order_height tail + 1 /\
      (forall mk, mk ∈ init ++ [tail] -> cm_order_block_id mk <> ex_order_block_id execution) /\
      load_committed_block_markers st' config
        = Ok ((init ++ [tail]) ++ [appended tail execution t state_root operation_root ck]) /\
      check_successor config (Some tail) (appended tail execution t state_root operation_root ck) = Ok tt /\
      cm_marker_sequence tail + 1 <= u64_max;
}.

Lemma unique_update st st' k row row' : unique_blocks st -> markers st !! k = Some row ->
  markers st' = <[k := row']> (markers st) -> b_order_block_id row' = b_order_block_id row -> unique_blocks st'.
Proof.
  intros Hu Hk Hst' Hb k1 k2 r1 r2. rewrite Hst'. intros H1 H2 He.
  apply lookup_insert_Some in H1 as [[<- <-]|[Hn1 H1]], H2 as [[<- <-]|[Hn2 H2]]; [done|..].
  - exfalso. apply Hn2. eapply Hu; [exact Hk|exact H2|congruence].
  - exfalso. apply Hn1. symmetry. eapply Hu; [exact H1|exact Hk|congruence].
  - eauto.
Qed.

Lemma unique_new st st' k row : unique_blocks st -> markers st' = <[k := row]> (markers st) ->
  (forall k' row', markers st !! k' = Some row' -> b_order_block_id row' <> b_order_block_id row) -> unique_blocks st'.
Proof.
  intros Hu Hst' Hfresh k1 k2 r1 r2. rewrite Hst'. intros H1 H2 He.
  apply lookup_insert_Some in H1 as [[<- <-]|[Hn1 H1]], H2 as [[<- <-]|[Hn2 H2]]; [done|..|by eauto].
  - by apply Hfresh in H2.
  - by apply Hfresh in H1.
Qed.

Lemma insert_marker_inv st m st' : insert_committed_block_marker st config m = Ok st' ->
  exists ck, committed_block_marker_checksum config (set_cm_row_checksum ck m) = Ok ck /\
    markers st !! le_bytes 8 (cm_marker_sequence m) = None /\
    (forall k row, markers st !! k = Some row -> b_order_block_id row <> cm_order_block_id m) /\
    st' = set_markers (<[le_bytes 8 (cm_marker_sequence m) := marker_row (set_cm_row_checksum ck m)]> (markers st)) st.
Proof.
  unfold insert_committed_block_marker. intros Hi. rinv. apply orb_false_iff in Hr0 as [Hn Hex]. bprop.
  exists r. split; [exact Hr|]. split; [by apply eq_None_not_Some|]. split; [|by subst].
  intros k row Hk E. apply elem_of_btree_iter, list_elem_of_In in Hk.
  assert (Ht : existsb (fun '(_, row) => b_order_block_id row =?? cm_order_block_id m) (btree_iter (markers st)) = true).
  { apply existsb_exists. exists (k, row). split; [done|by apply bool_decide_eq_true]. }
  cbn [set_cm_row_checksum cm_order_block_id] in Hex. congruence.
Qed.

Lemma advance_inv st st' init tail execution s t ssr sr sor opr :
  load_committed_block_markers st config = Ok (init ++ [tail]) ->
  cm_marker_sequence <$> (init ++ [tail]) = seqZ 0 (zlen (init ++ [tail])) -> cm_marker_sequence tail <= u64_max ->
  unique_blocks st -> typed_ex execution = true -> in_u64 s -> in_u64 t -> zlen sr = 32 -> zlen opr = 32 ->
  advance_committed_block_marker st config execution s t ssr sr sor opr = Ok st' ->
  s = cm_target_operation_sequence tail /\ ssr = cm_target_state_root tail /\ sor = cm_target_operation_root tail /\ s <= t /\
  advanced st st' init tail execution t sr opr.
Proof.
  intros Hl Hs Hmax Hu Hex Hus Hut Lsr Lor Ha. unfold advance_committed_block_marker in Ha. rewrite Hl in Ha.
  cbn [mbind result_bind] in Ha. rewrite last_snoc in Ha. cbn [expect mbind result_bind] in Ha. kinv. subst.
  do 3 (split; [done|]). split; [lia|].
  assert (Htseq : cm_marker_sequence tail = zlen init).
  { assert (Hx : (cm_marker_sequence <$> (init ++ [tail])) !! length init = Some (cm_marker_sequence tail))
      by (rewrite list_lookup_fmap, list_lookup_middle by done; done).
    rewrite Hs in Hx. apply lookup_seqZ in Hx as [Hx _]. unfold zlen. lia. }
  assert (Hkey : decode_u64 (le_bytes 8 (cm_marker_sequence tail)) = Ok (cm_marker_sequence tail)).
  { apply decode_u64_le_bytes. unfold in_u64, zlen in *. lia. }
  destruct (bool_decide _) eqn:Etip; bprop.
  - injection Etip as Eh Eb. rinv. destruct (markers st !! _) as [row|] eqn:Erow; [|done]. kinv.
    match goal with Hx : (_, _) = (_, _) |- _ => injection Hx as Xh Xb end.
    pose proof (loaded_tail _ _ _ _ _ Hl Hs Erow Hkey) as Hrow. subst st'.
    split; [done| |done|].
    + eapply (unique_update st); [exact Hu|exact Erow|reflexivity|reflexivity].
    + eexists. left. split_and!; [done..|].
      eapply (load_after_update st); [exact Hl|exact Hs|exact Erow|exact Hkey|reflexivity|].
      by eapply load_extended.
  - kinv. checked. match goal with Hx : (_, _) = (_, _) |- _ => injection Hx as Xh Xb end.
    apply insert_marker_inv in Ha as (ck & Hck & Hnone & Hfresh & ->). subst.
    set (mk := appended tail execution t sr opr ck).
    assert (Hload : load_marker config (le_bytes 8 (cm_marker_sequence mk), marker_row mk) = Ok mk).
    { destruct (loaded_elem _ _ Hl) as [He _]. destruct (He tail) as (k & row & _ & Htl); [apply elem_of_app; right; by left|].
      pose proof (load_marker_lengths _ _ _ Htl) as Hlen.
      typed_hyp Hex. widths. repeat match goal with Hx : is_hash _ = true |- _ => apply is_hash_len in Hx end.
      unfold mk. apply load_marker_row; unfold in_u64 in *; cbn -[committed_block_marker_checksum decode_u64 le_bytes];
        try tauto; try lia; try congruence.
      apply decode_u64_le_bytes. unfold in_u64, zlen in *. lia. }
    split; [done| |done|].
    + eapply (unique_new st); [exact Hu|reflexivity|exact Hfresh].
    + exists ck. right. split; [done|]. split_and!.
      * intros m Hm E. destruct (loaded_elem _ _ Hl) as [He _]. destruct (He _ Hm) as (k & row & Hk & Hld).
        apply (Hfresh _ _ Hk). apply load_marker_block in Hld as (<- & _). exact E.
      * eapply (load_after_insert st); [exact Hl|exact Hs|exact Hnone|reflexivity|exact Hload|].
        cbn. unfold zlen in *. rewrite length_app. cbn. lia.
      * cbn. unfold checked_add. rewrite !(proj2 (Z.leb_le _ _)) by lia.
        rewrite (bool_decide_false (ex_order_block_id execution = _)) by congruence.
        by rewrite !bool_decide_true by congruence.
      * lia.
Qed.

(** Only the markers change. *)
Lemma advance_tables st st' ex s t ssr sr sor opr :
  advance_committed_block_marker st config ex s t ssr sr sor opr = Ok st' -> st' = set_markers (markers st') st.
Proof.
  unfold advance_committed_block_marker. intros Ha.
  apply bind_Ok in Ha as (l & _ & Ha). apply bind_Ok in Ha as (tl & _ & Ha). apply bind_Ok in Ha as (u & _ & Ha).
  destruct (bool_decide _).
  - rinv. destruct (markers st !! _); [|done]. rinv. by subst.
  - rinv. apply insert_marker_inv in Ha as (ck & _ & _ & _ & ->). done.
Qed.

(** The keys of the table are encoded sequences. *)
Definition canonical_keys (st : Store) : Prop :=
  forall k row, markers st !! k = Some row -> exists z, in_u64 z /\ k = le_bytes 8 z.

(** A loaded marker lies under its sequence. *)
Lemma loaded_row st ms mk : load_committed_block_markers st config = Ok ms -> canonical_keys st -> mk ∈ ms ->
  in_u64 (cm_marker_sequence mk) /\ exists row, markers st !! le_bytes 8 (cm_marker_sequence mk) = Some row /\
    b_row_checksum row = cm_row_checksum mk /\ load_marker config (le_bytes 8 (cm_marker_sequence mk), row) = Ok mk.
Proof.
  intros Hl Hk Hin. destruct (loaded_elem _ _ Hl) as [He _]. destruct (He _ Hin) as (k & row & Hrow & Hld).
  destruct (Hk _ _ Hrow) as (z & Hz & ->). pose proof (load_marker_block _ _ _ Hld) as (_ & Hd & _ & _ & Hck).
  rewrite decode_u64_le_bytes in Hd by done. apply Ok_inj in Hd. subst z. split; [done|]. exists row. done.
Qed.

Lemma advance_keys st st' execution s t ssr sr sor opr : canonical_keys st ->
  advance_committed_block_marker st config execution s t ssr sr sor opr = Ok st' -> canonical_keys st'.
Proof.
  intros Hk Ha. unfold advance_committed_block_marker in Ha. apply bind_Ok in Ha as (ms & Hms & Ha).
  apply bind_Ok in Ha as (tail & Htail & Ha). apply expect_Ok, last_Some_elem_of in Htail.
  destruct (loaded_row _ _ _ Hms Hk Htail) as (Hu & _). apply bind_Ok in Ha as (u & _ & Ha). destruct (bool_decide _).
  - apply bind_Ok in Ha as (u' & _ & Ha). cbv zeta in Ha. apply bind_Ok in Ha as (ck & _ & Ha).
    destruct (markers st !! _) as [row|] eqn:Erow; [|discriminate]. apply bind_Ok in Ha as (u'' & _ & Ha). apply Ok_inj in Ha. subst st'.
    intros k row'. cbn [markers set_markers]. intros [[<- _]|[_ Hl]]%lookup_insert_Some; eauto.
  - apply bind_Ok in Ha as (u' & _ & Ha). apply bind_Ok in Ha as (z & Hz & Ha). apply ok_or_Ok in Hz. checked.
    apply insert_marker_inv in Ha as (ck & _ & _ & _ & ->).
    intros k row'. cbn [markers set_markers cm_marker_sequence]. intros [[<- _]|[_ Hl]]%lookup_insert_Some; [|eauto].
    exists z. split; [unfold in_u64 in *; lia|done].
Qed.

End markers.
