(* ===== verification/KernelCommit.v ===== *)
(** * KernelCommit: a committed execution keeps the store audited

    What [open_ro_verified] checks, as one predicate on a store, and the proof that
    the write transactions of the kernel re-establish it: the objects by the
    conservation of each escrow and of the bond, the operation journal by one
    appended row, the committed-block journal by its extended or added last marker. *)

From stdpp Require Import base gmap list sorting strings.
From S2P Require Import Prelude Crypto KernelTypes KernelStore KernelAudit Kernel KernelService KernelObjects KernelSteps KernelLedger KernelJournal KernelMarkers.

(** Run one successful step of a chain of [?]. *)
Lemma bind_step {E A B} (r : result E A) (f : A -> result E B) a x : r = Ok a -> f a = x -> (r ≫= f) = x.
Proof. by intros -> <-. Qed.
Lemma fail_if_false {E} (b : bool) (e : E) : b = false -> fail_if b e = Ok tt.
Proof. by intros ->. Qed.

Section objects_audit.
Context `{KernelCrates, !KernelLaws} (config : AgentMarketStoreConfigV1).
Implicit Types m : Objects.

(** ** Objects *)

(** What the audit asks of an object beyond its encoding. *)
Definition obj_conserved (o : KObject) : Prop :=
  match o with
  | OEscrow b s => validate_escrow_conservation b s = Ok tt
  | OBond _ s => validate_bond_conservation config s = Ok tt
  | _ => True
  end.
Definition conserved m : Prop := map_Forall (fun _ o => obj_conserved o) m.

Lemma conserved_insert m k o : obj_conserved o -> conserved m -> conserved (<[k := o]> m).
Proof. intros. by apply map_Forall_insert_2. Qed.

Lemma initial_escrow_conserved id b root : typed_eb b = true ->
  digest_value "trnm.portable.v2.escrow-active-reservations-root.v1" ([] : list EscrowReservationEntryV1) = Ok root ->
  validate_escrow_conservation b (initial_escrow config id b root) = Ok tt.
Proof.
  intros Hb Hd. typed_hyp Hb. widths. unfold validate_escrow_conservation. cbn -[checked_add digest_value].
  assert (Hadd : checked_add u128_max (eb_funded_amount b) 0 = Some (eb_funded_amount b)).
  { unfold checked_add, try_from. rewrite Z.add_0_r. by rewrite (proj2 (Z.leb_le _ _)) by lia. }
  cbn. rewrite Hadd. cbn. rewrite Hadd. cbn. rewrite Hadd. cbn. rewrite Hadd. cbn.
  rewrite !bool_decide_true by done. cbn. rewrite Hd. cbn. by rewrite bool_decide_true.
Qed.

Lemma opens_lanes_conserved b lanes : forall m m', conserved m -> opens_lanes config b lanes m m' -> conserved m'.
Proof.
  induction lanes as [|l lanes IH]; cbn; intros m m' Hm Ho; [by subst|].
  destruct Ho as (id & _ & _ & Ho). eapply IH; [|done]. by apply conserved_insert.
Qed.

Lemma typed_escrow_body b id : typed_tc b = true -> is_hash id = true -> typed_eb (escrow_body_of b id) = true.
Proof.
  intros Ht Hid. typed_hyp Ht.
  repeat match goal with Hx : typed_to _ = true |- _ => typed_hyp Hx | Hx : typed_et _ = true |- _ => typed_hyp Hx end.
  unfold escrow_body_of. typed_record.
Qed.

Lemma applies_conserved h c m m' : typed_command c = true -> conserved m -> applies config h c m m' -> conserved m'.
Proof.
  intros Ht Hm Ha. destruct Ha.
  - by apply conserved_insert.
  - eapply opens_lanes_conserved; [|eassumption]. by apply conserved_insert.
  - apply conserved_insert; [|by repeat (apply conserved_insert; [exact I|])].
    apply initial_escrow_conserved; [|assumption]. cbn in Ht. rewrite !andb_true_iff in Ht.
    apply typed_escrow_body; [tauto|].
    match goal with Hx : task_id _ = Ok _ |- _ => exact (digest_hash _ _ _ Hx) end.
  - by apply conserved_insert.
  - do 5 (apply conserved_insert; [first [exact I|assumption]|]). assumption.
  - by apply conserved_insert.
Qed.

Lemma performs_conserved h c m m' : typed_command c = true -> conserved m -> performs config h c m m' -> conserved m'.
Proof.
  intros Ht Hm (m1 & Ha & Hc). eapply applies_conserved in Ha; [|done..].
  destruct Hc; repeat (apply conserved_insert; [exact I|]); assumption.
Qed.

Lemma validate_Ok {B S} `{BorshLaw B, BorshLaw S} (id_method : B -> KResult Hash32V1) (state_id : S -> Hash32V1)
    (state_version : S -> Z) id version (b : B) (s : S) body state :
  typed b = true -> typed s = true -> borsh_to_vec b = inr body -> borsh_to_vec s = inr state ->
  id_method b = Ok id -> state_id s = id -> state_version s = version ->
  validate id_method state_id state_version id version body state = Ok (b, s).
Proof.
  intros Hb Hs Eb Es Hid Hsid Hv. unfold validate.
  rewrite (proj2 (strict_decode_Ok _ _) (conj Hb Eb)). cbn. rewrite (proj2 (strict_decode_Ok _ _) (conj Hs Es)). cbn.
  rewrite Hid. cbn. by rewrite !bool_decide_true by done.
Qed.

Lemma keyed_id_length k o : keyed k o -> zlen k.2 = 32.
Proof. intros (_ & _ & Hid & _). apply is_hash_len. destruct o; exact (digest_hash _ _ _ Hid). Qed.

Lemma audit_object_Ok k row o : encodes k row o -> obj_conserved o -> audit_object config (k, row) = Ok tt.
Proof.
  intros (Hk & Hb & Hs & Hv & Hc) Hcons. pose proof (keyed_id_length _ _ Hk) as Hlen. destruct Hk as (Hkind & Ht & Hid & Hsid).
  pose proof (obj_version_u64 _ Ht) as Hu. destruct k as [kk id]. cbn [fst snd] in *. unfold audit_object.
  assert (get_int u16_max kk = Ok kk) as -> by (rewrite Hkind; by destruct o).
  assert (Hvl : zlen (o_version row) = 8) by (rewrite Hv; unfold zlen; by rewrite le_bytes_length).
  cbn [mbind result_bind]. rewrite Hlen, Hvl. cbn -[decode_u64 validate_object_record].
  rewrite bool_decide_true by done. cbn -[decode_u64 validate_object_record].
  assert (decode_u64 (o_version row) = Ok (obj_version o)) as -> by (rewrite Hv; by apply decode_u64_le_bytes).
  cbn -[validate_object_record]. unfold validate_object_record, decode_marker_hash. rewrite Hlen. cbn -[validate].
  rewrite Hkind. destruct o; cbn -[validate] in *; apply andb_true_iff in Ht as [Ht1 Ht2];
    (erewrite validate_Ok; [|try done; try eassumption..]); cbn; done.
Qed.

Lemma audit_objects_Ok st m : Repr st m -> conserved m -> audit_objects st config = Ok tt.
Proof.
  intros HR Hc. unfold audit_objects. apply try_fold_unit, Forall_forall. intros [k row] Hin.
  apply elem_of_btree_iter in Hin. specialize (HR k). rewrite Hin in HR. destruct (m !! k) as [o|] eqn:Ho; [|done].
  eapply audit_object_Ok; [done|]. by eapply Hc.
Qed.

End objects_audit.

(** ** What an opened store satisfies *)

Section verified.
Context `{KernelCrates, !KernelLaws} (config : AgentMarketStoreConfigV1).

(** The journal has [n] operations, and [tail] is the last of its markers. *)
Record audited (st : Store) (n : Z) (init : list CommittedBlockMarkerV1) (tail : CommittedBlockMarkerV1)
    (R : gmap Z KernelTransitionReceiptV1) : Prop := {
  ad_path : sidecars st = false /\ present st = true /\ verify_schema st = Ok tt;
  ad_metadata : verify_metadata st config = Ok tt;
  ad_objects : audit_objects st config = Ok tt;
  ad_numbered : numbered st n;
  ad_fold : exists tip, try_fold (audit_operation config) (audit_start config) (journal_rows st) = Ok (n + 1, tip.1, tip.2);
  ad_tail_root : audit_operation_tail_root st = Ok tt;
  ad_markers : load_committed_block_markers st config = Ok (init ++ [tail]);
  ad_receipts : receipts st = Ok R;
  ad_chain : chain config st R 0 None (init ++ [tail]);
  ad_size : Z.of_nat (size R) = n /\ n < u64_max;
  ad_sequence : load_sequence st = Ok n /\ cm_target_operation_sequence tail = n;
  ad_tip : load_order_tip st = Ok (cm_order_height tail, cm_order_block_id tail);
  ad_state_root : load_durable_state_root st = Ok (cm_target_state_root tail);
  ad_journal_root : load_durable_journal_root st = Ok (cm_target_operation_root tail);
}.

Lemma fold_bound rows n tip :
  try_fold (audit_operation config) (audit_start config) rows = Ok (n + 1, tip.1, tip.2) -> n < u64_max.
Proof.
  destruct rows as [|r0 rows' _] using rev_ind; intros Hf.
  - cbn in Hf. injection Hf as Hn _ _. unfold u64_max. lia.
  - rewrite try_fold_app in Hf. rinv. cbn [try_fold] in Hf. rinv. subst.
    apply audit_operation_next in Hr0 as (_ & Hn & Hmax & _). cbn in Hn. lia.
Qed.

Lemma verified_audited st : open_ro_verified st config = Ok tt ->
  exists n init tail R, audited st n init tail R.
Proof.
  unfold open_ro_verified, audit_store, reject_sidecars, open_raw. intros Ho. kinv.
  repeat match goal with u : () |- _ => destruct u end.
  match goal with Ha : audit_operations _ _ = Ok _ |- _ => apply audit_operations_Ok in Ha as (n & tip & Hn & Hf & Hs) end.
  unfold audit_committed_block_journal in Ho. kinv. subst.
  match goal with Hx : try_fold (audit_marker _ _ _) _ _ = Ok _ |- _ => apply fold_chain in Hx as [Hc Heq] end.
  injection Heq as -> Hlast. unfold last_of in Hlast.
  match goal with Hl : load_committed_block_markers _ _ = Ok ?l |- _ => destruct l as [|tail init _] using rev_ind;
    [cbn in Hlast; discriminate|rewrite last_snoc in Hlast; injection Hlast as ->] end.
  assert (n = cm_target_operation_sequence tail) as -> by congruence.
  checked. unfold try_from in *.
  eexists _, init, tail, _. split; try done; try (split_and!; try done; try lia); try (by eauto).
  - eapply fold_bound; eauto.
Qed.

Lemma audited_verified st n init tail R : audited st n init tail R -> open_ro_verified st config = Ok tt.
Proof.
  intros [(Hsc & Hp & Hsch) Hm Ho Hn (tip & Hf) Ht Hl HR Hc (Hsz & Hmax) (Hs & Htn) Htip Hsr Hjr].
  unfold open_ro_verified, reject_sidecars, open_raw, audit_store. rewrite Hsc, Hp, Hsch, Hm, Ho. cbn -[audit_operations audit_committed_block_journal audit_operation_tail_root].
  rewrite (proj2 (audit_operations_Ok config st)) by eauto. cbn -[audit_committed_block_journal audit_operation_tail_root].
  rewrite Ht. cbn -[audit_committed_block_journal]. unfold audit_committed_block_journal. rewrite Hl. cbn -[collect_receipt audit_marker].
  unfold receipts in HR. rewrite HR. cbn -[audit_marker].
  rewrite (proj2 (fold_chain config st R _ 0 None _) (conj Hc eq_refl)). cbn. rewrite last_of_snoc. cbn.
  rewrite Hs, Hsr, Hjr, Htip. cbn. rewrite Htn, !bool_decide_true by done. cbn. unfold try_from. rewrite Hsz.
  rewrite (proj2 (Z.leb_le _ _)) by lia. by rewrite bool_decide_true.
Qed.

(** Every audited row has its command: the journal is as long as its last sequence. *)
Lemma audited_rows rows : forall acc acc', try_fold (audit_operation config) acc rows = Ok acc' ->
  Forall (fun r : Z * (list Z * OperationRow) => exists c id, strict_decode (p_command r.2.2) = Ok c /\
    operation_id c = Ok id /\ r.2.1 = id) rows.
Proof.
  induction rows as [|r rows IH]; cbn [try_fold]; intros acc acc' Hf; [constructor|]. rinv. constructor; [|by eapply IH].
  destruct acc as [[e ph] pb], r as [z [id row]]. unfold audit_operation in Hr. kinv. cbn [fst snd]. eauto.
Qed.

Lemma audited_length st n init tail R : audited st n init tail R -> zlen (journal st) = n.
Proof.
  intros Ha. destruct (ad_fold _ _ _ _ _ Ha) as (tip & Hf). apply audited_rows in Hf.
  destruct (numbered_rows _ _ (ad_numbered _ _ _ _ _ Ha)) as (_ & Hrows & Hpos).
  assert (Hlen : length (journal_rows st) = Z.to_nat n) by (rewrite <- (length_fmap fst), Hrows, length_seqZ; done).
  unfold zlen, journal. assert (Hom : forall rows : list (Z * (list Z * OperationRow)),
    Forall (fun r : Z * (list Z * OperationRow) => exists c id, strict_decode (p_command r.2.2) = Ok c /\
      operation_id c = Ok id /\ r.2.1 = id) rows ->
    length (omap (fun r : Z * (list Z * OperationRow) => match strict_decode (A := KernelCommandV1) (p_command r.2.2) with Ok c => Some c | _ => None end) rows) = length rows).
  { clear. induction 1 as [|r rows (c & id & Hc & _) _ IH]; [done|]. cbn [omap list_omap]. rewrite Hc. cbn. by rewrite <- IH. }
  rewrite Hom by done. lia.
Qed.

(** ** The new head of the store *)

Lemma digest_encoded_hash d e h : digest_encoded d e = Ok h -> is_hash h = true.
Proof. unfold digest_encoded. intros Hd. rinv. subst. apply sha256_width. Qed.

Lemma state_root_hash st h : compute_state_root st = Ok h -> is_hash h = true.
Proof. unfold compute_state_root. intros Hd. rinv. by eapply digest_encoded_hash. Qed.

Lemma journal_root_hash st k h : compute_operation_journal_root_through st k = Ok h -> is_hash h = true.
Proof. unfold compute_operation_journal_root_through. intros Hd. rinv. by eapply digest_encoded_hash. Qed.

Record progressed (st st' : Store) (seq h : Z) (b sr jr : Hash32V1) : Prop := {
  pg_metadata : verify_metadata st' config = Ok tt;
  pg_sequence : load_sequence st' = Ok seq;
  pg_tip : load_order_tip st' = Ok (h, b);
  pg_state_root : load_durable_state_root st' = Ok sr;
  pg_journal_root : load_durable_journal_root st' = Ok jr;
  pg_frame : exists md, st' = set_metadata md st;
}.

Lemma progress_Ok st st' seq h b sr jr :
  update_metadata_progress st config seq h b sr jr false = Ok st' ->
  in_u64 seq -> in_u64 h -> zlen b = 32 -> b <> zero_hash ->
  tb_initial_order_height (trust_bundle config) <= h ->
  (h = tb_initial_order_height (trust_bundle config) -> b = tb_initial_order_block_id (trust_bundle config)) ->
  compute_state_root st = Ok sr -> compute_operation_journal_root st = Ok jr ->
  progressed st st' seq h b sr jr.
Proof.
  unfold update_metadata_progress. intros Hu Hseq Hh Lb Hz Hi Hib Hsr Hjr.
  apply bind_Ok in Hu as (ch & Hr & Hu). apply Ok_inj in Hu.
  pose proof (is_hash_len _ (state_root_hash _ _ Hsr)) as Lsr. pose proof (is_hash_len _ (journal_root_hash _ _ _ Hjr)) as Ljr.
  assert (L8 : forall z, zlen (le_bytes 8 z) = 8) by (intros; unfold zlen; by rewrite le_bytes_length).
  assert (Hhash : forall x, zlen x = 32 -> decode_marker_hash x = Ok x) by (intros; by apply decode_hash_Ok).
  subst st'. split; [|unfold load_sequence, load_order_tip, load_durable_state_root, load_durable_journal_root, load_metadata;
    cbn -[decode_u64 decode_marker_hash le_bytes metadata_checksum]; rewrite ?decode_u64_le_bytes, ?Hhash by done; reflexivity..|by eauto].
  unfold verify_metadata. do 3 (eapply bind_step; [reflexivity|]). eapply bind_step; [exact Hr|].
  cbn [m_schema_version m_store_id m_config_hash m_sequence m_order_height m_order_block_id m_durable_state_root
    m_durable_journal_root m_fenced m_row_checksum].
  eapply bind_step; [apply fail_if_false; by rewrite !L8, Lb, Lsr, Ljr, !bool_decide_true by reflexivity|].
  eapply bind_step; [by apply decode_u64_le_bytes|].
  eapply bind_step; [apply fail_if_false|].
  { rewrite (proj2 (Z.ltb_ge _ _)) by lia. rewrite (bool_decide_false (b = _)) by done.
    destruct (h =? _) eqn:E; [|done]. bprop. by rewrite bool_decide_true by auto. }
  eapply bind_step; [exact Hsr|]. eapply bind_step; [apply fail_if_false; by rewrite bool_decide_true|].
  eapply bind_step; [exact Hjr|]. eapply bind_step; [apply fail_if_false; by rewrite bool_decide_true|]. reflexivity.
Qed.

(** ** The chain under one transaction *)

Lemma first_marker st R ms : chain config st R 0 None ms -> ms <> [] ->
  exists mk, mk ∈ ms /\ cm_order_height mk = tb_initial_order_height (trust_bundle config) /\
    cm_order_block_id mk = tb_initial_order_block_id (trust_bundle config).
Proof.
  destruct ms as [|mk ms]; [done|]. intros [Hok _] _. exists mk. split; [by left|].
  pose proof (mo_successor _ _ _ _ _ _ Hok) as Hs. cbn in Hs. kinv. done.
Qed.

(** The tip of the operation journal is the block of a marker. *)
Lemma tip_marker st n init tail R : audited st n init tail R ->
  exists mk, mk ∈ init ++ [tail] /\
    try_fold (audit_operation config) (audit_start config) (journal_rows st)
      = Ok (n + 1, cm_order_height mk, cm_order_block_id mk).
Proof.
  intros Ha. destruct (ad_fold _ _ _ _ _ Ha) as (tip & Hf). pose proof Hf as Htip.
  apply audit_fold_tip in Htip as [[_ ->]|(rows0 & r & receipt & Hrows & Hd & Hrn & Hkn & ->)].
  - destruct (first_marker _ _ _ (ad_chain _ _ _ _ _ Ha)) as (mk & Hin & Hh & Hb); [by destruct init|].
    exists mk. split; [done|]. rewrite Hf. cbn. by rewrite Hh, Hb.
  - assert (Hpos : 1 <= n).
    { destruct (numbered_rows _ _ (ad_numbered _ _ _ _ _ Ha)) as (_ & Hseq & _).
      assert (Hin : r.1 ∈ seqZ 1 n) by (rewrite <- Hseq, Hrows; apply list_elem_of_fmap_2, elem_of_app; right; by left).
      apply elem_of_seqZ in Hin. lia. }
    pose proof (ad_sequence _ _ _ _ _ Ha) as [_ Hseq]. pose proof (ad_size _ _ _ _ _ Ha) as [_ Hmax].
    destruct (chain_covers _ _ _ _ _ _ n (ad_chain _ _ _ _ _ Ha)) as (mk & rc & Hin & Hrc & Hh & Hb); cbn [base];
      try lia; try (rewrite last_of_snoc; cbn; lia).
    assert (HR : R !! r.1 = Some receipt).
    { eapply receipts_rows; [apply Ha| |done]. rewrite Hrows. apply elem_of_app. right. by left. }
    rewrite Hrn in HR. assert (rc = receipt) as -> by congruence. exists mk. split; [done|].
    rewrite Hf. cbn. by rewrite Hh, Hb.
Qed.

(** The marker of a transaction: the last one extended, or one above it. *)
Lemma advanced_chain st R st' R' st1 st2 n init tail ex t sr opr :
  chain config st R 0 None (init ++ [tail]) -> cm_target_operation_sequence tail = n -> 0 <= n < u64_max ->
  agree_upto n st R st' R' -> advanced config st1 st2 init tail ex t sr opr ->
  compute_operation_journal_root_through st' t = Ok opr ->
  (t = n /\ sr = cm_target_state_root tail /\ ex_order_height ex <> cm_order_height tail \/
   t = n + 1 /\ exists r, R' = <[n + 1 := r]> R /\ kr_order_height r = ex_order_height ex /\
     kr_order_block_id r = ex_order_block_id ex /\ kr_post_state_root r = sr) ->
  exists init' tail', load_committed_block_markers st2 config = Ok (init' ++ [tail']) /\
    chain config st' R' 0 None (init' ++ [tail']) /\ cm_order_height tail' = ex_order_height ex /\
    cm_order_block_id tail' = ex_order_block_id ex /\ cm_target_operation_sequence tail' = t /\
    cm_target_state_root tail' = sr /\ cm_target_operation_root tail' = opr.
Proof.
  intros Hc Ht Hn Hag [_ _ _ (ck & Hadv)] Hroot Hcase.
  pose proof Hc as Hcs. apply chain_snoc in Hcs as [Hci Hok].
  assert (Hc' : chain config st' R' 0 None (init ++ [tail])).
  { eapply chain_agree; [exact Hag| |exact Hc]. rewrite last_of_snoc. cbn. lia. }
  destruct Hadv as [(Eh & Eb & Hl)|(Eh & Hfresh & Hl & Hsucc & Hmax)].
  - destruct Hcase as [(_ & _ & Hne)|(-> & r & -> & Rh & Rb & Rp)]; [done|].
    exists init, (extended tail (n + 1) sr opr ck). split_and!; try done.
    apply chain_snoc. apply chain_snoc in Hc' as [Hci' _]. split; [done|].
    apply marker_ok_extend with (st := st) (R := R) (n := n) (r := r); try done; try lia; congruence.
  - exists (init ++ [tail]), (appended tail ex t sr opr ck). split_and!; try done.
    apply chain_snoc. split; [done|]. rewrite last_of_snoc.
    assert (Hzl : 0 + zlen (init ++ [tail]) = cm_marker_sequence tail + 1).
    { destruct (mo_sequence _ _ _ _ _ _ Hok) as [-> _]. unfold zlen. rewrite length_app. cbn. lia. }
    rewrite Hzl. apply marker_ok_new with (n := n) (m := t); try done.
    + rewrite (proj1 Hag) by lia. rewrite <- Ht. apply Hok.
    + destruct Hcase as [(-> & -> & _)|(-> & r & -> & Rh & Rb & Rp)]; [by left|]. right. split; [done|].
      exists r. rewrite lookup_insert_eq. done.
Qed.

(** ** One operation *)

(** The heights of a journal lie between the anchor and its last marker. *)
Lemma marker_bounds st R init tail mk : chain config st R 0 None (init ++ [tail]) -> mk ∈ init ++ [tail] ->
  mk = tail \/ cm_order_height mk < cm_order_height tail.
Proof. intros Hc Hin. eapply chain_heights; [exact Hc|exact Hin|apply last_of_snoc]. Qed.

(** The block of an execution above the anchor. *)
Lemma execution_above_anchor st R init tail st1 st2 ex t sr opr :
  chain config st R 0 None (init ++ [tail]) -> advanced config st1 st2 init tail ex t sr opr ->
  tb_initial_order_height (trust_bundle config) <= ex_order_height ex /\
  (ex_order_height ex = tb_initial_order_height (trust_bundle config) ->
   ex_order_block_id ex = tb_initial_order_block_id (trust_bundle config)).
Proof.
  intros Hc [_ _ _ (ck & Hadv)]. destruct (first_marker _ _ _ Hc) as (mk & Hin & Hh & Hb); [by destruct init|].
  destruct (marker_bounds _ _ _ _ _ Hc Hin) as [->|Hlt], Hadv as [(Eh & Eb & _)|(Eh & _)]; split; try lia; congruence.
Qed.

(** The order checks of the operation audit against the previous tip. *)
Lemma order_follows st n init tail R st1 st2 ex t sr opr mk :
  audited st n init tail R -> unique_blocks st -> advanced config st1 st2 init tail ex t sr opr -> mk ∈ init ++ [tail] ->
  (ex_order_height ex <? cm_order_height mk)
  || (ex_order_height ex =? cm_order_height mk) && (ex_order_block_id ex <>? cm_order_block_id mk)
  || (cm_order_height mk <? ex_order_height ex) && (ex_order_block_id ex =?? cm_order_block_id mk) = false.
Proof.
  intros Ha Hu [_ _ _ (ck & Hadv)] Hin. pose proof (marker_bounds _ _ _ _ _ (ad_chain _ _ _ _ _ Ha) Hin) as Hb.
  assert (Htail : tail ∈ init ++ [tail]) by (apply elem_of_app; right; by left).
  destruct Hadv as [(Eh & Eb & _)|(Eh & Hfresh & _)].
  - rewrite Eh, Eb. destruct Hb as [->|Hlt].
    + rewrite Z.ltb_irrefl, bool_decide_true by done. by rewrite andb_false_r.
    + rewrite (proj2 (Z.ltb_ge _ _)), (proj2 (Z.eqb_neq _ _)) by lia. rewrite bool_decide_false; [by rewrite andb_false_r|].
      intros E. pose proof (blocks_distinct _ _ _ _ _ (ad_markers _ _ _ _ _ Ha) Hu Htail Hin E) as ->. lia.
  - rewrite (proj2 (Z.ltb_ge _ _)), (proj2 (Z.eqb_neq _ _)) by (destruct Hb as [->|Hb]; lia).
    rewrite bool_decide_false; [by rewrite andb_false_r|]. intros E. by apply (Hfresh mk).
Qed.

Record appends (st st' : Store) (n : Z) (c : KernelCommandV1) (bytes : list Z) (id : Hash32V1)
    (receipt : KernelTransitionReceiptV1) : Prop := {
  ap_fresh : operations st !! id = None;
  ap_command : canonical_bytes c = Ok bytes /\ typed_command c = true;
  ap_receipt : exists rb, canonical_bytes receipt = Ok rb /\ typed_kr receipt = true /\
    operations st' = <[id := mkOperationRow (le_bytes 8 (n + 1)) (operation_kind c) bytes rb
      (operation_checksum id (le_bytes 8 (n + 1)) (operation_kind c) bytes rb)]> (operations st);
  ap_id : operation_id c = Ok id /\ kr_operation_id receipt = id;
  ap_sequence : kr_sequence receipt = n + 1 /\ n + 1 <= u64_max;
  ap_binding : kr_schema_version receipt = SCHEMA_VERSION_V1 /\ kr_store_id receipt = store_id config /\
    kr_operation_kind receipt = operation_kind c /\ operation_digest c = Ok (kr_operation_digest receipt);
}.

Lemma kind_u16 c : get_int u16_max (operation_kind c) = Ok (operation_kind c).
Proof. by destruct c. Qed.

Lemma appends_rows st st' n c bytes id receipt : numbered st n -> appends st st' n c bytes id receipt ->
  numbered st' (n + 1) /\ journal st' = journal st ++ [c] /\
  exists row, journal_rows st' = journal_rows st ++ [(n + 1, (id, row))] /\ operations st' = <[id := row]> (operations st) /\
    strict_decode (p_command row) = Ok c /\ strict_decode (p_receipt row) = Ok receipt /\ p_kind row = operation_kind c /\
    p_checksum row = operation_checksum id (p_sequence row) (p_kind row) (p_command row) (p_receipt row) /\
    receipt_pair (id, row) = Ok (n + 1, receipt).
Proof.
  intros Hn [Hfresh [Hc Htc] (rb & Hrb & Htr & Hops) _ [Hseq Hmax] _].
  pose proof (numbered_rows _ _ Hn) as (_ & _ & Hpos).
  assert (Hu : in_u64 (n + 1)) by (unfold in_u64; lia).
  set (row := mkOperationRow _ _ _ _ _) in Hops.
  assert (Hs : sequenced (id, row) = Ok (n + 1, (id, row))).
  { unfold sequenced. eapply bind_step; [apply kind_u16|]. eapply bind_step; [by apply decode_u64_le_bytes|]. done. }
  assert (Hdc : strict_decode (p_command row) = Ok c) by (apply strict_decode_Ok; by rewrite <- canonical_bytes_Ok).
  assert (Hdr : strict_decode (p_receipt row) = Ok receipt) by (apply strict_decode_Ok; by rewrite <- canonical_bytes_Ok).
  destruct (numbered_insert _ _ _ _ _ Hn Hfresh Hops Hs) as [Hn' Hrows]. split; [done|]. split.
  - unfold journal. rewrite Hrows, omap_app. f_equal. cbn [omap list_omap fst snd]. by rewrite Hdc.
  - exists row. split_and!; try done. unfold receipt_pair. eapply bind_step; [by apply decode_u64_le_bytes|].
    eapply bind_step; [exact Hdr|]. eapply bind_step; [apply fail_if_false; by rewrite bool_decide_true|]. done.
Qed.

(** The audit of the appended row. *)
Lemma audit_appended st st' n init tail R st1 st2 ex t sr opr c bytes id receipt :
  audited st n init tail R -> unique_blocks st -> advanced config st1 st2 init tail ex t sr opr ->
  appends st st' n c bytes id receipt -> n + 1 < u64_max ->
  kr_order_height receipt = ex_order_height ex -> kr_order_block_id receipt = ex_order_block_id ex ->
  try_fold (audit_operation config) (audit_start config) (journal_rows st')
    = Ok (n + 1 + 1, ex_order_height ex, ex_order_block_id ex).
Proof.
  intros Ha Hu Hadv Hap Hlt Hh Hb. destruct (tip_marker _ _ _ _ _ Ha) as (mk & Hin & Hf).
  pose proof (order_follows _ _ _ _ _ _ _ _ _ _ _ _ Ha Hu Hadv Hin) as Hord.
  destruct (appends_rows _ _ _ _ _ _ _ (ad_numbered _ _ _ _ _ Ha) Hap) as (_ & _ & row & Hrows & _ & Hdc & Hdr & Hk & Hck & _).
  destruct Hap as [_ _ _ [Hid Hkid] [Hseq Hmax] (Hsv & Hst & Hok & Hd)].
  rewrite Hrows, try_fold_app, Hf. cbn [mbind result_bind try_fold]. eapply bind_step; [|reflexivity].
  unfold audit_operation. eapply bind_step; [apply fail_if_false; by rewrite bool_decide_true|].
  eapply bind_step; [apply fail_if_false; by rewrite Hck, bool_decide_true|].
  eapply bind_step; [exact Hdc|]. eapply bind_step; [exact Hdr|]. eapply bind_step; [exact Hid|].
  eapply bind_step with (a := false).
  { apply or_else_false. split.
    - by rewrite Hkid, Hsv, Hst, Hseq, Hok, Hk, !bool_decide_true by done.
    - eapply bind_step; [exact Hd|]. rewrite bool_decide_true by done. rewrite Hh, Hb. cbn [negb orb]. by rewrite Hord. }
  eapply bind_step; [reflexivity|]. unfold checked_add. rewrite (proj2 (Z.leb_le _ _)) by lia. cbn. by rewrite Hh, Hb.
Qed.

(** A store whose objects, journal, markers and metadata moved together is audited again. *)
Lemma appended_audited st n init tail R m c bytes id receipt ex st1 st2 st3 st' sr jr :
  audited st n init tail R -> unique_blocks st -> Repr st' m -> conserved config m ->
  typed_ex ex = true -> ex_order_block_id ex <> zero_hash ->
  appends st st' n c bytes id receipt -> n + 1 < u64_max -> kr_order_height receipt = ex_order_height ex ->
  kr_order_block_id receipt = ex_order_block_id ex -> kr_post_state_root receipt = sr ->
  advanced config st1 st2 init tail ex (n + 1) sr jr -> markers st' = markers st2 ->
  compute_state_root st3 = Ok sr -> compute_operation_journal_root st3 = Ok jr ->
  objects st' = objects st3 -> operations st' = operations st3 ->
  update_metadata_progress st3 config (n + 1) (ex_order_height ex) (ex_order_block_id ex) sr jr false = Ok st' ->
  sidecars st' = sidecars st /\ present st' = present st /\ tables st' = tables st /\ triggers st' = triggers st ->
  exists init' tail', audited st' (n + 1) init' tail' (<[n + 1 := receipt]> R).
Proof.
  intros Ha Hu HR Hcons Hex Hz Hap Hlt Hh Hb Hp Hadv Hmk Hsr Hjr Hobj Hops Hmd (F1 & F2 & F3 & F4).
  pose proof (numbered_rows _ _ (ad_numbered _ _ _ _ _ Ha)) as (_ & _ & Hpos).
  destruct (appends_rows _ _ _ _ _ _ _ (ad_numbered _ _ _ _ _ Ha) Hap) as (Hn' & _ & row & Hrows & Hins & Hdc & Hdr & Hk & Hck & Hpair).
  pose proof (ap_sequence _ _ _ _ _ _ _ Hap) as [Hseq Hmax].
  destruct (receipts_append _ _ _ _ _ _ _ (ad_numbered _ _ _ _ _ Ha) (ad_receipts _ _ _ _ _ Ha) (ap_fresh _ _ _ _ _ _ _ Hap) Hins Hpair)
    as (HR' & HRn & Hsize & _).
  assert (Hroot' : forall k, compute_operation_journal_root_through st' k = compute_operation_journal_root_through st3 k)
    by (intros; unfold compute_operation_journal_root_through; by rewrite Hops).
  assert (Hagree : agree_upto n st R st' (<[n + 1 := receipt]> R)).
  { split; [intros k Hle; by eapply root_append; [apply Ha|..]|]. intros s Hs. apply lookup_insert_ne. lia. }
  assert (Htop : compute_operation_journal_root_through st' (n + 1) = Ok jr).
  { unfold compute_operation_journal_root in Hjr. rewrite <- Hroot' in Hjr.
    rewrite (root_full _ (n + 1)) in Hjr |- * by (done || lia). done. }
  pose proof (ad_chain _ _ _ _ _ Ha) as Hchain. pose proof (ad_sequence _ _ _ _ _ Ha) as [_ Htn].
  edestruct (advanced_chain st R st' (<[n + 1 := receipt]> R)) as (init' & tail' & Hl & Hc & Th & Tb & Tn & Tsr & Tjr); [done..|lia|done|done|exact Htop| |].
  { right. split; [done|]. exists receipt. done. }
  destruct (execution_above_anchor _ _ _ _ _ _ _ _ _ _ Hchain Hadv) as [Habove Hanchor].
  assert (Hexh : in_u64 (ex_order_height ex) /\ zlen (ex_order_block_id ex) = 32).
  { typed_hyp Hex. widths. split; [done|]. by apply is_hash_len. }
  destruct (progress_Ok _ _ _ _ _ _ _ Hmd) as [M1 M2 M3 M4 M5 _]; try (done || apply Hexh); [unfold in_u64; lia|].
  exists init', tail'. split; try done.
  - rewrite F1, F2. split_and!; try apply Ha. unfold verify_schema. rewrite F3, F4. apply Ha.
  - by eapply audit_objects_Ok.
  - exists (ex_order_height ex, ex_order_block_id ex). by eapply audit_appended.
  - unfold audit_operation_tail_root. eapply bind_step; [by eapply tail_of|]. cbn beta iota. eapply bind_step; [exact Hdr|].
    eapply bind_step; [unfold compute_state_root; rewrite Hobj; exact Hsr|]. apply fail_if_false. by rewrite Hp, bool_decide_true.
  - unfold load_committed_block_markers in *. by rewrite Hmk.
  - split; [|done]. rewrite map_size_insert_None by done. lia.
  - by rewrite M3, Th, Tb.
  - by rewrite M4, Tsr.
  - by rewrite M5, Tjr.
Qed.

(** ** The write transaction of a command *)

Definition typed_execution (ex : CommittedExecutionContextV1) : Prop :=
  typed_ex ex = true /\ validate_execution_context_static config ex = Ok tt.

Lemma execution_block ex : typed_execution ex -> ex_order_block_id ex <> zero_hash.
Proof. intros [_ Hs]. unfold validate_execution_context_static in Hs. kinv. done. Qed.

(** What a committed transaction did. *)
Record committed (st st' : Store) (n : Z) (m m' : Objects) (ex : CommittedExecutionContextV1) (c : KernelCommandV1)
    (receipt : KernelTransitionReceiptV1) : Prop := {
  ct_performs : performs config (ex_order_height ex) c m m';
  ct_objects : Repr st' m' /\ conserved config m';
  ct_journal : journal st' = journal st ++ [c];
  ct_unique : unique_blocks st';
  ct_receipt : kr_sequence receipt = n + 1 /\ operation_id c = Ok (kr_operation_id receipt) /\
    kr_order_height receipt = ex_order_height ex /\ kr_order_block_id receipt = ex_order_block_id ex /\
    compute_state_root st' = Ok (kr_post_state_root receipt) /\ kr_store_id receipt = store_id config;
  ct_recorded : exists row, operations st !! kr_operation_id receipt = None /\
    operations st' = <[kr_operation_id receipt := row]> (operations st) /\
    strict_decode (p_receipt row) = Ok receipt /\ canonical_bytes c = Ok (p_command row);
  ct_frame : sidecars st' = sidecars st /\ present st' = present st /\ tables st' = tables st /\ triggers st' = triggers st;
  ct_keys : canonical_keys st -> canonical_keys st';
  ct_tip : load_order_tip st' = Ok (ex_order_height ex, ex_order_block_id ex);
}.

(** The intermediate stores of a successful transaction: [st1] after the handlers, [st3]
    with the journal row and the marker. *)
Record transacted (st st' : Store) (ex : CommittedExecutionContextV1) (c : KernelCommandV1) (bytes : list Z) (id : Hash32V1)
    (receipt : KernelTransitionReceiptV1) (n : Z) (st1 st3 : Store) (sr jr : Hash32V1) : Prop := {
  tr_perform : perform st config (ex_order_height ex) c = Ok st1;
  tr_sequence : load_sequence st1 = Ok n /\ n + 1 <= u64_max;
  tr_state_root : compute_state_root st1 = Ok sr;
  tr_journal_root : compute_operation_journal_root st3 = Ok jr;
  tr_receipt : exists digest, operation_digest c = Ok digest /\
    receipt = mkReceipt SCHEMA_VERSION_V1 (store_id config) (n + 1) id (operation_kind c) digest
      (ex_order_height ex) (ex_order_block_id ex) sr;
  tr_fresh : operations st1 !! id = None;
  tr_row : exists rb, canonical_bytes receipt = Ok rb /\
    operations st3 = <[id := mkOperationRow (le_bytes 8 (n + 1)) (operation_kind c) bytes rb
      (operation_checksum id (le_bytes 8 (n + 1)) (operation_kind c) bytes rb)]> (operations st1);
  tr_frame : st3 = set_markers (markers st3) (set_operations (operations st3) st1);
  tr_advance : exists ssr sjr, advance_committed_block_marker (set_operations (operations st3) st1) config ex n (n + 1) ssr sr sjr jr = Ok st3;
  tr_progress : update_metadata_progress st3 config (n + 1) (ex_order_height ex) (ex_order_block_id ex) sr jr false = Ok st';
}.

Lemma transaction_trace st ex c bytes id st' receipt : execute_transaction st config ex c bytes id = Ok (st', receipt) ->
  exists n st1 st3 sr jr, transacted st st' ex c bytes id receipt n st1 st3 sr jr.
Proof.
  intros He. unfold execute_transaction in He. apply bind_Ok in He as (u & _ & He).
  apply bind_Ok in He as (st1 & Hperf & He). apply bind_Ok in He as (n & Hseq & He).
  apply bind_Ok in He as (n1 & Hn1 & He). apply bind_Ok in He as (sr & Hsr & He).
  apply bind_Ok in He as (digest & Hdig & He). cbv zeta in He. apply bind_Ok in He as (st2 & Hins & He).
  apply bind_Ok in He as (jr & Hjr & He). apply bind_Ok in He as (ssr & _ & He). apply bind_Ok in He as (sjr & _ & He).
  apply bind_Ok in He as (st3 & Hadv & He). apply bind_Ok in He as (st4 & Hmd & He).
  apply Ok_inj, pair_inj in He as [<- <-]. apply ok_or_Ok in Hn1. checked. subst n1.
  unfold insert_operation in Hins. apply bind_Ok in Hins as (rb & Hrb & Hins). cbv zeta in Hins. cbn [kr_operation_id kr_sequence] in Hins.
  destruct (operations st1 !! id) eqn:Hfresh; [discriminate|]. apply Ok_inj in Hins.
  pose proof (advance_tables _ _ _ _ _ _ _ _ _ _ Hadv) as Hf3.
  assert (Hst2 : set_operations (operations st3) st1 = st2) by (rewrite Hf3, <- Hins; done).
  exists n, st1, st3, sr, jr. split; try done; [by rewrite Hf3|by eauto|exists rb; split; [exact Hrb|by rewrite Hf3, <- Hins]| |].
  - rewrite Hst2. exact Hf3.
  - rewrite Hst2. eauto.
Qed.

Lemma progress_frame st st' seq h b sr jr f : update_metadata_progress st config seq h b sr jr f = Ok st' ->
  (exists md, st' = set_metadata md st) /\ (in_u64 h -> zlen b = 32 -> load_order_tip st' = Ok (h, b)).
Proof.
  unfold update_metadata_progress. intros Hmd. apply bind_Ok in Hmd as (ch & _ & Hmd). apply Ok_inj in Hmd. subst st'.
  split; [by eauto|]. intros Hh Hb. eapply bind_step; [reflexivity|]. eapply bind_step; [by apply decode_hash_Ok|].
  by eapply bind_step; [apply decode_u64_le_bytes|].
Qed.

Lemma typed_receipt n c id d ex sr : typed_config config -> typed_ex ex = true -> in_u64 (n + 1) -> operation_id c = Ok id ->
  operation_digest c = Ok d -> is_hash sr = true ->
  typed_kr (mkReceipt SCHEMA_VERSION_V1 (store_id config) (n + 1) id (operation_kind c) d (ex_order_height ex) (ex_order_block_id ex) sr) = true.
Proof.
  intros [Hsid _] Hx Hn Hid Hd Hsr. typed_hyp Hx. pose proof (digest_hash _ _ _ Hid).
  assert (is_hash d = true) by (destruct c; exact (digest_hash _ _ _ Hd)).
  assert (is_u16 (operation_kind c) = true) by by destruct c. unfold in_u64 in Hn. typed_record.
Qed.

(** The marker step of a transaction on an audited store. *)
Lemma transacted_advanced st st' n init tail R ex c bytes id receipt st1 st3 sr jr :
  audited st n init tail R -> unique_blocks st -> typed_ex ex = true -> same_frame st st1 ->
  transacted st st' ex c bytes id receipt n st1 st3 sr jr ->
  advanced config (set_operations (operations st3) st1) st3 init tail ex (n + 1) sr jr.
Proof.
  intros Ha Hu Htx Hf1 Htr. destruct (tr_advance _ _ _ _ _ _ _ _ _ _ _ _ Htr) as (ssr & sjr & Hadv).
  destruct (tr_sequence _ _ _ _ _ _ _ _ _ _ _ _ Htr) as [_ Hmax].
  pose proof (numbered_rows _ _ (ad_numbered _ _ _ _ _ Ha)) as (_ & _ & Hpos).
  set (st2 := set_operations (operations st3) st1) in *.
  assert (Hl2 : load_committed_block_markers st2 config = Ok (init ++ [tail])).
  { rewrite <- (ad_markers _ _ _ _ _ Ha). unfold load_committed_block_markers. unfold st2. by rewrite Hf1. }
  assert (Hu2 : unique_blocks st2) by (unfold unique_blocks, st2; rewrite Hf1; exact Hu).
  pose proof (ad_chain _ _ _ _ _ Ha) as Hch. pose proof (chain_sequences _ _ _ _ _ _ Hch) as Hcs. apply chain_snoc in Hch as [_ Hok].
  assert (Hmx : cm_marker_sequence tail <= u64_max) by (destruct (mo_sequence _ _ _ _ _ _ Hok) as [-> Hsm]; done).
  assert (Lsr : zlen sr = 32) by (apply is_hash_len; eapply state_root_hash; apply Htr).
  assert (Ljr : zlen jr = 32) by (apply is_hash_len; eapply journal_root_hash; apply (tr_journal_root _ _ _ _ _ _ _ _ _ _ _ _ Htr)).
  assert (Hun : in_u64 n /\ in_u64 (n + 1)) by (unfold in_u64; lia).
  by destruct (advance_inv config st2 st3 init tail ex n (n + 1) ssr sr sjr jr Hl2 Hcs Hmx Hu2 Htx (proj1 Hun) (proj2 Hun) Lsr Ljr Hadv)
    as (_ & _ & _ & _ & Hav).
Qed.

Lemma transaction_commits st n init tail R m ex c bytes id st' receipt :
  typed_config config -> audited st n init tail R -> unique_blocks st -> Repr st m -> conserved config m ->
  typed_execution ex -> typed_command c = true -> canonical_bytes c = Ok bytes -> operation_id c = Ok id ->
  execute_transaction st config ex c bytes id = Ok (st', receipt) ->
  exists m', committed st st' n m m' ex c receipt /\
    (n + 1 < u64_max -> exists init' tail', audited st' (n + 1) init' tail' (<[n + 1 := receipt]> R)).
Proof.
  intros Hconfig Ha Hu HR Hcons Hx Htc Hcb Hid He. pose proof (execution_block _ Hx) as Hz. destruct Hx as [Htx _].
  assert (Hxw : is_u64 (ex_order_height ex) = true /\ is_hash (ex_order_block_id ex) = true) by (typed_hyp Htx; done).
  destruct (transaction_trace _ _ _ _ _ _ _ He) as (n' & st1 & st3 & sr & jr & Htr).
  destruct (perform_refines config Hconfig _ _ _ _ _ HR (proj1 Hxw) Htc (tr_perform _ _ _ _ _ _ _ _ _ _ _ _ Htr)) as (m' & Hp & HR' & Hf1).
  assert (n' = n) as ->.
  { destruct (ad_sequence _ _ _ _ _ Ha) as [Hs _]. destruct (tr_sequence _ _ _ _ _ _ _ _ _ _ _ _ Htr) as [Hseq _].
    rewrite Hf1 in Hseq. unfold load_sequence, load_metadata in *. cbn in Hseq. congruence. }
  pose proof (transacted_advanced _ _ _ _ _ _ _ _ _ _ _ _ _ _ _ Ha Hu Htx Hf1 Htr) as Hav.
  destruct Htr as [_ [_ Hmax] Hsr Hjr (digest & Hdig & Hrc) Hfresh (rb & Hrb & Hops) Hf3 (ssr & sjr & Hadv) Hmd].
  pose proof (numbered_rows _ _ (ad_numbered _ _ _ _ _ Ha)) as (_ & _ & Hpos).
  pose proof (typed_receipt n c id digest ex sr Hconfig Htx ltac:(unfold in_u64; lia) Hid Hdig (state_root_hash _ _ Hsr)) as Hrcty.
  rewrite <- Hrc in Hrcty. destruct (progress_frame _ _ _ _ _ _ _ _ Hmd) as [(md & Hst4) Htip].
  assert (Hst : operations st1 = operations st) by by rewrite Hf1.
  assert (Hobj : objects st' = objects st3 /\ objects st3 = objects st1) by (rewrite Hst4; split; [done|]; by rewrite Hf3).
  assert (Hop' : operations st' = operations st3) by by rewrite Hst4.
  assert (HR4 : Repr st' m') by (unfold Repr; rewrite (proj1 Hobj), (proj2 Hobj); exact HR').
  pose proof (performs_conserved config _ _ _ _ Htc Hcons Hp) as Hcons'.
  assert (Hroot : forall s, objects s = objects st1 -> compute_state_root s = Ok sr) by (intros s Hs; unfold compute_state_root; by rewrite Hs).
  assert (Hap : appends st st' n c bytes id receipt).
  { rewrite Hrc in *. split; try done; [by rewrite <- Hst|]. exists rb. split_and!; try done. by rewrite Hop', Hops, Hst. }
  assert (Hframe : sidecars st' = sidecars st /\ present st' = present st /\ tables st' = tables st /\ triggers st' = triggers st)
    by (rewrite Hst4, Hf3, Hf1; done).
  exists m'. split.
  - destruct (appends_rows _ _ _ _ _ _ _ (ad_numbered _ _ _ _ _ Ha) Hap) as (_ & Hj & row & _ & Hrow & _ & Hdr & _).
    split; try done.
    + unfold unique_blocks. rewrite Hst4. apply (av_unique _ _ _ _ _ _ _ _ _ Hav).
    + rewrite Hrc. cbn. split_and!; try done. apply Hroot. by rewrite (proj1 Hobj), (proj2 Hobj).
    + rewrite Hrc. cbn [kr_operation_id]. rewrite <- Hrc. eexists. split_and!; [by rewrite <- Hst|rewrite Hop', Hops, Hst; reflexivity| |done].
      apply strict_decode_Ok. by rewrite <- canonical_bytes_Ok.
    + intros Hk. assert (Hk3 : canonical_keys st3) by (eapply advance_keys; [|exact Hadv]; unfold canonical_keys; rewrite Hf1; exact Hk).
      unfold canonical_keys. rewrite Hst4. exact Hk3.
    + apply Htip; [by apply is_width_iff, Hxw|apply is_hash_len, Hxw].
  - intros Hlt. eapply (appended_audited st) with (st2 := st3) (st3 := st3) (sr := sr); try done; try (by rewrite Hrc); try exact Hav.
    + by rewrite Hst4.
    + apply Hroot, Hobj.
    + apply Hobj.
Qed.

(** ** An empty block *)

Lemma metadata_roots st sr jr : verify_metadata st config = Ok tt ->
  load_durable_state_root st = Ok sr -> load_durable_journal_root st = Ok jr ->
  compute_state_root st = Ok sr /\ compute_operation_journal_root st = Ok jr.
Proof.
  unfold verify_metadata, load_durable_state_root, load_durable_journal_root. intros Hv Hs Hj.
  destruct (load_metadata st) as [md| |]; [|discriminate..]. cbn [mbind result_bind] in *.
  apply decode_hash_Ok in Hs as [_ ->]. apply decode_hash_Ok in Hj as [_ ->]. kinv. split; congruence.
Qed.

Lemma empty_block_audited st n init tail R m ex st3 st' :
  audited st n init tail R -> unique_blocks st -> Repr st m -> conserved config m -> typed_execution ex ->
  ex_order_height ex = ex_expected_order_height ex + 1 ->
  advance_committed_block_marker st config ex n n (cm_target_state_root tail) (cm_target_state_root tail)
    (cm_target_operation_root tail) (cm_target_operation_root tail) = Ok st3 ->
  update_metadata_progress st3 config n (ex_order_height ex) (ex_order_block_id ex)
    (cm_target_state_root tail) (cm_target_operation_root tail) false = Ok st' ->
  (exists tail', audited st' n (init ++ [tail]) tail' R /\ cm_order_height tail' = ex_order_height ex /\
    cm_order_block_id tail' = ex_order_block_id ex) /\
  unique_blocks st' /\ (canonical_keys st -> canonical_keys st') /\ Repr st' m /\ journal st' = journal st.
Proof.
  intros Ha Hu HR Hcons Hx Hnext Hadv Hmd. pose proof (execution_block _ Hx) as Hz. destruct Hx as [Htx _].
  destruct (metadata_roots _ _ _ (ad_metadata _ _ _ _ _ Ha) (ad_state_root _ _ _ _ _ Ha) (ad_journal_root _ _ _ _ _ Ha)) as [Hsr Hjr].
  pose proof (numbered_rows _ _ (ad_numbered _ _ _ _ _ Ha)) as (_ & _ & Hpos). pose proof (ad_size _ _ _ _ _ Ha) as [Hsz Hmax].
  pose proof (ad_chain _ _ _ _ _ Ha) as Hch. pose proof Hch as Hchs. apply chain_snoc in Hchs as [_ Hok].
  assert (Hmx : cm_marker_sequence tail <= u64_max).
  { destruct (mo_sequence _ _ _ _ _ _ Hok) as [-> Hsm]. done. }
  assert (Lsr : zlen (cm_target_state_root tail) = 32) by (apply is_hash_len; by eapply state_root_hash).
  assert (Ljr : zlen (cm_target_operation_root tail) = 32) by (apply is_hash_len; by eapply journal_root_hash).
  assert (Hun : in_u64 n) by (unfold in_u64; lia).
  destruct (advance_inv config _ _ _ _ _ _ _ _ _ _ _ (ad_markers _ _ _ _ _ Ha) (chain_sequences _ _ _ _ _ _ Hch) Hmx Hu Htx Hun Hun Lsr Ljr Hadv)
    as (Hn & _ & _ & _ & Hav). pose proof (av_frame _ _ _ _ _ _ _ _ _ Hav) as Hf.
  destruct (execution_above_anchor _ _ _ _ _ _ _ _ _ _ Hch Hav) as [Habove Hanchor].
  assert (Hexh : in_u64 (ex_order_height ex) /\ zlen (ex_order_block_id ex) = 32).
  { typed_hyp Htx. widths. split; [done|]. by apply is_hash_len. }
  assert (Hsr3 : compute_state_root st3 = Ok (cm_target_state_root tail)) by by rewrite Hf.
  assert (Hjr3 : compute_operation_journal_root st3 = Ok (cm_target_operation_root tail)) by by rewrite Hf.
  destruct (progress_Ok _ _ _ _ _ _ _ Hmd) as [M1 M2 M3 M4 M5 (md & Hst')]; try (done || apply Hexh).
  destruct (av_expected _ _ _ _ _ _ _ _ _ Hav) as [Xh Xb].
  assert (Hsame : operations st' = operations st /\ objects st' = objects st /\ markers st' = markers st3)
    by (rewrite Hst', Hf; done). destruct Hsame as (Ho & Hob & Hm).
  edestruct (advanced_chain st R st' R st st3 n init tail ex n) as (init' & tail' & Hl & Hc & Th & Tb & Tn & Tsr & Tjr);
    [done|done|lia| |exact Hav| |left; split_and!; [done|reflexivity|lia]|].
  { split; [|done]. intros. unfold compute_operation_journal_root_through. by rewrite Ho. }
  { unfold compute_operation_journal_root_through. rewrite Ho, Hn. apply Hok. }
  destruct (av_markers _ _ _ _ _ _ _ _ _ Hav) as (ck & [(Eh & _)|(_ & _ & Hl' & _)]); [lia|].
  rewrite Hl in Hl'. apply Ok_inj, app_inj_tail in Hl' as [-> _].
  split_and!; [exists tail'; split; [|done]| | | |].
  - assert (Hrows : journal_rows st' = journal_rows st) by by apply journal_rows_ext.
    split; try done.
    + rewrite Hst', Hf. unfold verify_schema. cbn. apply Ha.
    + eapply audit_objects_Ok; [|done]. unfold Repr. by rewrite Hob.
    + unfold numbered, records. rewrite Ho. apply Ha.
    + rewrite Hrows. apply Ha.
    + unfold audit_operation_tail_root, compute_state_root. rewrite Ho, Hob. apply Ha.
    + unfold load_committed_block_markers in *. by rewrite Hm.
    + unfold receipts. rewrite Ho. apply Ha.
    + by rewrite M3, Th, Tb.
    + by rewrite M4, Tsr.
    + by rewrite M5, Tjr.
  - unfold unique_blocks. rewrite Hm. apply Hav.
  - intros Hk. unfold canonical_keys. rewrite Hm. by eapply advance_keys.
  - unfold Repr. by rewrite Hob.
  - unfold journal. by rewrite (journal_rows_ext st).
Qed.

End verified.
