(* ===== verification/KernelRuns.v ===== *)
(** * KernelRuns: the life of a kernel store

    The invariant of the durable store of [TaskKernelStoreV1] over its whole life:
    created by [open], then changed by committed executions, empty blocks, restarts
    and interrupted commits.  Each method is reduced to what it can do to the store. *)

From stdpp Require Import base gmap list sorting strings.
From S2P Require Import Prelude Crypto KernelTypes KernelStore KernelAudit Kernel KernelService KernelObjects KernelSteps KernelLedger KernelBudgets KernelJournal KernelMarkers KernelCommit.

(** How the [&mut self] monad runs. *)
Section monad.
Context {S E : Type}.
Implicit Types s : S.
Lemma lift_bind {A B} (r : result E A) (f : A -> SE S E B) s : (lift r ≫= f) s =
  match r with Ok a => f a s | Err e => (Err e, s) | Panic => (Panic, s) end.
Proof. by destruct r. Qed.
Lemma get_bind {B} (f : S -> SE S E B) s : (get_self ≫= f) s = f s s.
Proof. done. Qed.
Lemma set_bind {B} s' (f : () -> SE S E B) s : (set_self s' ≫= f) s = f tt s'.
Proof. done. Qed.
End monad.

Section runs.
Context `{KernelCrates, !KernelLaws} (config : AgentMarketStoreConfigV1).
Implicit Types m : Objects.

(** ** The invariant *)

(** The objects after the commands [js]. *)
Record lawful m (js : list KernelCommandV1) : Prop := {
  lw_kinded : kinded m;
  lw_conserved : conserved config m;
  lw_market : market m;
  lw_accounted : accounted config m js;
  lw_value : map_sum obj_value m = tb_requester_account_funding (trust_bundle config);
  lw_bonded : map_sum obj_bonded m = tb_provider_bond_funding (trust_bundle config);
  lw_held : map_sum obj_held m = hold config * map_sum obj_leases m;
}.

Definition sound (st : Store) : Prop :=
  exists m, Repr st m /\ lawful m (journal st) /\ unique_blocks st /\ canonical_keys st.

Lemma lawful_performs m js h c m' : typed_command c = true -> lawful m js -> performs config h c m m' -> lawful m' (js ++ [c]).
Proof.
  intros Ht [Hk Hc Hm Ha Hv Hb Hh] Hp. destruct (performs_funds config _ _ _ _ Hk Hp) as [Fv Fb Fh]. split.
  - by eapply performs_kinded.
  - by eapply performs_conserved.
  - by eapply performs_market.
  - by eapply performs_accounted.
  - by rewrite Fv.
  - by rewrite Fb.
  - lia.
Qed.

(** Only the objects, the journal and the blocks count. *)
Lemma sound_ext st st' : objects st' = objects st -> operations st' = operations st -> markers st' = markers st ->
  sound st -> sound st'.
Proof.
  intros Ho Hp Hm (m & HR & Hl & Hu & Hk). exists m. split_and!.
  - unfold Repr. by rewrite Ho.
  - unfold journal. rewrite (journal_rows_ext st); done.
  - unfold unique_blocks. by rewrite Hm.
  - unfold canonical_keys. by rewrite Hm.
Qed.

(** ** Creation *)

Lemma typed_controller_lane agent : typed_pc (tb_context (trust_bundle config)) = true -> typed_ba agent = true ->
  typed_nb (controller_lane config agent) = true.
Proof. intros Hc Ha. typed_hyp Ha. typed_record. Qed.

Lemma market_empty : market ∅.
Proof. by split; intros ? ? ? Hx; rewrite lookup_empty in Hx. Qed.

Lemma accounted_empty : accounted config ∅ [].
Proof. by split; intros * Hx; try rewrite lookup_empty in Hx. Qed.

Definition genesis_account : AccountStateV1 :=
  let bundle := trust_bundle config in
  mkAccount SCHEMA_VERSION_V1 (tb_context bundle) (tb_requester_account_id bundle) 0 (tb_requester_account_funding bundle) 0 0 false.
Definition genesis_bond : BondStateV1 :=
  let bundle := trust_bundle config in
  mkBond SCHEMA_VERSION_V1 (tb_context bundle) (tb_provider_bond_id bundle) 0 (tb_provider_bond_funding bundle) 0 0 0 false.

(** The objects of a fresh store: two controller lanes, the account and the bond. *)
Definition genesis_objects (rl pl : Hash32V1) : Objects :=
  let bundle := trust_bundle config in
  let r := controller_lane config (tb_requester bundle) in
  let p := controller_lane config (tb_provider bundle) in
  <[key KindBond (tb_provider_bond_id bundle) := OBond (tb_provider_bond_body bundle) genesis_bond]>
  (<[key KindAccount (tb_requester_account_id bundle) := OAccount (tb_requester_account_body bundle) genesis_account]>
  (<[key KindNonceLane pl := OLane p (initial_lane pl p)]>
  (<[key KindNonceLane rl := OLane r (initial_lane rl r)]> ∅))).

Lemma genesis_lawful rl pl : typed_tb (trust_bundle config) = true -> rl <> pl -> lawful (genesis_objects rl pl) [].
Proof.
  intros Ht Hne. typed_hyp Ht. widths. unfold genesis_objects. split.
  - repeat (apply kinded_insert; [|reflexivity]). by apply map_Forall_empty.
  - apply conserved_insert.
    + cbn. unfold validate_bond_conservation. cbn. unfold checked_add. rewrite !Z.add_0_r, !(proj2 (Z.leb_le _ _)) by lia.
      cbn. rewrite !Z.add_0_r, !(proj2 (Z.leb_le _ _)) by lia. cbn. rewrite !Z.add_0_r, !(proj2 (Z.leb_le _ _)) by lia. cbn.
      by rewrite bool_decide_true.
    + repeat (apply conserved_insert; [exact I|]). by apply map_Forall_empty.
  - repeat (apply market_other; [reflexivity|]). apply market_empty.
  - repeat (apply accounted_other; [reflexivity|]). apply accounted_new_lane.
    + rewrite lookup_insert_ne by (intros E%key_inj; congruence). apply lookup_empty.
    + apply accounted_new_lane; [apply lookup_empty|apply accounted_empty].
  - rewrite !map_sum_insert_new, map_sum_empty; [cbn; lia|..];
      rewrite ?lookup_insert_ne by (discriminate || by intros E%key_inj); apply lookup_empty.
  - rewrite !map_sum_insert_new, map_sum_empty; [cbn; lia|..];
      rewrite ?lookup_insert_ne by (discriminate || by intros E%key_inj); apply lookup_empty.
  - rewrite !map_sum_insert_new, !map_sum_empty; [cbn; lia|..];
      rewrite ?lookup_insert_ne by (discriminate || by intros E%key_inj); apply lookup_empty.
Qed.

Lemma genesis_sound st st' : typed_config config -> validate_trust_bundle (trust_bundle config) = Ok tt ->
  schema_transaction st config = Ok st' -> sound st' /\ present st' = present st.
Proof.
  intros [_ Htb] Hv Hs. pose proof Htb as Hty. typed_hyp Hty. unfold validate_trust_bundle in Hv. kinv. clear Hv.
  unfold schema_transaction in Hs. apply bind_Ok in Hs as (u & _ & Hs). cbv zeta in Hs.
  apply bind_Ok in Hs as (st1 & I1 & Hs). apply bind_Ok in Hs as (st2 & I2 & Hs). apply bind_Ok in Hs as (st3 & I3 & Hs).
  apply bind_Ok in Hs as (st4 & I4 & Hs). apply bind_Ok in Hs as (sr & _ & Hs). apply bind_Ok in Hs as (jr & _ & Hs).
  apply bind_Ok in Hs as (st5 & I5 & I6).
  assert (HR0 : Repr (mkStore (present st) (sidecars st)
    [("agent_market_committed_blocks_v1"%string, COMMITTED_BLOCKS_SQL); ("agent_market_metadata_v1"%string, META_SQL);
     ("agent_market_objects_v1"%string, OBJECTS_SQL); ("agent_market_operations_v1"%string, OPERATIONS_SQL)]
    (triggers st) None ∅ ∅ ∅) ∅).
  { intros k. cbn [objects]. by rewrite !lookup_empty. }
  apply insert_lane_refines with (m := ∅) in I1 as (rl & Hrl & _ & HR1 & Hf1); [|exact HR0|by apply typed_controller_lane].
  eapply insert_lane_refines in I2 as (pl & Hpl & Hn2 & HR2 & Hf2); [|exact HR1|by apply typed_controller_lane].
  edestruct (insert_Repr _ _ _ _ _ _ _ (OAccount (tb_requester_account_body (trust_bundle config)) genesis_account) _ I3 HR2) as (_ & HR3 & Hf3); try reflexivity; [cbn; typed_record|cbn; congruence|].
  edestruct (insert_Repr _ _ _ _ _ _ _ (OBond (tb_provider_bond_body (trust_bundle config)) genesis_bond) _ I4 HR3) as (_ & HR4 & Hf4); try reflexivity; [cbn; typed_record|cbn; congruence|].
  unfold insert_anchor_committed_block_marker in I5. apply bind_Ok in I5 as (pre & _ & I5).
  apply insert_marker_inv in I5 as (ck & _ & _ & _ & ->).
  unfold update_metadata_progress in I6. apply bind_Ok in I6 as (ch & _ & I6). apply Ok_inj in I6.
  assert (Hf : same_frame (mkStore (present st) (sidecars st)
    [("agent_market_committed_blocks_v1"%string, COMMITTED_BLOCKS_SQL); ("agent_market_metadata_v1"%string, META_SQL);
     ("agent_market_objects_v1"%string, OBJECTS_SQL); ("agent_market_operations_v1"%string, OPERATIONS_SQL)]
    (triggers st) None ∅ ∅ ∅) st4) by (do 3 (etrans; [eassumption|]); done).
  split; [|by rewrite <- I6, Hf]. exists (genesis_objects rl pl). split_and!.
  - rewrite <- I6. exact HR4.
  - assert (journal st' = []) as ->.
    { unfold journal, journal_rows, records. rewrite <- I6, Hf. done. }
    apply genesis_lawful; [done|]. intros ->. rewrite lookup_insert_eq in Hn2. done.
  - eapply (unique_new st4); [|rewrite <- I6; reflexivity|].
    + intros k k' row row'. rewrite Hf. cbn [markers set_objects]. by rewrite lookup_empty.
    + intros k row. rewrite Hf. cbn [markers set_objects]. by rewrite lookup_empty.
  - intros k row. rewrite <- I6, Hf. cbn [markers set_objects set_markers set_metadata cm_marker_sequence].
    intros [[<- _]|[_ Hx]]%lookup_insert_Some; [|by rewrite lookup_empty in Hx]. exists 0. done.
Qed.

(** ** Executing one command *)

(** The checks before the transaction, with the recorded receipt. *)
Definition admission (st : Store) (ex : CommittedExecutionContextV1) (c : KernelCommandV1)
    : KResult (list Z * Hash32V1 * option KernelTransitionReceiptV1) :=
  _ ← reject_sidecars st;
  _ ← validate_execution_context_static config ex;
  _ ← verify_command_envelope config (ex_order_height ex) c;
  bytes ← canonical_bytes c;
  id ← operation_id c;
  _ ← open_rw_verified st config;
  recorded ← load_operation st id bytes;
  Ok (bytes, id, recorded).

Definition replay (st : Store) (ex : CommittedExecutionContextV1) (receipt : KernelTransitionReceiptV1)
    : KResult KernelExecutionOutcomeV1 :=
  let target := (kr_order_height receipt, kr_order_block_id receipt) in
  bad ← or_else ((ex_order_height ex, ex_order_block_id ex) <>? target) (tip ← load_order_tip st; Ok (tip <>? target));
  _ ← fail_if bad StaleVersion;
  confirmed ← fresh_confirm_receipt st config receipt;
  Ok (Replayed confirmed).

(** A fresh command: the transaction, then the confirmation. *)
Definition attempt (st : Store) (ex : CommittedExecutionContextV1) (c : KernelCommandV1)
    (fault : CommitFaultInternalV1) (bytes : list Z) (id : Hash32V1) : KResult KernelExecutionOutcomeV1 * Store :=
  match fault with
  | NotAppliedAckLost => (Err CommitUncertain, st)
  | ThirdState => match fence_store st config with Ok st' => (Err ThirdStateFenced, st') | Err e => (Err e, st) | Panic => (Panic, st) end
  | _ =>
      match execute_transaction st config ex c bytes id with
      | Ok (st', receipt) =>
          (if fault =?? AppliedAckLost then Err CommitUncertain
           else (confirmed ← fresh_confirm_receipt st' config receipt; Ok (Applied confirmed)), st')
      | Err e => (Err e, st)
      | Panic => (Panic, st)
      end
  end.

Lemma execute_inner_run ex c fault st :
  execute_inner config ex c fault st =
  match admission st ex c with
  | Ok (_, _, Some receipt) => (replay st ex receipt, st)
  | Ok (bytes, id, None) =>
      match validate_execution_context_cas st ex with
      | Ok _ => attempt st ex c fault bytes id
      | Err e => (Err e, st)
      | Panic => (Panic, st)
      end
  | Err e => (Err e, st)
  | Panic => (Panic, st)
  end.
Proof.
  unfold execute_inner, admission. rewrite get_bind.
  do 7 (rewrite lift_bind; match goal with |- context [match ?r with _ => _ end] => destruct r; cbn [mbind result_bind]; try reflexivity end).
  match goal with |- (match ?r with _ => _ end) st = _ => destruct r as [receipt|] end.
  - unfold replay. do 3 (rewrite lift_bind; match goal with |- context [match ?r with _ => _ end] => destruct r; cbn [mbind result_bind]; try reflexivity end).
  - rewrite lift_bind. destruct (validate_execution_context_cas st ex); try reflexivity. unfold attempt.
    destruct fault; rewrite ?lift_bind; try reflexivity.
    + destruct (execute_transaction _ _ _ _ _ _) as [[st' receipt]| |]; try reflexivity. rewrite set_bind, !lift_bind. cbn.
      by destruct (fresh_confirm_receipt st' config receipt).
    + destruct (execute_transaction _ _ _ _ _ _) as [[st' receipt]| |]; reflexivity.
Qed.

Lemma open_rw_ro st : open_rw_verified st config = open_ro_verified st config.
Proof.
  unfold open_rw_verified, open_ro_verified. destruct (reject_sidecars st) as [[]| |], (open_raw st) as [[]| |],
    (verify_schema st) as [[]| |], (verify_metadata st config) as [[]| |], (audit_store st config) as [[]| |]; reflexivity.
Qed.

(** An admitted command: its bytes, its identifier, and the store it reads. *)
Record admitted (st : Store) (ex : CommittedExecutionContextV1) (c : KernelCommandV1) (bytes : list Z) (id : Hash32V1)
    (recorded : option KernelTransitionReceiptV1) : Prop := {
  am_static : validate_execution_context_static config ex = Ok tt;
  am_envelope : verify_command_envelope config (ex_order_height ex) c = Ok tt;
  am_bytes : canonical_bytes c = Ok bytes;
  am_id : operation_id c = Ok id;
  am_verified : open_ro_verified st config = Ok tt;
  am_recorded : load_operation st id bytes = Ok recorded;
}.

Lemma admission_Ok st ex c bytes id recorded : admission st ex c = Ok (bytes, id, recorded) <-> admitted st ex c bytes id recorded.
Proof.
  unfold admission. split.
  - intros Ha. rinv. simplify_eq. repeat match goal with u : () |- _ => destruct u end.
    rewrite open_rw_ro in *. done.
  - intros [Hs He Hb Hi Hv Hr]. rewrite Hs, He, Hb, Hi, open_rw_ro, Hv. pose proof Hv as Hsc.
    unfold open_ro_verified in Hsc. apply bind_Ok in Hsc as ([] & -> & _). cbn. by rewrite Hr.
Qed.

Lemma confirm_Ok st row receipt : open_ro_verified st config = Ok tt -> operations st !! kr_operation_id receipt = Some row ->
  strict_decode (p_receipt row) = Ok receipt -> kr_store_id receipt = store_id config ->
  fresh_confirm_receipt st config receipt = Ok receipt.
Proof.
  intros Hv Hrow Hd Hs. unfold fresh_confirm_receipt. rewrite Hs. eapply bind_step; [apply fail_if_false; by rewrite bool_decide_true|].
  eapply bind_step; [exact Hv|]. eapply bind_step; [by rewrite Hrow|]. eapply bind_step; [exact Hd|].
  pose proof Hd as Hcb. apply strict_decode_Ok in Hcb as [_ Hcb]. apply canonical_bytes_Ok in Hcb.
  eapply bind_step with (a := false); [|reflexivity]. apply or_else_false. split; [by rewrite bool_decide_true|].
  eapply bind_step; [exact Hcb|]. by rewrite bool_decide_true.
Qed.

Lemma confirm_inv st receipt confirmed : fresh_confirm_receipt st config receipt = Ok confirmed -> confirmed = receipt.
Proof. unfold fresh_confirm_receipt. intros Hc. kinv. congruence. Qed.

(** The transaction of an admitted command. *)
Lemma admitted_commits st ex c bytes id st' receipt :
  typed_config config -> sound st -> typed_ex ex = true -> typed_command c = true -> admitted st ex c bytes id None ->
  execute_transaction st config ex c bytes id = Ok (st', receipt) ->
  sound st' /\ committed config st st' (zlen (journal st)) (view st) (view st') ex c receipt /\
  (zlen (journal st) + 1 < u64_max -> open_ro_verified st' config = Ok tt).
Proof.
  intros Hc (m & HR & Hl & Hu & Hk) Hx Ht [Hs He Hb Hi Hv Hr] Htx. destruct (verified_audited _ _ Hv) as (n & init & tail & R & Ha).
  rewrite (audited_length _ _ _ _ _ _ Ha).
  destruct (transaction_commits _ _ _ _ _ _ _ _ _ _ _ _ _ Hc Ha Hu HR (lw_conserved _ _ Hl) (conj Hx Hs) Ht Hb Hi Htx) as (m' & Hcm & Hau).
  rewrite (Repr_view st m HR). destruct (ct_objects _ _ _ _ _ _ _ _ _ Hcm) as [HR' _]. rewrite (Repr_view st' m' HR'). split_and!.
  - exists m'. split_and!; [done| |by apply Hcm|by apply Hcm]. rewrite (ct_journal _ _ _ _ _ _ _ _ _ Hcm).
    eapply lawful_performs; [done|done|apply Hcm].
  - done.
  - intros Hlt. destruct (Hau Hlt) as (init' & tail' & Ha'). by eapply audited_verified.
Qed.

Lemma fence_frame st st' : fence_store st config = Ok st' -> exists md, st' = set_metadata md st /\ m_fenced md = 1.
Proof.
  unfold fence_store, update_metadata_progress. intros Hf. apply bind_Ok in Hf as (n & _ & Hf). apply bind_Ok in Hf as ([h b] & _ & Hf).
  apply bind_Ok in Hf as (sr & _ & Hf). apply bind_Ok in Hf as (jr & _ & Hf). apply bind_Ok in Hf as (ch & _ & Hf).
  apply Ok_inj in Hf. eauto.
Qed.

(** No execution, interrupted or not, breaks the invariant. *)
Lemma execute_sound ex c fault st r st' :
  typed_config config -> sound st -> typed_ex ex = true -> typed_command c = true ->
  execute_inner config ex c fault st = (r, st') -> sound st'.
Proof.
  intros Hc Hs Hx Ht. rewrite execute_inner_run.
  destruct (admission st ex c) as [[[bytes id] [receipt|]]| |] eqn:Ha; [by intros [= _ <-]|..|by intros [= _ <-]|by intros [= _ <-]].
  apply admission_Ok in Ha. destruct (validate_execution_context_cas st ex); [|by intros [= _ <-]..].
  assert (Htx : forall f (r' : KResult KernelExecutionOutcomeV1),
    match execute_transaction st config ex c bytes id with
    | Ok (st'0, receipt) => (f st'0 receipt, st'0) | Err e => (Err e, st) | Panic => (Panic, st) end = (r', st') -> sound st').
  { intros f r'. destruct (execute_transaction _ _ _ _ _ _) as [[st1 receipt]| |] eqn:Et; intros [= _ <-]; try done.
    by eapply admitted_commits in Et as [Hs' _]. }
  unfold attempt. destruct fault; [apply Htx|by intros [= _ <-]|apply Htx|].
  destruct (fence_store st config) as [stf| |] eqn:Ef; intros [= _ <-]; try done.
  apply fence_frame in Ef as (md & -> & _). by apply (sound_ext st).
Qed.

(** ** Reading back *)

Lemma readback_inv st rb : fresh_readback st config = Ok rb -> exists init tail R,
  audited config st (rb_sequence rb) init tail R /\ rb_order_height rb = cm_order_height tail /\
  rb_order_block_id rb = cm_order_block_id tail /\ rb_durable_state_root rb = cm_target_state_root tail /\
  rb_durable_journal_root rb = cm_target_operation_root tail /\ rb_durable_committed_block_root rb = cm_row_checksum tail.
Proof.
  unfold fresh_readback. intros Hf. apply bind_Ok in Hf as ([] & Hv & Hf).
  destruct (verified_audited _ _ Hv) as (n & init & tail & R & Ha). exists init, tail, R.
  rewrite (proj1 (ad_sequence _ _ _ _ _ _ Ha)), (ad_tip _ _ _ _ _ _ Ha), (ad_state_root _ _ _ _ _ _ Ha), (ad_journal_root _ _ _ _ _ _ Ha) in Hf.
  cbn [mbind result_bind] in Hf. apply bind_Ok in Hf as (br & Hbr & Hf). apply Ok_inj in Hf. subst rb. cbn.
  split_and!; try done. unfold committed_block_journal_root in Hbr. apply bind_Ok in Hbr as (u & _ & Hbr).
  rewrite (ad_markers _ _ _ _ _ _ Ha) in Hbr. cbn [mbind result_bind] in Hbr. rewrite last_snoc in Hbr. cbn in Hbr. congruence.
Qed.

(** ** An empty block *)

(** The block is recorded, and nothing else changes. *)
Definition block_recorded (st st' : Store) (ex : CommittedExecutionContextV1) : Prop :=
  objects st' = objects st /\ operations st' = operations st /\ open_ro_verified st' config = Ok tt /\
  load_order_tip st' = Ok (ex_order_height ex, ex_order_block_id ex).

Lemma empty_block_cases ex st r st' : sound st -> typed_ex ex = true ->
  advance_empty_committed_execution_v1 config ex st = (r, st') ->
  sound st' /\ (st' = st \/ block_recorded st st' ex).
Proof.
  intros Hs Hx. unfold advance_empty_committed_execution_v1. rewrite get_bind, lift_bind.
  destruct (reject_sidecars st); [|intros [= _ <-]; by auto..]. rewrite lift_bind.
  destruct (validate_execution_context_static config ex) as [[]| |] eqn:Est; [|intros [= _ <-]; by auto..]. rewrite lift_bind.
  match goal with |- context [fail_if ?b ?e] => destruct (fail_if b e) eqn:Enx end; [|intros [= _ <-]; by auto..]. rewrite lift_bind.
  destruct (fresh_readback st config) as [before| |] eqn:Erb; [|intros [= _ <-]; by auto..].
  match goal with |- context [if ?b then _ else _] => destruct b end; [intros [= _ <-]; by auto|]. rewrite lift_bind.
  match goal with |- context [fail_if ?b ?e] => destruct (fail_if b e) end; [|intros [= _ <-]; by auto..]. rewrite lift_bind.
  destruct (open_rw_verified st config); [|intros [= _ <-]; by auto..]. rewrite lift_bind.
  destruct (validate_execution_context_cas st ex); [|intros [= _ <-]; by auto..]. rewrite lift_bind.
  destruct (advance_committed_block_marker _ _ _ _ _ _ _ _ _) as [st3| |] eqn:Eadv; [|intros [= _ <-]; by auto..]. rewrite lift_bind.
  destruct (update_metadata_progress _ _ _ _ _ _ _ _) as [st4| |] eqn:Emd; [|intros [= _ <-]; by auto..]. rewrite set_bind.
  intros Hrun. assert (st' = st4) as ->.
  { revert Hrun. rewrite lift_bind. destruct (fresh_readback st4 config); [|by intros [= _ <-]..]. rewrite lift_bind.
    match goal with |- context [fail_if ?b ?e] => destruct (fail_if b e) end; by intros [= _ <-]. }
  apply fail_if_Ok in Enx. bprop. checked.
  destruct (readback_inv _ _ Erb) as (init & tail & R & Ha & Hh & Hb & Hsr & Hjr & _). rewrite Hsr, Hjr in Eadv, Emd.
  destruct Hs as (m & HR & Hl & Hu & Hk).
  destruct (empty_block_audited _ _ _ _ _ _ _ _ _ _ Ha Hu HR (lw_conserved _ _ Hl) (conj Hx Est) ltac:(lia) Eadv Emd)
    as ((tail' & Ha' & Th & Tb) & Hu' & Hk' & HR' & Hj). split.
  - exists m. rewrite Hj. auto.
  - right. assert (Hfr : objects st4 = objects st /\ operations st4 = operations st).
    { unfold update_metadata_progress in Emd. apply bind_Ok in Emd as (ch & _ & Emd). apply Ok_inj in Emd. rewrite <- Emd.
      by rewrite (advance_tables _ _ _ _ _ _ _ _ _ _ Eadv). }
    destruct Hfr. unfold block_recorded. rewrite <- Th, <- Tb. split_and!; [done|done|by eapply audited_verified|apply Ha'].
Qed.

(** ** Every store a service can reach *)

Inductive life : Store -> Prop :=
| life_created st0 st : present st0 = false -> open config st0 = (Ok tt, st) -> life st
| life_executed st ex c fault r st' : life st -> typed_ex ex = true -> typed_command c = true ->
    execute_inner config ex c fault st = (r, st') -> life st'
| life_advanced st ex r st' : life st -> typed_ex ex = true ->
    advance_empty_committed_execution_v1 config ex st = (r, st') -> life st'
| life_restarted st r st' : life st -> open config st = (r, st') -> life st'.

Lemma open_present st r st' : present st = true -> open config st = (r, st') -> st' = st.
Proof.
  intros Hp. unfold open. rewrite get_bind, lift_bind, Hp.
  destruct (validate_trust_bundle _); rewrite ?lift_bind; try by intros [= _ <-].
  destruct (reject_sidecars st); rewrite ?lift_bind; try by intros [= _ <-].
  destruct (verify_schema st), (verify_metadata st config), (audit_store st config); by intros [= _ <-].
Qed.

Lemma created_sound st0 st : typed_config config -> present st0 = false -> open config st0 = (Ok tt, st) ->
  sound st /\ present st = true.
Proof.
  intros Hc Hp. unfold open. rewrite get_bind, lift_bind.
  destruct (validate_trust_bundle (trust_bundle config)) as [[]| |] eqn:Hv; [|discriminate..]. rewrite lift_bind.
  destruct (reject_sidecars st0); [|discriminate..]. rewrite Hp, set_bind. unfold create_schema. rewrite get_bind, lift_bind.
  destruct (schema_transaction _ config) as [st1| |] eqn:Hs; [|discriminate..]. rewrite set_bind.
  intros Hrun. assert (st = st1) as ->.
  { revert Hrun. rewrite lift_bind. destruct (verify_schema st1); [|discriminate..]. rewrite lift_bind.
    destruct (verify_metadata st1 config); [|discriminate..]. unfold lift. by intros [= _ <-]. }
  by destruct (genesis_sound _ _ Hc Hv Hs).
Qed.

Lemma life_sound st : typed_config config -> life st -> sound st /\ present st = true.
Proof.
  intros Hc Hl. induction Hl as [st0 st Hp Ho|st ex c fault r st' _ [Hs Hp] Hx Ht He|st ex r st' _ [Hs Hp] Hx He|st r st' _ [Hs Hp] Ho].
  - by eapply created_sound.
  - split; [by eapply execute_sound|]. revert He. rewrite execute_inner_run.
    destruct (admission st ex c) as [[[bytes id] [receipt|]]| |] eqn:Ha; [by intros [= _ <-]|..|by intros [= _ <-]|by intros [= _ <-]].
    apply admission_Ok in Ha. destruct (validate_execution_context_cas st ex); [|by intros [= _ <-]..]. unfold attempt.
    destruct fault; [|by intros [= _ <-]| |].
    3:{ destruct (fence_store st config) as [stf| |] eqn:Ef; intros [= _ <-]; try done. by apply fence_frame in Ef as (md & -> & _). }
    all: destruct (execute_transaction _ _ _ _ _ _) as [[st1 receipt]| |] eqn:Et; intros [= _ <-]; try done.
    all: eapply admitted_commits in Et as (_ & Hcm & _); [|done..]; by rewrite (proj1 (proj2 (ct_frame _ _ _ _ _ _ _ _ _ Hcm))).
  - destruct (empty_block_cases _ _ _ _ Hs Hx He) as [Hs' [->|(_ & _ & Hv & _)]]; [done|]. split; [done|].
    destruct (verified_audited _ _ Hv) as (n & init & tail & R & Ha). apply Ha.
  - by rewrite (open_present _ _ _ Hp Ho).
Qed.

End runs.
