(* ===== verification/KernelSafety.v ===== *)
(** * KernelSafety: the kernel does not panic

    Every [expect], unsigned subtraction and [unreachable!] of the kernel is behind
    a guard.  One lemma per function, resolved by the hint database [safe]. *)

From stdpp Require Import base gmap list sorting strings.
From S2P Require Import Prelude Crypto KernelTypes KernelStore KernelAudit Kernel KernelService KernelObjects KernelSteps KernelJournal KernelMarkers KernelCommit KernelRuns.

Create HintDb safe.

Lemma try_fold_safe {E A B} (f : B -> A -> result E B) l b : (forall x a, f x a <> Panic) -> try_fold f b l <> Panic.
Proof. intros Hf. apply (try_fold_not_panic (fun _ => True)); auto. Qed.
Lemma try_map_safe {E A B} (f : A -> result E B) l : (forall a, f a <> Panic) -> try_map f l <> Panic.
Proof. intros Hf. apply try_map_not_panic; auto. Qed.
Lemma expect_sub {E} a b : b <= a -> expect (E := E) (checked_sub a b) <> Panic.
Proof. intros Hle. apply expect_not_panic. unfold checked_sub. rewrite (proj2 (Z.leb_le _ _) Hle). eauto. Qed.

(** Walk through a function: each call by its lemma, each branch by cases. *)
Ltac safe :=
  repeat first
    [ solve [auto with safe]
    | progress no_panic
    | progress intros
    | apply try_fold_safe
    | apply try_map_safe
    | match goal with
      | |- (let _ := _ in _) <> Panic => cbv zeta
      | |- (match ?x with _ => _ end) <> Panic => destruct x eqn:?
      end
    ].
#[export] Hint Extern 1 (Ok _ <> Panic) => discriminate : safe.

Section safety.
Context `{KernelCrates}.

Lemma get_int_safe m z : get_int m z <> Panic.
Proof. unfold get_int. safe. Qed.
Lemma decode_u64_safe b : decode_u64 b <> Panic.
Proof. unfold decode_u64. safe. Qed.
Lemma decode_marker_hash_safe b : decode_marker_hash b <> Panic.
Proof. unfold decode_marker_hash. safe. Qed.
Lemma canonical_bytes_safe {A} `{BorshSerialize A} (a : A) : canonical_bytes a <> Panic.
Proof. unfold canonical_bytes. safe. Qed.
#[local] Hint Resolve get_int_safe decode_u64_safe decode_marker_hash_safe canonical_bytes_safe : safe.
Lemma strict_decode_safe {A} `{BorshSerialize A, BorshDeserialize A} b : strict_decode (A := A) b <> Panic.
Proof. unfold strict_decode. safe. Qed.
Lemma digest_encoded_safe d e : digest_encoded d e <> Panic.
Proof. unfold digest_encoded. safe. Qed.
#[local] Hint Resolve strict_decode_safe digest_encoded_safe : safe.
Lemma digest_value_safe {A} `{BorshSerialize A} d (a : A) : digest_value d a <> Panic.
Proof. unfold digest_value. safe. Qed.
#[local] Hint Resolve digest_value_safe : safe.
Lemma operation_digest_safe c : operation_digest c <> Panic.
Proof. unfold operation_digest. safe. Qed.
Lemma operation_id_safe c : operation_id c <> Panic.
Proof. unfold operation_id. safe. Qed.
#[local] Hint Resolve operation_digest_safe operation_id_safe : safe.
Lemma config_hash_safe config : config_hash config <> Panic.
Proof. apply digest_value_safe. Qed.
Lemma capability_id_safe b : capability_id b <> Panic.
Proof. apply digest_value_safe. Qed.
Lemma session_key_grant_id_safe b : session_key_grant_id b <> Panic.
Proof. apply digest_value_safe. Qed.
Lemma nonce_lane_id_safe b : nonce_lane_id b <> Panic.
Proof. apply digest_value_safe. Qed.
Lemma task_id_safe b : task_id b <> Panic.
Proof. apply digest_value_safe. Qed.
Lemma bid_id_safe b : bid_id b <> Panic.
Proof. apply digest_value_safe. Qed.
Lemma lease_id_safe b : lease_id b <> Panic.
Proof. apply digest_value_safe. Qed.
Lemma escrow_id_safe b : escrow_id b <> Panic.
Proof. apply digest_value_safe. Qed.
Lemma account_id_safe b : account_id b <> Panic.
Proof. apply digest_value_safe. Qed.
Lemma bond_id_safe b : bond_id b <> Panic.
Proof. apply digest_value_safe. Qed.
#[local] Hint Resolve config_hash_safe capability_id_safe session_key_grant_id_safe nonce_lane_id_safe task_id_safe bid_id_safe lease_id_safe escrow_id_safe account_id_safe bond_id_safe : safe.

Lemma extend_component_safe e b : extend_component e b <> Panic.
Proof. unfold extend_component. safe. Qed.
#[local] Hint Resolve extend_component_safe : safe.
Lemma compute_state_root_safe st : compute_state_root st <> Panic.
Proof. unfold compute_state_root, extend_object. safe. Qed.
Lemma journal_root_safe st k : compute_operation_journal_root_through st k <> Panic.
Proof. unfold compute_operation_journal_root_through, sequenced, extend_operation. safe. Qed.
Lemma load_metadata_safe st : load_metadata st <> Panic.
Proof. unfold load_metadata. safe. Qed.
#[local] Hint Resolve compute_state_root_safe journal_root_safe load_metadata_safe : safe.
Lemma journal_root_all_safe st : compute_operation_journal_root st <> Panic.
Proof. apply journal_root_safe. Qed.
#[local] Hint Resolve journal_root_all_safe : safe.
Lemma load_sequence_safe st : load_sequence st <> Panic.
Proof. unfold load_sequence. safe. Qed.
Lemma load_order_tip_safe st : load_order_tip st <> Panic.
Proof. unfold load_order_tip. safe. Qed.
Lemma load_state_root_safe st : load_durable_state_root st <> Panic.
Proof. unfold load_durable_state_root. safe. Qed.
Lemma load_journal_root_safe st : load_durable_journal_root st <> Panic.
Proof. unfold load_durable_journal_root. safe. Qed.
#[local] Hint Resolve load_sequence_safe load_order_tip_safe load_state_root_safe load_journal_root_safe : safe.
Lemma update_progress_safe st config s h b sr jr f : update_metadata_progress st config s h b sr jr f <> Panic.
Proof. unfold update_metadata_progress. safe. Qed.
#[local] Hint Resolve update_progress_safe : safe.
Lemma fence_store_safe st config : fence_store st config <> Panic.
Proof. unfold fence_store. safe. Qed.
Lemma verify_metadata_safe st config : verify_metadata st config <> Panic.
Proof. unfold verify_metadata. safe. Qed.
#[local] Hint Resolve verify_metadata_safe : safe.

Lemma committed_checksum_safe config mk : committed_block_marker_checksum config mk <> Panic.
Proof. unfold committed_block_marker_checksum. safe. Qed.
Lemma predecessor_safe config : marker_predecessor_checksum config <> Panic.
Proof. unfold marker_predecessor_checksum. safe. Qed.
#[local] Hint Resolve committed_checksum_safe predecessor_safe : safe.
Lemma insert_marker_safe st config mk : insert_committed_block_marker st config mk <> Panic.
Proof. unfold insert_committed_block_marker. safe. Qed.
Lemma load_marker_safe config e : load_marker config e <> Panic.
Proof. unfold load_marker. safe. Qed.
#[local] Hint Resolve insert_marker_safe load_marker_safe : safe.
Lemma load_markers_safe st config : load_committed_block_markers st config <> Panic.
Proof. unfold load_committed_block_markers. safe. Qed.
#[local] Hint Resolve load_markers_safe : safe.

(** The loaded markers are not empty. *)
Lemma loaded_last st config ms : load_committed_block_markers st config = Ok ms -> is_Some (last ms).
Proof. unfold load_committed_block_markers. intros Hl. rinv. subst. apply last_is_Some. by destruct (sort_by_key _ _). Qed.

Lemma advance_safe st config ex s t ssr sr sor opr : advance_committed_block_marker st config ex s t ssr sr sor opr <> Panic.
Proof.
  unfold advance_committed_block_marker. apply bind_not_panic; [auto with safe|]. intros ms Hms.
  apply bind_not_panic; [apply expect_not_panic; by eapply loaded_last|]. intros tail _. safe.
Qed.

(** ** Audits *)

Lemma escrow_conservation_safe b s : validate_escrow_conservation b s <> Panic.
Proof. unfold validate_escrow_conservation. safe. Qed.
Lemma bond_conservation_safe config s : validate_bond_conservation config s <> Panic.
Proof. unfold validate_bond_conservation. safe. Qed.
Lemma validate_safe {B S} `{BorshSerialize B, BorshDeserialize B, BorshSerialize S, BorshDeserialize S}
    (f : B -> KResult Hash32V1) (g : S -> Hash32V1) (v : S -> Z) id n b s : (forall x, f x <> Panic) -> validate f g v id n b s <> Panic.
Proof. unfold validate. intros Hf. safe. Qed.
#[local] Hint Resolve advance_safe escrow_conservation_safe bond_conservation_safe validate_safe : safe.
Lemma audit_objects_safe st config : audit_objects st config <> Panic.
Proof. unfold audit_objects, audit_object, validate_object_record. safe. Qed.
Lemma sequenced_safe e : sequenced e <> Panic.
Proof. unfold sequenced. safe. Qed.
Lemma audit_operation_safe config acc r : audit_operation config acc r <> Panic.
Proof. unfold audit_operation. safe. Qed.
#[local] Hint Resolve audit_objects_safe sequenced_safe audit_operation_safe : safe.
Lemma audit_operations_safe st config : audit_operations st config <> Panic.
Proof. unfold audit_operations. safe. Qed.
Lemma audit_tail_safe st : audit_operation_tail_root st <> Panic.
Proof. unfold audit_operation_tail_root, operation_tail. safe. Qed.
Lemma audit_marker_safe st config R acc mk : audit_marker st config R acc mk <> Panic.
Proof. unfold audit_marker, check_successor, range_step. safe. Qed.
Lemma collect_receipt_safe R e : collect_receipt R e <> Panic.
Proof. unfold collect_receipt. safe. Qed.
#[local] Hint Resolve audit_operations_safe audit_tail_safe audit_marker_safe collect_receipt_safe : safe.

Lemma audit_blocks_safe st config : audit_committed_block_journal st config <> Panic.
Proof.
  unfold audit_committed_block_journal. apply bind_not_panic; [auto with safe|]. intros ms Hms.
  apply bind_not_panic; [safe|]. intros R _. apply bind_not_panic; [safe|]. intros [i prev] Hf.
  apply fold_chain in Hf as [_ Heq]. injection Heq as -> ->.
  apply bind_not_panic; [|intros; safe]. apply expect_not_panic. unfold last_of.
  destruct (loaded_last _ _ _ Hms) as [tail ->]. eauto.
Qed.
#[local] Hint Resolve audit_blocks_safe : safe.
Lemma open_ro_safe st config : open_ro_verified st config <> Panic.
Proof. unfold open_ro_verified, reject_sidecars, open_raw, verify_schema, audit_store. safe. Qed.
#[local] Hint Resolve open_ro_safe : safe.

(** ** Handlers *)

Lemma load_object_safe {B S} `{BorshSerialize B, BorshDeserialize B, BorshSerialize S, BorshDeserialize S} st K id :
  load_object B S st K id <> Panic.
Proof. unfold load_object. safe. Qed.
Lemma insert_object_safe {B S} `{BorshSerialize B, BorshSerialize S} st K id v (b : B) (s : S) : insert_object st K id v b s <> Panic.
Proof. unfold insert_object. safe. Qed.
Lemma update_object_safe {B S} `{BorshSerialize B, BorshSerialize S} st K id e v (b : B) (s : S) : update_object st K id e v b s <> Panic.
Proof. unfold update_object. safe. Qed.
Lemma bootstrap_agent_safe tb a : bootstrap_agent tb a <> Panic.
Proof. unfold bootstrap_agent. safe. Qed.
#[local] Hint Resolve load_object_safe insert_object_safe update_object_safe bootstrap_agent_safe : safe.
Lemma envelope_safe config h c : verify_command_envelope config h c <> Panic.
Proof. unfold verify_command_envelope, verify_authorization_signature. safe. Qed.
Lemma scope_safe st b c : validate_operation_scope st b c <> Panic.
Proof. unfold validate_operation_scope, resolve_operation_scope. safe. Qed.
#[local] Hint Resolve envelope_safe scope_safe : safe.

Section laws.
Context `{!KernelLaws}.

Lemma authorize_safe st config h c : authorize st config h c <> Panic.
Proof.
  unfold authorize. cbv zeta. apply bind_not_panic; [safe|]. intros u Hu.
  do 5 (apply bind_not_panic; [safe|]; intros ? ?; try match goal with p : (_ * _)%type |- _ => destruct p end).
  destruct (operation_kind c <=? 3); [safe|]. kinv.
  apply bind_not_panic; [apply expect_not_panic; by destruct (au_capability_id _)|]. intros cid _.
  apply bind_not_panic; [apply expect_not_panic; by destruct (au_session_key_grant_id _)|]. intros sid _. safe.
Qed.

Lemma sorted_safe {T} `{RustOrd T} (l : list T) : require_strictly_sorted_unique l <> Panic.
Proof. unfold require_strictly_sorted_unique. safe. Qed.
Lemma unique_key_safe {T K} `{EqDecision K} (k : T -> K) (l : list T) : require_unique_key k l <> Panic.
Proof. unfold require_unique_key. safe. Qed.
#[local] Hint Resolve sorted_safe unique_key_safe : safe.

Lemma apply_task_safe st config h b a : apply_task_create st config h b a <> Panic.
Proof.
  unfold apply_task_create, validate_body_context, account_total. safe. apply expect_sub. kinv. lia.
Qed.

Lemma apply_lease_safe st config h b v1 v2 v3 a : apply_lease_accept st config h b v1 v2 v3 a <> Panic.
Proof.
  unfold apply_lease_accept, validate_body_context. cbv zeta. safe; apply expect_sub; kinv; cbn in *; lia.
Qed.

Lemma apply_command_safe st config h c : apply_command st config h c <> Panic.
Proof.
  destruct c; cbn [apply_command]; [|..|apply apply_lease_safe|].
  - unfold apply_capability_grant, validate_body_context, check_resource_scope. safe.
  - unfold apply_session_grant, validate_body_context, insert_nonce_lane. safe.
  - apply apply_task_safe.
  - unfold apply_bid, validate_body_context. safe.
  - unfold apply_provider_accept. safe.
Qed.

Lemma charge_counter_safe l q : charge_counter l q <> Panic.
Proof. induction l; cbn; safe. Qed.
#[local] Hint Resolve charge_counter_safe : safe.
Lemma apply_budget_safe h b s c : apply_budget h b s c <> Panic.
Proof. unfold apply_budget, checked_budget_add. cbv zeta. safe. Qed.
#[local] Hint Resolve authorize_safe apply_command_safe apply_budget_safe : safe.

Lemma loaded_version {B S} `{BorshLaw B, BorshLaw S} st K id (b : B) (s : S) : load_object B S st K id = Ok (b, s) -> typed s = true.
Proof. intros Hl. by apply load_row in Hl as (row & _ & _ & _ & Hs & _). Qed.

Lemma consume_safe st st0 config h c sn : authorize st config h c = Ok sn -> consume_authorization st0 h c sn <> Panic.
Proof.
  intros Ha. unfold consume_authorization. cbv zeta. apply bind_not_panic; [safe|]. intros v1 Hv1.
  apply bind_not_panic; [safe|]. intros v2 _. apply bind_not_panic; [safe|]. intros st1 _.
  unfold authorize in Ha. apply bind_Ok in Ha as (u & _ & Ha). cbv zeta in Ha. apply bind_Ok in Ha as (lid & _ & Ha).
  apply bind_Ok in Ha as ([lb ls] & _ & Ha). do 3 apply bind_Ok in Ha as (? & _ & Ha).
  destruct (operation_kind c <=? 3) eqn:Ek; bprop; [rinv; subst; cbn; safe|].
  apply bind_Ok in Ha as (cid & _ & Ha). apply bind_Ok in Ha as (sid & _ & Ha).
  apply bind_Ok in Ha as ([cb cs] & Hcap & Ha). apply bind_Ok in Ha as ([sb ss] & Hses & Ha). rinv. subst sn.
  cbn [sn_capability sn_session]. apply loaded_version in Hcap, Hses.
  change (typed_cs cs = true) in Hcap. change (typed_ss ss = true) in Hses.
  apply bind_not_panic; [destruct c; cbn in Ek |- *; (lia || safe)|]. intros ch _.
  apply bind_not_panic; [safe|]. intros cs' Hcs'. apply apply_budget_charged in Hcs' as [[Hver _] _ _ _ _ _ _ _ _].
  do 3 (apply bind_not_panic; [safe|]; intros ? ?).
  apply bind_not_panic; [apply expect_sub; typed_hyp Hcap; widths; lia|]. intros e1 _.
  apply bind_not_panic; [safe|]. intros st2 _.
  apply bind_not_panic; [|intros; safe]. apply expect_sub. typed_hyp Hses. widths. kinv. checked. cbn in *. lia.
Qed.

Lemma perform_safe st config h c : perform st config h c <> Panic.
Proof.
  unfold perform. apply bind_not_panic; [safe|]. intros sn Hsn. apply bind_not_panic; [safe|]. intros st1 _. by eapply consume_safe.
Qed.
#[local] Hint Resolve perform_safe : safe.

Lemma execute_transaction_safe st config ex c bytes id : execute_transaction st config ex c bytes id <> Panic.
Proof. unfold execute_transaction, validate_execution_context_cas, insert_operation. safe. Qed.

Lemma confirm_safe st config rc : fresh_confirm_receipt st config rc <> Panic.
Proof. unfold fresh_confirm_receipt. safe. Qed.
#[local] Hint Resolve execute_transaction_safe confirm_safe : safe.

(** No execution panics, whatever the store, the command and the fault. *)
Lemma execute_safe config ex c fault st : (execute_inner config ex c fault st).1 <> Panic.
Proof.
  rewrite execute_inner_run.
  assert (Ha : admission config st ex c <> Panic).
  { unfold admission, reject_sidecars, validate_execution_context_static, load_operation. rewrite open_rw_ro. safe. }
  destruct (admission config st ex c) as [[[bytes id] [rc|]]| |]; cbn; try done.
  - unfold replay. safe.
  - assert (Hcas : validate_execution_context_cas st ex <> Panic) by (unfold validate_execution_context_cas; safe).
    destruct (validate_execution_context_cas st ex); cbn; try done. unfold attempt.
    pose proof (execute_transaction_safe st config ex c bytes id) as Htx. pose proof (fence_store_safe st config) as Hfs.
    destruct fault; cbn; [|done| |].
    + destruct (execute_transaction _ _ _ _ _ _) as [[st' rc]| |]; cbn; try done. safe.
    + destruct (execute_transaction _ _ _ _ _ _) as [[st' rc]| |]; cbn; try done.
    + destruct (fence_store st config); cbn; done.
Qed.

End laws.

End safety.
