(* ===== verification/KernelTheorems.v ===== *)
(** * KernelTheorems: the properties of [trnm-task-kernel]

    For every store a service can reach ([life]): a committed execution is one step of
    the abstract kernel, an interrupted one is recovered by its retry, a fenced store
    stays fenced, funds are conserved, nonces and budgets are exact, and the graph of
    tasks, bids, leases and escrows is consistent. *)

From stdpp Require Import base gmap list sorting strings.
From S2P Require Import Prelude Crypto KernelTypes KernelStore KernelAudit Kernel KernelService KernelObjects KernelSteps KernelLedger KernelBudgets KernelJournal KernelMarkers KernelCommit KernelRuns KernelSafety.

Section theorems.
Context `{KernelCrates, !KernelLaws} (config : AgentMarketStoreConfigV1).

(** ** Replays *)

Lemma recorded_row st id bytes receipt : load_operation st id bytes = Ok (Some receipt) ->
  exists row, operations st !! id = Some row /\ p_command row = bytes /\ strict_decode (p_receipt row) = Ok receipt.
Proof.
  unfold load_operation. destruct (operations st !! id) as [row|]; [|done]. intros Hl. kinv. simplify_eq. eauto.
Qed.

(** A recorded command is in the journal. *)
Lemma recorded_journal st id row c : open_ro_verified st config = Ok tt -> operations st !! id = Some row ->
  strict_decode (p_command row) = Ok c -> c ∈ journal st.
Proof.
  intros Hv Hrow Hd. destruct (verified_audited _ _ Hv) as (n & init & tail & R & Ha).
  destruct (ad_numbered _ _ _ _ _ _ Ha) as (l & Hl & _).
  assert (Hin : exists r, r ∈ journal_rows st /\ r.2.2 = row).
  { unfold journal_rows. rewrite Hl. unfold records in Hl. apply try_map_Ok in Hl.
    apply elem_of_btree_iter, list_elem_of_lookup in Hrow as [i Hi].
    destruct (Forall2_lookup_l _ _ _ _ _ Hl Hi) as (r & Hr & Hs). exists r. split.
    - rewrite sort_by_key_perm. by eapply list_elem_of_lookup_2.
    - unfold sequenced in Hs. kinv. by subst. }
  destruct Hin as (r & Hin & <-). unfold journal. apply list_elem_of_omap. exists r. by rewrite Hd.
Qed.

Lemma replay_inv st ex c bytes id receipt o : typed_command c = true -> admitted config st ex c bytes id (Some receipt) ->
  replay config st ex receipt = Ok o -> o = Replayed receipt /\ c ∈ journal st /\ fresh_confirm_receipt st config receipt = Ok receipt.
Proof.
  intros Ht [_ _ Hb Hi Hv Hr] Ho. destruct (recorded_row _ _ _ _ Hr) as (row & Hrow & Hc & Hd).
  unfold replay in Ho. cbv zeta in Ho. apply bind_Ok in Ho as (bad & _ & Ho). apply bind_Ok in Ho as (u & _ & Ho).
  apply bind_Ok in Ho as (confirmed & Hcf & Ho). apply Ok_inj in Ho. pose proof (confirm_inv _ _ _ _ Hcf) as ->.
  split_and!; [done| |done]. eapply recorded_journal; [done|done|]. apply strict_decode_Ok. rewrite Hc. by rewrite <- canonical_bytes_Ok.
Qed.

(** ** Executions *)

(** What lies behind an applied execution. *)
Lemma applied_inv st ex c receipt st' :
  typed_config config -> sound config st -> typed_ex ex = true -> typed_command c = true ->
  zlen (journal st) + 1 < u64_max ->
  execute_inner config ex c NoFault st = (Ok (Applied receipt), st') ->
  exists bytes id, admitted config st ex c bytes id None /\ validate_execution_context_cas st ex = Ok tt /\
    execute_transaction st config ex c bytes id = Ok (st', receipt) /\
    committed config st st' (zlen (journal st)) (view st) (view st') ex c receipt /\ open_ro_verified st' config = Ok tt.
Proof.
  intros Hc Hs Hx Ht Hlen. rewrite execute_inner_run.
  destruct (admission config st ex c) as [[[bytes id] [rc|]]| |] eqn:Ha; [|..|discriminate|discriminate].
  - intros [= Hr _]. unfold replay in Hr. kinv. discriminate.
  - apply admission_Ok in Ha. destruct (validate_execution_context_cas st ex) as [[]| |]; [|discriminate..]. unfold attempt.
    destruct (execute_transaction st config ex c bytes id) as [[st1 rc]| |] eqn:Et; [|discriminate..].
    intros [= Hr <-]. rinv. pose proof (confirm_inv _ _ _ _ Hr0) as ->. simplify_eq.
    destruct (admitted_commits _ _ _ _ _ _ _ _ Hc Hs Hx Ht Ha Et) as (_ & Hcm & Hv). exists bytes, id. split_and!; auto.
Qed.

Lemma committed_confirmed st st' n m m' ex c receipt : committed config st st' n m m' ex c receipt ->
  open_ro_verified st' config = Ok tt -> fresh_confirm_receipt st' config receipt = Ok receipt.
Proof.
  intros Hcm Hv. destruct (ct_recorded _ _ _ _ _ _ _ _ _ Hcm) as (row & _ & Hops & Hd & _).
  eapply confirm_Ok; [done|by rewrite Hops, lookup_insert_eq|done|apply Hcm].
Qed.

Lemma attempt_not_replayed st ex c bytes id receipt st' :
  match validate_execution_context_cas st ex with
  | Ok _ => attempt config st ex c NoFault bytes id | Err e => (Err e, st) | Panic => (Panic, st)
  end <> (Ok (Replayed receipt), st').
Proof.
  destruct (validate_execution_context_cas st ex); [|discriminate..]. unfold attempt.
  destruct (execute_transaction _ _ _ _ _ _) as [[st1 rc]| |]; [|discriminate..]. cbn.
  by destruct (fresh_confirm_receipt st1 config rc).
Qed.

(** A rejected command leaves the store as it was. *)
Lemma rejected_unchanged st ex c e st' :
  typed_config config -> sound config st -> typed_ex ex = true -> typed_command c = true ->
  zlen (journal st) + 1 < u64_max ->
  execute_inner config ex c NoFault st = (Err e, st') -> st' = st.
Proof.
  intros Hc Hs Hx Ht Hlen. rewrite execute_inner_run.
  destruct (admission config st ex c) as [[[bytes id] [rc|]]| |] eqn:Ha; [by intros [= _ <-]|..|by intros [= _ <-]|by intros [= _ <-]].
  apply admission_Ok in Ha. destruct (validate_execution_context_cas st ex); [|by intros [= _ <-]..]. unfold attempt.
  destruct (execute_transaction _ _ _ _ _ _) as [[st1 rc]| |] eqn:Et; [|by intros [= _ <-]..].
  destruct (admitted_commits _ _ _ _ _ _ _ _ Hc Hs Hx Ht Ha Et) as (_ & Hcm & Hv). cbn.
  rewrite (committed_confirmed _ _ _ _ _ _ _ _ Hcm (Hv Hlen)). done.
Qed.

(** C5: A committed execution of a command is atomic, total and exactly one step of
    the abstract kernel.  On every reachable store whose journal is not full, either the
    command is applied (the typed objects make one [performs] step, the journal gains
    exactly this command, and the fresh reopening confirms the receipt, which carries
    the journal's length and the new state root), or it was journaled before and is
    replayed without a write, or it is rejected and the store is unchanged; it never
    panics, and never commits without confirming. *)
Theorem execution_refines_kernel st ex c r st' :
  typed_config config -> life config st -> typed_ex ex = true -> typed_command c = true ->
  zlen (journal st) + 1 < u64_max ->
  execute_committed_execution config ex c st = (r, st') ->
  match r with
  | Ok (Applied receipt) =>
      performs config (ex_order_height ex) c (view st) (view st') /\ journal st' = journal st ++ [c] /\
      confirm_receipt st' config receipt = Ok receipt /\ kr_sequence receipt = zlen (journal st') /\
      compute_state_root st' = Ok (kr_post_state_root receipt) /\
      load_order_tip st' = Ok (ex_order_height ex, ex_order_block_id ex)
  | Ok (Replayed receipt) => st' = st /\ c ∈ journal st /\ confirm_receipt st config receipt = Ok receipt
  | Err _ => st' = st
  | Panic => False
  end.
Proof.
  intros Hc Hl Hx Ht Hlen He. destruct (life_sound config st Hc Hl) as [Hs _].
  pose proof (execute_safe config ex c NoFault st) as Hsafe. unfold execute_committed_execution in He. rewrite He in Hsafe.
  destruct r as [[receipt|receipt]|e|]; [| | |done].
  - destruct (applied_inv _ _ _ _ _ Hc Hs Hx Ht Hlen He) as (bytes & id & _ & _ & _ & Hcm & Hv).
    destruct (ct_receipt _ _ _ _ _ _ _ _ _ Hcm) as (Hseq & _ & _ & _ & Hroot & Hsid).
    rewrite (ct_journal _ _ _ _ _ _ _ _ _ Hcm). split_and!; try done; try apply Hcm.
    + by eapply committed_confirmed.
    + rewrite Hseq. unfold zlen. rewrite length_app. cbn. lia.
  - rewrite execute_inner_run in He. destruct (admission config st ex c) as [[[bytes id] [rc|]]| |] eqn:Ha; [|..|discriminate|discriminate].
    + injection He as Hr <-. apply admission_Ok in Ha. apply (replay_inv _ _ _ _ _ _ _ Ht Ha) in Hr as ([= ->] & Hj & Hcf). done.
    + by apply attempt_not_replayed in He.
  - by eapply rejected_unchanged.
Qed.

(** ** Interrupted commits *)

(** The retry of a committed command finds it. *)
Lemma retry_replays st ex c bytes id receipt st1 m m' n fault :
  admitted config st ex c bytes id None -> committed config st st1 n m m' ex c receipt ->
  open_ro_verified st1 config = Ok tt -> execute_inner config ex c fault st1 = (Ok (Replayed receipt), st1).
Proof.
  intros [Hst Hen Hb Hi _ _] Hcm Hv. destruct (ct_recorded _ _ _ _ _ _ _ _ _ Hcm) as (row & _ & Hops & Hd & Hcb).
  destruct (ct_receipt _ _ _ _ _ _ _ _ _ Hcm) as (_ & Hid & Hh & Hbk & _ & _).
  assert (Hrec : load_operation st1 id bytes = Ok (Some receipt)).
  { unfold load_operation. rewrite Hid in Hi. apply Ok_inj in Hi. subst id. rewrite Hops, lookup_insert_eq.
    eapply bind_step; [apply fail_if_false; rewrite bool_decide_true; [done|congruence]|]. by eapply bind_step; [exact Hd|]. }
  assert (Ha : admission config st1 ex c = Ok (bytes, id, Some receipt)) by by apply admission_Ok.
  rewrite execute_inner_run, Ha. f_equal. unfold replay. rewrite Hh, Hbk. eapply bind_step with (a := false).
  - apply or_else_false. split; [by rewrite bool_decide_true|]. eapply bind_step; [apply Hcm|]. by rewrite bool_decide_true.
  - eapply bind_step; [reflexivity|]. eapply bind_step; [by eapply committed_confirmed|]. done.
Qed.

(** C24: A lost commit acknowledgement is recovered by retrying.  If the fault-free
    execution of a command applies it, then the execution whose acknowledgement was lost
    after the commit leaves the same store and reports the commit as uncertain; one lost
    before the commit reports the same and changes nothing; and every retry of the same
    command on the committed store, whatever fault is injected into it, replays the
    same receipt and writes nothing: the command takes effect once. *)
Theorem lost_acknowledgement_recovers st ex c receipt st1 :
  typed_config config -> life config st -> typed_ex ex = true -> typed_command c = true ->
  zlen (journal st) + 1 < u64_max ->
  execute_committed_execution config ex c st = (Ok (Applied receipt), st1) ->
  execute_inner config ex c AppliedAckLost st = (Err CommitUncertain, st1) /\
  execute_inner config ex c NotAppliedAckLost st = (Err CommitUncertain, st) /\
  forall fault, execute_inner config ex c fault st1 = (Ok (Replayed receipt), st1).
Proof.
  intros Hc Hl Hx Ht Hlen He. destruct (life_sound config st Hc Hl) as [Hs _].
  destruct (applied_inv _ _ _ _ _ Hc Hs Hx Ht Hlen He) as (bytes & id & Ha & Hcas & Htx & Hcm & Hv). split_and!.
  - rewrite execute_inner_run, (proj2 (admission_Ok _ _ _ _ _ _ _) Ha), Hcas. unfold attempt. by rewrite Htx.
  - by rewrite execute_inner_run, (proj2 (admission_Ok _ _ _ _ _ _ _) Ha), Hcas.
  - intros fault. by eapply retry_replays.
Qed.

(** ** Fences *)

Lemma fenced_rejected st md : metadata st = Some md -> m_fenced md = 1 -> open_ro_verified st config <> Ok tt.
Proof.
  intros Hm Hf Hv. unfold open_ro_verified in Hv. rinv. unfold verify_metadata in Hr2.
  apply bind_Ok in Hr2 as (md' & Hmd & Hr2). unfold load_metadata in Hmd. rewrite Hm in Hmd. apply Ok_inj in Hmd. subst md'.
  apply bind_Ok in Hr2 as (schema & _ & Hr2). apply bind_Ok in Hr2 as (fenced & Hfc & Hr2).
  assert (fenced = 1) as -> by (unfold get_int in Hfc; rewrite Hf in Hfc; by injection Hfc as <-). rinv. discriminate.
Qed.

(** A store that does not open executes nothing. *)
Lemma closed_store st : open_ro_verified st config <> Ok tt -> forall ex c fault,
  exists e, execute_inner config ex c fault st = (Err e, st).
Proof.
  intros Hv ex c fault. pose proof (execute_safe config ex c fault st) as Hsafe. revert Hsafe. rewrite execute_inner_run.
  destruct (admission config st ex c) as [[[bytes id] rec]| |] eqn:Ha; [|by eauto|done].
  apply admission_Ok in Ha. by destruct (Hv (am_verified _ _ _ _ _ _ _ Ha)).
Qed.

Lemma closed_block st : open_ro_verified st config <> Ok tt -> forall ex,
  (advance_empty_committed_execution_v1 config ex st).2 = st.
Proof.
  intros Hv ex. unfold advance_empty_committed_execution_v1. rewrite get_bind, lift_bind. destruct (reject_sidecars st); [|done..].
  rewrite lift_bind. destruct (validate_execution_context_static config ex); [|done..]. rewrite lift_bind.
  match goal with |- context [fail_if ?b ?e] => destruct (fail_if b e) end; [|done..]. rewrite lift_bind.
  destruct (fresh_readback st config) as [rb| |] eqn:Hrb; [|done..]. unfold fresh_readback in Hrb.
  by apply bind_Ok in Hrb as ([] & Hx & _).
Qed.

Lemma fence_Ok st n init tail R : audited config st n init tail R -> exists stf, fence_store st config = Ok stf.
Proof.
  intros Ha. assert (Hch : exists ch, config_hash config = Ok ch).
  { pose proof (ad_metadata _ _ _ _ _ _ Ha) as Hm. unfold verify_metadata in Hm. rinv. eauto. }
  destruct Hch as [ch Hch]. unfold fence_store, update_metadata_progress.
  rewrite (proj1 (ad_sequence _ _ _ _ _ _ Ha)), (ad_tip _ _ _ _ _ _ Ha), (ad_state_root _ _ _ _ _ _ Ha), (ad_journal_root _ _ _ _ _ _ Ha), Hch.
  eexists. reflexivity.
Qed.

(** C11: A third state fences the store for good.  When a command that would be applied
    meets the third-state fault, the store keeps every object, operation and block, is
    marked as fenced, and the method reports it; from then on no execution of any command
    under any context or fault succeeds or changes the store, no empty block is recorded,
    and the store can be neither read back nor reopened. *)
Theorem third_state_is_fenced st ex c receipt st1 :
  typed_config config -> life config st -> typed_ex ex = true -> typed_command c = true ->
  zlen (journal st) + 1 < u64_max ->
  execute_committed_execution config ex c st = (Ok (Applied receipt), st1) ->
  exists stf, execute_inner config ex c ThirdState st = (Err ThirdStateFenced, stf) /\
    objects stf = objects st /\ operations stf = operations st /\ markers stf = markers st /\
    (forall ex' c' fault', exists e, execute_inner config ex' c' fault' stf = (Err e, stf)) /\
    (forall ex', (advance_empty_committed_execution_v1 config ex' stf).2 = stf) /\
    (forall rb, fresh_readback stf config <> Ok rb) /\ open_existing stf config <> Ok tt.
Proof.
  intros Hc Hl Hx Ht Hlen He. destruct (life_sound config st Hc Hl) as [Hs _].
  destruct (applied_inv _ _ _ _ _ Hc Hs Hx Ht Hlen He) as (bytes & id & Ha & Hcas & _).
  destruct (verified_audited _ _ (am_verified _ _ _ _ _ _ _ Ha)) as (n & init & tail & R & Hau).
  destruct (fence_Ok _ _ _ _ _ Hau) as (stf & Hfence). exists stf. pose proof (fence_frame _ _ _ Hfence) as (md & Hstf & Hfd).
  assert (Hclosed : open_ro_verified stf config <> Ok tt) by (eapply fenced_rejected; [by rewrite Hstf|done]).
  split_and!; try by rewrite Hstf.
  - rewrite execute_inner_run, (proj2 (admission_Ok _ _ _ _ _ _ _) Ha), Hcas. unfold attempt. by rewrite Hfence.
  - by apply closed_store.
  - intros ex'. by apply closed_block.
  - intros rb Hrb. apply Hclosed. unfold fresh_readback in Hrb. by apply bind_Ok in Hrb as ([] & Hv & _).
  - intros Ho. apply Hclosed. unfold open_existing in Ho. unfold open_ro_verified. rinv.
    repeat match goal with u : () |- _ => destruct u end. by repeat (eapply bind_step; [eassumption|]).
Qed.

(** ** The typed state of a reachable store *)

Lemma life_lawful st : typed_config config -> life config st -> lawful config (view st) (journal st).
Proof. intros Hc Hl. destruct (life_sound config st Hc Hl) as [(m & HR & Hm & _) _]. by rewrite (Repr_view st m HR). Qed.

(** C37: The kernel creates and destroys no money.  In every reachable store the requester's
    account and all escrows together hold exactly the account's genesis funding, the
    provider's bond holds exactly its funding, the part of the bond that is held is the
    configured hold times the number of leases, and every escrow's free and reserved
    parts add up to its funding, the reserved part being the sum of its reservations. *)
Theorem kernel_funds_are_conserved st :
  typed_config config -> life config st ->
  map_sum obj_value (view st) = tb_requester_account_funding (trust_bundle config) /\
  map_sum obj_bonded (view st) = tb_provider_bond_funding (trust_bundle config) /\
  map_sum obj_held (view st) = hold config * map_sum obj_leases (view st) /\
  forall id b s, view st !! key KindEscrow id = Some (OEscrow b s) ->
    es_available s + es_reserved s = eb_funded_amount b /\ es_reserved s = lsum er_amount (es_active_reservations s).
Proof.
  intros Hc Hl. destruct (life_lawful st Hc Hl) as [_ _ Hm _ Hv Hb Hh]. split_and!; try done.
  intros id b s Hid. destruct (mk_escrow _ Hm _ _ _ Hid) as (_ & H1 & H2 & _). done.
Qed.

(** C17: Authorizations are consumed exactly once and budgets are exact.  In every reachable
    store the journaled commands of a nonce lane carry the consecutive nonces 0, 1, ... up
    to the lane's next nonce, without a gap or a repetition; every capability's counters
    equal the sums of the charges journaled under it (operations, fee, gas, bytes,
    retention and each asset) and stay within its limits; and a session has spent exactly
    its journaled commands, at most its maximum. *)
Theorem authorizations_are_exact st :
  typed_config config -> life config st ->
  (forall id b s, view st !! key KindNonceLane id = Some (OLane b s) -> lane_exact s (by_lane config id (journal st))) /\
  (forall id b s, view st !! key KindCapability id = Some (OCapability b s) ->
     budget_exact b (cs_budget s) (by_capability id (journal st))) /\
  (forall id b s, view st !! key KindSessionGrant id = Some (OSession b s) ->
     ss_operations_spent s = zlen (by_session id (journal st)) /\ ss_operations_spent s <= sg_max_total_operations b).
Proof.
  intros Hc Hl. destruct (life_lawful st Hc Hl) as [_ _ _ Ha _ _ _]. split_and!; intros id b s Hid.
  - by apply (at_lane _ _ _ Ha _ _ _ Hid).
  - by apply (at_capability _ _ _ Ha _ _ _ Hid).
  - by apply (at_session _ _ _ Ha _ _ _ Hid).
Qed.

(** The lease of a task accepted its own bid. *)
Lemma lease_bid m id lb ls : market m -> m !! key KindLease id = Some (OLease lb ls) ->
  exists db ds, m !! key KindBid (lb_accepted_bid_id lb) = Some (OBid db ds) /\ bt_accepted_lease_id ds = Some id.
Proof.
  intros Hm Hl. destruct (mk_lease _ Hm _ _ _ Hl) as (_ & tb & ts & Ht & Hact).
  destruct (mk_task _ Hm _ _ _ Ht) as (eb & es & _ & _ & [(_ & _ & Hn & _)|(lid & lb' & ls' & db & ds & e & Hlt)]); [congruence|].
  destruct Hlt as (_ & _ & Hact' & Hl' & _ & _ & Hb & _ & Hacc & _).
  assert (lid = id) as -> by congruence. rewrite Hl in Hl'. injection Hl' as <- <-. eauto.
Qed.

(** C22: The market graph is consistent in every reachable store: every task has an escrow
    of its own and is either open, with nothing reserved, or leased, with exactly one
    lease whose accepted bid's price is the escrow's only reservation; every lease is the
    active lease of its task, every bid names an existing task and is either open or
    accepted by the lease that names it; and no two leases share a task or a bid. *)
Theorem market_is_consistent st :
  typed_config config -> life config st ->
  market (view st) /\
  forall id1 id2 lb1 ls1 lb2 ls2,
    view st !! key KindLease id1 = Some (OLease lb1 ls1) -> view st !! key KindLease id2 = Some (OLease lb2 ls2) ->
    lb_task_id lb1 = lb_task_id lb2 \/ lb_accepted_bid_id lb1 = lb_accepted_bid_id lb2 -> id1 = id2.
Proof.
  intros Hc Hl. destruct (life_lawful st Hc Hl) as [_ _ Hm _ _ _ _]. split; [done|].
  intros id1 id2 lb1 ls1 lb2 ls2 H1 H2 [He|He].
  - destruct (mk_lease _ Hm _ _ _ H1) as (_ & tb & ts & Ht & Ha). destruct (mk_lease _ Hm _ _ _ H2) as (_ & tb' & ts' & Ht' & Ha').
    rewrite He, Ht' in Ht. simplify_eq. congruence.
  - destruct (lease_bid _ _ _ _ Hm H1) as (db & ds & Hb & Ha). destruct (lease_bid _ _ _ _ Hm H2) as (db' & ds' & Hb' & Ha').
    rewrite He, Hb' in Hb. simplify_eq. congruence.
Qed.

End theorems.
