(* ===== verification/KernelPreview.v ===== *)
(** * KernelPreview: what the kernel previews is what it executes

    [preview_before_vote_v1] runs a proposal's commands in a transaction that it rolls
    back.  [perform] reads and writes only the objects table ([perform_frame]), so the
    previewed receipts and root are those of executing the same commands as a block. *)

From stdpp Require Import base gmap list sorting strings.
From S2P Require Import Prelude Crypto KernelTypes KernelStore KernelAudit Kernel KernelService KernelObjects KernelSteps KernelJournal KernelMarkers KernelCommit KernelRuns KernelSafety KernelTheorems.

(** ** The handlers see only the objects *)

(** The objects of [s] in the frame of [st]. *)
Definition reframe (st s : Store) : Store := set_objects (objects s) st.

Definition rmap {E A B} (f : A -> B) (r : result E A) : result E B :=
  match r with Ok a => Ok (f a) | Err e => Err e | Panic => Panic end.

(** The same computation from two stores with the same objects. *)
Definition framed (st' : Store) (r' r : KResult Store) : Prop := r' = rmap (reframe st') r.

Create HintDb frame.

Section frame.
Context `{KernelCrates}.

Lemma framed_bind {A} st' (r : KResult A) (f g : A -> KResult Store) :
  (forall a, framed st' (f a) (g a)) -> framed st' (r ≫= f) (r ≫= g).
Proof. unfold framed. intros Hf. destruct r; cbn; auto. Qed.

Lemma framed_store_bind st' (r' r : KResult Store) (f g : Store -> KResult Store) :
  framed st' r' r -> (forall s, framed st' (f (reframe st' s)) (g s)) -> framed st' (r' ≫= f) (r ≫= g).
Proof. unfold framed. intros -> Hf. destruct r; cbn; auto. Qed.

Lemma framed_insert {B S} `{BorshSerialize B, BorshSerialize S} st' s K id v (b : B) (t : S) :
  framed st' (insert_object (reframe st' s) K id v b t) (insert_object s K id v b t).
Proof.
  unfold insert_object. do 2 (apply framed_bind; intros ?). cbn -[le_bytes]. destruct (objects s !! _); done.
Qed.
Lemma framed_update {B S} `{BorshSerialize B, BorshSerialize S} st' s K id e v (b : B) (t : S) :
  framed st' (update_object (reframe st' s) K id e v b t) (update_object s K id e v b t).
Proof.
  unfold update_object. do 4 (apply framed_bind; intros ?). cbn -[le_bytes]. destruct (objects s !! _) as [old|]; [|done].
  destruct (bool_decide _); done.
Qed.
Lemma reframe_load {B S} `{BorshSerialize B, BorshDeserialize B, BorshSerialize S, BorshDeserialize S} st' s K id :
  load_object B S (reframe st' s) K id = load_object B S s K id.
Proof. done. Qed.

Lemma framed_fold {A} st' (f : Store -> A -> KResult Store) l :
  (forall s a, framed st' (f (reframe st' s) a) (f s a)) -> forall s, framed st' (try_fold f (reframe st' s) l) (try_fold f s l).
Proof.
  intros Hf. induction l as [|a l IH]; intros s; cbn; [done|]. apply framed_store_bind; [apply Hf|]. intros s'. apply IH.
Qed.
#[local] Hint Resolve framed_insert framed_update : frame.
#[local] Hint Extern 1 (framed _ (Ok _) _) => reflexivity : frame.

Ltac frame :=
  repeat first
    [ solve [auto with frame]
    | progress intros
    | rewrite reframe_load
    | apply framed_store_bind; [solve [auto with frame]|]
    | apply framed_bind
    | match goal with
      | |- framed _ (match ?x with _ => _ end) _ => destruct x
      end ].

Lemma framed_lane st' s b : framed st' (insert_nonce_lane (reframe st' s) b) (insert_nonce_lane s b).
Proof. unfold insert_nonce_lane. frame. Qed.
#[local] Hint Resolve framed_lane : frame.

Lemma framed_apply st' s config h c : framed st' (apply_command (reframe st' s) config h c) (apply_command s config h c).
Proof.
  destruct c; cbn [apply_command].
  - unfold apply_capability_grant. frame.
  - unfold apply_session_grant. rewrite reframe_load. do 5 (apply framed_bind; intros; try match goal with |- framed _ (match ?x with _ => _ end) _ => destruct x end).
    apply framed_bind; intros. apply framed_store_bind; [apply framed_insert|]. intros s'. apply framed_fold. auto with frame.
  - unfold apply_task_create. frame.
  - unfold apply_bid. frame.
  - unfold apply_lease_accept. frame.
  - unfold apply_provider_accept. frame.
Qed.

Lemma framed_consume st' s h c sn : framed st' (consume_authorization (reframe st' s) h c sn) (consume_authorization s h c sn).
Proof. unfold consume_authorization. frame. Qed.

Lemma reframe_authorize st' s config h c : authorize (reframe st' s) config h c = authorize s config h c.
Proof. done. Qed.

Lemma framed_perform st' s config h c : framed st' (perform (reframe st' s) config h c) (perform s config h c).
Proof.
  unfold perform. rewrite reframe_authorize. apply framed_bind; intros sn. apply framed_store_bind; [apply framed_apply|].
  intros s'. apply framed_consume.
Qed.

(** Equal objects: equal outcome, in the own frame. *)
Lemma perform_frame st st' config h c st1 : objects st' = objects st -> perform st config h c = Ok st1 ->
  perform st' config h c = Ok (reframe st' st1).
Proof.
  intros Ho Hp. pose proof (framed_perform st' st config h c) as Hf. unfold framed in Hf.
  assert (Hr : reframe st' st = st') by (unfold reframe; rewrite <- Ho; by destruct st').
  rewrite Hr, Hp in Hf. exact Hf.
Qed.

End frame.

Lemma exists_bind {E A B} (r : result E A) (f : A -> result E B) a :
  r = Ok a -> (exists b, f a = Ok b) -> exists b, (r ≫= f) = Ok b.
Proof. by intros ->. Qed.

Lemma exists_pair_bind {E A B C} (r : result E A) (f : A -> result E (B * C)) a c :
  r = Ok a -> (exists b, f a = Ok (b, c)) -> exists b, (r ≫= f) = Ok (b, c).
Proof. by intros ->. Qed.

Section progress.
Context `{KernelCrates, !KernelLaws} (config : AgentMarketStoreConfigV1).

(** ** The transaction succeeds *)

(** The block of an execution continues the last marker, or is new above it. *)
Definition continues (st : Store) (tail : CommittedBlockMarkerV1) (ex : CommittedExecutionContextV1) : Prop :=
  ex_expected_order_height ex = cm_order_height tail /\ ex_expected_order_block_id ex = cm_order_block_id tail /\
  (ex_order_height ex = cm_order_height tail /\ ex_order_block_id ex = cm_order_block_id tail \/
   ex_order_height ex = cm_order_height tail + 1 /\ ex_order_height ex <= u64_max /\ cm_marker_sequence tail + 1 <= u64_max /\
   forall k row, markers st !! k = Some row -> b_order_block_id row <> ex_order_block_id ex).

Lemma marker_checksum_Ok ch mk : config_hash config = Ok ch -> exists ck, committed_block_marker_checksum config mk = Ok ck.
Proof. intros Hc. unfold committed_block_marker_checksum. rewrite Hc. cbn. eauto. Qed.

Lemma advance_progress st n init tail R st2 ex sr opr t ch :
  audited config st n init tail R -> canonical_keys st -> markers st2 = markers st -> config_hash config = Ok ch ->
  continues st tail ex -> n <= t ->
  exists st', advance_committed_block_marker st2 config ex n t (cm_target_state_root tail) sr (cm_target_operation_root tail) opr = Ok st'.
Proof.
  intros Ha Hk Hm Hch (Xh & Xb & Hcase) Hle.
  assert (Hl : load_committed_block_markers st2 config = Ok (init ++ [tail])).
  { unfold load_committed_block_markers. rewrite Hm. apply Ha. }
  assert (Htail : tail ∈ init ++ [tail]) by (apply elem_of_app; right; by left).
  destruct (loaded_row _ _ _ _ (ad_markers _ _ _ _ _ _ Ha) Hk Htail) as (Hu & row & Hrow & Hck & _).
  unfold advance_committed_block_marker. eapply exists_bind; [exact Hl|].
  eapply exists_bind; [by rewrite last_snoc|]. eapply exists_bind; [apply fail_if_false|].
  { rewrite (proj2 (ad_sequence _ _ _ _ _ _ Ha)), !bool_decide_true by done. by rewrite (proj2 (Z.ltb_ge _ _)) by lia. }
  destruct Hcase as [[Eh Eb]|(Eh & Hmax & Hsq & Hfresh)].
  - rewrite (bool_decide_true ((ex_order_height _, _) = _)) by congruence.
    eapply exists_bind; [apply fail_if_false; by rewrite bool_decide_true by congruence|]. cbv zeta.
    destruct (marker_checksum_Ok ch (extended tail t sr opr (cm_row_checksum tail)) Hch) as [ck Hcs].
    eapply exists_bind; [exact Hcs|]. cbn [cm_marker_sequence]. rewrite Hm, Hrow.
    eapply exists_bind; [apply fail_if_false; by rewrite Hck, bool_decide_true|]. eauto.
  - rewrite (bool_decide_false ((ex_order_height _, _) = _)) by (intros [= ]; lia).
    destruct (loaded_row _ _ _ _ (ad_markers _ _ _ _ _ _ Ha) Hk Htail) as (_ & row' & Hrow' & _ & Hld).
    eapply exists_bind; [apply fail_if_false|].
    { unfold checked_add. rewrite !(proj2 (Z.leb_le _ _)) by lia. rewrite !(bool_decide_true) by congruence.
      rewrite bool_decide_false; [done|]. intros E. apply (Hfresh _ _ Hrow'). apply load_marker_block in Hld as (<- & _). done. }
    eapply exists_bind; [unfold checked_add; rewrite (proj2 (Z.leb_le _ _)) by lia; reflexivity|].
    unfold insert_committed_block_marker.
    match goal with |- context [committed_block_marker_checksum config ?mk] => destruct (marker_checksum_Ok ch mk Hch) as [ck Hcs] end.
    eapply exists_bind; [exact Hcs|]. cbv zeta.
    eapply exists_bind; [apply fail_if_false; apply orb_false_iff; split|by eauto].
    + apply bool_decide_eq_false. cbn [set_cm_row_checksum cm_marker_sequence]. rewrite Hm. intros [row2 Hrow2].
      destruct (loaded_elem _ _ _ (ad_markers _ _ _ _ _ _ Ha)) as [_ He]. destruct (He _ _ Hrow2) as (mk & Hin & Hld2).
      apply load_marker_block in Hld2 as (_ & Hd & _). rewrite decode_u64_le_bytes in Hd by (unfold in_u64 in *; lia). apply Ok_inj in Hd.
      pose proof (chain_sequences _ _ _ _ _ _ (ad_chain _ _ _ _ _ _ Ha)) as Hsq'.
      assert (Hin' : cm_marker_sequence mk ∈ seqZ 0 (zlen (init ++ [tail]))) by (rewrite <- Hsq'; by apply list_elem_of_fmap_2).
      apply elem_of_seqZ in Hin'. pose proof (ad_chain _ _ _ _ _ _ Ha) as Hc. apply chain_snoc in Hc as [_ Hok].
      destruct (mo_sequence _ _ _ _ _ _ Hok) as [Hts _]. unfold zlen in *. rewrite length_app in Hin'. cbn in Hin'. lia.
    + destruct (existsb _ _) eqn:E; [|done]. apply existsb_exists in E as ([k r] & Hin & Heq). bprop.
      apply list_elem_of_In, elem_of_btree_iter in Hin. rewrite Hm in Hin. by destruct (Hfresh _ _ Hin).
Qed.

Lemma extend_components parts : forall e, Forall (fun p : list Z => zlen p <= u64_max) parts ->
  exists e', try_fold extend_component e parts = Ok e'.
Proof.
  induction parts as [|p parts IH]; intros e Hp; [cbn; eauto|]. apply Forall_cons in Hp as [Hp Hps]. cbn [try_fold].
  eapply exists_bind; [|by apply IH]. unfold extend_component, try_from. by rewrite (proj2 (Z.leb_le _ _) Hp).
Qed.

(** The journal's root can be computed after one more row. *)
Lemma journal_root_progress st st' n x jr :
  numbered st n -> n < u64_max -> compute_operation_journal_root st = Ok jr ->
  numbered st' (n + 1) -> journal_rows st' = journal_rows st ++ [x] ->
  Forall (fun p : list Z => zlen p <= u64_max) [x.2.1; p_sequence x.2.2; p_command x.2.2; p_receipt x.2.2; p_checksum x.2.2] ->
  exists jr', compute_operation_journal_root st' = Ok jr'.
Proof.
  intros Hn Hlt Hjr Hn' Hrows Hx. unfold compute_operation_journal_root in *.
  rewrite (root_full _ n) in Hjr by (done || lia). rewrite (root_full _ (n + 1)) by (done || lia).
  unfold rows_root in *. apply bind_Ok in Hjr as (e & He & _). rewrite Hrows, try_fold_app, He. cbn [mbind result_bind try_fold].
  destruct x as [z [id row]]. unfold extend_operation.
  destruct (extend_components [id; p_sequence row; p_command row; p_receipt row; p_checksum row] (e ++ le_bytes 2 (p_kind row)) Hx) as [e' He'].
  rewrite He'. cbn [mbind result_bind]. eexists. reflexivity.
Qed.

Lemma transaction_progress st n init tail R ex c bytes id st1 sr d rb :
  let receipt := mkReceipt SCHEMA_VERSION_V1 (store_id config) (n + 1) id (operation_kind c) d
    (ex_order_height ex) (ex_order_block_id ex) sr in
  audited config st n init tail R -> canonical_keys st -> n + 1 < u64_max -> continues st tail ex ->
  validate_execution_context_cas st ex = Ok tt ->
  perform st config (ex_order_height ex) c = Ok st1 -> same_frame st st1 -> compute_state_root st1 = Ok sr ->
  operation_digest c = Ok d -> operation_id c = Ok id -> operations st !! id = None ->
  canonical_bytes c = Ok bytes -> typed_command c = true -> canonical_bytes receipt = Ok rb -> typed_kr receipt = true ->
  zlen bytes <= u64_max -> zlen rb <= u64_max ->
  exists st', execute_transaction st config ex c bytes id = Ok (st', receipt).
Proof.
  intros rc Ha Hk Hlt Hcont Hcas Hp Hf Hsr Hd Hid Hfresh Hb Htc Hrb Htr Lb Lr.
  assert (Hch : exists ch, config_hash config = Ok ch).
  { pose proof (ad_metadata _ _ _ _ _ _ Ha) as Hm. unfold verify_metadata in Hm. rinv. eauto. }
  destruct Hch as [ch Hch].
  set (row := mkOperationRow (le_bytes 8 (n + 1)) (operation_kind c) bytes rb
    (operation_checksum id (le_bytes 8 (n + 1)) (operation_kind c) bytes rb)).
  set (st2 := set_operations (<[id := row]> (operations st1)) st1).
  assert (Ho : operations st1 = operations st) by by rewrite Hf.
  assert (Hins : insert_operation st1 c bytes rc = Ok st2).
  { unfold insert_operation. eapply bind_step; [exact Hrb|]. cbv zeta. cbn [rc kr_operation_id]. rewrite Ho, Hfresh. subst st2. by rewrite Ho. }
  assert (Hap : appends config st st2 n c bytes id rc).
  { split; try done; [|cbn; lia]. exists rb. split_and!; try done. cbn [st2 operations set_operations]. by rewrite Ho. }
  destruct (appends_rows _ _ _ _ _ _ _ _ (ad_numbered _ _ _ _ _ _ Ha) Hap) as (Hn' & _ & row' & Hrows & Hops & _).
  assert (row' = row) as ->.
  { assert (Hx : operations st2 !! id = Some row') by by rewrite Hops, lookup_insert_eq.
    cbn [st2 operations set_operations] in Hx. rewrite lookup_insert_eq in Hx. by injection Hx as <-. }
  destruct (metadata_roots _ _ _ _ (ad_metadata _ _ _ _ _ _ Ha) (ad_state_root _ _ _ _ _ _ Ha) (ad_journal_root _ _ _ _ _ _ Ha)) as [_ Hjr].
  edestruct (journal_root_progress st st2 n) as [jr Hjr']; [apply Ha|lia|exact Hjr|exact Hn'|exact Hrows| |].
  { assert (Lid : zlen id <= u64_max) by by rewrite (is_hash_len id) by exact (digest_hash _ _ _ Hid).
    assert (Lseq : zlen (le_bytes 8 (n + 1)) <= u64_max) by (unfold zlen; by rewrite le_bytes_length).
    assert (Lck : zlen (p_checksum row) <= u64_max) by (rewrite (is_hash_len (p_checksum row)); [done|apply checksum_hash]).
    by repeat first [apply Forall_cons_2|apply Forall_nil_2]. }
  destruct (advance_progress st n init tail R st2 ex sr jr (n + 1) ch Ha Hk) as [st3 Hadv]; [by cbn; rewrite Hf|done|done|lia|].
  unfold execute_transaction. eapply exists_pair_bind; [exact Hcas|]. eapply exists_pair_bind; [exact Hp|].
  eapply exists_pair_bind; [rewrite Hf; exact (proj1 (ad_sequence _ _ _ _ _ _ Ha))|].
  eapply exists_pair_bind; [unfold checked_add; rewrite (proj2 (Z.leb_le _ _)) by lia; reflexivity|].
  eapply exists_pair_bind; [exact Hsr|]. eapply exists_pair_bind; [exact Hd|]. cbv zeta. fold rc.
  eapply exists_pair_bind; [exact Hins|]. eapply exists_pair_bind; [exact Hjr'|].
  eapply exists_pair_bind; [subst st2; rewrite Hf; exact (ad_state_root _ _ _ _ _ _ Ha)|].
  eapply exists_pair_bind; [subst st2; rewrite Hf; exact (ad_journal_root _ _ _ _ _ _ Ha)|].
  eapply exists_pair_bind; [exact Hadv|]. unfold update_metadata_progress. rewrite Hch. cbn [mbind result_bind]. eauto.
Qed.

(** ** A block of commands *)

(** The context under which a block [(h, b)] executes on top of a tip. *)
Definition block_context (h : Z) (b : Hash32V1) (tip : Z * Hash32V1) : CommittedExecutionContextV1 :=
  mkExecution SCHEMA_VERSION_V1 (tb_context (trust_bundle config)) tip.1 tip.2 h b.

(** Execute the commands one by one: the first on the old tip, the others on the block's own. *)
Fixpoint execute_block (h : Z) (b : Hash32V1) (tip : Z * Hash32V1) (commands : list KernelCommandV1) (st : Store)
    : option (list KernelTransitionReceiptV1 * Store) :=
  match commands with
  | [] => Some ([], st)
  | c :: commands =>
      match execute_committed_execution config (block_context h b tip) c st with
      | (Ok (Applied receipt), st) =>
          match execute_block h b (h, b) commands st with
          | Some (receipts, st) => Some (receipt :: receipts, st)
          | None => None
          end
      | _ => None
      end
  end.

Lemma transaction_tables st ex c bytes id st' receipt st1 : execute_transaction st config ex c bytes id = Ok (st', receipt) ->
  perform st config (ex_order_height ex) c = Ok st1 ->
  exists st2, insert_operation st1 c bytes receipt = Ok st2 /\ objects st' = objects st2 /\ operations st' = operations st2.
Proof.
  intros He Hp. destruct (transaction_trace _ _ _ _ _ _ _ _ He) as (n & s1 & st3 & sr & jr & Htr).
  destruct Htr as [Hp' _ _ _ (d & _ & Hrc) Hfresh (rb & Hrb & Hops) Hf3 _ Hmd]. rewrite Hp in Hp'. apply Ok_inj in Hp'. subst s1.
  exists (set_operations (operations st3) st1). destruct (progress_frame _ _ _ _ _ _ _ _ _ Hmd) as [(md & ->) _]. split.
  - unfold insert_operation. eapply bind_step; [exact Hrb|]. cbv zeta. rewrite Hrc. cbn [kr_operation_id kr_sequence]. by rewrite Hfresh, Hops.
  - by rewrite Hf3.
Qed.

(** The durable store and the rolled-back transaction at the same point of a block. *)
Record in_step (st tx : Store) (tip : Z * Hash32V1) (h : Z) (b : Hash32V1) (n : Z) : Prop := {
  is_tables : objects tx = objects st /\ operations tx = operations st;
  is_sound : sound config st;
  is_verified : open_ro_verified st config = Ok tt;
  is_length : zlen (journal st) = n;
  is_tip : load_order_tip st = Ok tip;
  is_next : tip = (h, b) \/
    h = tip.1 + 1 /\ Z.of_nat (size (markers st)) <= u64_max /\ forall k row, markers st !! k = Some row -> b_order_block_id row <> b;
}.

Definition typed_block (h : Z) (b : Hash32V1) : Prop := is_u64 h = true /\ is_hash b = true /\ b <> zero_hash.

Lemma tip_nonzero st tip : verify_metadata st config = Ok tt -> load_order_tip st = Ok tip -> tip.2 <> zero_hash.
Proof.
  intros Hv Ht. unfold verify_metadata in Hv. unfold load_order_tip in Ht. destruct (load_metadata st) as [md| |]; [|discriminate..].
  cbn [mbind result_bind] in *. apply bind_Ok in Ht as (b & Hb & Ht). apply decode_hash_Ok in Hb as [_ ->].
  apply bind_Ok in Ht as (h & _ & Ht). apply Ok_inj in Ht. subst tip. cbn. kinv. done.
Qed.

Lemma block_static h b tip : typed_block h b -> tip.2 <> zero_hash -> (tip = (h, b) \/ h = tip.1 + 1 /\ b <> tip.2) ->
  validate_execution_context_static config (block_context h b tip) = Ok tt.
Proof.
  intros (_ & _ & Hz) Ht Hcase. unfold validate_execution_context_static. apply fail_if_false. cbn -[zero_hash].
  rewrite !bool_decide_true by done. rewrite (bool_decide_false (tip.2 = zero_hash)), (bool_decide_false (b = zero_hash)) by done.
  destruct Hcase as [->|[-> Hne]]; cbn -[zero_hash].
  - rewrite Z.ltb_irrefl, bool_decide_true by done. by rewrite andb_false_r.
  - rewrite (proj2 (Z.ltb_ge _ _)), (proj2 (Z.eqb_neq _ _)) by lia. rewrite (bool_decide_false (b = _)) by done. by rewrite andb_false_r.
Qed.

(** A byte vector has at most [isize::MAX] bytes. *)
Definition bounded_encodings : Prop :=
  (forall (c : KernelCommandV1) b, borsh_to_vec c = inr b -> zlen b <= u64_max) /\
  (forall (r : KernelTransitionReceiptV1) b, borsh_to_vec r = inr b -> zlen b <= u64_max).

Lemma marker_count st n init tail R : audited config st n init tail R ->
  cm_marker_sequence tail + 1 = Z.of_nat (size (markers st)).
Proof.
  intros Ha. pose proof (ad_chain _ _ _ _ _ _ Ha) as Hc. apply chain_snoc in Hc as [_ Hok]. destruct (mo_sequence _ _ _ _ _ _ Hok) as [-> _].
  pose proof (ad_markers _ _ _ _ _ _ Ha) as Hl. unfold load_committed_block_markers in Hl. rinv. apply try_map_Ok, Forall2_length in Hr.
  assert (Hlen : length (init ++ [tail]) = length r) by (rewrite <- Hl; apply Permutation_length, sort_by_key_perm).
  rewrite <- Hr in Hlen. rewrite (Permutation_length (btree_iter_perm (markers st))), length_map_to_list in Hlen.
  rewrite length_app in Hlen. cbn in Hlen. unfold zlen. lia.
Qed.

Lemma in_step_continues st tx tip h b n init tail R : in_step st tx tip h b n -> typed_block h b -> audited config st n init tail R ->
  continues st tail (block_context h b tip) /\ (tip = (h, b) \/ h = tip.1 + 1 /\ b <> tip.2).
Proof.
  intros Hs (Hh & _ & _) Ha. pose proof (is_tip _ _ _ _ _ _ Hs) as Ht. rewrite (ad_tip _ _ _ _ _ _ Ha) in Ht. apply Ok_inj in Ht. subst tip.
  destruct (is_sound _ _ _ _ _ _ Hs) as (m & _ & _ & _ & Hk). widths.
  destruct (is_next _ _ _ _ _ _ Hs) as [Hn|(Hn & Hsz & Hfresh)].
  - injection Hn as <- <-. split; [|by left]. split_and!; [done..|]. by left.
  - cbn [fst snd] in *. assert (Htail : tail ∈ init ++ [tail]) by (apply elem_of_app; right; by left).
    destruct (loaded_row _ _ _ _ (ad_markers _ _ _ _ _ _ Ha) Hk Htail) as (_ & row & Hrow & _ & Hld).
    apply load_marker_block in Hld as (Hb & _). split.
    + split_and!; [done..|]. right. rewrite (marker_count _ _ _ _ _ Ha). cbn. split_and!; [done|lia|done|done].
    + right. split; [done|]. intros ->. apply (Hfresh _ _ Hrow). by rewrite Hb.
Qed.

Lemma typed_context h b tip : typed_config config -> typed_block h b -> is_u64 tip.1 = true -> is_hash tip.2 = true ->
  typed_ex (block_context h b tip) = true.
Proof.
  intros [_ Htb] (Hh & Hb & _) H1 H2. typed_hyp Htb. unfold block_context. typed_record.
Qed.

Lemma preview_step_executes before h b st tx tip rcs ids c tx' ids' rcs' :
  typed_config config -> bounded_encodings -> typed_block h b -> is_u64 tip.1 = true -> is_hash tip.2 = true ->
  typed_command c = true -> in_step st tx tip h b (rb_sequence before + zlen rcs) ->
  rb_sequence before + zlen rcs + 1 < u64_max ->
  preview_step config before h b (tx, ids, rcs) c = Ok (tx', ids', rcs') ->
  exists receipt st', execute_committed_execution config (block_context h b tip) c st = (Ok (Applied receipt), st') /\
    rcs' = rcs ++ [receipt] /\ journal st' = journal st ++ [c] /\ in_step st' tx' (h, b) h b (rb_sequence before + zlen rcs').
Proof.
  intros Hc [Hbc Hbr] Hbl Ht1 Ht2 Htc Hs Hlt Hp. unfold preview_step in Hp.
  apply bind_Ok in Hp as ([] & Henv & Hp). apply bind_Ok in Hp as (bytes & Hbytes & Hp). apply bind_Ok in Hp as (id & Hid & Hp).
  apply bind_Ok in Hp as (rep & Hrep & Hp). apply bind_Ok in Hp as (u & Hrf & Hp). apply fail_if_Ok in Hrf. subst rep.
  apply or_else_false in Hrep as [_ Hrep]. apply bind_Ok in Hrep as (rec & Hrec & Hnone). apply Ok_inj, is_some_false in Hnone. subst rec.
  apply bind_Ok in Hp as (tx1 & Hperf & Hp). apply bind_Ok in Hp as (off & Hoff & Hp). apply bind_Ok in Hp as (sq & Hsq & Hp).
  apply bind_Ok in Hp as (d & Hd & Hp). apply bind_Ok in Hp as (sr & Hsr & Hp). cbv zeta in Hp.
  apply bind_Ok in Hp as (tx2 & Hins & Hp). apply Ok_inj in Hp. injection Hp as <- <- <-.
  assert (sq = rb_sequence before + zlen rcs + 1) as ->.
  { apply ok_or_Ok in Hoff, Hsq. obinds. unfold try_from in Hoff. destruct (_ <=? _); simplify_eq. checked. lia. }
  set (n := rb_sequence before + zlen rcs) in *.
  pose proof (typed_context _ _ _ Hc Hbl Ht1 Ht2) as Htx. set (ex := block_context h b tip) in *.
  destruct (verified_audited _ _ (is_verified _ _ _ _ _ _ Hs)) as (n' & init & tail & R & Ha).
  assert (n' = n) as -> by (rewrite <- (audited_length _ _ _ _ _ _ Ha); apply Hs).
  destruct (in_step_continues _ _ _ _ _ _ _ _ _ Hs Hbl Ha) as [Hcont Hnext]. destruct (is_tables _ _ _ _ _ _ Hs) as [Ho Hops].
  assert (Hperf' : perform st config h c = Ok (reframe st tx1)) by (by eapply perform_frame).
  assert (Htx1 : tx1 = reframe tx tx1) by (pose proof (perform_frame tx tx config h c tx1 eq_refl Hperf) as Hx; rewrite Hperf in Hx; by apply Ok_inj in Hx).
  assert (Hsr' : compute_state_root (reframe st tx1) = Ok sr) by exact Hsr.
  pose proof (numbered_rows _ _ (ad_numbered _ _ _ _ _ _ Ha)) as (_ & _ & Hpos).
  pose proof (typed_receipt config n c id d ex sr Hc Htx ltac:(unfold in_u64; lia) Hid Hd (state_root_hash _ _ Hsr)) as Htr.
  pose proof Hins as Hins'. unfold insert_operation in Hins'. apply bind_Ok in Hins' as (rb & Hrb & Hins').
  cbv zeta in Hins'. cbn [kr_operation_id] in Hins'. destruct (operations tx1 !! id) eqn:Hfr; [discriminate|].
  assert (Hfresh : operations st !! id = None) by (rewrite <- Hops; rewrite Htx1 in Hfr; exact Hfr).
  assert (Hcas : validate_execution_context_cas st ex = Ok tt).
  { unfold validate_execution_context_cas. eapply bind_step; [apply Hs|]. destruct tip. cbn. by rewrite !bool_decide_true. }
  destruct (transaction_progress st n init tail R ex c bytes id (reframe st tx1) sr d rb Ha) as [st' Het]; try done.
  { by destruct (is_sound _ _ _ _ _ _ Hs) as (m & _ & _ & _ & Hk). }
  { eapply Hbc. by apply canonical_bytes_Ok. }
  { eapply Hbr. by apply canonical_bytes_Ok. }
  assert (Had : admitted config st ex c bytes id None).
  { split; try done; [|by apply Hs|].
    - apply block_static; [done| |done]. eapply tip_nonzero; [apply Ha|apply Hs].
    - unfold load_operation. by rewrite Hfresh. }
  destruct (admitted_commits _ _ _ _ _ _ _ _ Hc (is_sound _ _ _ _ _ _ Hs) Htx Htc Had Het) as (Hsound & Hcm & Hv).
  rewrite (is_length _ _ _ _ _ _ Hs) in Hv. specialize (Hv Hlt).
  eexists _, st'. split_and!; [|reflexivity|by apply Hcm|].
  - unfold execute_committed_execution. rewrite execute_inner_run, (proj2 (admission_Ok _ _ _ _ _ _ _) Had), Hcas. unfold attempt.
    rewrite Het. f_equal. rewrite (committed_confirmed _ _ _ _ _ _ _ _ _ Hcm Hv). reflexivity.
  - destruct (transaction_tables _ _ _ _ _ _ _ _ Het Hperf') as (st2 & Hins2 & Hob2 & Hop2). split; try done.
    + change (ex_order_height ex) with h in Hins2. change (ex_order_block_id ex) with b in Hins2.
      rewrite Hob2, Hop2. unfold insert_operation in Hins, Hins2. rewrite Hrb in Hins, Hins2. cbn [mbind result_bind] in Hins, Hins2.
      cbv zeta in Hins, Hins2. cbn [kr_operation_id] in Hins, Hins2. rewrite Hfr in Hins.
      assert (Hfr2 : operations (reframe st tx1) !! id = None) by exact Hfresh. rewrite Hfr2 in Hins2. apply Ok_inj in Hins, Hins2.
      rewrite <- Hins, <- Hins2. split; [done|]. cbn [operations set_operations reframe set_objects]. rewrite Htx1. cbn. by rewrite Hops.
    + rewrite (ct_journal _ _ _ _ _ _ _ _ _ Hcm). unfold zlen. rewrite !length_app. cbn.
      pose proof (is_length _ _ _ _ _ _ Hs) as Hl. unfold n, zlen in *. lia.
    + apply Hcm.
    + by left.
Qed.

Lemma preview_fold_executes before h b commands :
  typed_config config -> bounded_encodings -> typed_block h b -> Forall (fun c => typed_command c = true) commands ->
  forall st tx tip rcs ids tx' ids' rcs',
    is_u64 tip.1 = true -> is_hash tip.2 = true -> in_step st tx tip h b (rb_sequence before + zlen rcs) ->
    rb_sequence before + zlen rcs + zlen commands < u64_max ->
    try_fold (preview_step config before h b) (tx, ids, rcs) commands = Ok (tx', ids', rcs') ->
    exists new st', execute_block h b tip commands st = Some (new, st') /\ rcs' = rcs ++ new /\
      journal st' = journal st ++ commands /\ objects tx' = objects st'.
Proof.
  intros Hc Hbe Hbl. induction 1 as [|c commands Htc _ IH]; cbn [try_fold execute_block]; intros st tx tip rcs ids tx' ids' rcs' H1 H2 Hs Hlt Hf.
  - injection Hf as <- <- <-. exists [], st. rewrite !app_nil_r. split_and!; [done..|apply Hs].
  - apply bind_Ok in Hf as ([[tx1 ids1] rcs1] & Hst & Hf). unfold zlen in Hlt. cbn [length] in Hlt.
    destruct (preview_step_executes _ _ _ _ _ _ _ _ _ _ _ _ Hc Hbe Hbl H1 H2 Htc Hs ltac:(unfold zlen; lia) Hst) as (rc & st1 & He & -> & Hj & Hs1).
    destruct Hbl as (Bh & Bb & Bz).
    destruct (IH st1 tx1 (h, b) _ _ _ _ _ Bh Bb Hs1 ltac:(unfold zlen; rewrite length_app; cbn; lia) Hf) as (new & st' & Hex & -> & Hj' & Ho').
    exists (rc :: new), st'. rewrite He, Hex. split_and!; [done|by rewrite <- app_assoc|by rewrite Hj', Hj, <- app_assoc|done].
Qed.

(** C27: What a validator previews before voting is what committing the block does.  If
    the preview of a list of commands for a candidate block succeeds on a reachable store,
    then executing these commands in order as that block applies every one of them, with
    exactly the previewed receipts, ends in exactly the previewed state root, and
    appends exactly these commands to the journal.  The candidate block must be new to
    the store, which the preview does not check, and the journals must have room. *)
Theorem preview_predicts_execution st before h b commands preview :
  typed_config config -> bounded_encodings -> life config st ->
  is_u64 (rb_order_height before) = true -> is_hash (rb_order_block_id before) = true ->
  is_u64 h = true -> is_hash b = true -> Forall (fun c => typed_command c = true) commands ->
  zlen (journal st) + zlen commands < u64_max -> Z.of_nat (size (markers st)) <= u64_max ->
  (forall k row, markers st !! k = Some row -> b_order_block_id row <> b) ->
  preview_before_vote_v1 st config before h b commands = Ok preview ->
  exists st', execute_block h b (rb_order_height before, rb_order_block_id before) commands st
      = Some (pv_candidate_receipts preview, st') /\
    compute_state_root st' = Ok (pv_candidate_post_state_root preview) /\ journal st' = journal st ++ commands /\
    pv_source_sequence preview = zlen (journal st).
Proof.
  intros Hc Hbe Hl Bh Bb Hh Hb Hty Hlen Hsz Hfresh Hp. destruct (life_sound config st Hc Hl) as [Hs _].
  unfold preview_before_vote_v1 in Hp. apply bind_Ok in Hp as (u & _ & Hp). apply bind_Ok in Hp as (bf & Hbf & Hp).
  apply bind_Ok in Hp as (bad & Hbad & Hp). apply bind_Ok in Hp as (u' & Hb' & Hp). apply fail_if_Ok in Hb'. subst bad.
  apply or_else_false in Hbad as [Heq Hbad]. bprop. subst bf. apply bind_Ok in Hbad as (nx & Hnx & Hbad). apply ok_or_Ok in Hnx.
  apply Ok_inj in Hbad. bprop. checked. apply bind_Ok in Hp as (inv & _ & Hp). apply bind_Ok in Hp as ([] & Hrw & Hp). rewrite open_rw_ro in Hrw.
  apply bind_Ok in Hp as ([th tb] & Htip & Hp). apply bind_Ok in Hp as (u'' & Hcmp & Hp). apply fail_if_Ok in Hcmp. bprop. subst th tb.
  apply bind_Ok in Hp as ([[tx ids] rcs] & Hfold & Hp). apply bind_Ok in Hp as (root & Hroot & Hp).
  do 3 apply bind_Ok in Hp as (? & _ & Hp). apply Ok_inj in Hp. subst preview. cbn [pv_candidate_receipts pv_candidate_post_state_root pv_source_sequence].
  destruct (readback_inv _ _ _ Hbf) as (init & tail & R & Ha & _). pose proof (audited_length _ _ _ _ _ _ Ha) as Hn.
  assert (Hin : in_step st st (rb_order_height before, rb_order_block_id before) h b (rb_sequence before + zlen ([] : list KernelTransitionReceiptV1))).
  { split; try done; [rewrite Hn; unfold zlen; cbn; lia|]. right. cbn. split_and!; [lia|done|done]. }
  destruct (preview_fold_executes before h b commands Hc Hbe ltac:(done) Hty st st (rb_order_height before, rb_order_block_id before) [] ∅ _ _ _ Bh Bb Hin ltac:(unfold zlen in *; cbn; lia) Hfold)
    as (new & st' & Hex & -> & Hj & Ho). exists st'. split_and!; [done| |done|lia].
  unfold compute_state_root in *. by rewrite <- Ho.
Qed.

End progress.
