(* ===== verification/KernelCodec.v ===== *)
(** * KernelCodec: a concrete instance of the kernel's crates

    A token codec for every type the kernel stores, a small 32-byte hash and a
    signature scheme in which a signature names the key and the message.  It satisfies
    [KernelLaws], so the theorems about the kernel are not vacuous; [KernelWitness]
    runs the kernel on it. *)

From stdpp Require Import base gmap list sorting strings.
From S2P Require Import Prelude Crypto KernelTypes.

(** A self-delimiting encoding into a list of integers. *)
Class Tok (A : Type) := {
  toks : A -> list Z;
  untoks : list Z -> option (A * list Z);
  untoks_toks a rest : untoks (toks a ++ rest) = Some (a, rest);
}.

#[refine] Instance tok_Z : Tok Z := {
  toks z := [z];
  untoks l := match l with z :: l => Some (z, l) | [] => None end;
}.
Proof. done. Defined.

#[refine] Instance tok_bool : Tok bool := {
  toks b := [if b : bool then 1 else 0];
  untoks l := match l with z :: l => Some (z =? 1, l) | [] => None end;
}.
Proof. by intros []. Defined.

#[refine] Instance tok_prod {A B} `{!Tok A, !Tok B} : Tok (A * B) := {
  toks p := toks p.1 ++ toks p.2;
  untoks l := match untoks l with
              | Some (a, l) => match untoks l with Some (b, l) => Some ((a, b), l) | None => None end
              | None => None
              end;
}.
Proof. intros [a b] rest. cbn. rewrite <- app_assoc. by rewrite !untoks_toks. Defined.

#[refine] Instance tok_option {A} `{!Tok A} : Tok (option A) := {
  toks o := match o with Some a => 1 :: toks a | None => [0] end;
  untoks l := match l with
              | [] => None
              | t :: l => if t =? 1 then match untoks l with Some (a, l) => Some (Some a, l) | None => None end else Some (None, l)
              end;
}.
Proof. intros [a|] rest; cbn; [|done]. by rewrite untoks_toks. Defined.

Section lists.
Context {A} `{!Tok A}.
Fixpoint toks_all (k : list A) : list Z := match k with [] => [] | a :: k => toks a ++ toks_all k end.
Fixpoint untoks_n (n : nat) (l : list Z) : option (list A * list Z) :=
  match n with
  | O => Some ([], l)
  | S n => match untoks l with
           | Some (a, l) => match untoks_n n l with Some (k, l) => Some (a :: k, l) | None => None end
           | None => None
           end
  end.
Lemma untoks_n_toks (k : list A) rest : untoks_n (length k) (toks_all k ++ rest) = Some (k, rest).
Proof. induction k as [|a k IH]; cbn; [done|]. rewrite <- app_assoc, untoks_toks, IH. done. Qed.
End lists.

#[refine] Instance tok_list {A} `{!Tok A} : Tok (list A) := {
  toks k := zlen k :: toks_all k;
  untoks l := match l with n :: l => untoks_n (Z.to_nat n) l | [] => None end;
}.
Proof. intros k rest. cbn. unfold zlen. rewrite Nat2Z.id. apply untoks_n_toks. Defined.

(** Through an isomorphic type. *)
Definition tok_iso {A B} `{!Tok B} (f : A -> B) (g : B -> A) (gf : forall a, g (f a) = a) : Tok A.
Proof.
  refine {| toks a := toks (f a); untoks l := match untoks l with Some (b, l) => Some (g b, l) | None => None end |}.
  intros a rest. by rewrite untoks_toks, gf.
Defined.

Instance tok_pc : Tok ProtocolContextV1 :=
  tok_iso (fun v => (pc_genesis_hash v, (pc_chain_id v, (pc_protocol_version v, pc_stack_profile_hash v))))
    (fun '(x0, (x1, (x2, x3))) => mkContext x0 x1 x2 x3) ltac:(by intros []).
Instance tok_ba : Tok BootstrapAgentV1 :=
  tok_iso (fun v => (ba_agent_id v, (ba_controller_key_id v, (ba_controller_public_key v, (ba_session_key_id v, ba_session_public_key v)))))
    (fun '(x0, (x1, (x2, (x3, x4)))) => mkAgent x0 x1 x2 x3 x4) ltac:(by intros []).
Instance tok_ab : Tok AccountBodyV1 :=
  tok_iso (fun v => (ab_schema_version v, (ab_context v, (ab_owner_agent_id v, (ab_asset_id v, ab_account_nonce v)))))
    (fun '(x0, (x1, (x2, (x3, x4)))) => mkAccountBody x0 x1 x2 x3 x4) ltac:(by intros []).
Instance tok_bb : Tok BondBodyV1 :=
  tok_iso (fun v => (bb_schema_version v, (bb_context v, (bb_owner_agent_id v, (bb_asset_id v, (bb_purpose v, (bb_source_object_kind v, (bb_source_object_id v, bb_bond_nonce v))))))))
    (fun '(x0, (x1, (x2, (x3, (x4, (x5, (x6, x7))))))) => mkBondBody x0 x1 x2 x3 x4 x5 x6 x7) ltac:(by intros []).
Instance tok_tb : Tok AgentMarketFreshGenesisTrustBundleV1 :=
  tok_iso (fun v => (tb_schema_version v, (tb_context v, (tb_initial_order_height v, (tb_initial_order_block_id v, (tb_requester v, (tb_provider v, (tb_requester_account_body v, (tb_requester_account_id v, (tb_requester_account_funding v, (tb_provider_bond_body v, (tb_provider_bond_id v, (tb_provider_bond_funding v, tb_provider_bond_hold v)))))))))))))
    (fun '(x0, (x1, (x2, (x3, (x4, (x5, (x6, (x7, (x8, (x9, (x10, (x11, x12)))))))))))) => mkBundle x0 x1 x2 x3 x4 x5 x6 x7 x8 x9 x10 x11 x12) ltac:(by intros []).
Instance tok_ex : Tok CommittedExecutionContextV1 :=
  tok_iso (fun v => (ex_schema_version v, (ex_context v, (ex_expected_order_height v, (ex_expected_order_block_id v, (ex_order_height v, ex_order_block_id v))))))
    (fun '(x0, (x1, (x2, (x3, (x4, x5))))) => mkExecution x0 x1 x2 x3 x4 x5) ltac:(by intros []).
Instance tok_vp : Tok VerificationProfileRefV1 :=
  tok_iso (fun v => (vp_profile_id v, (vp_profile_version v, vp_profile_hash v)))
    (fun '(x0, (x1, x2)) => mkProfileRef x0 x1 x2) ltac:(by intros []).
Instance tok_os : Tok OperationScopeV1 :=
  tok_iso (fun v => (os_operation_kind v, (os_task_id v, (os_market_id v, (os_model_commitment v, (os_tool_commitment v, (os_endpoint_commitment v, (os_verification_profile v, (os_privacy_lane v, os_maximum_unit_price v)))))))))
    (fun '(x0, (x1, (x2, (x3, (x4, (x5, (x6, (x7, x8)))))))) => mkOperationScope x0 x1 x2 x3 x4 x5 x6 x7 x8) ltac:(by intros []).
Instance tok_rsc : Tok ResourceScopeV1 :=
  tok_iso (fun v => (rsc_resource_kind v, (rsc_scope_mode v, (rsc_allowed_ids v, rsc_allowlist_commitment v))))
    (fun '(x0, (x1, (x2, x3))) => mkResourceScope x0 x1 x2 x3) ltac:(by intros []).
Instance tok_al : Tok AssetLimitV1 :=
  tok_iso (fun v => (al_asset_id v, al_maximum_amount v))
    (fun '(x0, x1) => mkLimit x0 x1) ltac:(by intros []).
Instance tok_cg : Tok CapabilityGrantBodyV1 :=
  tok_iso (fun v => (cg_schema_version v, (cg_genesis_hash v, (cg_chain_id v, (cg_protocol_version v, (cg_stack_profile_hash v, (cg_issuer_agent_id v, (cg_issuer_key_id v, (cg_delegate_agent_id v, (cg_delegate_key_id v, (cg_parent_capability_id v, (cg_grant_nonce v, (cg_operation_scopes v, (cg_resource_scopes v, (cg_spend_limits v, (cg_fee_limit v, (cg_gas_limit v, (cg_da_byte_limit v, (cg_artifact_retention_limit v, (cg_allowed_nonce_lanes v, (cg_valid_from_height v, (cg_expires_after_height v, (cg_rate_window_blocks v, (cg_rate_max_operations v, (cg_max_total_operations v, (cg_delegation_depth_remaining v, (cg_revocation_generation v, cg_conditions_hash v)))))))))))))))))))))))))))
    (fun '(x0, (x1, (x2, (x3, (x4, (x5, (x6, (x7, (x8, (x9, (x10, (x11, (x12, (x13, (x14, (x15, (x16, (x17, (x18, (x19, (x20, (x21, (x22, (x23, (x24, (x25, x26)))))))))))))))))))))))))) => mkGrant x0 x1 x2 x3 x4 x5 x6 x7 x8 x9 x10 x11 x12 x13 x14 x15 x16 x17 x18 x19 x20 x21 x22 x23 x24 x25 x26) ltac:(by intros []).
Instance tok_ac : Tok AssetBudgetCounterV1 :=
  tok_iso (fun v => (ac_asset_id v, (ac_limit v, (ac_spent v, ac_reserved v))))
    (fun '(x0, (x1, (x2, x3))) => mkCounter x0 x1 x2 x3) ltac:(by intros []).
Instance tok_cb : Tok CapabilityBudgetStateV1 :=
  tok_iso (fun v => (cb_schema_version v, (cb_context v, (cb_capability_id v, (cb_budget_version v, (cb_revocation_generation v, (cb_asset_counters v, (cb_fee_limit v, (cb_fee_spent v, (cb_fee_reserved v, (cb_gas_limit v, (cb_gas_spent v, (cb_gas_reserved v, (cb_da_byte_limit v, (cb_da_bytes_spent v, (cb_da_bytes_reserved v, (cb_retention_limit v, (cb_retention_spent v, (cb_retention_reserved v, (cb_operation_limit v, (cb_operations_spent v, (cb_operations_reserved v, (cb_rate_window_start_height v, cb_rate_window_operations v)))))))))))))))))))))))
    (fun '(x0, (x1, (x2, (x3, (x4, (x5, (x6, (x7, (x8, (x9, (x10, (x11, (x12, (x13, (x14, (x15, (x16, (x17, (x18, (x19, (x20, (x21, x22)))))))))))))))))))))) => mkBudget x0 x1 x2 x3 x4 x5 x6 x7 x8 x9 x10 x11 x12 x13 x14 x15 x16 x17 x18 x19 x20 x21 x22) ltac:(by intros []).
Instance tok_cs : Tok CapabilityStateV1 :=
  tok_iso (fun v => (cs_schema_version v, (cs_context v, (cs_capability_id v, (cs_state_version v, (cs_status v, (cs_live_revocation_generation v, (cs_accepted_height v, (cs_status_changed_height v, (cs_revoked_at_height v, cs_budget v))))))))))
    (fun '(x0, (x1, (x2, (x3, (x4, (x5, (x6, (x7, (x8, x9))))))))) => mkCapability x0 x1 x2 x3 x4 x5 x6 x7 x8 x9) ltac:(by intros []).
Instance tok_sg : Tok SessionKeyGrantBodyV1 :=
  tok_iso (fun v => (sg_schema_version v, (sg_genesis_hash v, (sg_chain_id v, (sg_protocol_version v, (sg_stack_profile_hash v, (sg_agent_id v, (sg_session_key_id v, (sg_capability_id v, (sg_allowed_nonce_lanes v, (sg_valid_from_height v, (sg_expires_after_height v, (sg_max_total_operations v, (sg_session_generation v, sg_grant_nonce v))))))))))))))
    (fun '(x0, (x1, (x2, (x3, (x4, (x5, (x6, (x7, (x8, (x9, (x10, (x11, (x12, x13))))))))))))) => mkSessionGrant x0 x1 x2 x3 x4 x5 x6 x7 x8 x9 x10 x11 x12 x13) ltac:(by intros []).
Instance tok_ss : Tok SessionKeyGrantStateV1 :=
  tok_iso (fun v => (ss_schema_version v, (ss_context v, (ss_session_key_grant_id v, (ss_state_version v, (ss_status v, (ss_session_generation v, (ss_bound_capability_generation v, (ss_operations_spent v, (ss_accepted_height v, (ss_status_changed_height v, ss_revoked_at_height v)))))))))))
    (fun '(x0, (x1, (x2, (x3, (x4, (x5, (x6, (x7, (x8, (x9, x10)))))))))) => mkSession x0 x1 x2 x3 x4 x5 x6 x7 x8 x9 x10) ltac:(by intros []).
Instance tok_nb : Tok NonceLaneKeyBodyV1 :=
  tok_iso (fun v => (nb_schema_version v, (nb_context v, (nb_agent_id v, (nb_authorizing_key_id v, (nb_capability_id v, (nb_session_generation v, nb_lane v)))))))
    (fun '(x0, (x1, (x2, (x3, (x4, (x5, x6)))))) => mkLaneKey x0 x1 x2 x3 x4 x5 x6) ltac:(by intros []).
Instance tok_ns : Tok NonceLaneStateV1 :=
  tok_iso (fun v => (ns_schema_version v, (ns_context v, (ns_nonce_lane_id v, (ns_state_version v, (ns_agent_id v, (ns_authorizing_key_id v, (ns_capability_id v, (ns_session_generation v, (ns_lane v, (ns_next_nonce v, (ns_last_operation_digest v, ns_status v))))))))))))
    (fun '(x0, (x1, (x2, (x3, (x4, (x5, (x6, (x7, (x8, (x9, (x10, x11))))))))))) => mkLane x0 x1 x2 x3 x4 x5 x6 x7 x8 x9 x10 x11) ltac:(by intros []).
Instance tok_ch : Tok AssetChargeV1 :=
  tok_iso (fun v => (ch_asset_id v, ch_amount v))
    (fun '(x0, x1) => mkCharge x0 x1) ltac:(by intros []).
Instance tok_rc : Tok KernelResourceChargeV1 :=
  tok_iso (fun v => (rc_asset_charges v, (rc_fee v, (rc_gas v, (rc_da_bytes v, (rc_retention v, rc_operations v))))))
    (fun '(x0, (x1, (x2, (x3, (x4, x5))))) => mkResourceCharge x0 x1 x2 x3 x4 x5) ltac:(by intros []).
Instance tok_as : Tok AccountStateV1 :=
  tok_iso (fun v => (as_schema_version v, (as_context v, (as_account_id v, (as_version v, (as_available v, (as_reserved v, (as_spent v, as_closed v))))))))
    (fun '(x0, (x1, (x2, (x3, (x4, (x5, (x6, x7))))))) => mkAccount x0 x1 x2 x3 x4 x5 x6 x7) ltac:(by intros []).
Instance tok_bs : Tok BondStateV1 :=
  tok_iso (fun v => (bs_schema_version v, (bs_context v, (bs_bond_id v, (bs_version v, (bs_available v, (bs_held v, (bs_released v, (bs_slashed v, bs_closed v)))))))))
    (fun '(x0, (x1, (x2, (x3, (x4, (x5, (x6, (x7, x8)))))))) => mkBond x0 x1 x2 x3 x4 x5 x6 x7 x8) ltac:(by intros []).
Instance tok_et : Tok EscrowTermsV1 :=
  tok_iso (fun v => (et_schema_version v, (et_asset_id v, (et_funded_amount v, (et_provider_payment_cap v, (et_order_fee_reserve v, (et_transaction_da_fee_reserve v, (et_artifact_da_fee_reserve v, (et_verification_fee_reserve v, (et_challenge_reserve v, (et_refund_beneficiary v, et_settlement_policy_hash v)))))))))))
    (fun '(x0, (x1, (x2, (x3, (x4, (x5, (x6, (x7, (x8, (x9, x10)))))))))) => mkTerms x0 x1 x2 x3 x4 x5 x6 x7 x8 x9 x10) ltac:(by intros []).
Instance tok_to : Tok TaskOfferBodyV1 :=
  tok_iso (fun v => (to_schema_version v, (to_genesis_hash v, (to_chain_id v, (to_protocol_version v, (to_stack_profile_hash v, (to_requester_agent_id v, (to_requester_key_id v, (to_requester_capability_id v, (to_requester_session_generation v, (to_request_nonce_lane v, (to_request_nonce v, (to_task_kind v, (to_task_spec_commitment v, (to_input_artifacts v, (to_model_scope_commitment v, (to_tool_scope_commitment v, (to_verification_profile_id v, (to_verification_profile_version v, (to_verification_profile_hash v, (to_privacy_lane v, (to_provider_policy_hash v, (to_resource_limit_hash v, (to_pricing_policy_hash v, (to_escrow_terms_hash v, (to_checkpoint_policy_hash v, (to_migration_policy_hash v, (to_challenge_policy_hash v, (to_offer_expiry_height v, (to_start_deadline_height v, (to_result_deadline_height v, (to_settlement_deadline_height v, to_requester_metadata_commitment v))))))))))))))))))))))))))))))))
    (fun '(x0, (x1, (x2, (x3, (x4, (x5, (x6, (x7, (x8, (x9, (x10, (x11, (x12, (x13, (x14, (x15, (x16, (x17, (x18, (x19, (x20, (x21, (x22, (x23, (x24, (x25, (x26, (x27, (x28, (x29, (x30, x31))))))))))))))))))))))))))))))) => mkOffer x0 x1 x2 x3 x4 x5 x6 x7 x8 x9 x10 x11 x12 x13 x14 x15 x16 x17 x18 x19 x20 x21 x22 x23 x24 x25 x26 x27 x28 x29 x30 x31) ltac:(by intros []).
Instance tok_tc : Tok TaskCreationOperationBodyV1 :=
  tok_iso (fun v => (tc_task_offer_body v, (tc_escrow_terms v, (tc_funding_account_id v, (tc_expected_funding_account_version v, tc_escrow_nonce v)))))
    (fun '(x0, (x1, (x2, (x3, x4)))) => mkCreation x0 x1 x2 x3 x4) ltac:(by intros []).
Instance tok_ts : Tok TaskStateV1 :=
  tok_iso (fun v => (ts_schema_version v, (ts_context v, (ts_task_id v, (ts_revision v, (ts_attempt v, (ts_status v, (ts_active_lease_id v, (ts_latest_checkpoint_id v, (ts_active_result_id v, (ts_escrow_id v, (ts_active_deadline_kind v, ts_active_deadline_height v))))))))))))
    (fun '(x0, (x1, (x2, (x3, (x4, (x5, (x6, (x7, (x8, (x9, (x10, x11))))))))))) => mkTask x0 x1 x2 x3 x4 x5 x6 x7 x8 x9 x10 x11) ltac:(by intros []).
Instance tok_eb : Tok EscrowBodyV1 :=
  tok_iso (fun v => (eb_schema_version v, (eb_genesis_hash v, (eb_chain_id v, (eb_protocol_version v, (eb_stack_profile_hash v, (eb_task_id v, (eb_requester_agent_id v, (eb_asset_id v, (eb_funded_amount v, (eb_provider_payment_cap v, (eb_order_fee_reserve v, (eb_transaction_da_fee_reserve v, (eb_artifact_da_fee_reserve v, (eb_verification_fee_reserve v, (eb_challenge_reserve v, (eb_refund_beneficiary v, (eb_settlement_policy_hash v, eb_escrow_nonce v))))))))))))))))))
    (fun '(x0, (x1, (x2, (x3, (x4, (x5, (x6, (x7, (x8, (x9, (x10, (x11, (x12, (x13, (x14, (x15, (x16, x17))))))))))))))))) => mkEscrowBody x0 x1 x2 x3 x4 x5 x6 x7 x8 x9 x10 x11 x12 x13 x14 x15 x16 x17) ltac:(by intros []).
Instance tok_er : Tok EscrowReservationEntryV1 :=
  tok_iso (fun v => (er_reservation_kind v, (er_source_object_kind v, (er_source_object_id v, (er_asset_id v, (er_amount v, (er_created_height v, er_release_condition_hash v)))))))
    (fun '(x0, (x1, (x2, (x3, (x4, (x5, x6)))))) => mkReservation x0 x1 x2 x3 x4 x5 x6) ltac:(by intros []).
Instance tok_es : Tok EscrowStateV1 :=
  tok_iso (fun v => (es_schema_version v, (es_context v, (es_escrow_id v, (es_version v, (es_available v, (es_reserved v, (es_disbursed v, (es_refunded v, (es_forfeited v, (es_active_reservations v, (es_active_reservation_root v, (es_last_settlement_id v, es_closed v)))))))))))))
    (fun '(x0, (x1, (x2, (x3, (x4, (x5, (x6, (x7, (x8, (x9, (x10, (x11, x12)))))))))))) => mkEscrow x0 x1 x2 x3 x4 x5 x6 x7 x8 x9 x10 x11 x12) ltac:(by intros []).
Instance tok_bd : Tok BidBodyV1 :=
  tok_iso (fun v => (bd_schema_version v, (bd_genesis_hash v, (bd_chain_id v, (bd_protocol_version v, (bd_stack_profile_hash v, (bd_task_id v, (bd_task_revision v, (bd_provider_agent_id v, (bd_provider_key_id v, (bd_provider_capability_id v, (bd_provider_session_generation v, (bd_provider_nonce_lane v, (bd_provider_nonce v, (bd_price_asset_id v, (bd_maximum_price v, (bd_pricing_terms_hash v, (bd_resource_offer_hash v, (bd_execution_environment_hash v, (bd_provider_bond_id v, (bd_checkpoint_terms_hash v, (bd_availability_terms_hash v, (bd_bid_expiry_height v, bd_provider_metadata_commitment v)))))))))))))))))))))))
    (fun '(x0, (x1, (x2, (x3, (x4, (x5, (x6, (x7, (x8, (x9, (x10, (x11, (x12, (x13, (x14, (x15, (x16, (x17, (x18, (x19, (x20, (x21, x22)))))))))))))))))))))) => mkBidBody x0 x1 x2 x3 x4 x5 x6 x7 x8 x9 x10 x11 x12 x13 x14 x15 x16 x17 x18 x19 x20 x21 x22) ltac:(by intros []).
Instance tok_bt : Tok BidStateV1 :=
  tok_iso (fun v => (bt_schema_version v, (bt_context v, (bt_bid_id v, (bt_state_version v, (bt_status v, (bt_accepted_lease_id v, (bt_accepted_height v, bt_terminal_height v))))))))
    (fun '(x0, (x1, (x2, (x3, (x4, (x5, (x6, x7))))))) => mkBid x0 x1 x2 x3 x4 x5 x6 x7) ltac:(by intros []).
Instance tok_lb : Tok TaskLeaseBodyV1 :=
  tok_iso (fun v => (lb_schema_version v, (lb_genesis_hash v, (lb_chain_id v, (lb_protocol_version v, (lb_stack_profile_hash v, (lb_task_id v, (lb_base_task_revision v, (lb_attempt v, (lb_accepted_bid_id v, (lb_requester_agent_id v, (lb_provider_agent_id v, (lb_escrow_id v, (lb_provider_bond_id v, (lb_resume_checkpoint_id v, (lb_execution_environment_hash v, (lb_verification_profile_id v, (lb_verification_profile_version v, (lb_verification_profile_hash v, (lb_pricing_terms_hash v, (lb_checkpoint_terms_hash v, (lb_availability_terms_hash v, (lb_start_deadline_height v, (lb_checkpoint_deadline_height v, (lb_result_deadline_height v, lb_lease_nonce v)))))))))))))))))))))))))
    (fun '(x0, (x1, (x2, (x3, (x4, (x5, (x6, (x7, (x8, (x9, (x10, (x11, (x12, (x13, (x14, (x15, (x16, (x17, (x18, (x19, (x20, (x21, (x22, (x23, x24)))))))))))))))))))))))) => mkLeaseBody x0 x1 x2 x3 x4 x5 x6 x7 x8 x9 x10 x11 x12 x13 x14 x15 x16 x17 x18 x19 x20 x21 x22 x23 x24) ltac:(by intros []).
Instance tok_ls : Tok TaskLeaseStateV1 :=
  tok_iso (fun v => (ls_schema_version v, (ls_context v, (ls_lease_id v, (ls_revision v, (ls_attempt v, (ls_status v, (ls_accepted_height v, (ls_started_height v, (ls_terminal_height v, ls_latest_checkpoint_id v))))))))))
    (fun '(x0, (x1, (x2, (x3, (x4, (x5, (x6, (x7, (x8, x9))))))))) => mkLease x0 x1 x2 x3 x4 x5 x6 x7 x8 x9) ltac:(by intros []).
Instance tok_pa : Tok LeaseProviderAcceptanceBodyV1 :=
  tok_iso (fun v => (pa_schema_version v, (pa_context v, (pa_lease_id v, (pa_provider_agent_id v, (pa_expected_task_revision v, pa_acceptance_nonce v))))))
    (fun '(x0, (x1, (x2, (x3, (x4, x5))))) => mkAcceptance x0 x1 x2 x3 x4 x5) ltac:(by intros []).
Instance tok_au : Tok KernelAuthorizationStatementV1 :=
  tok_iso (fun v => (au_schema_version v, (au_context v, (au_operation_kind v, (au_operation_digest v, (au_sender_agent_id v, (au_authorizing_key_id v, (au_capability_id v, (au_live_capability_generation v, (au_session_key_grant_id v, (au_session_generation v, (au_nonce_lane v, (au_nonce v, (au_expected_lane_version v, (au_valid_after_height v, au_expires_after_height v)))))))))))))))
    (fun '(x0, (x1, (x2, (x3, (x4, (x5, (x6, (x7, (x8, (x9, (x10, (x11, (x12, (x13, x14)))))))))))))) => mkStatement x0 x1 x2 x3 x4 x5 x6 x7 x8 x9 x10 x11 x12 x13 x14) ltac:(by intros []).
Instance tok_ka : Tok KernelAuthorizationV1 :=
  tok_iso (fun v => (ka_statement v, (ka_signer_key_id v, ka_signature v)))
    (fun '(x0, (x1, x2)) => mkAuthorization x0 x1 x2) ltac:(by intros []).
Instance tok_kr : Tok KernelTransitionReceiptV1 :=
  tok_iso (fun v => (kr_schema_version v, (kr_store_id v, (kr_sequence v, (kr_operation_id v, (kr_operation_kind v, (kr_operation_digest v, (kr_order_height v, (kr_order_block_id v, kr_post_state_root v)))))))))
    (fun '(x0, (x1, (x2, (x3, (x4, (x5, (x6, (x7, x8)))))))) => mkReceipt x0 x1 x2 x3 x4 x5 x6 x7 x8) ltac:(by intros []).

(** A command as a tag and its payload. *)
Definition Payload : Type :=
  (CapabilityGrantBodyV1 * KernelAuthorizationV1) + (SessionKeyGrantBodyV1 * KernelAuthorizationV1)
  + (TaskCreationOperationBodyV1 * (KernelResourceChargeV1 * KernelAuthorizationV1))
  + (BidBodyV1 * (KernelResourceChargeV1 * KernelAuthorizationV1))
  + (TaskLeaseBodyV1 * (Z * (Z * (Z * (KernelResourceChargeV1 * KernelAuthorizationV1)))))
  + (LeaseProviderAcceptanceBodyV1 * (Z * (KernelResourceChargeV1 * KernelAuthorizationV1))).

#[refine] Instance tok_sum {A B} `{!Tok A, !Tok B} : Tok (A + B) := {
  toks s := match s with inl a => 0 :: toks a | inr b => 1 :: toks b end;
  untoks l := match l with
              | [] => None
              | t :: l =>
                  if t =? 0 then match untoks l with Some (a, l) => Some (inl a, l) | None => None end
                  else match untoks l with Some (b, l) => Some (inr b, l) | None => None end
              end;
}.
Proof. intros [a|b] rest; cbn; by rewrite untoks_toks. Defined.

Definition to_payload (c : KernelCommandV1) : Payload :=
  match c with
  | CapabilityGrant b a => inl (inl (inl (inl (inl (b, a)))))
  | SessionGrant b a => inl (inl (inl (inl (inr (b, a)))))
  | TaskCreate b c a => inl (inl (inl (inr (b, (c, a)))))
  | Bid b c a => inl (inl (inr (b, (c, a))))
  | LeaseAccept b x y z c a => inl (inr (b, (x, (y, (z, (c, a))))))
  | ProviderAccept b x c a => inr (b, (x, (c, a)))
  end.
Definition of_payload (p : Payload) : KernelCommandV1 :=
  match p with
  | inl (inl (inl (inl (inl (b, a))))) => CapabilityGrant b a
  | inl (inl (inl (inl (inr (b, a))))) => SessionGrant b a
  | inl (inl (inl (inr (b, (c, a))))) => TaskCreate b c a
  | inl (inl (inr (b, (c, a)))) => Bid b c a
  | inl (inr (b, (x, (y, (z, (c, a)))))) => LeaseAccept b x y z c a
  | inr (b, (x, (c, a))) => ProviderAccept b x c a
  end.
Instance tok_payload : Tok Payload := _.
Instance tok_command : Tok KernelCommandV1 := tok_iso to_payload of_payload ltac:(by intros []).

(** ** The crates *)

Definition tok_to_vec {A} `{!Tok A} (a : A) : string + list Z :=
  if zlen (toks a) <=? u64_max then inr (toks a) else inl "too long"%string.
Definition tok_from_slice {A} `{!Tok A, !RustTyped A} (b : list Z) : option A :=
  match untoks b with Some (a, []) => if typed a then Some a else None | _ => None end.

(** A 32-byte digest of a list of integers. *)
Definition small_hash (m : list Z) : list Z :=
  le_bytes 4 (foldl (fun h x => Z.land (h * 263 + x + 1) 2147483647) 7 m) ++ replicate 28 0.

#[export] Instance toy_crypto : CryptoCrates := {
  sha256 := small_hash;
  hex_encode b := b;
  hex_decode s := Some s;
  hex_decode_to_slice s n := Some s;
  VerifyingKey := list Z;
  vk_from_bytes b := Some b;
  vk_to_bytes k := k;
  verify_strict k m s := s =?? (k ++ m);
  SigningKey := list Z;
  sk_from_bytes b := b;
  sk_verifying_key k := k;
  sk_sign k m := k ++ m;
}.

#[export] Instance toy_crates : KernelCrates := {
  kernel_crypto := toy_crypto;
  borsh_capability_body := tok_to_vec;
  unborsh_capability_body := tok_from_slice;
  borsh_capability_state := tok_to_vec;
  unborsh_capability_state := tok_from_slice;
  borsh_session_body := tok_to_vec;
  unborsh_session_body := tok_from_slice;
  borsh_session_state := tok_to_vec;
  unborsh_session_state := tok_from_slice;
  borsh_lane_body := tok_to_vec;
  unborsh_lane_body := tok_from_slice;
  borsh_lane_state := tok_to_vec;
  unborsh_lane_state := tok_from_slice;
  borsh_account_body := tok_to_vec;
  unborsh_account_body := tok_from_slice;
  borsh_account_state := tok_to_vec;
  unborsh_account_state := tok_from_slice;
  borsh_bond_body := tok_to_vec;
  unborsh_bond_body := tok_from_slice;
  borsh_bond_state := tok_to_vec;
  unborsh_bond_state := tok_from_slice;
  borsh_task_body := tok_to_vec;
  unborsh_task_body := tok_from_slice;
  borsh_task_state := tok_to_vec;
  unborsh_task_state := tok_from_slice;
  borsh_escrow_body := tok_to_vec;
  unborsh_escrow_body := tok_from_slice;
  borsh_escrow_state := tok_to_vec;
  unborsh_escrow_state := tok_from_slice;
  borsh_bid_body := tok_to_vec;
  unborsh_bid_body := tok_from_slice;
  borsh_bid_state := tok_to_vec;
  unborsh_bid_state := tok_from_slice;
  borsh_lease_body := tok_to_vec;
  unborsh_lease_body := tok_from_slice;
  borsh_lease_state := tok_to_vec;
  unborsh_lease_state := tok_from_slice;
  borsh_command := tok_to_vec;
  unborsh_command := tok_from_slice;
  borsh_receipt := tok_to_vec;
  unborsh_receipt := tok_from_slice;
  borsh_config := tok_to_vec;
  borsh_terms := tok_to_vec;
  borsh_reservations := tok_to_vec;
  borsh_statement := tok_to_vec;
  borsh_create_op := tok_to_vec;
  borsh_bid_op := tok_to_vec;
  borsh_lease_op := tok_to_vec;
  borsh_accept_op := tok_to_vec;
}.

Lemma tok_law A `{!Tok A, !RustTyped A} : @BorshLaw A tok_to_vec tok_from_slice _.
Proof.
  split.
  - intros a b Ht Hb. unfold borsh_to_vec, tok_to_vec in Hb. destruct (_ <=? _); [|discriminate]. injection Hb as <-.
    unfold borsh_from_slice, tok_from_slice. pose proof (untoks_toks a []) as Hu. rewrite app_nil_r in Hu. by rewrite Hu, Ht.
  - intros b a Hd. unfold borsh_from_slice, tok_from_slice in Hd. destruct (untoks b) as [[x [|? ?]]|]; [|discriminate..].
    destruct (typed x) eqn:Ht; [|discriminate]. by injection Hd as <-.
Qed.

Lemma small_hash_width m : is_hash (small_hash m) = true.
Proof.
  unfold small_hash. generalize (foldl (fun h x => Z.land (h * 263 + x + 1) 2147483647) 7 m). intros z.
  assert (Hb : forall x, is_width 255 (x mod 256) = true).
  { intros x. unfold is_width. pose proof (Z.mod_pos_bound x 256). apply andb_true_iff. split; apply Z.leb_le; lia. }
  unfold is_hash. cbn [le_bytes app replicate]. cbn [forallb]. unfold u8_max in *. rewrite !Hb. done.
Qed.

#[export] Instance toy_laws : KernelLaws.
Proof. split; [exact small_hash_width|apply tok_law..]. Qed.
