(* ===== verification/KernelWitness.v ===== *)
(** * KernelWitness: the kernel on concrete commands

    A requester and a provider on the crates of [KernelCodec]: capabilities and
    sessions are granted, tasks are created, a bid is made and accepted.  The
    hypotheses of the theorems about the kernel hold on this run. *)

From stdpp Require Import base gmap list sorting strings.
From S2P Require Import Prelude Crypto KernelTypes KernelCodec KernelStore KernelAudit Kernel KernelService KernelObjects KernelSteps KernelLedger KernelBudgets KernelJournal KernelMarkers KernelCommit KernelRuns KernelSafety KernelTheorems KernelPreview.

(** ** Two agents *)

Definition h32 (n : Z) : Hash32V1 := n :: 1 :: replicate 30 0.
Definition get {A} (d : A) (r : KResult A) : A := match r with Ok a => a | _ => d end.

Definition context : ProtocolContextV1 := mkContext (h32 1) [84] 1 (h32 2).
Definition requester : BootstrapAgentV1 := mkAgent (h32 10) (h32 11) (h32 12) (h32 13) (h32 14).
Definition provider : BootstrapAgentV1 := mkAgent (h32 20) (h32 21) (h32 22) (h32 23) (h32 24).
Definition asset : Hash32V1 := h32 30.
Definition account_body : AccountBodyV1 := mkAccountBody 1 context (h32 10) asset (h32 31).
Definition bond_body : BondBodyV1 := mkBondBody 1 context (h32 20) asset 1 1 (h32 32) (h32 33).
Definition account : Hash32V1 := get [] (account_id account_body).
Definition bond : Hash32V1 := get [] (bond_id bond_body).
Definition bundle : AgentMarketFreshGenesisTrustBundleV1 :=
  mkBundle 1 context 10 (h32 40) requester provider account_body account 1000 bond_body bond 500 100.
Definition demo : AgentMarketStoreConfigV1 := mkConfig (h32 50) bundle.

(** ** Commands *)

(** Sign a command for an agent under one of its two keys. *)
Definition domain (kind : Z) : string := match signature_domain kind with Some d => d | None => "" end.
Definition sign (agent : BootstrapAgentV1) (kind : Z) (statement : KernelAuthorizationStatementV1) : KernelAuthorizationV1 :=
  let '(key, public) := if kind <=? 3 then (ba_controller_key_id agent, ba_controller_public_key agent)
    else (ba_session_key_id agent, ba_session_public_key agent) in
  mkAuthorization statement key (public ++ get [] (digest_value (domain kind) statement)).

Definition no_authorization : KernelAuthorizationV1 :=
  mkAuthorization (mkStatement 0 context 0 [] [] [] None 0 None 0 0 0 0 0 0) [] [].

(** [make] is the command without its authorization. *)
Definition by_controller (agent : BootstrapAgentV1) (nonce : Z) (make : KernelAuthorizationV1 -> KernelCommandV1) : KernelCommandV1 :=
  let c := make no_authorization in
  make (sign agent (operation_kind c) (mkStatement 1 context (operation_kind c) (get [] (operation_digest c)) (ba_agent_id agent)
    CONTROLLER_SENTINEL_KEY_V1 None 0 None 0 0 nonce nonce 0 1000)).

Definition by_delegate (agent : BootstrapAgentV1) (capability session : Hash32V1) (nonce : Z)
    (make : KernelAuthorizationV1 -> KernelCommandV1) : KernelCommandV1 :=
  let c := make no_authorization in
  make (sign agent (operation_kind c) (mkStatement 1 context (operation_kind c) (get [] (operation_digest c)) (ba_agent_id agent)
    (ba_session_key_id agent) (Some capability) 0 (Some session) 1 1 nonce nonce 0 1000)).

Definition scope (kind : Z) : OperationScopeV1 := mkOperationScope kind None None None None None None None None.
Definition capability_of (agent : BootstrapAgentV1) (kinds : list Z) : CapabilityGrantBodyV1 :=
  mkGrant 1 (h32 1) [84] 1 (h32 2) (ba_agent_id agent) CONTROLLER_SENTINEL_KEY_V1 (ba_agent_id agent)
    (Some (ba_session_key_id agent)) None (h32 60) (scope <$> kinds) [mkResourceScope 1 0 [h32 61] None]
    [mkLimit asset 700] 1000 1000 1000 1000 [1] 5 100 10 50 20 0 0 (h32 62).
Definition capability_hash (agent : BootstrapAgentV1) (kinds : list Z) : Hash32V1 := get [] (capability_id (capability_of agent kinds)).
Definition session_of (agent : BootstrapAgentV1) (capability : Hash32V1) : SessionKeyGrantBodyV1 :=
  mkSessionGrant 1 (h32 1) [84] 1 (h32 2) (ba_agent_id agent) (ba_session_key_id agent) capability [1] 5 100 10 1 (h32 63).

Definition rcap : Hash32V1 := capability_hash requester [4; 6].
Definition pcap : Hash32V1 := capability_hash provider [5; 7].
Definition rses : Hash32V1 := get [] (session_key_grant_id (session_of requester rcap)).
Definition pses : Hash32V1 := get [] (session_key_grant_id (session_of provider pcap)).

Definition grant1 : KernelCommandV1 := by_controller requester 0 (CapabilityGrant (capability_of requester [4; 6])).
Definition session1 : KernelCommandV1 := by_controller requester 1 (SessionGrant (session_of requester rcap)).
Definition grant2 : KernelCommandV1 := by_controller provider 0 (CapabilityGrant (capability_of provider [5; 7])).
Definition session2 : KernelCommandV1 := by_controller provider 1 (SessionGrant (session_of provider pcap)).

Definition terms : EscrowTermsV1 := mkTerms 1 asset 300 200 10 10 10 10 10 (ba_agent_id requester) (h32 70).
Definition offer (nonce : Z) : TaskOfferBodyV1 :=
  mkOffer 1 (h32 1) [84] 1 (h32 2) (ba_agent_id requester) (ba_session_key_id requester) (Some rcap) 1 1 nonce [65] (h32 71) []
    (h32 72) (h32 73) [86] 1 (h32 74) 0 (h32 75) (h32 61) (h32 76) (get [] (digest_value "trnm.portable.v2.escrow-terms.v1" terms))
    (h32 77) (h32 78) (h32 79) 50 60 70 80 (h32 80).
Definition create (nonce version : Z) : KernelCommandV1 :=
  by_delegate requester rcap rses nonce
    (TaskCreate (mkCreation (offer nonce) terms account version (h32 81)) (mkResourceCharge [mkCharge asset 300] 1 1 1 1 1)).
Definition task (nonce : Z) : Hash32V1 := get [] (task_id (offer nonce)).
Definition escrow (nonce version : Z) : Hash32V1 :=
  get [] (escrow_id (escrow_body_of (mkCreation (offer nonce) terms account version (h32 81)) (task nonce))).

Definition bid_body : BidBodyV1 :=
  mkBidBody 1 (h32 1) [84] 1 (h32 2) (task 0) 0 (ba_agent_id provider) (ba_session_key_id provider) (Some pcap) 1 1 0 asset 150
    (h32 90) (h32 91) (h32 92) bond (h32 93) (h32 94) 50 (h32 95).
Definition bid : KernelCommandV1 := by_delegate provider pcap pses 0 (Bid bid_body (mkResourceCharge [] 1 1 1 1 1)).

(** The lease of the task with request nonce [nonce], for the bid on task 0. *)
Definition lease_body (nonce : Z) : TaskLeaseBodyV1 :=
  mkLeaseBody 1 (h32 1) [84] 1 (h32 2) (task nonce) 0 0 (get [] (bid_id bid_body)) (ba_agent_id requester) (ba_agent_id provider)
    (escrow nonce nonce) bond None (h32 92) [86] 1 (h32 74) (h32 90) (h32 93) (h32 94) 60 65 70 (h32 96).
Definition lease (nonce : Z) : KernelCommandV1 :=
  by_delegate requester rcap rses 2 (fun a => LeaseAccept (lease_body nonce) 0 0 0 (mkResourceCharge [] 1 1 1 1 1) a).
Definition accept (nonce : Z) : KernelCommandV1 :=
  by_delegate provider pcap pses 1 (fun a => ProviderAccept (mkAcceptance 1 context (get [] (lease_id (lease_body nonce))) (ba_agent_id provider) 1 (h32 97))
    0 (mkResourceCharge [] 1 1 1 1 1) a).

(** ** A fresh store and its first block *)

Definition genesis : Store := (open demo absent_store).2.

Definition above (height : Z) (command : KernelCommandV1) : CommittedExecutionContextV1 * KernelCommandV1 :=
  (mkExecution 1 context height (h32 (height + 30)) (height + 1) (h32 (height + 31)), command).
Definition first : CommittedExecutionContextV1 := (above 10 grant1).1.

Definition applied (o : KResult KernelExecutionOutcomeV1) : bool := match o with Ok (Applied _) => true | _ => false end.

Lemma demo_config_typed : typed_config demo.
Proof. by split; vm_compute. Qed.

Lemma pair_of {A B} (p : A * B) a : p.1 = a -> p = (a, p.2).
Proof. by destruct p; cbn; intros ->. Qed.

Lemma genesis_life : life demo genesis.
Proof.
  apply (life_created _ absent_store); [reflexivity|].
  assert (Ho : (open demo absent_store).1 = Ok tt) by (vm_compute; reflexivity).
  unfold genesis. exact (pair_of (open demo absent_store) (Ok tt) Ho).
Qed.

Lemma genesis_room : zlen (journal genesis) + 1 < u64_max.
Proof. vm_compute. reflexivity. Qed.

Lemma grant1_typed : typed_command grant1 = true /\ typed_ex first = true.
Proof. by split; vm_compute. Qed.

Lemma grant1_applied : exists receipt st, execute_committed_execution demo first grant1 genesis = (Ok (Applied receipt), st).
Proof.
  assert (Hs : applied (execute_committed_execution demo first grant1 genesis).1 = true) by (vm_compute; reflexivity).
  revert Hs. generalize (execute_committed_execution demo first grant1 genesis).
  intros [[[r|r]| |] st]; cbn; [eauto|discriminate..].
Qed.

(** ** A market *)

(** The store after a bid on the first of two tasks has been accepted for it. *)
Definition market_run : list (CommittedExecutionContextV1 * KernelCommandV1) :=
  [above 10 grant1; above 11 session1; above 12 grant2; above 13 session2; above 14 (create 0 0); above 15 (create 1 1);
   above 16 bid; above 17 (lease 0); above 18 (accept 0)].
Definition market_store : Store :=
  foldl (fun st step => (execute_committed_execution demo step.1 step.2 st).2) genesis market_run.

Lemma run_life l : Forall (fun step => typed_ex step.1 = true /\ typed_command step.2 = true) l -> forall st, life demo st ->
  life demo (foldl (fun st step => (execute_committed_execution demo step.1 step.2 st).2) st l).
Proof.
  induction 1 as [|step l [Hx Hc] _ IH]; intros st Hst; cbn [foldl]; [done|]. apply IH.
  eapply life_executed; [exact Hst|exact Hx|exact Hc|]. apply surjective_pairing.
Qed.

Lemma market_life : life demo market_store.
Proof.
  apply run_life; [|apply genesis_life]. repeat (apply Forall_cons; split; [split; vm_compute; reflexivity|]). apply Forall_nil. exact I.
Qed.

(** The handlers alone, at height 11. *)
Definition performed (commands : list KernelCommandV1) : KResult Store :=
  try_fold (fun st c => perform st demo 11 c) genesis commands.

(** ** A foreign bid *)

(** The task of the accepted bid of a lease. *)
Definition bid_task (st : Store) (id : Hash32V1) : option (Hash32V1 * Hash32V1) :=
  match view st !! key KindLease id with
  | Some (OLease lb _) =>
      match view st !! key KindBid (lb_accepted_bid_id lb) with
      | Some (OBid db _) => Some (lb_task_id lb, bd_task_id db)
      | _ => None
      end
  | _ => None
  end.

(** A requester accepts, for its second task, the bid that was made on its first: nothing
    compares the bid's task with the lease's, and the bid is consumed. *)
Theorem lease_accepts_foreign_bid :
  exists st, performed [grant1; session1; grant2; session2; create 0 0; create 1 1; bid; lease 1] = Ok st /\
    bid_task st (get [] (lease_id (lease_body 1))) = Some (task 1, task 0) /\ task 1 <> task 0.
Proof.
  assert (Hs : match performed [grant1; session1; grant2; session2; create 0 0; create 1 1; bid; lease 1] with
    | Ok st => bool_decide (bid_task st (get [] (lease_id (lease_body 1))) = Some (task 1, task 0) /\ task 1 <> task 0)
    | _ => false end = true) by (vm_compute; reflexivity).
  destruct (performed _) as [st| |]; [|discriminate..]. apply bool_decide_eq_true in Hs. eauto.
Qed.

(** ** Witnesses *)

Lemma execution_refines_kernel_witness : exists receipt st,
  performs demo 11 grant1 (view genesis) (view st) /\ journal st = journal genesis ++ [grant1] /\
  confirm_receipt st demo receipt = Ok receipt /\ kr_sequence receipt = zlen (journal st) /\
  compute_state_root st = Ok (kr_post_state_root receipt) /\ load_order_tip st = Ok (11, h32 41).
Proof.
  destruct grant1_applied as (receipt & st & Hrun). exists receipt, st.
  exact (execution_refines_kernel demo genesis first grant1 (Ok (Applied receipt)) st
    demo_config_typed genesis_life (proj2 grant1_typed) (proj1 grant1_typed) genesis_room Hrun).
Defined.

Lemma lost_acknowledgement_recovers_witness : exists receipt st,
  execute_inner demo first grant1 AppliedAckLost genesis = (Err CommitUncertain, st) /\
  execute_inner demo first grant1 NotAppliedAckLost genesis = (Err CommitUncertain, genesis) /\
  forall fault, execute_inner demo first grant1 fault st = (Ok (Replayed receipt), st).
Proof.
  destruct grant1_applied as (receipt & st & Hrun). exists receipt, st.
  exact (lost_acknowledgement_recovers demo genesis first grant1 receipt st
    demo_config_typed genesis_life (proj2 grant1_typed) (proj1 grant1_typed) genesis_room Hrun).
Defined.

Lemma third_state_is_fenced_witness :
  exists stf, execute_inner demo first grant1 ThirdState genesis = (Err ThirdStateFenced, stf) /\
    objects stf = objects genesis /\ operations stf = operations genesis /\ markers stf = markers genesis /\
    (forall ex c fault, exists e, execute_inner demo ex c fault stf = (Err e, stf)) /\
    (forall ex, (advance_empty_committed_execution_v1 demo ex stf).2 = stf) /\
    (forall rb, fresh_readback stf demo <> Ok rb) /\ open_existing stf demo <> Ok tt.
Proof.
  destruct grant1_applied as (receipt & st & Hrun).
  exact (third_state_is_fenced demo genesis first grant1 receipt st
    demo_config_typed genesis_life (proj2 grant1_typed) (proj1 grant1_typed) genesis_room Hrun).
Defined.

Lemma kernel_funds_are_conserved_witness :
  map_sum obj_value (view market_store) = 1000 /\ map_sum obj_bonded (view market_store) = 500 /\
  map_sum obj_held (view market_store) = 100 * map_sum obj_leases (view market_store) /\
  forall id b s, view market_store !! key KindEscrow id = Some (OEscrow b s) ->
    es_available s + es_reserved s = eb_funded_amount b /\ es_reserved s = lsum er_amount (es_active_reservations s).
Proof. exact (kernel_funds_are_conserved demo market_store demo_config_typed market_life). Defined.

Lemma authorizations_are_exact_witness :
  (forall id b s, view market_store !! key KindNonceLane id = Some (OLane b s) ->
     lane_exact s (by_lane demo id (journal market_store))) /\
  (forall id b s, view market_store !! key KindCapability id = Some (OCapability b s) ->
     budget_exact b (cs_budget s) (by_capability id (journal market_store))) /\
  (forall id b s, view market_store !! key KindSessionGrant id = Some (OSession b s) ->
     ss_operations_spent s = zlen (by_session id (journal market_store)) /\ ss_operations_spent s <= sg_max_total_operations b).
Proof. exact (authorizations_are_exact demo market_store demo_config_typed market_life). Defined.

Lemma market_is_consistent_witness :
  market (view market_store) /\
  forall id1 id2 lb1 ls1 lb2 ls2,
    view market_store !! key KindLease id1 = Some (OLease lb1 ls1) -> view market_store !! key KindLease id2 = Some (OLease lb2 ls2) ->
    lb_task_id lb1 = lb_task_id lb2 \/ lb_accepted_bid_id lb1 = lb_accepted_bid_id lb2 -> id1 = id2.
Proof. exact (market_is_consistent demo market_store demo_config_typed market_life). Defined.

(** *** The preview of a block of two commands *)

Definition proposal : list KernelCommandV1 := [grant1; session1].

(** The preview of a block on the parent that was read back. *)
Definition previews (st : Store) (config : AgentMarketStoreConfigV1) (h : Z) (b : Hash32V1) (cs : list KernelCommandV1) : bool :=
  match fresh_readback st config with
  | Ok before => match preview_before_vote_v1 st config before h b cs with
                 | Ok _ => is_u64 (rb_order_height before) && is_hash (rb_order_block_id before)
                 | _ => false
                 end
  | _ => false
  end.

Lemma previews_Ok st config h b cs : previews st config h b cs = true ->
  exists before preview, preview_before_vote_v1 st config before h b cs = Ok preview /\
    is_u64 (rb_order_height before) = true /\ is_hash (rb_order_block_id before) = true.
Proof.
  unfold previews. destruct (fresh_readback st config) as [before| |]; [|discriminate..].
  destruct (preview_before_vote_v1 st config before h b cs) as [preview| |] eqn:Hp; [|discriminate..].
  intros [H1 H2]%andb_true_iff. eauto.
Qed.

Lemma proposal_previews : previews genesis demo 11 (h32 41) proposal = true.
Proof. vm_compute. reflexivity. Qed.

Lemma commands_typed cs : forallb typed_command cs = true -> Forall (fun c => typed_command c = true) cs.
Proof. rewrite forallb_forall. intros Hc. apply Forall_forall. intros c Hin. apply Hc. by apply list_elem_of_In. Qed.

Lemma block_fresh st b : bool_decide (map_Forall (fun _ row => b_order_block_id row <> b) (markers st)) = true ->
  forall k row, markers st !! k = Some row -> b_order_block_id row <> b.
Proof. intros Hf. by apply bool_decide_eq_true in Hf. Qed.

Lemma proposal_typed : forallb typed_command proposal = true.
Proof. vm_compute. reflexivity. Qed.
Lemma proposal_room : zlen (journal genesis) + zlen proposal < u64_max.
Proof. vm_compute. reflexivity. Qed.
Lemma marker_room : (Z.of_nat (size (markers genesis)) <=? u64_max) = true.
Proof. vm_compute. reflexivity. Qed.
Lemma proposal_fresh : bool_decide (map_Forall (fun _ row => b_order_block_id row <> h32 41) (markers genesis)) = true.
Proof. vm_compute. reflexivity. Qed.

Lemma tok_to_vec_bound {A} `{!Tok A} (a : A) b : tok_to_vec a = inr b -> zlen b <= u64_max.
Proof.
  unfold tok_to_vec. destruct (zlen (toks a) <=? u64_max) eqn:E; [|discriminate]. intros Hb.
  assert (toks a = b) as <- by congruence. by apply Z.leb_le.
Qed.

Lemma toy_bounded : bounded_encodings.
Proof. exact (conj (@tok_to_vec_bound KernelCommandV1 tok_command) (@tok_to_vec_bound KernelTransitionReceiptV1 tok_kr)). Qed.

Lemma preview_predicts_execution_witness : exists before preview st,
  execute_block demo 11 (h32 41) (rb_order_height before, rb_order_block_id before) proposal genesis
      = Some (pv_candidate_receipts preview, st) /\
    compute_state_root st = Ok (pv_candidate_post_state_root preview) /\ journal st = journal genesis ++ proposal /\
    pv_source_sequence preview = zlen (journal genesis).
Proof.
  destruct (previews_Ok genesis demo 11 (h32 41) proposal proposal_previews) as (before & preview & Hp & H1 & H2).
  exists before, preview.
  exact (preview_predicts_execution demo genesis before 11 (h32 41) proposal preview demo_config_typed toy_bounded genesis_life H1 H2
    (eq_refl true) (eq_refl true) (commands_typed proposal proposal_typed) proposal_room
    (proj1 (Z.leb_le (Z.of_nat (size (markers genesis))) u64_max) marker_room) (block_fresh genesis (h32 41) proposal_fresh) Hp).
Defined.
