(* ===== verification/ByteReader.v ===== *)
(** * ByteReader: a cursor over a byte slice

    Two crates read their frames with the same kind of cursor ([Cursor] of
    trnm-peer-lease, [WireReaderV1] of trnm-task-kernel): a slice and an offset
    that only moves over bytes that are there.  The cursor is modelled once, over
    the error each crate reports, with the lemmas that relate a decoder to the
    bytes it reads. *)

From stdpp Require Import base gmap list sorting strings.
From S2P Require Import Prelude.

Record Cursor := mkCursor { c_bytes : list Z; c_offset : Z }.

(** [bytes.get(a..b)] *)
Definition byte_range (l : list Z) (a b : Z) : option (list Z) :=
  if (a <=? b) && (b <=? zlen l) then Some (take (Z.to_nat (b - a)) (drop (Z.to_nat a) l)) else None.

Section cursor.
Context {E : Type} (overflow truncated : E).

Definition take_slice (count : Z) : SE Cursor E (list Z) :=
  r ← get_self;
  end_ ← lift (ok_or (checked_add u64_max (c_offset r) count) overflow);
  bytes ← lift (ok_or (byte_range (c_bytes r) (c_offset r) end_) truncated);
  _ ← set_self (mkCursor (c_bytes r) end_);
  mret bytes.

(** [finish]: nothing is left. *)
Definition finish_slice (trailing : E) : SE Cursor E () :=
  r ← get_self;
  lift (fail_if (c_offset r <>? zlen (c_bytes r)) trailing).

End cursor.

(** ** Slices *)

Lemma byte_range_mid pre x post a b :
  a = zlen pre -> b = a + zlen x -> byte_range (pre ++ x ++ post) a b = Some x.
Proof.
  intros -> ->. unfold byte_range, zlen. rewrite !length_app.
  rewrite !(proj2 (Z.leb_le _ _)) by lia. cbn [andb]. f_equal.
  rewrite Nat2Z.id, drop_app_length. replace (Z.to_nat _) with (length x) by lia. by rewrite take_app_length.
Qed.

Lemma byte_range_Some l a b x : 0 <= a -> byte_range l a b = Some x ->
  zlen x = b - a /\ a <= b <= zlen l /\ exists pre post, l = pre ++ x ++ post /\ zlen pre = a.
Proof.
  unfold byte_range, zlen. intros Ha H. destruct (_ && _) eqn:Hb; [|done]. injection H as <-. bprop.
  assert (Hl : length (take (Z.to_nat (b - a)) (drop (Z.to_nat a) l)) = Z.to_nat (b - a)) by (rewrite length_take, length_drop; lia).
  split_and!; [lia|lia|lia|]. exists (take (Z.to_nat a) l), (drop (Z.to_nat (b - a)) (drop (Z.to_nat a) l)).
  rewrite take_drop, take_drop. split; [done|]. rewrite length_take. lia.
Qed.

Lemma byte_range_total l a b : 0 <= a <= b -> b <= zlen l -> exists x, byte_range l a b = Some x /\ zlen x = b - a.
Proof.
  intros Ha Hb. unfold byte_range. rewrite !(proj2 (Z.leb_le _ _)) by lia. cbn [andb]. eexists. split; [done|].
  unfold zlen in *. rewrite length_take, length_drop. lia.
Qed.

(** Adjacent slices are one slice. *)
Lemma byte_range_cat l a b c x y : 0 <= a ->
  byte_range l a b = Some x -> byte_range l b c = Some y -> byte_range l a c = Some (x ++ y).
Proof.
  intros Ha Hx Hy. destruct (byte_range_Some _ _ _ _ Ha Hx) as (Lx & Bx & pre & post & -> & Lp).
  assert (Hb : 0 <= b) by lia. destruct (byte_range_Some _ _ _ _ Hb Hy) as (Ly & By & pre' & post' & Heq & Lp').
  assert (Hp : pre' = pre ++ x /\ post = y ++ post').
  { rewrite app_assoc in Heq. apply app_inj_1 in Heq as [<- ->]; [done|]. unfold zlen in *. rewrite length_app. lia. }
  destruct Hp as [-> ->]. rewrite (app_assoc x y). apply byte_range_mid; [done|]. unfold zlen in *. rewrite length_app. lia.
Qed.

Lemma byte_range_all l : byte_range l 0 (zlen l) = Some l.
Proof. rewrite <- (app_nil_r l) at 1. apply (byte_range_mid []); [done|]. lia. Qed.

Lemma byte_range_shift pre l a b : byte_range (pre ++ l) (zlen pre + a) (zlen pre + b) = byte_range l a b \/ a < 0.
Proof.
  destruct (Z_lt_ge_dec a 0) as [?|Ha]; [by right|left]. unfold byte_range, zlen. rewrite length_app.
  destruct ((a <=? b) && (b <=? Z.of_nat (length l))) eqn:Hb; bprop.
  - rewrite !(proj2 (Z.leb_le _ _)) by lia. cbn [andb]. f_equal.
    replace (Z.to_nat (Z.of_nat (length pre) + a)) with (length pre + Z.to_nat a)%nat by lia. rewrite drop_app_add.
    f_equal. lia.
  - apply andb_false_iff in Hb. destruct (_ && _) eqn:Hc; [|done]. bprop. destruct Hb; bprop; lia.
Qed.

(** ** Exact readers *)

(** [R a bs post]: the reader returns [a] after it has read [bs] with [post] left.  An exact
    reader returns a value exactly when the bytes at the cursor are related to it, moves
    over them, and never panics. *)
Section exact.
Context {E : Type}.

Record exact_reader {A} (m : SE Cursor E A) (R : A -> list Z -> list Z -> Prop) : Prop := {
  ex_reads pre bs post a : R a bs post -> zlen (pre ++ bs ++ post) <= u64_max ->
    m (mkCursor (pre ++ bs ++ post) (zlen pre)) = (Ok a, mkCursor (pre ++ bs ++ post) (zlen pre + zlen bs));
  ex_inv pre rest : Forall is_byte (pre ++ rest) -> zlen (pre ++ rest) <= u64_max ->
    match m (mkCursor (pre ++ rest) (zlen pre)) with
    | (Ok a, c) => exists bs post, rest = bs ++ post /\ R a bs post /\ c = mkCursor (pre ++ rest) (zlen pre + zlen bs)
    | (Err _, _) => True
    | (Panic, _) => False
    end;
}.

Lemma exact_lift {A} (r : result E A) : r <> Panic -> exact_reader (lift r) (fun a bs _ => r = Ok a /\ bs = []).
Proof.
  intros Hp. split.
  - intros pre bs post a [-> ->] _. unfold lift. change (zlen (A := Z) []) with 0. by rewrite Z.add_0_r.
  - intros pre rest _ _. unfold lift. destruct r; [|done..]. exists [], rest. change (zlen (A := Z) []) with 0. by rewrite Z.add_0_r.
Qed.

Lemma exact_weaken {A} (m : SE Cursor E A) R S : exact_reader m R -> (forall a bs post, R a bs post <-> S a bs post) -> exact_reader m S.
Proof.
  intros [H1 H2] Heq. split; [intros pre bs post a HS; apply H1; by apply Heq|]. intros pre rest Hb Hl. specialize (H2 pre rest Hb Hl).
  destruct (m _) as [[a|e|] c]; [|done..]. destruct H2 as (bs & post & ? & HR & ?). exists bs, post. split_and!; [done|by apply Heq|done].
Qed.

Lemma exact_ret {A} (a : A) : exact_reader (mret a) (fun x bs _ => x = a /\ bs = []).
Proof. apply (exact_weaken (lift (Ok (E := E) a)) _ _ (exact_lift (Ok a) ltac:(done))). intros x bs _. split; intros [Hx ->]; [by apply Ok_inj in Hx|by subst]. Qed.

Lemma exact_bind {A B} (m : SE Cursor E A) (f : A -> SE Cursor E B) R S : exact_reader m R -> (forall a bs post, R a bs post -> exact_reader (f a) (S a)) ->
  exact_reader (m ≫= f) (fun b bs post => exists a bs1 bs2, bs = bs1 ++ bs2 /\ R a bs1 (bs2 ++ post) /\ S a b bs2 post).
Proof.
  intros [Hm1 Hm2] Hf. split.
  - intros pre bs post b (a & bs1 & bs2 & -> & HR & HS) Hl. rewrite <- app_assoc in *. unfold mbind, SE_bind. rewrite (Hm1 _ _ _ a) by done.
    pose proof (ex_reads _ _ (Hf _ _ _ HR) (pre ++ bs1) bs2 post b HS) as Hb. rewrite <- !app_assoc in Hb. specialize (Hb Hl). rewrite !zlen_app in *. by rewrite Hb, Z.add_assoc.
  - intros pre rest Hb Hl. specialize (Hm2 pre rest Hb Hl). unfold mbind, SE_bind. destruct (m _) as [[a|e|] c]; [|done..].
    destruct Hm2 as (bs1 & post1 & -> & HR & ->). rewrite app_assoc in Hb, Hl. pose proof (ex_inv _ _ (Hf _ _ _ HR) (pre ++ bs1) post1 Hb Hl) as Hi.
    rewrite <- app_assoc, zlen_app in Hi. destruct (f a _) as [[b|e|] c']; [|done..]. destruct Hi as (bs2 & post & -> & HS & ->).
    exists (bs1 ++ bs2), post. split_and!; [by rewrite app_assoc|by exists a, bs1, bs2|]. by rewrite zlen_app, Z.add_assoc.
Qed.

Lemma exact_finish (trailing : E) : exact_reader (finish_slice trailing) (fun _ bs post => bs = [] /\ post = []).
Proof.
  unfold finish_slice. cbv [mbind SE_bind get_self lift]. split.
  - intros pre bs post [] [-> ->] _. cbn [c_bytes c_offset]. rewrite !app_nil_r. change (zlen (A := Z) []) with 0. by rewrite Z.add_0_r, bool_decide_true.
  - intros pre rest _ _. cbn [c_bytes c_offset]. case_bool_decide as Hd; cbn [negb fail_if]; [|done]. exists [], []. change (zlen (A := Z) []) with 0.
    rewrite zlen_app in Hd. destruct rest; [|unfold zlen in Hd; cbn in Hd; lia]. rewrite Z.add_0_r. done.
Qed.

Lemma exact_take (overflow truncated : E) n : 0 <= n ->
  exact_reader (take_slice overflow truncated n) (fun x bs _ => bs = x /\ zlen x = n /\ Forall is_byte x).
Proof.
  intros Hn. unfold take_slice. cbv [mbind SE_bind get_self lift set_self mret SE_ret]. split.
  - intros pre bs post x (-> & <- & _) Hl. cbn [c_bytes c_offset]. unfold checked_add. rewrite (proj2 (Z.leb_le _ _)) by (rewrite !zlen_app in Hl; pose proof (zlen_nonneg post); lia). cbn [ok_or].
    by rewrite byte_range_mid.
  - intros pre rest Hb Hl. cbn [c_bytes c_offset]. destruct (checked_add _ _ _) as [e|] eqn:He; [|done]. apply checked_add_Some in He as [-> _]. cbn [ok_or].
    destruct (byte_range _ _ _) as [x|] eqn:Hr; [|done]. cbn [ok_or]. destruct (byte_range_Some _ _ _ _ (zlen_nonneg pre) Hr) as (Lx & _ & p & post & Heq & Lp).
    apply app_inj_1 in Heq as [<- ->]; [|unfold zlen in Lp; lia]. exists x, post. rewrite !Forall_app in Hb. split_and!; [done|done|lia|apply Hb|]. f_equal. lia.
Qed.

(** An exact reader on a whole slice. *)
Lemma exact_whole {A} (m : SE Cursor E A) R bytes : exact_reader m R -> (forall a bs post, R a bs post -> post = []) ->
  Forall is_byte bytes -> zlen bytes <= u64_max ->
  (forall a, fst (m (mkCursor bytes 0)) = Ok a <-> R a bytes []) /\ fst (m (mkCursor bytes 0)) <> Panic.
Proof.
  intros [H1 H2] Hend Hb Hl. specialize (H2 [] bytes Hb Hl). change (zlen (A := Z) []) with 0 in H2. cbn [app] in H2. split.
  - intros a. split.
    + intros Ha. destruct (m _) as [[x|e|] c]; [|done..]. cbn in Ha. apply Ok_inj in Ha. subst x. destruct H2 as (bs & post & -> & HR & _).
      pose proof (Hend _ _ _ HR) as ->. by rewrite app_nil_r.
    + intros HR. pose proof (H1 [] bytes [] a HR) as Hm. change (zlen (A := Z) []) with 0 in Hm. cbn [app] in Hm. rewrite app_nil_r in Hm. by rewrite Hm.
  - destruct (m _) as [[x|e|] c]; done.
Qed.

End exact.
