(* ===== verification/PeerLease.v ===== *)
(** * PeerLease: the lease authority of [trnm-peer-lease]

    [protocol.rs] (scopes, tokens, requests, responses and their frames),
    [store.rs] (the append-only journal, its hash chain, the published head and
    the four operations) and the answer of the daemon
    ([unix/connection_service.rs]).

    The store owns two files.  Its state has their contents: the bytes of the
    journal, the bytes of the published head if there is one, and whether a
    temporary head was left behind.  What the file system does to one operation
    is the argument [Faults]: a failed call leaves a prefix of the record, no
    record or an unpublished head. *)

From stdpp Require Import base gmap list sorting strings.
From S2P Require Import Prelude Crypto ByteReader.

Abbreviation Bytes32 := (list Z).
Definition zero32 : Bytes32 := replicate 32 0.

(** ** Protocol values ([protocol.rs]) *)

Definition MAX_FRAME_BYTES_V1 : Z := 16 * 1024.
Definition PEER_LEASE_SCHEMA_V1 : Z := 1.
Definition FRAME_MAGIC_V1 : list Z := str "TPLS".

Inductive ProtocolErrorV1 := ZeroIdentity | SelfPeer | ZeroSession | ZeroGeneration | ZeroRecordHash.

Inductive PeerLeaseDirectionV1 := Outbound | Inbound.
#[export] Instance PeerLeaseDirectionV1_eq_dec : EqDecision PeerLeaseDirectionV1.
Proof. solve_decision. Defined.

Definition direction_u8 (d : PeerLeaseDirectionV1) : Z := match d with Outbound => 1 | Inbound => 2 end.
Definition direction_from_u8 (value : Z) : option PeerLeaseDirectionV1 :=
  match value with 1 => Some Outbound | 2 => Some Inbound | _ => None end.

Record PeerLeaseScopeV1 := mkScope {
  sc_local_id : Bytes32;
  sc_remote_id : Bytes32;
  sc_direction : PeerLeaseDirectionV1;
  sc_epoch : Z;
  sc_peer_scope_id : Bytes32;
}.
#[export] Instance PeerLeaseScopeV1_eq_dec : EqDecision PeerLeaseScopeV1.
Proof. solve_decision. Defined.
#[export] Program Instance PeerLeaseScopeV1_countable : Countable PeerLeaseScopeV1 :=
  inj_countable'
    (fun s => (sc_local_id s, sc_remote_id s, direction_u8 (sc_direction s), sc_epoch s, sc_peer_scope_id s))
    (fun p => let '(l, r, d, e, i) := p in mkScope l r (default Outbound (direction_from_u8 d)) e i) _.
Next Obligation. by intros [l r [] e i]. Qed.

(** [PeerLeaseScopeV1::new] *)
Definition scope_new (local_id remote_id : Bytes32) (direction : PeerLeaseDirectionV1) (epoch : Z)
    (peer_scope_id : Bytes32) : result ProtocolErrorV1 PeerLeaseScopeV1 :=
  _ ← fail_if ((local_id =?? zero32) || (remote_id =?? zero32) || (peer_scope_id =?? zero32)) ZeroIdentity;
  _ ← fail_if (local_id =?? remote_id) SelfPeer;
  Ok (mkScope local_id remote_id direction epoch peer_scope_id).

Record PeerLeaseTokenV1 := mkToken {
  tk_scope : PeerLeaseScopeV1;
  tk_session_id : Bytes32;
  tk_generation : Z;
  tk_expires_at_ms : Z;
  tk_record_hash : Bytes32;
}.

(** [PeerLeaseTokenV1::from_parts] *)
Definition token_from_parts (scope : PeerLeaseScopeV1) (session_id : Bytes32) (generation expires_at_ms : Z)
    (record_hash : Bytes32) : result ProtocolErrorV1 PeerLeaseTokenV1 :=
  _ ← fail_if (session_id =?? zero32) ZeroSession;
  _ ← fail_if (generation =? 0) ZeroGeneration;
  _ ← fail_if (record_hash =?? zero32) ZeroRecordHash;
  Ok (mkToken scope session_id generation expires_at_ms record_hash).

Module LeaseReject.
Inductive code :=
| InvalidRequest | AlreadyLeased | StaleGeneration | LeaseNotFound | LeaseExpired | Fenced
| ContextMismatch | AuthorityUnavailable | ClockRollback | AuthorityCorrupt | Unsupported | UnauthorizedPeer.
#[export] Instance code_eq_dec : EqDecision code.
Proof. solve_decision. Defined.

(** [code as u8] and [LeaseRejectCodeV1::from_u8] *)
Definition to_u8 (c : code) : Z :=
  match c with
  | InvalidRequest => 1 | AlreadyLeased => 2 | StaleGeneration => 3 | LeaseNotFound => 4 | LeaseExpired => 5
  | Fenced => 6 | ContextMismatch => 7 | AuthorityUnavailable => 8 | ClockRollback => 9 | AuthorityCorrupt => 10
  | Unsupported => 11 | UnauthorizedPeer => 12
  end.
Definition from_u8 (value : Z) : option code :=
  match value with
  | 1 => Some InvalidRequest | 2 => Some AlreadyLeased | 3 => Some StaleGeneration | 4 => Some LeaseNotFound
  | 5 => Some LeaseExpired | 6 => Some Fenced | 7 => Some ContextMismatch | 8 => Some AuthorityUnavailable
  | 9 => Some ClockRollback | 10 => Some AuthorityCorrupt | 11 => Some Unsupported | 12 => Some UnauthorizedPeer
  | _ => None
  end.
End LeaseReject.

(** The message of an error is its text; an I/O error is opaque. *)
Inductive PeerLeaseErrorV1 :=
| InvalidRequest (message : string)
| Io
| Protocol (message : string)
| Rejected (code : LeaseReject.code).

Abbreviation LResult := (result PeerLeaseErrorV1).
Definition corrupt : PeerLeaseErrorV1 := Rejected LeaseReject.AuthorityCorrupt.

Inductive LeaseOperationV1 := Acquire | Renew | Revalidate | Release.
#[export] Instance LeaseOperationV1_eq_dec : EqDecision LeaseOperationV1.
Proof. solve_decision. Defined.

Definition operation_tag (o : LeaseOperationV1) : Z :=
  match o with Acquire => 1 | Renew => 2 | Revalidate => 3 | Release => 4 end.
Definition operation_from_tag (tag : Z) : option LeaseOperationV1 :=
  match tag with 1 => Some Acquire | 2 => Some Renew | 3 => Some Revalidate | 4 => Some Release | _ => None end.

Record LeaseRequestV1 := mkRequest {
  rq_operation : LeaseOperationV1;
  rq_scope : PeerLeaseScopeV1;
  rq_session_id : Bytes32;
  rq_generation : Z;
  rq_expires_at_ms : Z;
  rq_ttl_ms : Z;
  rq_record_hash : Bytes32;
}.

Inductive LeaseResponseV1 :=
| Token (token : PeerLeaseTokenV1)
| RejectedWith (code : LeaseReject.code).

(** ** Frames *)

Definition put_u64 (value : Z) : list Z := le_bytes 8 value.

(** [body.len() as u32] keeps the low four bytes. *)
Definition frame (body : list Z) : list Z := FRAME_MAGIC_V1 ++ le_bytes 4 (zlen body) ++ body.

Definition encode_scope (scope : PeerLeaseScopeV1) : list Z :=
  sc_local_id scope ++ sc_remote_id scope ++ [direction_u8 (sc_direction scope)] ++ put_u64 (sc_epoch scope)
  ++ sc_peer_scope_id scope.

Definition encode_token (token : PeerLeaseTokenV1) : list Z :=
  encode_scope (tk_scope token) ++ tk_session_id token ++ put_u64 (tk_generation token)
  ++ put_u64 (tk_expires_at_ms token) ++ tk_record_hash token.

Definition encode_request (request : LeaseRequestV1) : list Z :=
  frame ([PEER_LEASE_SCHEMA_V1] ++ [operation_tag (rq_operation request)] ++ encode_scope (rq_scope request)
    ++ rq_session_id request ++ put_u64 (rq_generation request) ++ put_u64 (rq_expires_at_ms request)
    ++ put_u64 (rq_ttl_ms request) ++ rq_record_hash request).

Definition encode_response (response : LeaseResponseV1) : list Z :=
  frame ([PEER_LEASE_SCHEMA_V1] ++
    match response with
    | Token token => [0] ++ encode_token token
    | RejectedWith code => [1] ++ [LeaseReject.to_u8 code]
    end).

(** [frame_bytes[..4]] and the later slices are in range once the length is checked. *)
Definition unframe (frame_bytes : list Z) : LResult (list Z) :=
  _ ← fail_if ((zlen frame_bytes <? 8) || (take 4 frame_bytes <>? FRAME_MAGIC_V1)) (Protocol "invalid peer-lease frame");
  let body_len := of_le_bytes (take 4 (drop 4 frame_bytes)) in
  _ ← fail_if ((MAX_FRAME_BYTES_V1 <? body_len) || (zlen frame_bytes <>? (body_len + 8)))
        (Protocol "peer-lease frame length mismatch");
  Ok (drop 8 frame_bytes).

(** [Cursor::take] and its instances *)
Abbreviation CursorM := (SE Cursor PeerLeaseErrorV1).
Definition cursor_take (count : Z) : CursorM (list Z) :=
  take_slice (Protocol "peer-lease cursor overflow") (Protocol "truncated peer-lease frame") count.
Definition take_u8 : CursorM Z := bytes ← cursor_take 1; lift (expect (bytes !! 0%nat)).
Definition take_u64 : CursorM Z := bytes ← cursor_take 8; mret (of_le_bytes bytes).
Definition take_array : CursorM Bytes32 := cursor_take 32.
Definition cursor_finish : CursorM () := finish_slice (Protocol "trailing peer-lease frame bytes").

Definition decode_scope : CursorM PeerLeaseScopeV1 :=
  local_id ← take_array;
  remote_id ← take_array;
  direction ← take_u8;
  direction ← lift (ok_or (direction_from_u8 direction) (InvalidRequest "invalid lease direction"));
  epoch ← take_u64;
  peer_scope_id ← take_array;
  lift (map_err (fun _ => InvalidRequest "invalid lease scope") (scope_new local_id remote_id direction epoch peer_scope_id)).

Definition decode_token : CursorM PeerLeaseTokenV1 :=
  scope ← decode_scope;
  session_id ← take_array;
  generation ← take_u64;
  expires_at_ms ← take_u64;
  record_hash ← take_array;
  mret (mkToken scope session_id generation expires_at_ms record_hash).

Definition read_request : CursorM LeaseRequestV1 :=
  version ← take_u8;
  _ ← lift (fail_if (version <>? PEER_LEASE_SCHEMA_V1) (Protocol "unsupported peer-lease schema"));
  tag ← take_u8;
  operation ← lift (ok_or (operation_from_tag tag) (Protocol "unknown lease operation"));
  scope ← decode_scope;
  session_id ← take_array;
  generation ← take_u64;
  expires_at_ms ← take_u64;
  ttl_ms ← take_u64;
  record_hash ← take_array;
  _ ← cursor_finish;
  mret (mkRequest operation scope session_id generation expires_at_ms ttl_ms record_hash).

Definition decode_request (frame_bytes : list Z) : LResult LeaseRequestV1 :=
  body ← unframe frame_bytes;
  fst (read_request (mkCursor body 0)).

Definition read_response : CursorM LeaseResponseV1 :=
  version ← take_u8;
  _ ← lift (fail_if (version <>? PEER_LEASE_SCHEMA_V1) (Protocol "unsupported peer-lease response schema"));
  kind ← take_u8;
  match kind with
  | 0 => token ← decode_token; _ ← cursor_finish; mret (Token token)
  | 1 =>
      value ← take_u8;
      code ← lift (ok_or (LeaseReject.from_u8 value) (Protocol "unknown lease rejection code"));
      _ ← cursor_finish;
      mret (RejectedWith code)
  | _ => lift (Err (Protocol "unknown peer-lease response kind"))
  end.

Definition decode_response (frame_bytes : list Z) : LResult LeaseResponseV1 :=
  body ← unframe frame_bytes;
  fst (read_response (mkCursor body 0)).

(** ** The journal ([store.rs]) *)

Definition RECORD_MAGIC_V1 : list Z := str "TPLR".
Definition RECORD_VERSION_V1 : Z := 1.
Definition RECORD_PAYLOAD_BYTES_V1 : Z := 1 + 32 + 32 + 1 + 8 + 32 + 32 + 8 + 8 + 8.
Definition RECORD_HEADER_BYTES_V1 : Z := 4 + 1 + 1 + 4 + 32.
Definition RECORD_DIGEST_BYTES_V1 : Z := 32.
Definition MIN_TTL_MS_V1 : Z := 1000.
Definition MAX_TTL_MS_V1 : Z := 120000.
Definition HEAD_MAGIC_V1 : list Z := str "TPLH".
Definition HEAD_VERSION_V1 : Z := 1.
Definition HEAD_BODY_BYTES_V1 : Z := 4 + 1 + 3 + 8 + 32.
Definition HEAD_BYTES_V1 : Z := HEAD_BODY_BYTES_V1 + 32.
Definition MAX_JOURNAL_BYTES_V1 : Z := 256 * 1024 * 1024.

Record LeaseStateV1 := mkLeaseState {
  ls_session_id : Bytes32;
  ls_generation : Z;
  ls_expires_at_ms : Z;
  ls_record_hash : Bytes32;
}.

(** The files of the store: the journal, the published head, and whether a temporary
    head of a failed publication is present. *)
Record Disk := mkDisk { d_journal : list Z; d_anchor : option (list Z); d_temp : bool }.
Definition empty_disk : Disk := mkDisk [] None false.

Record PeerLeaseStoreV1 := mkStore {
  disk : Disk;
  entries : gmap PeerLeaseScopeV1 LeaseStateV1;
  generations : gmap PeerLeaseScopeV1 Z;
  seen_sessions : gset (PeerLeaseScopeV1 * Bytes32);
  last_hash : Bytes32;
  record_count : Z;
  last_now_ms : Z;
  last_observed_now_ms : Z;
  poisoned : bool;
}.

Definition set_disk (v : Disk) (s : PeerLeaseStoreV1) : PeerLeaseStoreV1 :=
  mkStore v (entries s) (generations s) (seen_sessions s) (last_hash s) (record_count s) (last_now_ms s) (last_observed_now_ms s) (poisoned s).
Definition set_entries (v : gmap PeerLeaseScopeV1 LeaseStateV1) (s : PeerLeaseStoreV1) : PeerLeaseStoreV1 :=
  mkStore (disk s) v (generations s) (seen_sessions s) (last_hash s) (record_count s) (last_now_ms s) (last_observed_now_ms s) (poisoned s).
Definition set_generations (v : gmap PeerLeaseScopeV1 Z) (s : PeerLeaseStoreV1) : PeerLeaseStoreV1 :=
  mkStore (disk s) (entries s) v (seen_sessions s) (last_hash s) (record_count s) (last_now_ms s) (last_observed_now_ms s) (poisoned s).
Definition set_seen_sessions (v : gset (PeerLeaseScopeV1 * Bytes32)) (s : PeerLeaseStoreV1) : PeerLeaseStoreV1 :=
  mkStore (disk s) (entries s) (generations s) v (last_hash s) (record_count s) (last_now_ms s) (last_observed_now_ms s) (poisoned s).
(** [last_hash], [record_count] and [last_now_ms] move together. *)
Definition set_head (hash : Bytes32) (count now : Z) (s : PeerLeaseStoreV1) : PeerLeaseStoreV1 :=
  mkStore (disk s) (entries s) (generations s) (seen_sessions s) hash count now (last_observed_now_ms s) (poisoned s).
Definition set_last_observed_now_ms (v : Z) (s : PeerLeaseStoreV1) : PeerLeaseStoreV1 :=
  mkStore (disk s) (entries s) (generations s) (seen_sessions s) (last_hash s) (record_count s) (last_now_ms s) v (poisoned s).
Definition set_poisoned (v : bool) (s : PeerLeaseStoreV1) : PeerLeaseStoreV1 :=
  mkStore (disk s) (entries s) (generations s) (seen_sessions s) (last_hash s) (record_count s) (last_now_ms s) (last_observed_now_ms s) v.

Abbreviation LeaseM := (SE PeerLeaseStoreV1 PeerLeaseErrorV1).

Record DecodedRecordV1 := mkDecoded {
  dr_scope : PeerLeaseScopeV1;
  dr_session_id : Bytes32;
  dr_generation : Z;
  dr_expires_at_ms : Z;
  dr_observed_now_ms : Z;
}.

Record EncodedRecordV1 := mkEncoded { er_bytes : list Z; er_digest : Bytes32 }.

Definition lease_token (scope : PeerLeaseScopeV1) (state : LeaseStateV1) : PeerLeaseTokenV1 :=
  mkToken scope (ls_session_id state) (ls_generation state) (ls_expires_at_ms state) (ls_record_hash state).

Definition active_lease (s : PeerLeaseStoreV1) (scope : PeerLeaseScopeV1) : option PeerLeaseTokenV1 :=
  lease_token scope <$> entries s !! scope.

Definition latest_generation (s : PeerLeaseStoreV1) (scope : PeerLeaseScopeV1) : Z := default 0 (generations s !! scope).

Definition validate_request (request : LeaseRequestV1) : LResult () :=
  let scope := rq_scope request in
  _ ← fail_if ((sc_local_id scope =?? zero32) || (sc_remote_id scope =?? zero32) || (sc_peer_scope_id scope =?? zero32)
        || (sc_local_id scope =?? sc_remote_id scope) || (rq_session_id request =?? zero32))
        (InvalidRequest "invalid lease identity");
  match rq_operation request with
  | Acquire | Renew =>
      _ ← fail_if (rq_generation request =? 0) (InvalidRequest "lease generation must be positive");
      fail_if (negb ((MIN_TTL_MS_V1 <=? rq_ttl_ms request) && (rq_ttl_ms request <=? MAX_TTL_MS_V1)))
        (InvalidRequest "lease TTL is outside the bounded profile")
  | Revalidate | Release => Ok ()
  end.

Definition ensure_token_matches (request : LeaseRequestV1) (state : LeaseStateV1) : LResult () :=
  _ ← fail_if ((rq_session_id request <>? ls_session_id state) || (rq_generation request <>? ls_generation state))
        (Rejected LeaseReject.Fenced);
  fail_if ((rq_expires_at_ms request <>? ls_expires_at_ms state) || (rq_record_hash request <>? ls_record_hash state))
    (Rejected LeaseReject.Fenced).

(** The match of [apply]: [inl] is the token of an early return, [inr] the state that is
    to be recorded. *)
Definition plan_operation (s : PeerLeaseStoreV1) (request : LeaseRequestV1) (now_ms : Z)
    : LResult (PeerLeaseTokenV1 + LeaseStateV1) :=
  let scope := rq_scope request in
  let current := entries s !! scope in
  let held := state ← ok_or current (Rejected LeaseReject.LeaseNotFound);
    _ ← ensure_token_matches request state;
    _ ← fail_if (ls_expires_at_ms state <=? now_ms) (Rejected LeaseReject.LeaseExpired);
    Ok state in
  let expires_at := ok_or (checked_add u64_max now_ms (rq_ttl_ms request)) (InvalidRequest "lease TTL overflow") in
  match rq_operation request with
  | Acquire =>
      let fresh :=
        _ ← fail_if (bool_decide ((scope, rq_session_id request) ∈ seen_sessions s)) (Rejected LeaseReject.StaleGeneration);
        _ ← fail_if (match current with Some state => now_ms <? ls_expires_at_ms state | None => false end)
              (Rejected LeaseReject.AlreadyLeased);
        expected_generation ← ok_or (checked_add u64_max (latest_generation s scope) 1) (Rejected LeaseReject.StaleGeneration);
        _ ← fail_if (rq_generation request <>? expected_generation) (Rejected LeaseReject.StaleGeneration);
        expires_at_ms ← expires_at;
        Ok (inr (mkLeaseState (rq_session_id request) (rq_generation request) expires_at_ms zero32)) in
      match current with
      | Some state =>
          if (ls_session_id state =?? rq_session_id request) && (ls_generation state =?? rq_generation request) then
            _ ← fail_if (ls_expires_at_ms state <=? now_ms) (Rejected LeaseReject.LeaseExpired);
            Ok (inl (lease_token scope state))
          else fresh
      | None => fresh
      end
  | Renew =>
      state ← held;
      expires_at_ms ← expires_at;
      Ok (inr (mkLeaseState (ls_session_id state) (ls_generation state) expires_at_ms zero32))
  | Revalidate =>
      state ← held;
      Ok (inl (lease_token scope state))
  | Release =>
      state ← held;
      Ok (inr (mkLeaseState zero32 (ls_generation state) 0 zero32))
  end.

Section journal.
Context `{CryptoCrates}.

Definition digest_record (version operation payload_len : Z) (prev_hash payload : list Z) : Bytes32 :=
  sha256 (RECORD_MAGIC_V1 ++ [version; operation] ++ le_bytes 4 payload_len ++ prev_hash ++ payload).

Definition encode_record (operation : LeaseOperationV1) (scope : PeerLeaseScopeV1) (session_id : Bytes32)
    (generation expires_at_ms observed_now_ms : Z) (prev_hash : Bytes32) : EncodedRecordV1 :=
  let payload := [operation_tag operation] ++ sc_local_id scope ++ sc_remote_id scope ++ [direction_u8 (sc_direction scope)]
    ++ le_bytes 8 (sc_epoch scope) ++ sc_peer_scope_id scope ++ session_id ++ le_bytes 8 generation
    ++ le_bytes 8 expires_at_ms ++ le_bytes 8 observed_now_ms in
  let digest := digest_record RECORD_VERSION_V1 (operation_tag operation) (zlen payload) prev_hash payload in
  mkEncoded (RECORD_MAGIC_V1 ++ [RECORD_VERSION_V1] ++ [operation_tag operation] ++ le_bytes 4 (zlen payload)
    ++ prev_hash ++ payload ++ digest) digest.

(** [payload[a..b].try_into().map_err(|_| ())?]; slicing out of range would panic. *)
Definition payload_slice (payload : list Z) (a b : Z) : result () (list Z) := expect (byte_range payload a b).

Definition decode_record_payload (payload : list Z) : result () DecodedRecordV1 :=
  _ ← fail_if (zlen payload <>? RECORD_PAYLOAD_BYTES_V1) ();
  operation_tag ← expect (payload !! 0%nat);
  _ ← ok_or (operation_from_tag operation_tag) ();
  local_id ← payload_slice payload 1 33;
  remote_id ← payload_slice payload 33 65;
  direction_byte ← expect (payload !! 65%nat);
  direction ← ok_or (direction_from_u8 direction_byte) ();
  epoch ← payload_slice payload 66 74;
  set_id ← payload_slice payload 74 106;
  session_id ← payload_slice payload 106 138;
  generation ← payload_slice payload 138 146;
  expires_at_ms ← payload_slice payload 146 154;
  observed_now_ms ← payload_slice payload 154 162;
  scope ← map_err (fun _ => ()) (scope_new local_id remote_id direction (of_le_bytes epoch) set_id);
  Ok (mkDecoded scope session_id (of_le_bytes generation) (of_le_bytes expires_at_ms) (of_le_bytes observed_now_ms)).

(** *** The published head *)

Definition head_checksum (body : list Z) : Bytes32 := sha256 (HEAD_MAGIC_V1 ++ le_bytes 8 (zlen body) ++ body).

Definition encode_head (record_count : Z) (head_hash : Bytes32) : list Z :=
  let body := HEAD_MAGIC_V1 ++ [HEAD_VERSION_V1] ++ [0; 0; 0] ++ le_bytes 8 record_count ++ head_hash in
  body ++ head_checksum body.

Definition head_slice (bytes : list Z) (a b : Z) : LResult (list Z) := expect (byte_range bytes a b).

Definition decode_head (bytes : list Z) : LResult (Z * Bytes32) :=
  malformed ← or_else (zlen bytes <>? HEAD_BYTES_V1)
    (magic ← head_slice bytes 0 4;
     or_else (magic <>? HEAD_MAGIC_V1)
       (version ← expect (bytes !! 4%nat);
        or_else (version <>? HEAD_VERSION_V1)
          (reserved ← head_slice bytes 5 8; Ok (reserved <>? [0; 0; 0]))));
  _ ← fail_if malformed corrupt;
  stored ← head_slice bytes HEAD_BODY_BYTES_V1 (zlen bytes);
  body ← head_slice bytes 0 HEAD_BODY_BYTES_V1;
  _ ← fail_if (stored <>? head_checksum body) corrupt;
  count_bytes ← head_slice bytes 8 16;
  head ← head_slice bytes 16 48;
  let count := of_le_bytes count_bytes in
  _ ← fail_if (negb (Bool.eqb (count =? 0) (head =?? zero32))) corrupt;
  Ok (count, head).

(** *** What the file system does to an operation *)

(** A failed publication of the head: before the temporary file was created, before the
    rename, or after it. *)
Inductive AnchorFault := NotCreated | NotRenamed | Renamed.

Record Faults := mkFaults {
  io_metadata : bool;            (** [metadata] fails *)
  io_write : option nat;         (** [write_all] fails after that many bytes *)
  io_sync : option nat;          (** [sync_all] fails and that many bytes survive *)
  io_sync_dir : bool;            (** [sync_parent_dir] fails *)
  io_anchor : option AnchorFault;
}.
Definition no_faults : Faults := mkFaults false None None false None.

Definition persist_anchor (fault : option AnchorFault) : LeaseM () :=
  s ← get_self;
  let d := disk s in
  let published := mkDisk (d_journal d) (Some (encode_head (record_count s) (last_hash s))) (d_temp d) in
  match fault with
  | None => modify_self (set_disk published)
  | Some NotCreated => lift (Err Io)
  | Some NotRenamed => _ ← modify_self (set_disk (mkDisk (d_journal d) (d_anchor d) true)); lift (Err Io)
  | Some Renamed => _ ← modify_self (set_disk published); lift (Err Io)
  end.

(** Append what reaches the disk; a failure poisons the store. *)
Definition append_bytes (bytes : list Z) (s : PeerLeaseStoreV1) : PeerLeaseStoreV1 :=
  set_disk (mkDisk (d_journal (disk s) ++ bytes) (d_anchor (disk s)) (d_temp (disk s))) s.

Definition poison {A} (e : PeerLeaseErrorV1) : LeaseM A :=
  _ ← modify_self (set_poisoned true);
  lift (Err e).

(** [write_all], [sync_all] and [sync_parent_dir] of [apply] *)
Definition write_record (faults : Faults) (bytes : list Z) : LeaseM () :=
  match io_write faults with
  | Some k => _ ← modify_self (append_bytes (take k bytes)); poison Io
  | None =>
      match io_sync faults with
      | Some k => _ ← modify_self (append_bytes (take k bytes)); poison Io
      | None =>
          _ ← modify_self (append_bytes bytes);
          if io_sync_dir faults then poison Io else mret ()
      end
  end.

(** The match that updates the tables after the record is durable. *)
Definition record_applied (operation : LeaseOperationV1) (scope : PeerLeaseScopeV1) (session_id : Bytes32)
    (new_state : LeaseStateV1) (record_hash : Bytes32) : LeaseM () :=
  s ← get_self;
  let recorded := mkLeaseState (ls_session_id new_state) (ls_generation new_state) (ls_expires_at_ms new_state) record_hash in
  match operation with
  | Acquire =>
      _ ← modify_self (set_generations (<[scope := ls_generation new_state]> (generations s)));
      _ ← modify_self (set_seen_sessions ({[(scope, session_id)]} ∪ seen_sessions s));
      modify_self (set_entries (<[scope := recorded]> (entries s)))
  | Renew => modify_self (set_entries (<[scope := recorded]> (entries s)))
  | Release =>
      _ ← modify_self (set_entries (delete scope (entries s)));
      modify_self (set_generations (<[scope := ls_generation new_state]> (generations s)))
  | Revalidate => lift Panic
  end.

Definition apply (faults : Faults) (request : LeaseRequestV1) (now_ms : Z) : LeaseM PeerLeaseTokenV1 :=
  s ← get_self;
  if poisoned s then lift (Err corrupt)
  else if now_ms <? last_observed_now_ms s then poison (Rejected LeaseReject.ClockRollback)
  else
    _ ← modify_self (set_last_observed_now_ms now_ms);
    _ ← lift (validate_request request);
    let scope := rq_scope request in
    plan ← lift (plan_operation s request now_ms);
    match plan with
    | inl token => mret token
    | inr new_state =>
        next_record_count ← lift (ok_or (checked_add u64_max (record_count s) 1) corrupt);
        let record := encode_record (rq_operation request) scope (rq_session_id request) (ls_generation new_state)
          (ls_expires_at_ms new_state) now_ms (last_hash s) in
        let record_hash := er_digest record in
        _ ← lift (fail_if (io_metadata faults) Io);
        projected_bytes ← lift (ok_or (checked_add u64_max (zlen (d_journal (disk s))) (zlen (er_bytes record))) corrupt);
        _ ← lift (fail_if (MAX_JOURNAL_BYTES_V1 <? projected_bytes) corrupt);
        _ ← write_record faults (er_bytes record);
        _ ← modify_self (set_head record_hash next_record_count now_ms);
        _ ← record_applied (rq_operation request) scope (rq_session_id request) new_state record_hash;
        s ← get_self;
        match persist_anchor (io_anchor faults) s with
        | (Ok _, s) => _ ← set_self s;
            mret (mkToken scope (rq_session_id request) (ls_generation new_state)
              (if rq_operation request =?? Release then 0 else ls_expires_at_ms new_state) record_hash)
        | (Err e, s) => _ ← set_self s; poison e
        | (Panic, s) => _ ← set_self s; lift Panic
        end
    end.

(** *** Replay *)

Definition apply_replayed (operation : LeaseOperationV1) (record : DecodedRecordV1) (record_hash : Bytes32)
    (s : PeerLeaseStoreV1) : LResult PeerLeaseStoreV1 :=
  let scope := dr_scope record in
  let current := entries s !! scope in
  let recorded := mkLeaseState (dr_session_id record) (dr_generation record) (dr_expires_at_ms record) record_hash in
  match operation with
  | Acquire =>
      expected_generation ← ok_or (checked_add u64_max (latest_generation s scope) 1) corrupt;
      _ ← fail_if ((dr_generation record <>? expected_generation)
            || bool_decide ((scope, dr_session_id record) ∈ seen_sessions s)
            || match current with Some state => dr_observed_now_ms record <? ls_expires_at_ms state | None => false end
            || (dr_expires_at_ms record <=? dr_observed_now_ms record)) corrupt;
      let s := set_generations (<[scope := dr_generation record]> (generations s)) s in
      let s := set_seen_sessions ({[(scope, dr_session_id record)]} ∪ seen_sessions s) s in
      Ok (set_entries (<[scope := recorded]> (entries s)) s)
  | Renew =>
      state ← ok_or current corrupt;
      _ ← fail_if ((ls_session_id state <>? dr_session_id record) || (ls_generation state <>? dr_generation record)
            || (ls_expires_at_ms state <=? dr_observed_now_ms record)
            || (dr_expires_at_ms record <=? dr_observed_now_ms record)) corrupt;
      Ok (set_entries (<[scope := recorded]> (entries s)) s)
  | Release =>
      state ← ok_or current corrupt;
      _ ← fail_if ((ls_session_id state <>? dr_session_id record) || (ls_generation state <>? dr_generation record)
            || (ls_expires_at_ms state =? 0) || (ls_expires_at_ms state <=? dr_observed_now_ms record)
            || (dr_expires_at_ms record <>? 0)) corrupt;
      Ok (set_entries (delete scope (entries s)) s)
  | Revalidate => Err corrupt
  end.

Definition journal_slice (bytes : list Z) (a b : Z) : LResult (list Z) := expect (byte_range bytes a b).

(** One turn of the loop of [replay]: the store and the next offset. *)
Definition replay_record (bytes : list Z) (s : PeerLeaseStoreV1) (offset : Z) : LResult (PeerLeaseStoreV1 * Z) :=
  let remaining := zlen bytes - offset in
  _ ← fail_if (remaining <? RECORD_HEADER_BYTES_V1 + RECORD_DIGEST_BYTES_V1) corrupt;
  magic ← ok_or (byte_range bytes offset (offset + 4)) (Protocol "journal header truncated");
  _ ← fail_if (magic <>? RECORD_MAGIC_V1) corrupt;
  version ← expect (bytes !! Z.to_nat (offset + 4));
  op_tag ← expect (bytes !! Z.to_nat (offset + 5));
  len_bytes ← journal_slice bytes (offset + 6) (offset + 10);
  let payload_len := of_le_bytes len_bytes in
  _ ← fail_if ((version <>? RECORD_VERSION_V1) || (payload_len <>? RECORD_PAYLOAD_BYTES_V1)) corrupt;
  total ← ok_or (v ← checked_add u64_max RECORD_HEADER_BYTES_V1 payload_len; checked_add u64_max v RECORD_DIGEST_BYTES_V1) corrupt;
  _ ← fail_if (remaining <? total) corrupt;
  prev_hash ← journal_slice bytes (offset + 10) (offset + 42);
  _ ← fail_if (prev_hash <>? last_hash s) corrupt;
  let payload_start := offset + RECORD_HEADER_BYTES_V1 in
  let payload_end := payload_start + payload_len in
  payload ← journal_slice bytes payload_start payload_end;
  stored_digest ← journal_slice bytes payload_end (payload_end + 32);
  _ ← fail_if (stored_digest <>? digest_record version op_tag payload_len prev_hash payload) corrupt;
  operation ← ok_or (operation_from_tag op_tag) corrupt;
  decoded ← map_err (fun _ => corrupt) (decode_record_payload payload);
  _ ← fail_if (dr_observed_now_ms decoded <? last_now_ms s) corrupt;
  s ← apply_replayed operation decoded stored_digest s;
  count ← ok_or (checked_add u64_max (record_count s) 1) corrupt;
  Ok (set_head stored_digest count (dr_observed_now_ms decoded) s, offset + total).

(** Every turn moves the offset by a whole record, so the length of the journal is enough
    fuel. *)
Fixpoint replay_loop (fuel : nat) (bytes : list Z) (s : PeerLeaseStoreV1) (offset : Z) : LResult PeerLeaseStoreV1 :=
  if offset <? zlen bytes then
    match fuel with
    | O => Panic
    | S fuel =>
        '(s, offset) ← replay_record bytes s offset;
        replay_loop fuel bytes s offset
    end
  else Ok s.

Definition replay (bytes : list Z) (s : PeerLeaseStoreV1) : LResult PeerLeaseStoreV1 :=
  replay_loop (length bytes) bytes s 0.

(** *** Opening *)

(** [read_private_anchor] on a head file of the wrong size is corruption. *)
Definition read_private_anchor (d : Disk) : LResult (option (list Z)) :=
  match d_anchor d with
  | None => Ok None
  | Some bytes => _ ← fail_if (zlen bytes <>? HEAD_BYTES_V1) corrupt; Ok (Some bytes)
  end.

Definition reconcile_anchor (fault : option AnchorFault) : LeaseM () :=
  s ← get_self;
  anchor ← lift (read_private_anchor (disk s));
  match anchor with
  | None =>
      _ ← lift (fail_if (record_count s <>? 0) corrupt);
      persist_anchor fault
  | Some bytes =>
      '(anchored_count, anchored_hash) ← lift (decode_head bytes);
      _ ← lift (fail_if (record_count s <? anchored_count) corrupt);
      _ ← lift (fail_if ((anchored_count =? record_count s) && (anchored_hash <>? last_hash s)) corrupt);
      if anchored_count <? record_count s then persist_anchor fault else mret ()
  end.

Definition fresh_store (d : Disk) : PeerLeaseStoreV1 := mkStore d ∅ ∅ ∅ zero32 0 0 0 false.

(** The result of [open] and the files after it; [fault] is what happens to the head it
    may publish. *)
Definition open (fault : option AnchorFault) (d : Disk) : LResult PeerLeaseStoreV1 * Disk :=
  let verified :=
    _ ← fail_if (d_temp d) corrupt;
    _ ← fail_if (MAX_JOURNAL_BYTES_V1 <? zlen (d_journal d)) corrupt;
    s ← replay (d_journal d) (fresh_store d);
    Ok (set_last_observed_now_ms (last_now_ms s) s) in
  match verified with
  | Ok s =>
      match reconcile_anchor fault s with
      | (Ok _, s) => (Ok s, disk s)
      | (Err e, s) => (Err e, disk s)
      | (Panic, s) => (Panic, disk s)
      end
  | Err e => (Err e, d)
  | Panic => (Panic, d)
  end.

(** ** The daemon ([connection_service.rs]) *)

Definition response_for_result (r : LResult PeerLeaseTokenV1) : LResult LeaseResponseV1 :=
  match r with
  | Ok token => Ok (Token token)
  | Err (Rejected LeaseReject.ClockRollback) => Err (Rejected LeaseReject.ClockRollback)
  | Err (Rejected LeaseReject.AuthorityCorrupt) => Err (Rejected LeaseReject.AuthorityCorrupt)
  | Err (Rejected code) => Ok (RejectedWith code)
  | Err (InvalidRequest _) => Ok (RejectedWith LeaseReject.InvalidRequest)
  | Err e => Err e
  | Panic => Panic
  end.

End journal.
