(* ===== verification/PeerLeaseJournal.v ===== *)
(** * PeerLeaseJournal: the journal as a chain of lease events

    A record of the journal is an event; a journal is the concatenation of the
    records of its events, each bound to the digest of the one before.  Replay
    accepts exactly such byte strings, and a torn last record is refused. *)

From stdpp Require Import base gmap list sorting strings.
From S2P Require Import Prelude Crypto ByteReader PeerLease.

(** ** Typed values *)

Definition bytes32 (h : list Z) : Prop := zlen h = 32 /\ Forall is_byte h.

(** [PeerLeaseScopeV1] can only be built by [new]. *)
Record valid_scope (sc : PeerLeaseScopeV1) : Prop := {
  vs_local : bytes32 (sc_local_id sc) /\ sc_local_id sc <> zero32;
  vs_remote : bytes32 (sc_remote_id sc) /\ sc_remote_id sc <> zero32;
  vs_scope : bytes32 (sc_peer_scope_id sc) /\ sc_peer_scope_id sc <> zero32;
  vs_distinct : sc_local_id sc <> sc_remote_id sc;
  vs_epoch : in_u64 (sc_epoch sc);
}.

Record LeaseEvent := mkEvent {
  ev_operation : LeaseOperationV1;
  ev_tag : Z;                      (** the operation byte inside the payload *)
  ev_record : DecodedRecordV1;
}.

Record typed_event (e : LeaseEvent) : Prop := {
  te_tag : operation_from_tag (ev_tag e) <> None;
  te_scope : valid_scope (dr_scope (ev_record e));
  te_session : bytes32 (dr_session_id (ev_record e));
  te_generation : in_u64 (dr_generation (ev_record e));
  te_expires : in_u64 (dr_expires_at_ms (ev_record e));
  te_now : in_u64 (dr_observed_now_ms (ev_record e));
}.

(** The length of a digest: what is relied on of SHA-256. *)
Class DigestWidth `{CryptoCrates} : Prop := digest_width m : bytes32 (sha256 m).

Lemma zero32_width : bytes32 zero32.
Proof. split; [done|]. unfold zero32. apply Forall_replicate. done. Qed.

Lemma scope_new_Ok l r d e i sc : scope_new l r d e i = Ok sc <->
  sc = mkScope l r d e i /\ l <> zero32 /\ r <> zero32 /\ i <> zero32 /\ l <> r.
Proof.
  unfold scope_new. split.
  - intros Hn. apply bind_Ok in Hn as (? & H1 & Hn). apply fail_if_Ok in H1. apply bind_Ok in Hn as (? & H2 & Hn).
    apply fail_if_Ok in H2. bprop. apply Ok_inj in Hn. done.
  - intros (-> & H1 & H2 & H3 & H4). by rewrite !bool_decide_false.
Qed.

Lemma operation_tags o : operation_from_tag (operation_tag o) = Some o.
Proof. by destruct o. Qed.
Lemma operation_from_tag_Some t o : operation_from_tag t = Some o -> t = operation_tag o.
Proof. unfold operation_from_tag. repeat case_match; by intros [= <-]. Qed.
Lemma direction_tags d : direction_from_u8 (direction_u8 d) = Some d.
Proof. by destruct d. Qed.
Lemma direction_from_u8_Some t d : direction_from_u8 t = Some d -> t = direction_u8 d.
Proof. unfold direction_from_u8. repeat case_match; by intros [= <-]. Qed.

Lemma of_le_u64 z : in_u64 z -> of_le_bytes (le_bytes 8 z) = z.
Proof. intros Hz. apply of_le_bytes_le_bytes. unfold in_u64, u64_max in Hz. simpl. lia. Qed.

Lemma le_u64_of l : zlen l = 8 -> Forall is_byte l -> l = le_bytes 8 (of_le_bytes l) /\ in_u64 (of_le_bytes l).
Proof.
  intros Hl Hb. pose proof (le_bytes_of_le_bytes l Hb) as He. pose proof (of_le_bytes_bound l Hb) as Hw.
  assert (length l = 8%nat) as Hn by (unfold zlen in Hl; lia). rewrite Hn in He, Hw. split; [done|]. unfold in_u64, u64_max. simpl in Hw. lia.
Qed.

(** *** Fields at fixed offsets *)

(** A list that is split into chunks: chunk [i] lies between the lengths of the chunks
    before it and up to it. *)
Lemma chunk_range (cs : list (list Z)) i x a b : cs !! i = Some x ->
  zlen (mjoin (take i cs)) = a -> a + zlen x = b -> byte_range (mjoin cs) a b = Some x.
Proof.
  intros Hi <- <-. rewrite <- (take_drop_middle cs i x Hi) at 1. rewrite join_app. cbn [mjoin list_join]. by apply byte_range_mid.
Qed.

Lemma chunk_byte (cs : list (list Z)) i x n : cs !! i = Some [x] -> zlen (mjoin (take i cs)) = Z.of_nat n -> mjoin cs !! n = Some x.
Proof.
  intros Hi Hn. rewrite <- (take_drop_middle cs i [x] Hi). rewrite join_app. cbn [mjoin list_join].
  assert (n = length (mjoin (take i cs))) as -> by (unfold zlen in Hn; lia). by rewrite lookup_app_r, Nat.sub_diag by lia.
Qed.

Lemma byte_lookup_range (l : list Z) n x a : l !! n = Some x -> a = Z.of_nat n -> byte_range l a (a + 1) = Some [x].
Proof.
  intros Hx ->. rewrite <- (take_drop_middle l n x Hx). apply byte_range_mid with (x := [x]); [|done].
  unfold zlen. rewrite length_take. apply lookup_lt_Some in Hx. lia.
Qed.

Lemma zlen_one {A} (a : A) : zlen [a] = 1.
Proof. done. Qed.

Section journal.
Context `{CryptoCrates, !DigestWidth}.

(** ** Payloads *)

Definition payload_chunks (e : LeaseEvent) : list (list Z) :=
  let r := ev_record e in let sc := dr_scope r in
  [[ev_tag e]; sc_local_id sc; sc_remote_id sc; [direction_u8 (sc_direction sc)]; le_bytes 8 (sc_epoch sc);
   sc_peer_scope_id sc; dr_session_id r; le_bytes 8 (dr_generation r); le_bytes 8 (dr_expires_at_ms r);
   le_bytes 8 (dr_observed_now_ms r)].
Definition event_payload (e : LeaseEvent) : list Z := mjoin (payload_chunks e).

Ltac chunk_lengths := cbn [take mjoin list_join payload_chunks]; rewrite ?app_nil_r, ?zlen_app, ?le_bytes_zlen, ?zlen_one; change (zlen (A := Z) []) with 0; lia.

Lemma payload_length e : typed_event e -> zlen (event_payload e) = RECORD_PAYLOAD_BYTES_V1.
Proof.
  intros [_ [[[? _] _] [[? _] _] [[? _] _] _ _] [? _] _ _ _]. unfold event_payload, payload_chunks, RECORD_PAYLOAD_BYTES_V1. chunk_lengths.
Qed.

Lemma decode_payload e : typed_event e -> decode_record_payload (event_payload e) = Ok (ev_record e).
Proof.
  intros He. unfold decode_record_payload. rewrite payload_length, bool_decide_true by done. cbn [fail_if negb mbind result_bind].
  destruct He as [Ht [[[L1 _] N1] [[L2 _] N2] [[L3 _] N3] N4 Be] [L4 _] B1 B2 B3]. unfold payload_slice, event_payload.
  rewrite (chunk_byte (payload_chunks e) 0 (ev_tag e) 0) by done. cbn [expect mbind result_bind].
  destruct (operation_from_tag (ev_tag e)); [|done]. cbn [ok_or mbind result_bind].
  rewrite (chunk_range (payload_chunks e) 1 (sc_local_id (dr_scope (ev_record e))) 1 33) by (done || chunk_lengths).
  rewrite (chunk_range (payload_chunks e) 2 (sc_remote_id (dr_scope (ev_record e))) 33 65) by (done || chunk_lengths).
  rewrite (chunk_byte (payload_chunks e) 3 (direction_u8 (sc_direction (dr_scope (ev_record e)))) 65) by (done || chunk_lengths).
  cbn [expect mbind result_bind]. rewrite direction_tags. cbn [ok_or mbind result_bind].
  rewrite (chunk_range (payload_chunks e) 4 (le_bytes 8 (sc_epoch (dr_scope (ev_record e)))) 66 74) by (done || chunk_lengths).
  rewrite (chunk_range (payload_chunks e) 5 (sc_peer_scope_id (dr_scope (ev_record e))) 74 106) by (done || chunk_lengths).
  rewrite (chunk_range (payload_chunks e) 6 (dr_session_id (ev_record e)) 106 138) by (done || chunk_lengths).
  rewrite (chunk_range (payload_chunks e) 7 (le_bytes 8 (dr_generation (ev_record e))) 138 146) by (done || chunk_lengths).
  rewrite (chunk_range (payload_chunks e) 8 (le_bytes 8 (dr_expires_at_ms (ev_record e))) 146 154) by (done || chunk_lengths).
  rewrite (chunk_range (payload_chunks e) 9 (le_bytes 8 (dr_observed_now_ms (ev_record e))) 154 162) by (done || chunk_lengths).
  cbn [expect mbind result_bind]. rewrite !of_le_u64 by done.
  rewrite (proj2 (scope_new_Ok _ _ _ _ _ _)) by done. cbn [map_err mbind result_bind]. by destruct e as [? ? [[] ? ? ? ?]].
Qed.

Lemma expect_range l a b x : expect (E := ()) (byte_range l a b) = Ok x -> byte_range l a b = Some x.
Proof. apply expect_Ok. Qed.

Lemma byte_range_bytes l a b x : Forall is_byte l -> byte_range l a b = Some x -> 0 <= a -> Forall is_byte x /\ zlen x = b - a.
Proof.
  intros Hl Hx Ha. destruct (byte_range_Some _ _ _ _ Ha Hx) as (Lx & _ & pre & post & -> & _).
  rewrite !Forall_app in Hl. split; [by destruct Hl as (_ & ? & _)|done].
Qed.

Lemma decode_payload_inv p r : Forall is_byte p -> decode_record_payload p = Ok r ->
  exists tag, p = event_payload (mkEvent Acquire tag r) /\ operation_from_tag tag <> None /\ typed_event (mkEvent Acquire tag r).
Proof.
  intros Hp. unfold decode_record_payload, payload_slice. intros Hd.
  apply bind_Ok in Hd as (? & Hlen & Hd). apply fail_if_Ok in Hlen. bprop.
  apply bind_Ok in Hd as (tag & Htag & Hd). apply expect_Ok in Htag.
  apply bind_Ok in Hd as (op & Hop & Hd). apply ok_or_Ok in Hop.
  apply bind_Ok in Hd as (lid & H1 & Hd). apply bind_Ok in Hd as (rid & H2 & Hd).
  apply bind_Ok in Hd as (db & H3 & Hd). apply expect_Ok in H3. apply bind_Ok in Hd as (d & Hdir & Hd). apply ok_or_Ok in Hdir.
  apply bind_Ok in Hd as (ep & H4 & Hd). apply bind_Ok in Hd as (sid & H5 & Hd). apply bind_Ok in Hd as (ses & H6 & Hd).
  apply bind_Ok in Hd as (gen & H7 & Hd). apply bind_Ok in Hd as (ex & H8 & Hd). apply bind_Ok in Hd as (now & H9 & Hd).
  apply expect_range in H1, H2, H4, H5, H6, H7, H8, H9.
  apply bind_Ok in Hd as (sc & Hsc & Hd). apply Ok_inj in Hd. subst r.
  destruct (scope_new lid rid d (of_le_bytes ep) sid) as [sc'| |] eqn:Hn; [|done..]. apply Ok_inj in Hsc. cbn in Hsc. subst sc'.
  apply scope_new_Ok in Hn as (-> & N1 & N2 & N3 & N4).
  apply byte_lookup_range with (a := 0) in Htag; [|done]. apply byte_lookup_range with (a := 65) in H3; [|done].
  destruct (byte_range_bytes _ _ _ _ Hp H1) as [B1 L1]; [lia|]. destruct (byte_range_bytes _ _ _ _ Hp H2) as [B2 L2]; [lia|].
  destruct (byte_range_bytes _ _ _ _ Hp H4) as [B4 L4]; [lia|]. destruct (byte_range_bytes _ _ _ _ Hp H5) as [B5 L5]; [lia|].
  destruct (byte_range_bytes _ _ _ _ Hp H6) as [B6 L6]; [lia|]. destruct (byte_range_bytes _ _ _ _ Hp H7) as [B7 L7]; [lia|].
  destruct (byte_range_bytes _ _ _ _ Hp H8) as [B8 L8]; [lia|]. destruct (byte_range_bytes _ _ _ _ Hp H9) as [B9 L9]; [lia|].
  pose proof (byte_range_all p) as Hall. rewrite Hlen in Hall. change RECORD_PAYLOAD_BYTES_V1 with 162 in Hall.
  assert (Hcat : byte_range p 0 162 = Some ([tag] ++ lid ++ rid ++ [db] ++ ep ++ sid ++ ses ++ gen ++ ex ++ now)).
  { repeat (eapply byte_range_cat; [lia|eassumption|]). eassumption. }
  rewrite Hcat in Hall. injection Hall as <-. apply direction_from_u8_Some in Hdir. subst db. exists tag.
  assert (Ht : operation_from_tag tag <> None) by (rewrite Hop; done).
  destruct (le_u64_of ep L4 B4) as [Ee Ve]. destruct (le_u64_of gen L7 B7) as [Eg Vg].
  destruct (le_u64_of ex L8 B8) as [Ex Vx]. destruct (le_u64_of now L9 B9) as [En Vn].
  split_and!; [|done|split; cbn; try done; split; cbn; done].
  unfold event_payload, payload_chunks. cbn [mjoin list_join ev_tag ev_record dr_scope sc_local_id sc_remote_id sc_direction sc_epoch sc_peer_scope_id dr_session_id dr_generation dr_expires_at_ms dr_observed_now_ms].
  by rewrite <- Ee, <- Eg, <- Ex, <- En, app_nil_r.
Qed.

(** ** Records *)

Definition event_digest (prev : Bytes32) (e : LeaseEvent) : Bytes32 :=
  digest_record RECORD_VERSION_V1 (operation_tag (ev_operation e)) RECORD_PAYLOAD_BYTES_V1 prev (event_payload e).
Definition record_chunks (prev : Bytes32) (e : LeaseEvent) : list (list Z) :=
  [RECORD_MAGIC_V1; [RECORD_VERSION_V1]; [operation_tag (ev_operation e)]; le_bytes 4 RECORD_PAYLOAD_BYTES_V1; prev;
   event_payload e; event_digest prev e].
Definition event_bytes (prev : Bytes32) (e : LeaseEvent) : list Z := mjoin (record_chunks prev e).

Definition RECORD_BYTES : Z := 236.

Lemma event_bytes_length prev e : bytes32 prev -> typed_event e -> zlen (event_bytes prev e) = RECORD_BYTES.
Proof.
  intros [Lp _] He. pose proof (payload_length e He) as Lq. destruct (digest_width (RECORD_MAGIC_V1 ++ [RECORD_VERSION_V1; operation_tag (ev_operation e)]
    ++ le_bytes 4 RECORD_PAYLOAD_BYTES_V1 ++ prev ++ event_payload e)) as [Ld _].
  unfold event_bytes, record_chunks. cbn [mjoin list_join]. rewrite !zlen_app, le_bytes_zlen, Lq, Lp.
  unfold event_digest, digest_record. rewrite Ld. done.
Qed.

(** The effect of one event on the store. *)
Definition event_step (s : PeerLeaseStoreV1) (e : LeaseEvent) : LResult PeerLeaseStoreV1 :=
  _ ← fail_if (dr_observed_now_ms (ev_record e) <? last_now_ms s) corrupt;
  let digest := event_digest (last_hash s) e in
  s ← apply_replayed (ev_operation e) (ev_record e) digest s;
  count ← ok_or (checked_add u64_max (record_count s) 1) corrupt;
  Ok (set_head digest count (dr_observed_now_ms (ev_record e)) s).

Lemma embedded_range pre cs post i x A B a b : cs !! i = Some x -> zlen (mjoin (take i cs)) = a -> a + zlen x = b ->
  A = zlen pre + a -> B = zlen pre + b -> byte_range (pre ++ mjoin cs ++ post) A B = Some x.
Proof.
  intros Hi <- <- -> ->. rewrite <- (take_drop_middle cs i x Hi) at 1. rewrite join_app. cbn [mjoin list_join]. rewrite <- !app_assoc.
  rewrite (app_assoc pre). apply byte_range_mid; rewrite ?zlen_app; lia.
Qed.

Lemma embedded_byte pre (cs : list (list Z)) post i (x : Z) n a : cs !! i = Some [x] -> zlen (mjoin (take i cs)) = a -> n = Z.to_nat (zlen pre + a) ->
  (pre ++ mjoin cs ++ post) !! n = Some x.
Proof.
  intros Hi <- ->. replace (Z.to_nat _) with (length (pre ++ mjoin (take i cs))) by (rewrite length_app; unfold zlen; lia).
  assert (Hm : mjoin cs = mjoin (take i cs) ++ [x] ++ mjoin (drop (S i) cs)) by (rewrite <- (take_drop_middle cs i [x] Hi) at 1; by rewrite join_app).
  rewrite Hm, <- !app_assoc, (app_assoc pre). by rewrite lookup_app_r, Nat.sub_diag by lia.
Qed.

Ltac record_lengths := cbn [take mjoin list_join record_chunks]; rewrite ?app_nil_r, ?zlen_app, ?le_bytes_zlen, ?zlen_one;
  change (zlen (A := Z) []) with 0; change (zlen RECORD_MAGIC_V1) with 4; unfold RECORD_HEADER_BYTES_V1, RECORD_PAYLOAD_BYTES_V1; lia.

Lemma replay_event pre post s e : bytes32 (last_hash s) -> typed_event e ->
  replay_record (pre ++ event_bytes (last_hash s) e ++ post) s (zlen pre)
  = s' ← event_step s e; Ok (s', zlen pre + RECORD_BYTES).
Proof.
  intros Hh He. pose proof (event_bytes_length _ _ Hh He) as Lr. pose proof (payload_length e He) as Lp.
  assert (Ld : zlen (event_digest (last_hash s) e) = 32) by apply digest_width. destruct Hh as [Lh Bh].
  unfold RECORD_BYTES, RECORD_PAYLOAD_BYTES_V1 in *. unfold replay_record.
  assert (Hrem : zlen (pre ++ event_bytes (last_hash s) e ++ post) - zlen pre = 236 + zlen post) by (rewrite !zlen_app; lia).
  pose proof (zlen_nonneg post) as Hpost. rewrite Hrem. unfold event_bytes.
  rewrite (proj2 (Z.ltb_ge _ _)) by (unfold RECORD_HEADER_BYTES_V1, RECORD_DIGEST_BYTES_V1; lia). cbn [fail_if mbind result_bind].
  rewrite (embedded_range pre (record_chunks (last_hash s) e) post 0 RECORD_MAGIC_V1 (zlen pre) (zlen pre + 4) 0 4) by (done || lia).
  cbn [ok_or mbind result_bind]. rewrite bool_decide_true by done. cbn [negb fail_if mbind result_bind].
  rewrite (embedded_byte pre (record_chunks (last_hash s) e) post 1 RECORD_VERSION_V1 (Z.to_nat (zlen pre + 4)) 4) by (done || record_lengths).
  rewrite (embedded_byte pre (record_chunks (last_hash s) e) post 2 (operation_tag (ev_operation e)) (Z.to_nat (zlen pre + 5)) 5) by (done || record_lengths).
  cbn [expect mbind result_bind]. unfold journal_slice.
  rewrite (embedded_range pre (record_chunks (last_hash s) e) post 3 (le_bytes 4 RECORD_PAYLOAD_BYTES_V1) (zlen pre + 6) (zlen pre + 10) 6 10) by (done || record_lengths || lia).
  cbn [expect mbind result_bind]. change (of_le_bytes (le_bytes 4 RECORD_PAYLOAD_BYTES_V1)) with RECORD_PAYLOAD_BYTES_V1.
  rewrite !bool_decide_true by done. cbn [negb orb fail_if mbind result_bind].
  change (v ← checked_add u64_max RECORD_HEADER_BYTES_V1 RECORD_PAYLOAD_BYTES_V1; checked_add u64_max v RECORD_DIGEST_BYTES_V1) with (Some 236).
  cbn [ok_or mbind result_bind]. rewrite (proj2 (Z.ltb_ge _ _)) by lia. cbn [fail_if mbind result_bind].
  rewrite (embedded_range pre (record_chunks (last_hash s) e) post 4 (last_hash s) (zlen pre + 10) (zlen pre + 42) 10 42) by (done || record_lengths || lia).
  cbn [expect mbind result_bind]. rewrite bool_decide_true by done. cbn [negb fail_if mbind result_bind].
  rewrite (embedded_range pre (record_chunks (last_hash s) e) post 5 (event_payload e) (zlen pre + RECORD_HEADER_BYTES_V1) (zlen pre + RECORD_HEADER_BYTES_V1 + RECORD_PAYLOAD_BYTES_V1) 42 204) by (done || record_lengths || lia).
  cbn [expect mbind result_bind].
  rewrite (embedded_range pre (record_chunks (last_hash s) e) post 6 (event_digest (last_hash s) e) (zlen pre + RECORD_HEADER_BYTES_V1 + RECORD_PAYLOAD_BYTES_V1) (zlen pre + RECORD_HEADER_BYTES_V1 + RECORD_PAYLOAD_BYTES_V1 + 32) 204 236) by (done || record_lengths || lia).
  cbn [expect mbind result_bind]. rewrite bool_decide_true by done. cbn [negb fail_if mbind result_bind].
  rewrite operation_tags. cbn [ok_or mbind result_bind]. rewrite decode_payload by done. cbn [map_err mbind result_bind].
  unfold event_step. destruct (fail_if _ _); [|done..]. cbn [mbind result_bind]. destruct (apply_replayed _ _ _ _) as [s1| |]; [|done..].
  cbn [mbind result_bind]. by destruct (ok_or _ _).
Qed.

Lemma replay_record_inv bytes s offset s' offset' : Forall is_byte bytes -> 0 <= offset ->
  replay_record bytes s offset = Ok (s', offset') ->
  exists e pre post, typed_event e /\ bytes = pre ++ event_bytes (last_hash s) e ++ post /\ zlen pre = offset /\
    offset' = offset + RECORD_BYTES /\ event_step s e = Ok s' /\ bytes32 (last_hash s).
Proof.
  intros Hb Ho Hr. pose proof Hr as Hrun. unfold replay_record, journal_slice in Hr.
  apply bind_Ok in Hr as (? & _ & Hr). apply bind_Ok in Hr as (mg & Hmg & Hr). apply ok_or_Ok in Hmg.
  apply bind_Ok in Hr as (? & Hm & Hr). apply fail_if_Ok in Hm. bprop. subst mg.
  apply bind_Ok in Hr as (ver & Hver & Hr). apply expect_Ok in Hver. apply bind_Ok in Hr as (tg & Htg & Hr). apply expect_Ok in Htg.
  apply bind_Ok in Hr as (lb & Hlb & Hr). apply expect_Ok in Hlb. apply bind_Ok in Hr as (? & Hv & Hr). apply fail_if_Ok in Hv. bprop. subst ver.
  rename H2 into Hlen. rewrite Hlen in Hr. apply bind_Ok in Hr as (total & Htot & Hr). apply ok_or_Ok in Htot. injection Htot as <-.
  apply bind_Ok in Hr as (? & _ & Hr). apply bind_Ok in Hr as (prev & Hprev & Hr). apply expect_Ok in Hprev.
  apply bind_Ok in Hr as (? & Hp & Hr). apply fail_if_Ok in Hp. bprop. subst prev.
  apply bind_Ok in Hr as (payload & Hpay & Hr). apply expect_Ok in Hpay. apply bind_Ok in Hr as (dg & Hdg & Hr). apply expect_Ok in Hdg.
  apply bind_Ok in Hr as (? & Hd & Hr). apply fail_if_Ok in Hd. bprop. subst dg. apply bind_Ok in Hr as (op & Hop & Hr). apply ok_or_Ok in Hop.
  apply operation_from_tag_Some in Hop. subst tg. apply bind_Ok in Hr as (rec & Hrec & Hr). clear Hr.
  destruct (decode_record_payload payload) as [r'| |] eqn:Hdec; [|done..]. apply Ok_inj in Hrec. subst r'.
  destruct (byte_range_bytes _ _ _ _ Hb Hpay) as [Bp _]; [unfold RECORD_HEADER_BYTES_V1; lia|].
  destruct (byte_range_bytes _ _ _ _ Hb Hprev) as [Bh Lh]; [lia|]. destruct (byte_range_bytes _ _ _ _ Hb Hlb) as [Bl Ll]; [lia|].
  destruct (decode_payload_inv _ _ Bp Hdec) as (tag & Hpe & Htag & Hty). set (e := mkEvent op tag rec).
  assert (He : typed_event e) by (destruct Hty; split; done). assert (Hh : bytes32 (last_hash s)) by (split; [lia|done]).
  assert (Hlbe : lb = le_bytes 4 RECORD_PAYLOAD_BYTES_V1).
  { rewrite <- Hlen. pose proof (le_bytes_of_le_bytes lb Bl) as Hle. replace (length lb) with 4%nat in Hle by (unfold zlen in Ll; lia). done. }
  subst lb. apply byte_lookup_range with (a := offset + 4) in Hver; [|lia]. apply byte_lookup_range with (a := offset + 5) in Htg; [|lia].
  replace (offset + 4 + 1) with (offset + 5) in Hver by lia. replace (offset + 5 + 1) with (offset + 6) in Htg by lia.
  assert (Hcat : byte_range bytes offset (offset + 236) = Some (event_bytes (last_hash s) e)).
  { unfold event_bytes, record_chunks. cbn [mjoin list_join]. rewrite app_nil_r.
    eapply byte_range_cat; [lia|exact Hmg|]. eapply byte_range_cat; [lia|exact Hver|]. eapply byte_range_cat; [lia|exact Htg|].
    eapply byte_range_cat; [lia|exact Hlb|]. eapply byte_range_cat; [lia|exact Hprev|]. unfold RECORD_HEADER_BYTES_V1, RECORD_PAYLOAD_BYTES_V1 in *.
    change (4 + 1 + 1 + 4 + 32) with 42 in *. change (1 + 32 + 32 + 1 + 8 + 32 + 32 + 8 + 8 + 8) with 162 in *.
    eapply byte_range_cat; [lia|rewrite Hpe in Hpay; exact Hpay|]. replace (offset + 42 + 162 + 32) with (offset + 236) in Hdg by lia. rewrite Hdg.
    f_equal. unfold event_digest. rewrite Hpe. done. }
  destruct (byte_range_Some _ _ _ _ Ho Hcat) as (_ & _ & pre & post & -> & <-).
  exists e, pre, post. rewrite replay_event in Hrun by done. apply bind_Ok in Hrun as (s1 & Hs1 & Hrun). apply Ok_inj in Hrun.
  injection Hrun as <- <-. done.
Qed.

(** ** Journals *)

(** The bytes of a history after a record with digest [prev], and the last digest. *)
Fixpoint journal_bytes (prev : Bytes32) (h : list LeaseEvent) : list Z :=
  match h with
  | [] => []
  | e :: h => event_bytes prev e ++ journal_bytes (event_digest prev e) h
  end.
Fixpoint head_digest (prev : Bytes32) (h : list LeaseEvent) : Bytes32 :=
  match h with
  | [] => prev
  | e :: h => head_digest (event_digest prev e) h
  end.

Definition event_steps (s : PeerLeaseStoreV1) (h : list LeaseEvent) : LResult PeerLeaseStoreV1 := try_fold event_step s h.

Lemma event_digest_width prev e : bytes32 (event_digest prev e).
Proof. apply digest_width. Qed.

Lemma event_step_head s e s' : event_step s e = Ok s' ->
  last_hash s' = event_digest (last_hash s) e /\ record_count s' = record_count s + 1 /\ last_now_ms s' = dr_observed_now_ms (ev_record e) /\
  last_now_ms s <= last_now_ms s' /\ disk s' = disk s /\ last_observed_now_ms s' = last_observed_now_ms s /\ poisoned s' = poisoned s.
Proof.
  unfold event_step. intros Hs. apply bind_Ok in Hs as (? & Hn & Hs). apply fail_if_Ok in Hn. bprop.
  apply bind_Ok in Hs as (s1 & Ha & Hs). apply bind_Ok in Hs as (c & Hc & Hs). apply ok_or_Ok, checked_add_Some in Hc as [-> _]. apply Ok_inj in Hs. subst s'. cbn.
  assert (Hf : record_count s1 = record_count s /\ disk s1 = disk s /\ last_observed_now_ms s1 = last_observed_now_ms s /\ poisoned s1 = poisoned s).
  { unfold apply_replayed in Ha. destruct (ev_operation e); [| |done|]; repeat (apply bind_Ok in Ha as (? & _ & Ha)); apply Ok_inj in Ha; by subst s1. }
  destruct Hf as (-> & -> & -> & ->). done.
Qed.

Lemma replay_loop_events h : forall fuel pre post s, Forall typed_event h -> bytes32 (last_hash s) -> (length h <= fuel)%nat ->
  replay_loop fuel (pre ++ journal_bytes (last_hash s) h ++ post) s (zlen pre)
  = s' ← event_steps s h; replay_loop (fuel - length h) (pre ++ journal_bytes (last_hash s) h ++ post) s' (zlen pre + zlen (journal_bytes (last_hash s) h)).
Proof.
  induction h as [|e h IH]; intros fuel pre post s Ht Hh Hf.
  - cbn. rewrite Nat.sub_0_r. f_equal. unfold zlen. cbn. lia.
  - apply Forall_cons in Ht as [He Ht]. destruct fuel as [|fuel]; [cbn in Hf; lia|]. cbn [journal_bytes replay_loop]. rewrite <- !app_assoc.
    pose proof (event_bytes_length _ _ Hh He) as Le. pose proof (zlen_nonneg (journal_bytes (event_digest (last_hash s) e) h)) as L1. pose proof (zlen_nonneg post) as L2.
    rewrite (proj2 (Z.ltb_lt _ _)) by (rewrite !zlen_app, Le; unfold RECORD_BYTES; lia). rewrite replay_event by done.
    unfold event_steps. cbn [try_fold]. destruct (event_step s e) as [s1| |] eqn:Hs; [|done..]. cbn [mbind result_bind].
    destruct (event_step_head _ _ _ Hs) as (Hl & _). specialize (IH fuel (pre ++ event_bytes (last_hash s) e) post s1 Ht).
    rewrite Hl, <- !app_assoc, zlen_app, Le in IH. rewrite IH; [|apply event_digest_width|cbn in Hf; lia].
    cbn [length Nat.sub]. rewrite zlen_app, Le, Z.add_assoc. done.
Qed.

Lemma replay_loop_inv fuel : forall pre rest s s', Forall is_byte (pre ++ rest) ->
  replay_loop fuel (pre ++ rest) s (zlen pre) = Ok s' ->
  exists h, Forall typed_event h /\ rest = journal_bytes (last_hash s) h /\ event_steps s h = Ok s'.
Proof.
  induction fuel as [|fuel IH]; intros pre rest s s' Hb Hr; cbn [replay_loop] in Hr;
    destruct (zlen pre <? zlen (pre ++ rest)) eqn:Hlt; bprop; try done.
  1, 3: apply Ok_inj in Hr; subst s'; exists []; split_and!; [done| |done]; rewrite zlen_app in Hlt;
    destruct rest; [done|unfold zlen in Hlt; cbn in Hlt; lia].
  apply bind_Ok in Hr as ([s1 o1] & H1 & Hr).
  destruct (replay_record_inv _ _ _ _ _ Hb (zlen_nonneg pre) H1) as (e & pre' & post & He & Heq & Hl & -> & Hs & Hh).
  apply app_inj_1 in Heq as [<- ->]; [|unfold zlen in Hl; lia]. pose proof (event_bytes_length _ _ Hh He) as Le.
  destruct (event_step_head _ _ _ Hs) as (Hd & _).
  destruct (IH (pre ++ event_bytes (last_hash s) e) post s1 s') as (h & Hh' & -> & Hst).
  - by rewrite <- app_assoc.
  - rewrite <- app_assoc, zlen_app, Le. exact Hr.
  - exists (e :: h). split_and!; [by constructor|cbn; by rewrite Hd|]. unfold event_steps. cbn [try_fold]. rewrite Hs. done.
Qed.

Lemma journal_length h : forall prev, bytes32 prev -> Forall typed_event h -> zlen (journal_bytes prev h) = RECORD_BYTES * zlen h.
Proof.
  induction h as [|e h IH]; intros prev Hp Ht; [done|]. apply Forall_cons in Ht as [He Ht]. cbn [journal_bytes].
  rewrite zlen_app, event_bytes_length, IH by (done || apply event_digest_width). unfold zlen, RECORD_BYTES. cbn [length]. lia.
Qed.

Lemma replay_fuel h s : bytes32 (last_hash s) -> Forall typed_event h -> (length h <= length (journal_bytes (last_hash s) h))%nat.
Proof. intros Hh Ht. pose proof (journal_length h _ Hh Ht) as Hl. unfold zlen, RECORD_BYTES in Hl. lia. Qed.

Lemma replay_history h s : bytes32 (last_hash s) -> Forall typed_event h ->
  replay (journal_bytes (last_hash s) h) s = event_steps s h.
Proof.
  intros Hh Ht. unfold replay. pose proof (replay_loop_events h (length (journal_bytes (last_hash s) h)) [] [] s Ht Hh (replay_fuel h s Hh Ht)) as Hr.
  cbn [app] in Hr. rewrite app_nil_r in Hr. change (zlen (A := Z) []) with 0 in Hr. rewrite Hr.
  destruct (event_steps s h) as [s'| |]; [|done..]. cbn [mbind result_bind]. destruct (_ - _)%nat; cbn [replay_loop]; by rewrite Z.ltb_irrefl.
Qed.

(** ** Torn records *)

Lemma byte_range_take l k a b : 0 <= a -> b <= Z.of_nat k -> b <= zlen l -> byte_range (take k l) a b = byte_range l a b.
Proof.
  intros Ha Hk Hl. unfold byte_range, zlen in *. rewrite length_take. destruct (a <=? b) eqn:Hab; [|done]. bprop. cbn [andb].
  rewrite !(proj2 (Z.leb_le b _)) by lia. f_equal. rewrite skipn_firstn_comm, take_take. f_equal. lia.
Qed.

Lemma replay_torn pre s e k : bytes32 (last_hash s) -> typed_event e -> (k < 236)%nat ->
  replay_record (pre ++ take k (event_bytes (last_hash s) e)) s (zlen pre) = Err corrupt.
Proof.
  intros Hh He Hk. pose proof (event_bytes_length _ _ Hh He) as Lr. unfold RECORD_BYTES in Lr. destruct Hh as [Lh _].
  assert (Lt : zlen (take k (event_bytes (last_hash s) e)) = Z.of_nat k) by (unfold zlen in *; rewrite length_take; lia).
  unfold replay_record. rewrite zlen_app, Lt. replace (zlen pre + Z.of_nat k - zlen pre) with (Z.of_nat k) by lia.
  destruct (Z.of_nat k <? _) eqn:Hshort; [done|]. bprop. unfold RECORD_HEADER_BYTES_V1, RECORD_DIGEST_BYTES_V1 in Hshort. cbn [fail_if mbind result_bind].
  set (eb := event_bytes (last_hash s) e) in *. pose proof (zlen_nonneg pre) as Hpre.
  assert (Hto : forall a b, 0 <= a <= 74 -> 0 <= b <= 74 -> byte_range (pre ++ take k eb) (zlen pre + a) (zlen pre + b) = byte_range (pre ++ eb ++ []) (zlen pre + a) (zlen pre + b)).
  { intros a b Ha Hb. rewrite app_nil_r. destruct (byte_range_shift pre (take k eb) a b) as [->|]; [|lia].
    destruct (byte_range_shift pre eb a b) as [->|]; [|lia]. apply byte_range_take; lia. }
  assert (Hat : forall i, (i < 74)%nat -> (pre ++ take k eb) !! Z.to_nat (zlen pre + Z.of_nat i) = (pre ++ eb ++ []) !! Z.to_nat (zlen pre + Z.of_nat i)).
  { intros i Hi. rewrite app_nil_r. replace (Z.to_nat (zlen pre + Z.of_nat i)) with (length pre + i)%nat by (unfold zlen; lia).
    rewrite !lookup_app_r by lia. rewrite lookup_take. rewrite decide_True by lia. done. }
  pose proof (Hto 0 4 ltac:(lia) ltac:(lia)) as Hmagic. rewrite Z.add_0_r in Hmagic. rewrite Hmagic. unfold eb, event_bytes.
  rewrite (embedded_range pre (record_chunks (last_hash s) e) [] 0 RECORD_MAGIC_V1 (zlen pre) (zlen pre + 4) 0 4) by (done || lia).
  cbn [ok_or mbind result_bind]. rewrite bool_decide_true by done. cbn [negb fail_if mbind result_bind]. fold (event_bytes (last_hash s) e). fold eb.
  pose proof (Hat 4%nat ltac:(lia)) as H4. change (Z.of_nat 4) with 4 in H4. pose proof (Hat 5%nat ltac:(lia)) as H5. change (Z.of_nat 5) with 5 in H5.
  rewrite H4, H5. unfold eb, event_bytes.
  rewrite (embedded_byte pre (record_chunks (last_hash s) e) [] 1 RECORD_VERSION_V1 (Z.to_nat (zlen pre + 4)) 4) by (done || record_lengths).
  rewrite (embedded_byte pre (record_chunks (last_hash s) e) [] 2 (operation_tag (ev_operation e)) (Z.to_nat (zlen pre + 5)) 5) by (done || record_lengths).
  cbn [expect mbind result_bind]. unfold journal_slice. fold (event_bytes (last_hash s) e). fold eb. rewrite (Hto 6 10) by lia. unfold eb, event_bytes.
  rewrite (embedded_range pre (record_chunks (last_hash s) e) [] 3 (le_bytes 4 RECORD_PAYLOAD_BYTES_V1) (zlen pre + 6) (zlen pre + 10) 6 10) by (done || record_lengths || lia).
  cbn [expect mbind result_bind]. change (of_le_bytes (le_bytes 4 RECORD_PAYLOAD_BYTES_V1)) with RECORD_PAYLOAD_BYTES_V1.
  rewrite !bool_decide_true by done. cbn [negb orb fail_if mbind result_bind].
  change (v ← checked_add u64_max RECORD_HEADER_BYTES_V1 RECORD_PAYLOAD_BYTES_V1; checked_add u64_max v RECORD_DIGEST_BYTES_V1) with (Some 236).
  cbn [ok_or mbind result_bind]. by rewrite (proj2 (Z.ltb_lt _ _)) by lia.
Qed.

Lemma event_steps_head h : forall s s', event_steps s h = Ok s' ->
  last_hash s' = head_digest (last_hash s) h /\ record_count s' = record_count s + zlen h /\ last_now_ms s <= last_now_ms s' /\
  disk s' = disk s /\ last_observed_now_ms s' = last_observed_now_ms s /\ poisoned s' = poisoned s.
Proof.
  induction h as [|e h IH]; intros s s' Hs.
  - apply Ok_inj in Hs. subst s'. unfold zlen. cbn. split_and!; try done; lia.
  - unfold event_steps in Hs. cbn [try_fold] in Hs. apply bind_Ok in Hs as (s1 & H1 & Hs).
    destruct (event_step_head _ _ _ H1) as (E1 & E2 & _ & E4 & E5 & E6 & E7). destruct (IH _ _ Hs) as (F1 & F2 & F3 & F4 & F5 & F6).
    cbn [head_digest]. rewrite F1, E1, F2, E2. unfold zlen. cbn [length]. split_and!; try congruence; lia.
Qed.

Lemma event_steps_width h s s' : bytes32 (last_hash s) -> event_steps s h = Ok s' -> bytes32 (last_hash s').
Proof.
  intros Hh Hs. destruct (event_steps_head _ _ _ Hs) as (-> & _). clear Hs s'. revert s Hh.
  assert (Hw : forall p, bytes32 p -> bytes32 (head_digest p h)); [|by intros s Hs; apply Hw].
  induction h as [|e h IH]; intros p Hp; [done|]. apply IH, event_digest_width.
Qed.

Lemma event_steps_app s h1 h2 : event_steps s (h1 ++ h2) = s' ← event_steps s h1; event_steps s' h2.
Proof. apply try_fold_app. Qed.

Lemma journal_bytes_app h1 h2 : forall p, journal_bytes p (h1 ++ h2) = journal_bytes p h1 ++ journal_bytes (head_digest p h1) h2.
Proof. induction h1 as [|e h1 IH]; intros p; [done|]. cbn. by rewrite IH, app_assoc. Qed.

(** A journal whose last record is torn does not replay. *)
Lemma replay_torn_history h s s1 e k : bytes32 (last_hash s) -> Forall typed_event h -> typed_event e -> (0 < k < 236)%nat ->
  event_steps s h = Ok s1 ->
  replay (journal_bytes (last_hash s) h ++ take k (event_bytes (last_hash s1) e)) s = Err corrupt.
Proof.
  intros Hh Ht He Hk Hs. pose proof (event_steps_width _ _ _ Hh Hs) as Hh1. set (torn := take k _).
  assert (Lt : zlen torn = Z.of_nat k).
  { pose proof (event_bytes_length _ _ Hh1 He) as Le. unfold torn, zlen, RECORD_BYTES in *. rewrite length_take. lia. }
  pose proof (replay_fuel h s Hh Ht) as Hf. unfold replay.
  assert (Hfu : (length h < length (journal_bytes (last_hash s) h ++ torn))%nat) by (rewrite length_app; unfold zlen in Lt; lia).
  pose proof (replay_loop_events h (length (journal_bytes (last_hash s) h ++ torn)) [] torn s Ht Hh ltac:(lia)) as Hr.
  cbn [app] in Hr. change (zlen (A := Z) []) with 0 in Hr. rewrite Hr, Hs. cbn [mbind result_bind].
  destruct (length _ - length h)%nat as [|fuel] eqn:Hfe; [lia|]. cbn [replay_loop]. rewrite (proj2 (Z.ltb_lt _ _)) by (rewrite zlen_app, Lt; lia).
  change (0 + ?x) with x. unfold torn. rewrite replay_torn by (done || lia). done.
Qed.

(** Replay accepts exactly the journals of histories. *)
Lemma replay_exact bytes s s' : Forall is_byte bytes -> bytes32 (last_hash s) ->
  replay bytes s = Ok s' <-> exists h, Forall typed_event h /\ bytes = journal_bytes (last_hash s) h /\ event_steps s h = Ok s'.
Proof.
  intros Hb Hh. split.
  - intros Hr. by apply (replay_loop_inv (length bytes) [] bytes).
  - intros (h & Ht & -> & Hs). by rewrite replay_history.
Qed.

(** ** Heads *)

Lemma head_body_length n h : bytes32 h -> zlen (HEAD_MAGIC_V1 ++ [HEAD_VERSION_V1] ++ [0; 0; 0] ++ le_bytes 8 n ++ h) = 48.
Proof. intros [Lh _]. rewrite !zlen_app, le_bytes_zlen, Lh. done. Qed.

Lemma decode_encode_head n h : in_u64 n -> bytes32 h ->
  zlen (encode_head n h) = HEAD_BYTES_V1 /\
  decode_head (encode_head n h) = if Bool.eqb (n =? 0) (h =?? zero32) then Ok (n, h) else Err corrupt.
Proof.
  intros Hn Hh. pose proof (head_body_length n h Hh) as Lb. destruct Hh as [Lh _]. unfold encode_head.
  set (body := HEAD_MAGIC_V1 ++ _) in *. destruct (digest_width (HEAD_MAGIC_V1 ++ le_bytes 8 (zlen body) ++ body)) as [Lc _].
  change (sha256 _) with (head_checksum body) in Lc. set (sum := head_checksum body) in *.
  set (cs := [HEAD_MAGIC_V1; [HEAD_VERSION_V1]; [0; 0; 0]; le_bytes 8 n; h; sum]).
  assert (Hcs : body ++ sum = mjoin cs) by (unfold body, cs; cbn [mjoin list_join]; by rewrite <- !app_assoc, app_nil_r).
  assert (Ll : zlen (body ++ sum) = HEAD_BYTES_V1) by (rewrite zlen_app, Lb, Lc; done). split; [done|].
  unfold decode_head. rewrite Ll, bool_decide_true by done. cbn [negb or_else mbind result_bind]. unfold head_slice.
  assert (Hbody : byte_range (body ++ sum) 0 HEAD_BODY_BYTES_V1 = Some body) by (apply (byte_range_mid [] body sum); [done|rewrite Lb; done]).
  assert (Hsum : byte_range (body ++ sum) HEAD_BODY_BYTES_V1 HEAD_BYTES_V1 = Some sum).
  { pose proof (byte_range_mid body sum [] HEAD_BODY_BYTES_V1 HEAD_BYTES_V1) as Hm. rewrite app_nil_r in Hm. apply Hm; [by rewrite Lb|by rewrite Lc]. }
  rewrite Hbody, Hsum, Hcs.
  rewrite (chunk_range cs 0 HEAD_MAGIC_V1 0 4) by done. cbn [expect mbind result_bind]. rewrite bool_decide_true by done. cbn [negb or_else].
  rewrite (chunk_byte cs 1 HEAD_VERSION_V1 4) by done. cbn [expect mbind result_bind]. rewrite bool_decide_true by done. cbn [negb or_else].
  rewrite (chunk_range cs 2 [0; 0; 0] 5 8) by done. cbn [expect mbind result_bind]. rewrite bool_decide_true by done. cbn [negb fail_if mbind result_bind].
  fold sum. rewrite bool_decide_true by done. cbn [negb fail_if mbind result_bind].
  rewrite (chunk_range cs 3 (le_bytes 8 n) 8 16) by (done || (rewrite le_bytes_zlen; done)). cbn [expect mbind result_bind].
  rewrite (chunk_range cs 4 h 16 48); [|done|unfold cs; cbn [take mjoin list_join]; rewrite app_nil_r, !zlen_app, le_bytes_zlen; done|lia].
  cbn [expect mbind result_bind]. rewrite of_le_u64 by done. by destruct (Bool.eqb _ _).
Qed.

End journal.
