(* ===== verification/PeerLeaseRuns.v ===== *)
(** * PeerLeaseRuns: the lease authority and its journal

    Every operation of the store is one event of the journal, an early answer or a
    refusal; the tables are those of the events; and whatever the file system
    does, reopening finds the events that were made durable. *)

From stdpp Require Import base gmap list sorting strings.
From S2P Require Import Prelude Crypto ByteReader PeerLease PeerLeaseJournal.

Record typed_request (r : LeaseRequestV1) : Prop := {
  tr_scope : valid_scope (rq_scope r);
  tr_session : bytes32 (rq_session_id r);
  tr_generation : in_u64 (rq_generation r);
  tr_expires : in_u64 (rq_expires_at_ms r);
  tr_ttl : in_u64 (rq_ttl_ms r);
  tr_hash : bytes32 (rq_record_hash r);
}.

(** What the journal determines: the tables, the head and the clock. *)
Definition authority (s : PeerLeaseStoreV1) :=
  (entries s, generations s, seen_sessions s, last_hash s, record_count s, last_now_ms s).

(** The tables of [s] with the files, the observed clock and the flag of [t]. *)
Definition graft (t s : PeerLeaseStoreV1) : PeerLeaseStoreV1 :=
  mkStore (disk t) (entries s) (generations s) (seen_sessions s) (last_hash s) (record_count s) (last_now_ms s)
    (last_observed_now_ms t) (poisoned t).

Lemma graft_authority s t : authority s = authority t -> s = graft s t.
Proof. destruct s, t. unfold authority, graft. cbn. by intros [= -> -> -> -> -> ->]. Qed.

(** A lease in force carries the latest generation of its scope, and its session is known. *)
Record lease_ok (s : PeerLeaseStoreV1) : Prop := {
  lo_entry sc st : entries s !! sc = Some st -> generations s !! sc = Some (ls_generation st) /\ in_u64 (ls_expires_at_ms st);
  lo_generation sc g : generations s !! sc = Some g -> in_u64 g;
  lo_now : in_u64 (last_now_ms s);
}.

Section runs.
Context `{CryptoCrates, !DigestWidth}.

Lemma event_step_graft t s e : event_step (graft t s) e = s' ← event_step s e; Ok (graft t s').
Proof.
  unfold event_step. cbn [last_now_ms graft last_hash]. destruct (fail_if _ _); [|done..]. cbn [mbind result_bind].
  unfold apply_replayed, latest_generation. cbn [entries generations seen_sessions graft].
  destruct (ev_operation e); [| |done|].
  - destruct (ok_or _ _); [|done..]. cbn [mbind result_bind]. destruct (fail_if _ _); [|done..]. cbn [mbind result_bind].
    cbn [record_count set_entries set_seen_sessions set_generations graft]. by destruct (ok_or _ _).
  - destruct (ok_or _ _); [|done..]. cbn [mbind result_bind]. destruct (fail_if _ _); [|done..]. cbn [mbind result_bind].
    cbn [record_count set_entries graft]. by destruct (ok_or _ _).
  - destruct (ok_or _ _); [|done..]. cbn [mbind result_bind]. destruct (fail_if _ _); [|done..]. cbn [mbind result_bind].
    cbn [record_count set_entries graft]. by destruct (ok_or _ _).
Qed.

Lemma event_steps_graft t h : forall s, event_steps (graft t s) h = s' ← event_steps s h; Ok (graft t s').
Proof.
  induction h as [|e h IH]; intros s; [done|]. unfold event_steps in *. cbn [try_fold]. rewrite event_step_graft.
  destruct (event_step s e) as [s1| |]; [|done..]. cbn [mbind result_bind]. apply IH.
Qed.

(** A step on a store with the same authority. *)
Lemma event_step_authority s t e s' : authority s = authority t -> event_step t e = Ok s' ->
  event_step s e = Ok (graft s s').
Proof. intros Ha Ht. rewrite (graft_authority s t Ha) at 1. rewrite event_step_graft, Ht. done. Qed.

(** What a recorded event requires and does. *)
Definition event_effect (s : PeerLeaseStoreV1) (e : LeaseEvent) (s' : PeerLeaseStoreV1) : Prop :=
  let r := ev_record e in
  let recorded := mkLeaseState (dr_session_id r) (dr_generation r) (dr_expires_at_ms r) (event_digest (last_hash s) e) in
  match ev_operation e with
  | Acquire =>
      dr_generation r = latest_generation s (dr_scope r) + 1 /\ ((dr_scope r, dr_session_id r) ∉ seen_sessions s) /\
      (forall st, entries s !! dr_scope r = Some st -> ls_expires_at_ms st <= dr_observed_now_ms r) /\
      dr_observed_now_ms r < dr_expires_at_ms r /\
      entries s' = <[dr_scope r := recorded]> (entries s) /\ generations s' = <[dr_scope r := dr_generation r]> (generations s) /\
      seen_sessions s' = {[(dr_scope r, dr_session_id r)]} ∪ seen_sessions s
  | Renew =>
      exists st, entries s !! dr_scope r = Some st /\ ls_session_id st = dr_session_id r /\ ls_generation st = dr_generation r /\
        dr_observed_now_ms r < ls_expires_at_ms st /\ dr_observed_now_ms r < dr_expires_at_ms r /\
        entries s' = <[dr_scope r := recorded]> (entries s) /\ generations s' = generations s /\ seen_sessions s' = seen_sessions s
  | Release =>
      exists st, entries s !! dr_scope r = Some st /\ ls_session_id st = dr_session_id r /\ ls_generation st = dr_generation r /\
        dr_observed_now_ms r < ls_expires_at_ms st /\
        entries s' = delete (dr_scope r) (entries s) /\ generations s' = generations s /\ seen_sessions s' = seen_sessions s
  | Revalidate => False
  end.

Lemma event_step_effect s e s' : event_step s e = Ok s' -> event_effect s e s'.
Proof.
  intros Hs. unfold event_step in Hs. apply bind_Ok in Hs as (? & _ & Hs). apply bind_Ok in Hs as (s1 & Ha & Hs). apply bind_Ok in Hs as (c & _ & Hs).
  apply Ok_inj in Hs. subst s'. unfold event_effect. unfold apply_replayed in Ha. destruct (ev_operation e); [| |done|].
  - apply bind_Ok in Ha as (g & Hg & Ha). apply ok_or_Ok, checked_add_Some in Hg as [-> _]. apply bind_Ok in Ha as (? & Hf & Ha). apply fail_if_Ok in Hf. bprop.
    apply Ok_inj in Ha. subst s1. split_and!; try done. intros st Hst. rewrite Hst in *. by bprop.
  - apply bind_Ok in Ha as (st & Hst & Ha). apply ok_or_Ok in Hst. apply bind_Ok in Ha as (? & Hf & Ha). apply fail_if_Ok in Hf. bprop.
    apply Ok_inj in Ha. subst s1. exists st. split_and!; done.
  - apply bind_Ok in Ha as (st & Hst & Ha). apply ok_or_Ok in Hst. apply bind_Ok in Ha as (? & Hf & Ha). apply fail_if_Ok in Hf. bprop.
    apply Ok_inj in Ha. subst s1. exists st. split_and!; done.
Qed.

Lemma event_step_ok s e s' : lease_ok s -> typed_event e -> event_step s e = Ok s' -> lease_ok s'.
Proof.
  intros [He Hg Hn] Ht Hs. destruct (event_step_head _ _ _ Hs) as (_ & _ & Hnow & _). apply event_step_effect in Hs.
  destruct Ht as [_ _ _ Vg Vx Vn]. set (sc := dr_scope (ev_record e)) in *. unfold event_effect in Hs. fold sc in Hs. destruct (ev_operation e); [| |done|].
  - destruct Hs as (_ & _ & _ & _ & E1 & E2 & _). split; rewrite ?E1, ?E2; [| |by rewrite Hnow]; intros sc' x; (destruct (decide (sc' = sc)) as [->|Hne];
      [rewrite !lookup_insert_eq; by intros [= <-]|rewrite !lookup_insert_ne by congruence; first [by apply He | by apply Hg]]).
  - destruct Hs as (st & Hst & _ & Hsg & _ & _ & E1 & E2 & _). split; rewrite ?E1, ?E2; [|done|by rewrite Hnow]. intros sc' x; (destruct (decide (sc' = sc)) as [->|Hne];
      [rewrite lookup_insert_eq; intros [= <-]|rewrite lookup_insert_ne by congruence; by apply He]). destruct (He _ _ Hst) as [-> _]. cbn. by rewrite Hsg.
  - destruct Hs as (st & Hst & _ & _ & _ & E1 & E2 & _). split; rewrite ?E1, ?E2; [|done|by rewrite Hnow]. intros sc' x Hx.
    apply lookup_delete_Some in Hx as [_ Hx]. by apply He.
Qed.

Lemma fresh_ok d : lease_ok (fresh_store d).
Proof. split; cbn; [by intros; rewrite lookup_empty in *|by intros; rewrite lookup_empty in *|done]. Qed.

Lemma event_steps_ok h : forall s s', lease_ok s -> Forall typed_event h -> event_steps s h = Ok s' -> lease_ok s'.
Proof.
  induction h as [|e h IH]; intros s s' Hs Ht Hr; [by apply Ok_inj in Hr; subst|]. apply Forall_cons in Ht as [He Ht].
  unfold event_steps in Hr. cbn [try_fold] in Hr. apply bind_Ok in Hr as (s1 & H1 & Hr). eapply IH; [|done|exact Hr]. by eapply event_step_ok.
Qed.

(** ** One operation *)

(** The event of a request that is recorded. *)
Definition event_of (request : LeaseRequestV1) (new_state : LeaseStateV1) (now_ms : Z) : LeaseEvent :=
  mkEvent (rq_operation request) (operation_tag (rq_operation request))
    (mkDecoded (rq_scope request) (rq_session_id request) (ls_generation new_state) (ls_expires_at_ms new_state) now_ms).

Lemma encode_record_event request new_state now_ms prev : typed_event (event_of request new_state now_ms) ->
  encode_record (rq_operation request) (rq_scope request) (rq_session_id request) (ls_generation new_state) (ls_expires_at_ms new_state) now_ms prev
  = mkEncoded (event_bytes prev (event_of request new_state now_ms)) (event_digest prev (event_of request new_state now_ms)).
Proof.
  intros He. pose proof (payload_length _ He) as Lp. unfold encode_record, event_bytes, record_chunks, event_digest, event_payload, payload_chunks in *.
  cbn [mjoin list_join event_of ev_tag ev_operation ev_record dr_scope dr_session_id dr_generation dr_expires_at_ms dr_observed_now_ms] in *.
  rewrite !app_nil_r in *. rewrite Lp. done.
Qed.

(** The plan of a recorded operation: the lease it applies to, and what is recorded. *)
Lemma plan_recorded s request now_ms new_state : plan_operation s request now_ms = Ok (inr new_state) ->
  let current := entries s !! rq_scope request in
  match rq_operation request with
  | Acquire => ((rq_scope request, rq_session_id request) ∉ seen_sessions s) /\
      (forall st, current = Some st -> ls_expires_at_ms st <= now_ms) /\
      ls_generation new_state = latest_generation s (rq_scope request) + 1 /\ rq_generation request = ls_generation new_state /\
      ls_session_id new_state = rq_session_id request /\ ls_expires_at_ms new_state = now_ms + rq_ttl_ms request /\ now_ms + rq_ttl_ms request <= u64_max
  | Renew => exists st, current = Some st /\ rq_session_id request = ls_session_id st /\ rq_generation request = ls_generation st /\ now_ms < ls_expires_at_ms st /\
      ls_session_id new_state = ls_session_id st /\ ls_generation new_state = ls_generation st /\
      ls_expires_at_ms new_state = now_ms + rq_ttl_ms request /\ now_ms + rq_ttl_ms request <= u64_max
  | Revalidate => False
  | Release => exists st, current = Some st /\ rq_session_id request = ls_session_id st /\ rq_generation request = ls_generation st /\ now_ms < ls_expires_at_ms st /\
      ls_generation new_state = ls_generation st /\ ls_expires_at_ms new_state = 0
  end.
Proof.
  unfold plan_operation, ensure_token_matches. intros Hp. cbn zeta. destruct (rq_operation request).
  - assert (Hfresh : (_ ← fail_if (bool_decide ((rq_scope request, rq_session_id request) ∈ seen_sessions s)) (Rejected LeaseReject.StaleGeneration);
        _ ← fail_if (match entries s !! rq_scope request with Some state => now_ms <? ls_expires_at_ms state | None => false end) (Rejected LeaseReject.AlreadyLeased);
        expected_generation ← ok_or (checked_add u64_max (latest_generation s (rq_scope request)) 1) (Rejected LeaseReject.StaleGeneration);
        _ ← fail_if (rq_generation request <>? expected_generation) (Rejected LeaseReject.StaleGeneration);
        expires_at_ms ← ok_or (checked_add u64_max now_ms (rq_ttl_ms request)) (InvalidRequest "lease TTL overflow");
        Ok (E := PeerLeaseErrorV1) (inr (A := PeerLeaseTokenV1) (mkLeaseState (rq_session_id request) (rq_generation request) expires_at_ms zero32))) = Ok (inr new_state)).
    { destruct (entries s !! rq_scope request) as [st|]; [|done]. destruct (_ && _); [|done]. apply bind_Ok in Hp as (? & _ & Hp). by apply Ok_inj in Hp. }
    clear Hp. apply bind_Ok in Hfresh as (? & H1 & Hp). apply fail_if_Ok in H1. bprop. apply bind_Ok in Hp as (? & H2 & Hp). apply fail_if_Ok in H2.
    apply bind_Ok in Hp as (g & Hg & Hp). apply ok_or_Ok, checked_add_Some in Hg as [-> _]. apply bind_Ok in Hp as (? & H3 & Hp). apply fail_if_Ok in H3. bprop.
    apply bind_Ok in Hp as (xp & Hxp & Hp). apply ok_or_Ok, checked_add_Some in Hxp as [-> Hle]. apply Ok_inj in Hp. injection Hp as <-. cbn.
    split_and!; try done. intros st Hst. rewrite Hst in H2. bprop. done.
  - apply bind_Ok in Hp as (st & Hh & Hp). apply bind_Ok in Hh as (st' & Hc & Hh). apply ok_or_Ok in Hc.
    apply bind_Ok in Hh as (? & Hm & Hh). apply bind_Ok in Hm as (? & Hm & _). apply fail_if_Ok in Hm. bprop. apply bind_Ok in Hh as (? & Hx & Hh). apply fail_if_Ok in Hx. bprop.
    apply Ok_inj in Hh. subst st'. apply bind_Ok in Hp as (xp & Hxp & Hp). apply ok_or_Ok, checked_add_Some in Hxp as [-> Hle]. apply Ok_inj in Hp. injection Hp as <-. cbn.
    exists st. split_and!; done.
  - apply bind_Ok in Hp as (st & Hh & Hp). by apply Ok_inj in Hp.
  - apply bind_Ok in Hp as (st & Hh & Hp). apply bind_Ok in Hh as (st' & Hc & Hh). apply ok_or_Ok in Hc.
    apply bind_Ok in Hh as (? & Hm & Hh). apply bind_Ok in Hm as (? & Hm & _). apply fail_if_Ok in Hm. bprop. apply bind_Ok in Hh as (? & Hx & Hh). apply fail_if_Ok in Hx. bprop.
    apply Ok_inj in Hh. subst st'. apply Ok_inj in Hp. injection Hp as <-. cbn. exists st. split_and!; done.
Qed.

Lemma valid_ttl request : validate_request request = Ok () -> rq_operation request = Acquire \/ rq_operation request = Renew -> MIN_TTL_MS_V1 <= rq_ttl_ms request.
Proof.
  unfold validate_request. intros Hv Ho. apply bind_Ok in Hv as (? & _ & Hv).
  destruct Ho as [Ho|Ho]; rewrite Ho in Hv; apply bind_Ok in Hv as (? & _ & Hv); apply fail_if_Ok in Hv; by bprop.
Qed.

(** A planned operation is an event, and its effect on the tables is the event's. *)
Lemma recorded_step s request now_ms new_state : lease_ok s -> typed_request request -> validate_request request = Ok () -> in_u64 now_ms ->
  last_now_ms s <= now_ms -> record_count s + 1 <= u64_max -> plan_operation s request now_ms = Ok (inr new_state) ->
  let e := event_of request new_state now_ms in
  typed_event e /\ exists s1, event_step s e = Ok s1 /\
    record_applied (rq_operation request) (rq_scope request) (rq_session_id request) new_state (event_digest (last_hash s) e)
      (set_head (event_digest (last_hash s) e) (record_count s + 1) now_ms s) = (Ok (), s1).
Proof.
  intros Hok Hty Hv Hn Hle Hc Hp e. pose proof (plan_recorded _ _ _ _ Hp) as Hplan. pose proof (valid_ttl _ Hv) as Httl. unfold MIN_TTL_MS_V1 in Httl.
  assert (Hg : ls_generation new_state = rq_generation request).
  { destruct (rq_operation request); [by destruct Hplan as (_ & _ & _ & ? & _)|destruct Hplan as (st & _ & _ & ? & _ & _ & ? & _); congruence|done|
      destruct Hplan as (st & _ & _ & ? & _ & ? & _); congruence]. }
  assert (Hx : in_u64 (ls_expires_at_ms new_state)).
  { unfold in_u64 in *. destruct (rq_operation request); [destruct Hplan as (_ & _ & _ & _ & _ & -> & ?)|destruct Hplan as (st & _ & _ & _ & _ & _ & _ & -> & ?)|done|
      destruct Hplan as (st & _ & _ & _ & _ & _ & ->)]; destruct Hty as [_ _ _ _ [? ?] _]; unfold u64_max in *; lia. }
  assert (Hcc : checked_add u64_max (record_count s) 1 = Some (record_count s + 1)) by (unfold checked_add; by rewrite (proj2 (Z.leb_le _ _))).
  assert (Hte : typed_event e) by (split; cbn; try apply Hty; try done; [by rewrite operation_tags|rewrite Hg; apply Hty]).
  split; [done|]. unfold event_step. cbn [ev_record e event_of dr_observed_now_ms]. rewrite (proj2 (Z.ltb_ge _ _)) by lia. cbn [fail_if mbind result_bind].
  unfold apply_replayed, record_applied. cbn [ev_operation ev_record e event_of dr_scope dr_session_id dr_generation dr_expires_at_ms dr_observed_now_ms].
  cbv [mbind SE_bind get_self modify_self]. destruct (rq_operation request) eqn:Hop.
  - destruct Hplan as (Hns & Hex & Hgen & _ & Hses & Hexp & Hmax). assert (Hca : checked_add u64_max (latest_generation s (rq_scope request)) 1 = Some (latest_generation s (rq_scope request) + 1)).
    { unfold checked_add. rewrite (proj2 (Z.leb_le _ _)); [done|]. rewrite <- Hgen. by destruct (te_generation _ Hte). }
    rewrite Hca. cbn [ok_or result_bind]. rewrite (bool_decide_eq_true_2 _ Hgen), (bool_decide_eq_false_2 _ Hns).
    assert (match entries s !! rq_scope request with Some state => now_ms <? ls_expires_at_ms state | None => false end = false) as ->.
    { destruct (entries s !! _) as [st|] eqn:Hst; [|done]. apply Z.ltb_ge. auto. }
    rewrite (proj2 (Z.leb_gt _ _)) by (specialize (Httl (or_introl eq_refl)); lia). cbn [negb orb fail_if result_bind].
    cbn [record_count set_entries set_seen_sessions set_generations]. rewrite Hcc. cbn [ok_or result_bind].
    rewrite Hses. eexists. split; reflexivity.
  - destruct Hplan as (st & Hst & Hrs & Hrg & Hlt & Hses & Hgen & Hexp & Hmax). rewrite Hst. cbn [ok_or result_bind].
    rewrite !bool_decide_true by congruence. rewrite !(proj2 (Z.leb_gt _ _)) by (specialize (Httl (or_intror eq_refl)); lia). cbn [negb orb fail_if result_bind].
    cbn [record_count set_entries]. rewrite Hcc. cbn [ok_or result_bind].
    rewrite Hses, <- Hrs. eexists. split; reflexivity.
  - done.
  - destruct Hplan as (st & Hst & Hrs & Hrg & Hlt & Hgen & Hexp). rewrite Hst. cbn [ok_or result_bind].
    rewrite !bool_decide_true by congruence. rewrite (proj2 (Z.eqb_neq _ _)) by (destruct Hn; lia). rewrite (proj2 (Z.leb_gt _ _)) by lia. cbn [negb orb fail_if result_bind].
    cbn [record_count set_entries]. rewrite Hcc. cbn [ok_or result_bind].
    eexists. split; [reflexivity|]. destruct (lo_entry _ Hok _ _ Hst) as [Hgs _]. rewrite Hgen. cbn [generations set_entries set_head].
    unfold set_generations, set_entries, set_head. cbn. by rewrite insert_id.
Qed.

Definition recordable (s : PeerLeaseStoreV1) (request : LeaseRequestV1) (now_ms : Z) (e : LeaseEvent) : Prop :=
  exists new_state, plan_operation s request now_ms = Ok (inr new_state) /\ e = event_of request new_state now_ms.

(** How an operation on a live store ends. *)
Inductive outcome (s : PeerLeaseStoreV1) (request : LeaseRequestV1) (now_ms : Z) : LResult PeerLeaseTokenV1 -> PeerLeaseStoreV1 -> Prop :=
| outcome_refused e : outcome s request now_ms (Err e) (set_last_observed_now_ms now_ms s)
| outcome_held token : plan_operation s request now_ms = Ok (inl token) ->
    outcome s request now_ms (Ok token) (set_last_observed_now_ms now_ms s)
| outcome_torn e s1 k : recordable s request now_ms e -> typed_event e -> event_step s e = Ok s1 ->
    zlen (d_journal (disk s)) + RECORD_BYTES <= MAX_JOURNAL_BYTES_V1 ->
    outcome s request now_ms (Err Io)
      (set_poisoned true (append_bytes (take k (event_bytes (last_hash s) e)) (set_last_observed_now_ms now_ms s)))
| outcome_recorded e s1 : recordable s request now_ms e -> typed_event e -> event_step s e = Ok s1 ->
    zlen (d_journal (disk s)) + RECORD_BYTES <= MAX_JOURNAL_BYTES_V1 ->
    outcome s request now_ms
      (Ok (mkToken (rq_scope request) (rq_session_id request) (dr_generation (ev_record e)) (dr_expires_at_ms (ev_record e)) (last_hash s1)))
      (set_disk (mkDisk (d_journal (disk s) ++ event_bytes (last_hash s) e) (Some (encode_head (record_count s1) (last_hash s1))) (d_temp (disk s)))
        (set_last_observed_now_ms now_ms s1))
| outcome_unpublished e s1 d : recordable s request now_ms e -> typed_event e -> event_step s e = Ok s1 ->
    zlen (d_journal (disk s)) + RECORD_BYTES <= MAX_JOURNAL_BYTES_V1 ->
    d_journal d = d_journal (disk s) ++ event_bytes (last_hash s) e ->
    (d_anchor d = d_anchor (disk s) \/ d_anchor d = Some (encode_head (record_count s1) (last_hash s1))) ->
    outcome s request now_ms (Err Io) (set_poisoned true (set_disk d (set_last_observed_now_ms now_ms s1))).

Lemma record_applied_graft op sc ses ns hash t s : record_applied op sc ses ns hash (graft t s)
  = let '(r, s') := record_applied op sc ses ns hash s in (r, graft t s').
Proof. by destruct op. Qed.

Lemma graft_set t s : poisoned s = poisoned t -> graft t s = set_disk (disk t) (set_last_observed_now_ms (last_observed_now_ms t) s).
Proof. unfold graft, set_disk, set_last_observed_now_ms. cbn. by intros ->. Qed.

Lemma validate_not_panic request : validate_request request <> Panic.
Proof. unfold validate_request. no_panic. destruct (rq_operation request); no_panic. Qed.

Lemma plan_not_panic s request now_ms : plan_operation s request now_ms <> Panic.
Proof.
  unfold plan_operation, ensure_token_matches. destruct (rq_operation request); [|no_panic..].
  destruct (entries s !! _); [|no_panic]. destruct (_ && _); no_panic.
Qed.

Lemma apply_outcome faults request now_ms s r s' : lease_ok s -> bytes32 (last_hash s) -> poisoned s = false -> last_observed_now_ms s <= now_ms ->
  last_now_ms s <= now_ms -> typed_request request -> in_u64 now_ms -> apply faults request now_ms s = (r, s') -> outcome s request now_ms r s'.
Proof.
  intros Hok Hh Hpz Hobs Hle Hty Hn. unfold apply. cbv [mbind SE_bind get_self]. rewrite Hpz, (proj2 (Z.ltb_ge _ _)) by lia.
  cbv [modify_self lift]. pose proof (validate_not_panic request) as Hvp. destruct (validate_request request) as [[]|e|] eqn:Hv; [|by intros [= <- <-]; constructor|done].
  pose proof (plan_not_panic s request now_ms) as Hpp.
  destruct (plan_operation s request now_ms) as [[token|new_state]|e|] eqn:Hp; [by intros [= <- <-]; constructor| |by intros [= <- <-]; constructor|done].
  destruct (checked_add u64_max (record_count s) 1) as [n|] eqn:Hc; [|intros [= <- <-]; constructor]. apply checked_add_Some in Hc as [-> Hmax]. cbn [ok_or].
  destruct (recorded_step s request now_ms new_state Hok Hty Hv Hn Hle Hmax Hp) as (Hte & s1 & Hs1 & Hra). rewrite encode_record_event by done. cbn [er_digest er_bytes].
  set (e := event_of request new_state now_ms) in *. pose proof (event_bytes_length _ _ Hh Hte) as Le.
  destruct (io_metadata faults); cbn [fail_if]; [intros [= <- <-]; constructor|].
  destruct (checked_add u64_max (zlen (d_journal (disk s))) _) as [pb|] eqn:Hpb; [|intros [= <- <-]; constructor]. apply checked_add_Some in Hpb as [-> _]. cbn [ok_or].
  destruct (MAX_JOURNAL_BYTES_V1 <? _) eqn:Hbig; cbn [fail_if]; [intros [= <- <-]; constructor|]. bprop. rewrite Le in Hbig.
  assert (Hrec : recordable s request now_ms e) by (exists new_state; done).
  set (s0 := set_last_observed_now_ms now_ms s). unfold write_record, poison. cbv [mbind SE_bind modify_self lift mret SE_ret get_self set_self].
  destruct (io_write faults) as [k|]; [by intros [= <- <-]; apply (outcome_torn s request now_ms e s1)|].
  destruct (io_sync faults) as [k|]; [by intros [= <- <-]; apply (outcome_torn s request now_ms e s1)|].
  destruct (io_sync_dir faults).
  { intros [= <- <-]. pose proof (outcome_torn s request now_ms e s1 (length (event_bytes (last_hash s) e)) Hrec Hte Hs1 Hbig) as Ho. by rewrite firstn_all in Ho. }
  destruct (event_step_head _ _ _ Hs1) as (Hl & Hcnt & _ & _ & Hd & _ & Hpo).
  set (t := append_bytes (event_bytes (last_hash s) e) s0).
  change (set_head _ _ _ t) with (graft t (set_head (event_digest (last_hash s) e) (record_count s + 1) now_ms s)).
  rewrite record_applied_graft, Hra. rewrite graft_set by (cbn; congruence). unfold persist_anchor. cbv [mbind SE_bind modify_self lift get_self].
  cbn [disk set_disk record_count last_hash set_last_observed_now_ms].
  assert (Htok : (if rq_operation request =?? Release then 0 else ls_expires_at_ms new_state) = dr_expires_at_ms (ev_record e)).
  { pose proof (plan_recorded _ _ _ _ Hp) as Hplan. case_bool_decide as Hop; [|done]. rewrite Hop in Hplan. destruct Hplan as (st & _ & _ & _ & _ & _ & Hexp). cbn. congruence. }
  destruct (io_anchor faults) as [[| |]|].
  - intros [= <- <-]. by apply (outcome_unpublished s request now_ms e s1 (disk t)); auto.
  - intros [= <- <-]. by apply (outcome_unpublished s request now_ms e s1 (mkDisk (d_journal (disk t)) (d_anchor (disk t)) true)); auto.
  - intros [= <- <-]. by apply (outcome_unpublished s request now_ms e s1 (mkDisk (d_journal (disk t)) (Some (encode_head (record_count s1) (last_hash s1))) (d_temp (disk t)))); auto.
  - intros [= <- <-]. rewrite Htok, <- Hl. exact (outcome_recorded s request now_ms e s1 Hrec Hte Hs1 Hbig).
Qed.

End runs.
