(* ===== verification/PeerLeaseTheorems.v ===== *)
(** * PeerLeaseTheorems: durability and exclusiveness of leases

    The process is down, with two files on disk, or up, with a store over them.
    It runs operations and is reopened; every call to the file system may fail and
    leave part of its work.  The files hold a history of events, which only grows,
    and what was acknowledged is in it. *)

From stdpp Require Import base gmap list sorting strings.
From S2P Require Import Prelude Crypto ByteReader PeerLease PeerLeaseJournal PeerLeaseRuns.

Inductive process := Down (d : Disk) | Up (s : PeerLeaseStoreV1).
Definition disk_of (p : process) : Disk := match p with Down d => d | Up s => disk s end.

Definition genesis : PeerLeaseStoreV1 := fresh_store empty_disk.

Section theorems.
Context `{CryptoCrates, !DigestWidth}.

(** The tokens of a history: one per event, with the digest of its record. *)
Definition token_of (prev : Bytes32) (e : LeaseEvent) : PeerLeaseTokenV1 :=
  let r := ev_record e in mkToken (dr_scope r) (dr_session_id r) (dr_generation r) (dr_expires_at_ms r) (event_digest prev e).
Fixpoint tokens (prev : Bytes32) (h : list LeaseEvent) : list PeerLeaseTokenV1 :=
  match h with
  | [] => []
  | e :: h => token_of prev e :: tokens (event_digest prev e) h
  end.

Lemma tokens_app h1 h2 : forall p, tokens p (h1 ++ h2) = tokens p h1 ++ tokens (head_digest p h1) h2.
Proof. induction h1 as [|e h1 IH]; intros p; [done|]. cbn. by rewrite IH. Qed.

(** What the files of the authority can hold: the records of a history, perhaps a torn
    record after them, and the published head of a prefix. *)
Inductive torn_tail (s : PeerLeaseStoreV1) : list Z -> Prop :=
| torn_none : torn_tail s []
| torn_part e k : typed_event e -> (0 < k < 236)%nat -> torn_tail s (take k (event_bytes (last_hash s) e)).

Record durable (h : list LeaseEvent) (sh : PeerLeaseStoreV1) (d : Disk) : Prop := {
  du_typed : Forall typed_event h;
  du_steps : event_steps genesis h = Ok sh;
  du_journal : exists torn, torn_tail sh torn /\ d_journal d = journal_bytes zero32 h ++ torn;
  du_size : zlen h * RECORD_BYTES <= MAX_JOURNAL_BYTES_V1;
  du_anchor : match d_anchor d with
    | None => h = [] /\ d_journal d = []
    | Some b => exists h1 h2, h = h1 ++ h2 /\ b = encode_head (zlen h1) (head_digest zero32 h1)
    end;
}.

(** A store that accepts operations. *)
Record live (h : list LeaseEvent) (sh s : PeerLeaseStoreV1) : Prop := {
  lv_durable : durable h sh (disk s);
  lv_journal : d_journal (disk s) = journal_bytes zero32 h;
  lv_anchor : d_anchor (disk s) = Some (encode_head (record_count s) (last_hash s));
  lv_temp : d_temp (disk s) = false;
  lv_authority : authority s = authority sh;
  lv_observed : last_now_ms s <= last_observed_now_ms s;
  lv_poisoned : poisoned s = false;
}.

(** ** Facts about histories *)

Lemma genesis_head h sh : event_steps genesis h = Ok sh -> last_hash sh = head_digest zero32 h /\ record_count sh = zlen h.
Proof. intros Hs. destruct (event_steps_head _ _ _ Hs) as (-> & -> & _). done. Qed.

Lemma genesis_width h sh : event_steps genesis h = Ok sh -> bytes32 (last_hash sh).
Proof. apply event_steps_width, zero32_width. Qed.

Lemma prefix_head h1 h2 sh : event_steps genesis (h1 ++ h2) = Ok sh -> bytes32 (head_digest zero32 h1).
Proof.
  rewrite event_steps_app. intros Hs. apply bind_Ok in Hs as (s1 & H1 & _). destruct (genesis_head _ _ H1) as [<- _]. by eapply genesis_width.
Qed.

Lemma authority_fields s t : authority s = authority t ->
  entries s = entries t /\ generations s = generations t /\ seen_sessions s = seen_sessions t /\ last_hash s = last_hash t /\
  record_count s = record_count t /\ last_now_ms s = last_now_ms t.
Proof. by intros [= -> -> -> -> -> ->]. Qed.

Lemma lease_ok_authority s t : authority s = authority t -> lease_ok t -> lease_ok s.
Proof. intros Ha [H1 H2 H3]. apply authority_fields in Ha as (E1 & E2 & _ & _ & _ & E6). split; rewrite ?E1, ?E2, ?E6; done. Qed.

Lemma live_ok h sh s : live h sh s -> lease_ok s /\ bytes32 (last_hash s) /\ in_u64 (record_count s).
Proof.
  intros [Hd _ _ _ Ha _ _]. pose proof (event_steps_ok _ _ _ (fresh_ok _) (du_typed _ _ _ Hd) (du_steps _ _ _ Hd)) as Hok.
  pose proof (genesis_width _ _ (du_steps _ _ _ Hd)) as Hw. destruct (genesis_head _ _ (du_steps _ _ _ Hd)) as [_ Hc].
  destruct (authority_fields _ _ Ha) as (_ & _ & _ & -> & -> & _). split_and!; [by eapply lease_ok_authority|done|].
  rewrite Hc. pose proof (du_size _ _ _ Hd). pose proof (zlen_nonneg h). unfold in_u64, u64_max, RECORD_BYTES, MAX_JOURNAL_BYTES_V1 in *. lia.
Qed.

Lemma torn_short h sh e k : event_steps genesis h = Ok sh -> typed_event e -> (k < 236)%nat ->
  zlen (take k (event_bytes (last_hash sh) e)) = Z.of_nat k.
Proof.
  intros Hs He Hk. pose proof (event_bytes_length _ _ (genesis_width _ _ Hs) He) as Le. unfold zlen, RECORD_BYTES in *. rewrite length_take. lia.
Qed.

(** ** Reopening *)

(** The journal of a durable history replays to its tables; a torn record is refused. *)
Lemma replay_durable h sh d : durable h sh d ->
  (d_journal d = journal_bytes zero32 h /\ replay (d_journal d) (fresh_store d) = Ok (graft (fresh_store d) sh)) \/
  (d_journal d <> journal_bytes zero32 h /\ replay (d_journal d) (fresh_store d) = Err corrupt).
Proof.
  intros [Ht Hs (torn & Htorn & Hj) _ _]. change (fresh_store d) with (graft (fresh_store d) genesis).
  assert (Hg : event_steps (graft (fresh_store d) genesis) h = Ok (graft (fresh_store d) sh)) by (rewrite event_steps_graft, Hs; done).
  destruct Htorn as [|e k He Hk].
  - left. rewrite app_nil_r in Hj. split; [done|]. rewrite Hj. pose proof (replay_history h (graft (fresh_store d) genesis) zero32_width Ht) as Hr.
    change (last_hash (graft (fresh_store d) genesis)) with zero32 in Hr. by rewrite Hr.
  - right. pose proof (torn_short h sh e k Hs He ltac:(lia)) as Lt. split.
    + rewrite Hj. intros Heq. apply (f_equal zlen) in Heq. rewrite zlen_app in Heq. lia.
    + rewrite Hj. pose proof (replay_torn_history h (graft (fresh_store d) genesis) _ e k zero32_width Ht He Hk Hg) as Hr. exact Hr.
Qed.

Definition published (s : PeerLeaseStoreV1) : Disk :=
  mkDisk (d_journal (disk s)) (Some (encode_head (record_count s) (last_hash s))) (d_temp (disk s)).

Lemma persist_anchor_cases fault s r s' : persist_anchor fault s = (r, s') ->
  (r = Ok () /\ fault = None /\ s' = set_disk (published s) s) \/
  (r = Err Io /\ fault <> None /\ exists d, s' = set_disk d s /\ d_journal d = d_journal (disk s) /\ (d_anchor d = d_anchor (disk s) \/ d_anchor d = d_anchor (published s))).
Proof.
  unfold persist_anchor. cbv [mbind SE_bind get_self modify_self lift]. destruct fault as [[| |]|]; intros [= <- <-]; [right..|by left].
  - split_and!; [done..|]. exists (disk s). split_and!; [by destruct s|done|by left].
  - split_and!; [done..|]. eexists. split_and!; [done|done|by left].
  - split_and!; [done..|]. eexists. split_and!; [done|done|by right].
Qed.

(** The published head is brought to the end of the history, or nothing but the head changes. *)
Lemma reconcile_cases h sh fault s r s' : durable h sh (disk s) -> authority s = authority sh -> reconcile_anchor fault s = (r, s') ->
  (r = Ok () /\ s' = set_disk (published s) s) \/
  ((exists e, r = Err e) /\ exists d, s' = set_disk d s /\ d_journal d = d_journal (disk s) /\ (d_anchor d = d_anchor (disk s) \/ d_anchor d = d_anchor (published s))).
Proof.
  intros [Ht Hs _ Hsz Ha] Hau. destruct (authority_fields _ _ Hau) as (_ & _ & _ & Eh & Ec & _). destruct (genesis_head _ _ Hs) as [Fh Fc].
  assert (Hsame : forall e, exists d, s = set_disk d s /\ d_journal d = d_journal (disk s) /\ (d_anchor d = d_anchor (disk s) \/ d_anchor d = e)).
  { intros e. exists (disk s). split_and!; [by destruct s|done|by left]. }
  assert (Hpersist : forall f, persist_anchor f s = (r, s') ->
    (r = Ok () /\ s' = set_disk (published s) s) \/
    ((exists e, r = Err e) /\ exists d, s' = set_disk d s /\ d_journal d = d_journal (disk s) /\ (d_anchor d = d_anchor (disk s) \/ d_anchor d = d_anchor (published s)))).
  { intros f Hp. apply persist_anchor_cases in Hp as [(-> & _ & ->)|(-> & _ & Hp)]; [by left|right]. split; [by eexists|done]. }
  unfold reconcile_anchor. cbv [mbind SE_bind get_self lift mret SE_ret]. unfold read_private_anchor. destruct (d_anchor (disk s)) as [b|] eqn:Hb.
  - destruct Ha as (h1 & h2 & -> & ->). pose proof (prefix_head _ _ _ Hs) as Hw. unfold zlen in Hsz. rewrite length_app in Hsz.
    destruct (decode_encode_head (zlen h1) (head_digest zero32 h1)) as [Ll Hdec]; [|done|].
    { unfold in_u64, u64_max, RECORD_BYTES, MAX_JOURNAL_BYTES_V1, zlen in *. lia. }
    rewrite Ll, bool_decide_true by done. cbn [negb fail_if mbind result_bind]. rewrite Hdec. destruct (Bool.eqb _ _); [|intros [= <- <-]; right; split; [by eexists|apply Hsame]].
    destruct (_ <? zlen h1) eqn:Hlt; cbn [fail_if]; [intros [= <- <-]; right; split; [by eexists|apply Hsame]|].
    destruct (_ && _) eqn:Heq; cbn [fail_if]; [intros [= <- <-]; right; split; [by eexists|apply Hsame]|].
    destruct (zlen h1 <? _) eqn:Hlt2; [apply Hpersist|]. intros [= <- <-]. left. split; [done|]. bprop.
    assert (h2 = []) as ->. { rewrite Ec, Fc, zlen_app in *. unfold zlen in *. destruct h2; [done|cbn in *; lia]. }
    rewrite app_nil_r in *. unfold published. rewrite Ec, Eh, Fc, Fh, <- Hb. by destruct s as [[]].
  - cbn [fail_if mbind result_bind]. destruct (_ <>? 0); cbn [fail_if]; [intros [= <- <-]; right; split; [by eexists|apply Hsame]|apply Hpersist].
Qed.

Lemma durable_republish h sh s d : durable h sh (disk s) -> authority s = authority sh -> d_journal d = d_journal (disk s) ->
  d_anchor d = d_anchor (disk s) \/ d_anchor d = d_anchor (published s) -> durable h sh d.
Proof.
  intros [Ht Hs Hj Hsz Ha] Hau Ej Ea. split; [done|done|by rewrite Ej|done|]. destruct Ea as [->| ->]; [by rewrite Ej|]. cbn.
  destruct (authority_fields _ _ Hau) as (_ & _ & _ & -> & -> & _). destruct (genesis_head _ _ Hs) as [-> ->]. exists h, []. by rewrite app_nil_r.
Qed.

(** Opening the files of a history gives a live store over that history, or refuses and
    leaves the history as it is. *)
Lemma open_durable h sh fault d r d' : durable h sh d -> open fault d = (r, d') ->
  durable h sh d' /\ match r with Ok s => disk s = d' /\ live h sh s | Err _ => True | Panic => False end.
Proof.
  intros Hd. unfold open. destruct (d_temp d) eqn:Htemp; cbn [fail_if mbind result_bind]; [by intros [= <- <-]|].
  destruct (_ <? zlen _) eqn:Hsz; cbn [fail_if mbind result_bind]; [by intros [= <- <-]|].
  destruct (replay_durable _ _ _ Hd) as [[Hj ->]|[_ ->]]; cbn [mbind result_bind]; [|by intros [= <- <-]].
  set (s := set_last_observed_now_ms _ _). assert (Hau : authority s = authority sh) by done. assert (Hds : disk s = d) by done.
  destruct (reconcile_anchor fault s) as [r1 s1] eqn:Hr. rewrite <- Hds in Hd. destruct (reconcile_cases _ _ _ _ _ _ Hd Hau Hr) as [[-> ->]|[[e ->] (d1 & -> & Ej & Ea)]].
  - intros [= <- <-]. assert (durable h sh (disk (set_disk (published s) s))) by (eapply durable_republish; [done|done|done|by right]).
    split; [done|]. split; [done|]. split; done.
  - intros [= <- <-]. split; [|done]. by eapply durable_republish.
Qed.

(** Without a fault, the files of a live store reopen to the same authority. *)
Lemma open_live h sh s : live h sh s -> record_count s = 0 \/ last_hash s <> zero32 ->
  exists t, open None (disk s) = (Ok t, disk s) /\ authority t = authority s /\ live h sh t.
Proof.
  intros Hl Hz. pose proof (live_ok _ _ _ Hl) as (_ & Hw & Hc). destruct Hl as [Hd Hj Ha Ht Hau _ _]. destruct (authority_fields _ _ Hau) as (_ & _ & _ & Eh & Ec & _).
  destruct (open None (disk s)) as [r d'] eqn:Ho. pose proof (open_durable _ _ _ _ _ _ Hd Ho) as [Hd' Hr]. revert Ho. unfold open.
  rewrite Ht. cbn [fail_if mbind result_bind]. rewrite (proj2 (Z.ltb_ge _ _)).
  2: { rewrite Hj, journal_length by (apply zero32_width || apply Hd). pose proof (du_size _ _ _ Hd). lia. }
  cbn [fail_if mbind result_bind]. destruct (replay_durable _ _ _ Hd) as [[_ ->]|[Hn _]]; [|done]. cbn [mbind result_bind].
  set (t := set_last_observed_now_ms _ _). unfold reconcile_anchor. cbv [mbind SE_bind get_self lift mret SE_ret]. unfold read_private_anchor.
  change (disk t) with (disk s). rewrite Ha. destruct (decode_encode_head _ _ Hc Hw) as [Ll Hdec]. rewrite Ll, bool_decide_true by done. cbn [negb fail_if mbind result_bind].
  rewrite Hdec. assert (Bool.eqb (record_count s =? 0) (last_hash s =?? zero32) = true) as ->.
  { destruct (genesis_head _ _ (du_steps _ _ _ Hd)) as [Fh Fc]. destruct Hz as [Hz|Hz].
    - rewrite Hz. rewrite Hz in Ec. rewrite <- Ec in Fc. assert (h = []) as -> by (by destruct h). rewrite bool_decide_true by (rewrite Eh, Fh; done). done.
    - rewrite (bool_decide_eq_false_2 _ Hz), (proj2 (Z.eqb_neq _ _)); [done|]. intros Hz0. apply Hz. rewrite Ec, Fc in Hz0. assert (h = []) as -> by (by destruct h). rewrite Eh, Fh. done. }
  change (record_count t) with (record_count sh). change (last_hash t) with (last_hash sh). rewrite <- Ec, <- Eh, Z.ltb_irrefl. cbn [fail_if].
  rewrite Z.eqb_refl, (bool_decide_eq_true_2 (last_hash s = last_hash s) eq_refl). cbn [negb andb fail_if]. change (disk t) with (disk s).
  intros [= <- <-]. exists t. split_and!; [done|by rewrite Hau|apply Hr].
Qed.

(** ** Operations *)

Lemma history_snoc h sh s e s1 : event_steps genesis h = Ok sh -> authority s = authority sh -> event_step s e = Ok s1 ->
  event_steps genesis (h ++ [e]) = Ok (graft sh s1).
Proof.
  intros Hs Ha He. rewrite event_steps_app, Hs. cbn [mbind result_bind event_steps try_fold]. unfold event_steps. cbn [try_fold].
  rewrite (event_step_authority sh s e s1) by done. done.
Qed.

Lemma durable_snoc h sh s e s1 d : live h sh s -> typed_event e -> event_step s e = Ok s1 ->
  zlen (d_journal (disk s)) + RECORD_BYTES <= MAX_JOURNAL_BYTES_V1 ->
  d_journal d = d_journal (disk s) ++ event_bytes (last_hash s) e ->
  d_anchor d = d_anchor (disk s) \/ d_anchor d = Some (encode_head (record_count s1) (last_hash s1)) ->
  durable (h ++ [e]) (graft sh s1) d.
Proof.
  intros [Hd Hj Ha _ Hau _ _] He Hs1 Hsz Ej Ea. destruct (authority_fields _ _ Hau) as (_ & _ & _ & Eh & _ & _).
  pose proof (history_snoc _ _ _ _ _ (du_steps _ _ _ Hd) Hau Hs1) as Hs'. destruct (genesis_head _ _ (du_steps _ _ _ Hd)) as [Fh Fc].
  destruct (genesis_head _ _ Hs') as [Gh Gc]. cbn in Gh, Gc. split.
  - apply Forall_app. split; [apply Hd|by apply Forall_singleton].
  - done.
  - exists []. split; [constructor|]. rewrite Ej, Hj, journal_bytes_app. cbn [journal_bytes]. by rewrite !app_nil_r, Eh, Fh.
  - rewrite Hj, journal_length in Hsz by (apply zero32_width || apply Hd). rewrite zlen_snoc. lia.
  - destruct Ea as [->| ->]; [|exists (h ++ [e]), []; by rewrite app_nil_r, Gh, Gc]. pose proof (du_anchor _ _ _ Hd) as Hda. rewrite Ha in *.
    destruct Hda as (h1 & h2 & -> & ->). exists h1, (h2 ++ [e]). by rewrite <- app_assoc.
Qed.

Lemma durable_torn h sh s e k d : live h sh s -> typed_event e -> zlen (d_journal (disk s)) + RECORD_BYTES <= MAX_JOURNAL_BYTES_V1 -> (k < 236)%nat ->
  d_journal d = d_journal (disk s) ++ take k (event_bytes (last_hash s) e) -> d_anchor d = d_anchor (disk s) -> durable h sh d.
Proof.
  intros [Hd Hj Ha _ Hau _ _] He Hsz Hk Ej Ea. destruct (authority_fields _ _ Hau) as (_ & _ & _ & Eh & _ & _). split; [apply Hd|apply Hd| |apply Hd|].
  - exists (take k (event_bytes (last_hash s) e)). rewrite Ej, Hj. split; [|done]. rewrite Eh. destruct k; [constructor|by apply torn_part; [|lia]].
  - pose proof (du_anchor _ _ _ Hd) as Hda. by rewrite Ea, Ha in *.
Qed.

(** The tables after an event: the lease of its scope is replaced or removed, and an
    acquisition also records its generation and its session. *)
Definition lease_of (prev : Bytes32) (e : LeaseEvent) : LeaseStateV1 :=
  let r := ev_record e in mkLeaseState (dr_session_id r) (dr_generation r) (dr_expires_at_ms r) (event_digest prev e).

Lemma event_step_tables s e s' : event_step s e = Ok s' ->
  let r := ev_record e in
  entries s' = (if ev_operation e =?? Release then delete (dr_scope r) (entries s) else <[dr_scope r := lease_of (last_hash s) e]> (entries s)) /\
  ((ev_operation e = Acquire /\ dr_generation r = latest_generation s (dr_scope r) + 1 /\ generations s' = <[dr_scope r := dr_generation r]> (generations s) /\
      seen_sessions s' = {[(dr_scope r, dr_session_id r)]} ∪ seen_sessions s) \/
   (exists st, entries s !! dr_scope r = Some st /\ ls_session_id st = dr_session_id r /\ ls_generation st = dr_generation r /\
      generations s' = generations s /\ seen_sessions s' = seen_sessions s)).
Proof.
  intros Hs r. apply event_step_effect in Hs. unfold event_effect in Hs. fold r in Hs. destruct (ev_operation e); [| |done|].
  - destruct Hs as (? & _ & _ & _ & ? & ? & ?). rewrite bool_decide_false by done. split; [done|left; done].
  - destruct Hs as (st & ? & ? & ? & _ & _ & ? & ? & ?). rewrite bool_decide_false by done. split; [done|right; by exists st].
  - destruct Hs as (st & ? & ? & ? & _ & ? & ? & ?). rewrite bool_decide_true by done. split; [done|right; by exists st].
Qed.

(** The tables hold tokens of the history. *)
Lemma entry_token h : forall sh, event_steps genesis h = Ok sh -> forall sc st, entries sh !! sc = Some st -> lease_token sc st ∈ tokens zero32 h.
Proof.
  induction h as [|e h IH] using rev_ind; intros sh Hs sc st Hst; [apply Ok_inj in Hs; subst sh; by cbn in Hst; rewrite lookup_empty in Hst|].
  rewrite event_steps_app in Hs. apply bind_Ok in Hs as (s1 & H1 & Hs). unfold event_steps in Hs. cbn [try_fold] in Hs. apply bind_Ok in Hs as (s2 & H2 & Hs).
  apply Ok_inj in Hs. subst s2. specialize (IH _ H1). rewrite tokens_app. cbn [tokens]. destruct (genesis_head _ _ H1) as [<- _].
  destruct (event_step_tables _ _ _ H2) as [E _]. rewrite E in Hst. apply elem_of_app. case_bool_decide.
  - apply lookup_delete_Some in Hst as [_ Hst]. left. auto.
  - apply lookup_insert_Some in Hst as [[<- <-]|[_ Hst]]; [right; by apply list_elem_of_singleton|left; auto].
Qed.

(** A token that is answered without a record is the lease in force. *)
Lemma plan_held s request now_ms token : plan_operation s request now_ms = Ok (inl token) ->
  active_lease s (rq_scope request) = Some token /\ now_ms < tk_expires_at_ms token /\ tk_scope token = rq_scope request /\
  tk_session_id token = rq_session_id request /\ tk_generation token = rq_generation request /\ rq_operation request <> Release.
Proof.
  unfold plan_operation, ensure_token_matches, active_lease. destruct (rq_operation request).
  - destruct (entries s !! rq_scope request) as [st|].
    2: { intros Hp. repeat (apply bind_Ok in Hp as (? & _ & Hp)). by apply Ok_inj in Hp. }
    destruct (_ && _) eqn:Hm.
    + bprop. intros Hp. apply bind_Ok in Hp as (? & Hx & Hp). apply fail_if_Ok in Hx. bprop. apply Ok_inj in Hp. injection Hp as <-. cbn. by split_and!.
    + intros Hp. repeat (apply bind_Ok in Hp as (? & _ & Hp)). by apply Ok_inj in Hp.
  - intros Hp. apply bind_Ok in Hp as (? & _ & Hp). apply bind_Ok in Hp as (? & _ & Hp). by apply Ok_inj in Hp.
  - intros Hp. apply bind_Ok in Hp as (st & Hh & Hp). apply bind_Ok in Hh as (st' & Hc & Hh). apply ok_or_Ok in Hc.
    apply bind_Ok in Hh as (? & Hm & Hh). apply bind_Ok in Hm as (? & Hm & _). apply fail_if_Ok in Hm. bprop.
    apply bind_Ok in Hh as (? & Hx & Hh). apply fail_if_Ok in Hx. bprop. apply Ok_inj in Hh. subst st'. apply Ok_inj in Hp. injection Hp as <-. rewrite Hc. cbn. by split_and!.
  - intros Hp. apply bind_Ok in Hp as (? & _ & Hp). by apply Ok_inj in Hp.
Qed.

(** The lease in force after a recorded event. *)
Lemma recorded_active s e s1 : event_step s e = Ok s1 ->
  active_lease s1 (dr_scope (ev_record e)) = if ev_operation e =?? Release then None else Some (token_of (last_hash s) e).
Proof.
  intros Hs. destruct (event_step_tables _ _ _ Hs) as [E _]. unfold active_lease. rewrite E. case_bool_decide; [by rewrite lookup_delete_eq|by rewrite lookup_insert_eq].
Qed.

Lemma event_step_latest s e s1 : lease_ok s -> event_step s e = Ok s1 -> latest_generation s1 (dr_scope (ev_record e)) = dr_generation (ev_record e).
Proof.
  intros Hok Hs. destruct (event_step_tables _ _ _ Hs) as [_ [(_ & _ & E & _)|(st & Hst & _ & <- & E & _)]]; unfold latest_generation; rewrite E;
    [by rewrite lookup_insert_eq|]. by destruct (lo_entry _ Hok _ _ Hst) as [-> _].
Qed.

Lemma active_latest s sc token : lease_ok s -> active_lease s sc = Some token -> latest_generation s sc = tk_generation token.
Proof.
  intros Hok. unfold active_lease, latest_generation. destruct (entries s !! sc) as [st|] eqn:Hst; [|done]. intros [= <-].
  by destruct (lo_entry _ Hok _ _ Hst) as [-> _].
Qed.

Lemma recordable_event s request now_ms e : recordable s request now_ms e ->
  ev_operation e = rq_operation request /\ dr_scope (ev_record e) = rq_scope request /\ dr_session_id (ev_record e) = rq_session_id request /\
  dr_observed_now_ms (ev_record e) = now_ms.
Proof. by intros (ns & _ & ->). Qed.

(** What an operation did to the history: nothing, or one event. *)
Definition advances (h : list LeaseEvent) (s : PeerLeaseStoreV1) (request : LeaseRequestV1) (now_ms : Z) (h' : list LeaseEvent) (a : _) : Prop :=
  (h' = h /\ a = authority s) \/
  exists e s1, recordable s request now_ms e /\ event_step s e = Ok s1 /\ h' = h ++ [e] /\ a = authority s1.

Lemma apply_live h sh faults request now_ms s r s' : live h sh s -> typed_request request -> in_u64 now_ms ->
  apply faults request now_ms s = (r, s') ->
  exists h' sh', advances h s request now_ms h' (authority sh') /\ durable h' sh' (disk s') /\ (poisoned s' = false -> live h' sh' s') /\
    match r with
    | Ok token => poisoned s' = false /\ token ∈ tokens zero32 h' /\
        tk_scope token = rq_scope request /\ tk_session_id token = rq_session_id request /\ latest_generation s' (rq_scope request) = tk_generation token /\
        active_lease s' (rq_scope request) = (if rq_operation request =?? Release then None else Some token)
    | Err _ => True
    | Panic => False
    end.
Proof.
  intros Hl Hty Hn Hap. pose proof (live_ok _ _ _ Hl) as (Hok & Hw & _). pose proof (lv_poisoned _ _ _ Hl) as Hp.
  destruct (Z.lt_ge_cases now_ms (last_observed_now_ms s)) as [Hback|Hge].
  { revert Hap. unfold apply. cbv [mbind SE_bind get_self]. rewrite Hp, (proj2 (Z.ltb_lt _ _)) by lia. unfold poison. cbv [mbind SE_bind modify_self lift].
    intros [= <- <-]. exists h, sh. split_and!; [left; split; [done|by rewrite (lv_authority _ _ _ Hl)]|apply Hl|done|done]. }
  pose proof (lv_observed _ _ _ Hl) as Hob. pose proof (apply_outcome faults request now_ms s r s' Hok Hw Hp ltac:(lia) ltac:(lia) Hty Hn Hap) as Hout.
  assert (Hkeep : live h sh (set_last_observed_now_ms now_ms s)) by (destruct Hl; split; try done; cbn; lia).
  assert (Hsame : advances h s request now_ms h (authority sh)) by (left; split; [done|by rewrite (lv_authority _ _ _ Hl)]).
  destruct Hout as [e|token Hpl|e s1 k Hrec He Hs1 Hsz|e s1 Hrec He Hs1 Hsz|e s1 d Hrec He Hs1 Hsz Ej Ea].
  - exists h, sh. split_and!; [done|apply Hkeep|done|done].
  - destruct (plan_held _ _ _ _ Hpl) as (Hact & _ & Hsc & Hse & _ & Hrel). exists h, sh. split_and!; [done|apply Hkeep|done|done| |done|done|exact (active_latest s _ _ Hok Hact)|by rewrite bool_decide_false].
    unfold active_lease in Hact. destruct (entries s !! rq_scope request) as [st|] eqn:Hst; [|done]. injection Hact as <-.
    destruct (authority_fields _ _ (lv_authority _ _ _ Hl)) as (E & _). rewrite E in Hst. eapply entry_token; [apply Hl|done].
  - destruct (decide (k < 236)%nat) as [Hk|Hk].
    + exists h, sh. split_and!; [done|by eapply durable_torn|done|done].
    + rewrite firstn_all2 by (pose proof (event_bytes_length _ _ Hw He); unfold zlen, RECORD_BYTES in *; lia).
      exists (h ++ [e]), (graft sh s1). split_and!; [right; exists e, s1; done|apply (durable_snoc h sh s e s1); [done..|by left]|done|done].
  - exists (h ++ [e]), (graft sh s1). destruct (event_step_head _ _ _ Hs1) as (Fl & Fc & Fn & Fle & Fd & Fo & Fp). destruct (recordable_event _ _ _ _ Hrec) as (Eo & Es & Ess & Et).
    assert (Hd : durable (h ++ [e]) (graft sh s1) (mkDisk (d_journal (disk s) ++ event_bytes (last_hash s) e) (Some (encode_head (record_count s1) (last_hash s1))) (d_temp (disk s))))
      by (apply (durable_snoc h sh s e s1); [done..|by right]).
    split_and!.
    + right. exists e, s1. done.
    + exact Hd.
    + intros _. split; [done| |done|apply Hl|done|cbn; lia|cbn; congruence].
      cbn [d_journal disk set_disk]. rewrite (lv_journal _ _ _ Hl), journal_bytes_app. cbn [journal_bytes]. rewrite app_nil_r.
      destruct (genesis_head _ _ (du_steps _ _ _ (lv_durable _ _ _ Hl))) as [Fh _]. destruct (authority_fields _ _ (lv_authority _ _ _ Hl)) as (_ & _ & _ & -> & _). by rewrite Fh.
    + cbn. by rewrite Fp.
    + rewrite tokens_app. cbn [tokens]. apply elem_of_app. right. apply list_elem_of_singleton. rewrite Fl. unfold token_of. rewrite Es, Ess.
      destruct (genesis_head _ _ (du_steps _ _ _ (lv_durable _ _ _ Hl))) as [<- _]. by destruct (authority_fields _ _ (lv_authority _ _ _ Hl)) as (_ & _ & _ & -> & _).
    + done.
    + done.
    + pose proof (event_step_latest _ _ _ Hok Hs1) as Hlat. by rewrite Es in Hlat.
    + pose proof (recorded_active _ _ _ Hs1) as Hact. rewrite Es, Eo in Hact. unfold active_lease in *. cbn [entries set_disk set_last_observed_now_ms]. rewrite Hact.
      case_bool_decide; [done|]. unfold token_of. by rewrite Es, Ess, Fl.
  - exists (h ++ [e]), (graft sh s1). split_and!; [right; exists e, s1; done|by apply (durable_snoc h sh s e s1)|done|done].
Qed.

(** ** What the events of a history mean *)

Definition of_scope (sc : PeerLeaseScopeV1) (h : list LeaseEvent) : list LeaseEvent := filter (fun e => dr_scope (ev_record e) = sc) h.

(** An event is granted by the events before it: time does not go back; a lease is
    acquired with a new generation and a new session when the last lease of the scope was
    released or has expired; it is renewed or released only by its holder, in force. *)
Definition granted (before : list LeaseEvent) (e : LeaseEvent) : Prop :=
  let r := ev_record e in
  let now := dr_observed_now_ms r in
  let earlier := of_scope (dr_scope r) before in
  let holds := exists x, last earlier = Some x /\ ev_operation x <> Release /\ dr_session_id (ev_record x) = dr_session_id r /\
    dr_generation (ev_record x) = dr_generation r /\ now < dr_expires_at_ms (ev_record x) in
  Forall (fun x => dr_observed_now_ms (ev_record x) <= now) before /\
  match ev_operation e with
  | Acquire =>
      now < dr_expires_at_ms r /\
      Forall (fun x => dr_generation (ev_record x) < dr_generation r /\ dr_session_id (ev_record x) <> dr_session_id r) earlier /\
      (forall x, last earlier = Some x -> ev_operation x = Release \/ dr_expires_at_ms (ev_record x) <= now)
  | Renew => now < dr_expires_at_ms r /\ holds
  | Revalidate => False
  | Release => holds
  end.

(** The tables say this of the history. *)
Record described (h : list LeaseEvent) (s : PeerLeaseStoreV1) : Prop := {
  ds_entry sc : match last (of_scope sc h) with
    | Some x => if ev_operation x =?? Release then entries s !! sc = None
        else exists hash, entries s !! sc = Some (mkLeaseState (dr_session_id (ev_record x)) (dr_generation (ev_record x)) (dr_expires_at_ms (ev_record x)) hash)
    | None => entries s !! sc = None
    end;
  ds_generation x : x ∈ h -> dr_generation (ev_record x) <= latest_generation s (dr_scope (ev_record x));
  ds_seen x : x ∈ h -> (dr_scope (ev_record x), dr_session_id (ev_record x)) ∈ seen_sessions s;
  ds_now x : x ∈ h -> dr_observed_now_ms (ev_record x) <= last_now_ms s;
}.

Lemma of_scope_snoc sc h e : of_scope sc (h ++ [e]) = of_scope sc h ++ (if decide (dr_scope (ev_record e) = sc) then [e] else []).
Proof. unfold of_scope. rewrite filter_app, filter_cons, filter_nil. by case_decide. Qed.

Lemma elem_of_scope x sc h : x ∈ of_scope sc h <-> dr_scope (ev_record x) = sc /\ x ∈ h.
Proof. unfold of_scope. by rewrite list_elem_of_filter. Qed.

(** The lease in the table is the last event of its scope. *)
Lemma described_entry h s sc st : described h s -> entries s !! sc = Some st ->
  exists x, last (of_scope sc h) = Some x /\ ev_operation x <> Release /\ dr_session_id (ev_record x) = ls_session_id st /\
    dr_generation (ev_record x) = ls_generation st /\ dr_expires_at_ms (ev_record x) = ls_expires_at_ms st.
Proof.
  intros [Hds _ _ _] Hst. specialize (Hds sc). destruct (last _) as [x|]; [|congruence]. case_bool_decide as Ho; [congruence|].
  destruct Hds as (hash & Hx). rewrite Hst in Hx. injection Hx as ->. by exists x.
Qed.

Lemma described_granted h s e s' : described h s -> event_step s e = Ok s' -> granted h e.
Proof.
  intros Hds Hs. destruct (event_step_head _ _ _ Hs) as (_ & _ & Hnow & Hle & _). apply event_step_effect in Hs. unfold event_effect in Hs. split.
  - apply Forall_forall. intros x Hx. pose proof (ds_now _ _ Hds x Hx). lia.
  - assert (Hholds : forall st, entries s !! dr_scope (ev_record e) = Some st -> ls_session_id st = dr_session_id (ev_record e) -> ls_generation st = dr_generation (ev_record e) ->
        dr_observed_now_ms (ev_record e) < ls_expires_at_ms st ->
        exists x, last (of_scope (dr_scope (ev_record e)) h) = Some x /\ ev_operation x <> Release /\ dr_session_id (ev_record x) = dr_session_id (ev_record e) /\
          dr_generation (ev_record x) = dr_generation (ev_record e) /\ dr_observed_now_ms (ev_record e) < dr_expires_at_ms (ev_record x)).
    { intros st Hst E1 E2 E3. destruct (described_entry _ _ _ _ Hds Hst) as (x & Hx & Hox & F1 & F2 & F3). exists x. split_and!; [done|done|congruence|congruence|lia]. }
    destruct (ev_operation e).
    + destruct Hs as (Hg & Hns & Hex & Hlt & _). split_and!; [done| |].
      * apply Forall_forall. intros x [Hsc Hx]%elem_of_scope. pose proof (ds_generation _ _ Hds x Hx) as Hgx. pose proof (ds_seen _ _ Hds x Hx) as Hsx.
        rewrite Hsc in *. split; [lia|]. intros Heq. rewrite Heq in Hsx. done.
      * intros x Hx. pose proof (ds_entry _ _ Hds (dr_scope (ev_record e))) as He. rewrite Hx in He. case_bool_decide as Ho; [by left|right].
        destruct He as (hash & He). apply (Hex _ He).
    + destruct Hs as (st & Hst & E1 & E2 & E3 & E4 & _). split; [done|]. by eapply Hholds.
    + done.
    + destruct Hs as (st & Hst & E1 & E2 & E3 & _). by eapply Hholds.
Qed.

Lemma described_step h s e s' : lease_ok s -> described h s -> event_step s e = Ok s' -> described (h ++ [e]) s'.
Proof.
  intros Hok Hds Hs. destruct (event_step_head _ _ _ Hs) as (_ & _ & Hnow & Hle & _). destruct (event_step_tables _ _ _ Hs) as [E Ht].
  split; [|intros x [Hx|Hx%list_elem_of_singleton]%elem_of_app..].
  - intros sc. rewrite of_scope_snoc. pose proof (ds_entry _ _ Hds sc) as He. rewrite E. destruct (decide _) as [<-|Hne].
    + rewrite last_snoc. case_bool_decide; [by rewrite lookup_delete_eq|rewrite lookup_insert_eq; by eexists].
    + rewrite app_nil_r. case_bool_decide; [by rewrite lookup_delete_ne|by rewrite lookup_insert_ne].
  - pose proof (ds_generation _ _ Hds x Hx) as Hg. unfold latest_generation in *. destruct Ht as [(_ & Hnew & -> & _)|(st & _ & _ & _ & -> & _)]; [|done].
    destruct (decide (dr_scope (ev_record e) = dr_scope (ev_record x))) as [Heq|Hne]; [rewrite Heq in *; rewrite lookup_insert_eq; cbn; lia|by rewrite lookup_insert_ne].
  - subst x. unfold latest_generation. destruct Ht as [(_ & _ & -> & _)|(st & Hst & _ & <- & -> & _)]; [by rewrite lookup_insert_eq|].
    by destruct (lo_entry _ Hok _ _ Hst) as [-> _].
  - pose proof (ds_seen _ _ Hds x Hx). destruct Ht as [(_ & _ & _ & ->)|(st & _ & _ & _ & _ & ->)]; set_solver.
  - subst x. destruct Ht as [(_ & _ & _ & ->)|(st & Hst & <- & _ & _ & ->)]; [set_solver|].
    destruct (described_entry _ _ _ _ Hds Hst) as (x & Hx & _ & <- & _). apply last_Some_elem_of, elem_of_scope in Hx as [<- Hx]. by apply (ds_seen _ _ Hds).
  - pose proof (ds_now _ _ Hds x Hx). lia.
  - subst x. lia.
Qed.

Lemma described_authority h s t : authority s = authority t -> described h t -> described h s.
Proof.
  intros Ha [H1 H2 H3 H4]. apply authority_fields in Ha as (E1 & E2 & E3 & _ & _ & E6). unfold latest_generation in *.
  split; unfold latest_generation; rewrite ?E1, ?E2, ?E3, ?E6; done.
Qed.

Lemma history_granted h : forall sh, Forall typed_event h -> event_steps genesis h = Ok sh ->
  described h sh /\ forall pre e post, h = pre ++ e :: post -> granted pre e.
Proof.
  induction h as [|e h IH] using rev_ind; intros sh Ht Hs.
  - apply Ok_inj in Hs. subst sh. split; [split; [done|by intros x ?%elem_of_nil..]|]. intros [|? ?] ? ? ?; done.
  - apply Forall_app in Ht as [Ht He]. apply Forall_singleton in He. rewrite event_steps_app in Hs. apply bind_Ok in Hs as (s1 & H1 & Hs).
    unfold event_steps in Hs. cbn [try_fold] in Hs. apply bind_Ok in Hs as (s2 & H2 & Hs). apply Ok_inj in Hs. subst s2. destruct (IH _ Ht H1) as [Hds Hg].
    pose proof (event_steps_ok _ _ _ (fresh_ok _) Ht H1) as Hok. split; [by eapply described_step|]. intros pre x post Heq.
    destruct post as [|y post _] using rev_ind; [apply app_inj_tail in Heq as [<- <-]; by eapply described_granted|].
    rewrite app_comm_cons, app_assoc in Heq. apply app_inj_tail in Heq as [-> _]. by eapply Hg.
Qed.

(** Sessions and generations of a scope determine each other. *)
Lemma granted_sessions h : (forall pre e post, h = pre ++ e :: post -> granted pre e) -> forall x y, x ∈ h -> y ∈ h ->
  dr_scope (ev_record x) = dr_scope (ev_record y) ->
  (dr_generation (ev_record x) = dr_generation (ev_record y) <-> dr_session_id (ev_record x) = dr_session_id (ev_record y)).
Proof.
  induction h as [|e h IH] using rev_ind; intros Hg x y Hx Hy Hsc; [by apply elem_of_nil in Hx|].
  assert (IH' : forall x y, x ∈ h -> y ∈ h -> dr_scope (ev_record x) = dr_scope (ev_record y) ->
    (dr_generation (ev_record x) = dr_generation (ev_record y) <-> dr_session_id (ev_record x) = dr_session_id (ev_record y))).
  { apply IH. intros pre z post ->. apply (Hg pre z (post ++ [e])). by rewrite <- app_assoc. }
  assert (Hnew : forall x, x ∈ h -> dr_scope (ev_record x) = dr_scope (ev_record e) ->
    (dr_generation (ev_record x) = dr_generation (ev_record e) <-> dr_session_id (ev_record x) = dr_session_id (ev_record e))).
  { intros z Hz Hze. destruct (Hg h e [] eq_refl) as [_ Hge].
    assert (Hhold : forall w, last (of_scope (dr_scope (ev_record e)) h) = Some w -> dr_session_id (ev_record w) = dr_session_id (ev_record e) ->
      dr_generation (ev_record w) = dr_generation (ev_record e) ->
      (dr_generation (ev_record z) = dr_generation (ev_record e) <-> dr_session_id (ev_record z) = dr_session_id (ev_record e))).
    { intros w Hw <- <-. apply last_Some_elem_of, elem_of_scope in Hw as [Hws Hw]. apply IH'; [done|done|congruence]. }
    destruct (ev_operation e); [|destruct Hge as (_ & w & ? & _ & ? & ? & _); by eapply Hhold|done|destruct Hge as (w & ? & _ & ? & ? & _); by eapply Hhold].
    destruct Hge as (_ & Hall & _). rewrite Forall_forall in Hall. destruct (Hall z) as [Hlt Hne]; [by apply elem_of_scope|]. split; [lia|done]. }
  apply elem_of_app in Hx as [Hx|Hx%list_elem_of_singleton], Hy as [Hy|Hy%list_elem_of_singleton]; [by apply IH'|subst y; by apply Hnew|subst x|by subst].
  symmetry in Hsc. pose proof (Hnew y Hy Hsc) as [F1 F2]. split; intros ?; symmetry; [apply F1|apply F2]; done.
Qed.

Lemma token_event h : forall p t, t ∈ tokens p h -> exists x, x ∈ h /\ tk_scope t = dr_scope (ev_record x) /\ tk_session_id t = dr_session_id (ev_record x) /\
  tk_generation t = dr_generation (ev_record x).
Proof.
  induction h as [|e h IH]; intros p t Ht; [by apply elem_of_nil in Ht|]. apply elem_of_cons in Ht as [->|Ht].
  - exists e. split_and!; [by apply elem_of_cons; left|done..].
  - destruct (IH _ _ Ht) as (x & Hx & ?). exists x. split; [by apply elem_of_cons; right|done].
Qed.

(** An earlier token of the scope has a smaller generation, unless it is of the same session. *)
Definition supersedes (later earlier : PeerLeaseTokenV1) : Prop :=
  tk_scope earlier = tk_scope later ->
  tk_generation earlier <= tk_generation later /\
  (tk_generation earlier = tk_generation later <-> tk_session_id earlier = tk_session_id later).

Lemma live_supersedes h sh s token t : live h sh s -> token ∈ tokens zero32 h -> latest_generation s (tk_scope token) = tk_generation token ->
  t ∈ tokens zero32 h -> supersedes token t.
Proof.
  intros Hl Htok Hlat Ht Hsc. destruct (history_granted _ _ (du_typed _ _ _ (lv_durable _ _ _ Hl)) (du_steps _ _ _ (lv_durable _ _ _ Hl))) as [Hds Hg].
  apply (described_authority _ _ _ (lv_authority _ _ _ Hl)) in Hds.
  apply token_event in Htok as (x & Hx & X1 & X2 & X3). apply token_event in Ht as (y & Hy & Y1 & Y2 & Y3).
  pose proof (ds_generation _ _ Hds y Hy) as Hgen. rewrite <- Y1, Hsc, Hlat, <- Y3 in Hgen. split; [done|].
  rewrite X2, X3, Y2, Y3. apply (granted_sessions h Hg); [done|done|congruence].
Qed.

(** ** Runs of the authority *)

(** A run and the tokens it has answered, the latest first.  A process that dies is
    opened again from what is on disk. *)
Inductive reach : process -> list PeerLeaseTokenV1 -> Prop :=
| reach_empty : reach (Down empty_disk) []
| reach_open p acks fault r d : reach p acks -> open fault (disk_of p) = (r, d) ->
    reach (match r with Ok s => Up s | _ => Down d end) acks
| reach_apply s acks faults request now_ms r s' : reach (Up s) acks -> typed_request request -> in_u64 now_ms ->
    apply faults request now_ms s = (r, s') ->
    reach (Up s') (match r with Ok token => token :: acks | _ => acks end).

Definition settled (p : process) (h : list LeaseEvent) (sh : PeerLeaseStoreV1) : Prop :=
  durable h sh (disk_of p) /\ match p with Down _ => True | Up s => poisoned s = false -> live h sh s end.

Lemma apply_poisoned faults request now_ms s : poisoned s = true -> apply faults request now_ms s = (Err corrupt, s).
Proof. intros Hp. unfold apply. cbv [mbind SE_bind get_self]. by rewrite Hp. Qed.

Lemma tokens_advance h s request now_ms h' a t : advances h s request now_ms h' a -> t ∈ tokens zero32 h -> t ∈ tokens zero32 h'.
Proof. intros [[-> _]|(e & s1 & _ & _ & -> & _)]; [done|]. rewrite tokens_app, elem_of_app. by left. Qed.

Lemma reach_settled p acks : reach p acks ->
  exists h sh, settled p h sh /\ (forall t, t ∈ acks -> t ∈ tokens zero32 h) /\ StronglySorted supersedes acks.
Proof.
  induction 1 as [|p acks fault r d _ (h & sh & [Hd _] & Hack & Hso) Ho|s acks faults request now_ms r s' _ (h & sh & [Hd Hl] & Hack & Hso) Hty Hn Hap].
  - exists [], genesis. split; [|split; [by intros t Ht%elem_of_nil|constructor]]. split; [|done]. split; try done. by exists []; split; [constructor|].
  - destruct (open_durable _ _ _ _ _ _ Hd Ho) as [Hd' Hr]. exists h, sh. split; [|done]. destruct r as [s| |]; [|done..]. destruct Hr as [<- Hlive]. by split.
  - destruct (poisoned s) eqn:Hp; [rewrite apply_poisoned in Hap by done; injection Hap as <- <-; exists h, sh; split; [by split; [|rewrite Hp]|done]|].
    destruct (apply_live _ _ _ _ _ _ _ _ (Hl eq_refl) Hty Hn Hap) as (h' & sh' & Hadv & Hd' & Hl' & Hr). exists h', sh'. split; [by split|].
    assert (Hold : forall t, t ∈ acks -> t ∈ tokens zero32 h') by (intros t Ht; eapply tokens_advance; eauto).
    destruct r as [token| |]; [|done..]. destruct Hr as (Hp' & Hin & Hsc & _ & Hlat & _). split; [intros t [->|Ht]%elem_of_cons; auto|].
    constructor; [done|]. apply Forall_forall. intros t Ht. eapply live_supersedes; [by apply Hl'|done|by rewrite Hsc|auto].
Qed.


Lemma reach_apply_token s acks faults request now_ms token s' : reach (Up s) acks -> typed_request request -> in_u64 now_ms ->
  apply faults request now_ms s = (Ok token, s') -> tk_scope token = rq_scope request /\ tk_session_id token = rq_session_id request.
Proof.
  intros Hreach Hty Hn Hap. destruct (reach_settled _ _ Hreach) as (h & sh & [_ Hl] & _). destruct (poisoned s) eqn:Hp; [by rewrite apply_poisoned in Hap|].
  by destruct (apply_live _ _ _ _ _ _ _ _ (Hl eq_refl) Hty Hn Hap) as (h' & sh' & _ & _ & _ & (_ & _ & ? & ? & _)).
Qed.

Lemma reach_apply_total s acks faults request now_ms : reach (Up s) acks -> typed_request request -> in_u64 now_ms ->
  fst (apply faults request now_ms s) <> Panic.
Proof.
  intros Hreach Hty Hn. destruct (apply faults request now_ms s) as [r s'] eqn:Hap. destruct (reach_settled _ _ Hreach) as (h & sh & [_ Hl] & _).
  destruct (poisoned s) eqn:Hp; [rewrite apply_poisoned in Hap by done; by injection Hap as <- <-|].
  destruct (apply_live _ _ _ _ _ _ _ _ (Hl eq_refl) Hty Hn Hap) as (h' & sh' & _ & _ & _ & Hr). by destruct r.
Qed.

(** ** Claims *)

(** C6: The lease authority is durable.  Whatever the file system does to an operation
    of any run: if it answers a token, the token is the lease in force (none after a
    release) and reopening the files gives exactly the authority that answered; if it
    answers an error, a poisoned store has not changed, and any reopening of the files
    finds the authority before the operation or after the one event it was to record.  It
    never panics.  (A recorded head of all zeros, which would be a preimage of zero, is
    the one head that is refused on reopening.) *)
Theorem lease_authority_is_durable s acks faults request now_ms r s' :
  reach (Up s) acks -> typed_request request -> in_u64 now_ms -> apply faults request now_ms s = (r, s') ->
  match r with
  | Ok token =>
      active_lease s' (rq_scope request) = (if rq_operation request =?? Release then None else Some token) /\
      (record_count s' = 0 \/ last_hash s' <> zero32 ->
       exists t, open None (disk s') = (Ok t, disk s') /\ authority t = authority s')
  | Err _ =>
      (poisoned s = true -> s' = s) /\
      (poisoned s = false -> forall fault t d, open fault (disk s') = (Ok t, d) ->
       authority t = authority s \/
       exists e s1, recordable s request now_ms e /\ event_step s e = Ok s1 /\ authority t = authority s1)
  | Panic => False
  end.
Proof.
  intros Hreach Hty Hn Hap. destruct (reach_settled _ _ Hreach) as (h & sh & [_ Hl] & _). destruct (poisoned s) eqn:Hp.
  { rewrite apply_poisoned in Hap by done. by injection Hap as <- <-. }
  destruct (apply_live _ _ _ _ _ _ _ _ (Hl eq_refl) Hty Hn Hap) as (h' & sh' & Hadv & Hd' & Hl' & Hr). destruct r as [token|e|]; [| |done].
  - destruct Hr as (Hp' & _ & _ & _ & _ & Hact). split; [done|]. intros Hz. destruct (open_live _ _ _ (Hl' Hp') Hz) as (t & Ho & Ha & _). by exists t.
  - split; [done|]. intros _ fault t d Ho. destruct (open_durable _ _ _ _ _ _ Hd' Ho) as [_ [_ Ht]]. rewrite (lv_authority _ _ _ Ht).
    destruct Hadv as [[_ ->]|(e1 & s1 & Hrec & Hs1 & _ & ->)]; [by left|right; by exists e1, s1].
Qed.

(** C21: In every run, under every failure of the file system, the journal holds the
    records of a history, perhaps followed by part of one record, and every event of the
    history is granted by the events before it: a scope is acquired with a generation
    above and a session different from all earlier ones, when its last lease was released
    or has expired; a lease is renewed or released by its holder while it is in force; the
    clock does not go back.  Every token the authority ever answered is in the history. *)
Theorem journal_is_a_granted_history p acks : reach p acks ->
  exists h torn, d_journal (disk_of p) = journal_bytes zero32 h ++ torn /\ zlen torn < RECORD_BYTES /\
    (forall before e after, h = before ++ e :: after -> granted before e) /\
    (forall t, t ∈ acks -> t ∈ tokens zero32 h).
Proof.
  intros Hr. destruct (reach_settled _ _ Hr) as (h & sh & [Hd _] & Hack & _). destruct (du_journal _ _ _ Hd) as (torn & Htorn & Hj). exists h, torn. split_and!; [done| | |done].
  - destruct Htorn as [|e k He Hk]; [done|]. rewrite (torn_short h) by (apply Hd || done || lia). unfold RECORD_BYTES. lia.
  - eapply history_granted; apply Hd.
Qed.

(** C16: Leases are fenced.  Of two tokens that a run answered for one scope, across any
    crashes and restarts, the later one has the larger generation, and the generations
    are equal exactly when the session is the same: no generation is ever given to two
    sessions. *)
Theorem leases_are_fenced p acks : reach p acks -> StronglySorted supersedes acks.
Proof. intros Hr. by destruct (reach_settled _ _ Hr) as (h & sh & _ & _ & Hs). Qed.

End theorems.
