(* ===== verification/PeerLeaseFrames.v ===== *)
(** * PeerLeaseFrames: the frames of the lease protocol are exact

    Every reader of [protocol.rs] accepts exactly the bytes that the writer of the
    same value produces; so do the request and the response frames. *)

From stdpp Require Import base gmap list sorting strings.
From S2P Require Import Prelude Crypto ByteReader PeerLease PeerLeaseJournal PeerLeaseRuns.

Record typed_token (t : PeerLeaseTokenV1) : Prop := {
  tt_scope : valid_scope (tk_scope t);
  tt_session : bytes32 (tk_session_id t);
  tt_generation : in_u64 (tk_generation t);
  tt_expires : in_u64 (tk_expires_at_ms t);
  tt_hash : bytes32 (tk_record_hash t);
}.

Definition typed_response (r : LeaseResponseV1) : Prop :=
  match r with Token token => typed_token token | RejectedWith _ => True end.

(** ** Readers of fields *)

Lemma exact_array : exact_reader take_array (fun v bs _ => bs = v /\ bytes32 v).
Proof. apply (exact_weaken _ _ _ (exact_take _ _ 32 ltac:(lia))). done. Qed.

Lemma exact_u8 : exact_reader take_u8 (fun v bs _ => bs = [v] /\ is_byte v).
Proof.
  eapply exact_weaken; [eapply exact_bind; [apply exact_take; lia|intros bs x post (_ & Hl & _); apply exact_lift; by destruct bs]|].
  intros v bs post. cbn beta. split.
  - intros (x & ? & ? & -> & (-> & Hl & Hb) & Hx & ->). apply expect_Ok in Hx. destruct x as [|y [|]]; [done| |unfold zlen in Hl; cbn in Hl; lia].
    cbn in Hx. injection Hx as ->. split; [done|]. exact (Forall_inv Hb).
  - intros [-> Hv]. exists [v], [v], []. split_and!; [done|done|done|by apply Forall_singleton|done|done].
Qed.

Lemma exact_u64 : exact_reader take_u64 (fun v bs _ => bs = le_bytes 8 v /\ in_u64 v).
Proof.
  eapply exact_weaken; [eapply exact_bind; [apply exact_take; lia|intros bs ? ? _; apply exact_ret]|].
  intros v bs post. cbn beta. split.
  - intros (x & ? & ? & -> & (-> & Hl & Hb) & -> & ->). rewrite app_nil_r. by apply le_u64_of.
  - intros [-> Hv]. exists (le_bytes 8 v), (le_bytes 8 v), []. rewrite app_nil_r, le_bytes_zlen, of_le_u64 by done. split_and!; [done|done|done|apply le_bytes_is_byte|done|done].
Qed.

Lemma exact_scope : exact_reader decode_scope (fun sc bs _ => bs = encode_scope sc /\ valid_scope sc).
Proof.
  eapply exact_weaken.
  { eapply exact_bind; [apply exact_array|intros l ? ? _]. eapply exact_bind; [apply exact_array|intros r ? ? _]. eapply exact_bind; [apply exact_u8|intros b ? ? _].
    eapply exact_bind; [apply exact_lift; by destruct (direction_from_u8 b)|intros d ? ? _]. eapply exact_bind; [apply exact_u64|intros e ? ? _]. eapply exact_bind; [apply exact_array|intros i ? ? _].
    apply exact_lift. unfold scope_new. destruct (_ || _); cbn; [done|]. by destruct (_ =?? _). }
  intros sc bs post. cbn beta. split.
  - intros (l & ? & ? & -> & (-> & Hl) & r & ? & ? & -> & (-> & Hr) & b & ? & ? & -> & (-> & Hb) & d & ? & ? & -> & (Hd & ->) & e & ? & ? & -> & (-> & He) & i & ? & ? & -> & (-> & Hi) & Hn & ->).
    apply ok_or_Ok, direction_from_u8_Some in Hd. subst b. destruct (scope_new _ _ _ _ _) as [sc'| |] eqn:Hs; [|done..]. apply Ok_inj in Hn. subst sc'.
    apply scope_new_Ok in Hs as (-> & N1 & N2 & N3 & N4). rewrite app_nil_r. split; [done|]. by split.
  - intros [-> [[Hl N1] [Hr N2] [Hi N3] N4 He]]. destruct sc as [l r d e i]. cbn [sc_local_id sc_remote_id sc_direction sc_epoch sc_peer_scope_id] in *. unfold encode_scope, put_u64. cbn [sc_local_id sc_remote_id sc_direction sc_epoch sc_peer_scope_id].
    exists l, l. eexists. split_and!; [done|done|exact Hl|]. exists r, r. eexists. split_and!; [done|done|exact Hr|].
    exists (direction_u8 d), [direction_u8 d]. eexists. split_and!; [done|done|by destruct d|]. exists d, []. eexists. split_and!; [done|by rewrite direction_tags|done|].
    exists e, (le_bytes 8 e). eexists. split_and!; [done|done|exact He|]. exists i, i, []. split_and!; [by rewrite app_nil_r|done|exact Hi| |done].
    by rewrite (proj2 (scope_new_Ok l r d e i (mkScope l r d e i))).
Qed.

Lemma exact_token : exact_reader decode_token (fun t bs _ => bs = encode_token t /\ typed_token t).
Proof.
  eapply exact_weaken.
  { eapply exact_bind; [apply exact_scope|intros sc ? ? _]. eapply exact_bind; [apply exact_array|intros ses ? ? _]. eapply exact_bind; [apply exact_u64|intros g ? ? _].
    eapply exact_bind; [apply exact_u64|intros x ? ? _]. eapply exact_bind; [apply exact_array|intros hash ? ? _]. apply exact_ret. }
  intros t bs post. cbn beta. split.
  - intros (sc & ? & ? & -> & (-> & Hs) & ses & ? & ? & -> & (-> & Hses) & g & ? & ? & -> & (-> & Hg) & x & ? & ? & -> & (-> & Hx) & hash & ? & ? & -> & (-> & Hh) & -> & ->).
    rewrite app_nil_r. split; [done|]. by split.
  - intros [-> [Hs Hses Hg Hx Hh]]. destruct t as [sc ses g x hash]. cbn [tk_scope tk_session_id tk_generation tk_expires_at_ms tk_record_hash] in *.
    unfold encode_token. cbn [tk_scope tk_session_id tk_generation tk_expires_at_ms tk_record_hash].
    exists sc, (encode_scope sc). eexists. split_and!; [done|done|exact Hs|]. exists ses, ses. eexists. split_and!; [done|done|exact Hses|].
    exists g, (put_u64 g). eexists. split_and!; [done|done|exact Hg|]. exists x, (put_u64 x). eexists. split_and!; [done|done|exact Hx|].
    exists hash, hash, []. split_and!; [by rewrite app_nil_r|done|exact Hh|done|done].
Qed.

(** ** Bodies *)

Definition request_body (r : LeaseRequestV1) : list Z :=
  [PEER_LEASE_SCHEMA_V1] ++ [operation_tag (rq_operation r)] ++ encode_scope (rq_scope r) ++ rq_session_id r ++ put_u64 (rq_generation r)
  ++ put_u64 (rq_expires_at_ms r) ++ put_u64 (rq_ttl_ms r) ++ rq_record_hash r.

Lemma exact_check {E} (b : bool) (e : E) : exact_reader (lift (fail_if b e)) (fun _ bs _ => b = false /\ bs = []).
Proof.
  eapply exact_weaken; [apply exact_lift; by destruct b|]. intros [] bs post. split; intros [Hb ->]; [by apply fail_if_Ok in Hb|by rewrite Hb].
Qed.

Lemma exact_request : exact_reader read_request (fun r bs post => bs = request_body r /\ typed_request r /\ post = []).
Proof.
  eapply exact_weaken.
  { eapply exact_bind; [apply exact_u8|intros v ? ? _]. eapply exact_bind; [apply exact_check|intros ? ? ? _]. eapply exact_bind; [apply exact_u8|intros tag ? ? _].
    eapply exact_bind; [apply exact_lift; by destruct (operation_from_tag tag)|intros op ? ? _]. eapply exact_bind; [apply exact_scope|intros sc ? ? _].
    eapply exact_bind; [apply exact_array|intros ses ? ? _]. eapply exact_bind; [apply exact_u64|intros g ? ? _]. eapply exact_bind; [apply exact_u64|intros x ? ? _].
    eapply exact_bind; [apply exact_u64|intros ttl ? ? _]. eapply exact_bind; [apply exact_array|intros hash ? ? _]. eapply exact_bind; [apply exact_finish|intros ? ? ? _]. apply exact_ret. }
  intros r bs post. cbn beta. split.
  - intros (v & ? & ? & -> & (-> & _) & [] & ? & ? & -> & (Hv & ->) & tag & ? & ? & -> & (-> & _) & op & ? & ? & -> & (Hop & ->) & sc & ? & ? & -> & (-> & Hs) &
      ses & ? & ? & -> & (-> & Hses) & g & ? & ? & -> & (-> & Hg) & x & ? & ? & -> & (-> & Hx) & ttl & ? & ? & -> & (-> & Httl) & hash & ? & ? & -> & (-> & Hh) &
      [] & ? & ? & -> & (-> & Hend) & -> & ->).
    bprop. subst v. apply ok_or_Ok, operation_from_tag_Some in Hop. subst tag. split_and!; [by rewrite app_nil_r|by split|done].
  - intros (-> & [Hs Hses Hg Hx Httl Hh] & ->). destruct r as [op sc ses g x ttl hash]. cbn [rq_operation rq_scope rq_session_id rq_generation rq_expires_at_ms rq_ttl_ms rq_record_hash] in *.
    unfold request_body. cbn [rq_operation rq_scope rq_session_id rq_generation rq_expires_at_ms rq_ttl_ms rq_record_hash].
    exists PEER_LEASE_SCHEMA_V1, [PEER_LEASE_SCHEMA_V1]. eexists. split_and!; [done|done|done|]. exists (), []. eexists. split_and!; [done|done|done|].
    exists (operation_tag op), [operation_tag op]. eexists. split_and!; [done|done|by destruct op|]. exists op, []. eexists. split_and!; [done|by rewrite operation_tags|done|].
    exists sc, (encode_scope sc). eexists. split_and!; [done|done|exact Hs|]. exists ses, ses. eexists. split_and!; [done|done|exact Hses|].
    exists g, (put_u64 g). eexists. split_and!; [done|done|exact Hg|]. exists x, (put_u64 x). eexists. split_and!; [done|done|exact Hx|].
    exists ttl, (put_u64 ttl). eexists. split_and!; [done|done|exact Httl|]. exists hash, hash, []. split_and!; [by rewrite app_nil_r|done|exact Hh|].
    by exists (), [], [].
Qed.

Definition response_body (r : LeaseResponseV1) : list Z :=
  [PEER_LEASE_SCHEMA_V1] ++ match r with Token token => [0] ++ encode_token token | RejectedWith code => [1] ++ [LeaseReject.to_u8 code] end.

Lemma reject_tags c : LeaseReject.from_u8 (LeaseReject.to_u8 c) = Some c.
Proof. by destruct c. Qed.
Lemma reject_from_u8_Some v c : LeaseReject.from_u8 v = Some c -> v = LeaseReject.to_u8 c.
Proof. unfold LeaseReject.from_u8. repeat case_match; by intros [= <-]. Qed.

(** The reader after the kind byte. *)
Definition kind_body (kind : Z) (r : LeaseResponseV1) (bs : list Z) : Prop :=
  match r with Token token => kind = 0 /\ bs = encode_token token | RejectedWith code => kind = 1 /\ bs = [LeaseReject.to_u8 code] end.

Lemma exact_kind kind : exact_reader
  (match kind with
  | 0 => token ← decode_token; _ ← cursor_finish; mret (Token token)
  | 1 => value ← take_u8; code ← lift (ok_or (LeaseReject.from_u8 value) (Protocol "unknown lease rejection code")); _ ← cursor_finish; mret (RejectedWith code)
  | _ => lift (Err (Protocol "unknown peer-lease response kind"))
  end) (fun r bs post => kind_body kind r bs /\ typed_response r /\ post = []).
Proof.
  assert (Hbad : kind <> 0 -> kind <> 1 -> exact_reader (lift (Err (A := LeaseResponseV1) (Protocol "unknown peer-lease response kind")))
    (fun r bs post => kind_body kind r bs /\ typed_response r /\ post = [])).
  { intros H0 H1. eapply exact_weaken; [by apply exact_lift|]. intros r bs post. cbn beta. split; [by intros [? _]|]. intros [Hk _]. by destruct r, Hk. }
  destruct kind as [|[p|p|]|p]; try (by apply Hbad).
  - eapply exact_weaken.
    { eapply exact_bind; [apply exact_token|intros t ? ? _]. eapply exact_bind; [apply exact_finish|intros ? ? ? _]. apply exact_ret. }
    intros r bs post. cbn beta. split.
    + intros (t & ? & ? & -> & (-> & Ht) & [] & ? & ? & -> & (-> & Hend) & -> & ->). cbn [kind_body typed_response]. split_and!; [done|by rewrite app_nil_r|done|done].
    + intros (Hk & Ht & ->). destruct r as [t|c]; [|by destruct Hk]. destruct Hk as [_ ->]. exists t, (encode_token t), []. split_and!; [by rewrite app_nil_r|done|done|]. by exists (), [], [].
  - eapply exact_weaken.
    { eapply exact_bind; [apply exact_u8|intros v ? ? _]. eapply exact_bind; [apply exact_lift; by destruct (LeaseReject.from_u8 v)|intros c ? ? _].
      eapply exact_bind; [apply exact_finish|intros ? ? ? _]. apply exact_ret. }
    intros r bs post. cbn beta. split.
    + intros (v & ? & ? & -> & (-> & _) & c & ? & ? & -> & (Hc & ->) & [] & ? & ? & -> & (-> & Hend) & -> & ->). apply ok_or_Ok, reject_from_u8_Some in Hc. subst v. done.
    + intros (Hk & Ht & ->). destruct r as [t|c]; [by destruct Hk|]. destruct Hk as [_ ->]. exists (LeaseReject.to_u8 c), [LeaseReject.to_u8 c], []. split_and!; [done|done|by destruct c|].
      exists c, [], []. split_and!; [done|by rewrite reject_tags|done|]. by exists (), [], [].
Qed.

Lemma exact_response : exact_reader read_response (fun r bs post => bs = response_body r /\ typed_response r /\ post = []).
Proof.
  eapply exact_weaken.
  { eapply exact_bind; [apply exact_u8|intros v ? ? _]. eapply exact_bind; [apply exact_check|intros ? ? ? _]. eapply exact_bind; [apply exact_u8|intros kind ? ? _]. apply exact_kind. }
  intros r bs post. cbn beta. split.
  - intros (v & ? & ? & -> & (-> & _) & [] & ? & ? & -> & (Hv & ->) & kind & ? & ? & -> & (-> & _) & Hk & Ht & ->). bprop. subst v. by destruct r; destruct Hk as [-> ->].
  - intros (-> & Ht & ->). exists PEER_LEASE_SCHEMA_V1, [PEER_LEASE_SCHEMA_V1]. eexists. split_and!; [by unfold response_body|done|done|]. exists (), []. eexists. split_and!; [done|done|done|].
    destruct r as [t|c]; [exists 0, [0]|exists 1, [1]]; eexists; split_and!; done.
Qed.

(** ** Frames *)

Lemma unframe_exact b body : Forall is_byte b -> unframe b = Ok body <-> b = frame body /\ zlen body <= MAX_FRAME_BYTES_V1.
Proof.
  intros Hb. unfold unframe, frame. split.
  - intros Hu. apply bind_Ok in Hu as (? & H1 & Hu). apply fail_if_Ok in H1. apply bind_Ok in Hu as (? & H2 & Hu). apply fail_if_Ok in H2. bprop. apply Ok_inj in Hu. subst body.
    set (len := of_le_bytes (take 4 (drop 4 b))) in *. assert (Hlen : zlen (drop 8 b) = len) by (unfold zlen in *; rewrite length_drop; lia). rewrite Hlen. split; [|done].
    assert (Hl4 : length (take 4 (drop 4 b)) = 4%nat) by (unfold zlen in *; rewrite length_take, length_drop; lia).
    pose proof (le_bytes_of_le_bytes (take 4 (drop 4 b)) ltac:(by apply Forall_take, Forall_drop)) as Hle. rewrite Hl4 in Hle. fold len in Hle. rewrite Hle.
    rewrite <- (take_drop 4 b) at 1. rewrite <- (take_drop 4 (drop 4 b)) at 1. rewrite drop_drop. change (4 + 4)%nat with 8%nat. by f_equal.
  - intros [-> Hm]. pose proof (zlen_nonneg body) as Hnn. set (l4 := le_bytes 4 (zlen body)). assert (Hl4 : length l4 = 4%nat) by apply le_bytes_length.
    assert (Hof : of_le_bytes l4 = zlen body) by (apply of_le_bytes_le_bytes; unfold MAX_FRAME_BYTES_V1 in Hm; simpl; lia).
    assert (Hz : zlen (FRAME_MAGIC_V1 ++ l4 ++ body) = zlen body + 8) by (rewrite !zlen_app; unfold l4; rewrite le_bytes_zlen; change (zlen FRAME_MAGIC_V1) with 4; lia).
    rewrite Hz. rewrite (proj2 (Z.ltb_ge (zlen body + 8) 8)) by lia. change (take 4 (FRAME_MAGIC_V1 ++ l4 ++ body)) with FRAME_MAGIC_V1. rewrite (bool_decide_eq_true_2 (FRAME_MAGIC_V1 = FRAME_MAGIC_V1) eq_refl). cbn [negb orb fail_if mbind result_bind].
    change (drop 4 (FRAME_MAGIC_V1 ++ l4 ++ body)) with (l4 ++ body). assert (take 4 (l4 ++ body) = l4) as -> by (rewrite <- Hl4; apply take_app_length). rewrite Hof.
    rewrite (proj2 (Z.ltb_ge MAX_FRAME_BYTES_V1 (zlen body)) Hm).
    rewrite (bool_decide_eq_true_2 (zlen body + 8 = zlen body + 8) eq_refl).
    cbn [negb orb fail_if mbind result_bind]. change (drop 8 (FRAME_MAGIC_V1 ++ l4 ++ body)) with (drop 4 (l4 ++ body)). rewrite <- Hl4. by rewrite drop_app_length.
Qed.

Lemma unframe_no_panic b : unframe b <> Panic.
Proof. unfold unframe. no_panic. Qed.

Lemma unframe_bytes b body : Forall is_byte b -> unframe b = Ok body -> Forall is_byte body /\ zlen body <= u64_max.
Proof.
  intros Hb Hu. apply unframe_exact in Hu as [-> Hl]; [|done]. unfold frame in Hb. rewrite !Forall_app in Hb. split; [apply Hb|].
  unfold MAX_FRAME_BYTES_V1, u64_max in *. lia.
Qed.

(** A framed exact reader. *)
Lemma frame_exact {A} (m : CursorM A) (typed : A -> Prop) (body : A -> list Z) b a :
  exact_reader m (fun a bs post => bs = body a /\ typed a /\ post = []) ->
  (forall a, typed a -> zlen (body a) <= MAX_FRAME_BYTES_V1) -> Forall is_byte b ->
  ((bs ← unframe b; fst (m (mkCursor bs 0))) = Ok a <-> typed a /\ frame (body a) = b) /\ (bs ← unframe b; fst (m (mkCursor bs 0))) <> Panic.
Proof.
  intros Hm Hsz Hb. pose proof (unframe_no_panic b) as Hnp. assert (Hend : forall (a : A) (bs post : list Z), bs = body a /\ typed a /\ post = [] -> post = []) by (by intros ??? (_ & _ & ?)).
  split; [split|].
  - intros Hd. apply bind_Ok in Hd as (bs & Hu & Hd). destruct (unframe_bytes _ _ Hb Hu) as [Hbs Hl]. destruct (exact_whole m _ bs Hm Hend Hbs Hl) as [Hw _].
    apply Hw in Hd as (-> & Ht & _). apply unframe_exact in Hu as [-> _]; done.
  - intros [Ht <-]. assert (Hu : unframe (frame (body a)) = Ok (body a)) by (apply unframe_exact; auto). rewrite Hu. cbn [mbind result_bind].
    destruct (unframe_bytes _ _ Hb Hu) as [Hbs Hl]. destruct (exact_whole m _ (body a) Hm Hend Hbs Hl) as [Hw _]. by apply Hw.
  - destruct (unframe b) as [bs| |] eqn:Hu; [|done..]. cbn [mbind result_bind]. destruct (unframe_bytes _ _ Hb Hu) as [Hbs Hl]. by destruct (exact_whole m _ bs Hm Hend Hbs Hl).
Qed.

Lemma scope_length sc : valid_scope sc -> zlen (encode_scope sc) = 105.
Proof. intros [[[? _] _] [[? _] _] [[? _] _] _ _]. unfold encode_scope, put_u64. rewrite !zlen_app, le_bytes_zlen. change (zlen [_]) with 1. lia. Qed.

Lemma request_length r : typed_request r -> zlen (request_body r) <= MAX_FRAME_BYTES_V1.
Proof.
  intros [Hs [? _] _ _ _ [? _]]. unfold request_body, put_u64. rewrite !zlen_app, !le_bytes_zlen, scope_length by done. repeat change (zlen [_]) with 1. unfold MAX_FRAME_BYTES_V1. lia.
Qed.

Lemma response_length r : typed_response r -> zlen (response_body r) <= MAX_FRAME_BYTES_V1.
Proof.
  unfold response_body. destruct r as [t|c]; [|done]. intros [Hs [? _] _ _ [? _]]. unfold encode_token, put_u64. rewrite !zlen_app, !le_bytes_zlen, scope_length by done.
  repeat change (zlen [_]) with 1. unfold MAX_FRAME_BYTES_V1. lia.
Qed.

(** C31: The frames of the lease protocol are exact.  A byte string decodes to a request
    (a response) exactly when the value is well typed, with a scope that [new] accepts, and
    the bytes are its encoding; so each value has one frame, and a frame with a wrong
    length, unknown tag, zero identity or trailing byte is refused.  Decoding never panics. *)
Theorem lease_frames_are_exact b request response : Forall is_byte b ->
  (decode_request b = Ok request <-> typed_request request /\ encode_request request = b) /\ decode_request b <> Panic /\
  (decode_response b = Ok response <-> typed_response response /\ encode_response response = b) /\ decode_response b <> Panic.
Proof.
  intros Hb. destruct (frame_exact _ _ _ b request exact_request request_length Hb). destruct (frame_exact _ _ _ b response exact_response response_length Hb). done.
Qed.
