(* ===== verification/PeerLeaseDaemon.v ===== *)
(** * PeerLeaseDaemon: the socket service around the lease authority

    [unix/connection_service.rs]: non-blocking connections, each of which reads one
    frame, applies its request to the one store and writes the answer, and the turn
    of the service that accepts, advances and rotates them.

    What the sockets, the clocks and the file system do is the argument of a turn.
    A connection has a stream, which carries what its peer sends, and what was written
    to it; the code sees them only through the counts of its reads and writes.  The
    theorem relates the store to the log of the requests that were applied to it. *)

From stdpp Require Import base gmap list sorting strings.
From S2P Require Import Prelude Crypto ByteReader PeerLease PeerLeaseJournal PeerLeaseRuns PeerLeaseTheorems PeerLeaseFrames.

Definition MAX_CONNECTIONS : nat := 64.
Definition IO_STEPS_PER_TURN : nat := 16.

(** A [read] or [write]: how many bytes it may move, or how it failed. *)
Inductive IoResult := Moved (count : nat) | Interrupted | WouldBlock | IoFailed.

(** One pass of the loop of [advance]: the deadline checks, the call on the stream, the
    clock, the file system and the diagnostic write of a failed authority. *)
Record IoEvent := mkIoEvent {
  io_expired : bool;
  io_result : IoResult;
  io_expired_decoded : bool;
  io_clock : LResult Z;
  io_expired_clocked : bool;
  io_faults : Faults;
  io_diagnostic : option nat;
}.

(** The stream that one [accept] returned, and everything its peer sends. *)
Record Stream := mkStream { st_id : nat; st_bytes : list Z }.

Record Connection := mkConnection {
  cn_stream : Stream;
  cn_taken : nat;           (** how much of it was read *)
  cn_output : list Z;       (** what was written to the peer *)
  cn_frame : list Z;
  cn_offset : nat;
  cn_responding : bool;
}.

Definition cn_peer (c : Connection) : list Z := st_bytes (cn_stream c).

Inductive LeaseConnectionFailureV1 := ClientFailure (e : PeerLeaseErrorV1) | Authority (e : PeerLeaseErrorV1).

(** [Connection::accept]: the credentials of the peer, then the mode of the socket. *)
Definition accept (authorized nonblocking : LResult ()) (stream : Stream) : result LeaseConnectionFailureV1 Connection :=
  match authorized with
  | Ok _ =>
      _ ← map_err Authority nonblocking;
      Ok (mkConnection stream 0 [] (replicate 8 0) 0 false)
  | Err (Rejected LeaseReject.UnauthorizedPeer) => Err (ClientFailure (Rejected LeaseReject.UnauthorizedPeer))
  | Err error => Err (Authority error)
  | Panic => Panic
  end.

(** [stream.write(&frame[offset..])] or [stream.read(&mut frame[offset..])]: the count, and
    the connection with the bytes moved and the offset advanced. *)
Definition transfer (count : nat) (c : Connection) : nat * Connection :=
  let room := (length (cn_frame c) - cn_offset c)%nat in
  if cn_responding c then
    let n := Nat.min count room in
    (n, mkConnection (cn_stream c) (cn_taken c) (cn_output c ++ take n (drop (cn_offset c) (cn_frame c))) (cn_frame c) (cn_offset c + n) true)
  else
    let pending := drop (cn_taken c) (cn_peer c) in
    let n := Nat.min count (Nat.min room (length pending)) in
    (n, mkConnection (cn_stream c) (cn_taken c + n) (cn_output c)
          (take (cn_offset c) (cn_frame c) ++ take n pending ++ drop (cn_offset c + n) (cn_frame c)) (cn_offset c + n) false).

Definition set_frame (frame : list Z) (c : Connection) : Connection :=
  mkConnection (cn_stream c) (cn_taken c) (cn_output c) frame (cn_offset c) (cn_responding c).

(** A pass continues the loop or returns from [advance]. *)
Inductive Flow := Continue | Return (r : result LeaseConnectionFailureV1 bool).

Section daemon.
Context `{CryptoCrates, !DigestWidth}.

(** The whole request is in the frame: decode, apply and prepare the answer. *)
Definition respond (e : IoEvent) (c : Connection) (s : PeerLeaseStoreV1) : Flow * Connection * PeerLeaseStoreV1 :=
  match decode_request (cn_frame c) with
  | Err error => (Return (Err (ClientFailure error)), c, s)
  | Panic => (Return Panic, c, s)
  | Ok request =>
      if io_expired_decoded e then (Return (Err (ClientFailure Io)), c, s) else
      match io_clock e with
      | Err error => (Return (Err (Authority error)), c, s)
      | Panic => (Return Panic, c, s)
      | Ok now =>
          if io_expired_clocked e then (Return (Err (ClientFailure Io)), c, s) else
          let '(r, s) := apply (io_faults e) request now s in
          match response_for_result r with
          | Ok response => (Continue, mkConnection (cn_stream c) (cn_taken c) (cn_output c) (encode_response response) 0 true, s)
          | Err error =>
              let written := match io_diagnostic e, error with
                | Some n, Rejected code => take n (encode_response (RejectedWith code))
                | _, _ => []
                end in
              (Return (Err (Authority error)),
               mkConnection (cn_stream c) (cn_taken c) (cn_output c ++ written) (cn_frame c) (cn_offset c) (cn_responding c), s)
          | Panic => (Return Panic, c, s)
          end
      end
  end.

(** One pass of the loop; [&frame[offset..]] panics past the end. *)
Definition advance_pass (e : IoEvent) (c : Connection) (s : PeerLeaseStoreV1) : Flow * Connection * PeerLeaseStoreV1 :=
  if io_expired e then (Return (Err (ClientFailure Io)), c, s) else
  if (length (cn_frame c) <? cn_offset c)%nat then (Return Panic, c, s) else
  match io_result e with
  | Interrupted => (Continue, c, s)
  | WouldBlock => (Return (Ok false), c, s)
  | IoFailed => (Return (Err (ClientFailure Io)), c, s)
  | Moved count =>
      let '(n, c) := transfer count c in
      if (n =? 0)%nat then (Return (Err (ClientFailure Io)), c, s) else
      if negb (cn_offset c =? length (cn_frame c))%nat then (Continue, c, s) else
      if cn_responding c then (Return (Ok true), c, s) else
      if (length (cn_frame c) =? 8)%nat then
        if take 4 (cn_frame c) <>? FRAME_MAGIC_V1 then (Return (Err (ClientFailure (Protocol "invalid peer-lease frame magic"))), c, s) else
        let len := of_le_bytes (take 4 (drop 4 (cn_frame c))) in
        if MAX_FRAME_BYTES_V1 <? len then (Return (Err (ClientFailure (Protocol "peer-lease frame exceeds limit"))), c, s) else
        if len =? 0 then respond e c s
        else (Continue, set_frame (cn_frame c ++ replicate (Z.to_nat len) 0) c, s)
      else respond e c s
  end.

Fixpoint advance_loop (passes : nat) (env : nat -> IoEvent) (c : Connection) (s : PeerLeaseStoreV1)
    : result LeaseConnectionFailureV1 bool * Connection * PeerLeaseStoreV1 :=
  match passes with
  | O => (Ok false, c, s)
  | S passes =>
      match advance_pass (env O) c s with
      | (Continue, c, s) => advance_loop passes (fun k => env (S k)) c s
      | (Return r, c, s) => (r, c, s)
      end
  end.
Definition advance (env : nat -> IoEvent) (c : Connection) (s : PeerLeaseStoreV1) := advance_loop IO_STEPS_PER_TURN env c s.

(** ** The service *)

Inductive AcceptEvent :=
| Accepted (authorized nonblocking : LResult ()) (stream : Stream)
| AcceptWouldBlock
| AcceptInterrupted
| AcceptFailed.

Fixpoint accept_loop (room : nat) (env : nat -> AcceptEvent) (connections : list Connection) : LResult (list Connection) :=
  match room with
  | O => Ok connections
  | S room =>
      let next := accept_loop room (fun k => env (S k)) in
      match env O with
      | Accepted authorized nonblocking stream =>
          match accept authorized nonblocking stream with
          | Ok connection => next (connections ++ [connection])
          | Err (ClientFailure _) => next connections
          | Err (Authority error) => Err error
          | Panic => Panic
          end
      | AcceptWouldBlock => Ok connections
      | AcceptInterrupted => next connections
      | AcceptFailed => Err Io
      end
  end.

(** The loop over [index]: a finished or failed connection is removed, the others stay in
    their order. *)
Fixpoint advance_all (env : nat -> nat -> IoEvent) (connections : list Connection) (s : PeerLeaseStoreV1)
    : LResult (list Connection) * PeerLeaseStoreV1 :=
  match connections with
  | [] => (Ok [], s)
  | c :: connections =>
      let next s := advance_all (fun k => env (S k)) connections s in
      match advance (env O) c s with
      | (Ok false, c, s) => let '(r, s) := next s in (rest ← r; Ok (c :: rest), s)
      | (Ok true, _, s) | (Err (ClientFailure _), _, s) => next s
      | (Err (Authority error), _, s) => (Err error, s)
      | (Panic, _, s) => (Panic, s)
      end
  end.

Record TurnEvent := mkTurnEvent { tn_accept : nat -> AcceptEvent; tn_io : nat -> nat -> IoEvent; tn_poll : LResult () }.

Definition rotate_left (connections : list Connection) : list Connection :=
  if (1 <? length connections)%nat then drop 1 connections ++ take 1 connections else connections.

(** One turn of the loop of [serve]; an error ends the service. *)
Definition serve_turn (env : TurnEvent) (connections : list Connection) (s : PeerLeaseStoreV1) : LResult (list Connection) * PeerLeaseStoreV1 :=
  match accept_loop (MAX_CONNECTIONS - length connections) (tn_accept env) connections with
  | Ok connections =>
      let '(r, s) := advance_all (tn_io env) connections s in
      (connections ← r;
       let connections := rotate_left connections in
       _ ← tn_poll env;
       Ok connections, s)
  | Err error => (Err error, s)
  | Panic => (Panic, s)
  end.

(** The answers of the operating system: a clock in range, bytes on the sockets, and no
    panic. *)
Definition io_typed (e : IoEvent) : Prop := io_clock e <> Panic /\ forall now, io_clock e = Ok now -> in_u64 now.
Definition accept_typed (e : AcceptEvent) : Prop :=
  match e with Accepted authorized nonblocking stream => authorized <> Panic /\ nonblocking <> Panic /\ Forall is_byte (st_bytes stream) | _ => True end.
Record turn_typed (env : TurnEvent) : Prop := {
  tn_accept_typed k : accept_typed (tn_accept env k);
  tn_io_typed i k : io_typed (tn_io env i k);
  tn_poll_typed : tn_poll env <> Panic;
}.

(** A daemon opens the files that any earlier run left, and serves.  [accepted] are the
    streams of its connections so far, no two of which are the same stream. *)
Inductive serving : PeerLeaseStoreV1 -> list Stream -> list Connection -> PeerLeaseStoreV1 -> Prop :=
| serving_open p acks fault s d : reach p acks -> open fault (disk_of p) = (Ok s, d) -> serving s [] [] s
| serving_next env s0 accepted connections new s connections' s' : serving s0 accepted connections s -> turn_typed env ->
    accept_loop (MAX_CONNECTIONS - length connections) (tn_accept env) connections = Ok (connections ++ new) ->
    NoDup (accepted ++ (cn_stream <$> new)) ->
    serve_turn env connections s = (Ok connections', s') -> serving s0 (accepted ++ (cn_stream <$> new)) connections' s'.

(** ** The log of applied requests *)

(** One call of [store.apply], for the request in the first [ap_taken] bytes of a stream. *)
Record Application := mkApplication {
  ap_stream : Stream;
  ap_taken : nat;
  ap_request : LeaseRequestV1;
  ap_now : Z;
  ap_faults : Faults;
  ap_result : LResult PeerLeaseTokenV1;
}.

Definition performed (a : Application) (s s' : PeerLeaseStoreV1) : Prop :=
  apply (ap_faults a) (ap_request a) (ap_now a) s = (ap_result a, s').

(** The requests of [log], applied one after another, lead from the opened store to the
    present one.  No stream has more than one of them, each is what its stream sent, and
    a token it answered is one that the authority issued for its scope and session. *)
Record served (s0 : PeerLeaseStoreV1) (accepted : list Stream) (log : list Application) (s : PeerLeaseStoreV1) : Prop := mkServed {
  sv_store : along (performed <$> log) s0 s;
  sv_once : NoDup (ap_stream <$> log);
  sv_accepted a : a ∈ log -> ap_stream a ∈ accepted;
  sv_request a : a ∈ log -> decode_request (take (ap_taken a) (st_bytes (ap_stream a))) = Ok (ap_request a);
  sv_tokens : exists acks, reach (Up s) acks /\ forall a t, a ∈ log -> ap_result a = Ok t ->
    t ∈ acks /\ tk_scope t = rq_scope (ap_request a) /\ tk_session_id t = rq_session_id (ap_request a);
}.

(** An open connection reads, and nothing of its stream was applied; or it has read one
    request, which was applied, and writes the answer. *)
Definition connection_ok (accepted : list Stream) (log : list Application) (c : Connection) : Prop :=
  cn_stream c ∈ accepted /\ Forall is_byte (cn_peer c) /\ (cn_offset c <= length (cn_frame c))%nat /\
  if cn_responding c then
    exists a response, a ∈ log /\ ap_stream a = cn_stream c /\ ap_taken a = cn_taken c /\
      response_for_result (ap_result a) = Ok response /\
      cn_frame c = encode_response response /\ cn_output c = take (cn_offset c) (cn_frame c)
  else
    ((cn_stream c ∉ (ap_stream <$> log)) /\
     cn_output c = [] /\ cn_offset c = cn_taken c /\ take (cn_offset c) (cn_frame c) = take (cn_taken c) (cn_peer c)).

(** An application of [c]'s request, with the clock and the file system of a pass of [env]. *)
Definition applied_by (c : Connection) (env : nat -> IoEvent) (a : Application) : Prop :=
  ap_stream a = cn_stream c /\ exists k, io_clock (env k) = Ok (ap_now a) /\ io_faults (env k) = ap_faults a.

Lemma connection_ok_mono accepted accepted' log log' c : accepted ⊆ accepted' -> cn_stream c ∉ (ap_stream <$> log') ->
  connection_ok accepted log c -> connection_ok accepted' (log ++ log') c.
Proof.
  intros Hsub Hnew (Hin & Hb & Ho & Hc). split_and!; [by apply Hsub|done|done|]. destruct (cn_responding c).
  - destruct Hc as (a & response & Ha & ?). exists a, response. split; [set_solver|done].
  - destruct Hc as [Hno ?]. split; [|done]. rewrite fmap_app. set_solver.
Qed.

Lemma transfer_stream count c n c' : transfer count c = (n, c') -> cn_stream c' = cn_stream c.
Proof. unfold transfer. destruct (cn_responding c); by intros [= <- <-]. Qed.

Lemma transfer_ok accepted log count c n c' : connection_ok accepted log c -> transfer count c = (n, c') -> connection_ok accepted log c'.
Proof.
  intros (Hin & Hb & Ho & Hc). unfold transfer. destruct (cn_responding c) eqn:Hr; intros [= <- <-]; unfold connection_ok, cn_peer in *; cbn [cn_stream cn_taken cn_output cn_frame cn_offset cn_responding].
  - split_and!; [done|done|lia|]. destruct Hc as (a & response & Ha & Hs & Ht & Hres & Hf & Hout). exists a, response. split_and!; try done.
    rewrite Hout. by rewrite take_take_drop.
  - destruct Hc as (Hno & Hout & Hoff & Hpre). set (n := Nat.min _ _). assert (Hn : (n <= length (cn_frame c) - cn_offset c)%nat /\ (n <= length (drop (cn_taken c) (st_bytes (cn_stream c))))%nat) by (unfold n; lia).
    destruct Hn as [Hn1 Hn2]. split_and!; [done|done| |done|done|lia|].
    + rewrite !length_app, !length_take, !length_drop in *. lia.
    + rewrite app_assoc, take_app_le by (rewrite length_app, !length_take; lia). rewrite firstn_all2 by (rewrite length_app, !length_take; lia).
      by rewrite Hpre, take_take_drop.
Qed.

(** A decoded request is well typed. *)
Lemma decoded_typed b request : Forall is_byte b -> decode_request b = Ok request -> typed_request request.
Proof. intros Hb Hd. destruct (frame_exact _ _ _ b request exact_request request_length Hb) as [Hx _]. by apply Hx in Hd as [? _]. Qed.

Lemma decode_total b : Forall is_byte b -> decode_request b <> Panic.
Proof. intros Hb. by destruct (frame_exact _ _ _ b (mkRequest Acquire (mkScope [] [] Outbound 0 []) [] 0 0 0 []) exact_request request_length Hb) as [_ Hp]. Qed.

(** What a pass or an [advance] of [c] with the events [env] leaves. *)
Definition pass_ok (accepted : list Stream) (log : list Application) (f : Flow) (c : Connection) : Prop :=
  match f with
  | Continue => connection_ok accepted log c
  | Return (Ok finished) => connection_ok accepted log c /\ (finished = true -> cn_responding c = true /\ cn_output c = cn_frame c)
  | Return (Err _) => True
  | Return Panic => False
  end.
Definition advanced (s0 : PeerLeaseStoreV1) (accepted : list Stream) (log : list Application) (env : nat -> IoEvent) (c : Connection)
    (f : Flow) (c' : Connection) (s' : PeerLeaseStoreV1) : Prop :=
  cn_stream c' = cn_stream c /\
  exists log', served s0 accepted (log ++ log') s' /\ Forall (applied_by c env) log' /\ pass_ok accepted (log ++ log') f c'.

Lemma advanced_same s0 accepted log env c f c' s : served s0 accepted log s -> cn_stream c' = cn_stream c ->
  pass_ok accepted log f c' -> advanced s0 accepted log env c f c' s.
Proof. intros Hs Hc Hp. split; [done|]. exists []. by rewrite app_nil_r. Qed.

(** One more application. *)
Lemma served_apply s0 accepted log s a s' : served s0 accepted log s -> ap_stream a ∈ accepted -> ap_stream a ∉ (ap_stream <$> log) ->
  Forall is_byte (st_bytes (ap_stream a)) -> decode_request (take (ap_taken a) (st_bytes (ap_stream a))) = Ok (ap_request a) ->
  in_u64 (ap_now a) -> performed a s s' -> served s0 accepted (log ++ [a]) s' /\ ap_result a <> Panic.
Proof.
  intros [Hstore Honce Hacc Hreq (acks & Hreach & Htok)] Hin Hno Hb Hd Hn Hap.
  assert (Hty : typed_request (ap_request a)) by (eapply decoded_typed; [|exact Hd]; by apply Forall_take).
  pose proof (reach_apply_total s acks (ap_faults a) (ap_request a) (ap_now a) Hreach Hty Hn) as Htot. unfold performed in Hap. rewrite Hap in Htot.
  split; [|done]. split.
  - rewrite fmap_app. apply along_app. exists s. split; [done|by apply along_one].
  - rewrite fmap_app. apply NoDup_app. split_and!; [done|set_solver|apply NoDup_singleton].
  - set_solver.
  - intros a' [Ha| ->%list_elem_of_singleton]%elem_of_app; [by apply Hreq|done].
  - pose proof (reach_apply _ _ _ _ _ _ _ Hreach Hty Hn Hap) as Hnext. exists (match ap_result a with Ok token => token :: acks | _ => acks end). split; [done|].
    intros a' t [Ha| ->%list_elem_of_singleton]%elem_of_app Ht.
    + destruct (Htok a' t Ha Ht) as [? ?]. split; [|done]. destruct (ap_result a); set_solver.
    + rewrite Ht in Hap |- *. destruct (reach_apply_token _ _ _ _ _ _ _ Hreach Hty Hn Hap). split; [set_solver|done].
Qed.

Lemma respond_ok s0 accepted log env c s f c' s' : served s0 accepted log s -> connection_ok accepted log c -> io_typed (env O) -> cn_responding c = false ->
  cn_offset c = length (cn_frame c) -> respond (env O) c s = (f, c', s') -> advanced s0 accepted log env c f c' s'.
Proof.
  intros Hserved (Hin & Hb & _ & Hc) [Hclk Hnow] Hresp Hfull. rewrite Hresp in Hc. destruct Hc as (Hno & Hout & Hoff & Hpre). rewrite Hfull, firstn_all in Hpre.
  assert (Hstay : forall r, r <> Panic -> (forall b, r <> Ok b) -> advanced s0 accepted log env c (Return r) c s)
    by (intros r Hr1 Hr2; apply advanced_same; [done|done|by destruct r; [edestruct Hr2| |]]).
  unfold respond. rewrite Hpre. pose proof (decode_total _ (Forall_take _ (cn_taken c) _ Hb)) as Hnp.
  destruct (decode_request _) as [request|error|] eqn:Hd; [|intros [= <- <- <-]; by apply Hstay|done].
  destruct (io_expired_decoded (env O)); [intros [= <- <- <-]; by apply Hstay|].
  destruct (io_clock (env O)) as [now|error|] eqn:Hclock; [|intros [= <- <- <-]; by apply Hstay|done].
  destruct (io_expired_clocked (env O)); [intros [= <- <- <-]; by apply Hstay|]. destruct (apply (io_faults (env O)) request now s) as [r s1] eqn:Hap.
  set (a := mkApplication (cn_stream c) (cn_taken c) request now (io_faults (env O)) r).
  destruct (served_apply s0 accepted log s a s1 Hserved Hin Hno Hb Hd (Hnow now eq_refl) Hap) as [Hserved' Htot].
  assert (Hby : Forall (applied_by c env) [a]) by (apply Forall_singleton; split; [done|by exists O]).
  assert (Hanswer : forall response, response_for_result r = Ok response ->
    advanced s0 accepted log env c Continue (mkConnection (cn_stream c) (cn_taken c) (cn_output c) (encode_response response) 0 true) s1).
  { intros response Hr. split; [done|]. exists [a]. split_and!; [done|done|]. split_and!; [done|done|cbn; lia|]. exists a, response. split_and!; try done; set_solver. }
  assert (Hfail : forall error c1, cn_stream c1 = cn_stream c -> advanced s0 accepted log env c (Return (Err error)) c1 s1)
    by (intros error c1 H1; split; [done|]; by exists [a]).
  destruct (response_for_result r) as [response|error|] eqn:Hres; [intros [= <- <- <-]; by apply Hanswer|intros [= <- <- <-]; by apply Hfail|].
  destruct r as [|[| | |[]]|]; done.
Qed.

Lemma pass_keeps s0 accepted log env c s f c' s' : served s0 accepted log s -> connection_ok accepted log c -> io_typed (env O) ->
  advance_pass (env O) c s = (f, c', s') -> advanced s0 accepted log env c f c' s'.
Proof.
  intros Hserved Hc He. unfold advance_pass. destruct (io_expired (env O)); [intros [= <- <- <-]; by apply advanced_same|].
  rewrite (proj2 (Nat.ltb_ge _ _)) by apply Hc. destruct (io_result (env O)) as [count| | |]; [|intros [= <- <- <-]; by apply advanced_same..].
  destruct (transfer count c) as [n c1] eqn:Ht. pose proof (transfer_ok _ _ _ _ _ _ Hc Ht) as Hc1. pose proof (transfer_stream _ _ _ _ Ht) as Hst.
  destruct (n =? 0)%nat; [intros [= <- <- <-]; by apply advanced_same|].
  destruct (cn_offset c1 =? length (cn_frame c1))%nat eqn:Hfull; cbn [negb]; [|intros [= <- <- <-]; by apply advanced_same].
  apply Nat.eqb_eq in Hfull. destruct (cn_responding c1) eqn:Hr.
  - intros [= <- <- <-]. apply advanced_same; [done|done|]. split; [done|]. intros _. split; [done|]. destruct Hc1 as (_ & _ & _ & Hx). rewrite Hr in Hx.
    destruct Hx as (_ & _ & _ & _ & _ & _ & _ & Hout). by rewrite Hout, Hfull, firstn_all.
  - assert (Hresp : respond (env O) c1 s = (f, c', s') -> advanced s0 accepted log env c f c' s').
    { intros Hres. pose proof (respond_ok _ _ _ _ _ _ _ _ _ Hserved Hc1 He Hr Hfull Hres) as Hadv. unfold advanced, applied_by in *. by rewrite Hst in Hadv. }
    destruct (length (cn_frame c1) =? 8)%nat; [|exact Hresp].
    destruct (negb (bool_decide (take 4 _ = _))); [intros [= <- <- <-]; by apply advanced_same|].
    destruct (_ <? _); [intros [= <- <- <-]; by apply advanced_same|]. destruct (_ =? 0); [exact Hresp|].
    intros [= <- <- <-]. apply advanced_same; [done|done|]. destruct Hc1 as (Hin & Hb & Ho & Hx). rewrite Hr in Hx. destruct Hx as (Hno & Hout & Hoff & Hpre).
    unfold pass_ok, connection_ok, set_frame, cn_peer. cbn [cn_stream cn_taken cn_output cn_frame cn_offset cn_responding]. rewrite Hr. split_and!; [done|done|rewrite length_app; lia|done|done|done|].
    by rewrite take_app_le by lia.
Qed.

Lemma advance_loop_keeps passes : forall env s0 accepted log c s r c' s', served s0 accepted log s -> connection_ok accepted log c -> (forall k, io_typed (env k)) ->
  advance_loop passes env c s = (r, c', s') -> advanced s0 accepted log env c (Return r) c' s'.
Proof.
  induction passes as [|passes IH]; intros env s0 accepted log c s r c' s' Hserved Hc He; cbn [advance_loop]; [intros [= <- <- <-]; by apply advanced_same|].
  destruct (advance_pass (env O) c s) as [[f c1] s1] eqn:Hp. pose proof (pass_keeps _ _ _ _ _ _ _ _ _ Hserved Hc (He O) Hp) as Hadv. destruct f as [|r1]; [|intros [= <- <- <-]; done].
  destruct Hadv as (Hst & log1 & Hs1 & Hby1 & Hc1). intros Ha. destruct (IH _ _ _ _ _ _ _ _ _ Hs1 Hc1 (fun k => He (S k)) Ha) as (Hst2 & log2 & Hs2 & Hby2 & Hp2).
  split; [by rewrite Hst2|]. exists (log1 ++ log2). rewrite app_assoc. split_and!; [done| |done]. apply Forall_app. split; [done|].
  eapply Forall_impl; [exact Hby2|]. intros a (Ha1 & k & Hk). split; [by rewrite Ha1|by exists (S k)].
Qed.

Lemma advance_keeps env s0 accepted log c s r c' s' : served s0 accepted log s -> connection_ok accepted log c -> (forall k, io_typed (env k)) ->
  advance env c s = (r, c', s') -> advanced s0 accepted log env c (Return r) c' s'.
Proof. apply advance_loop_keeps. Qed.

(** ** Turns of the service *)

(** A new connection has read nothing. *)
Definition just_accepted (c : Connection) : Prop :=
  Forall is_byte (cn_peer c) /\ c = mkConnection (cn_stream c) 0 [] (replicate 8 0) 0 false.

Lemma just_accepted_ok accepted log c : just_accepted c -> cn_stream c ∈ accepted -> cn_stream c ∉ (ap_stream <$> log) -> connection_ok accepted log c.
Proof. intros [Hb ->] Hin Hno. split_and!; [done|done|cbn; lia|]. by split_and!. Qed.

Lemma accept_loop_keeps room : forall env connections, (forall k, accept_typed (env k)) ->
  match accept_loop room env connections with
  | Ok connections' => exists new, connections' = connections ++ new /\ Forall just_accepted new /\ (length new <= room)%nat
  | Err _ => True
  | Panic => False
  end.
Proof.
  induction room as [|room IH]; intros env connections He; cbn [accept_loop]; [exists []; by rewrite app_nil_r|].
  pose proof (He O) as He0. pose proof (fun cs => IH (fun k => env (S k)) cs (fun k => He (S k))) as Hnext.
  assert (Hstop : exists new, connections = connections ++ new /\ Forall just_accepted new /\ (length new <= S room)%nat)
    by (exists []; rewrite app_nil_r; split_and!; [done|done|cbn; lia]).
  assert (Hskip : match accept_loop room (fun k => env (S k)) connections with
    | Ok connections' => exists new, connections' = connections ++ new /\ Forall just_accepted new /\ (length new <= S room)%nat | Err _ => True | Panic => False end).
  { specialize (Hnext connections). destruct (accept_loop _ _ _); [|done..]. destruct Hnext as (new & ? & ? & ?). exists new. split_and!; [done|done|lia]. }
  destruct (env O) as [auth nb stream| | |]; [|done|done|done]. destruct He0 as (Ha & Hn & Hp). unfold accept. destruct auth as [[]|error|]; [|by destruct error as [| | |[]]|done].
  destruct nb as [[]|error|]; cbn [map_err mbind result_bind]; [|done..]. set (c := mkConnection stream 0 [] (replicate 8 0) 0 false).
  specialize (Hnext (connections ++ [c])). destruct (accept_loop _ _ _); [|done..]. destruct Hnext as (new & -> & Hnew & Hl). exists (c :: new).
  split_and!; [by rewrite <- app_assoc|by constructor|cbn; lia].
Qed.

(** The connections that a turn keeps, and the requests it applies. *)
Lemma advance_all_keeps connections : forall env s0 accepted log s r s', served s0 accepted log s -> Forall (connection_ok accepted log) connections ->
  NoDup (cn_stream <$> connections) -> (forall i k, io_typed (env i k)) -> advance_all env connections s = (r, s') ->
  exists log', served s0 accepted (log ++ log') s' /\ (forall a, a ∈ log' -> ap_stream a ∈ cn_stream <$> connections) /\
  match r with
  | Ok connections' => Forall (connection_ok accepted (log ++ log')) connections' /\ (cn_stream <$> connections') `sublist_of` (cn_stream <$> connections)
  | Err _ => True
  | Panic => False
  end.
Proof.
  induction connections as [|c connections IH]; intros env s0 accepted log s r s' Hserved Hcs Hnd He; cbn [advance_all].
  { intros [= <- <-]. exists []. rewrite app_nil_r. split_and!; [done|by intros a ?%elem_of_nil|done|done]. }
  apply Forall_cons in Hcs as [Hc Hcs]. apply NoDup_cons in Hnd as [Hfresh Hnd]. destruct (advance (env O) c s) as [[r1 c1] s1] eqn:Ha.
  destruct (advance_keeps _ _ _ _ _ _ _ _ _ Hserved Hc (He O) Ha) as (Hst & log1 & Hs1 & Hby & Hp).
  assert (Hl1 : forall a, a ∈ log1 -> ap_stream a = cn_stream c) by (intros a Hin; rewrite Forall_forall in Hby; by apply Hby).
  assert (Hcs1 : Forall (connection_ok accepted (log ++ log1)) connections).
  { rewrite Forall_forall in Hcs |- *. intros x Hx. apply (connection_ok_mono accepted accepted); [done| |by apply Hcs].
    intros (a & Heq & Hin)%list_elem_of_fmap. apply Hfresh. rewrite <- (Hl1 a Hin), <- Heq. by apply list_elem_of_fmap_2. }
  pose proof (fun r s' => IH (fun k => env (S k)) s0 accepted (log ++ log1) s1 r s' Hs1 Hcs1 Hnd (fun k => He (S k))) as Hnext.
  assert (Hkeep : forall log2, (forall a, a ∈ log2 -> ap_stream a ∈ cn_stream <$> connections) ->
    forall a, a ∈ log1 ++ log2 -> ap_stream a ∈ cn_stream <$> c :: connections).
  { intros log2 H2 a [Hin|Hin]%elem_of_app; [rewrite (Hl1 a Hin); by left|right; by apply H2]. }
  assert (Hdrop : forall r s', advance_all (fun k => env (S k)) connections s1 = (r, s') -> exists log', served s0 accepted (log ++ log') s' /\
    (forall a, a ∈ log' -> ap_stream a ∈ cn_stream <$> c :: connections) /\
    match r with Ok connections' => Forall (connection_ok accepted (log ++ log')) connections' /\ (cn_stream <$> connections') `sublist_of` (cn_stream <$> c :: connections)
    | Err _ => True | Panic => False end).
  { intros r2 s2 H2. destruct (Hnext _ _ H2) as (log2 & Hs2 & Hl2 & Hm). exists (log1 ++ log2). rewrite app_assoc. split_and!; [done|by apply Hkeep|].
    destruct r2; [|done..]. destruct Hm. split; [done|by apply sublist_cons]. }
  destruct r1 as [[]|[|]|]; [apply Hdrop| |apply Hdrop|intros [= <- <-]; exists log1; split_and!; [done| |done]|done].
  2:{ intros a Hin. rewrite (Hl1 a Hin). by left. }
  destruct (advance_all _ connections s1) as [r2 s2] eqn:H2. destruct (Hnext _ _ eq_refl) as (log2 & Hs2 & Hl2 & Hm). intros [= <- <-].
  exists (log1 ++ log2). rewrite app_assoc. split_and!; [done|by apply Hkeep|]. destruct r2 as [rest| |]; [|done..]. cbn [mbind result_bind]. destruct Hm as [? ?].
  split; [|rewrite !fmap_cons, Hst; by apply sublist_skip]. apply Forall_cons. split; [|done]. apply (connection_ok_mono accepted accepted); [done| |apply Hp].
  rewrite Hst. intros (a & Heq & Hin)%list_elem_of_fmap. apply Hfresh. rewrite Heq. by apply Hl2.
Qed.

Lemma rotate_left_perm cs : rotate_left cs ≡ₚ cs.
Proof. unfold rotate_left. destruct (_ <? _)%nat; [|done]. rewrite Permutation_app_comm. by rewrite take_drop. Qed.

(** The open connections are those of distinct accepted streams. *)
Lemma serving_keeps s0 accepted connections s : serving s0 accepted connections s ->
  exists log, served s0 accepted log s /\ Forall (connection_ok accepted log) connections /\ (length connections <= MAX_CONNECTIONS)%nat /\
    NoDup (cn_stream <$> connections) /\ NoDup accepted.
Proof.
  induction 1 as [p acks fault s d Hreach Ho|env s0 accepted connections new s connections' s' _ (log & Hserved & Hcs & Hlen & Hnd & _) Henv Hacc Hnew Ht].
  - exists []. split_and!; [|done|cbn; lia|constructor|constructor]. split; [done|constructor|by intros a ?%elem_of_nil..|].
    exists acks. split; [exact (reach_open _ _ _ _ _ Hreach Ho)|by intros a t ?%elem_of_nil].
  - unfold serve_turn in Ht. pose proof (accept_loop_keeps (MAX_CONNECTIONS - length connections) (tn_accept env) connections (tn_accept_typed _ Henv)) as Hloop.
    rewrite Hacc in Hloop, Ht. destruct Hloop as (new' & ->%app_inv_head & Hjust & Hl1). destruct (advance_all (tn_io env) (connections ++ new') s) as [r s1] eqn:Ha.
    assert (Hold : forall c, c ∈ connections -> cn_stream c ∈ accepted) by (intros c Hc; rewrite Forall_forall in Hcs; by apply Hcs).
    pose proof Hnew as (_ & Hdisj & Hnew')%NoDup_app. set (accepted' := accepted ++ (cn_stream <$> new')) in *.
    assert (Hserved' : served s0 accepted' log s) by (destruct Hserved as [? ? Hin ? ?]; split; [done|done| |done|done]; intros a Hlog; apply elem_of_app; left; by apply Hin).
    assert (Hcs' : Forall (connection_ok accepted' log) (connections ++ new')).
    { apply Forall_app. split.
      - eapply Forall_impl; [exact Hcs|]. intros c Hc. rewrite <- (app_nil_r log). eapply connection_ok_mono; [|by apply not_elem_of_nil|exact Hc]. set_solver.
      - rewrite Forall_forall in Hjust |- *. intros c Hc. apply just_accepted_ok; [by apply Hjust|apply elem_of_app; right; by apply list_elem_of_fmap_2|].
        intros (a & Heq & Hin)%list_elem_of_fmap. apply (Hdisj (cn_stream c)); [rewrite Heq; by apply (sv_accepted _ _ _ _ Hserved)|by apply list_elem_of_fmap_2]. }
    assert (Hnd' : NoDup (cn_stream <$> connections ++ new')).
    { rewrite fmap_app. apply NoDup_app. split_and!; [done| |done]. intros st (c & -> & Hc)%list_elem_of_fmap. by apply Hdisj, Hold. }
    destruct (advance_all_keeps _ _ _ _ _ _ _ _ Hserved' Hcs' Hnd' (tn_io_typed _ Henv) Ha) as (log' & Hs' & _ & Hm). destruct r as [cs2| |]; [|done..]. destruct Hm as [Hcs2 Hsub].
    cbn [mbind result_bind] in Ht. destruct (tn_poll env); [|done..]. cbn [mbind result_bind] in Ht. injection Ht as <- <-. exists (log ++ log').
    pose proof (sublist_length _ _ Hsub) as Hl2. rewrite !length_fmap, length_app in Hl2.
    split_and!; [done|by rewrite rotate_left_perm|rewrite rotate_left_perm; lia|rewrite rotate_left_perm; by eapply sublist_NoDup|done].
Qed.

(** C35: The daemon serves the authority, and applies one request per connection.  In
    every run of the service, whatever the sockets, clocks and files do and however a
    request is cut into reads: there is a log of calls of [apply] that lead from the
    opened store to the present one, with at most one call per accepted stream, for the
    request that the first bytes of the stream are, and with tokens that the authority
    issued for the request's scope and session.  At most 64 connections are open; each
    has read a prefix of what its peer sends, had nothing applied and written nothing,
    or has read exactly one request, which the log holds, and written part of its
    answer.  Advancing a connection never panics, adds to the log at most one call, for
    its own stream with the time and the file system of a pass, and finishes only with
    the whole answer to the logged call written. *)
Theorem daemon_serves_the_authority s0 accepted connections s : serving s0 accepted connections s ->
  exists log, served s0 accepted log s /\ (length connections <= MAX_CONNECTIONS)%nat /\
    forall c, c ∈ connections -> connection_ok accepted log c /\
      forall env r c' s', (forall k, io_typed (env k)) -> advance env c s = (r, c', s') ->
        r <> Panic /\ exists log', served s0 accepted (log ++ log') s' /\ Forall (applied_by c env) log' /\
        (r = Ok true -> exists a response, a ∈ log ++ log' /\ ap_stream a = cn_stream c /\
           response_for_result (ap_result a) = Ok response /\ cn_output c' = encode_response response).
Proof.
  intros Hs. destruct (serving_keeps _ _ _ _ Hs) as (log & Hserved & Hcs & Hlen & _ & _). exists log. split_and!; [done|done|]. intros c Hc. rewrite Forall_forall in Hcs.
  split; [by apply Hcs|]. intros env r c' s' He Ha. destruct (advance_keeps _ _ _ _ _ _ _ _ _ Hserved (Hcs c Hc) He Ha) as (Hst & log' & Hs' & Hby & Hp). split; [by destruct r|].
  exists log'. split_and!; [done|done|]. intros ->. destruct Hp as [(_ & _ & _ & Hok) Hfin]. destruct (Hfin eq_refl) as [Hresp Hout]. rewrite Hresp in Hok.
  destruct Hok as (a & response & Hin & Hsa & _ & Hres & Hf & _). exists a, response. split_and!; [done|congruence|done|congruence].
Qed.

End daemon.
