(* ===== verification/PeerLeaseWitness.v ===== *)
(** * PeerLeaseWitness: runs of the lease authority

    A toy digest of 32 bytes instantiates the crates.  Two sessions of one scope
    acquire it one after the other, with a restart between them, and a write that is
    cut short. *)

From stdpp Require Import base gmap list sorting strings.
From S2P Require Import Prelude Crypto ByteReader PeerLease PeerLeaseJournal PeerLeaseRuns PeerLeaseTheorems PeerLeaseFrames PeerLeaseDaemon.

Definition lease_digest (m : list Z) : list Z := le_bytes 32 (1 + foldl (fun a b => (a * 31 + b) mod 65521) 7 m).

#[export] Instance lease_crypto : CryptoCrates := {
  sha256 := lease_digest;
  hex_encode b := b;
  hex_decode s := Some s;
  hex_decode_to_slice s n := Some s;
  VerifyingKey := list Z;
  vk_from_bytes b := Some b;
  vk_to_bytes k := k;
  verify_strict k m s := s =?? (k ++ m);
  SigningKey := list Z;
  sk_from_bytes b := b;
  sk_verifying_key k := k;
  sk_sign k m := k ++ m;
}.

#[export] Instance lease_digest_width : DigestWidth.
Proof. intros m. split; [apply le_bytes_zlen|apply le_bytes_is_byte]. Qed.

Definition id32 (n : Z) : list Z := replicate 32 n.
Definition wire_scope : PeerLeaseScopeV1 := mkScope (id32 1) (id32 2) Outbound 5 (id32 3).
Definition acquire_a : LeaseRequestV1 := mkRequest Acquire wire_scope (id32 10) 1 0 1000 zero32.
Definition acquire_b : LeaseRequestV1 := mkRequest Acquire wire_scope (id32 11) 2 0 1000 zero32.

Definition opened (d : Disk) : PeerLeaseStoreV1 := match fst (open None d) with Ok s => s | _ => fresh_store d end.
Definition answered (r : LResult PeerLeaseTokenV1) : PeerLeaseTokenV1 := match r with Ok t => t | _ => mkToken wire_scope zero32 0 0 zero32 end.

Definition store0 : PeerLeaseStoreV1 := opened empty_disk.
Definition answer_a := apply no_faults acquire_a 100 store0.
Definition token_a : PeerLeaseTokenV1 := answered (fst answer_a).
Definition store1 : PeerLeaseStoreV1 := snd answer_a.
Definition store2 : PeerLeaseStoreV1 := opened (disk store1).
Definition answer_b := apply no_faults acquire_b 1100 store2.
Definition token_b : PeerLeaseTokenV1 := answered (fst answer_b).
Definition store3 : PeerLeaseStoreV1 := snd answer_b.

Lemma id32_width n : is_byte n -> bytes32 (id32 n).
Proof. intros Hn. split; [done|]. by apply Forall_replicate. Qed.

Lemma wire_scope_valid : valid_scope wire_scope.
Proof. split; try (split; [by apply id32_width|done]); done. Qed.

Lemma acquire_a_typed : typed_request acquire_a.
Proof. split; [apply wire_scope_valid|by apply id32_width|done|done|done|apply zero32_width]. Qed.
Lemma acquire_b_typed : typed_request acquire_b.
Proof. split; [apply wire_scope_valid|by apply id32_width|done|done|done|apply zero32_width]. Qed.

Lemma store0_opens : open None empty_disk = (Ok store0, disk store0).
Proof. vm_cast_no_check (eq_refl (Ok (E := PeerLeaseErrorV1) store0, disk store0)). Qed.
Lemma answer_a_ok : apply no_faults acquire_a 100 store0 = (Ok token_a, store1).
Proof. vm_cast_no_check (eq_refl (Ok (E := PeerLeaseErrorV1) token_a, store1)). Qed.
Lemma store2_opens : open None (disk store1) = (Ok store2, disk store2).
Proof. vm_cast_no_check (eq_refl (Ok (E := PeerLeaseErrorV1) store2, disk store2)). Qed.
Lemma answer_b_ok : apply no_faults acquire_b 1100 store2 = (Ok token_b, store3).
Proof. vm_cast_no_check (eq_refl (Ok (E := PeerLeaseErrorV1) token_b, store3)). Qed.

Lemma reach_store2 : reach (Up store2) [token_a].
Proof.
  refine (reach_open (Up store1) [token_a] None (Ok store2) (disk store2) _ store2_opens).
  refine (reach_apply store0 [] no_faults acquire_a 100 (Ok token_a) store1 _ acquire_a_typed _ answer_a_ok); [|done].
  exact (reach_open (Down empty_disk) [] None (Ok store0) (disk store0) reach_empty store0_opens).
Qed.

Lemma reach_store3 : reach (Up store3) [token_b; token_a].
Proof. refine (reach_apply store2 [token_a] no_faults acquire_b 1100 (Ok token_b) store3 reach_store2 acquire_b_typed _ answer_b_ok). done. Qed.

(** The second session acquires the expired scope; reopening gives the same authority. *)
Lemma lease_authority_is_durable_witness :
  active_lease store3 wire_scope = Some token_b /\ exists t, open None (disk store3) = (Ok t, disk store3) /\ authority t = authority store3.
Proof.
  destruct (lease_authority_is_durable store2 [token_a] no_faults acquire_b 1100 (Ok token_b) store3 reach_store2 acquire_b_typed) as [Ha Ho]; [done|exact answer_b_ok|].
  split; [exact Ha|]. apply Ho. right. vm_compute. discriminate.
Defined.

(** The journal of the run holds both acquisitions, each granted by the earlier one. *)
Lemma journal_is_a_granted_history_witness :
  exists h torn, d_journal (disk store3) = journal_bytes zero32 h ++ torn /\ zlen torn < RECORD_BYTES /\
    (forall before e after, h = before ++ e :: after -> granted before e) /\ (forall t, t ∈ [token_b; token_a] -> t ∈ tokens zero32 h).
Proof. exact (journal_is_a_granted_history (Up store3) [token_b; token_a] reach_store3). Defined.

Lemma leases_are_fenced_witness : tk_generation token_a = 1 /\ tk_generation token_b = 2 /\ StronglySorted supersedes [token_b; token_a].
Proof. split; [vm_compute; reflexivity|split; [vm_compute; reflexivity|]]. exact (leases_are_fenced (Up store3) [token_b; token_a] reach_store3). Defined.

Lemma frame_a_bytes : Forall is_byte (encode_request acquire_a).
Proof. apply all_bytes_ok. vm_compute. reflexivity. Qed.

Lemma lease_frames_are_exact_witness : decode_request (encode_request acquire_a) = Ok acquire_a.
Proof.
  destruct (lease_frames_are_exact (encode_request acquire_a) acquire_a (RejectedWith LeaseReject.Fenced) frame_a_bytes) as ((_ & Hd) & _). apply Hd. split; [exact acquire_a_typed|reflexivity].
Defined.

(** A write that stops inside the record poisons the store, and the torn journal is refused. *)
Example torn_write_is_refused :
  let s := snd (apply (mkFaults false (Some 50%nat) None false None) acquire_b 1100 store2) in
  poisoned s = true /\ fst (open None (disk s)) = Err corrupt.
Proof. vm_compute. done. Qed.

(** A client whose request arrives in pieces over two turns of the daemon. *)
Definition demo_event (r : IoResult) : IoEvent := mkIoEvent false r false (Ok 100) false no_faults None.
Definition demo_stream : Stream := mkStream 1 (encode_request acquire_a).
Definition demo_turn : TurnEvent := mkTurnEvent
  (fun k => match k with O => Accepted (Ok ()) (Ok ()) demo_stream | _ => AcceptWouldBlock end)
  (fun _ k => demo_event (match k with O => Moved 8 | S O => Moved 30 | _ => WouldBlock end)) (Ok ()).
Definition demo_connections : list Connection := match fst (serve_turn demo_turn [] store0) with Ok cs => cs | _ => [] end.
Definition demo_finish (k : nat) : IoEvent := demo_event (Moved 1000).
Definition demo_connection : Connection := default (mkConnection demo_stream 0 [] [] 0 false) (head demo_connections).
Definition demo_done : Connection := snd (fst (advance demo_finish demo_connection store0)).

Lemma demo_events_typed r : io_typed (demo_event r).
Proof. split; [done|]. intros now Hn. apply Ok_inj in Hn. by subst now. Qed.

Lemma demo_turn_typed : turn_typed demo_turn.
Proof.
  split; [|intros i k; apply demo_events_typed|done]. intros [|k]; [|done]. split_and!; [done|done|exact frame_a_bytes].
Qed.

Lemma demo_turn_runs : serve_turn demo_turn [] store0 = (Ok demo_connections, store0).
Proof. vm_cast_no_check (eq_refl (Ok (E := PeerLeaseErrorV1) demo_connections, store0)). Qed.
Lemma demo_finishes : advance demo_finish demo_connection store0 = (Ok true, demo_done, store1).
Proof. vm_cast_no_check (eq_refl (Ok (E := LeaseConnectionFailureV1) true, demo_done, store1)). Qed.
Lemma demo_connection_open : demo_connections = [demo_connection].
Proof. vm_cast_no_check (eq_refl [demo_connection]). Qed.

Lemma demo_accepts : accept_loop MAX_CONNECTIONS (tn_accept demo_turn) [] = Ok [mkConnection demo_stream 0 [] (replicate 8 0) 0 false].
Proof. reflexivity. Qed.

Lemma demo_serving : serving store0 [demo_stream] demo_connections store0.
Proof.
  refine (serving_next demo_turn store0 [] [] [mkConnection demo_stream 0 [] (replicate 8 0) 0 false] store0 demo_connections store0 _
    demo_turn_typed demo_accepts (NoDup_singleton _) demo_turn_runs).
  exact (serving_open (Down empty_disk) [] None store0 (disk store0) reach_empty store0_opens).
Qed.

(** The rest of the request arrives, is applied once, and its answer is written. *)
Lemma daemon_serves_the_authority_witness :
  (cn_taken demo_connection, cn_responding demo_connection) = (38%nat, false) /\
  exists log a response, served store0 [demo_stream] log store1 /\ a ∈ log /\ ap_stream a = demo_stream /\
    response_for_result (ap_result a) = Ok response /\ cn_output demo_done = encode_response response.
Proof.
  split; [vm_compute; reflexivity|].
  destruct (daemon_serves_the_authority store0 [demo_stream] demo_connections store0 demo_serving) as (log & _ & _ & Hall).
  assert (Hin : demo_connection ∈ demo_connections) by (rewrite demo_connection_open; by left).
  destruct (Hall demo_connection Hin) as [_ Hadv].
  destruct (Hadv demo_finish (Ok true) demo_done store1 (fun k => demo_events_typed _) demo_finishes) as (_ & log' & Hserved & _ & Hdone).
  destruct (Hdone eq_refl) as (a & response & Ha & Hs & Hr & Ho). exists (log ++ log'), a, response. split_and!; [done|done| |done|done].
  rewrite Hs. vm_compute. reflexivity.
Defined.
