(* ===== verification/AgentWire.v ===== *)
(** * AgentWire: the outer wire of kernel commands

    [agent_transaction_wire_v1.rs] of trnm-task-kernel: a fixed header that repeats the
    authorization, the Borsh command and two commitments.  Decoding accepts exactly what
    the encoder of a well-typed command writes, unless the command names the zero
    identifier. *)

From stdpp Require Import base gmap list sorting strings.
From S2P Require Import Prelude Crypto ByteReader KernelTypes KernelObjects KernelSafety KernelCodec.

Definition AGENT_TRANSACTION_MAGIC_V1 : list Z := str "TRNMATX1".
Definition AGENT_TRANSACTION_WIRE_VERSION_V1 : Z := 1.
Definition MAX_AGENT_TRANSACTION_COMMAND_BYTES_V1 : Z := 1048576.
Definition HEADER_BYTES_V1 : Z := 294.
Definition TRAILER_BYTES_V1 : Z := 32.
Definition CONTEXT_DOMAIN_V1 : string := "trnm.portable.v2.agent-transaction-context.v1".
Definition PAYLOAD_DOMAIN_V1 : string := "trnm.portable.v2.agent-transaction-payload.v1".
Definition WIRE_DOMAIN_V1 : string := "trnm.portable.v2.agent-transaction-wire.v1".

Record AgentTransactionV1 := mkTransaction {
  at_command : KernelCommandV1;
  at_encoded : list Z;
  at_transaction_id : Hash32V1;
}.

(** ** The reader *)

Abbreviation WireM := (SE Cursor AgentMarketErrorCodeV1).

Definition wire_slice (length : Z) : WireM (list Z) := take_slice ArithmeticOverflow NonCanonical length.
Definition wire_array (n : Z) : WireM (list Z) := wire_slice n.
Definition wire_u8 : WireM Z := bytes ← wire_array 1; lift (expect (bytes !! 0%nat)).
Definition wire_u16 : WireM Z := bytes ← wire_array 2; mret (of_le_bytes bytes).
Definition wire_u32 : WireM Z := bytes ← wire_array 4; mret (of_le_bytes bytes).
Definition wire_u64 : WireM Z := bytes ← wire_array 8; mret (of_le_bytes bytes).
Definition wire_finish : WireM () := finish_slice NonCanonical.
Definition remaining (r : Cursor) : Z := Z.max 0 (zlen (c_bytes r) - c_offset r).

Definition decode_optional_id : WireM (option Hash32V1) :=
  tag ← wire_u8;
  value ← wire_array 32;
  lift (match tag with
    | 0 => if value =?? zero_hash then Ok None else Err NonCanonical
    | 1 => if value <>? zero_hash then Ok (Some value) else Err InvalidBounds
    | _ => Err NonCanonical
    end).

Definition encode_optional_id (value : option Hash32V1) : list Z :=
  match value with Some value => [1] ++ value | None => [0] ++ zero_hash end.

(** The command is bounded, and it and the trailer are all that is left. *)
Definition check_remaining (command_len : Z) : WireM () :=
  r ← get_self;
  lift (fail_if ((MAX_AGENT_TRANSACTION_COMMAND_BYTES_V1 <? command_len) || (remaining r <>? (command_len + TRAILER_BYTES_V1))) InvalidBounds).

(** The fields up to the trailer: the command bytes, the payload digest and the trailer. *)
Definition read_wire : WireM (list Z * Hash32V1 * Hash32V1) :=
  magic ← wire_array 8;
  _ ← lift (fail_if (magic <>? AGENT_TRANSACTION_MAGIC_V1) NonCanonical);
  version ← wire_u16;
  _ ← lift (fail_if (version <>? AGENT_TRANSACTION_WIRE_VERSION_V1) SchemaMismatch);
  flags ← wire_u16;
  _ ← lift (fail_if (flags <>? 0) NonCanonical);
  _context_digest ← wire_array 32;
  _sender_agent_id ← wire_array 32;
  _authorizing_key_id ← wire_array 32;
  _signer_key_id ← wire_array 32;
  _capability_id ← decode_optional_id;
  _session_key_grant_id ← decode_optional_id;
  _live_capability_generation ← wire_u64;
  _session_generation ← wire_u64;
  _nonce_lane ← wire_u16;
  operation_kind ← wire_u16;
  _ ← lift (fail_if (negb ((2 <=? operation_kind) && (operation_kind <=? 7))) InvalidBounds);
  _nonce ← wire_u64;
  _expected_lane_version ← wire_u64;
  valid_after_height ← wire_u64;
  expires_after_height ← wire_u64;
  _ ← lift (fail_if (expires_after_height <? valid_after_height) InvalidBounds);
  command_len ← wire_u32;
  payload_digest ← wire_array 32;
  _ ← check_remaining command_len;
  command_bytes ← wire_slice command_len;
  trailer ← wire_array 32;
  _ ← wire_finish;
  mret (command_bytes, payload_digest, trailer).

Section wire.
Context `{KernelCrates, !BorshSerialize ProtocolContextV1}.

(** [ParsedWireV1::decode]: the command bytes of a well-formed envelope. *)
Definition parsed_wire_decode (bytes : list Z) : KResult (list Z) :=
  _ ← fail_if (zlen bytes <? HEADER_BYTES_V1 + TRAILER_BYTES_V1) NonCanonical;
  '(command_bytes, payload_digest, trailer) ← fst (read_wire (mkCursor bytes 0));
  payload ← digest_encoded PAYLOAD_DOMAIN_V1 command_bytes;
  _ ← fail_if (payload <>? payload_digest) TamperDetected;
  unsigned ← expect (byte_range bytes 0 (zlen bytes - TRAILER_BYTES_V1));
  wire ← digest_encoded WIRE_DOMAIN_V1 unsigned;
  _ ← fail_if (wire <>? trailer) TamperDetected;
  Ok command_bytes.

Definition validate_command_shape (command : KernelCommandV1) : KResult () :=
  let auth := authorization command in
  let statement := ka_statement auth in
  let context := au_context statement in
  bad ← or_else ((au_schema_version statement <>? SCHEMA_VERSION_V1)
      || (pc_protocol_version context <>? PROTOCOL_VERSION_V1)
      || is_empty (pc_chain_id context)
      || (128 <? utf8_len (pc_chain_id context))
      || (au_operation_kind statement <>? operation_kind command))
    (digest ← operation_digest command;
     Ok ((au_operation_digest statement <>? digest)
       || (au_expires_after_height statement <? au_valid_after_height statement)
       || (zlen (ka_signature auth) <>? 64)));
  fail_if bad InvalidContext.

(** The header of a command with the digests of its context and payload. *)
Definition wire_header (command : KernelCommandV1) (context_digest : Hash32V1) (command_len : Z) (payload_digest : Hash32V1) : list Z :=
  let auth := authorization command in
  let statement := ka_statement auth in
  AGENT_TRANSACTION_MAGIC_V1 ++ le_bytes 2 AGENT_TRANSACTION_WIRE_VERSION_V1 ++ le_bytes 2 0
  ++ context_digest ++ au_sender_agent_id statement ++ au_authorizing_key_id statement ++ ka_signer_key_id auth
  ++ encode_optional_id (au_capability_id statement) ++ encode_optional_id (au_session_key_grant_id statement)
  ++ le_bytes 8 (au_live_capability_generation statement) ++ le_bytes 8 (au_session_generation statement)
  ++ le_bytes 2 (au_nonce_lane statement) ++ le_bytes 2 (au_operation_kind statement)
  ++ le_bytes 8 (au_nonce statement) ++ le_bytes 8 (au_expected_lane_version statement)
  ++ le_bytes 8 (au_valid_after_height statement) ++ le_bytes 8 (au_expires_after_height statement)
  ++ le_bytes 4 command_len ++ payload_digest.

Definition encode_command (command : KernelCommandV1) : KResult (list Z) :=
  command_bytes ← canonical_bytes command;
  _ ← fail_if (MAX_AGENT_TRANSACTION_COMMAND_BYTES_V1 <? zlen command_bytes) InvalidBounds;
  command_len ← ok_or (try_from u32_max (zlen command_bytes)) ArithmeticOverflow;
  context_digest ← digest_value CONTEXT_DOMAIN_V1 (au_context (ka_statement (authorization command)));
  payload_digest ← digest_encoded PAYLOAD_DOMAIN_V1 command_bytes;
  let encoded := wire_header command context_digest command_len payload_digest ++ command_bytes in
  _ ← fail_if (zlen encoded <>? (HEADER_BYTES_V1 + zlen command_bytes)) NonCanonical;
  wire_digest ← digest_encoded WIRE_DOMAIN_V1 encoded;
  Ok (encoded ++ wire_digest).

Definition from_kernel_command (command : KernelCommandV1) : KResult AgentTransactionV1 :=
  _ ← validate_command_shape command;
  encoded ← encode_command command;
  transaction_id ← expect (byte_range encoded (zlen encoded - TRAILER_BYTES_V1) (zlen encoded));
  Ok (mkTransaction command encoded transaction_id).

Definition decode (bytes : list Z) : KResult AgentTransactionV1 :=
  command_bytes ← parsed_wire_decode bytes;
  command ← strict_decode command_bytes;
  canonical ← from_kernel_command command;
  _ ← fail_if (at_encoded canonical <>? bytes) NonCanonical;
  Ok canonical.

(** ** What the reader accepts *)

Lemma exact_wire n : 0 <= n -> exact_reader (wire_array n) (fun v bs _ => bs = v /\ zlen v = n /\ Forall is_byte v).
Proof. apply exact_take. Qed.

Lemma exact_wire_int (n : nat) : exact_reader (bytes ← wire_array (Z.of_nat n); mret (of_le_bytes bytes))
  (fun v bs _ => bs = le_bytes n v /\ 0 <= v < 256 ^ Z.of_nat n).
Proof.
  eapply exact_weaken; [eapply exact_bind; [apply exact_wire; lia|intros bs ? ? _; apply exact_ret]|]. intros v bs post. cbn beta. split.
  - intros (x & ? & ? & -> & (-> & Hl & Hb) & -> & ->). rewrite app_nil_r. assert (length x = n) as <- by (unfold zlen in Hl; lia).
    rewrite le_bytes_of_le_bytes by done. split; [done|by apply of_le_bytes_bound].
  - intros [-> Hv]. exists (le_bytes n v), (le_bytes n v), []. rewrite app_nil_r, le_bytes_zlen, of_le_bytes_le_bytes by done.
    split_and!; [done|done|done|apply le_bytes_is_byte|done|done].
Qed.

Definition present (value : option Hash32V1) : Prop := value <> Some zero_hash.

Lemma exact_wire_u8 : exact_reader wire_u8 (fun v bs _ => bs = [v] /\ is_byte v).
Proof.
  eapply exact_weaken; [eapply exact_bind; [apply exact_wire; lia|intros bs x post (_ & Hl & _); apply exact_lift; by destruct bs]|].
  intros v bs post. cbn beta. split.
  - intros (x & ? & ? & -> & (-> & Hl & Hb) & Hx & ->). apply expect_Ok in Hx. destruct x as [|y [|]]; [done| |unfold zlen in Hl; cbn in Hl; lia].
    cbn in Hx. injection Hx as ->. split; [done|]. exact (Forall_inv Hb).
  - intros [-> Hv]. exists [v], [v], []. split_and!; [done|done|done|by apply Forall_singleton|done|done].
Qed.

Definition hash_bytes (h : Hash32V1) : Prop := zlen h = 32 /\ Forall is_byte h.

Lemma zero_hash_bytes : hash_bytes zero_hash.
Proof. split; [done|]. by apply Forall_replicate. Qed.

Lemma exact_optional : exact_reader decode_optional_id
  (fun v bs _ => bs = encode_optional_id v /\ (forall h, v = Some h -> hash_bytes h) /\ present v).
Proof.
  eapply exact_weaken.
  { eapply exact_bind; [apply exact_wire_u8|intros tag ? ? _]. eapply exact_bind; [apply exact_wire; lia|intros value ? ? _]. apply exact_lift.
    destruct tag as [|[| |]|]; [by destruct (_ =?? _)|done|done|by destruct (_ =?? _)|done]. }
  intros v bs post. cbn beta. split.
  - intros (tag & ? & ? & -> & (-> & _) & value & ? & ? & -> & (-> & Hl & Hb) & Hv & ->). rewrite app_nil_r. destruct tag as [|[| |]|]; try done.
    + case_bool_decide; [|done]. apply Ok_inj in Hv. subst v value. done.
    + case_bool_decide as Hz; [done|]. apply Ok_inj in Hv. subst v. split_and!; [done|by intros h [= <-]|by intros [= ->]].
  - intros (-> & Hh & Hp). destruct v as [h|]; cbn [encode_optional_id].
    + destruct (Hh h eq_refl) as [Hl Hb]. exists 1, [1], h. split_and!; [done|done|done|]. exists h, h, []. split_and!; [by rewrite app_nil_r|done|done|done| |done].
      rewrite bool_decide_false; [done|]. intros ->. by apply Hp.
    + exists 0, [0], zero_hash. split_and!; [done|done|done|]. exists zero_hash, zero_hash, []. destruct zero_hash_bytes. split_and!; [by rewrite app_nil_r|done|done|done| |done].
      by rewrite bool_decide_true.
Qed.

(** The cursor is as far from the end as the header says. *)
Lemma exact_remaining command_len : exact_reader (check_remaining command_len)
  (fun _ bs post => bs = [] /\ command_len <= MAX_AGENT_TRANSACTION_COMMAND_BYTES_V1 /\ zlen post = command_len + TRAILER_BYTES_V1).
Proof.
  unfold check_remaining. cbv [mbind SE_bind get_self lift]. split.
  - intros pre bs post [] (-> & Hm & Hp) _. unfold remaining. cbn [c_bytes c_offset app]. rewrite zlen_app, (proj2 (Z.ltb_ge _ _)) by done.
    pose proof (zlen_nonneg post). rewrite bool_decide_true by lia. change (zlen (A := Z) []) with 0. by rewrite Z.add_0_r.
  - intros pre rest _ _. unfold remaining. cbn [c_bytes c_offset]. rewrite zlen_app. destruct (_ || _) eqn:Hc; cbn [fail_if]; [done|]. bprop.
    pose proof (zlen_nonneg rest). exists [], rest. change (zlen (A := Z) []) with 0. rewrite Z.add_0_r. split_and!; [done|done|lia|lia|done].
Qed.

(** The bytes of an envelope and the three parts the reader returns. *)
Definition envelope (cap ses : option Hash32V1) (kind after expires : Z) (d1 d2 d3 d4 : Hash32V1) (g1 g2 lane nonce ver : Z)
    (command_bytes : list Z) (payload trailer : Hash32V1) : list Z :=
  AGENT_TRANSACTION_MAGIC_V1 ++ le_bytes 2 AGENT_TRANSACTION_WIRE_VERSION_V1 ++ le_bytes 2 0 ++ d1 ++ d2 ++ d3 ++ d4
  ++ encode_optional_id cap ++ encode_optional_id ses ++ le_bytes 8 g1 ++ le_bytes 8 g2 ++ le_bytes 2 lane ++ le_bytes 2 kind
  ++ le_bytes 8 nonce ++ le_bytes 8 ver ++ le_bytes 8 after ++ le_bytes 8 expires ++ le_bytes 4 (zlen command_bytes) ++ payload
  ++ command_bytes ++ trailer.

Definition opt_bytes (v : option Hash32V1) : Prop := forall h, v = Some h -> hash_bytes h.
Definition u16_ok (z : Z) : Prop := 0 <= z < 256 ^ 2.
Definition u64_ok (z : Z) : Prop := 0 <= z < 256 ^ 8.

Record envelope_ok (cap ses : option Hash32V1) (kind after expires : Z) (d1 d2 d3 d4 : Hash32V1) (g1 g2 lane nonce ver : Z)
    (command_bytes : list Z) (payload trailer : Hash32V1) : Prop := {
  ev_cap : opt_bytes cap /\ present cap;
  ev_ses : opt_bytes ses /\ present ses;
  ev_kind : 2 <= kind <= 7;
  ev_heights : u64_ok after /\ u64_ok expires /\ after <= expires;
  ev_hashes : hash_bytes d1 /\ hash_bytes d2 /\ hash_bytes d3 /\ hash_bytes d4 /\ hash_bytes payload /\ hash_bytes trailer;
  ev_ints : u64_ok g1 /\ u64_ok g2 /\ u16_ok lane /\ u64_ok nonce /\ u64_ok ver;
  ev_command : zlen command_bytes <= MAX_AGENT_TRANSACTION_COMMAND_BYTES_V1 /\ Forall is_byte command_bytes;
}.

Lemma exact_wire_check (b : bool) (e : AgentMarketErrorCodeV1) : exact_reader (lift (fail_if b e)) (fun _ bs _ => b = false /\ bs = []).
Proof. eapply exact_weaken; [apply exact_lift; by destruct b|]. intros [] bs post. split; intros [Hb ->]; [by apply fail_if_Ok in Hb|by rewrite Hb]. Qed.

Lemma exact_read_wire : exact_reader read_wire (fun v bs post => post = [] /\ exists cap ses kind after expires d1 d2 d3 d4 g1 g2 lane nonce ver,
  envelope_ok cap ses kind after expires d1 d2 d3 d4 g1 g2 lane nonce ver v.1.1 v.1.2 v.2 /\
  bs = envelope cap ses kind after expires d1 d2 d3 d4 g1 g2 lane nonce ver v.1.1 v.1.2 v.2).
Proof.
  eapply exact_weaken.
  { eapply exact_bind; [apply exact_wire; lia|intros magic ? ? _]. eapply exact_bind; [apply exact_wire_check|intros ? ? ? _].
    eapply exact_bind; [apply (exact_wire_int 2)|intros version ? ? _]. eapply exact_bind; [apply exact_wire_check|intros ? ? ? _].
    eapply exact_bind; [apply (exact_wire_int 2)|intros flags ? ? _]. eapply exact_bind; [apply exact_wire_check|intros ? ? ? _].
    do 4 (eapply exact_bind; [apply exact_wire; lia|intros ? ? ? _]). do 2 (eapply exact_bind; [apply exact_optional|intros ? ? ? _]).
    do 2 (eapply exact_bind; [apply (exact_wire_int 8)|intros ? ? ? _]). eapply exact_bind; [apply (exact_wire_int 2)|intros lane ? ? _].
    eapply exact_bind; [apply (exact_wire_int 2)|intros kind ? ? _]. eapply exact_bind; [apply exact_wire_check|intros ? ? ? _].
    do 2 (eapply exact_bind; [apply (exact_wire_int 8)|intros ? ? ? _]). eapply exact_bind; [apply (exact_wire_int 8)|intros after ? ? _].
    eapply exact_bind; [apply (exact_wire_int 8)|intros expires ? ? _]. eapply exact_bind; [apply exact_wire_check|intros ? ? ? _].
    eapply exact_bind; [apply (exact_wire_int 4)|intros len ? ? (_ & Hlen & _)]. eapply exact_bind; [apply exact_wire; lia|intros payload ? ? _].
    eapply exact_bind; [apply exact_remaining|intros ? ? ? _]. eapply exact_bind; [apply exact_take; exact Hlen|intros command_bytes ? ? _].
    eapply exact_bind; [apply exact_wire; lia|intros trailer ? ? _]. eapply exact_bind; [apply exact_finish|intros ? ? ? _]. apply exact_ret. }
  intros v bs post. cbn beta. split.
  - intros (magic & ? & ? & -> & (-> & _) & _ & ? & ? & -> & (Hm & ->) & version & ? & ? & -> & (-> & _) & _ & ? & ? & -> & (Hv & ->) & flags & ? & ? & -> & (-> & _) & _ & ? & ? & -> & (Hf & ->) & d1 & ? & ? & -> & (-> & Ld1) & d2 & ? & ? & -> & (-> & Ld2) & d3 & ? & ? & -> & (-> & Ld3) & d4 & ? & ? & -> & (-> & Ld4) & cap & ? & ? & -> & (-> & C1 & C2) & ses & ? & ? & -> & (-> & S1 & S2) & g1 & ? & ? & -> & (-> & G1) & g2 & ? & ? & -> & (-> & G2) & lane & ? & ? & -> & (-> & Hl) & kind & ? & ? & -> & (-> & _) & _ & ? & ? & -> & (Hk & ->) & nonce & ? & ? & -> & (-> & N1) & ver & ? & ? & -> & (-> & N2) & after & ? & ? & -> & (-> & H1) & expires & ? & ? & -> & (-> & H2) & _ & ? & ? & -> & (Hh & ->) & len & ? & ? & -> & (-> & _) & payload & ? & ? & -> & (-> & Lp) & _ & ? & ? & -> & (-> & Hmax & Hrem) & cb & ? & ? & -> & (-> & Lcb & Bcb) & trailer & ? & ? & -> & (-> & Lt) & _ & ? & ? & -> & (-> & Hend) & -> & ->).
    bprop. subst magic version flags len. split; [done|]. exists cap, ses, kind, after, expires, d1, d2, d3, d4, g1, g2, lane, nonce, ver.
    split; [split; cbn; done|]. unfold envelope. cbn [app fst snd]. by rewrite app_nil_r.
  - intros (-> & cap & ses & kind & after & expires & d1 & d2 & d3 & d4 & g1 & g2 & lane & nonce & ver & [[C1 C2] [S1 S2] [K1 K2] (H1 & H2 & Hh) (D1 & D2 & D3 & D4 & Dp & Dt) (G1 & G2 & Hl & N1 & N2) [Hc Bc]] & ->).
    destruct v as [[cb payload] trailer]. cbn [fst snd] in *. unfold envelope.
    exists AGENT_TRANSACTION_MAGIC_V1, AGENT_TRANSACTION_MAGIC_V1. eexists. split; [done|]. split; [split_and?; [done|done|by apply all_bytes_ok]|].
    exists (), []. eexists. split; [done|]. split; [split_and?; [by rewrite bool_decide_true|done]|].
    exists AGENT_TRANSACTION_WIRE_VERSION_V1, (le_bytes 2 AGENT_TRANSACTION_WIRE_VERSION_V1). eexists. split; [done|]. split; [done|].
    exists (), []. eexists. split; [done|]. split; [split_and?; [done|done]|].
    exists 0, (le_bytes 2 0). eexists. split; [done|]. split; [done|].
    exists (), []. eexists. split; [done|]. split; [split_and?; [done|done]|].
    exists d1, d1. eexists. split; [done|]. split; [split_and?; [done|apply D1|apply D1]|].
    exists d2, d2. eexists. split; [done|]. split; [split_and?; [done|apply D2|apply D2]|].
    exists d3, d3. eexists. split; [done|]. split; [split_and?; [done|apply D3|apply D3]|].
    exists d4, d4. eexists. split; [done|]. split; [split_and?; [done|apply D4|apply D4]|].
    exists cap, (encode_optional_id cap). eexists. split; [done|]. split; [split_and?; [done|exact C1|exact C2]|].
    exists ses, (encode_optional_id ses). eexists. split; [done|]. split; [split_and?; [done|exact S1|exact S2]|].
    exists g1, (le_bytes 8 g1). eexists. split; [done|]. split; [split_and?; [done|by destruct G1|by destruct G1]|].
    exists g2, (le_bytes 8 g2). eexists. split; [done|]. split; [split_and?; [done|by destruct G2|by destruct G2]|].
    exists lane, (le_bytes 2 lane). eexists. split; [done|]. split; [split_and?; [done|by destruct Hl|by destruct Hl]|].
    exists kind, (le_bytes 2 kind). eexists. split; [done|]. split; [split_and?; [done|lia|simpl; lia]|].
    exists (), []. eexists. split; [done|]. split; [split_and?; [rewrite !(proj2 (Z.leb_le _ _)) by lia; done|done]|].
    exists nonce, (le_bytes 8 nonce). eexists. split; [done|]. split; [split_and?; [done|by destruct N1|by destruct N1]|].
    exists ver, (le_bytes 8 ver). eexists. split; [done|]. split; [split_and?; [done|by destruct N2|by destruct N2]|].
    exists after, (le_bytes 8 after). eexists. split; [done|]. split; [split_and?; [done|by destruct H1|by destruct H1]|].
    exists expires, (le_bytes 8 expires). eexists. split; [done|]. split; [split_and?; [done|by destruct H2|by destruct H2]|].
    exists (), []. eexists. split; [done|]. split; [split_and?; [by apply Z.ltb_ge|done]|].
    exists (zlen cb), (le_bytes 4 (zlen cb)). eexists. split; [done|]. split; [split_and?; [done|apply zlen_nonneg| unfold MAX_AGENT_TRANSACTION_COMMAND_BYTES_V1 in Hc; simpl; lia]|].
    exists payload, payload. eexists. split; [done|]. split; [split_and?; [done|apply Dp|apply Dp]|].
    exists (), [], (cb ++ trailer). split; [done|]. 
    split; [split_and?; [done|done|rewrite app_nil_r, zlen_app; destruct Dt as [-> _]; done]|].
    exists cb, cb, trailer. split; [done|]. split; [split_and?; [done|done|done]|].
    exists trailer, trailer, []. split; [by rewrite app_nil_r|]. split; [split; [done|exact Dt]|]. by exists (), [], [].
Qed.

(** ** Encoded commands *)

Lemma is_hash_bytes h : is_hash h = true <-> hash_bytes h.
Proof.
  unfold is_hash, hash_bytes. rewrite andb_true_iff, Z.eqb_eq, forallb_forall, Forall_forall. split; intros [Hl Hb]; (split; [done|]); intros x Hx.
  - apply is_width_iff, Hb, list_elem_of_In, Hx.
  - apply is_width_iff, Hb, list_elem_of_In, Hx.
Qed.

Lemma optional_bytes v : typed_opt is_hash v = true -> opt_bytes v.
Proof. intros Hv h ->. by apply is_hash_bytes. Qed.

Lemma is_u64_ok z : is_u64 z = true -> u64_ok z.
Proof. intros Hz. apply is_width_iff in Hz. unfold u64_ok, u64_max in *. simpl. lia. Qed.
Lemma is_u16_ok z : is_u16 z = true -> u16_ok z.
Proof. intros Hz. apply is_width_iff in Hz. unfold u16_ok, u16_max in *. simpl. lia. Qed.

Lemma typed_authorization c : typed_command c = true -> typed_ka (authorization c) = true.
Proof. unfold typed_command, authorization. intros Ht. by destruct c; apply andb_true_iff in Ht as [_ Ht]. Qed.

(** The envelope of a command. *)
Definition envelope_of (c : KernelCommandV1) (ctx : Hash32V1) (command_bytes : list Z) (payload trailer : Hash32V1) : list Z :=
  let auth := authorization c in let st := ka_statement auth in
  envelope (au_capability_id st) (au_session_key_grant_id st) (au_operation_kind st) (au_valid_after_height st) (au_expires_after_height st)
    ctx (au_sender_agent_id st) (au_authorizing_key_id st) (ka_signer_key_id auth) (au_live_capability_generation st) (au_session_generation st)
    (au_nonce_lane st) (au_nonce st) (au_expected_lane_version st) command_bytes payload trailer.

Lemma encode_command_inv c b : encode_command c = Ok b -> exists cb ctx payload trailer,
  canonical_bytes c = Ok cb /\ zlen cb <= MAX_AGENT_TRANSACTION_COMMAND_BYTES_V1 /\
  digest_value CONTEXT_DOMAIN_V1 (au_context (ka_statement (authorization c))) = Ok ctx /\
  digest_encoded PAYLOAD_DOMAIN_V1 cb = Ok payload /\ b = envelope_of c ctx cb payload trailer /\
  exists unsigned, b = unsigned ++ trailer /\ digest_encoded WIRE_DOMAIN_V1 unsigned = Ok trailer /\ zlen unsigned = HEADER_BYTES_V1 + zlen cb.
Proof.
  unfold encode_command. intros He. apply bind_Ok in He as (cb & Hcb & He). apply bind_Ok in He as (? & Hm & He). apply fail_if_Ok in Hm. bprop.
  apply bind_Ok in He as (len & Hlen & He). apply ok_or_Ok in Hlen. apply bind_Ok in He as (ctx & Hctx & He). apply bind_Ok in He as (payload & Hp & He).
  apply bind_Ok in He as (? & Hsz & He). apply fail_if_Ok in Hsz. bprop. apply bind_Ok in He as (trailer & Ht & He). apply Ok_inj in He.
  exists cb, ctx, payload, trailer. split_and!; [done|done|done|done| |exists (wire_header c ctx len payload ++ cb); by split_and!].
  assert (len = zlen cb) as ->. { unfold try_from in Hlen. destruct (_ <=? _); [by injection Hlen as <-|done]. }
  rewrite <- He. unfold wire_header, envelope_of, envelope. cbn zeta. by rewrite <- !app_assoc.
Qed.

Context `{!KernelLaws}.

Lemma digest_encoded_bytes d m h : digest_encoded d m = Ok h -> hash_bytes h.
Proof. unfold digest_encoded. intros Hd. apply bind_Ok in Hd as (? & _ & Hd). apply bind_Ok in Hd as (? & _ & Hd). apply Ok_inj in Hd. subst h. apply is_hash_bytes, sha256_width. Qed.

Lemma shape_ok c : validate_command_shape c = Ok () -> let st := ka_statement (authorization c) in
  2 <= au_operation_kind st <= 7 /\ au_valid_after_height st <= au_expires_after_height st.
Proof.
  unfold validate_command_shape. intros Hv. apply bind_Ok in Hv as (bad & Hb & Hv). apply fail_if_Ok in Hv. subst bad. destruct (_ || _) eqn:Ho; [done|]. cbn [or_else] in Hb.
  apply bind_Ok in Hb as (d & _ & Hb). apply Ok_inj in Hb. bprop. cbn zeta. split; [|done]. assert (au_operation_kind (ka_statement (authorization c)) = operation_kind c) as -> by done. destruct c; cbn; lia.
Qed.

Definition wire_ids (c : KernelCommandV1) : Prop :=
  present (au_capability_id (ka_statement (authorization c))) /\ present (au_session_key_grant_id (ka_statement (authorization c))).

Lemma envelope_of_ok c ctx cb payload trailer : typed_command c = true -> validate_command_shape c = Ok () -> wire_ids c ->
  hash_bytes ctx -> hash_bytes payload -> hash_bytes trailer -> zlen cb <= MAX_AGENT_TRANSACTION_COMMAND_BYTES_V1 -> Forall is_byte cb ->
  let auth := authorization c in let st := ka_statement auth in
  envelope_ok (au_capability_id st) (au_session_key_grant_id st) (au_operation_kind st) (au_valid_after_height st) (au_expires_after_height st)
    ctx (au_sender_agent_id st) (au_authorizing_key_id st) (ka_signer_key_id auth) (au_live_capability_generation st) (au_session_generation st)
    (au_nonce_lane st) (au_nonce st) (au_expected_lane_version st) cb payload trailer.
Proof.
  intros Ht Hv [W1 W2] Hctx Hp Htr Hm Hb. cbn zeta. destruct (shape_ok _ Hv) as [Hk Hh]. apply typed_authorization in Ht. unfold typed_ka, typed_au in Ht.
  rewrite !andb_true_iff in Ht. destruct Ht as [[[[[[[[[[[[[[[[_ _] _] _] T1] T2] T3] T4] T5] T6] T7] T8] T9] T10] T11] T12] _].
  split; rewrite <- ?is_hash_bytes in *; split_and!; auto using optional_bytes, is_u64_ok, is_u16_ok; first [done | by apply is_u64_ok | by apply is_u16_ok | lia].
Qed.

Lemma optional_length v : opt_bytes v -> length (encode_optional_id v) = 33%nat.
Proof. intros Hv. destruct v as [h|]; [|done]. destruct (Hv h eq_refl) as [Hl _]. cbn. unfold zlen in Hl. lia. Qed.

Lemma optional_inj v w : encode_optional_id v = encode_optional_id w -> v = w.
Proof. destruct v, w; cbn; try done. by intros [= ->]. Qed.

Lemma envelope_ids cap ses kind after expires d1 d2 d3 d4 g1 g2 lane nonce ver cb p t cap' ses' kind' after' expires' d1' d2' d3' d4' g1' g2' lane' nonce' ver' cb' p' t' :
  envelope cap ses kind after expires d1 d2 d3 d4 g1 g2 lane nonce ver cb p t
  = envelope cap' ses' kind' after' expires' d1' d2' d3' d4' g1' g2' lane' nonce' ver' cb' p' t' ->
  Forall hash_bytes [d1; d2; d3; d4] -> Forall hash_bytes [d1'; d2'; d3'; d4'] -> opt_bytes cap -> opt_bytes ses -> opt_bytes cap' -> opt_bytes ses' ->
  cap = cap' /\ ses = ses'.
Proof.
  unfold envelope. intros He Hd Hd' Hc Hs Hc' Hs'. rewrite !Forall_cons in Hd, Hd'. destruct Hd as ([L1 _] & [L2 _] & [L3 _] & [L4 _] & _).
  destruct Hd' as ([L1' _] & [L2' _] & [L3' _] & [L4' _] & _). unfold zlen in *.
  do 3 (apply app_inv_head in He). do 4 (apply app_inj_1 in He as [_ He]; [|lia]).
  apply app_inj_1 in He as [E1 He]; [|by rewrite !optional_length]. apply app_inj_1 in He as [E2 _]; [|by rewrite !optional_length]. split; by apply optional_inj.
Qed.

Lemma encoded_typed c b : typed_command c = true -> encode_command c = Ok b -> Forall is_byte b -> exists cb ctx payload trailer,
  canonical_bytes c = Ok cb /\ b = envelope_of c ctx cb payload trailer /\ hash_bytes ctx /\ hash_bytes payload /\ hash_bytes trailer /\
  zlen cb <= MAX_AGENT_TRANSACTION_COMMAND_BYTES_V1 /\ Forall is_byte cb /\ digest_encoded PAYLOAD_DOMAIN_V1 cb = Ok payload /\
  exists unsigned, b = unsigned ++ trailer /\ digest_encoded WIRE_DOMAIN_V1 unsigned = Ok trailer /\ zlen unsigned = HEADER_BYTES_V1 + zlen cb.
Proof.
  intros Ht He Hb. destruct (encode_command_inv _ _ He) as (cb & ctx & payload & trailer & Hcb & Hm & Hctx & Hp & Hbe & unsigned & Hu & Hw & Hl).
  exists cb, ctx, payload, trailer. split_and!; [done|done|by eapply is_hash_bytes, digest_hash|by eapply digest_encoded_bytes|by eapply digest_encoded_bytes|done| |done|by exists unsigned].
  rewrite Hbe in Hb. unfold envelope_of, envelope in Hb. rewrite !Forall_app in Hb. repeat (destruct Hb as [? Hb]). done.
Qed.

Lemma parsed_wire_inv b cb : Forall is_byte b -> zlen b <= u64_max -> parsed_wire_decode b = Ok cb -> exists payload trailer cap ses kind after expires d1 d2 d3 d4 g1 g2 lane nonce ver,
  envelope_ok cap ses kind after expires d1 d2 d3 d4 g1 g2 lane nonce ver cb payload trailer /\
  b = envelope cap ses kind after expires d1 d2 d3 d4 g1 g2 lane nonce ver cb payload trailer.
Proof.
  intros Hb Hl Hp. unfold parsed_wire_decode in Hp. apply bind_Ok in Hp as (? & _ & Hp). apply bind_Ok in Hp as ([[cb' payload] trailer] & Hr & Hp).
  destruct (exact_whole read_wire _ b exact_read_wire ltac:(by intros ? ? ? [? _]) Hb Hl) as [Hw _]. apply Hw in Hr as (_ & cap & ses & kind & after & expires & d1 & d2 & d3 & d4 & g1 & g2 & lane & nonce & ver & Hok & He).
  repeat (apply bind_Ok in Hp as (? & _ & Hp)). apply Ok_inj in Hp. subst cb'. exists payload, trailer, cap, ses, kind, after, expires, d1, d2, d3, d4, g1, g2, lane, nonce, ver. done.
Qed.

(** An encoded command parses exactly when its identifiers are not zero. *)
Lemma parse_encoded c b : typed_command c = true -> validate_command_shape c = Ok () -> encode_command c = Ok b -> Forall is_byte b -> zlen b <= u64_max ->
  (wire_ids c <-> exists cb, parsed_wire_decode b = Ok cb) /\ (forall cb, parsed_wire_decode b = Ok cb -> canonical_bytes c = Ok cb).
Proof.
  intros Ht Hv He Hb Hl. destruct (encoded_typed _ _ Ht He Hb) as (cb & ctx & payload & trailer & Hcb & Hbe & Hctx & Hp & Htr & Hm & Hcbb & Hpd & unsigned & Hu & Hw & Hul).
  assert (Hwire : wire_ids c -> parsed_wire_decode b = Ok cb).
  { intros Hids. pose proof (envelope_of_ok c ctx cb payload trailer Ht Hv Hids Hctx Hp Htr Hm Hcbb) as Hok.
    destruct (exact_whole read_wire _ b exact_read_wire ltac:(by intros ? ? ? [? _]) Hb Hl) as [Hr _].
    assert (Hread : fst (read_wire (mkCursor b 0)) = Ok (cb, payload, trailer)) by (apply Hr; split; [done|]; do 14 eexists; split; [exact Hok|exact Hbe]).
    assert (Lb : zlen b = zlen unsigned + 32) by (rewrite Hu, zlen_app; by destruct Htr as [-> _]). pose proof (zlen_nonneg cb).
    unfold parsed_wire_decode. rewrite (proj2 (Z.ltb_ge _ _)) by (unfold HEADER_BYTES_V1, TRAILER_BYTES_V1 in *; lia). cbn [fail_if mbind result_bind]. rewrite Hread. cbn [mbind result_bind].
    rewrite Hpd. cbn [mbind result_bind]. rewrite bool_decide_true by done. cbn [negb fail_if mbind result_bind].
    assert (byte_range b 0 (zlen b - TRAILER_BYTES_V1) = Some unsigned) as -> by (rewrite Hu at 1; apply (byte_range_mid [] unsigned trailer); [done|unfold TRAILER_BYTES_V1; lia]).
    cbn [expect mbind result_bind]. rewrite Hw. cbn [mbind result_bind]. by rewrite bool_decide_true. }
  assert (Hids : forall cb', parsed_wire_decode b = Ok cb' -> wire_ids c).
  { intros cb' Hd. destruct (parsed_wire_inv _ _ Hb Hl Hd) as (p' & t' & cap & ses & kind & after & expires & d1 & d2 & d3 & d4 & g1 & g2 & lane & nonce & ver & [[C1 C2] [S1 S2] _ _ (D1 & D2 & D3 & D4 & _) _ _] & Heq).
    rewrite Hbe in Heq. unfold envelope_of in Heq. apply typed_authorization in Ht. unfold typed_ka, typed_au in Ht.
    rewrite !andb_true_iff in Ht. destruct Ht as [[[[[[[[[[[[[[[[_ _] _] _] T1] T2] T3] _] T5] _] _] _] _] _] _] T12] _]. rewrite is_hash_bytes in *.
    apply envelope_ids in Heq as [E1 E2]; [unfold wire_ids; by rewrite E1, E2|by rewrite !Forall_cons, Forall_nil|by rewrite !Forall_cons, Forall_nil|by apply optional_bytes|by apply optional_bytes|done|done]. }
  split; [split; [eauto|intros [cb' Hd]; eauto]|]. intros cb' Hd. pose proof (Hwire (Hids _ Hd)) as Hd'. congruence.
Qed.

Lemma from_kernel_command_inv c t : from_kernel_command c = Ok t -> validate_command_shape c = Ok () /\ encode_command c = Ok (at_encoded t) /\ at_command t = c.
Proof.
  unfold from_kernel_command. intros Hf. apply bind_Ok in Hf as ([] & Hv & Hf). apply bind_Ok in Hf as (e & He & Hf). apply bind_Ok in Hf as (i & _ & Hf). apply Ok_inj in Hf. by subst t.
Qed.

(** Nothing panics: every slice is in range. *)
Lemma encode_command_safe c : encode_command c <> Panic.
Proof.
  unfold encode_command. apply bind_not_panic; [apply canonical_bytes_safe|intros cb _]. no_panic; [apply digest_value_safe|apply digest_encoded_safe|apply digest_encoded_safe].
Qed.

Lemma from_kernel_command_safe c : from_kernel_command c <> Panic.
Proof.
  unfold from_kernel_command. apply bind_not_panic.
  - unfold validate_command_shape. no_panic. apply operation_digest_safe.
  - intros [] _. apply bind_not_panic; [apply encode_command_safe|]. intros b Hb. destruct (encode_command_inv _ _ Hb) as (cb & _ & _ & t & _ & _ & _ & _ & _ & u & -> & Ht & _).
    destruct (digest_encoded_bytes _ _ _ Ht) as [Lt _]. apply bind_not_panic; [|intros; no_panic].
    destruct (byte_range_total (u ++ t) (zlen (u ++ t) - TRAILER_BYTES_V1) (zlen (u ++ t))) as (x & -> & _); [|lia|done].
    rewrite zlen_app, Lt. unfold TRAILER_BYTES_V1. pose proof (zlen_nonneg u). lia.
Qed.

Lemma decode_safe b : Forall is_byte b -> zlen b <= u64_max -> decode b <> Panic.
Proof.
  intros Hb Hl. unfold decode. apply bind_not_panic.
  - unfold parsed_wire_decode. apply bind_not_panic; [no_panic|]. intros [] Hs. apply fail_if_Ok in Hs. bprop. apply bind_not_panic.
    + by destruct (exact_whole read_wire _ b exact_read_wire ltac:(by intros ? ? ? [? _]) Hb Hl) as [_ Hw].
    + intros [[cb p] t] _. apply bind_not_panic; [apply digest_encoded_safe|intros ? _]. apply bind_not_panic; [no_panic|intros ? _].
      unfold HEADER_BYTES_V1, TRAILER_BYTES_V1 in *. destruct (byte_range_total b 0 (zlen b - 32)) as (x & -> & _); [lia|lia|]. no_panic; [done|apply digest_encoded_safe].
  - intros cb _. apply bind_not_panic; [apply strict_decode_safe|intros c _]. apply bind_not_panic; [apply from_kernel_command_safe|intros t _]. no_panic.
Qed.

(** C30: The wire of agent transactions is exact.  A byte string decodes to a transaction
    exactly when the transaction is the one that [from_kernel_command] builds for a
    well-typed command, the bytes are its encoding, and the command names neither the zero
    capability nor the zero session grant (such a transaction can be built and is refused
    when it is read).  Decoding never panics. *)
Theorem agent_wire_exact b t : Forall is_byte b -> zlen b <= u64_max ->
  (decode b = Ok t <-> from_kernel_command (at_command t) = Ok t /\ at_encoded t = b /\ typed_command (at_command t) = true /\ wire_ids (at_command t)) /\
  decode b <> Panic.
Proof.
  intros Hb Hl. split; [|by apply decode_safe]. unfold decode. split.
  - intros Hd. apply bind_Ok in Hd as (cb & Hp & Hd). apply bind_Ok in Hd as (c & Hc & Hd). apply bind_Ok in Hd as (t' & Hf & Hd). apply bind_Ok in Hd as (? & He & Hd).
    apply fail_if_Ok in He. bprop. apply Ok_inj in Hd. subst t'. destruct (from_kernel_command_inv _ _ Hf) as (Hv & Hen & ->). apply strict_decode_Ok in Hc as [Ht _].
    subst b. split_and!; [done|done|done|]. apply (parse_encoded c (at_encoded t) Ht Hv Hen Hb Hl). by exists cb.
  - intros (Hf & <- & Ht & Hids). destruct (from_kernel_command_inv _ _ Hf) as (Hv & Hen & _). destruct (parse_encoded _ _ Ht Hv Hen Hb Hl) as [Hiff Hcan].
    destruct (proj1 Hiff Hids) as [cb Hp]. rewrite Hp. cbn [mbind result_bind]. apply Hcan, canonical_bytes_Ok in Hp.
    assert (strict_decode cb = Ok (at_command t)) as -> by (by apply strict_decode_Ok). cbn [mbind result_bind]. rewrite Hf. cbn [mbind result_bind]. by rewrite bool_decide_true.
Qed.

End wire.

(** ** A transaction on the crates of [KernelCodec] *)

Module AgentWireWitness.

#[local] Instance borsh_context : BorshSerialize ProtocolContextV1 := tok_to_vec.

Definition h32 (n : Z) : Hash32V1 := n :: 1 :: replicate 30 0.
Definition context : ProtocolContextV1 := mkContext (h32 1) [84] 1 (h32 2).
Definition body : SessionKeyGrantBodyV1 := mkSessionGrant 1 (h32 1) [84] 1 (h32 2) (h32 10) (h32 13) (h32 60) [1] 5 100 10 1 (h32 63).
Definition digest : Hash32V1 := match operation_digest (SessionGrant body (mkAuthorization (mkStatement 0 context 0 [] [] [] None 0 None 0 0 0 0 0 0) [] [])) with Ok d => d | _ => [] end.
Definition command (capability : option Hash32V1) : KernelCommandV1 :=
  SessionGrant body (mkAuthorization (mkStatement 1 context 3 digest (h32 10) (h32 11) capability 0 None 0 0 1 1 0 100) (h32 11) (replicate 64 7)).
Definition transaction (capability : option Hash32V1) : AgentTransactionV1 :=
  match from_kernel_command (command capability) with Ok t => t | _ => mkTransaction (command capability) [] [] end.

Lemma transaction_built : from_kernel_command (command (Some (h32 60))) = Ok (transaction (Some (h32 60))).
Proof. vm_compute. reflexivity. Qed.

Lemma transaction_bytes : Forall is_byte (at_encoded (transaction (Some (h32 60)))) /\ zlen (at_encoded (transaction (Some (h32 60)))) <= u64_max.
Proof. split; [apply all_bytes_ok; vm_compute; reflexivity|vm_compute; discriminate]. Qed.

Lemma agent_wire_exact_witness :
  Forall is_byte (at_encoded (transaction (Some (h32 60)))) /\ decode (at_encoded (transaction (Some (h32 60)))) = Ok (transaction (Some (h32 60))).
Proof.
  destruct transaction_bytes as [Hb Hl]. split; [exact Hb|].
  destruct (agent_wire_exact (at_encoded (transaction (Some (h32 60)))) (transaction (Some (h32 60))) Hb Hl) as [[_ Hd] _]. apply Hd.
  split; [|split; [reflexivity|split; [vm_compute; reflexivity|split; vm_compute; discriminate]]]. exact transaction_built.
Defined.

(** A command that names the zero capability is built, and its bytes are refused. *)
Example zero_capability_is_not_read_back :
  from_kernel_command (command (Some zero_hash)) = Ok (transaction (Some zero_hash)) /\
  typed_command (command (Some zero_hash)) = true /\ decode (at_encoded (transaction (Some zero_hash))) = Err InvalidBounds.
Proof. vm_compute. done. Qed.

End AgentWireWitness.
