(* ===== verification/Oracle.v ===== *)
(** * Oracle: admission of price snapshots

    [lib.rs] of trnm-oracle: canonical identifiers, the snapshot and its digest, the
    policy that admits it, and the report that counts one validation.  A snapshot is
    admitted exactly when its declarative conditions hold; the report of a validation
    is consistent; the deviation bound is exact below the range where its 128-bit
    product saturates. *)

From stdpp Require Import base gmap list sorting strings pretty.
From S2P Require Import Prelude Crypto.

Definition MAX_DEVIATION_BPS_CAP : Z := 10000.

Inductive OracleError :=
| EmptySourceId
| NonCanonicalSourceId (raw canonical : rstring)
| EmptyFeedId
| NonCanonicalFeedId (raw canonical : rstring)
| InvalidWindow (start_ms end_ms : Z)
| InvalidWindowTimestamp (window_end_ms snapshot_ts_ms : Z)
| DuplicateSources
| NonCanonicalSourceOrdering (previous current : rstring)
| EmptySnapshotHash
| NonCanonicalSnapshotHash (raw canonical : rstring)
| SnapshotHashMismatch (expected actual : rstring)
| InvalidSnapshotHashFormat (raw : rstring)
| InvalidPolicy (reason : rstring)
| InvalidSampleCount
| FutureSnapshot (snapshot_ts_ms now_ts_ms : Z)
| StaleSnapshot (snapshot_ts_ms now_ts_ms max_staleness_ms : Z)
| InsufficientSources (min_sources actual_sources sample_count : Z)
| DeviationExceeded (deviation_bps max_deviation_bps : Z)
| InconsistentSampleCount (actual_sources sample_count : Z)
| UpdateRateExceeded (sample_count max_update_rate_per_window : Z).

Abbreviation OResult := (result OracleError).

(** [Display]: what [to_string] of the two errors that a report prints is. *)
Definition hash_mismatch_text (expected actual : rstring) : rstring :=
  str "snapshot hash mismatch: expected=" ++ expected ++ str ", actual=" ++ actual.
Definition invalid_policy_text (reason : rstring) : rstring := str "invalid policy: " ++ reason.

(** ** Identifiers *)

(** [str::to_ascii_lowercase] *)
Definition to_ascii_lowercase (s : rstring) : rstring := (fun c => if (65 <=? c) && (c <=? 90) then c + 32 else c) <$> s.

(** [char::is_control]: general category Cc. *)
Definition is_control (c : Z) : bool := ((0 <=? c) && (c <=? 31)) || ((127 <=? c) && (c <=? 159)).

Definition contains_non_canonical_id_chars (raw : rstring) : bool := existsb (fun c => is_whitespace c || is_control c) raw.

Definition validate_canonical_source_id (raw : rstring) : OResult rstring :=
  let canonical := to_ascii_lowercase (trim raw) in
  _ ← fail_if (is_empty canonical) EmptySourceId;
  _ ← fail_if ((raw <>? canonical) || contains_non_canonical_id_chars raw) (NonCanonicalSourceId raw canonical);
  Ok canonical.

Definition validate_canonical_feed_id (raw : rstring) : OResult rstring :=
  let canonical := to_ascii_lowercase (trim raw) in
  _ ← fail_if (is_empty canonical) EmptyFeedId;
  _ ← fail_if ((raw <>? canonical) || contains_non_canonical_id_chars raw) (NonCanonicalFeedId raw canonical);
  Ok canonical.

(** [OracleSourceId::parse]; a source identifier is the string it wraps. *)
Definition source_parse (raw : rstring) : OResult rstring := validate_canonical_source_id raw.

Definition validate_snapshot_window (window_start_ms window_end_ms snapshot_ts_ms : Z) : OResult () :=
  _ ← fail_if (window_end_ms <? window_start_ms) (InvalidWindow window_start_ms window_end_ms);
  fail_if (snapshot_ts_ms <? window_end_ms) (InvalidWindowTimestamp window_end_ms snapshot_ts_ms).

Definition validate_sample_count_against_sources (sample_count actual_sources : Z) : OResult () :=
  _ ← fail_if (sample_count =? 0) InvalidSampleCount;
  fail_if (sample_count <? actual_sources) (InconsistentSampleCount actual_sources sample_count).

(** [str::as_bytes] *)
Definition utf8_char (c : Z) : list Z :=
  if c <? 128 then [c]
  else if c <? 2048 then [192 + c / 64; 128 + c mod 64]
  else if c <? 65536 then [224 + c / 4096; 128 + c / 64 mod 64; 128 + c mod 64]
  else [240 + c / 262144; 128 + c / 4096 mod 64; 128 + c / 64 mod 64; 128 + c mod 64].
Definition as_bytes (s : rstring) : list Z := mjoin (utf8_char <$> s).

Definition is_ascii_hexdigit (b : Z) : bool :=
  ((48 <=? b) && (b <=? 57)) || ((65 <=? b) && (b <=? 70)) || ((97 <=? b) && (b <=? 102)).
Definition is_canonical_lower_hex_digest (raw : rstring) : bool :=
  (utf8_len raw =? 64) && forallb (fun byte => is_ascii_hexdigit byte && negb (is_ascii_uppercase byte)) (as_bytes raw).

(** ** Snapshots *)

Record OracleSnapshot := mkSnapshot {
  feed_id : rstring;
  value : Z;
  sources : list rstring;
  sample_count : Z;
  median : option Z;
  mad : option Z;
  window_start_ms : Z;
  window_end_ms : Z;
  snapshot_ts_ms : Z;
  snapshot_hash : rstring;
}.

Definition set_snapshot_hash (h : rstring) (s : OracleSnapshot) : OracleSnapshot :=
  mkSnapshot (feed_id s) (value s) (sources s) (sample_count s) (median s) (mad s) (window_start_ms s) (window_end_ms s) (snapshot_ts_ms s) h.

(** An optional 16-byte integer; [to_le_bytes] of an [i128] is two's complement. *)
Definition option_bytes (v : option Z) : list Z := match v with Some v => [1] ++ le_bytes 16 v | None => [0] end.

(** ** The policy *)

Record OraclePolicy := mkPolicy {
  min_sources : Z;
  max_staleness_ms : Z;
  max_deviation_bps : Z;
  max_update_rate_per_window : Z;
}.

Definition policy_validate (p : OraclePolicy) : OResult () :=
  _ ← fail_if (min_sources p =? 0) (InvalidPolicy (str "min_sources must be > 0"));
  _ ← fail_if (max_staleness_ms p =? 0) (InvalidPolicy (str "max_staleness_ms must be > 0"));
  _ ← fail_if (MAX_DEVIATION_BPS_CAP <? max_deviation_bps p) (InvalidPolicy (str "max_deviation_bps must be <= 10000"));
  _ ← fail_if (max_update_rate_per_window p =? 0) (InvalidPolicy (str "max_update_rate_per_window must be > 0"));
  fail_if (max_update_rate_per_window p <? min_sources p) (InvalidPolicy (str "min_sources must be <= max_update_rate_per_window")).

Definition deviation_reaches_boundary (deviation_bps max_deviation_bps : Z) : bool :=
  (max_deviation_bps <? deviation_bps) || (negb (max_deviation_bps =? 0) && (deviation_bps =? max_deviation_bps)).

(** [abs_diff] and [unsigned_abs] of two [i128] are [u128]. *)
Definition deviation_bps (value baseline : Z) : Z :=
  if baseline =? value then 0
  else if baseline =? 0 then MAX_DEVIATION_BPS_CAP
  else
    let numerator := Z.min u128_max (Z.abs (value - baseline) * MAX_DEVIATION_BPS_CAP) in
    let denominator := Z.abs baseline in
    Z.min (numerator / denominator) MAX_DEVIATION_BPS_CAP.

(** The loop over the sources: the set and the sequence of canonical identifiers so far. *)
Definition source_step (acc : gset (list Z) * list rstring) (source : rstring) : OResult (gset (list Z) * list rstring) :=
  canonical ← validate_canonical_source_id source;
  _ ← fail_if (bool_decide (canonical ∈ acc.1)) DuplicateSources;
  Ok ({[canonical]} ∪ acc.1, acc.2 ++ [canonical]).

Fixpoint check_ordering (l : list rstring) : OResult () :=
  match l with
  | previous :: ((current :: _) as rest) =>
      _ ← fail_if (ord_ltb current previous) (NonCanonicalSourceOrdering previous current);
      check_ordering rest
  | _ => Ok ()
  end.

Definition validate_snapshot_sources (snapshot : OracleSnapshot) : OResult () :=
  '(_, canonical_sequence) ← try_fold source_step (∅, []) (sources snapshot);
  check_ordering canonical_sequence.

Definition canonical_sources (snapshot : OracleSnapshot) : gset (list Z) :=
  list_to_set (omap (fun source =>
    let canonical := to_ascii_lowercase (trim source) in if is_empty canonical then None else Some canonical) (sources snapshot)).
(** [.len() as u32] *)
Definition canonical_source_cardinality (snapshot : OracleSnapshot) : Z := Z.of_nat (size (canonical_sources snapshot)) mod 2 ^ 32.

(** ** Reports *)

Record OracleValidationObservation := mkObservation {
  stale_reject_total : Z; quorum_reject_total : Z; drift_reject_total : Z; accepted_total : Z }.
Record OracleValidationMetrics := mkMetrics {
  oracle_stale_reject_total : Z; oracle_quorum_reject_total : Z; oracle_drift_reject_total : Z;
  oracle_source_cardinality : Z; m_accepted_total : Z; m_sample_count : Z }.

(** [+] on [u32] panics on overflow. *)
Definition add_u32 (a b : Z) : OResult Z := if a + b <=? u32_max then Ok (a + b) else Panic.
(** [a && b] evaluates [b] only when [a] holds. *)
Definition and_if (a : bool) (b : OResult bool) : OResult bool := if a then b else Ok false.

Definition classified_reject_total (o : OracleValidationObservation) : OResult Z :=
  t ← add_u32 (stale_reject_total o) (quorum_reject_total o); add_u32 t (drift_reject_total o).
Definition classified_outcome_total (o : OracleValidationObservation) : OResult Z :=
  rejects ← classified_reject_total o; add_u32 (accepted_total o) rejects.
Definition classified_outcome_conserves_sample_count (o : OracleValidationObservation) (sample_count : Z) : OResult bool :=
  total ← classified_outcome_total o; Ok (total =? sample_count).

Definition m_classified_reject_total (m : OracleValidationMetrics) : OResult Z :=
  t ← add_u32 (oracle_stale_reject_total m) (oracle_quorum_reject_total m); add_u32 t (oracle_drift_reject_total m).
Definition m_classified_outcome_total (m : OracleValidationMetrics) : OResult Z :=
  rejects ← m_classified_reject_total m; add_u32 (m_accepted_total m) rejects.
Definition m_classified_outcome_conserves_sample_count (m : OracleValidationMetrics) : OResult bool :=
  total ← m_classified_outcome_total m; Ok (total =? m_sample_count m).

Record OracleValidationReport := mkReport {
  ok : bool;
  now_ts_ms : Z;
  observation : OracleValidationObservation;
  metrics : OracleValidationMetrics;
  error : option rstring;
}.

Definition observation_matches_metrics (r : OracleValidationReport) : bool :=
  (stale_reject_total (observation r) =? oracle_stale_reject_total (metrics r))
  && (quorum_reject_total (observation r) =? oracle_quorum_reject_total (metrics r))
  && (drift_reject_total (observation r) =? oracle_drift_reject_total (metrics r))
  && (accepted_total (observation r) =? m_accepted_total (metrics r)).

Definition has_non_empty_error_label (r : OracleValidationReport) : bool :=
  match trim <$> error r with Some label => negb (is_empty label) | None => false end.

Definition starts_with (s prefix : rstring) : bool := take (length prefix) s =?? prefix.

Definition has_explicit_unclassified_error_label (r : OracleValidationReport) : bool :=
  match trim <$> error r with
  | Some label => negb (is_empty label) && negb ((label =?? str "stale") || (label =?? str "quorum") || (label =?? str "drift"))
      && negb (starts_with label (str "snapshot hash mismatch:"))
  | None => false
  end.

Definition has_explicit_unclassified_failure_accounting (r : OracleValidationReport) : OResult bool :=
  and_if (negb (ok r) && has_explicit_unclassified_error_label r && (m_accepted_total (metrics r) =? 0))
    (rejects ← m_classified_reject_total (metrics r);
     and_if (rejects =? 0)
       (observed ← classified_reject_total (observation r);
        Ok ((observed =? 0) && (0 <? m_sample_count (metrics r))))).

Definition error_label_matches_accounting (r : OracleValidationReport) : OResult bool :=
  if ok r then Ok (match error r with None => true | Some _ => false end)
  else if has_explicit_unclassified_error_label r then
    rejects ← m_classified_reject_total (metrics r);
    and_if (rejects =? 0) (observed ← classified_reject_total (observation r); Ok (observed =? 0))
  else and_if (has_non_empty_error_label r)
    (rejects ← m_classified_reject_total (metrics r);
     and_if (0 <? rejects) (observed ← classified_reject_total (observation r); Ok (0 <? observed))).

Definition bridge_contract_consistent (r : OracleValidationReport) : OResult bool :=
  let m := metrics r in
  let non_empty_sample := 0 <? m_sample_count m in
  let source_cardinality_consistent := if 0 <? m_accepted_total m then 0 <? oracle_source_cardinality m else true in
  let result_label_consistent :=
    if ok r then match error r with None => true | Some _ => false end && (m_accepted_total m =? m_sample_count m)
    else has_non_empty_error_label r && (m_accepted_total m =? 0) in
  metrics_conserve ← m_classified_outcome_conserves_sample_count m;
  outcome_accounting_consistent ← and_if metrics_conserve (classified_outcome_conserves_sample_count (observation r) (m_sample_count m));
  and_if (non_empty_sample && source_cardinality_consistent && observation_matches_metrics r && result_label_consistent)
    (label_matches ← error_label_matches_accounting r;
     and_if label_matches (or_else outcome_accounting_consistent (has_explicit_unclassified_failure_accounting r))).

Section oracle.
Context `{CryptoCrates}.

Definition compute_hash (s : OracleSnapshot) : rstring :=
  hex_encode (sha256 (as_bytes (feed_id s) ++ [255] ++ le_bytes 16 (value s) ++ [255] ++ le_bytes 4 (zlen (sources s))
    ++ mjoin ((fun source => as_bytes source ++ [255]) <$> sources s) ++ le_bytes 4 (sample_count s) ++ [255]
    ++ option_bytes (median s) ++ option_bytes (mad s)
    ++ le_bytes 8 (window_start_ms s) ++ le_bytes 8 (window_end_ms s) ++ le_bytes 8 (snapshot_ts_ms s))).

(** [sources.len() as u32] *)
Definition source_count (s : OracleSnapshot) : Z := zlen (sources s) mod 2 ^ 32.

(** [OracleSnapshot::new] *)
Definition snapshot_new (feed : rstring) (value : Z) (sources : list rstring) (sample_count : Z) (median mad : option Z)
    (window_start_ms window_end_ms snapshot_ts_ms : Z) : OResult OracleSnapshot :=
  feed_id ← validate_canonical_feed_id feed;
  _ ← validate_snapshot_window window_start_ms window_end_ms snapshot_ts_ms;
  _ ← try_fold (fun _ source => _ ← validate_canonical_source_id source; Ok ()) () sources;
  let sources := sort sources in
  _ ← fail_if (windows2_any (fun a b => a =?? b) sources) DuplicateSources;
  _ ← validate_sample_count_against_sources sample_count (zlen sources mod 2 ^ 32);
  let snapshot := mkSnapshot feed_id value sources sample_count median mad window_start_ms window_end_ms snapshot_ts_ms [] in
  Ok (set_snapshot_hash (compute_hash snapshot) snapshot).

Definition validate_hash (s : OracleSnapshot) : OResult () :=
  let canonical := to_ascii_lowercase (trim (snapshot_hash s)) in
  _ ← fail_if (is_empty canonical) EmptySnapshotHash;
  _ ← fail_if (snapshot_hash s <>? canonical) (NonCanonicalSnapshotHash (snapshot_hash s) canonical);
  _ ← fail_if (negb (is_canonical_lower_hex_digest (snapshot_hash s))) (InvalidSnapshotHashFormat (snapshot_hash s));
  let expected := compute_hash s in
  fail_if (snapshot_hash s <>? expected) (SnapshotHashMismatch expected (snapshot_hash s)).

Definition validate_snapshot (p : OraclePolicy) (s : OracleSnapshot) (now : Z) : OResult () :=
  _ ← policy_validate p;
  _ ← validate_canonical_feed_id (feed_id s);
  _ ← validate_snapshot_window (window_start_ms s) (window_end_ms s) (snapshot_ts_ms s);
  _ ← validate_snapshot_sources s;
  _ ← validate_hash s;
  _ ← fail_if (now <? snapshot_ts_ms s) (FutureSnapshot (snapshot_ts_ms s) now);
  _ ← fail_if (max_staleness_ms p <? Z.max 0 (now - snapshot_ts_ms s)) (StaleSnapshot (snapshot_ts_ms s) now (max_staleness_ms p));
  _ ← validate_sample_count_against_sources (sample_count s) (source_count s);
  _ ← fail_if ((zlen (sources s) <? min_sources p) || (sample_count s <? min_sources p))
        (InsufficientSources (min_sources p) (source_count s) (sample_count s));
  _ ← fail_if (max_update_rate_per_window p <? sample_count s) (UpdateRateExceeded (sample_count s) (max_update_rate_per_window p));
  match median s with
  | Some median =>
      let deviation := deviation_bps (value s) median in
      fail_if (deviation_reaches_boundary deviation (max_deviation_bps p)) (DeviationExceeded deviation (max_deviation_bps p))
  | None => Ok ()
  end.

(** The class and the label of an outcome. *)
Definition classify (r : OResult ()) : OracleValidationObservation * option rstring :=
  let none := mkObservation 0 0 0 0 in
  let stale := mkObservation 1 0 0 0 in
  let quorum := mkObservation 0 1 0 0 in
  match r with
  | Ok _ => (mkObservation 0 0 0 1, None)
  | Err (StaleSnapshot _ _ _) | Err (FutureSnapshot _ _) | Err (InvalidWindow _ _) | Err (InvalidWindowTimestamp _ _) => (stale, Some (str "stale"))
  | Err EmptyFeedId | Err (NonCanonicalFeedId _ _) | Err EmptySourceId | Err (NonCanonicalSourceId _ _)
  | Err (InsufficientSources _ _ _) | Err (InconsistentSampleCount _ _) | Err InvalidSampleCount | Err DuplicateSources
  | Err (NonCanonicalSourceOrdering _ _) | Err EmptySnapshotHash | Err (NonCanonicalSnapshotHash _ _)
  | Err (InvalidSnapshotHashFormat _) => (quorum, Some (str "quorum"))
  | Err (SnapshotHashMismatch expected actual) => (quorum, Some (hash_mismatch_text expected actual))
  | Err (DeviationExceeded _ _) => (mkObservation 0 0 1 0, Some (str "drift"))
  | Err (UpdateRateExceeded _ _) => (none, Some (str "rate"))
  | Err (InvalidPolicy reason) => (none, Some (invalid_policy_text reason))
  | Panic => (none, None)
  end.

Definition validate_snapshot_observed (p : OraclePolicy) (s : OracleSnapshot) (now : Z) : OracleValidationReport :=
  let result := validate_snapshot p s now in
  let '(observation, error) := classify result in
  mkReport (match result with Ok _ => true | _ => false end) now observation
    (mkMetrics (stale_reject_total observation) (quorum_reject_total observation) (drift_reject_total observation)
      (canonical_source_cardinality s) (accepted_total observation) 1) error.

(** ** Identifiers and digests *)

Definition canonical_char (c : Z) : Prop := is_whitespace c = false /\ is_control c = false /\ is_ascii_uppercase c = false.
Definition canonical_id (raw : rstring) : Prop := raw <> [] /\ Forall canonical_char raw.

Lemma existsb_false {A} (f : A -> bool) l : existsb f l = false <-> forall x, x ∈ l -> f x = false.
Proof.
  induction l as [|a l IH]; cbn; [split; [by intros _ x ?%elem_of_nil|done]|]. rewrite orb_false_iff, IH. split.
  - intros [Ha Hl] x [->|Hx]%elem_of_cons; auto.
  - intros Hall. split; [apply Hall; by left|intros x Hx; apply Hall; by right].
Qed.

Lemma trim_start_id s : Forall (fun c => is_whitespace c = false) s -> trim_start s = s.
Proof. destruct 1 as [|c s Hc _]; [done|]. cbn. by rewrite Hc. Qed.

Lemma trim_id s : Forall (fun c => is_whitespace c = false) s -> trim s = s.
Proof.
  intros Hs. unfold trim, trim_end. rewrite (trim_start_id s Hs). rewrite trim_start_id; [apply rev_involutive|]. by apply Forall_rev.
Qed.

Lemma lowercase_id s : Forall (fun c => is_ascii_uppercase c = false) s -> to_ascii_lowercase s = s.
Proof. induction 1 as [|c s Hc _ IH]; [done|]. cbn. unfold is_ascii_uppercase in Hc. rewrite Hc. by f_equal. Qed.

Lemma lowercase_not_upper s : Forall (fun c => is_ascii_uppercase c = false) (to_ascii_lowercase s).
Proof.
  apply Forall_fmap, Forall_forall. intros c _. cbn. unfold is_ascii_uppercase. destruct ((65 <=? c) && (c <=? 90)) eqn:Hc; [|done]. bprop.
  apply andb_false_iff. right. apply Z.leb_gt. lia.
Qed.

Lemma canonical_id_check raw : canonical_id raw <->
  is_empty (to_ascii_lowercase (trim raw)) = false /\ raw = to_ascii_lowercase (trim raw) /\ contains_non_canonical_id_chars raw = false.
Proof.
  unfold canonical_id, canonical_char, contains_non_canonical_id_chars. split.
  - intros [Hne Hall]. rewrite !Forall_and in Hall. destruct Hall as (Hw & Hc & Hu). rewrite (trim_id raw Hw), (lowercase_id raw Hu). split_and!; [by destruct raw|done|].
    apply existsb_false. intros x Hx. rewrite Forall_forall in Hw, Hc. apply orb_false_iff. auto.
  - intros (Hne & Heq & Hx). split; [rewrite Heq; by destruct (to_ascii_lowercase _)|]. apply Forall_forall. intros c Hc.
    assert (is_ascii_uppercase c = false) as Hu. { pose proof (lowercase_not_upper (trim raw)) as Hl. rewrite <- Heq, Forall_forall in Hl. auto. }
    rewrite existsb_false in Hx. specialize (Hx c Hc). apply orb_false_iff in Hx as [? ?]. done.
Qed.

Lemma source_id_Ok raw c : validate_canonical_source_id raw = Ok c <-> canonical_id raw /\ c = raw.
Proof.
  unfold validate_canonical_source_id. rewrite canonical_id_check. split.
  - intros Hv. apply bind_Ok in Hv as (? & H1 & Hv). apply fail_if_Ok in H1. apply bind_Ok in Hv as (? & H2 & Hv). apply fail_if_Ok in H2. bprop.
    apply Ok_inj in Hv. split_and!; congruence.
  - intros [(H1 & H2 & H3) ->]. rewrite H1. cbn [fail_if mbind result_bind]. rewrite (bool_decide_eq_true_2 _ H2), H3. cbn. by rewrite <- H2.
Qed.

Lemma feed_id_Ok raw c : validate_canonical_feed_id raw = Ok c <-> canonical_id raw /\ c = raw.
Proof.
  unfold validate_canonical_feed_id. rewrite canonical_id_check. split.
  - intros Hv. apply bind_Ok in Hv as (? & H1 & Hv). apply fail_if_Ok in H1. apply bind_Ok in Hv as (? & H2 & Hv). apply fail_if_Ok in H2. bprop.
    apply Ok_inj in Hv. split_and!; congruence.
  - intros [(H1 & H2 & H3) ->]. rewrite H1. cbn [fail_if mbind result_bind]. rewrite (bool_decide_eq_true_2 _ H2), H3. cbn. by rewrite <- H2.
Qed.

(** ** Sources *)

Abbreviation strictly_sorted l := (StronglySorted (fun a b => ord_ltb a b = true) l).

Lemma source_fold l : forall seen acc r, try_fold source_step (seen, acc) l = Ok r ->
  Forall canonical_id l /\ NoDup l /\ (forall x, x ∈ l -> x ∉ seen) /\ r.2 = acc ++ l.
Proof.
  induction l as [|x l IH]; intros seen acc r Hf.
  - apply Ok_inj in Hf. subst r. split_and!; [done|by constructor|by intros ? ?%elem_of_nil|by rewrite app_nil_r].
  - cbn [try_fold] in Hf. apply bind_Ok in Hf as ([seen1 acc1] & Hs & Hf). unfold source_step in Hs. apply bind_Ok in Hs as (c & Hc & Hs). apply source_id_Ok in Hc as [Hc ->].
    apply bind_Ok in Hs as (? & Hd & Hs). apply fail_if_Ok in Hd. bprop. apply Ok_inj in Hs. injection Hs as <- <-. destruct (IH _ _ _ Hf) as (H1 & H2 & H3 & ->). cbn [snd fst] in *.
    split_and!; [by constructor| | |by rewrite <- app_assoc].
    + constructor; [|done]. intros Hx. specialize (H3 x Hx). set_solver.
    + intros y [->|Hy]%elem_of_cons; [done|]. specialize (H3 y Hy). set_solver.
Qed.

Lemma source_fold_ok l : forall seen acc, Forall canonical_id l -> NoDup l -> (forall x, x ∈ l -> x ∉ seen) ->
  exists seen', try_fold source_step (seen, acc) l = Ok (seen', acc ++ l).
Proof.
  induction l as [|x l IH]; intros seen acc Hc Hn Hs; [exists seen; by rewrite app_nil_r|]. apply Forall_cons in Hc as [Hx Hc]. apply NoDup_cons in Hn as [Hxl Hn].
  cbn [try_fold]. assert (source_step (seen, acc) x = Ok ({[x]} ∪ seen, acc ++ [x])) as ->.
  { unfold source_step. rewrite (proj2 (source_id_Ok x x)) by done. cbn [mbind result_bind fst snd]. by rewrite bool_decide_false by (apply Hs; by left). }
  cbn [mbind result_bind]. destruct (IH ({[x]} ∪ seen) (acc ++ [x]) Hc Hn) as [seen' Hf]; [|exists seen'; by rewrite Hf, <- app_assoc].
  intros y Hy Hin. apply elem_of_union in Hin as [->%elem_of_singleton|Hin]; [done|]. by apply (Hs y); [right|].
Qed.

Lemma ordering_strict l : NoDup l -> check_ordering l = Ok () -> strictly_sorted l.
Proof.
  intros Hn Ho. apply (windows2_strict id). induction l as [|a l IH]; [done|]. destruct l as [|b l]; [done|].
  cbn [check_ordering] in Ho. apply bind_Ok in Ho as (? & Hf & Ho). apply fail_if_Ok in Hf. apply NoDup_cons in Hn as [Ha Hn].
  change (ord_leb b a || windows2_any (fun a b => ord_leb (id b) (id a)) (b :: l) = false). apply orb_false_iff. split; [|by apply IH].
  rewrite ord_ltb_leb in Hf. apply negb_false_iff in Hf. destruct (ord_leb b a) eqn:E; [|done]. exfalso. apply Ha. rewrite (anti_symm ord_le a b Hf E). by left.
Qed.

Lemma strict_ordering l : strictly_sorted l -> NoDup l /\ check_ordering l = Ok ().
Proof.
  intros Hs. split; [pose proof (strict_keys_NoDup id l Hs) as Hn; by rewrite list_fmap_id in Hn|].
  induction Hs as [|a l Hs IH Hall]; [done|]. destruct l as [|b l]; [done|]. cbn [check_ordering]. apply Forall_cons in Hall as [Hab _].
  assert (ord_ltb b a = false) as ->; [|done]. rewrite ord_ltb_leb in *. apply negb_true_iff in Hab. rewrite negb_false_iff.
  destruct (ord_leb a b) eqn:E; [done|]. destruct (total ord_le a b) as [F|F]; unfold ord_le in F; congruence.
Qed.

Lemma sources_Ok s : validate_snapshot_sources s = Ok () <-> Forall canonical_id (sources s) /\ strictly_sorted (sources s).
Proof.
  unfold validate_snapshot_sources. split.
  - intros Hv. apply bind_Ok in Hv as ([seen l] & Hf & Ho). apply source_fold in Hf as (Hc & Hn & _ & Hl). cbn in Hl. subst l. split; [done|by apply ordering_strict].
  - intros [Hc Hs]. destruct (strict_ordering _ Hs) as [Hn Ho]. destruct (source_fold_ok (sources s) ∅ [] Hc Hn) as [seen Hf]; [set_solver|]. by rewrite Hf.
Qed.

(** ** Digests *)

Lemma utf8_hex c : forallb (fun b => is_ascii_hexdigit b && negb (is_ascii_uppercase b)) (utf8_char c) = true ->
  is_ascii_hexdigit c = true /\ is_ascii_uppercase c = false.
Proof.
  unfold utf8_char. destruct (c <? 128) eqn:H1; [cbn; intros Hx; by bprop|]. bprop. intros Hx. exfalso.
  assert (Hbig : forall b l, 103 <= b -> forallb (fun b => is_ascii_hexdigit b && negb (is_ascii_uppercase b)) (b :: l) = true -> False).
  { intros b l Hb Hf. cbn in Hf. apply andb_true_iff in Hf as [Hf _]. apply andb_true_iff in Hf as [Hf _]. unfold is_ascii_hexdigit in Hf.
    rewrite !(proj2 (Z.leb_gt b _)) in Hf by lia. by rewrite !andb_false_r in Hf. }
  destruct (c <? 2048); [|destruct (c <? 65536)]; (eapply Hbig; [|exact Hx]); [pose proof (Z.div_pos c 64)|pose proof (Z.div_pos c 4096)|pose proof (Z.div_pos c 262144)]; lia.
Qed.

Lemma hex_digest_chars raw : is_canonical_lower_hex_digest raw = true ->
  raw <> [] /\ Forall (fun c => is_whitespace c = false) raw /\ Forall (fun c => is_ascii_uppercase c = false) raw.
Proof.
  unfold is_canonical_lower_hex_digest. intros Hd. bprop. split; [by intros ->|]. apply Forall_and, Forall_forall. intros c Hc.
  assert (Hu : forallb (fun b => is_ascii_hexdigit b && negb (is_ascii_uppercase b)) (utf8_char c) = true).
  { apply forallb_forall. intros b Hb. match goal with Hf : forallb _ (as_bytes raw) = true |- _ => rewrite forallb_forall in Hf; apply Hf end.
    apply list_elem_of_In. unfold as_bytes. apply list_elem_of_join. exists (utf8_char c). split; [by apply list_elem_of_In|]. by apply list_elem_of_fmap_2. }
  destruct (utf8_hex c Hu) as [Hh Hup]. split; [|done]. unfold is_ascii_hexdigit in Hh. unfold is_whitespace.
  apply orb_true_iff in Hh as [Hh|Hh]; [apply orb_true_iff in Hh as [Hh|Hh]|]; bprop; rewrite !orb_false_iff, !andb_false_iff, ?Z.eqb_neq, ?Z.leb_gt; lia.
Qed.

Lemma hash_Ok s : validate_hash s = Ok () <-> is_canonical_lower_hex_digest (snapshot_hash s) = true /\ snapshot_hash s = compute_hash s.
Proof.
  unfold validate_hash. split.
  - intros Hv. apply bind_Ok in Hv as (? & _ & Hv). apply bind_Ok in Hv as (? & _ & Hv). apply bind_Ok in Hv as (? & H1 & Hv). apply fail_if_Ok in H1, Hv. by bprop.
  - intros [Hd Hh]. destruct (hex_digest_chars _ Hd) as (Hne & Hw & Hu). rewrite (trim_id _ Hw), (lowercase_id _ Hu).
    assert (is_empty (snapshot_hash s) = false) as -> by (by destruct (snapshot_hash s)). cbn [fail_if mbind result_bind].
    rewrite (bool_decide_eq_true_2 (snapshot_hash s = snapshot_hash s) eq_refl), Hd, (bool_decide_eq_true_2 _ Hh). done.
Qed.

(** ** Deviation *)

(** The value is the median, or its distance is less than [max] basis points of it.  A
    [max] of zero counts as one: the code rounds the distance down to whole basis points,
    so a bound of zero admits every drift below one basis point. *)
Definition within_deviation (max value median : Z) : Prop :=
  value = median \/ (median <> 0 /\ Z.abs (value - median) * MAX_DEVIATION_BPS_CAP < Z.max 1 max * Z.abs median).

Lemma deviation_exact max value median : 0 <= max <= MAX_DEVIATION_BPS_CAP -> Z.abs (value - median) * MAX_DEVIATION_BPS_CAP <= u128_max ->
  deviation_reaches_boundary (deviation_bps value median) max = false <-> within_deviation max value median.
Proof.
  intros Hm Hr. unfold deviation_reaches_boundary, deviation_bps, within_deviation, MAX_DEVIATION_BPS_CAP in *.
  destruct (Z.eqb_spec median value) as [->|Hne].
  { split; [by left|]. intros _. rewrite (proj2 (Z.ltb_ge _ _)) by lia. destruct (Z.eqb_spec max 0); [done|]. cbn [negb andb orb]. apply Z.eqb_neq. lia. }
  destruct (Z.eqb_spec median 0) as [->|Hz].
  { split; [|intros [->|[? _]]; done]. rewrite orb_false_iff. intros [H1 H2]. apply Z.ltb_ge in H1. assert (max = 10000) as -> by lia. done. }
  rewrite (Z.min_r u128_max) by done. set (x := Z.abs (value - median) * 10000) in *. set (d := Z.abs median).
  assert (Hd : 0 < d) by (unfold d; lia). assert (Hx : 0 <= x) by (unfold x; lia). pose proof (Z.div_pos x d Hx Hd) as Hq.
  assert (Hlt : forall k, x / d < k <-> x < k * d). { intros k. split; intros ?; [|apply Z.div_lt_upper_bound; lia]. pose proof (Z.mul_succ_div_gt x d Hd). nia. }
  rewrite orb_false_iff, andb_false_iff, negb_false_iff, Z.ltb_ge, Z.eqb_eq, Z.eqb_neq. split.
  - intros [H1 H2]. right. split; [done|]. destruct (Z.eq_dec max 0) as [->|Hnz]; [rewrite Z.max_l by lia|rewrite Z.max_r by lia]; apply Hlt; lia.
  - intros [->|[_ Hw]]; [done|]. destruct (Z.eq_dec max 0) as [->|Hnz]; [rewrite Z.max_l in Hw by lia|rewrite Z.max_r in Hw by lia]; apply Hlt in Hw; lia.
Qed.

(** Beyond that range the product saturates and the reported deviation is too small: a
    value twice its median is admitted under a bound of 5000 basis points. *)
Example deviation_saturates :
  let median := 10 ^ 35 in let value := 2 * 10 ^ 35 in
  deviation_bps value median = 3402 /\ deviation_reaches_boundary (deviation_bps value median) 5000 = false /\ ~ within_deviation 5000 value median.
Proof.
  cbn zeta. split; [vm_compute; reflexivity|]. split; [vm_compute; reflexivity|]. unfold within_deviation, MAX_DEVIATION_BPS_CAP. intros [Hv|[_ Hv]]; lia.
Qed.

(** ** Admission *)

Record typed_policy (p : OraclePolicy) : Prop := {
  tp_min : 0 <= min_sources p <= u32_max;
  tp_staleness : in_u64 (max_staleness_ms p);
  tp_deviation : 0 <= max_deviation_bps p <= u32_max;
  tp_rate : 0 <= max_update_rate_per_window p <= u32_max;
}.

Record admissible (p : OraclePolicy) (s : OracleSnapshot) (now : Z) : Prop := {
  ad_policy : 0 < max_staleness_ms p /\ max_deviation_bps p <= MAX_DEVIATION_BPS_CAP;
  ad_feed : canonical_id (feed_id s);
  ad_sources : Forall canonical_id (sources s) /\ strictly_sorted (sources s);
  ad_hash : is_canonical_lower_hex_digest (snapshot_hash s) = true /\ snapshot_hash s = compute_hash s;
  ad_time : window_start_ms s <= window_end_ms s <= snapshot_ts_ms s /\ snapshot_ts_ms s <= now <= snapshot_ts_ms s + max_staleness_ms p;
  ad_quorum : 0 < min_sources p <= zlen (sources s) /\ zlen (sources s) <= sample_count s <= max_update_rate_per_window p;
  ad_deviation m : median s = Some m -> within_deviation (max_deviation_bps p) (value s) m;
}.

Lemma source_count_exact s : zlen (sources s) <= u32_max -> source_count s = zlen (sources s).
Proof. intros Hl. unfold source_count. apply Z.mod_small. pose proof (zlen_nonneg (sources s)). unfold u32_max in *. lia. Qed.

Lemma admitted_ok p s now : typed_policy p -> zlen (sources s) <= u32_max ->
  (forall m, median s = Some m -> Z.abs (value s - m) * MAX_DEVIATION_BPS_CAP <= u128_max) ->
  validate_snapshot p s now = Ok () -> admissible p s now.
Proof.
  intros [T1 T2 T3 T4] Hl Hr Hv. unfold validate_snapshot in Hv. rewrite source_count_exact in Hv by done.
  apply bind_Ok in Hv as (? & Hp & Hv). unfold policy_validate in Hp. do 4 (apply bind_Ok in Hp as (? & ?%fail_if_Ok & Hp)). apply fail_if_Ok in Hp.
  apply bind_Ok in Hv as (f & [Hf _]%feed_id_Ok & Hv). apply bind_Ok in Hv as (? & Hw & Hv). unfold validate_snapshot_window in Hw. apply bind_Ok in Hw as (? & ?%fail_if_Ok & Hw%fail_if_Ok).
  apply bind_Ok in Hv as ([] & Hs%sources_Ok & Hv). apply bind_Ok in Hv as ([] & Hh%hash_Ok & Hv). do 2 (apply bind_Ok in Hv as (? & ?%fail_if_Ok & Hv)).
  apply bind_Ok in Hv as (? & Hc & Hv). unfold validate_sample_count_against_sources in Hc. apply bind_Ok in Hc as (? & ?%fail_if_Ok & Hc%fail_if_Ok).
  do 2 (apply bind_Ok in Hv as (? & ?%fail_if_Ok & Hv)). bprop. split; try done; try lia.
  intros m Hm. rewrite Hm in Hv. apply fail_if_Ok in Hv. apply deviation_exact; [lia|by apply Hr|done].
Qed.

Lemma admissible_ok p s now : zlen (sources s) <= u32_max -> 0 <= max_deviation_bps p ->
  (forall m, median s = Some m -> Z.abs (value s - m) * MAX_DEVIATION_BPS_CAP <= u128_max) ->
  admissible p s now -> validate_snapshot p s now = Ok ().
Proof.
  intros Hl Hd Hr [[P1 P2] Hf Hs Hh [[W1 W2] [N1 N2]] [[Q1 Q2] [Q3 Q4]] Hdev]. unfold validate_snapshot. rewrite source_count_exact by done.
  assert (policy_validate p = Ok ()) as ->.
  { unfold policy_validate. rewrite !(proj2 (Z.eqb_neq _ _)), !(proj2 (Z.ltb_ge _ _)) by lia. done. }
  cbn [mbind result_bind]. rewrite (proj2 (feed_id_Ok _ _) (conj Hf eq_refl)). cbn [mbind result_bind].
  unfold validate_snapshot_window. rewrite !(proj2 (Z.ltb_ge (window_end_ms s) _)), !(proj2 (Z.ltb_ge (snapshot_ts_ms s) _)) by lia. cbn [fail_if mbind result_bind].
  rewrite (proj2 (sources_Ok s) Hs), (proj2 (hash_Ok s) Hh). cbn [mbind result_bind].
  rewrite (proj2 (Z.ltb_ge now _)), (proj2 (Z.ltb_ge (max_staleness_ms p) _)) by lia. cbn [fail_if mbind result_bind].
  unfold validate_sample_count_against_sources. rewrite (proj2 (Z.eqb_neq _ _)), (proj2 (Z.ltb_ge (sample_count s) _)) by lia. cbn [fail_if mbind result_bind].
  rewrite (proj2 (Z.ltb_ge (zlen (sources s)) _)), (proj2 (Z.ltb_ge (sample_count s) _)), (proj2 (Z.ltb_ge (max_update_rate_per_window p) _)) by lia. cbn [orb fail_if mbind result_bind].
  destruct (median s) as [m|] eqn:Hm; [|done]. by rewrite (proj2 (deviation_exact _ _ _ (conj Hd P2) (Hr m eq_refl)) (Hdev m eq_refl)).
Qed.

(** C29: The oracle admits exactly the admissible snapshots.  Under a typed policy, with
    fewer than 2^32 sources and a deviation product within 128 bits, a snapshot validates
    exactly when the policy is sensible, the feed is a canonical identifier, the sources are
    canonical and strictly sorted, the stored digest is the lowercase hexadecimal digest of
    the snapshot, the window precedes a snapshot that is neither in the future nor stale,
    the sources reach the quorum and the samples cover them within the update rate, and the
    value is the median or less than the deviation bound away from it.  A bound of zero
    basis points admits what a bound of one does: a drift below one basis point is admitted
    ([zero_deviation_admits_drift]). *)
Theorem oracle_admits_exactly p s now : typed_policy p -> zlen (sources s) <= u32_max ->
  (forall m, median s = Some m -> Z.abs (value s - m) * MAX_DEVIATION_BPS_CAP <= u128_max) ->
  validate_snapshot p s now = Ok () <-> admissible p s now.
Proof. intros Hp Hl Hr. split; [by apply admitted_ok|apply admissible_ok; [done|apply Hp|done]]. Qed.

(** ** Reports *)

Lemma trim_start_app a b : is_whitespace (default 32 (head b)) = false -> exists z, trim_start (a ++ b) = z ++ b.
Proof.
  intros Hb. induction a as [|c a IH]; cbn.
  - destruct b as [|c b]; [done|]. cbn in Hb. exists []. cbn. by rewrite Hb.
  - destruct (is_whitespace c); [done|]. by exists (c :: a).
Qed.

(** A prefix that begins and ends with visible characters survives [trim]. *)
Lemma trim_prefix p x : is_whitespace (default 32 (head p)) = false -> is_whitespace (default 32 (head (rev p))) = false -> exists y, trim (p ++ x) = p ++ y.
Proof.
  intros Hp Hl. unfold trim, trim_end. assert (trim_start (p ++ x) = p ++ x) as ->. { destruct p as [|c p]; [done|]. cbn in *. by rewrite Hp. }
  rewrite rev_app_distr. destruct (trim_start_app (rev x) (rev p) Hl) as [z ->]. exists (rev z). by rewrite rev_app_distr, rev_involutive.
Qed.

Lemma validate_snapshot_not_panic p s now : validate_snapshot p s now <> Panic.
Proof.
  assert (Hsrc : forall l acc, try_fold source_step acc l <> Panic).
  { induction l as [|x l IH]; intros acc; [done|]. cbn [try_fold]. apply bind_not_panic; [|intros acc' _; apply IH]. unfold source_step, validate_canonical_source_id. no_panic. }
  assert (Hord : forall l, check_ordering l <> Panic). { induction l as [|a [|b l] IH]; [done|done|]. cbn [check_ordering]. apply bind_not_panic; [no_panic|intros _ _; exact IH]. }
  unfold validate_snapshot, policy_validate, validate_canonical_feed_id, validate_snapshot_window, validate_hash, validate_sample_count_against_sources, validate_snapshot_sources.
  no_panic; [apply Hsrc|apply Hord|]. destruct (median s); no_panic.
Qed.

Lemma canonical_sources_size s : (size (canonical_sources s) <= length (sources s))%nat.
Proof.
  unfold canonical_sources. induction (sources s) as [|x l IH]; [done|]. cbn [omap list_omap length].
  destruct (is_empty _); [by apply le_S|]. rewrite list_to_set_cons, size_union_alt, size_singleton.
  apply le_n_S. etrans; [|exact IH]. apply subseteq_size. set_solver.
Qed.

Lemma admitted_sources p s now : 0 <= min_sources p -> zlen (sources s) <= u32_max -> validate_snapshot p s now = Ok () -> 0 < canonical_source_cardinality s.
Proof.
  intros Hm Hlen Hv. unfold validate_snapshot in Hv. apply bind_Ok in Hv as (? & Hp & Hv). unfold policy_validate in Hp. apply bind_Ok in Hp as (? & Hmin%fail_if_Ok & _).
  do 2 (apply bind_Ok in Hv as (? & _ & Hv)). apply bind_Ok in Hv as ([] & [Hc _]%sources_Ok & Hv). do 4 (apply bind_Ok in Hv as (? & _ & Hv)).
  apply bind_Ok in Hv as (? & Hq%fail_if_Ok & _). bprop. destruct (sources s) as [|src l] eqn:Hs; [unfold zlen in *; cbn in *; lia|].
  apply Forall_cons in Hc as [Hx _]. apply canonical_id_check in Hx as (Hne & Heq & _).
  pose proof (canonical_sources_size s) as Hsize.
  assert (Hpos : size (canonical_sources s) <> O); [|unfold canonical_source_cardinality; rewrite Z.mod_small; rewrite ?Hs in *; unfold zlen, u32_max in *; lia].
  unfold canonical_sources. rewrite Hs.
  assert (Hin : src ∈ (list_to_set (omap (fun source => let canonical := to_ascii_lowercase (trim source) in if is_empty canonical then None else Some canonical) (src :: l)) : gset (list Z))).
  { apply elem_of_list_to_set, list_elem_of_omap. exists src. split; [by left|]. cbn zeta. rewrite Hne. by rewrite <- Heq. }
  intros Hz%size_empty_inv. set_solver.
Qed.

(** Every report of a validation is one that the bridge contract accepts: one sample,
    counted once as accepted or rejected in the class of its label (or as an explicitly
    unclassified failure), the observation equal to the metrics, a label exactly when the
    snapshot was refused, and a source behind every accepted snapshot (of fewer than 2^32
    sources, since the cardinality is truncated to 32 bits). *)
Theorem observed_reports_are_consistent p s now : 0 <= min_sources p -> zlen (sources s) <= u32_max ->
  bridge_contract_consistent (validate_snapshot_observed p s now) = Ok true.
Proof.
  intros Hm Hlen. unfold validate_snapshot_observed. pose proof (validate_snapshot_not_panic p s now) as Hnp. pose proof (admitted_sources p s now Hm Hlen) as Hsrc.
  destruct (validate_snapshot p s now) as [[]|e|]; [|clear Hsrc Hnp|done].
  - specialize (Hsrc eq_refl). cbn [classify]. unfold bridge_contract_consistent. cbn -[Z.ltb Z.eqb]. rewrite (proj2 (Z.ltb_lt _ _) Hsrc). done.
  - destruct e; try (vm_compute; reflexivity).
    + destruct (trim_prefix (str "snapshot hash mismatch:") (str " expected=" ++ expected ++ str ", actual=" ++ actual)) as [y Hy]; [done|done|].
      change (str "snapshot hash mismatch:" ++ str " expected=" ++ expected ++ str ", actual=" ++ actual) with (hash_mismatch_text expected actual) in Hy.
      cbn [classify]. unfold bridge_contract_consistent, error_label_matches_accounting, has_explicit_unclassified_failure_accounting, has_explicit_unclassified_error_label, has_non_empty_error_label.
      cbn [error option_map fmap option_fmap]. rewrite Hy. unfold starts_with. rewrite take_app_length. rewrite (bool_decide_eq_true_2 (str "snapshot hash mismatch:" = _) eq_refl). done.
    + destruct (trim_prefix (str "invalid policy:") (str " " ++ reason)) as [y Hy]; [done|done|].
      change (str "invalid policy:" ++ str " " ++ reason) with (invalid_policy_text reason) in Hy.
      cbn [classify]. unfold bridge_contract_consistent, error_label_matches_accounting, has_explicit_unclassified_failure_accounting, has_explicit_unclassified_error_label, has_non_empty_error_label.
      cbn [error option_map fmap option_fmap]. rewrite Hy. unfold starts_with. rewrite !bool_decide_false by done. done.
Qed.

(** ** New snapshots *)

Lemma sorted_distinct_strict (l : list rstring) : StronglySorted ord_le l -> windows2_any (fun a b => a =?? b) l = false -> strictly_sorted l.
Proof.
  intros Hs Hw. apply (windows2_strict id). induction Hs as [|a l Hs IH Hall]; [done|]. destruct l as [|b l]; [done|].
  change ((a =?? b) || windows2_any (fun a b => a =?? b) (b :: l) = false) in Hw. apply orb_false_iff in Hw as [Hab Hw]. bprop.
  change (ord_leb b a || windows2_any (fun a b => ord_leb (id b) (id a)) (b :: l) = false). apply orb_false_iff. split; [|by apply IH].
  apply Forall_cons in Hall as [Hle _]. destruct (ord_leb b a) eqn:E; [|done]. by rewrite (anti_symm ord_le a b Hle E) in Hab.
Qed.

(** A snapshot that [new] builds has canonical, sorted sources and its own digest: it is
    admissible as far as the policy and the time allow. *)
Lemma new_snapshot_canonical feed v srcs n med md ws we ts s : snapshot_new feed v srcs n med md ws we ts = Ok s ->
  canonical_id (feed_id s) /\ validate_snapshot_sources s = Ok () /\ sources s ≡ₚ srcs /\ ws <= we <= ts /\
  (is_canonical_lower_hex_digest (compute_hash s) = true -> validate_hash s = Ok ()).
Proof.
  unfold snapshot_new. intros Hn. apply bind_Ok in Hn as (f & [Hf ->]%feed_id_Ok & Hn). apply bind_Ok in Hn as (? & Hw & Hn). unfold validate_snapshot_window in Hw.
  apply bind_Ok in Hw as (? & ?%fail_if_Ok & ?%fail_if_Ok). apply bind_Ok in Hn as (? & Hc & Hn). apply bind_Ok in Hn as (? & Hd%fail_if_Ok & Hn).
  apply bind_Ok in Hn as (? & _ & Hn). apply Ok_inj in Hn. subst s. bprop.
  assert (Hall : Forall canonical_id srcs).
  { assert (Hgen : forall l u r, try_fold (fun (_ : ()) source => _ ← validate_canonical_source_id source; Ok ()) u l = Ok r -> Forall canonical_id l); [|by eapply Hgen].
    clear. induction l as [|x l IH]; intros u r Hc; [done|]. cbn [try_fold] in Hc. apply bind_Ok in Hc as (u' & Hx & Hc).
    apply bind_Ok in Hx as (c & [Hx _]%source_id_Ok & _). constructor; [done|by eapply IH]. }
  split_and!; [done| |apply sort_perm|lia|lia|].
  - apply sources_Ok. cbn. split; [by rewrite sort_perm|]. by apply sorted_distinct_strict; [apply sort_sorted|].
  - intros Hx. apply hash_Ok. done.
Qed.

End oracle.

(** ** A snapshot of three sources *)

Module OracleWitness.

#[local] Instance oracle_crates : CryptoCrates := {
  sha256 m := le_bytes 32 (foldl (fun a b => (a * 31 + b) mod 65521) 7 m);
  hex_encode b := mjoin ((fun x => let digit d := if d <? 10 then 48 + d else 87 + d in [digit (x / 16); digit (x mod 16)]) <$> b);
  hex_decode s := None;
  hex_decode_to_slice s n := None;
  VerifyingKey := list Z;
  vk_from_bytes b := Some b;
  vk_to_bytes k := k;
  verify_strict k m s := s =?? (k ++ m);
  SigningKey := list Z;
  sk_from_bytes b := b;
  sk_verifying_key k := k;
  sk_sign k m := k ++ m;
}.

Definition policy : OraclePolicy := mkPolicy 2 5000 500 60.
Definition snapshot : OracleSnapshot :=
  match snapshot_new (str "eth-usd") 10200 [str "pyth"; str "band"; str "chainlink"] 3 (Some 10000) (Some 12) 1000 2000 2100 with
  | Ok s => s | _ => mkSnapshot [] 0 [] 0 None None 0 0 0 [] end.

Lemma policy_typed : typed_policy policy.
Proof. split; unfold in_u64, u64_max, u32_max; cbn; lia. Qed.

Lemma oracle_admits_exactly_witness : sources snapshot = [str "band"; str "chainlink"; str "pyth"] /\ admissible policy snapshot 3000.
Proof.
  split; [vm_compute; reflexivity|]. apply (oracle_admits_exactly policy snapshot 3000 policy_typed).
  - vm_compute. discriminate.
  - intros m Hm. assert (m = 10000) as -> by (vm_compute in Hm; congruence). vm_compute. discriminate.
  - vm_compute. reflexivity.
Defined.

Lemma observed_reports_are_consistent_witness :
  ok (validate_snapshot_observed policy snapshot 9000) = false /\ bridge_contract_consistent (validate_snapshot_observed policy snapshot 9000) = Ok true.
Proof. split; [vm_compute; reflexivity|]. apply (observed_reports_are_consistent policy snapshot 9000); [cbn; lia|vm_compute; discriminate]. Defined.

(** A policy without deviation admits a value that differs from the median by less than one
    basis point. *)
Definition zero_policy : OraclePolicy := mkPolicy 2 5000 0 60.
Definition drifted_snapshot : OracleSnapshot :=
  match snapshot_new (str "eth-usd") 100001 [str "pyth"; str "band"; str "chainlink"] 3 (Some 100000) None 1000 2000 2100 with
  | Ok s => s | _ => mkSnapshot [] 0 [] 0 None None 0 0 0 [] end.

Example zero_deviation_admits_drift :
  value drifted_snapshot = 100001 /\ median drifted_snapshot = Some 100000 /\ validate_snapshot zero_policy drifted_snapshot 3000 = Ok ().
Proof. vm_compute. done. Qed.

(** The totals of a report that was not produced by a validation can overflow. *)
Example classified_total_overflows : classified_reject_total (mkObservation u32_max 1 0 0) = Panic.
Proof. reflexivity. Qed.

End OracleWitness.
